(* ===== verification/_CoqProject ===== *)
-Q . S2P
Prelude.v
LoraField.v
HeliumNetids.v
Solana.v
PacketBalances.v
PacketVerifier.v
PacketSystem.v
Text.v
FileStoreTypes.v
Decimal.v
IotReports.v
Scheduler.v
IotRewards.v
IotShareTables.v
DenyList.v
IotPoc.v
IotReportTable.v
IotRunner.v
MobileSpeedtests.v
MobileCoverage.v
MobileHeartbeats.v
MobileRewards.v
MobilePots.v
MobilePoints.v
MobilePeriod.v
ConfigTables.v
ConfigOrgs.v
ConfigRoutes.v
ConfigRouteService.v
ConfigOrgService.v
ConfigStream.v
ConfigExamples.v
ConfigAdmin.v
FileNames.v
FileSink.v
FileLog.v
FilePipeline.v
FilePoller.v
IotDensity.v
IotPackets.v
IotLoader.v
MobileSessions.v
MobileDaemon.v
RewardIndex.v
Price.v
Ingest.v
TaskManager.v
Entropy.v
