(* ===== verification/Prelude.v ===== *)
(** * Helium oracles: a verification development

    The repository is the workspace of the oracles of the Helium network: services
    that receive reports from gateways and radios, decide which are valid, keep the
    accounts of data credits, and publish who is paid what in each reward period.

    ** The parts and how they interact

    Gateways and radios send reports to [ingest], which writes them to files.
    [file_store] has the sinks that write files, the pollers that read them, and the
    types of reports with their protobuf form.  [poc_entropy] makes the entropy that
    gateways put into their beacons.  The IoT side: [iot_verifier] joins beacons and
    witnesses of a proof-of-coverage (PoC) in its report tables, a runner verifies
    them against the gateways and regions that [iot_config] serves and against the
    [denylist], and its rewarder turns the accepted ones and the data-transfer shares
    into reward shares.  [iot_packet_verifier] charges packets to organizations whose
    escrow accounts live on Solana, and has [iot_config] enable and disable them.
    The mobile side: [mobile_packet_verifier] charges data sessions,
    [mobile_verifier] verifies heartbeats, speedtests, coverage objects, data
    sessions and subscriber locations, and its rewarder ranks radios in
    the hexes they cover.  [reward_scheduler] gives both rewarders their periods,
    [price] the prices, and [reward_index] adds up what they wrote.

    ** The files

    - [Prelude]: results and their bind, machine integers as [Z] with explicit
      wrapping, sums, sorting, grouped rows, lemmas shared by the components.
    - [LoraField], [HeliumNetids]: [iot_config/src/lora_field.rs] and
      [helium_netids.rs], the ranges of device addresses and how they are leased.
    - [Solana]: the retry loops of [solana/src/lib.rs].
    - [PacketBalances], [PacketVerifier], [PacketSystem]: [iot_packet_verifier]
      ([balances.rs], [pending.rs], [burner.rs]; [verifier.rs]; their composition
      as a step relation with the balances on chain).
    - [Text], [FileStoreTypes], [IotReports]: [file_store]'s timestamps and errors
      and the IoT report types with their conversions.
    - [Decimal]: [rust_decimal], which is not part of the repository, as a class of
      operations and a class of laws, with the rational numbers as an instance.
    - [Scheduler]: [reward_scheduler] and the loops of the two rewarders.
    - [IotRewards], [IotShareTables]: [iot_verifier/src/reward_share.rs] and
      [rewarder.rs].
    - [DenyList]: [denylist] and its use in the runner.
    - [IotPoc], [IotReportTable], [IotRunner]: [iot_verifier]'s [poc.rs], its report
      tables, and [runner.rs] on top of both.
    - [MobileSpeedtests], [MobileCoverage], [MobileHeartbeats], [MobileRewards]:
      the modules of [mobile_verifier] of those names, the last one with
      [reward_shares.rs], [rewarder.rs], [data_session.rs] and
      [subscriber_location.rs]; [MobilePots], [MobilePoints], [MobilePeriod] hold
      the proofs about a period.
    - [ConfigTables], [ConfigOrgs], [ConfigRoutes], [ConfigRouteService],
      [ConfigOrgService], [ConfigStream], [ConfigExamples]: the tables of
      [iot_config], [org.rs], [route.rs] with [db_cleaner.rs], the two services, and
      the stream of updates with its subscribers as a step relation.
    - [ConfigAdmin]: [admin_service.rs], [region_map.rs] and the keys of [admin.rs].
    - [FileNames], [FileSink], [FileLog], [FilePipeline], [FilePoller]: [file_store]'s
      [file_info.rs] and listings, [file_sink.rs] and [file_upload.rs], what a sink
      promises as an abstract log, a file from the sink to its reader, and
      [file_info_poller.rs].
    - [IotDensity], [IotPackets], [IotLoader]: [iot_verifier]'s [hex_density.rs] and
      [tx_scaler.rs]; [packet_loader.rs], [entropy_loader.rs] and [purger.rs];
      [loader.rs].
    - [MobileSessions], [MobileDaemon]: [mobile_packet_verifier], its state as a step
      relation in the second.
    - [RewardIndex]: [reward_index].  [Price]: the generator and the tracker of
      [price].  [Ingest]: [ingest]'s two servers.  [Entropy]: [poc_entropy].
      [TaskManager]: [task_manager].

    A definition has the name of the function it translates where that is unique,
    and its branches in the order of the code.  Tables are finite maps by primary
    key, or lists where there is none; a query is a function on them.  A handler
    takes the state it changes and returns it, with a [result] where it can fail;
    a database transaction that fails gives back the tables it began with, while
    rows written to a file sink stay.  Services, clocks and cryptography are
    arguments.  Libraries whose code is not here (decimals, h3 cells, bloom
    filters, base58 keys, protobuf enums) are type classes: the operations with
    the documented behaviour that a theorem relies on, each with an instance that
    is used in the examples.

    ** What the theorems show

    - Accounts: an organization's pending debits never exceed what it has on chain
      plus what was confirmed ([PacketSystem.system_solvent]), the cache agrees
      with the tables ([cache_agrees]), a burn is affordable ([burn_affordable]).
    - Conservation: what each rewarder writes for a period, paid or unallocated,
      is 94 per cent of the emission up to a few bones, for any tables within
      stated sizes and any decimal arithmetic with the stated rounding
      ([IotShareTables.iot_period_conserved], [MobilePeriod.mobile_period_conserved]);
      a row is rewarded in one period only, and periods tile time.
    - Verdicts: exactly when a witness, a heartbeat, a speedtest average is
      accepted, and what is rewarded for it.
    - Tables: ticks of the runner keep the rows within the bounds that the
      conservation theorem assumes, and settle or retry every beacon.
    - Round trips of report types and of textual forms.
    - Configuration: the updates that are broadcast turn the first tables into the
      last ([ConfigStream.stream_refines_tables]) and a subscriber catches up;
      addresses are leased once; routes change by authorized requests only; the
      regions in memory are those of the table; which keys are authorized.
    - Files: a sink that commits by itself loses no acknowledged message and stores
      none twice ([FileSink.pipe_conserves]), a sink refines a log
      ([FileLog.sink_refines_log]),
      the poller misses no file, and while a clean-up finds few enough records its
      effects are committed once ([FilePoller.poller_complete],
      [FilePoller.effects_once]), uploads end.
    - Ingest: every report in the sinks was signed by its gateway or by a session key
      of that gateway ([Ingest.ingest_authentic]); the mobile sinks have exactly the
      entitled requests; the entropy that gateways are told was handed to the sink,
      with two exceptions that [Entropy.entropy_told_is_written] names.
    - Sessions, index, prices: the bytes of accepted reports are pending or in
      sessions that were paid for ([MobileDaemon.sessions_conserved]); the index
      gains what the rewarder wrote ([RewardIndex.iot_period_indexed]); a price
      handed out is one the oracle gave not too long ago ([Price.price_traced]).
    - Tasks: the manager returns, every task ends once, in the stated order.
    - Defects: some theorems state behaviour that the code does not intend; they
      are exact about when it happens.

    ** Bounds and fuel

    Recursion is structural, on lists or on a count of attempts; there is no fuel
    that a result depends on, except where its bound is proved to be enough: the
    length of the list for chunking and for frames, twenty digits for a number of 64
    bits, and seven turns for the attempts of an upload ([FileSink.put_loop_ends]).
    Loops that wait on the world take its events as a list; [TaskManager.manager_stops]
    gives a number of them after which the loop has returned.

    The conservation theorems bound the rows of a period (for IoT 10^9 PoC rows
    and 10^12 data credits, [IotShareTables.rows_ok]; for mobile
    10^8 heartbeats, 10^9 hexes, 10^8 subscriber locations, [MobilePeriod.mobile_db_ok]):
    within them no decimal operation overflows and the accumulated rounding error
    stays below a tenth of a bone.

    ** Not modelled

    Process start-up, settings, command lines, telemetry and the select loops that
    only dispatch to the handlers; transport (gRPC, S3, Postgres
    connections); the protobuf wire format; signatures, which are predicates.

    Parts of which nothing is modelled: [mobile_config] with its command line client
    and [iot_config]'s [gateway_service.rs] and [gateway_info.rs], which read tables
    that another program fills; [db_store] and [metrics], which wrap
    libraries; the mobile report types of [file_store] whose conversions are field
    by field; the clients of the configuration services, which are the parameters of
    the code that calls them.
*)

From Stdlib Require Export ZArith Lia QArith Qround Lqa.
From stdpp Require Export base numbers gmap strings list fin_maps sorting.

#[export] Set Default Goal Selector "!".

Open Scope Z_scope.

(** ** Fallible computations *)

(** Rust's [Result<A, E>]. *)
Inductive result (A E : Type) : Type :=
| Ok (a : A)
| Err (e : E).
Arguments Ok {A E} a.
Arguments Err {A E} e.

Declare Scope oracle_scope.
Delimit Scope oracle_scope with oracle.
Open Scope oracle_scope.

(** The [?] operator: stop at the first error. *)
Definition result_bind {A B E} (r : result A E) (k : A -> result B E) : result B E :=
  match r with
  | Ok a => k a
  | Err e => Err e
  end.

Notation "'let?' x ':=' r 'in' k" := (result_bind r (fun x => k))
  (at level 10, x name, r at level 100, k at level 200)
  : oracle_scope.

(** [Result::map_err]. *)
Definition map_err {A E F} (f : E -> F) (r : result A E) : result A F :=
  match r with
  | Ok a => Ok a
  | Err e => Err (f e)
  end.

(** [Option::ok_or]. *)
Definition ok_or {A E} (o : option A) (e : E) : result A E :=
  match o with
  | Some a => Ok a
  | None => Err e
  end.

Definition is_ok {A E} (r : result A E) : bool :=
  match r with
  | Ok _ => true
  | Err _ => false
  end.

Lemma result_bind_ok {A B E} (r : result A E) (k : A -> result B E) b :
  result_bind r k = Ok b <-> exists a, r = Ok a /\ k a = Ok b.
Proof.
  destruct r as [a|e]; cbn; split.
  - eauto.
  - intros (a' & Ha & Hk). congruence.
  - discriminate.
  - intros (a' & Ha & _). discriminate.
Qed.

Lemma result_bind_err {A B E} (r : result A E) (k : A -> result B E) e :
  result_bind r k = Err e <-> r = Err e \/ exists a, r = Ok a /\ k a = Err e.
Proof.
  destruct r as [a|e']; cbn; split.
  - eauto.
  - intros [H|(a' & Ha & Hk)]; congruence.
  - intros H. left. congruence.
  - intros [H|(a' & Ha & _)]; congruence.
Qed.

Lemma map_err_ok {A E F} (f : E -> F) (r : result A E) a : map_err f r = Ok a -> r = Ok a.
Proof. by destruct r; intros [= ->]. Qed.

Lemma ok_or_ok {A E} (o : option A) (e : E) a : ok_or o e = Ok a -> o = Some a.
Proof. by destruct o; intros [= ->]. Qed.

(** The parts of a list without repetition in which an element occurs. *)
Lemma flat_map_once {A B} (f : A -> list B) (l : list A) x y b :
  NoDup (flat_map f l) -> x ∈ l -> y ∈ l -> b ∈ f x -> b ∈ f y -> x = y.
Proof.
  induction l as [|a l IH]; cbn [flat_map]; [by intros _ Hx%not_elem_of_nil|].
  intros (H1 & H2 & H3)%NoDup_app Hx Hy Hbx Hby.
  assert (forall z, z ∈ l -> b ∈ f z -> b ∈ flat_map f l) as Hin.
  { intros z Hz Hbz. apply list_elem_of_In, in_flat_map. exists z. by rewrite <- !list_elem_of_In. }
  apply elem_of_cons in Hx as [->|Hx]; apply elem_of_cons in Hy as [->|Hy]; [done| | |by apply IH].
  - by destruct (H2 b Hbx (Hin y Hy Hby)).
  - by destruct (H2 b Hby (Hin x Hx Hbx)).
Qed.

Lemma flat_map_filter_NoDup {A B} (f : A -> list B) (p : A -> bool) (l : list A) :
  NoDup (flat_map f l) -> NoDup (flat_map f (List.filter p l)).
Proof.
  induction l as [|a l IH]; cbn [flat_map List.filter]; [done|]. intros (H1 & H2 & H3)%NoDup_app.
  destruct (p a); [|by apply IH]. cbn [flat_map]. apply NoDup_app. split; [done|]. split; [|by apply IH].
  intros b Hb Hf. apply (H2 b Hb). apply list_elem_of_In, in_flat_map. apply list_elem_of_In, in_flat_map in Hf as (x & Hx & Hbx).
  exists x. split; [|done]. by apply filter_In in Hx as [? _].
Qed.

(** Decompose an equation between a chain of [let?]s and a value. *)
Ltac inv_result :=
  repeat match goal with
  | H : Ok _ = Ok _ |- _ => injection H as H; try subst
  | H : Err _ = Err _ |- _ => injection H as H; try subst
  | H : Ok _ = Err _ |- _ => discriminate H
  | H : Err _ = Ok _ |- _ => discriminate H
  | H : result_bind _ _ = Ok _ |- _ =>
      let a := fresh "a" in
      apply result_bind_ok in H; destruct H as (a & ? & H)
  | H : _ /\ _ |- _ => destruct H
  end.

(** Case analysis on the scrutinee of the first [match] or [if] of the goal
    or of a hypothesis, keeping the equation. *)
Ltac case_goal :=
  match goal with
  | |- context [match ?x with _ => _ end] =>
      lazymatch x with context [match _ with _ => _ end] => fail | _ => destruct x eqn:? end
  end.

Ltac case_hyp H :=
  match type of H with
  | context [match ?x with _ => _ end] =>
      lazymatch x with context [match _ with _ => _ end] => fail | _ => destruct x eqn:? end
  end.

(** Turn the boolean tests of the code into propositions [lia] understands. *)
Ltac zbool :=
  repeat match goal with
  | H : (_ =? _) = true |- _ => apply Z.eqb_eq in H
  | H : (_ =? _) = false |- _ => apply Z.eqb_neq in H
  | H : (_ <=? _) = true |- _ => apply Z.leb_le in H
  | H : (_ <=? _) = false |- _ => apply Z.leb_gt in H
  | H : (_ <? _) = true |- _ => apply Z.ltb_lt in H
  | H : (_ <? _) = false |- _ => apply Z.ltb_ge in H
  | H : (_ && _)%bool = true |- _ => apply andb_true_iff in H; destruct H
  | H : (_ || _)%bool = false |- _ => apply orb_false_iff in H; destruct H
  | H : negb _ = true |- _ => apply negb_true_iff in H
  | H : negb _ = false |- _ => apply negb_false_iff in H
  end.

(** Replace the closed powers of two of the goal and of the hypotheses by
    numerals. *)
Ltac is_Zconst n :=
  lazymatch n with Z0 => idtac | Zpos _ => idtac | Zneg _ => idtac end.
Ltac pow2_consts :=
  repeat match goal with
  | |- context [2 ^ ?e] =>
      let v := eval vm_compute in (2 ^ e) in is_Zconst v; change (2 ^ e) with v
  | H : context [2 ^ ?e] |- _ =>
      let v := eval vm_compute in (2 ^ e) in is_Zconst v; change (2 ^ e) with v in H
  end.

(** [lia] for goals with division and modulo by constants. *)
Ltac mlia := pow2_consts; Z.to_euclidean_division_equations; lia.

(** ** Machine integers

    A Rust integer of width [w] is a [Z] in its range.  Casts and wrapping
    operations are written out. *)

Definition wrap (w z : Z) : Z := z mod 2 ^ w.

Definition as_signed (w z : Z) : Z :=
  let m := wrap w z in
  if m <? 2 ^ (w - 1) then m else m - 2 ^ w.

Definition as_u32 (z : Z) : Z := wrap 32 z.
Definition as_u64 (z : Z) : Z := wrap 64 z.
Definition as_i32 (z : Z) : Z := as_signed 32 z.
Definition as_i64 (z : Z) : Z := as_signed 64 z.

Definition is_u32 (z : Z) : Prop := 0 <= z < 2 ^ 32.
Definition is_u64 (z : Z) : Prop := 0 <= z < 2 ^ 64.

(** [u64] arithmetic.  The release profile of the workspace does not enable
    overflow checks, so [+] and [-] wrap. *)
Definition u64_add (a b : Z) : Z := wrap 64 (a + b).
Definition u64_sub (a b : Z) : Z := wrap 64 (a - b).
Definition u32_add (a b : Z) : Z := wrap 32 (a + b).

Definition checked_sub (a b : Z) : option Z :=
  if b <=? a then Some (a - b) else None.
Definition saturating_sub (a b : Z) : Z := Z.max 0 (a - b).
Definition abs_diff (a b : Z) : Z := Z.abs (a - b).

Lemma wrap_small w z : 0 <= z < 2 ^ w -> wrap w z = z.
Proof. intros H. unfold wrap. by apply Z.mod_small. Qed.

Lemma wrap_range w z : 0 <= w -> 0 <= wrap w z < 2 ^ w.
Proof. intros H. unfold wrap. apply Z.mod_pos_bound. by apply Z.pow_pos_nonneg. Qed.

Lemma wrap_add_l w a b : wrap w (wrap w a + b) = wrap w (a + b).
Proof. apply Zplus_mod_idemp_l. Qed.

Lemma as_u64_small z : is_u64 z -> as_u64 z = z.
Proof. apply wrap_small. Qed.

Lemma as_u32_small z : is_u32 z -> as_u32 z = z.
Proof. apply wrap_small. Qed.

Lemma as_signed_small w z :
  0 < w -> 0 <= z < 2 ^ (w - 1) -> as_signed w z = z.
Proof.
  intros Hw Hz. unfold as_signed.
  assert (2 ^ (w - 1) <= 2 ^ w) by (apply Z.pow_le_mono_r; lia).
  rewrite wrap_small by lia.
  destruct (Z.ltb_spec z (2 ^ (w - 1))); lia.
Qed.

(** Casting to the signed type of the same width and back is the identity. *)
Lemma wrap_as_signed w z : 0 < w -> 0 <= z < 2 ^ w -> wrap w (as_signed w z) = z.
Proof.
  intros Hw Hz. unfold as_signed. rewrite (wrap_small w z) by done.
  destruct (z <? 2 ^ (w - 1)); [by apply wrap_small|].
  unfold wrap. replace (z - 2 ^ w) with (z + (-1) * 2 ^ w) by ring.
  rewrite Z_mod_plus_full. by apply Z.mod_small.
Qed.

Lemma as_u32_as_i32 z : is_u32 z -> as_u32 (as_i32 z) = z.
Proof. intros H. apply wrap_as_signed; [lia|apply H]. Qed.

Lemma as_u64_as_i64 z : is_u64 z -> as_u64 (as_i64 z) = z.
Proof. intros H. apply wrap_as_signed; [lia|apply H]. Qed.

Lemma as_i64_small z : 0 <= z < 2 ^ 63 -> as_i64 z = z.
Proof. intros H. apply as_signed_small; lia. Qed.

Lemma u64_add_small a b : 0 <= a + b < 2 ^ 64 -> u64_add a b = a + b.
Proof. apply wrap_small. Qed.

Lemma u64_sub_small a b : 0 <= b <= a -> a < 2 ^ 64 -> u64_sub a b = a - b.
Proof. intros. apply wrap_small. lia. Qed.

Lemma checked_sub_Some a b c : checked_sub a b = Some c <-> b <= a /\ c = a - b.
Proof.
  unfold checked_sub. destruct (Z.leb_spec b a); split; intros H'.
  - injection H' as <-. lia.
  - destruct H' as [_ ->]. done.
  - discriminate.
  - lia.
Qed.

Lemma checked_sub_None a b : checked_sub a b = None <-> a < b.
Proof. unfold checked_sub. destruct (Z.leb_spec b a); split; intros; done || lia. Qed.

(** ** Sums over lists of integers *)

Definition sumZ {A} (f : A -> Z) (l : list A) : Z := foldr (fun a s => f a + s) 0 l.

Lemma sumZ_cons {A} (f : A -> Z) a l : sumZ f (a :: l) = f a + sumZ f l.
Proof. reflexivity. Qed.

Lemma sumZ_ext {A} (f g : A -> Z) (l : list A) :
  (forall a, a ∈ l -> f a = g a) -> sumZ f l = sumZ g l.
Proof.
  induction l as [|a l IH]; intros H; [done|]. rewrite !sumZ_cons, H by left.
  f_equal. apply IH. intros b Hb. apply H. by right.
Qed.

Lemma sumZ_nonneg {A} (f : A -> Z) l :
  (forall a, a ∈ l -> 0 <= f a) -> 0 <= sumZ f l.
Proof.
  induction l as [|a l IH]; cbn; intros H; [lia|].
  assert (0 <= f a) by (apply H; left).
  assert (0 <= sumZ f l) by (apply IH; intros; apply H; by right).
  unfold sumZ in *. lia.
Qed.

Lemma sumZ_elem {A} (f : A -> Z) (l : list A) a :
  a ∈ l -> (forall b, b ∈ l -> 0 <= f b) -> f a <= sumZ f l.
Proof.
  induction l as [|b l IH]; intros Ha Hl; [by apply not_elem_of_nil in Ha|]. rewrite sumZ_cons.
  assert (0 <= f b) by (apply Hl; left).
  assert (0 <= sumZ f l) by (apply sumZ_nonneg; intros; apply Hl; by right).
  apply elem_of_cons in Ha as [->|Ha]; [lia|].
  assert (f a <= sumZ f l) by (apply IH; [done|]; intros; apply Hl; by right). lia.
Qed.

Lemma sumZ_plus {A} (f g : A -> Z) (l : list A) :
  sumZ (fun a => f a + g a) l = sumZ f l + sumZ g l.
Proof. induction l as [|a l IH]; [done|]. rewrite !sumZ_cons, IH. lia. Qed.

Lemma sumZ_fmap {A B} (f : B -> Z) (g : A -> B) (l : list A) :
  sumZ f (g <$> l) = sumZ (fun a => f (g a)) l.
Proof. induction l as [|a l IH]; [done|]. rewrite fmap_cons, !sumZ_cons. by rewrite IH. Qed.

(** Dropping elements that count for nothing. *)
Lemma sumZ_filter {A} (f : A -> Z) (p : A -> bool) (l : list A) :
  (forall a, a ∈ l -> p a = false -> f a = 0) -> sumZ f (List.filter p l) = sumZ f l.
Proof.
  induction l as [|a l IH]; intros H; [done|]. cbn [List.filter].
  assert (sumZ f (List.filter p l) = sumZ f l) as E by (apply IH; intros; apply H; [by right|done]).
  rewrite sumZ_cons. destruct (p a) eqn:Ep; [by rewrite sumZ_cons, E|].
  rewrite E, (H a); [lia|left|done].
Qed.

(** A [u64] accumulator that does not overflow. *)
Lemma fold_u64_add {A} (f : A -> Z) (l : list A) acc :
  0 <= acc -> (forall a, a ∈ l -> 0 <= f a) -> acc + sumZ f l < 2 ^ 64 ->
  fold_left (fun s a => u64_add s (f a)) l acc = acc + sumZ f l.
Proof.
  revert acc. induction l as [|a l IH]; intros acc H0 Hf Hs; [cbn; lia|].
  rewrite sumZ_cons in *. cbn [fold_left].
  assert (0 <= f a) by (apply Hf; left).
  assert (0 <= sumZ f l) by (apply sumZ_nonneg; intros; apply Hf; by right).
  rewrite u64_add_small by lia. rewrite IH; [lia|lia| |lia]. intros b Hb. apply Hf. by right.
Qed.

Lemma sumZ_app {A} (f : A -> Z) l1 l2 : sumZ f (l1 ++ l2) = sumZ f l1 + sumZ f l2.
Proof. induction l1 as [|a l1 IH]; cbn; [done|]. unfold sumZ in *. lia. Qed.

Lemma sumZ_permutation {A} (f : A -> Z) l1 l2 : l1 ≡ₚ l2 -> sumZ f l1 = sumZ f l2.
Proof. induction 1; cbn in *; unfold sumZ in *; cbn in *; lia. Qed.

Lemma sumZ_insert {K V} `{Countable K} (f : K * V -> Z) (m : gmap K V) k v :
  sumZ f (map_to_list (<[k := v]> m)) =
  sumZ f (map_to_list m) - from_option (fun o => f (k, o)) 0 (m !! k) + f (k, v).
Proof.
  assert (sumZ f (map_to_list (<[k := v]> m)) = f (k, v) + sumZ f (map_to_list (delete k m))) as ->.
  { rewrite <- insert_delete_eq, (sumZ_permutation f _ ((k, v) :: map_to_list (delete k m))).
    - by rewrite sumZ_cons.
    - apply map_to_list_insert, lookup_delete_eq. }
  destruct (m !! k) as [o|] eqn:E; cbn.
  - rewrite <- (sumZ_permutation f _ _ (map_to_list_delete m k o E)), sumZ_cons. lia.
  - rewrite delete_id by done. lia.
Qed.

Lemma sumZ_map_elem {K V} `{Countable K} (f : K * V -> Z) (m : gmap K V) k v :
  (forall k v, m !! k = Some v -> 0 <= f (k, v)) -> m !! k = Some v -> f (k, v) <= sumZ f (map_to_list m).
Proof.
  intros Hm E. apply (sumZ_elem f); [by apply elem_of_map_to_list|].
  intros [k' v'] Hk%elem_of_map_to_list. by apply Hm.
Qed.

(** Rows grouped by a key, adding a value to what the key has ([entry().or_default()]
    and [sum .. group by]); sums up to [M] are exact. *)
Definition group_rows {S K V} `{Countable K} (key : S -> K) (upd : option V -> S -> V) (l : list S) : gmap K V :=
  fold_left (fun m s => <[key s := upd (m !! key s) s]> m) l ∅.

Lemma group_rows_spec {S K V} `{Countable K} (key : S -> K) (upd : option V -> S -> V) (val : V -> Z) (v : S -> Z)
    (M : Z) (l : list S) :
  (forall o s, s ∈ l -> 0 <= from_option val 0 o -> from_option val 0 o + v s <= M ->
     val (upd o s) = from_option val 0 o + v s) ->
  (forall s, s ∈ l -> 0 <= v s) -> sumZ v l <= M ->
  let m := group_rows key upd l in
  (forall k x, m !! k = Some x -> 0 <= val x) /\ sumZ (fun kv => val kv.2) (map_to_list m) = sumZ v l /\
  (size m <= length l)%nat.
Proof.
  intros Hu Hv. unfold group_rows. cbv zeta. induction l as [|s l IH] using rev_ind; intros Hs.
  - cbn. rewrite map_to_list_empty, map_size_empty. split; [by intros ?? ?%lookup_empty_Some|done].
  - rewrite sumZ_app in Hs. rewrite fold_left_app. cbn [fold_left]. set (m := fold_left _ l ∅) in *.
    assert (0 <= v s) as Hvs by (apply Hv; rewrite elem_of_app; right; left).
    destruct IH as (H0 & H1 & H2).
    { intros o x Hx. apply Hu. rewrite elem_of_app. by left. }
    { intros x Hx. apply Hv. rewrite elem_of_app. by left. }
    { cbn in Hs. lia. }
    assert (0 <= from_option val 0 (m !! key s) <= sumZ v l) as Ho.
    { destruct (m !! key s) as [x|] eqn:E; cbn.
      - split; [by apply (H0 (key s))|]. rewrite <- H1. by apply (sumZ_map_elem (fun kv => val kv.2) m (key s) x).
      - split; [done|]. apply sumZ_nonneg. intros x Hx. apply Hv. rewrite elem_of_app. by left. }
    assert (val (upd (m !! key s) s) = from_option val 0 (m !! key s) + v s) as Eu.
    { apply Hu; [rewrite elem_of_app; right; left|lia|cbn in Hs; lia]. }
    split; [|split].
    + intros k x. destruct (decide (k = key s)) as [->|Hne].
      * rewrite lookup_insert_eq. intros [= <-]. lia.
      * rewrite lookup_insert_ne by done. apply H0.
    + rewrite sumZ_insert, sumZ_app, H1. cbn [snd]. rewrite Eu. destruct (m !! key s); cbn; lia.
    + rewrite length_app. cbn [length]. destruct (m !! key s) eqn:E.
      * rewrite map_size_insert_Some by eauto. lia.
      * rewrite map_size_insert_None by done. lia.
Qed.

(** ** Lists *)

Lemma list_filter_all {A} (P : A -> Prop) `{!forall x, Decision (P x)} (l : list A) :
  (forall x, x ∈ l -> P x) -> filter P l = l.
Proof.
  induction l as [|a l IH]; intros HP; [done|]. rewrite filter_cons.
  rewrite decide_True by (apply HP; left). f_equal. apply IH. intros x Hx. apply HP. by right.
Qed.

Lemma StronglySorted_filter {A} (R : A -> A -> Prop) (P : A -> Prop)
    `{!forall x, Decision (P x)} l :
  StronglySorted R l -> StronglySorted R (filter P l).
Proof.
  induction 1 as [|a l Hl IH Ha]; [constructor|]. rewrite filter_cons.
  destruct (decide (P a)); [|done]. constructor; [done|].
  apply Forall_forall. intros x Hx. apply list_elem_of_filter in Hx as [_ Hx].
  rewrite Forall_forall in Ha. by apply Ha.
Qed.

Lemma StronglySorted_take {A} (R : A -> A -> Prop) n l :
  StronglySorted R l -> StronglySorted R (take n l).
Proof.
  intros H. revert n. induction H as [|a l Hl IH Ha]; intros [|n]; cbn; try constructor; [done|].
  by apply Forall_take.
Qed.

Lemma StronglySorted_lt_NoDup (l : list Z) : StronglySorted Z.lt l -> NoDup l.
Proof.
  induction 1 as [|a l Hl IH Ha]; constructor; [|done].
  intros Hin. rewrite Forall_forall in Ha. specialize (Ha a Hin). lia.
Qed.

(** ** Sorting

    A stable sort by a total preorder given as a boolean test, like
    [Vec::sort_by] and [order by]. *)

Section Sort.
Context {A : Type} (leb : A -> A -> bool).

Fixpoint insert_sorted (a : A) (l : list A) : list A :=
  match l with
  | [] => [a]
  | b :: l' => if leb a b then a :: l else b :: insert_sorted a l'
  end.

Definition sort_by (l : list A) : list A := foldr insert_sorted [] l.

Lemma insert_sorted_perm a l : insert_sorted a l ≡ₚ a :: l.
Proof.
  induction l as [|b l IH]; [done|]. cbn. destruct (leb a b); [done|]. rewrite IH. apply perm_swap.
Qed.

Lemma sort_by_perm l : sort_by l ≡ₚ l.
Proof. induction l as [|a l IH]; [done|]. cbn. by rewrite insert_sorted_perm, IH. Qed.

Context (leb_total : forall a b, leb a b = false -> leb b a = true)
  (leb_trans : forall a b c, leb a b = true -> leb b c = true -> leb a c = true).

Lemma insert_sorted_sorted a l :
  StronglySorted (fun a b => leb a b = true) l -> StronglySorted (fun a b => leb a b = true) (insert_sorted a l).
Proof.
  induction 1 as [|b l Hl IH Hb]; cbn; [constructor; [constructor|done]|].
  destruct (leb a b) eqn:E.
  - constructor; [by constructor|]. constructor; [done|].
    eapply Forall_impl; [exact Hb|]. intros c. by apply leb_trans.
  - constructor; [done|]. rewrite insert_sorted_perm. constructor; [by apply leb_total|done].
Qed.

Lemma sort_by_sorted l : StronglySorted (fun a b => leb a b = true) (sort_by l).
Proof. induction l as [|a l IH]; [constructor|]. by apply insert_sorted_sorted. Qed.
End Sort.

(** Sorting by an integer key. *)
Definition sort_by_key {A} (key : A -> Z) (l : list A) : list A := sort_by (fun a b => key a <=? key b) l.

Lemma sort_by_key_perm {A} (key : A -> Z) l : sort_by_key key l ≡ₚ l.
Proof. apply sort_by_perm. Qed.

Lemma sort_by_key_sorted {A} (key : A -> Z) l : StronglySorted (fun a b => key a <= key b) (sort_by_key key l).
Proof.
  assert (StronglySorted (fun a b => (key a <=? key b) = true) (sort_by_key key l)) as H.
  { apply sort_by_sorted; intros; zbool; apply Z.leb_le; lia. }
  induction H as [|a l' _ IH Ha]; constructor; [done|]. eapply Forall_impl; [exact Ha|].
  intros b Hb. by apply Z.leb_le.
Qed.

Lemma StronglySorted_app_le {A} (R : A -> A -> Prop) l1 l2 a b :
  StronglySorted R (l1 ++ l2) -> a ∈ l1 -> b ∈ l2 -> R a b.
Proof.
  induction l1 as [|c l1 IH]; intros Hs Ha Hb; [by apply not_elem_of_nil in Ha|].
  cbn in Hs. inversion Hs as [|? ? Hs' Hc]; subst. apply elem_of_cons in Ha as [->|Ha].
  - rewrite Forall_forall in Hc. apply Hc. apply elem_of_app. by right.
  - by apply IH.
Qed.

Lemma elem_of_filter_bool {A} (f : A -> bool) (l : list A) a : a ∈ List.filter f l <-> a ∈ l /\ f a = true.
Proof. rewrite !list_elem_of_In. apply filter_In. Qed.

Lemma filter_perm {A} (p : A -> bool) (l l' : list A) : l ≡ₚ l' -> List.filter p l ≡ₚ List.filter p l'.
Proof.
  induction 1 as [|x l l' H IH|x z l|l1 l2 l3 H1 IH1 H2 IH2]; cbn; [done|by destruct (p x); rewrite IH| |by rewrite IH1].
  destruct (p x), (p z); try done. apply Permutation_swap.
Qed.

(** The rows of a table that satisfy a test. *)
Lemma map_rows_filter {K V} `{Countable K} (p : V -> bool) (t : gmap K V) :
  List.filter p (map_to_list t).*2 ≡ₚ (map_to_list (filter (fun kv => p kv.2 = true) t)).*2.
Proof.
  assert (forall l : list (K * V), List.filter p l.*2 = (filter (fun kv => p kv.2 = true) l).*2) as Hl.
  { induction l as [|[k r] l IH]; [done|]. rewrite fmap_cons. cbn [List.filter snd]. rewrite filter_cons. cbn [snd]. rewrite IH. by case_decide as E; destruct (p r). }
  rewrite Hl, map_filter_alt. apply fmap_Permutation. symmetry. apply map_to_list_to_map.
  eapply sublist_NoDup; [apply (NoDup_fst_map_to_list t)|]. apply fmap_sublist, sublist_filter.
Qed.

(** [order by .. limit 1] is a minimum of the key. *)
Lemma head_sort_by_key {A} (key : A -> Z) (l : list A) :
  match head (sort_by_key key l) with
  | Some s => s ∈ l /\ forall x, x ∈ l -> key s <= key x
  | None => l = []
  end.
Proof.
  pose proof (sort_by_key_perm key l) as Hp. pose proof (sort_by_key_sorted key l) as Hs.
  destruct (sort_by_key key l) as [|s r]; cbn; [by apply Permutation_nil|].
  split; [rewrite <- Hp; left|]. intros x Hx. rewrite <- Hp in Hx. apply elem_of_cons in Hx as [->|Hx]; [lia|].
  inversion Hs as [|? ? _ Hall]; subst. rewrite Forall_forall in Hall. by apply Hall.
Qed.

Create HintDb oracle.
#[export] Hint Resolve wrap_range as_u64_small as_u32_small : oracle.
