(* ===== verification/LoraField.v ===== *)
(** * LoRa identifier fields

    [iot_config/src/lora_field.rs]: fixed-width hexadecimal identifiers
    (NetIDs, DevAddrs, EUIs), DevAddr ranges and constraints, and the bit
    layout that relates a 24-bit NetID to the block of 32-bit DevAddrs it owns.

    The first part is the model.  The theorems: textual fields round-trip
    through [Display]/[FromStr]; every DevAddr of the block of a NetID of type
    0 to 6 decodes to that NetID and conversely; the type-7 block drops the top
    bit of the 17-bit NwkID. *)

From S2P Require Import Prelude.
From Stdlib Require Import Ascii String.

Open Scope Z_scope.
Open Scope oracle_scope.

(** ** Fields *)

(** [struct LoraField<const WIDTH: usize>(pub u64)]: a newtype, so its values
    are the wrapped [u64]s; [WIDTH] is the number of hex digits. *)
Definition LoraField (WIDTH : nat) : Type := Z.
Definition NetIdField : Type := LoraField 6.
Definition DevAddrField : Type := LoraField 8.
Definition EuiField : Type := LoraField 16.

Definition field_to_u64 (field : Z) : Z := field.
Definition field_to_i64 (field : Z) : Z := as_i64 field.
Definition field_to_u32 (field : Z) : Z := as_u32 field.
Definition field_to_i32 (field : Z) : Z := as_i32 field.

Definition field_from_u64 {W} (val : Z) : LoraField W := val.
Definition field_from_i64 {W} (val : Z) : LoraField W := as_u64 val.
Definition field_from_u32 {W} (val : Z) : LoraField W := val.
Definition field_from_i32 {W} (val : Z) : LoraField W := as_u32 val.

Definition devaddr (val : Z) : DevAddrField := field_from_u32 val.
Definition eui (val : Z) : EuiField := field_from_u64 val.
Definition net_id (val : Z) : NetIdField := field_from_u32 val.

(** ** Text *)

(** One upper-case hexadecimal digit, as [{:X}] prints it. *)
Definition hex_digit (d : Z) : ascii :=
  if d <? 10 then ascii_of_nat (Z.to_nat (48 + d))
  else ascii_of_nat (Z.to_nat (55 + d)).

(** The digits of [v], most significant first, without leading zeros; [fuel]
    bounds the number of digits (16 for a [u64]). *)
Fixpoint hex_digits (fuel : nat) (v : Z) (acc : string) : string :=
  match fuel with
  | O => acc
  | S fuel' =>
      let acc' := String (hex_digit (v mod 16)) acc in
      if v / 16 =? 0 then acc' else hex_digits fuel' (v / 16) acc'
  end.

Definition u64_hex_digits : nat := 16.

Fixpoint zeros (n : nat) (s : string) : string :=
  match n with
  | O => s
  | S n' => String "0" (zeros n' s)
  end.

(** [write!(f, "{:0>width$X}", self.0, width = WIDTH)]: upper-case hex,
    padded with zeros on the left up to [WIDTH]. *)
Definition field_to_string (W : nat) (field : LoraField W) : string :=
  let digits := hex_digits u64_hex_digits field EmptyString in
  zeros (W - String.length digits) digits.

(** [std::num::ParseIntError] *)
Inductive IntErrorKind : Type :=
| Empty
| InvalidDigit
| PosOverflow.

Inductive ParseError : Type :=
| LengthMismatch (expected found : nat)
| ParseInt (e : IntErrorKind).

(** [char::to_digit(16)] on one byte. *)
Definition hex_value (c : ascii) : option Z :=
  let n := Z.of_nat (nat_of_ascii c) in
  if (48 <=? n) && (n <=? 57) then Some (n - 48)
  else if (65 <=? n) && (n <=? 70) then Some (n - 55)
  else if (97 <=? n) && (n <=? 102) then Some (n - 87)
  else None.

(** The digit loop of [u64::from_str_radix(_, 16)]: checked multiply by the
    radix, then checked addition of the digit. *)
Fixpoint parse_hex (s : string) (acc : Z) : result Z IntErrorKind :=
  match s with
  | EmptyString => Ok acc
  | String c s' =>
      match hex_value c with
      | None => Err InvalidDigit
      | Some d =>
          if acc * 16 + d <? 2 ^ 64 then parse_hex s' (acc * 16 + d) else Err PosOverflow
      end
  end.

(** [u64::from_str_radix(s, 16)]: empty input and a lone sign are errors, one
    leading [+] is skipped, a [-] is an invalid digit of an unsigned type. *)
Definition u64_from_str_radix_16 (s : string) : result Z IntErrorKind :=
  match s with
  | EmptyString => Err Empty
  | String c EmptyString =>
      if (c =? "+")%char || (c =? "-")%char then Err InvalidDigit else parse_hex s 0
  | String c s' => if (c =? "+")%char then parse_hex s' 0 else parse_hex s 0
  end.

Definition verify_len (input : string) (expected_len : nat) : result unit ParseError :=
  let len := String.length input in
  if (len =? expected_len)%nat then Ok tt else Err (LengthMismatch len expected_len).

(** [impl FromStr for LoraField<WIDTH>] *)
Definition field_from_str (W : nat) (s : string) : result (LoraField W) ParseError :=
  if String.eqb "*" s then Ok 0
  else
    let? _ := verify_len s W in
    map_err ParseInt (u64_from_str_radix_16 s).

Definition validate_net_id (s : string) : result NetIdField ParseError := field_from_str 6 s.
Definition validate_devaddr (s : string) : result DevAddrField ParseError := field_from_str 8 s.
Definition validate_eui (s : string) : result EuiField ParseError := field_from_str 16 s.

(** ** DevAddr ranges and constraints *)

Inductive DevAddrRangeError : Type :=
| EndLessThanStart
| NextStartUnavailable
| RangeUneven.

Record DevAddrRange : Type := mkDevAddrRange {
  range_route_id : string;
  range_start_addr : DevAddrField;
  range_end_addr : DevAddrField
}.

Definition contains_addr (r : DevAddrRange) (addr : DevAddrField) : bool :=
  (range_start_addr r <=? addr) && (addr <=? range_end_addr r).

Record DevAddrConstraint : Type := mkConstraint {
  start_addr : DevAddrField;
  end_addr : DevAddrField
}.

(** [DevAddrConstraint::new] *)
Definition constraint_new (start end_ : DevAddrField)
  : result DevAddrConstraint DevAddrRangeError :=
  if end_ <=? start then Err EndLessThanStart
  else if negb (start mod 2 =? 0) || (end_ mod 2 =? 0) then Err RangeUneven
  else Ok (mkConstraint start end_).

Definition next_start (c : DevAddrConstraint) : result DevAddrField DevAddrRangeError :=
  let end_ := field_to_u32 (end_addr c) in
  Ok (devaddr (u32_add end_ 1)).

Definition contains_range (c : DevAddrConstraint) (r : DevAddrRange) : bool :=
  (start_addr c <=? range_start_addr r) && (range_end_addr r <=? end_addr c).

(** [DevAddrField::to_range] *)
Definition to_range (self : DevAddrField) (add : Z) : DevAddrConstraint :=
  mkConstraint self (u64_add self (u64_sub add 1)).

(** ** NetIDs *)

Inductive InvalidNetId : Type := MkInvalidNetId (id_type : Z).

(** [u32] shifts by less than 32. *)
Definition shl32 (x n : Z) : Z := as_u32 (Z.shiftl x n).
Definition shr32 (x n : Z) : Z := Z.shiftr x n.

Definition net_id_type (self : NetIdField) : Z :=
  let net_id := as_u32 self in
  shr32 net_id (24 - 3).

Definition nwk_id (self : NetIdField) : Z :=
  let prefix_length := net_id_type self + 1 in
  let temp := as_u32 self in
  (* clear prefix *)
  let temp := shl32 temp (prefix_length + 8) in
  (* shift to start *)
  shr32 temp (prefix_length + 8).

Definition devaddr_type_bits (id_type : Z) : result Z InvalidNetId :=
  match id_type with
  | 0 => Ok 0
  | 1 => Ok (shl32 2 (32 - 2))
  | 2 => Ok (shl32 6 (32 - 3))
  | 3 => Ok (shl32 14 (32 - 4))
  | 4 => Ok (shl32 30 (32 - 5))
  | 5 => Ok (shl32 62 (32 - 6))
  | 6 => Ok (shl32 126 (32 - 7))
  | 7 => Ok (shl32 254 (32 - 8))
  | other => Err (MkInvalidNetId other)
  end.

Definition nwk_id_bits (id_type nwk_id : Z) : result Z InvalidNetId :=
  match id_type with
  | 0 => Ok (shl32 nwk_id 25)
  | 1 => Ok (shl32 nwk_id 24)
  | 2 => Ok (shl32 nwk_id 20)
  | 3 => Ok (shl32 nwk_id 17)
  | 4 => Ok (shl32 nwk_id 15)
  | 5 => Ok (shl32 nwk_id 13)
  | 6 => Ok (shl32 nwk_id 10)
  | 7 => Ok (shl32 nwk_id 7)
  | other => Err (MkInvalidNetId other)
  end.

Definition max_nwk_addr_bit (id_type : Z) : result Z InvalidNetId :=
  match id_type with
  | 0 => Ok (2 ^ 25 - 1)
  | 1 => Ok (2 ^ 24 - 1)
  | 2 => Ok (2 ^ 20 - 1)
  | 3 => Ok (2 ^ 17 - 1)
  | 4 => Ok (2 ^ 15 - 1)
  | 5 => Ok (2 ^ 13 - 1)
  | 6 => Ok (2 ^ 10 - 1)
  | 7 => Ok (2 ^ 7 - 1)
  | other => Err (MkInvalidNetId other)
  end.

Definition range_start (self : NetIdField) : result DevAddrField InvalidNetId :=
  let id_type := net_id_type self in
  let nwk := nwk_id self in
  let? left := devaddr_type_bits id_type in
  let? middle := nwk_id_bits id_type nwk in
  let min_addr := Z.lor left middle in
  Ok (devaddr min_addr).

Definition range_end (self : NetIdField) : result DevAddrField InvalidNetId :=
  let id_type := net_id_type self in
  let nwk := nwk_id self in
  let? left := devaddr_type_bits id_type in
  let? middle := nwk_id_bits id_type nwk in
  let? right := max_nwk_addr_bit id_type in
  let max_devaddr := Z.lor (Z.lor left middle) right in
  Ok (devaddr max_devaddr).

Definition full_range (self : NetIdField) : result DevAddrConstraint InvalidNetId :=
  let? s := range_start self in
  let? e := range_end self in
  Ok (mkConstraint s e).

(** [u32::leading_ones]: the run of set bits from bit [n - 1] down. *)
Fixpoint leading_ones (n : nat) (a : Z) : Z :=
  match n with
  | O => 0
  | S m => if Z.testbit a (Z.of_nat m) then 1 + leading_ones m a else 0
  end.

Definition to_net_id (self : DevAddrField) : result NetIdField InvalidNetId :=
  let addr := as_u32 self in
  let? id :=
    match leading_ones 32 addr with
    | 0 => Ok (shr32 (Z.land addr 0x7E000000) 25)
    | 1 => Ok (Z.lor (shr32 (Z.land addr 0x3F000000) 24) 0x200000)
    | 2 => Ok (Z.lor (shr32 (Z.land addr 0x1FF00000) 20) 0x400000)
    | 3 => Ok (Z.lor (shr32 (Z.land addr 0x0FFE0000) 17) 0x600000)
    | 4 => Ok (Z.lor (shr32 (Z.land addr 0x07FF8000) 15) 0x800000)
    | 5 => Ok (Z.lor (shr32 (Z.land addr 0x03FFE000) 13) 0xA00000)
    | 6 => Ok (Z.lor (shr32 (Z.land addr 0x01FFFC00) 10) 0xC00000)
    | 7 => Ok (Z.lor (shr32 (Z.land addr 0x00FFFF80) 7) 0xE00000)
    | other => Err (MkInvalidNetId other)
    end in
  Ok (net_id id).

Example to_net_id_c00053 : to_net_id 4227943424 = Ok 0xc00053.
Proof. vm_compute. reflexivity. Qed.
Example full_range_c00053 :
  full_range 0xc00053 = Ok (mkConstraint 4227943424 4227944447).
Proof. vm_compute. reflexivity. Qed.
Example full_range_00003c :
  full_range 0x00003c = Ok (mkConstraint 2013265920 2046820351).
Proof. vm_compute. reflexivity. Qed.
Example full_range_60002d :
  full_range 0x60002d = Ok (mkConstraint 3763994624 3764125695).
Proof. vm_compute. reflexivity. Qed.
Example display_pad : field_to_string 6 0x3c = "00003C"%string.
Proof. vm_compute. reflexivity. Qed.
Example from_str_plus : field_from_str 6 "+0003C" = Ok 60.
Proof. vm_compute. reflexivity. Qed.

(** ** The NetID layout *)

(** Width of the NwkID and of the NwkAddr of each NetID type, as in the
    LoRaWAN backend specification the masks of the code follow. *)
Definition nwk_width (t : Z) : Z :=
  match t with
  | 0 => 6 | 1 => 6 | 2 => 9 | 3 => 11 | 4 => 12 | 5 => 13 | 6 => 15 | _ => 17
  end.

Definition addr_width (t : Z) : Z := 31 - t - nwk_width t.

(** The DevAddr prefix of type [t]: [t] ones and a zero, left aligned. *)
Definition type_prefix (t : Z) : Z := (2 ^ (t + 1) - 2) * 2 ^ (31 - t).

Ltac netid_types t Ht :=
  let C := fresh "C" in
  assert (t = 0 \/ t = 1 \/ t = 2 \/ t = 3 \/ t = 4 \/ t = 5 \/ t = 6 \/ t = 7) as C by lia;
  destruct C as [->|[->|[->|[->|[->|[->|[->| ->]]]]]]].

(** [lor] of a multiple of [2^s] with a number below [2^s] is their sum. *)
Lemma lor_add a b s : 0 <= s -> 0 <= b < 2 ^ s -> Z.lor (a * 2 ^ s) b = a * 2 ^ s + b.
Proof.
  intros Hs Hb. rewrite <- Z.lxor_lor, <- Z.add_nocarry_lxor; [done| |];
    apply Z.bits_inj'; intros i Hi; rewrite Z.land_spec, Z.bits_0;
    (destruct (Z.ltb_spec i s);
     [rewrite Z.mul_pow2_bits_low by lia; done
     |rewrite <- (Z.mod_small b (2 ^ s)) by lia;
      rewrite Z.mod_pow2_bits_high by lia; apply andb_false_r]).
Qed.

(** Masking [w] bits at offset [s] and shifting them down. *)
Lemma mask_shift a s w :
  0 <= s -> 0 <= w ->
  shr32 (Z.land a (Z.shiftl (Z.ones w) s)) s = (a / 2 ^ s) mod 2 ^ w.
Proof.
  intros Hs Hw. unfold shr32.
  rewrite Z.shiftr_land, Z.shiftr_shiftl_l, Z.sub_diag, Z.shiftl_0_r by lia.
  rewrite Z.land_ones, Z.shiftr_div_pow2 by lia. done.
Qed.

Lemma leading_ones_mod n a : leading_ones n a = leading_ones n (a mod 2 ^ Z.of_nat n).
Proof.
  assert (forall m, (m <= n)%nat ->
    leading_ones m a = leading_ones m (a mod 2 ^ Z.of_nat n)) as H; [|by apply H].
  induction m as [|m IH]; intros Hm; cbn [leading_ones]; [done|].
  rewrite Z.mod_pow2_bits_low by lia. rewrite IH by lia. done.
Qed.

(** [leading_ones n a = t] says that [a] lies in the [t]-th dyadic block from
    the top. *)
Lemma leading_ones_block n a t :
  0 <= a < 2 ^ Z.of_nat n -> leading_ones n a = t ->
  0 <= t <= Z.of_nat n /\ 2 ^ Z.of_nat n - 2 ^ (Z.of_nat n - t) <= a /\
  (t < Z.of_nat n -> a < 2 ^ Z.of_nat n - 2 ^ (Z.of_nat n - t - 1)).
Proof.
  revert a t. induction n as [|m IH]; intros a t Ha <-; cbn [leading_ones].
  - cbn in *. lia.
  - replace (Z.of_nat (S m)) with (Z.of_nat m + 1) in * by lia.
    rewrite Z.pow_add_r in * by lia. change (2 ^ 1) with 2 in *.
    destruct (Z.testbit a (Z.of_nat m)) eqn:Eb.
    + apply Z.testbit_true in Eb; [|lia].
      assert (2 ^ Z.of_nat m <= a) as Hge.
      { destruct (Z.le_gt_cases (2 ^ Z.of_nat m) a); [done|].
        rewrite Z.div_small in Eb by lia. discriminate Eb. }
      assert (a mod 2 ^ Z.of_nat m = a - 2 ^ Z.of_nat m) as Hmod.
      { symmetry. apply (Z.mod_unique_pos _ _ 1); lia. }
      rewrite leading_ones_mod, Hmod.
      assert (0 <= a - 2 ^ Z.of_nat m < 2 ^ Z.of_nat m) as Ha' by lia.
      destruct (IH (a - 2 ^ Z.of_nat m) _ Ha' eq_refl) as (Ht & Hlo & Hhi).
      set (t := leading_ones m (a - 2 ^ Z.of_nat m)) in *.
      replace (Z.of_nat m + 1 - (1 + t)) with (Z.of_nat m - t) by lia.
      replace (Z.of_nat m + 1 - (1 + t) - 1) with (Z.of_nat m - t - 1) by lia.
      lia.
    + rewrite Z.sub_0_r, Z.pow_add_r by lia. change (2 ^ 1) with 2.
      replace (Z.of_nat m + 1 - 1) with (Z.of_nat m) by lia.
      assert (a < 2 ^ Z.of_nat m) as Hlt.
      { destruct (Z.lt_ge_cases a (2 ^ Z.of_nat m)); [done|].
        apply Z.testbit_false in Eb; [|lia].
        rewrite <- (Z.div_unique_pos a (2 ^ Z.of_nat m) 1 (a - 2 ^ Z.of_nat m)) in Eb
          by lia. discriminate Eb. }
      lia.
Qed.

(** Shifting left by [j] and back within 32 bits keeps the low [32 - j] bits. *)
Lemma shl_shr32 x j : 0 <= j <= 32 -> shr32 (shl32 x j) j = x mod 2 ^ (32 - j).
Proof.
  intros Hj. unfold shr32, shl32, as_u32, wrap.
  rewrite Z.shiftl_mul_pow2, Z.shiftr_div_pow2 by lia.
  replace (2 ^ 32) with (2 ^ (32 - j) * 2 ^ j) by (rewrite <- Z.pow_add_r by lia; f_equal; lia).
  rewrite Z.mul_mod_distr_r by lia.
  by rewrite Z.div_mul by (apply Z.pow_nonzero; lia).
Qed.

Lemma net_id_type_eq t k :
  0 <= t <= 7 -> 0 <= k < 2 ^ 21 -> net_id_type (t * 2 ^ 21 + k) = t.
Proof.
  intros Ht Hk. unfold net_id_type, shr32. rewrite as_u32_small by (unfold is_u32; lia).
  rewrite Z.shiftr_div_pow2 by lia. change (24 - 3) with 21.
  rewrite Z.div_add_l, Z.div_small by lia. lia.
Qed.

(** The NwkID bits, moved to their place in the DevAddr. *)
Lemma nwk_id_bits_eq t k :
  0 <= t <= 7 -> 0 <= k < 2 ^ nwk_width t -> (t = 7 -> k < 2 ^ 16) ->
  nwk_id_bits t (nwk_id (t * 2 ^ 21 + k)) = Ok (k * 2 ^ addr_width t).
Proof.
  intros Ht Hk H7.
  assert (2 ^ nwk_width t <= 2 ^ 17)
    by (apply Z.pow_le_mono_r; [lia|]; netid_types t Ht; cbn; lia).
  unfold nwk_id. rewrite net_id_type_eq by lia.
  rewrite shl_shr32 by lia. rewrite as_u32_small by (unfold is_u32; lia).
  unfold nwk_id_bits, shl32, as_u32, wrap.
  netid_types t Ht; cbn [nwk_width] in *; f_equal; rewrite Z.shiftl_mul_pow2 by lia; mlia.
Qed.

Lemma full_range_eq t k :
  0 <= t <= 7 -> 0 <= k < 2 ^ nwk_width t -> (t = 7 -> k < 2 ^ 16) ->
  full_range (t * 2 ^ 21 + k) =
    Ok (mkConstraint (type_prefix t + k * 2 ^ addr_width t)
                     (type_prefix t + k * 2 ^ addr_width t + (2 ^ addr_width t - 1))).
Proof.
  intros Ht Hk H7. unfold full_range, range_start, range_end.
  assert (2 ^ nwk_width t <= 2 ^ 17)
    by (apply Z.pow_le_mono_r; [lia|]; netid_types t Ht; cbn; lia).
  rewrite net_id_type_eq by lia. rewrite nwk_id_bits_eq by done.
  assert (exists c, type_prefix t = c * 2 ^ (nwk_width t + addr_width t) /\
    devaddr_type_bits t = Ok (type_prefix t) /\
    max_nwk_addr_bit t = Ok (2 ^ addr_width t - 1) /\
    0 <= addr_width t /\ 0 <= nwk_width t) as (c & Hc & -> & -> & Ha & Hw).
  { exists (2 ^ (t + 1) - 2). netid_types t Ht; repeat split; vm_compute; congruence. }
  cbn [result_bind]. rewrite Hc, Z.pow_add_r by lia. rewrite Z.mul_assoc.
  assert (0 < 2 ^ addr_width t) by (apply Z.pow_pos_nonneg; lia).
  assert (Z.lor (c * 2 ^ nwk_width t * 2 ^ addr_width t) (k * 2 ^ addr_width t)
          = (c * 2 ^ nwk_width t + k) * 2 ^ addr_width t) as E.
  { rewrite <- !Z.shiftl_mul_pow2 by lia. rewrite <- Z.shiftl_lor.
    rewrite (Z.shiftl_mul_pow2 c) by lia. by rewrite lor_add by lia. }
  rewrite E, lor_add by lia. do 2 f_equal; unfold devaddr, field_from_u32; lia.
Qed.

(** What [to_net_id] computes on an address of the block of type [t]. *)
Lemma to_net_id_eq t addr :
  is_u32 addr -> 0 <= t <= 7 -> leading_ones 32 addr = t ->
  to_net_id addr = Ok ((addr / 2 ^ addr_width t) mod 2 ^ nwk_width t + t * 2 ^ 21).
Proof.
  intros Ha Ht El. unfold to_net_id. rewrite as_u32_small by done. rewrite El.
  assert (forall s w m c, 0 <= s -> 0 <= w <= 17 -> m = Z.shiftl (Z.ones w) s ->
    Z.lor (shr32 (Z.land addr m) s) (c * 2 ^ 21)
      = (addr / 2 ^ s) mod 2 ^ w + c * 2 ^ 21) as H.
  { intros s w m c Hs Hw ->. rewrite mask_shift by lia.
    assert (0 <= (addr / 2 ^ s) mod 2 ^ w < 2 ^ 21).
    { pose proof (Z.mod_pos_bound (addr / 2 ^ s) (2 ^ w) ltac:(lia)).
      assert (2 ^ w <= 2 ^ 17) by (apply Z.pow_le_mono_r; lia). lia. }
    rewrite Z.lor_comm, lor_add by lia. lia. }
  clear El. unfold net_id, field_from_u32.
  netid_types t Ht; cbn [result_bind]; f_equal.
  - rewrite <- (Z.lor_0_r (shr32 _ _)). apply (H 25 6 _ 0); done || lia.
  - apply (H 24 6 _ 1); done || lia.
  - apply (H 20 9 _ 2); done || lia.
  - apply (H 17 11 _ 3); done || lia.
  - apply (H 15 12 _ 4); done || lia.
  - apply (H 13 13 _ 5); done || lia.
  - apply (H 10 15 _ 6); done || lia.
  - apply (H 7 17 _ 7); done || lia.
Qed.

Lemma to_net_id_ok addr n :
  is_u32 addr -> to_net_id addr = Ok n ->
  exists t, 0 <= t <= 7 /\ leading_ones 32 addr = t /\
    n = (addr / 2 ^ addr_width t) mod 2 ^ nwk_width t + t * 2 ^ 21.
Proof.
  intros Ha E. set (t := leading_ones 32 addr).
  destruct (leading_ones_block 32 addr t Ha eq_refl) as (Ht & _).
  assert (t <= 7) as Ht7.
  { destruct (Z.le_gt_cases t 7); [done|]. exfalso.
    unfold to_net_id in E. rewrite as_u32_small in E by done. fold t in E.
    assert (exists t', t = 8 + t' /\ 0 <= t') as (t' & Et & Ht') by (exists (t - 8); lia).
    rewrite Et in E. clearbody t. subst t.
    destruct t' as [|p|p]; [discriminate| |lia].
    destruct (8 + Z.pos p) as [|q|q] eqn:Eq; [lia| |lia].
    destruct q as [[[?|?|]|[?|?|]|]|[[?|?|]|[?|?|]|]|]; try discriminate; lia. }
  exists t. split; [lia|]. split; [done|].
  rewrite (to_net_id_eq t) in E by (done || lia). by injection E as <-.
Qed.

Lemma nwk_addr_widths t :
  0 <= t <= 7 -> 0 <= addr_width t /\ 0 <= nwk_width t <= 17 /\
  2 ^ (32 - t) = 2 * 2 ^ (31 - t) /\
  2 ^ (31 - t) = 2 ^ nwk_width t * 2 ^ addr_width t /\
  type_prefix t = 2 ^ 32 - 2 ^ (32 - t).
Proof. intros Ht. netid_types t Ht; vm_compute; repeat split; congruence. Qed.

(** Membership in the block of [(t, k)], by dividing by the block size. *)
Lemma block_iff t k addr :
  0 <= t <= 7 -> 0 <= k < 2 ^ nwk_width t -> is_u32 addr ->
  type_prefix t + k * 2 ^ addr_width t <= addr
    <= type_prefix t + k * 2 ^ addr_width t + (2 ^ addr_width t - 1)
  <-> leading_ones 32 addr = t /\ (addr / 2 ^ addr_width t) mod 2 ^ nwk_width t = k.
Proof.
  intros Ht Hk Ha. destruct (nwk_addr_widths t Ht) as (Hs & Hw & H32 & H31 & Hp).
  set (S := 2 ^ addr_width t) in *. set (W := 2 ^ nwk_width t) in *.
  assert (0 < S) by (apply Z.pow_pos_nonneg; lia).
  assert (0 < W) by (apply Z.pow_pos_nonneg; lia).
  destruct (leading_ones_block 32 addr _ Ha eq_refl) as (Hl & Hlo & Hhi).
  set (l := leading_ones 32 addr) in *. change (Z.of_nat 32) with 32 in *.
  split.
  - intros Hb.
    assert (l = t) as Hlt.
    { assert (2 ^ 32 - 2 ^ (32 - t) <= addr < 2 ^ 32 - 2 ^ (31 - t)) by nia.
      destruct (Z.lt_trichotomy l t) as [Hc|[Hc|Hc]]; [|done|].
      - specialize (Hhi ltac:(lia)).
        assert (2 ^ (32 - t) <= 2 ^ (32 - l - 1)) by (apply Z.pow_le_mono_r; lia). lia.
      - assert (2 ^ (32 - l) <= 2 ^ (31 - t)) by (apply Z.pow_le_mono_r; lia). lia. }
    split; [done|].
    assert (2 ^ 32 = 2 ^ (t + 1) * (W * S)) as H2.
    { rewrite <- H31, <- Z.pow_add_r by lia. f_equal. lia. }
    assert (addr / S = (2 ^ (t + 1) - 2) * W + k) as ->.
    { symmetry. apply (Z.div_unique_pos _ _ _ (addr - type_prefix t - k * S)); [lia|].
      rewrite Hp, H2, H32, H31. ring. }
    rewrite Z.add_comm, Z_mod_plus_full. by apply Z.mod_small.
  - intros [Hlt Hm]. rewrite Hlt in *.
    assert (0 <= addr - type_prefix t < W * S) as Hr.
    { rewrite <- H31. destruct (Z.eq_dec t 32); [lia|].
      specialize (Hhi ltac:(lia)). replace (32 - t - 1) with (31 - t) in Hhi by lia. lia. }
    assert (2 ^ 32 = 2 ^ (t + 1) * (W * S)) as H2.
    { rewrite <- H31, <- Z.pow_add_r by lia. f_equal. lia. }
    assert (type_prefix t = (2 ^ (t + 1) - 2) * W * S) as Hps.
    { rewrite Hp, H2, H32, H31. ring. }
    set (q := (addr - type_prefix t) / S).
    assert (addr / S = (2 ^ (t + 1) - 2) * W + q) as Eq.
    { unfold q. replace addr with ((addr - type_prefix t) + (2 ^ (t + 1) - 2) * W * S) at 1
        by lia. rewrite Z.div_add by lia. lia. }
    rewrite Eq, Z.add_comm, Z_mod_plus_full in Hm.
    assert (0 <= q < W) by (unfold q; split;
      [apply Z.div_pos; lia|apply Z.div_lt_upper_bound; lia]).
    rewrite Z.mod_small in Hm by lia.
    pose proof (Z.div_mod (addr - type_prefix t) S ltac:(lia)) as Hdm. fold q in Hdm.
    pose proof (Z.mod_pos_bound (addr - type_prefix t) S ltac:(lia)). subst q. nia.
Qed.

(** For every NetID of type 0 to 6 with a NwkID of its type's width (and
    for type 7 with a NwkID below 2^16), [full_range] succeeds and is exactly
    the set of 32-bit DevAddrs that [to_net_id] maps back to the NetID. *)
Theorem full_range_exact t k :
  0 <= t <= 7 -> 0 <= k < 2 ^ nwk_width t -> (t = 7 -> k < 2 ^ 16) ->
  exists c, full_range (t * 2 ^ 21 + k) = Ok c /\
    end_addr c - start_addr c + 1 = 2 ^ addr_width t /\
    forall addr, is_u32 addr ->
      (start_addr c <= addr <= end_addr c <-> to_net_id addr = Ok (t * 2 ^ 21 + k)).
Proof.
  intros Ht Hk H7. eexists. split; [by apply full_range_eq|].
  cbn [start_addr end_addr]. split; [lia|]. intros addr Ha.
  rewrite block_iff by done.
  assert (2 ^ nwk_width t <= 2 ^ 17)
    by (apply Z.pow_le_mono_r; [lia|]; apply nwk_addr_widths; lia).
  split.
  - intros [El Em]. rewrite (to_net_id_eq t) by done. by rewrite Em, Z.add_comm.
  - intros E. destruct (to_net_id_ok addr _ Ha E) as (t' & Ht' & El & En).
    pose proof (Z.mod_pos_bound (addr / 2 ^ addr_width t') (2 ^ nwk_width t')
      ltac:(apply Z.pow_pos_nonneg; [lia|]; apply nwk_addr_widths; lia)).
    assert (2 ^ nwk_width t' <= 2 ^ 17)
      by (apply Z.pow_le_mono_r; [lia|]; apply nwk_addr_widths; lia).
    assert (t' = t) as -> by lia. split; [done|lia].
Qed.

Lemma full_range_exact_witness :
  exists c, full_range 0xc00053 = Ok c /\ start_addr c = 4227943424 /\
    (start_addr c <= 4227943500 <= end_addr c <-> to_net_id 4227943500 = Ok 0xc00053).
Proof.
  destruct (full_range_exact 6 83) as (c & E & _ & H); [lia|vm_compute; split; congruence|lia|].
  exists c. split; [exact E|]. split.
  - vm_compute in E. injection E as <-. reflexivity.
  - apply H. vm_compute. split; congruence.
Defined.

(** A type-7 NetID whose NwkID uses its 17th bit is not the NetID of its
    own [full_range]: the block returned is that of another NetID, and the
    addresses that decode to the NetID lie outside it. *)
Theorem full_range_type7_truncated k :
  2 ^ 16 <= k < 2 ^ 17 ->
  full_range (7 * 2 ^ 21 + k) = full_range (7 * 2 ^ 21 + (k - 2 ^ 16)) /\
  exists addr, is_u32 addr /\ to_net_id addr = Ok (7 * 2 ^ 21 + k) /\
    forall c, full_range (7 * 2 ^ 21 + k) = Ok c -> end_addr c < addr.
Proof.
  intros Hk.
  assert (full_range (7 * 2 ^ 21 + k) = full_range (7 * 2 ^ 21 + (k - 2 ^ 16))) as E.
  { unfold full_range, range_start, range_end, nwk_id.
    rewrite !net_id_type_eq by lia.
    rewrite !shl_shr32 by lia. rewrite !as_u32_small by (unfold is_u32; lia).
    replace ((7 * 2 ^ 21 + k) mod 2 ^ (32 - (7 + 1 + 8)))
      with ((7 * 2 ^ 21 + (k - 2 ^ 16)) mod 2 ^ (32 - (7 + 1 + 8))) by mlia.
    done. }
  split; [done|].
  set (addr := type_prefix 7 + k * 2 ^ addr_width 7).
  assert (is_u32 addr) as Ha by (unfold is_u32, addr, type_prefix, addr_width; cbn [nwk_width]; lia).
  exists addr. split; [done|]. split.
  - destruct (proj1 (block_iff 7 k addr ltac:(lia) ltac:(cbn [nwk_width]; lia) Ha)) as [El Em].
    { unfold addr, addr_width. cbn [nwk_width]. lia. }
    rewrite (to_net_id_eq 7) by (done || lia). rewrite Em. f_equal. lia.
  - intros c. rewrite E, (full_range_eq 7) by (cbn [nwk_width]; lia).
    intros [= <-]. cbn [end_addr]. unfold addr, addr_width. cbn [nwk_width]. lia.
Qed.

Lemma full_range_type7_truncated_witness :
  full_range 0xe10000 = full_range 0xe00000 /\
  exists addr, is_u32 addr /\ to_net_id addr = Ok 0xe10000 /\
    forall c, full_range 0xe10000 = Ok c -> end_addr c < addr.
Proof. apply (full_range_type7_truncated (2 ^ 16)). lia. Defined.

(** ** Text round trip *)

Lemma hex_value_digit d : 0 <= d < 16 -> hex_value (hex_digit d) = Some d.
Proof.
  intros Hd.
  assert (Forall (fun d => hex_value (hex_digit d) = Some d) (seqZ 0 16)) as H
    by (vm_compute; repeat constructor).
  rewrite Forall_forall in H. apply H. apply elem_of_seqZ. lia.
Qed.

(** What the digits of [v] look like and how they parse back, after any prefix
    already read as [a]. *)
Lemma parse_hex_digits fuel v acc :
  (0 < fuel)%nat -> 0 <= v < 16 ^ Z.of_nat fuel ->
  exists d, (1 <= d <= fuel)%nat /\
    String.length (hex_digits fuel v acc) = (d + String.length acc)%nat /\
    (d = 1%nat \/ 16 ^ (Z.of_nat d - 1) <= v) /\
    forall a, 0 <= a -> a * 16 ^ Z.of_nat d + v < 2 ^ 64 ->
      parse_hex (hex_digits fuel v acc) a = parse_hex acc (a * 16 ^ Z.of_nat d + v).
Proof.
  revert v acc. induction fuel as [|fuel IH]; intros v acc Hf Hv; [lia|].
  pose proof (Z.mod_pos_bound v 16 ltac:(lia)) as Hm.
  pose proof (Z.div_mod v 16 ltac:(lia)) as Hdm.
  cbn [hex_digits]. destruct (Z.eqb_spec (v / 16) 0) as [E0|E0].
  - exists 1%nat. split; [lia|]. split; [done|]. split; [by left|]. intros a Ha Hb.
    change (16 ^ Z.of_nat 1) with 16 in *. cbn [parse_hex].
    rewrite hex_value_digit by lia. replace (v mod 16) with v by lia.
    by destruct (Z.ltb_spec (a * 16 + v) (2 ^ 64)); [|lia].
  - destruct fuel as [|fuel'].
    { exfalso. change (16 ^ Z.of_nat 1) with 16 in Hv. apply E0. by apply Z.div_small. }
    rewrite Nat2Z.inj_succ, Z.pow_succ_r in Hv by lia.
    assert (0 < v / 16) by (pose proof (Z.div_pos v 16); lia).
    destruct (IH (v / 16) (String (hex_digit (v mod 16)) acc)) as (d & Hd & Hl & Hlo & Hp);
      [lia|split; [lia|apply Z.div_lt_upper_bound; lia]|].
    exists (S d). split; [lia|]. split; [rewrite Hl; cbn; lia|]. split.
    { right. destruct Hlo as [->|Hlo]; [cbn; lia|].
      replace (Z.of_nat (S d) - 1) with (Z.succ (Z.of_nat d - 1)) by lia.
      rewrite Z.pow_succ_r by lia. lia. }
    intros a Ha Hb. rewrite Nat2Z.inj_succ, Z.pow_succ_r in * by lia.
    rewrite Hp by (try lia; nia). cbn [parse_hex]. rewrite hex_value_digit by lia.
    replace ((a * 16 ^ Z.of_nat d + v / 16) * 16 + v mod 16)
      with (a * (16 * 16 ^ Z.of_nat d) + v) by lia.
    by destruct (Z.ltb_spec (a * (16 * 16 ^ Z.of_nat d) + v) (2 ^ 64)); [|lia].
Qed.

Lemma parse_hex_zeros n s : parse_hex (zeros n s) 0 = parse_hex s 0.
Proof. induction n as [|n IH]; [done|exact IH]. Qed.

Lemma length_zeros n s : String.length (zeros n s) = (n + String.length s)%nat.
Proof. induction n as [|n IH]; cbn; [done|by rewrite IH]. Qed.

(** A string of hex digits is neither the wildcard nor signed. *)
Lemma parse_hex_plain s v :
  s <> EmptyString -> parse_hex s 0 = Ok v ->
  String.eqb "*" s = false /\ u64_from_str_radix_16 s = Ok v.
Proof.
  intros Hne Hp. destruct s as [|c s]; [done|]. split.
  - destruct (String.eqb_spec "*" (String c s)) as [E|]; [|done].
    injection E as <- <-. discriminate.
  - unfold u64_from_str_radix_16.
    destruct (Ascii.eqb_spec c "+") as [->|]; [discriminate|].
    destruct (Ascii.eqb_spec c "-") as [->|]; [discriminate|].
    by destruct s.
Qed.

(** Printing a field and parsing the text back gives the field: for every
    value that fits in [W] hexadecimal digits, [from_str (to_string v)] is
    [Ok v]. *)
Theorem field_text_roundtrip W (v : Z) :
  (0 < W)%nat -> is_u64 v -> v < 16 ^ Z.of_nat W ->
  field_from_str W (field_to_string W v) = Ok v.
Proof.
  intros HW Hv Hw.
  destruct (parse_hex_digits u64_hex_digits v EmptyString) as (d & Hd & Hl & Hlo & Hp);
    [unfold u64_hex_digits; lia|exact Hv|].
  cbn [String.length] in Hl. rewrite Nat.add_0_r in Hl.
  assert (d <= W)%nat as HdW.
  { destruct Hlo as [->|Hlo]; [lia|].
    assert (Z.of_nat d - 1 < Z.of_nat W); [|lia].
    apply (Z.pow_lt_mono_r_iff 16); lia. }
  assert (parse_hex (field_to_string W v) 0 = Ok v) as Hparse.
  { unfold field_to_string. rewrite parse_hex_zeros, Hp by (destruct Hv; lia).
    cbn. done. }
  assert (String.length (field_to_string W v) = W) as Hlen.
  { unfold field_to_string. rewrite length_zeros, Hl. lia. }
  destruct (parse_hex_plain (field_to_string W v) v) as [Hstar Hu]; [|done|].
  { intros E. rewrite E in Hlen. cbn in Hlen. lia. }
  unfold field_from_str, verify_len. rewrite Hstar, Hlen, Nat.eqb_refl. cbn.
  by rewrite Hu.
Qed.

Lemma field_text_roundtrip_witness :
  field_from_str 8 (field_to_string 8 0xfc014c00) = Ok 0xfc014c00.
Proof.
  apply (field_text_roundtrip 8); [lia|vm_compute; split; congruence|vm_compute; reflexivity].
Defined.

(** The other direction is not injective: the wildcard, lower case and a
    leading sign are accepted. *)
Example from_str_aliases :
  field_from_str 6 "00003c" = Ok 60 /\ field_from_str 6 "+0003C" = Ok 60 /\
  field_from_str 6 "*" = Ok 0.
Proof. repeat split; vm_compute; reflexivity. Qed.

(** [LengthMismatch] is built with its arguments the wrong way round: its
    message reads "expected {0}, found {1}", and for every string of a wrong
    length the code puts the length found first and the width expected second. *)
Lemma length_mismatch_swapped W s :
  s <> "*"%string -> String.length s <> W ->
  field_from_str W s = Err (LengthMismatch (String.length s) W).
Proof.
  intros Hs Hl. unfold field_from_str, verify_len.
  destruct (String.eqb_spec "*" s) as [E|E]; [congruence|].
  apply Nat.eqb_neq in Hl. by rewrite Hl.
Qed.

(** [DevAddrConstraint::new] accepts exactly the non-empty ranges made of
    even/odd address pairs. *)
Lemma constraint_new_ok s e c :
  constraint_new s e = Ok c <->
  c = mkConstraint s e /\ s < e /\ s mod 2 = 0 /\ e mod 2 = 1.
Proof.
  unfold constraint_new.
  destruct (Z.leb_spec e s); [split; [discriminate|lia]|].
  destruct (Z.eqb_spec (s mod 2) 0); destruct (Z.eqb_spec (e mod 2) 0); cbn;
    (split; [intros E; first [discriminate | injection E as <-; repeat split; mlia]
            |intros (-> & ? & ? & ?); first [done | exfalso; mlia]]).
Qed.
