(* ===== verification/HeliumNetids.v ===== *)
(** * DevAddr allocation under the Helium NetIDs

    [iot_config/src/helium_netids.rs]: the three Helium NetIDs, the
    [AddressStore] trait with its Postgres implementation, and the checkout of
    DevAddr slabs for an organization.

    [AddressStore] is a class; [AddressStoreLaws] states what the allocator
    relies on, [PgStore] proves it of the table [helium_used_devaddrs].  The
    allocator's theorems are proved against the interface: a checkout claims
    the first free addresses of the range, fails exactly when there are too few,
    and, as long as addresses are used in even/odd pairs, returns constraints
    that cover exactly the addresses claimed.  Without pairs the constraints can
    cover addresses of another organization. *)

From S2P Require Import Prelude LoraField.

Open Scope Z_scope.
Open Scope oracle_scope.

(** ** NetIDs and ranges *)

Definition TYPE_0_ID : NetIdField := 0x00003c.
Definition TYPE_3_ID : NetIdField := 0x60002d.
Definition TYPE_6_ID : NetIdField := 0xc00053.
Definition TYPE_0_RANGE : Z * Z := (2013265920, 2046820351).
Definition TYPE_3_RANGE : Z * Z := (3763994624, 3764125695).
Definition TYPE_6_RANGE : Z * Z := (4227943424, 4227944447).

Inductive HeliumNetId : Type :=
| Type0_0x00003c
| Type3_0x60002d
| Type6_0xc00053.

#[export] Instance HeliumNetId_eq_dec : EqDecision HeliumNetId.
Proof. solve_decision. Defined.

(** [HeliumNetId::id] *)
Definition netid_id (self : HeliumNetId) : NetIdField :=
  match self with
  | Type0_0x00003c => TYPE_0_ID
  | Type3_0x60002d => TYPE_3_ID
  | Type6_0xc00053 => TYPE_6_ID
  end.

(** [HeliumNetId::addr_range] *)
Definition addr_range (self : HeliumNetId) : Z * Z :=
  match self with
  | Type0_0x00003c => TYPE_0_RANGE
  | Type3_0x60002d => TYPE_3_RANGE
  | Type6_0xc00053 => TYPE_6_RANGE
  end.

(** [impl TryFrom<NetIdField> for HeliumNetId] *)
Definition helium_netid_try_from (field : NetIdField) : result HeliumNetId string :=
  if field =? TYPE_0_ID then Ok Type0_0x00003c
  else if field =? TYPE_3_ID then Ok Type3_0x60002d
  else if field =? TYPE_6_ID then Ok Type6_0xc00053
  else Err "not a helium id"%string.

Definition is_helium_netid (net_id : NetIdField) : bool :=
  existsb (Z.eqb net_id) [TYPE_0_ID; TYPE_3_ID; TYPE_6_ID].

(** ** The store *)

(** [trait AddressStore]; [&mut self] methods return the new store. *)
Class AddressStore (S E : Type) : Type := {
  get_used_addrs : S -> HeliumNetId -> result (list Z) E;
  claim_addrs : S -> HeliumNetId -> list Z -> result S E;
  release_addrs : S -> HeliumNetId -> list Z -> result S E
}.

Inductive ConstraintsBuildError : Type :=
| StartAddr
| EndAddr
| BuildInvalidConstraint (e : DevAddrRangeError).

Inductive DevAddrConstraintsError (E : Type) : Type :=
| AddressStoreError (e : E)
| NoAvailableAddrs
| InvalidConstraint (e : ConstraintsBuildError)
| ConstraintAddrInUse (addrs : list Z).
Arguments AddressStoreError {E} e.
Arguments NoAvailableAddrs {E}.
Arguments InvalidConstraint {E} e.
Arguments ConstraintAddrInUse {E} addrs.

(** The loop of [constraints_from_addrs] with its three local variables. *)
Fixpoint constraints_loop (addrs : list Z) (start_addr end_addr : option Z)
    (constraints : list DevAddrConstraint)
  : result (option Z * option Z * list DevAddrConstraint) ConstraintsBuildError :=
  match addrs with
  | [] => Ok (start_addr, end_addr, constraints)
  | addr :: rest =>
      match start_addr, end_addr with
      | None, None => constraints_loop rest (Some addr) None constraints
      | Some _, None => constraints_loop rest start_addr (Some addr) constraints
      | Some prev_addr, Some next_addr =>
          if addr =? u32_add next_addr 1 then
            constraints_loop rest start_addr (Some addr) constraints
          else if u32_add next_addr 1 <? addr then
            let? c := map_err BuildInvalidConstraint (constraint_new prev_addr next_addr) in
            constraints_loop rest (Some addr) None (constraints ++ [c])
          else Err EndAddr
      | None, Some _ => Err StartAddr
      end
  end.

Definition constraints_from_addrs (addrs : list Z)
  : result (list DevAddrConstraint) ConstraintsBuildError :=
  let? st := constraints_loop addrs None None [] in
  match st with
  | (Some remaining_start, Some remaining_end, constraints) =>
      let? c := map_err BuildInvalidConstraint (constraint_new remaining_start remaining_end) in
      Ok (constraints ++ [c])
  | _ => Err EndAddr
  end.

(** The [while] loop of the checkout: [remaining] is
    [count - claimed_addrs.len()]. *)
Fixpoint extend_claim (remaining : nat) (next_addr range_end : Z) (claimed : list Z)
  : option (list Z) :=
  match remaining with
  | O => Some claimed
  | S r =>
      if next_addr <=? range_end then
        extend_claim r (u32_add next_addr 1) range_end (claimed ++ [next_addr])
      else None
  end.

(** The addresses of the inclusive range [s..=e]. *)
Definition addrs_between (s e : Z) : list Z := seqZ s (e - s + 1).

(** The claimed addresses, or [None] for [NoAvailableAddrs]. *)
Definition plan_claim (used_addrs : list Z) (range_start range_end : Z) (count : nat)
  : option (list Z) :=
  let last_used := default range_start (last used_addrs) in
  let used_range := addrs_between range_start last_used in
  let available_diff := filter (fun a => a ∉ used_addrs) used_range in
  let claimed_addrs := take (Nat.min count (length available_diff)) available_diff in
  let next_addr := u32_add last_used 1 in
  extend_claim (count - length claimed_addrs) next_addr range_end claimed_addrs.

Section Checkout.
Context {S E : Type} `{AddressStore S E}.

Definition checkout_devaddr_constraints (addr_store : S) (count : nat) (net_id : HeliumNetId)
  : S * result (list DevAddrConstraint) (DevAddrConstraintsError E) :=
  match get_used_addrs addr_store net_id with
  | Err e => (addr_store, Err (AddressStoreError e))
  | Ok used_addrs =>
      let '(range_start, range_end) := addr_range net_id in
      match plan_claim used_addrs range_start range_end count with
      | None => (addr_store, Err NoAvailableAddrs)
      | Some claimed_addrs =>
          match claim_addrs addr_store net_id claimed_addrs with
          | Err e => (addr_store, Err (AddressStoreError e))
          | Ok addr_store' =>
              (addr_store', map_err InvalidConstraint (constraints_from_addrs claimed_addrs))
          end
      end
  end.

Definition checkout_specified_devaddr_constraint (addr_store : S) (net_id : HeliumNetId)
    (requested_constraint : DevAddrConstraint)
  : S * result unit (DevAddrConstraintsError E) :=
  match get_used_addrs addr_store net_id with
  | Err e => (addr_store, Err (AddressStoreError e))
  | Ok used_addrs =>
      let request_addrs :=
        addrs_between (field_to_u32 (start_addr requested_constraint))
                      (field_to_u32 (end_addr requested_constraint)) in
      if existsb (fun addr => bool_decide (addr ∈ used_addrs)) request_addrs then
        (addr_store, Err (ConstraintAddrInUse request_addrs))
      else
        match claim_addrs addr_store net_id request_addrs with
        | Err e => (addr_store, Err (AddressStoreError e))
        | Ok addr_store' => (addr_store', Ok tt)
        end
  end.
End Checkout.

(** ** The Postgres store *)

Module PgStore.

(** Table [helium_used_devaddrs]: [devaddr int primary key], [net_id int]. *)
Definition table : Type := gmap Z Z.

Inductive sqlx_error : Type :=
| UniqueViolation (devaddr : Z)
| EmptyValues.

(** [select devaddr ... where net_id = $1 order by devaddr asc], cast to
    [u32]. *)
Definition pg_get_used_addrs (db : gmap Z Z) (net_id : HeliumNetId) : result (list Z) sqlx_error :=
  Ok (as_u32 <$>
      merge_sort Z.le
        (filter (fun d => db !! d = Some (field_to_i32 (netid_id net_id)))
           ((map_to_list db).*1))).

(** [insert into helium_used_devaddrs values ...]: the statement fails as a
    whole on a duplicate key; without a row it is not valid SQL. *)
Fixpoint insert_rows (db : gmap Z Z) (id : Z) (new_addrs : list Z) : result (gmap Z Z) sqlx_error :=
  match new_addrs with
  | [] => Ok db
  | addr :: rest =>
      match db !! as_i32 addr with
      | Some _ => Err (UniqueViolation (as_i32 addr))
      | None => insert_rows (<[as_i32 addr := id]> db) id rest
      end
  end.

Definition pg_claim_addrs (db : gmap Z Z) (net_id : HeliumNetId) (new_addrs : list Z)
  : result (gmap Z Z) sqlx_error :=
  match new_addrs with
  | [] => Err EmptyValues
  | _ => insert_rows db (field_to_i32 (netid_id net_id)) new_addrs
  end.

(** [delete ... where (devaddr, net_id) in ...] *)
Definition pg_release_addrs (db : gmap Z Z) (net_id : HeliumNetId) (released_addrs : list Z)
  : result (gmap Z Z) sqlx_error :=
  match released_addrs with
  | [] => Err EmptyValues
  | _ =>
      Ok (foldr (fun addr db =>
            if bool_decide (db !! as_i32 addr = Some (field_to_i32 (netid_id net_id)))
            then delete (as_i32 addr) db else db) db released_addrs)
  end.

#[global] Instance pg_store : AddressStore (gmap Z Z) sqlx_error := {
  get_used_addrs := pg_get_used_addrs;
  claim_addrs := pg_claim_addrs;
  release_addrs := pg_release_addrs
}.
End PgStore.

Definition claim_from (used : list Z) (n : HeliumNetId) : gmap Z Z :=
  foldr (fun a m => <[as_i32 a := field_to_i32 (netid_id n)]> m) ∅ used.

Example get_free_addrs_from_used_range :
  let used := [4227943424; 4227943425; 4227943428; 4227943429] in
  snd (checkout_devaddr_constraints (claim_from used Type6_0xc00053) 4 Type6_0xc00053) =
  Ok [mkConstraint 4227943426 4227943427; mkConstraint 4227943430 4227943431].
Proof. vm_compute. reflexivity. Qed.

(** ** The reference allocation: the first free addresses of the range *)

Definition free_addrs (used_addrs : list Z) (rs re : Z) : list Z :=
  filter (fun a => a ∉ used_addrs) (addrs_between rs re).

(** A strictly ascending list inside [rs..=re]. *)
Definition ascending_in (rs re : Z) (l : list Z) : Prop :=
  StronglySorted Z.lt l /\ forall a, a ∈ l -> rs <= a <= re.

Lemma elem_of_addrs_between a s e : a ∈ addrs_between s e <-> s <= a <= e.
Proof. unfold addrs_between. rewrite elem_of_seqZ. lia. Qed.

Lemma addrs_between_app s m e :
  s <= m + 1 -> m <= e -> addrs_between s e = addrs_between s m ++ addrs_between (m + 1) e.
Proof.
  intros H1 H2. unfold addrs_between.
  replace (e - s + 1) with ((m - s + 1) + (e - (m + 1) + 1)) by lia.
  rewrite seqZ_app by lia. do 2 f_equal. lia.
Qed.

Lemma addrs_between_cons s e : s <= e -> addrs_between s e = s :: addrs_between (s + 1) e.
Proof.
  intros H. unfold addrs_between. rewrite seqZ_cons by lia.
  f_equal. f_equal; lia.
Qed.

Lemma seqZ_sorted s n : StronglySorted Z.lt (seqZ s n).
Proof.
  destruct (Z.le_gt_cases 0 n) as [Hn|Hn]; [|rewrite seqZ_nil by lia; constructor].
  revert s. pattern n. apply natlike_ind; [|clear n Hn|done].
  - intros s. rewrite seqZ_nil by lia. constructor.
  - intros n Hn IH s. rewrite seqZ_cons by lia. constructor.
    + rewrite Z.pred_succ. apply IH.
    + apply Forall_forall. intros x Hx. apply elem_of_seqZ in Hx. lia.
Qed.

Lemma StronglySorted_last (l : list Z) a :
  StronglySorted Z.lt l -> a ∈ l -> exists m, last l = Some m /\ m ∈ l /\ a <= m.
Proof.
  intros Hs. revert a. induction Hs as [|b l Hl IH Hb]; intros a Ha;
    [by apply not_elem_of_nil in Ha|].
  destruct l as [|c l].
  - apply list_elem_of_singleton in Ha as ->. exists b. split; [done|]. split; [by left|lia].
  - rewrite last_cons_cons. apply elem_of_cons in Ha as [->|Ha].
    + destruct (IH c ltac:(left)) as (m & Em & Hm & Hc). exists m. split; [done|].
      split; [by right|]. rewrite Forall_forall in Hb.
      specialize (Hb c ltac:(left)). cbn in Hb. lia.
    + destruct (IH a Ha) as (m & Em & Hm & Hc). exists m. split; [done|]. split; [by right|done].
Qed.

Lemma extend_claim_eq r next re claimed :
  0 <= next -> re < 2 ^ 32 - 1 ->
  extend_claim r next re claimed =
    if bool_decide (Z.of_nat r <= re - next + 1 \/ r = 0%nat)
    then Some (claimed ++ seqZ next (Z.of_nat r)) else None.
Proof.
  revert next claimed. induction r as [|r IH]; intros next claimed Hn Hre; cbn [extend_claim].
  - rewrite bool_decide_true by lia. rewrite seqZ_nil by lia. by rewrite app_nil_r.
  - destruct (Z.leb_spec next re) as [Hle|Hgt].
    + assert (u32_add next 1 = next + 1) as -> by (apply wrap_small; lia).
      rewrite IH by lia.
      rewrite (bool_decide_ext _ (Z.of_nat (S r) <= re - next + 1 \/ S r = 0%nat)) by lia.
      case_bool_decide; [|done]. f_equal. rewrite <- app_assoc. f_equal.
      rewrite (seqZ_cons next) by lia. cbn. do 2 f_equal; lia.
    + rewrite bool_decide_false by lia. done.
Qed.

Lemma take_seqZ k s n : take k (seqZ s n) = seqZ s (Z.min (Z.of_nat k) n).
Proof.
  destruct (Z.le_gt_cases n 0) as [Hn|Hn].
  - rewrite !seqZ_nil by lia. by destruct k.
  - destruct (Z.le_gt_cases n (Z.of_nat k)).
    + rewrite take_ge by (rewrite length_seqZ; lia). f_equal. lia.
    + replace n with (Z.of_nat k + (n - Z.of_nat k)) at 1 by lia.
      rewrite seqZ_app by lia. rewrite take_app_length'; [f_equal; lia|rewrite length_seqZ; lia].
Qed.

(** The free addresses are the gaps below the last used address followed by
    everything above it. *)
Lemma free_addrs_split used rs re :
  rs <= re -> ascending_in rs re used ->
  let lu := default rs (last used) in
  rs <= lu <= re /\
  free_addrs used rs re =
    filter (fun a => a ∉ used) (addrs_between rs lu) ++ addrs_between (lu + 1) re.
Proof.
  intros Hr [Hs Hin] lu.
  assert (rs <= lu <= re) as Hlu.
  { unfold lu. destruct (last used) as [m|] eqn:E; cbn; [|lia].
    apply Hin. by apply last_Some_elem_of. }
  split; [done|]. unfold free_addrs.
  rewrite (addrs_between_app rs lu re) by lia. rewrite filter_app. f_equal.
  apply list_filter_all. intros a Ha Hu.
  apply elem_of_addrs_between in Ha.
  destruct (StronglySorted_last used a Hs Hu) as (m & Em & _ & Hm).
  unfold lu in Ha. rewrite Em in Ha. cbn in Ha. lia.
Qed.

(** The planned claim is the first [count] free addresses, and there is none
    exactly when fewer are free. *)
Lemma plan_claim_first_free used rs re count :
  0 <= rs <= re -> re < 2 ^ 32 - 1 -> ascending_in rs re used ->
  plan_claim used rs re count =
    if bool_decide (count <= length (free_addrs used rs re))%nat
    then Some (take count (free_addrs used rs re)) else None.
Proof.
  intros Hr Hre Hu. destruct (free_addrs_split used rs re ltac:(lia) Hu) as [Hlu Hf].
  unfold plan_claim. set (lu := default rs (last used)) in *.
  set (gaps := filter (fun a => a ∉ used) (addrs_between rs lu)) in *.
  rewrite Hf, length_app.
  assert (length (addrs_between (lu + 1) re) = Z.to_nat (re - lu)) as Hl
    by (unfold addrs_between; rewrite length_seqZ; lia).
  rewrite Hl.
  assert (u32_add lu 1 = lu + 1) as -> by (apply wrap_small; lia).
  rewrite extend_claim_eq by lia. rewrite length_take.
  assert (Nat.min (Nat.min count (length gaps)) (length gaps) = Nat.min count (length gaps))
    as -> by lia.
  rewrite (bool_decide_ext _ (count <= length gaps + Z.to_nat (re - lu))%nat) by lia.
  case_bool_decide as Hc; [|done]. f_equal. rewrite take_app. f_equal.
  - destruct (Nat.le_ge_cases count (length gaps)).
    + by rewrite Nat.min_l by lia.
    + rewrite Nat.min_r by lia. rewrite !take_ge by lia. done.
  - unfold addrs_between. rewrite take_seqZ. f_equal. lia.
Qed.

(** ** Address pairs and constraints *)

(** A list made of even/odd neighbours. *)
Inductive paired : list Z -> Prop :=
| paired_nil : paired []
| paired_cons a l : a mod 2 = 0 -> paired l -> paired (a :: a + 1 :: l).

(** A set of used addresses that never splits a pair. *)
Definition pair_closed (used : list Z) : Prop :=
  forall a, a mod 2 = 0 -> (a ∈ used <-> a + 1 ∈ used).

Lemma paired_take l k : paired l -> paired (take (2 * k) l).
Proof.
  intros H. revert k. induction H as [|a l Ha Hl IH]; intros k.
  - rewrite take_nil. constructor.
  - destruct k as [|k]; [constructor|].
    replace (2 * S k)%nat with (S (S (2 * k))) by lia. cbn [take]. by constructor.
Qed.

Lemma free_addrs_paired used rs re :
  pair_closed used -> rs mod 2 = 0 -> re mod 2 = 1 -> paired (free_addrs used rs re).
Proof.
  intros Hp Hrs Hre. unfold free_addrs.
  destruct (Z.le_gt_cases re rs) as [Hle|Hlt].
  { unfold addrs_between. rewrite seqZ_nil by mlia. constructor. }
  assert (exists n, 0 <= n /\ re = rs + 2 * n - 1) as (n & Hn & ->)
    by (exists ((re - rs + 1) / 2); mlia).
  clear Hre Hlt. revert rs Hrs. pattern n. apply natlike_ind; [| |done].
  - intros rs Hrs. unfold addrs_between. rewrite seqZ_nil by lia. constructor.
  - clear n Hn. intros n Hn IH rs Hrs.
    rewrite addrs_between_cons, addrs_between_cons by lia.
    specialize (IH (rs + 2) ltac:(mlia)).
    replace (rs + 2 + 2 * n - 1) with (rs + 2 * Z.succ n - 1) in IH by lia.
    replace (rs + 1 + 1) with (rs + 2) by lia.
    rewrite !filter_cons. destruct (Hp rs Hrs) as [Hp1 Hp2].
    destruct (decide (rs ∉ used)) as [Hd|Hd]; destruct (decide (rs + 1 ∉ used)) as [Hd'|Hd'].
    + by constructor.
    + exfalso. apply Hd'. intros H. auto.
    + exfalso. apply Hd. intros H. auto.
    + done.
Qed.

(** The addresses a constraint covers. *)
Definition covered (c : DevAddrConstraint) : list Z := addrs_between (start_addr c) (end_addr c).

Definition well_formed (c : DevAddrConstraint) : Prop :=
  start_addr c < end_addr c /\ start_addr c mod 2 = 0 /\ end_addr c mod 2 = 1.

Lemma constraint_new_wf s e :
  s < e -> s mod 2 = 0 -> e mod 2 = 1 -> constraint_new s e = Ok (mkConstraint s e).
Proof. intros. by apply constraint_new_ok. Qed.

Lemma constraints_loop_paired l s e acc :
  paired l -> StronglySorted Z.lt l -> (forall a, a ∈ l -> e < a < 2 ^ 32) ->
  0 <= s < e -> e < 2 ^ 32 -> s mod 2 = 0 -> e mod 2 = 1 ->
  exists s' e' cs,
    constraints_loop l (Some s) (Some e) acc = Ok (Some s', Some e', acc ++ cs) /\
    s' < e' /\ s' mod 2 = 0 /\ e' mod 2 = 1 /\ Forall well_formed cs /\
    flat_map covered cs ++ addrs_between s' e' = addrs_between s e ++ l.
Proof.
  intros Hp. revert s e acc. induction Hp as [|a l Ha Hl IH];
    intros s e acc Hs Hb Hse He Hs2 He2; cbn [constraints_loop].
  { exists s, e, []. rewrite !app_nil_r. by repeat split; try lia. }
  assert (e < a /\ a + 1 < 2 ^ 32) as [Hea Ha1].
  { split; [apply (Hb a); left|apply (Hb (a + 1)); right; left]. }
  inversion Hs as [|? ? Hs' Hall]; subst. inversion Hs' as [|? ? Hs'' Hall']; subst.
  assert (forall x, x ∈ l -> a + 1 < x < 2 ^ 32) as Hb'.
  { intros x Hx. rewrite Forall_forall in Hall'. split; [by apply Hall'|].
    apply (Hb x). by do 2 right. }
  assert (u32_add e 1 = e + 1) as -> by (apply wrap_small; lia).
  assert (u32_add a 1 = a + 1) as Hua by (apply wrap_small; lia).
  destruct (Z.eqb_spec a (e + 1)) as [E|E].
  - rewrite Hua, Z.eqb_refl.
    destruct (IH s (a + 1) acc) as (s' & e' & cs & H1 & H2 & H3 & H4 & H5 & H6);
      [done|done|lia|lia|done|mlia|].
    exists s', e', cs. do 5 (split; [done|]). rewrite H6.
    rewrite (addrs_between_app s e (a + 1)) by lia. rewrite <- app_assoc. f_equal.
    rewrite E, addrs_between_cons, addrs_between_cons by lia.
    unfold addrs_between. rewrite seqZ_nil by lia. done.
  - destruct (Z.ltb_spec (e + 1) a); [|lia].
    rewrite constraint_new_wf by (done || lia). cbn [map_err result_bind].
    destruct (IH a (a + 1) (acc ++ [mkConstraint s e]))
      as (s' & e' & cs & H1 & H2 & H3 & H4 & H5 & H6); [done|done|lia|lia|done|mlia|].
    exists s', e', (mkConstraint s e :: cs). rewrite H1, <- app_assoc.
    do 4 (split; [done|]). split.
    { constructor; [|done]. by repeat split; cbn; try lia. }
    cbn [flat_map]. rewrite <- app_assoc, H6. unfold covered at 1.
    cbn [start_addr end_addr]. f_equal.
    rewrite addrs_between_cons, addrs_between_cons by lia.
    unfold addrs_between. rewrite seqZ_nil by lia. done.
Qed.

(** On a non-empty ascending list of pairs the constraints cover exactly the
    list. *)
Lemma constraints_from_addrs_paired l :
  l <> [] -> paired l -> StronglySorted Z.lt l -> (forall a, a ∈ l -> 0 <= a < 2 ^ 32) ->
  exists cs, constraints_from_addrs l = Ok cs /\ Forall well_formed cs /\
    flat_map covered cs = l.
Proof.
  intros Hne Hp Hs Hb. destruct Hp as [|a l Ha Hl]; [done|].
  inversion Hs as [|? ? Hs' Hall]; subst. inversion Hs' as [|? ? Hs'' Hall']; subst.
  destruct (constraints_loop_paired l a (a + 1) []) as (s' & e' & cs & H1 & H2 & H3 & H4 & H5 & H6);
    [done|done| | | |done|mlia|].
  { intros x Hx. rewrite Forall_forall in Hall'. split; [by apply Hall'|].
    apply (Hb x). by do 2 right. }
  { specialize (Hb a ltac:(left)). lia. }
  { specialize (Hb (a + 1) ltac:(right; left)). lia. }
  exists (cs ++ [mkConstraint s' e']). unfold constraints_from_addrs.
  cbn [constraints_loop]. rewrite H1. cbn [result_bind app].
  rewrite constraint_new_wf by done. cbn [map_err result_bind]. split; [done|]. split.
  { apply Forall_app. split; [done|]. constructor; [|constructor]. by repeat split. }
  rewrite flat_map_app. cbn [flat_map]. rewrite app_nil_r. unfold covered at 2. cbn [start_addr end_addr]. rewrite H6.
  rewrite addrs_between_cons, addrs_between_cons by lia.
  unfold addrs_between. rewrite seqZ_nil by lia. done.
Qed.

(** ** What the allocator relies on *)

Definition in_range (n : HeliumNetId) (a : Z) : Prop := (addr_range n).1 <= a <= (addr_range n).2.

(** A store has, for each NetID, an ascending list of used addresses of its
    range; claiming unused addresses adds them and touches no other NetID. *)
Class AddressStoreLaws (S E : Type) `{!AddressStore S E} : Type := {
  store_ok : S -> Prop;
  used : S -> HeliumNetId -> list Z;
  used_ascending st n :
    store_ok st -> ascending_in (addr_range n).1 (addr_range n).2 (used st n);
  get_used_spec st n : store_ok st -> get_used_addrs st n = Ok (used st n);
  claim_spec st n l :
    store_ok st -> l <> [] -> NoDup l -> (forall a, a ∈ l -> in_range n a /\ a ∉ used st n) ->
    exists st', claim_addrs st n l = Ok st' /\ store_ok st' /\
      (forall a, a ∈ used st' n <-> a ∈ used st n \/ a ∈ l) /\
      (forall m, m <> n -> used st' m = used st m);
  release_spec st n l :
    store_ok st -> l <> [] -> (forall a, a ∈ l -> in_range n a) ->
    exists st', release_addrs st n l = Ok st' /\ store_ok st' /\
      (forall a, a ∈ used st' n <-> a ∈ used st n /\ a ∉ l) /\
      (forall m, m <> n -> used st' m = used st m)
}.

Lemma addr_range_bounds n :
  0 <= (addr_range n).1 <= (addr_range n).2 /\ (addr_range n).2 < 2 ^ 32 - 1 /\
  (addr_range n).1 mod 2 = 0 /\ (addr_range n).2 mod 2 = 1.
Proof. destruct n; vm_compute; repeat split; congruence. Qed.

Section Client.
Context {S E : Type} `{!AddressStore S E, !AddressStoreLaws S E}.
Implicit Types (st : S) (n : HeliumNetId).

Definition free st n : list Z := free_addrs (used st n) (addr_range n).1 (addr_range n).2.

Lemma elem_of_free st n a : a ∈ free st n <-> in_range n a /\ a ∉ used st n.
Proof.
  unfold free, free_addrs. rewrite list_elem_of_filter, elem_of_addrs_between.
  unfold in_range. tauto.
Qed.

Lemma free_sorted st n : StronglySorted Z.lt (free st n).
Proof. apply StronglySorted_filter, seqZ_sorted. Qed.

Lemma take_free st n k a : a ∈ take k (free st n) -> in_range n a /\ a ∉ used st n.
Proof.
  intros H. apply elem_of_free.
  rewrite <- (take_drop k (free st n)). apply elem_of_app. by left.
Qed.

(** With enough free addresses the first [count] of them are claimed. *)
Lemma checkout_some st n count :
  store_ok st -> (0 < count <= length (free st n))%nat ->
  let claimed := take count (free st n) in
  exists st',
    checkout_devaddr_constraints st count n =
      (st', map_err InvalidConstraint (constraints_from_addrs claimed)) /\
    store_ok st' /\ length claimed = count /\
    (forall a, a ∈ used st' n <-> a ∈ used st n \/ a ∈ claimed) /\
    (forall m, m <> n -> used st' m = used st m).
Proof.
  intros Hok Hc claimed. unfold checkout_devaddr_constraints. rewrite get_used_spec by done.
  destruct (addr_range_bounds n) as (Hr & Hre & _).
  pose proof (used_ascending st n Hok) as Hasc.
  destruct (addr_range n) as [rs re] eqn:Er. cbn [fst snd] in *.
  rewrite plan_claim_first_free by (done || lia).
  assert (free_addrs (used st n) rs re = free st n) as -> by (unfold free; by rewrite Er).
  rewrite bool_decide_true by lia. fold claimed.
  assert (length claimed = count) as Hl by (unfold claimed; rewrite length_take; lia).
  destruct (claim_spec st n claimed) as (st' & -> & Hok' & Hu & Hm);
    [done| | |by apply take_free|by exists st'].
  - intros E0. rewrite E0 in Hl. cbn in Hl. lia.
  - apply StronglySorted_lt_NoDup, StronglySorted_take, free_sorted.
Qed.

Lemma checkout_none st n count :
  store_ok st -> (length (free st n) < count)%nat ->
  checkout_devaddr_constraints st count n = (st, Err NoAvailableAddrs).
Proof.
  intros Hok Hc. unfold checkout_devaddr_constraints. rewrite get_used_spec by done.
  destruct (addr_range_bounds n) as (Hr & Hre & _).
  pose proof (used_ascending st n Hok) as Hasc.
  unfold free in Hc. destruct (addr_range n) as [rs re] eqn:Er. cbn [fst snd] in *.
  rewrite plan_claim_first_free by (done || lia).
  by rewrite bool_decide_false by lia.
Qed.

(** The claimed addresses are the lowest free ones. *)
Lemma take_free_lowest st n k a b :
  a ∈ take k (free st n) -> b ∈ free st n -> b < a -> b ∈ take k (free st n).
Proof.
  intros Ha Hb Hlt. rewrite <- (take_drop k (free st n)) in Hb.
  apply elem_of_app in Hb as [|Hbd]; [done|]. exfalso.
  pose proof (free_sorted st n) as Hs. rewrite <- (take_drop k (free st n)) in Hs.
  apply StronglySorted_app_1_elem_of with (x1 := a) (x2 := b) in Hs; [lia|done|done].
Qed.

(** C25: A checkout of [count] addresses fails with [NoAvailableAddrs] and an
    unchanged store exactly when fewer than [count] addresses of the range
    are free; otherwise the store afterwards uses precisely the addresses
    used before and the [count] lowest free ones, and the other NetIDs are
    untouched. *)
Theorem checkout_claims_first_free st n count :
  store_ok st -> (0 < count)%nat ->
  let r := checkout_devaddr_constraints st count n in
  let claimed := take count (free st n) in
  if bool_decide (count <= length (free st n))%nat
  then store_ok r.1 /\ length claimed = count /\
       (forall a, a ∈ used r.1 n <-> a ∈ used st n \/ a ∈ claimed) /\
       (forall a, a ∈ claimed -> in_range n a /\ a ∉ used st n) /\
       (forall a b, a ∈ claimed -> in_range n b -> b < a -> b ∈ used r.1 n) /\
       (forall m, m <> n -> used r.1 m = used st m)
  else r = (st, Err NoAvailableAddrs).
Proof.
  intros Hok Hc r claimed. case_bool_decide as Hlen; [|by apply checkout_none; [|lia]].
  destruct (checkout_some st n count Hok ltac:(lia)) as (st' & Hr & Hok' & Hl & Hu & Hm).
  subst r. rewrite Hr. cbn [fst]. do 3 (split; [done|]). split; [by apply take_free|].
  split; [|done]. intros a b Ha Hb Hlt. apply Hu.
  destruct (decide (b ∈ used st n)) as [|Hnu]; [by left|right].
  apply (take_free_lowest st n count a b); [done| |done]. by apply elem_of_free.
Qed.

(** A checkout of pairs while addresses are used in pairs: the constraints cover
    the claimed addresses, and the store still uses pairs. *)
Lemma checkout_pairs st n k :
  store_ok st -> pair_closed (used st n) -> (0 < k)%nat -> (2 * k <= length (free st n))%nat ->
  exists st' cs,
    checkout_devaddr_constraints st (2 * k) n = (st', Ok cs) /\
    flat_map covered cs = take (2 * k) (free st n) /\ Forall well_formed cs /\
    store_ok st' /\ pair_closed (used st' n) /\
    (forall a, a ∈ used st' n <-> a ∈ used st n \/ a ∈ take (2 * k) (free st n)) /\
    (forall m, m <> n -> used st' m = used st m).
Proof.
  intros Hok Hp Hk Hlen.
  destruct (checkout_some st n (2 * k) Hok ltac:(lia)) as (st' & Hres & Hok' & Hl & Hu & Hm).
  pose proof (take_free st n (2 * k)) as Hfr.
  destruct (addr_range_bounds n) as (Hr & Hre & Hrs2 & Hre2).
  assert (paired (take (2 * k) (free st n))) as Hpt
    by (apply paired_take, free_addrs_paired; done).
  destruct (constraints_from_addrs_paired (take (2 * k) (free st n)))
    as (cs & Hcs & Hwf & Hcov); [| done | | |].
  { intros E0. rewrite E0 in Hl. cbn in Hl. lia. }
  { apply StronglySorted_take, free_sorted. }
  { intros a Ha. destruct (Hfr a Ha) as [Hin _]. unfold in_range in Hin. lia. }
  rewrite Hcs in Hres. cbn [map_err] in Hres.
  exists st', cs. do 4 (split; [done|]). split; [|done]. intros a Ha. rewrite !Hu, (Hp a Ha).
  enough (a ∈ take (2 * k) (free st n) <-> a + 1 ∈ take (2 * k) (free st n)) by tauto.
  clear - Hpt Ha. induction Hpt as [|b l Hb Hl IH]; [set_solver|].
  rewrite !elem_of_cons, IH.
  split; intros [?|[?|?]]; first [right; left; lia | left; lia | by right; right | exfalso; mlia].
Qed.

(** As long as addresses are used in even/odd pairs, a checkout of an even,
    positive number of addresses that are available returns constraints that
    cover exactly the addresses claimed, so no constraint contains an address
    used before, and the store still uses addresses in pairs. *)
Theorem checkout_pairs_covered st n k :
  store_ok st -> pair_closed (used st n) -> (0 < k)%nat ->
  (2 * k <= length (free st n))%nat ->
  exists st' cs,
    checkout_devaddr_constraints st (2 * k) n = (st', Ok cs) /\
    flat_map covered cs = take (2 * k) (free st n) /\
    Forall well_formed cs /\
    (forall c a, c ∈ cs -> start_addr c <= a <= end_addr c -> a ∉ used st n) /\
    store_ok st' /\ pair_closed (used st' n).
Proof.
  intros Hok Hp Hk Hlen.
  destruct (checkout_pairs st n k Hok Hp Hk Hlen) as (st' & cs & Hres & Hcov & Hwf & Hok' & Hp' & _).
  exists st', cs. do 3 (split; [done|]). split; [|done].
  intros c a Hc Ha. apply (take_free st n (2 * k)). rewrite <- Hcov. apply list_elem_of_In, in_flat_map.
  exists c. split; [by apply list_elem_of_In|]. by apply list_elem_of_In, elem_of_addrs_between.
Qed.

(** The two outcomes of checking out a specified constraint of the range. *)
Lemma checkout_specified st n c :
  store_ok st -> (forall a, field_to_u32 (start_addr c) <= a <= field_to_u32 (end_addr c) ->
    in_range n a) -> field_to_u32 (start_addr c) <= field_to_u32 (end_addr c) ->
  let req := addrs_between (field_to_u32 (start_addr c)) (field_to_u32 (end_addr c)) in
  let r := checkout_specified_devaddr_constraint st n c in
  ((exists a, a ∈ req /\ a ∈ used st n) -> r = (st, Err (ConstraintAddrInUse req))) /\
  ((forall a, a ∈ req -> a ∉ used st n) ->
    r.2 = Ok tt /\ store_ok r.1 /\ (forall a, a ∈ used r.1 n <-> a ∈ used st n \/ a ∈ req) /\
    (forall m, m <> n -> used r.1 m = used st m)).
Proof.
  intros Hok Hin Hne req r. subst r. unfold checkout_specified_devaddr_constraint.
  rewrite get_used_spec by done. fold req. split.
  - intros (a & Ha & Hu).
    assert (existsb (fun addr => bool_decide (addr ∈ used st n)) req = true) as ->; [|done].
    apply existsb_exists. exists a. split; [by apply list_elem_of_In|].
    by apply bool_decide_eq_true.
  - intros Hfree.
    assert (existsb (fun addr => bool_decide (addr ∈ used st n)) req = false) as ->.
    { apply not_true_is_false. rewrite existsb_exists. intros (a & Ha & Hu).
      apply bool_decide_eq_true in Hu. apply list_elem_of_In in Ha. by apply (Hfree a). }
    destruct (claim_spec st n req) as (st' & -> & Hok' & Hu & Hm); [done| | | |done].
    + intros E0. assert (field_to_u32 (start_addr c) ∈ req) as Hs
        by (apply elem_of_addrs_between; lia). rewrite E0 in Hs. by apply not_elem_of_nil in Hs.
    + apply StronglySorted_lt_NoDup, seqZ_sorted.
    + intros a Ha. split; [|by apply Hfree]. apply Hin. by apply elem_of_addrs_between.
Qed.

(** Checking out a specified constraint succeeds only when none of its
    addresses is in use, and then uses exactly those in addition; otherwise
    the store is unchanged and the error carries the requested addresses. *)
Theorem checkout_specified_spec st n c :
  store_ok st -> (forall a, field_to_u32 (start_addr c) <= a <= field_to_u32 (end_addr c) ->
    in_range n a) -> field_to_u32 (start_addr c) <= field_to_u32 (end_addr c) ->
  let req := addrs_between (field_to_u32 (start_addr c)) (field_to_u32 (end_addr c)) in
  let r := checkout_specified_devaddr_constraint st n c in
  ((exists a, a ∈ req /\ a ∈ used st n) -> r = (st, Err (ConstraintAddrInUse req))) /\
  ((forall a, a ∈ req -> a ∉ used st n) ->
    r.2 = Ok tt /\ store_ok r.1 /\ (forall a, a ∈ used r.1 n <-> a ∈ used st n \/ a ∈ req)).
Proof.
  intros Hok Hin Hne req r. destruct (checkout_specified st n c Hok Hin Hne) as [H1 H2].
  split; [done|]. intros Hf. by destruct (H2 Hf) as (? & ? & ? & _).
Qed.
End Client.

(** ** The Postgres table satisfies the laws *)

Module PgLaws.
Import PgStore.

Definition row_id (n : HeliumNetId) : Z := field_to_i32 (netid_id n).

(** Every row holds an [i32] address of the range of its NetID. *)
Definition pg_store_ok (db : gmap Z Z) : Prop :=
  forall d id, db !! d = Some id ->
    - 2 ^ 31 <= d < 2 ^ 31 /\ exists n, id = row_id n /\ in_range n (as_u32 d).

Definition rows (db : gmap Z Z) (n : HeliumNetId) : list Z :=
  merge_sort Z.le (filter (fun d => db !! d = Some (row_id n)) ((map_to_list db).*1)).

Definition pg_used (db : gmap Z Z) (n : HeliumNetId) : list Z := as_u32 <$> rows db n.

Lemma row_id_inj n m : row_id n = row_id m -> n = m.
Proof. destruct n, m; vm_compute; congruence. Qed.

Lemma elem_of_rows db n d : d ∈ rows db n <-> db !! d = Some (row_id n).
Proof.
  unfold rows. rewrite merge_sort_Permutation, list_elem_of_filter.
  split; [by intros [? _]|]. intros H. split; [done|].
  apply list_elem_of_fmap. exists (d, row_id n). split; [done|]. by apply elem_of_map_to_list.
Qed.

Lemma as_u32_i32 d : - 2 ^ 31 <= d < 2 ^ 31 -> as_u32 d = if d <? 0 then d + 2 ^ 32 else d.
Proof.
  intros Hd. unfold as_u32, wrap. destruct (Z.ltb_spec d 0); mlia.
Qed.

Lemma as_i32_u32 d : - 2 ^ 31 <= d < 2 ^ 31 -> as_i32 (as_u32 d) = d.
Proof.
  intros Hd. unfold as_i32, as_signed. rewrite (as_u32_i32 d Hd).
  destruct (Z.ltb_spec d 0).
  - rewrite wrap_small by lia. destruct (Z.ltb_spec (d + 2 ^ 32) (2 ^ (32 - 1))); lia.
  - rewrite wrap_small by lia. destruct (Z.ltb_spec d (2 ^ (32 - 1))); lia.
Qed.

Lemma as_i32_range a : is_u32 a -> - 2 ^ 31 <= as_i32 a < 2 ^ 31.
Proof.
  intros Ha. unfold as_i32, as_signed. rewrite wrap_small by done. unfold is_u32 in Ha.
  destruct (Z.ltb_spec a (2 ^ (32 - 1))); lia.
Qed.

Lemma in_range_u32 n a : in_range n a -> is_u32 a.
Proof. destruct (addr_range_bounds n). unfold in_range, is_u32. lia. Qed.

Lemma elem_of_pg_used db n a :
  pg_store_ok db -> is_u32 a -> a ∈ pg_used db n <-> db !! as_i32 a = Some (row_id n).
Proof.
  intros Hok Ha. unfold pg_used. rewrite list_elem_of_fmap. split.
  - intros (d & -> & Hd). apply elem_of_rows in Hd.
    rewrite as_i32_u32; [done|]. by apply (Hok d (row_id n)).
  - intros Hd. exists (as_i32 a). split; [by rewrite as_u32_as_i32|by apply elem_of_rows].
Qed.

(** Within one range the signed and the unsigned order agree. *)
Lemma pg_used_ascending db n :
  pg_store_ok db -> ascending_in (addr_range n).1 (addr_range n).2 (pg_used db n).
Proof.
  intros Hok.
  assert (forall d, d ∈ rows db n -> - 2 ^ 31 <= d < 2 ^ 31 /\ in_range n (as_u32 d)) as Hr.
  { intros d Hd. apply elem_of_rows in Hd.
    destruct (Hok d _ Hd) as (? & n' & E & ?). apply row_id_inj in E as ->. done. }
  assert (NoDup (rows db n)) as Hnd.
  { unfold rows. rewrite merge_sort_Permutation. apply NoDup_filter, NoDup_fst_map_to_list. }
  assert (StronglySorted Z.le (rows db n)) as Hs
    by (unfold rows; apply StronglySorted_merge_sort; apply _).
  unfold pg_used. split.
  - induction (rows db n) as [|d l IH]; cbn; [constructor|].
    inversion Hs as [|? ? Hs' Hall]; subst. inversion Hnd as [|? ? Hni Hnd']; subst.
    constructor; [apply IH; [|done|done]; intros; apply Hr; by right|].
    apply Forall_forall. intros x Hx. apply list_elem_of_fmap in Hx as (e & -> & He).
    rewrite Forall_forall in Hall. specialize (Hall e He).
    assert (d <> e) by (intros ->; done).
    destruct (Hr d ltac:(left)) as [Hd Hd']. destruct (Hr e ltac:(by right)) as [He1 He2].
    rewrite !as_u32_i32 in * by done. unfold in_range in *.
    destruct (Z.ltb_spec d 0), (Z.ltb_spec e 0); destruct n; cbn in *; lia.
  - intros a Ha. apply list_elem_of_fmap in Ha as (d & -> & Hd). by apply Hr.
Qed.

Lemma insert_rows_ok db id l :
  NoDup l -> (forall a, a ∈ l -> is_u32 a /\ db !! as_i32 a = None) ->
  exists db', insert_rows db id l = Ok db' /\
    forall d, db' !! d = if bool_decide (d ∈ as_i32 <$> l) then Some id else db !! d.
Proof.
  intros Hnd. revert db. induction Hnd as [|a l Hni Hnd IH]; intros db Hl; cbn [insert_rows].
  { exists db. split; [done|]. intros d. by rewrite bool_decide_false by set_solver. }
  destruct (Hl a ltac:(left)) as [Ha ->].
  destruct (IH (<[as_i32 a := id]> db)) as (db' & -> & Hdb').
  - intros b Hb. destruct (Hl b ltac:(by right)) as [Hb1 Hb2]. split; [done|].
    rewrite lookup_insert_ne; [done|]. intros E.
    apply (f_equal as_u32) in E. rewrite !as_u32_as_i32 in E by done. by subst.
  - exists db'. split; [done|]. intros d. rewrite Hdb', fmap_cons.
    destruct (decide (d = as_i32 a)) as [->|Hne].
    + rewrite (bool_decide_true (as_i32 a ∈ _ :: _)) by left.
      case_bool_decide; [done|]. apply lookup_insert_eq.
    + rewrite lookup_insert_ne by done. by rewrite (bool_decide_ext (d ∈ as_i32 a :: _) (d ∈ as_i32 <$> l))
        by (rewrite elem_of_cons; tauto).
Qed.

Lemma in_range_inj n m a : in_range n a -> in_range m a -> n = m.
Proof. unfold in_range. destruct n, m; cbn; (done || lia). Qed.

(** An address of the range that [n] does not use has no row at all. *)
Lemma unused_no_row db n a :
  pg_store_ok db -> in_range n a -> a ∉ pg_used db n -> db !! as_i32 a = None.
Proof.
  intros Hok Ha Hu. pose proof (in_range_u32 n a Ha) as Hau.
  destruct (db !! as_i32 a) as [id|] eqn:E; [|done]. exfalso. apply Hu.
  destruct (Hok _ _ E) as (_ & m & -> & Hm). rewrite as_u32_as_i32 in Hm by done.
  rewrite (in_range_inj n m a) by done. by apply elem_of_pg_used.
Qed.

Lemma rows_ext (db db' : gmap Z Z) m :
  (forall d, db !! d = Some (row_id m) <-> db' !! d = Some (row_id m)) ->
  rows db m = rows db' m.
Proof.
  intros H. apply (StronglySorted_unique Z.le);
    [unfold rows; apply StronglySorted_merge_sort; apply _
    |unfold rows; apply StronglySorted_merge_sort; apply _|].
  apply NoDup_Permutation.
  - unfold rows. rewrite merge_sort_Permutation. apply NoDup_filter, NoDup_fst_map_to_list.
  - unfold rows. rewrite merge_sort_Permutation. apply NoDup_filter, NoDup_fst_map_to_list.
  - intros d. by rewrite !elem_of_rows.
Qed.

Lemma pg_used_u32 db n a : pg_store_ok db -> a ∈ pg_used db n -> is_u32 a.
Proof.
  intros Hok Ha. apply (in_range_u32 n). by apply (proj2 (pg_used_ascending db n Hok)).
Qed.

Lemma elem_of_as_i32 a (l : list Z) : is_u32 a -> (forall b, b ∈ l -> is_u32 b) ->
  as_i32 a ∈ as_i32 <$> l <-> a ∈ l.
Proof.
  intros Ha Hl. rewrite list_elem_of_fmap. split; [|by exists a].
  intros (b & E & Hb). apply (f_equal as_u32) in E.
  rewrite !as_u32_as_i32 in E by auto. by subst.
Qed.

(** Both statements change the rows of one NetID inside a list of addresses
    of its range; [keep] says what is left there. *)
Lemma pg_update_spec (db db' : gmap Z Z) n (l : list Z) (present : bool) :
  pg_store_ok db -> (forall a, a ∈ l -> in_range n a) ->
  (forall d m, db !! d = Some (row_id m) -> d ∈ as_i32 <$> l -> m = n) ->
  (forall d, db' !! d = if bool_decide (d ∈ as_i32 <$> l)
                        then (if present then Some (row_id n) else None) else db !! d) ->
  pg_store_ok db' /\
  (forall a, a ∈ pg_used db' n <->
     if present then a ∈ pg_used db n \/ a ∈ l else a ∈ pg_used db n /\ a ∉ l) /\
  (forall m, m <> n -> pg_used db' m = pg_used db m).
Proof.
  intros Hok Hl Hown Hdb'.
  assert (forall b, b ∈ l -> is_u32 b) as Hlu by (intros; by eapply in_range_u32, Hl).
  assert (pg_store_ok db') as Hok'.
  { intros d id Hd. rewrite Hdb' in Hd. case_bool_decide as Hdl; [|by apply Hok].
    destruct present; [|done]. injection Hd as <-.
    apply list_elem_of_fmap in Hdl as (b & -> & Hb). split; [by apply as_i32_range, Hlu|].
    exists n. split; [done|]. rewrite as_u32_as_i32; [by apply Hl|by apply Hlu]. }
  split; [done|]. split.
  - intros a. destruct (decide (is_u32 a)) as [Ha|Ha].
    + rewrite (elem_of_pg_used db' n a Hok' Ha), Hdb'.
      rewrite (bool_decide_ext _ _ (elem_of_as_i32 a l Ha Hlu)).
      pose proof (elem_of_pg_used db n a Hok Ha) as Hu.
      case_bool_decide; destruct present; [..|tauto|tauto].
      * split; [by right|done].
      * by split; [|intros [_ ?]].
    + split; intros H.
      * exfalso. by apply Ha, (pg_used_u32 db' n).
      * exfalso. apply Ha. destruct present; destruct H;
          first [by apply (pg_used_u32 db n)|by apply Hlu].
  - intros m Hm. unfold pg_used. f_equal. apply rows_ext. intros d. rewrite Hdb'.
    case_bool_decide as Hdl; [|done]. split; intros H.
    + exfalso. destruct present; [|done]. injection H as H. by apply row_id_inj in H.
    + exfalso. by apply Hm, (Hown d).
Qed.

Lemma row_owner (db : gmap Z Z) n (l : list Z) d m :
  pg_store_ok db -> (forall a, a ∈ l -> in_range n a) ->
  db !! d = Some (row_id m) -> d ∈ as_i32 <$> l -> m = n.
Proof.
  intros Hok Hl Hd Hin. apply list_elem_of_fmap in Hin as (b & -> & Hb).
  destruct (Hok _ _ Hd) as (_ & k & E & Hk). apply row_id_inj in E as ->.
  rewrite as_u32_as_i32 in Hk by (by eapply in_range_u32, Hl).
  apply (in_range_inj k n b); [done|by apply Hl].
Qed.

Lemma pg_claim_spec db n l :
  pg_store_ok db -> l <> [] -> NoDup l ->
  (forall a, a ∈ l -> in_range n a /\ a ∉ pg_used db n) ->
  exists db', pg_claim_addrs db n l = Ok db' /\ pg_store_ok db' /\
    (forall a, a ∈ pg_used db' n <-> a ∈ pg_used db n \/ a ∈ l) /\
    (forall m, m <> n -> pg_used db' m = pg_used db m).
Proof.
  intros Hok Hne Hnd Hl.
  destruct (insert_rows_ok db (row_id n) l Hnd) as (db' & E & Hdb').
  { intros a Ha. destruct (Hl a Ha). split; [by eapply in_range_u32|by eapply unused_no_row]. }
  exists db'. split; [by destruct l|].
  apply (pg_update_spec db db' n l true); [done| | |done].
  - intros a Ha. by apply Hl.
  - intros d m Hd Hin. apply (row_owner db n l d m); [done| |done|done]. intros a Ha. by apply Hl.
Qed.

Lemma delete_rows_lookup (db : gmap Z Z) (id : Z) (l : list Z) (d : Z) :
  foldr (fun addr db => if bool_decide (db !! as_i32 addr = Some id)
                        then delete (as_i32 addr) db else db) db l !! d =
  if bool_decide (d ∈ as_i32 <$> l /\ db !! d = Some id) then None else db !! d.
Proof.
  induction l as [|a l IH]; cbn [foldr].
  { rewrite bool_decide_false; [done|]. intros [H _]. by apply not_elem_of_nil in H. }
  rewrite fmap_cons. set (db1 := foldr _ db l) in *.
  destruct (decide (d = as_i32 a)) as [->|Hne].
  - rewrite (bool_decide_ext (as_i32 a ∈ as_i32 a :: _ /\ _) (db !! as_i32 a = Some id))
      by (rewrite elem_of_cons; tauto).
    destruct (bool_decide (db1 !! as_i32 a = Some id)) eqn:E1.
    + rewrite lookup_delete_eq. apply bool_decide_eq_true in E1. rewrite IH in E1.
      case_bool_decide; [done|]. by rewrite bool_decide_true.
    + apply bool_decide_eq_false in E1. rewrite IH in E1 |- *.
      case_bool_decide as H1; [by rewrite bool_decide_true by apply H1|].
      by rewrite bool_decide_false.
  - assert (db1 !! d = (if bool_decide (db1 !! as_i32 a = Some id)
                        then delete (as_i32 a) db1 else db1) !! d) as <-.
    { destruct (bool_decide (db1 !! as_i32 a = Some id)); [by rewrite lookup_delete_ne|done]. }
    rewrite IH. by rewrite (bool_decide_ext (d ∈ as_i32 a :: _ /\ _) (d ∈ as_i32 <$> l /\ db !! d = Some id))
      by (rewrite elem_of_cons; tauto).
Qed.

Lemma pg_release_spec db n l :
  pg_store_ok db -> l <> [] -> (forall a, a ∈ l -> in_range n a) ->
  exists db', pg_release_addrs db n l = Ok db' /\ pg_store_ok db' /\
    (forall a, a ∈ pg_used db' n <-> a ∈ pg_used db n /\ a ∉ l) /\
    (forall m, m <> n -> pg_used db' m = pg_used db m).
Proof.
  intros Hok Hne Hl. eexists. split; [by destruct l|].
  apply (pg_update_spec db _ n l false); [done|done| |].
  - intros d m. by apply row_owner.
  - intros d. rewrite delete_rows_lookup. destruct (decide (d ∈ as_i32 <$> l)) as [H2|H2].
    + rewrite (bool_decide_true (d ∈ _)) by done. case_bool_decide as H1; [done|].
      destruct (db !! d) as [id|] eqn:E; [|done]. exfalso. apply H1. split; [done|].
      destruct (Hok _ _ E) as (_ & m & -> & _). by rewrite (row_owner db n l d m).
    + rewrite (bool_decide_false (d ∈ _)) by done.
      rewrite bool_decide_false; [done|]. by intros [? _].
Qed.

#[global] Instance pg_store_laws : AddressStoreLaws (gmap Z Z) sqlx_error := {|
  store_ok := pg_store_ok;
  used := pg_used;
  used_ascending := pg_used_ascending;
  get_used_spec := fun _ _ _ => eq_refl;
  claim_spec := pg_claim_spec;
  release_spec := pg_release_spec
|}.

Lemma claim_from_ok (l : list Z) n :
  (forall a, a ∈ l -> in_range n a) -> pg_store_ok (claim_from l n).
Proof.
  induction l as [|a l IH]; intros Hl d id Hd; [done|].
  cbn in Hd. apply lookup_insert_Some in Hd as [[<- <-]|[_ Hd]].
  - assert (in_range n a) as Ha by (apply Hl; left). pose proof (in_range_u32 n a Ha).
    split; [by apply as_i32_range|]. exists n. by rewrite as_u32_as_i32.
  - apply (IH ltac:(intros; apply Hl; by right) d id Hd).
Qed.
End PgLaws.

(** ** The theorems at the Postgres store *)

(** Two separate pairs of the type 6 range are in use. *)
Definition two_pairs : gmap Z Z :=
  claim_from [4227943424; 4227943425; 4227943428; 4227943429] Type6_0xc00053.

(** The same number of addresses, the second pair starting at an odd one. *)
Definition odd_pair : gmap Z Z :=
  claim_from [4227943424; 4227943425; 4227943427; 4227943428] Type6_0xc00053.

Lemma two_pairs_ok : store_ok two_pairs.
Proof.
  apply PgLaws.claim_from_ok. unfold in_range. cbn. intros a Ha.
  repeat (apply elem_of_cons in Ha as [->|Ha]; [lia|]). by apply not_elem_of_nil in Ha.
Qed.

Lemma odd_pair_ok : store_ok odd_pair.
Proof.
  apply PgLaws.claim_from_ok. unfold in_range. cbn. intros a Ha.
  repeat (apply elem_of_cons in Ha as [->|Ha]; [lia|]). by apply not_elem_of_nil in Ha.
Qed.

Lemma two_pairs_used :
  used two_pairs Type6_0xc00053 = [4227943424; 4227943425; 4227943428; 4227943429].
Proof. vm_compute. reflexivity. Qed.

Lemma checkout_claims_first_free_witness :
  exists r, checkout_devaddr_constraints two_pairs 4 Type6_0xc00053 = r /\ store_ok r.1.
Proof.
  eexists. split; [reflexivity|].
  pose proof (checkout_claims_first_free two_pairs Type6_0xc00053 4 two_pairs_ok ltac:(lia)) as H.
  cbv zeta in H. rewrite bool_decide_true in H; [apply H|].
  apply Nat.leb_le. vm_compute. reflexivity.
Defined.

Lemma checkout_pairs_covered_witness :
  exists (st' : gmap Z Z) cs,
    checkout_devaddr_constraints two_pairs (2 * 2)%nat Type6_0xc00053 = (st', Ok cs) /\
    pair_closed (used st' Type6_0xc00053).
Proof.
  destruct (checkout_pairs_covered two_pairs Type6_0xc00053 2 two_pairs_ok)
    as (st' & cs & E & _ & _ & _ & _ & H); [ | lia | apply Nat.leb_le; vm_compute; reflexivity | ].
  - rewrite two_pairs_used. intros a Ha. rewrite !elem_of_cons, !elem_of_nil. mlia.
  - exists st', cs. by split.
Defined.

Lemma checkout_specified_spec_witness :
  (checkout_specified_devaddr_constraint two_pairs Type6_0xc00053
     (mkConstraint 4227943426 4227943427)).2 = Ok tt.
Proof.
  refine (proj1 (proj2 (checkout_specified_spec two_pairs Type6_0xc00053
    (mkConstraint 4227943426 4227943427) two_pairs_ok _ _) _)).
  - intros a Ha. change (4227943426 <= a <= 4227943427) in Ha. unfold in_range. cbn. lia.
  - vm_compute. discriminate.
  - rewrite two_pairs_used. intros a Ha. apply elem_of_addrs_between in Ha.
    change (4227943426 <= a <= 4227943427) in Ha. rewrite !elem_of_cons, elem_of_nil. lia.
Defined.

(** A run of [(Some start, None)] takes the next address as the end without
    comparing it with the start, so when addresses are in use at odd
    boundaries a checkout can return a constraint over addresses in use. *)
Theorem checkout_odd_pair_overlaps :
  exists st' c a,
    store_ok odd_pair /\
    checkout_devaddr_constraints odd_pair 2 Type6_0xc00053 = (st', Ok [c]) /\
    start_addr c <= a <= end_addr c /\ a ∈ used odd_pair Type6_0xc00053.
Proof.
  eexists _, (mkConstraint 4227943426 4227943429), 4227943427.
  split; [exact odd_pair_ok|]. split; [vm_compute; reflexivity|]. split; [cbn; lia|].
  vm_compute. right. right. left.
Qed.
