(* ===== verification/Solana.v ===== *)
(** * The Solana network

    [solana/src/lib.rs]: the trait the packet verifiers burn data credits
    through, the retry macro around RPC calls, the implementation used when the
    integration may be switched off ([Option<Arc<SolanaRpc>>]) and the
    in-memory ledger.  The RPC client itself talks to the chain and is a
    parameter: any instance of the class.  [SolanaLaws] states what the
    packet verifier relies on; the in-memory ledger satisfies it. *)

From S2P Require Import Prelude.
From Stdlib Require Import Ascii String.

Open Scope Z_scope.
Open Scope oracle_scope.

Definition PublicKeyBinary : Type := string.
Definition Signature : Type := string.

(** [trait SolanaNetwork]: [N] is the network behind the shared handle, so a
    method that changes it returns the new one; [T] is [Self::Transaction]. *)
Class SolanaNetwork (N E T : Type) : Type := {
  payer_balance : N -> PublicKeyBinary -> result Z E;
  make_burn_transaction : N -> PublicKeyBinary -> Z -> N * result T E;
  submit_transaction : N -> T -> N * result unit E;
  confirm_transaction : N -> Signature -> result bool E;
  get_signature : T -> Signature
}.

(** An error of the method, or a panic ([unwrap], [panic!], [unreachable!]). *)
Inductive or_panic (E : Type) : Type :=
| Failed (e : E)
| Panicked.
Arguments Failed {E} e.
Arguments Panicked {E}.

(** ** [send_with_retry!]

    [rpc k] is the reply to the call made at attempt [k].  The result carries
    the seconds slept before each new attempt. *)

Fixpoint send_loop {A E} (rpc : Z -> result A E) (fuel : nat) (attempt : Z) (slept : list Z)
  : option (list Z * result A E) :=
  match fuel with
  | O => None
  | S fuel' =>
      match rpc attempt with
      | Ok resp => Some (slept, Ok resp)
      | Err err =>
          if attempt <? 5 then
            let attempt := attempt + 1 in
            send_loop rpc fuel' attempt (slept ++ [attempt])
          else Some (slept, Err err)
      end
  end.

Definition send_with_retry {A E} (rpc : Z -> result A E) : option (list Z * result A E) :=
  send_loop rpc 5 1 [].

(** ** The integration may be off *)

Definition FIXED_BALANCE : Z := 1000000000.

Inductive PossibleTransaction (T : Type) : Type :=
| NoTransaction (sig : Signature)
| SomeTransaction (txn : T).
Arguments NoTransaction {T} sig.
Arguments SomeTransaction {T} txn.

Section OptionalRpc.
Context {N E T : Type} `{!SolanaNetwork N E T}.
(** [Signature::new_unique], by the number of calls made before. *)
Context (new_unique : nat -> Signature).

(** The client, when there is one, and the calls made to [new_unique]. *)
Definition optional_network : Type := option N * nat.

Definition opt_payer_balance (self : optional_network) (payer : PublicKeyBinary)
  : result Z (or_panic E) :=
  match self.1 with
  | Some rpc => map_err Failed (payer_balance rpc payer)
  | None => Ok FIXED_BALANCE
  end.

Definition opt_make_burn_transaction (self : optional_network) (payer : PublicKeyBinary)
    (amount : Z) : optional_network * result (PossibleTransaction T) (or_panic E) :=
  match self with
  | (Some rpc, c) =>
      let '(rpc', r) := make_burn_transaction rpc payer amount in
      ((Some rpc', c), let? t := map_err Failed r in Ok (SomeTransaction t))
  | (None, c) => ((None, S c), Ok (NoTransaction (new_unique c)))
  end.

Definition opt_submit_transaction (self : optional_network) (t : PossibleTransaction T)
  : optional_network * result unit (or_panic E) :=
  match self, t with
  | (Some rpc, c), SomeTransaction txn =>
      let '(rpc', r) := submit_transaction rpc txn in ((Some rpc', c), map_err Failed r)
  | (None, _), NoTransaction _ => (self, Ok tt)
  | _, _ => (self, Err Panicked)
  end.

Definition opt_confirm_transaction (self : optional_network) (sig : Signature)
  : result bool (or_panic E) :=
  match self.1 with
  | Some rpc => map_err Failed (confirm_transaction rpc sig)
  | None => Err Panicked
  end.

Definition opt_get_signature (t : PossibleTransaction T) : Signature :=
  match t with
  | NoTransaction sig => sig
  | SomeTransaction txn => get_signature txn
  end.

Definition optional_solana : SolanaNetwork optional_network (or_panic E) (PossibleTransaction T) := {|
  payer_balance := opt_payer_balance;
  make_burn_transaction := opt_make_burn_transaction;
  submit_transaction := opt_submit_transaction;
  confirm_transaction := opt_confirm_transaction;
  get_signature := opt_get_signature
|}.
End OptionalRpc.

(** ** The in-memory ledger *)

Record MockTransaction : Type := mkMockTxn {
  mt_signature : Signature;
  mt_payer : PublicKeyBinary;
  mt_amount : Z
}.

(** The balances, and the number of signatures handed out. *)
Record ledger : Type := mkLedger { accounts : gmap PublicKeyBinary Z; issued : nat }.

Section Ledger.
Context (new_unique : nat -> Signature).

Definition mock_payer_balance (self : ledger) (payer : PublicKeyBinary)
  : result Z (or_panic Empty_set) :=
  ok_or (accounts self !! payer) Panicked.

Definition mock_make_burn_transaction (self : ledger) (payer : PublicKeyBinary) (amount : Z)
  : ledger * result MockTransaction (or_panic Empty_set) :=
  (mkLedger (accounts self) (S (issued self)),
   Ok (mkMockTxn (new_unique (issued self)) payer amount)).

Definition mock_submit_transaction (self : ledger) (txn : MockTransaction)
  : ledger * result unit (or_panic Empty_set) :=
  match accounts self !! mt_payer txn with
  | Some b =>
      (mkLedger (<[mt_payer txn := u64_sub b (mt_amount txn)]> (accounts self)) (issued self),
       Ok tt)
  | None => (self, Err Panicked)
  end.

Definition mock_confirm_transaction (self : ledger) (_ : Signature)
  : result bool (or_panic Empty_set) := Ok true.

Definition mock_solana : SolanaNetwork ledger (or_panic Empty_set) MockTransaction := {|
  payer_balance := mock_payer_balance;
  make_burn_transaction := mock_make_burn_transaction;
  submit_transaction := mock_submit_transaction;
  confirm_transaction := mock_confirm_transaction;
  get_signature := mt_signature
|}.
End Ledger.

(** ** What retrying achieves *)

Lemma send_loop_first {A E} (rpc : Z -> result A E) fuel attempt slept k a :
  (0 <= k)%nat -> attempt + Z.of_nat k <= 5 -> (k < fuel)%nat ->
  rpc (attempt + Z.of_nat k) = Ok a ->
  (forall i, attempt <= i < attempt + Z.of_nat k -> is_ok (rpc i) = false) ->
  send_loop rpc fuel attempt slept = Some (slept ++ seqZ (attempt + 1) (Z.of_nat k), Ok a).
Proof.
  intros _. revert fuel attempt slept. induction k as [|k IH]; intros fuel attempt slept Hk Hf Ha Hb.
  - destruct fuel as [|fuel]; [lia|]. cbn [send_loop].
    rewrite Z.add_0_r in Ha. rewrite Ha. cbn. by rewrite app_nil_r.
  - destruct fuel as [|fuel]; [lia|]. cbn [send_loop].
    pose proof (Hb attempt ltac:(lia)) as H0. destruct (rpc attempt) as [|e]; [discriminate|].
    rewrite (proj2 (Z.ltb_lt _ _)) by lia.
    rewrite (IH fuel (attempt + 1)); [|lia|lia| |].
    + rewrite <- app_assoc. do 3 f_equal. rewrite (seqZ_cons (attempt + 1)) by lia.
      cbn. f_equal. f_equal; lia.
    + rewrite <- Ha. f_equal. lia.
    + intros i Hi. apply Hb. lia.
Qed.

Lemma send_loop_S {A E} (rpc : Z -> result A E) fuel attempt slept :
  send_loop rpc (S fuel) attempt slept =
  match rpc attempt with
  | Ok resp => Some (slept, Ok resp)
  | Err err =>
      if attempt <? 5 then send_loop rpc fuel (attempt + 1) (slept ++ [attempt + 1])
      else Some (slept, Err err)
  end.
Proof. reflexivity. Qed.

Lemma send_loop_none {A E} (rpc : Z -> result A E) k attempt slept :
  attempt + Z.of_nat k = 5 -> (forall i, attempt <= i <= 5 -> is_ok (rpc i) = false) ->
  exists e, rpc 5 = Err e /\
  send_loop rpc (S k) attempt slept = Some (slept ++ seqZ (attempt + 1) (Z.of_nat k), Err e).
Proof.
  revert attempt slept. induction k as [|k IH]; intros attempt slept Hk Hb; rewrite send_loop_S.
  - replace attempt with 5 by lia. pose proof (Hb 5 ltac:(lia)) as H0.
    destruct (rpc 5) as [|e]; [discriminate|]. exists e. cbn. by rewrite app_nil_r.
  - pose proof (Hb attempt ltac:(lia)) as H0. destruct (rpc attempt) as [|e0]; [discriminate|].
    rewrite (proj2 (Z.ltb_lt _ _)) by lia.
    destruct (IH (attempt + 1) (slept ++ [attempt + 1])) as (e & He & ->); [lia| |].
    + intros i Hi. apply Hb. lia.
    + exists e. split; [done|]. rewrite <- app_assoc. do 3 f_equal.
      rewrite (seqZ_cons (attempt + 1)) by lia. cbn. f_equal. f_equal; lia.
Qed.

(** A call that is retried is made at most five times: the first success of
    the attempts 1 to 5 is returned after sleeping 2, 3, ... seconds between
    them, and with five failures the last error is returned. *)
Theorem send_with_retry_spec {A E} (rpc : Z -> result A E) :
  (exists k a, 0 <= k <= 4 /\ rpc (1 + k) = Ok a /\
     (forall i, 1 <= i <= k -> is_ok (rpc i) = false) /\
     send_with_retry rpc = Some (seqZ 2 k, Ok a)) \/
  (exists e, (forall i, 1 <= i <= 5 -> is_ok (rpc i) = false) /\ rpc 5 = Err e /\
     send_with_retry rpc = Some ([2; 3; 4; 5], Err e)).
Proof.
  assert (forall k, (k <= 5)%nat ->
    (exists j a, 0 <= j < Z.of_nat k /\ rpc (1 + j) = Ok a /\
       forall i, 1 <= i <= j -> is_ok (rpc i) = false) \/
    (forall i, 1 <= i <= Z.of_nat k -> is_ok (rpc i) = false)) as Hfirst.
  { induction k as [|k IH]; intros Hk; [right; intros; lia|].
    destruct IH as [(j & a & Hj & Ha & Hb)|Hb]; [lia|left; exists j, a; split; [lia|done]|].
    destruct (rpc (1 + Z.of_nat k)) as [a|e] eqn:Ek.
    - left. exists (Z.of_nat k), a. split; [lia|]. split; [done|]. intros i Hi. apply Hb. lia.
    - right. intros i Hi. destruct (decide (i = 1 + Z.of_nat k)) as [->|]; [by rewrite Ek|].
      apply Hb. lia. }
  destruct (Hfirst 5%nat ltac:(lia)) as [(k & a & Hk & Ha & Hb)|Hb].
  - left. exists k, a. split; [lia|]. split; [done|]. split; [done|].
    unfold send_with_retry. rewrite (send_loop_first rpc 5 1 [] (Z.to_nat k) a);
      rewrite ?Z2Nat.id by lia; try lia; try done. intros i Hi. apply Hb. lia.
  - right. destruct (send_loop_none rpc 4 1 []) as (e & He & Hs); [lia|by intros; apply Hb; lia|].
    exists e. split; [done|]. by split.
Qed.

(** ** What a network promises

    Balances read are the chain's.  A burn transaction is built for the payer
    and amount asked for and has not been executed yet.  A submission executes
    it or leaves the chain alone; it is executed when the submission succeeds,
    and a failed submission leaves that open, which is what
    [confirm_transaction] decides.  The chain refuses to overdraw. *)
Class SolanaLaws (N E T : Type) `{!SolanaNetwork N E T} : Type := {
  net_ok : N -> Prop;
  chain_balance : N -> PublicKeyBinary -> Z;
  executed : N -> Signature -> bool;
  txn_payer : T -> PublicKeyBinary;
  txn_amount : T -> Z;
  balance_spec n p b : net_ok n -> payer_balance n p = Ok b -> b = chain_balance n p;
  make_same n p a n' r :
    net_ok n -> make_burn_transaction n p a = (n', r) ->
    net_ok n' /\ (forall q, chain_balance n' q = chain_balance n q) /\
    (forall s, executed n' s = executed n s);
  make_spec n p a n' t :
    net_ok n -> make_burn_transaction n p a = (n', Ok t) ->
    txn_payer t = p /\ txn_amount t = a /\ executed n' (get_signature t) = false;
  submit_spec n t n' r :
    net_ok n -> executed n (get_signature t) = false -> submit_transaction n t = (n', r) ->
    net_ok n' /\ (r = Ok tt -> executed n' (get_signature t) = true) /\
    (forall s, s <> get_signature t -> executed n' s = executed n s) /\
    (forall q, q <> txn_payer t -> chain_balance n' q = chain_balance n q) /\
    (if executed n' (get_signature t)
     then txn_amount t <= chain_balance n (txn_payer t) /\
          chain_balance n' (txn_payer t) = chain_balance n (txn_payer t) - txn_amount t
     else chain_balance n' (txn_payer t) = chain_balance n (txn_payer t));
  confirm_spec n s b : net_ok n -> confirm_transaction n s = Ok b -> b = executed n s
}.

(** A network that satisfies the laws: accounts, the executed signatures, and a
    counter that names the transactions. *)
Module ExampleChain.

Record chain : Type := mkChain {
  ch_accounts : gmap string Z;
  ch_executed : gset string;
  ch_next : nat
}.

Fixpoint unary (n : nat) : string :=
  match n with
  | O => EmptyString
  | S n => String "x"%char (unary n)
  end.

Lemma length_unary n : String.length (unary n) = n.
Proof. induction n as [|n IH]; cbn; [done|by rewrite IH]. Qed.

Definition ch_balance (n : chain) (p : string) : Z := default 0 (ch_accounts n !! p).

#[global] Instance chain_network : SolanaNetwork chain unit MockTransaction := {
  payer_balance n p := Ok (ch_balance n p);
  make_burn_transaction n p a :=
    (mkChain (ch_accounts n) (ch_executed n) (S (ch_next n)),
     Ok (mkMockTxn (unary (ch_next n)) p a));
  submit_transaction n t :=
    if bool_decide (mt_amount t <= ch_balance n (mt_payer t)) then
      (mkChain (<[mt_payer t := ch_balance n (mt_payer t) - mt_amount t]> (ch_accounts n))
         ({[mt_signature t]} ∪ ch_executed n) (Nat.max (ch_next n) (S (String.length (mt_signature t)))),
       Ok tt)
    else (n, Err tt);
  confirm_transaction n s := Ok (bool_decide (s ∈ ch_executed n));
  get_signature := mt_signature
}.

(** No signature that is still to be handed out has been executed. *)
Definition chain_ok (n : chain) : Prop :=
  forall s, s ∈ ch_executed n -> (String.length s < ch_next n)%nat.

#[global] Instance chain_laws : SolanaLaws chain unit MockTransaction.
Proof.
  refine {|
    net_ok := chain_ok;
    chain_balance := ch_balance;
    executed := fun n s => bool_decide (s ∈ ch_executed n);
    txn_payer := mt_payer;
    txn_amount := mt_amount
  |}.
  - intros n p b _ [= <-]. done.
  - intros n p a n' r Hok [= <- <-]. split; [|done].
    intros s Hs. cbn in *. apply Hok in Hs. lia.
  - intros n p a n' t Hok [= <- <-]. cbn. split; [done|]. split; [done|].
    apply bool_decide_eq_false. intros Hs. apply Hok in Hs. rewrite length_unary in Hs. lia.
  - cbn. intros n t n' r Hok Hf. destruct (bool_decide (mt_amount t <= _)) eqn:Hle; intros H; injection H as <- <-.
    all: first [apply bool_decide_eq_true in Hle | apply bool_decide_eq_false in Hle].
    + cbn. rewrite bool_decide_true by set_solver. repeat split.
      * intros s Hs. cbn in *. apply elem_of_union in Hs as [Hs|Hs].
        { apply elem_of_singleton in Hs as ->. lia. }
        apply Hok in Hs. lia.
      * intros s Hs. apply bool_decide_ext. rewrite elem_of_union, elem_of_singleton. tauto.
      * intros q Hq. unfold ch_balance. cbn. by rewrite lookup_insert_ne.
      * done.
      * unfold ch_balance. cbn. by rewrite lookup_insert_eq.
    + split; [done|]. split; [done|]. split; [done|]. split; [done|]. by rewrite Hf.
  - intros n s b _ [= <-]. done.
Defined.
End ExampleChain.
