(* ===== verification/PacketBalances.v ===== *)
(** * Balances and pending burns of the IoT packet verifier

    [iot_packet_verifier/src/pending.rs], [balances.rs] and [burner.rs]: the two
    Postgres tables, the balance cache shared by the verifier, the burner and
    the fund monitor, the debit of one packet, and the burner.  Functions return
    the state they leave behind together with their result. *)

From S2P Require Import Prelude Solana.

Open Scope Z_scope.
Open Scope oracle_scope.

(** ** The pending tables *)

(** DC accounted for before a payer is burned. *)
Definition BURN_THRESHOLD : Z := 10000.

(** Table [pending_burns]: [payer text primary key], [amount bigint],
    [last_burn timestamptz]. *)
Record burn_row : Type := mkBurnRow { br_amount : Z; br_last_burn : Z }.

(** Table [pending_txns]: [signature text primary key], [payer text],
    [amount bigint], [time_of_submission timestamptz]. *)
Record txn_row : Type := mkTxnRow { tr_payer : PublicKeyBinary; tr_amount : Z; tr_time : Z }.

Record pending_tables : Type := mkTables {
  pending_burns : gmap PublicKeyBinary burn_row;
  pending_txns : gmap Signature txn_row
}.

Inductive sqlx_error : Type :=
| OutOfRange
| DuplicateKey.

Record Burn : Type := mkBurn { b_payer : PublicKeyBinary; b_amount : Z }.

Record PendingTxn : Type := mkPendingTxn {
  p_signature : Signature;
  p_payer : PublicKeyBinary;
  p_amount : Z;
  p_time_of_submission : Z
}.

Definition burn_from_row (row : PublicKeyBinary * burn_row) : Burn :=
  mkBurn row.1 (as_u64 (br_amount row.2)).

Definition txn_from_row (row : Signature * txn_row) : PendingTxn :=
  mkPendingTxn row.1 (tr_payer row.2) (as_u64 (tr_amount row.2)) (tr_time row.2).

Definition burned_earlier (r s : PublicKeyBinary * burn_row) : Prop :=
  br_last_burn r.2 <= br_last_burn s.2.

#[global] Instance burned_earlier_dec : RelDecision burned_earlier.
Proof. intros r s. unfold burned_earlier. apply _. Defined.

(** [select ... where amount >= $1 order by last_burn asc limit 1] *)
Definition fetch_next_burn (t : pending_tables) : option Burn :=
  burn_from_row <$>
    head (merge_sort burned_earlier
            (filter (fun r => BURN_THRESHOLD <= br_amount r.2) (map_to_list (pending_burns t)))).

Definition fetch_all_pending_burns (t : pending_tables) : list Burn :=
  burn_from_row <$> map_to_list (pending_burns t).

Definition fetch_all_pending_txns (t : pending_tables) : list PendingTxn :=
  txn_from_row <$> map_to_list (pending_txns t).

Definition add_pending_transaction (t : pending_tables) (payer : PublicKeyBinary) (amount : Z)
    (signature : Signature) (now : Z) : result pending_tables sqlx_error :=
  match pending_txns t !! signature with
  | Some _ => Err DuplicateKey
  | None =>
      Ok (mkTables (pending_burns t)
            (<[signature := mkTxnRow payer (as_i64 amount) now]> (pending_txns t)))
  end.

(** The range of [bigint]; arithmetic outside it is an error of Postgres. *)
Definition bigint (z : Z) : result Z sqlx_error :=
  if (- 2 ^ 63 <=? z) && (z <? 2 ^ 63) then Ok z else Err OutOfRange.

(** [insert ... on conflict (payer) do update set amount = amount + $2] *)
Definition add_burned_amount (t : pending_tables) (payer : PublicKeyBinary) (amount now : Z)
  : result pending_tables sqlx_error :=
  let? row :=
    match pending_burns t !! payer with
    | None => Ok (mkBurnRow (as_i64 amount) now)
    | Some r => let? a := bigint (br_amount r + as_i64 amount) in Ok (mkBurnRow a (br_last_burn r))
    end in
  Ok (mkTables (<[payer := row]> (pending_burns t)) (pending_txns t)).

Definition remove_pending_transaction (t : pending_tables) (signature : Signature)
  : pending_tables :=
  mkTables (pending_burns t) (delete signature (pending_txns t)).

(** [update pending_burns set amount = amount - $1, last_burn = $2 where payer = $3] *)
Definition subtract_burned_amount (t : pending_tables) (payer : PublicKeyBinary) (amount now : Z)
  : result pending_tables sqlx_error :=
  match pending_burns t !! payer with
  | None => Ok t
  | Some r =>
      let? a := bigint (br_amount r - as_i64 amount) in
      Ok (mkTables (<[payer := mkBurnRow a now]> (pending_burns t)) (pending_txns t))
  end.

(** ** The balance cache *)

Record PayerAccount : Type := mkAccount { balance : Z; burned : Z }.

Abbreviation BalanceStore := (gmap PublicKeyBinary PayerAccount).

(** [PayerAccount::new] *)
Definition payer_account_new (balance : Z) : PayerAccount := mkAccount balance 0.

(** What [burn] and [confirm_pending_txns] do to the account of a payer whose
    burn is confirmed; [None] is the panic of [unwrap]. *)
Definition settle_burn (balances : BalanceStore) (payer : PublicKeyBinary) (amount : Z)
  : option BalanceStore :=
  match balances !! payer with
  | None => None
  | Some acc =>
      Some (<[payer := mkAccount (saturating_sub (balance acc) amount)
                                 (saturating_sub (burned acc) amount)]> balances)
  end.

(** [BalanceStore::set_balance], used by the fund monitor. *)
Definition set_balance (balances : BalanceStore) (payer : PublicKeyBinary) (b : Z) : BalanceStore :=
  let acc := default (mkAccount 0 0) (balances !! payer) in
  <[payer := mkAccount b (burned acc)]> balances.

Section Cache.
Context {N E T : Type} `{!SolanaNetwork N E T}.

Fixpoint balance_cache_loop (burns : list Burn) (solana : N) (balances : BalanceStore)
  : result BalanceStore E :=
  match burns with
  | [] => Ok balances
  | b :: rest =>
      let? bal := payer_balance solana (b_payer b) in
      balance_cache_loop rest solana (<[b_payer b := mkAccount bal (b_amount b)]> balances)
  end.

(** [BalanceCache::new] *)
Definition balance_cache_new (t : pending_tables) (solana : N) : result BalanceStore E :=
  balance_cache_loop (fetch_all_pending_burns t) solana ∅.

(** [BalanceCache::debit_if_sufficient] *)
Definition debit_if_sufficient (payer_accounts : BalanceStore) (solana : N)
    (payer : PublicKeyBinary) (amount trigger_balance_check_threshold : Z)
  : BalanceStore * result (option Z) E :=
  match payer_accounts !! payer with
  | None =>
      match payer_balance solana payer with
      | Err e => (payer_accounts, Err e)
      | Ok b =>
          let acc := payer_account_new b in
          if amount <=? balance acc then
            (<[payer := mkAccount (balance acc) (u64_add (burned acc) amount)]> payer_accounts,
             Ok (Some (u64_sub (balance acc) amount)))
          else (<[payer := acc]> payer_accounts, Ok None)
      end
  | Some acc =>
      match checked_sub (balance acc) (u64_add amount (burned acc)) with
      | None => (payer_accounts, Ok None)
      | Some remaining_balance =>
          match (if remaining_balance <? trigger_balance_check_threshold
                 then payer_balance solana payer else Ok (balance acc)) with
          | Err e => (payer_accounts, Err e)
          | Ok b =>
              let acc' := mkAccount b (u64_add (burned acc) amount) in
              (<[payer := acc']> payer_accounts,
               Ok (Some (u64_sub (balance acc') (burned acc'))))
          end
      end
  end.
End Cache.

(** ** The burner *)

(** The state the burner works on: the tables, the shared cache, the chain. *)
Record burner_state (N : Type) : Type := mkBurner {
  tables : pending_tables;
  balances : BalanceStore;
  solana : N
}.
Arguments mkBurner {N} tables balances solana.
Arguments tables {N} b.
Arguments balances {N} b.
Arguments solana {N} b.

Inductive ConfirmPendingError (E : Type) : Type :=
| ConfirmSqlxError (e : sqlx_error)
| ConfirmSolanaError (e : E)
| ConfirmPanic.
Arguments ConfirmSqlxError {E} e.
Arguments ConfirmSolanaError {E} e.
Arguments ConfirmPanic {E}.

Inductive BurnError (E : Type) : Type :=
| SqlError (e : sqlx_error)
| BurnSolanaError (e : E)
| BurnConfirmError (e : ConfirmPendingError E)
| BurnPanic.
Arguments SqlError {E} e.
Arguments BurnSolanaError {E} e.
Arguments BurnConfirmError {E} e.
Arguments BurnPanic {E}.

(** [Duration::minutes(1)] in nanoseconds. *)
Definition one_minute : Z := 60 * 1000000000.

Section Burner.
Context {N E T : Type} `{!SolanaNetwork N E T}.
Implicit Types (s : burner_state N).

(** [burn] up to the row in [pending_txns]. *)
Definition burn_prepare s (now : Z) : burner_state N * result (option (Burn * T)) (BurnError E) :=
  match fetch_next_burn (tables s) with
  | None => (s, Ok None)
  | Some b =>
      let '(n', r) := make_burn_transaction (solana s) (b_payer b) (b_amount b) in
      let s := mkBurner (tables s) (balances s) n' in
      match r with
      | Err e => (s, Err (BurnSolanaError e))
      | Ok txn =>
          match add_pending_transaction (tables s) (b_payer b) (b_amount b) (get_signature txn) now with
          | Err e => (s, Err (SqlError e))
          | Ok t' => (mkBurner t' (balances s) (solana s), Ok (Some (b, txn)))
          end
      end
  end.

Definition burn_submit s (txn : T) : burner_state N * result unit (BurnError E) :=
  let '(n', r) := submit_transaction (solana s) txn in
  (mkBurner (tables s) (balances s) n', map_err BurnSolanaError r).

(** The database transaction after the confirmation. *)
Definition burn_commit s (b : Burn) (txn : T) (now : Z)
  : burner_state N * result unit (BurnError E) :=
  let t' := remove_pending_transaction (tables s) (get_signature txn) in
  match subtract_burned_amount t' (b_payer b) (b_amount b) now with
  | Err e => (s, Err (SqlError e))
  | Ok t' => (mkBurner t' (balances s) (solana s), Ok tt)
  end.

(** The update of the cache at the end of [burn]. *)
Definition burn_settle s (b : Burn) : burner_state N * result unit (BurnError E) :=
  match settle_burn (balances s) (b_payer b) (b_amount b) with
  | None => (s, Err BurnPanic)
  | Some balances' => (mkBurner (tables s) balances' (solana s), Ok tt)
  end.

(** [Burner::burn] *)
Definition burn s (now : Z) : burner_state N * result unit (BurnError E) :=
  match burn_prepare s now with
  | (s, Err e) => (s, Err e)
  | (s, Ok None) => (s, Ok tt)
  | (s, Ok (Some (b, txn))) =>
      match burn_submit s txn with
      | (s, Err e) => (s, Err e)
      | (s, Ok _) =>
          match burn_commit s b txn now with
          | (s, Err e) => (s, Err e)
          | (s, Ok _) => burn_settle s b
          end
      end
  end.

(** One iteration of [confirm_pending_txns]; the database transaction is rolled
    back on an error or a panic.  The first result is the time at which the
    transaction was looked up. *)
Definition confirm_one s (p : PendingTxn) (now : Z)
  : Z * burner_state N * result unit (ConfirmPendingError E) :=
  let time_since_submission := now - p_time_of_submission p in
  let now := if time_since_submission <? one_minute
             then now + (one_minute - time_since_submission) else now in
  let t' := remove_pending_transaction (tables s) (p_signature p) in
  match confirm_transaction (solana s) (p_signature p) with
  | Err e => (now, s, Err (ConfirmSolanaError e))
  | Ok false => (now, mkBurner t' (balances s) (solana s), Ok tt)
  | Ok true =>
      match subtract_burned_amount t' (p_payer p) (p_amount p) now with
      | Err e => (now, s, Err (ConfirmSqlxError e))
      | Ok t' =>
          match settle_burn (balances s) (p_payer p) (p_amount p) with
          | None => (now, s, Err ConfirmPanic)
          | Some balances' => (now, mkBurner t' balances' (solana s), Ok tt)
          end
      end
  end.

Fixpoint confirm_loop (pending : list PendingTxn) s (now : Z)
  : Z * burner_state N * result unit (ConfirmPendingError E) :=
  match pending with
  | [] => (now, s, Ok tt)
  | p :: rest =>
      match confirm_one s p now with
      | (now, s, Ok _) => confirm_loop rest s now
      | r => r
      end
  end.

Definition confirm_pending_txns s (now : Z)
  : Z * burner_state N * result unit (ConfirmPendingError E) :=
  confirm_loop (fetch_all_pending_txns (tables s)) s now.

(** One tick of the loop of [Burner::run]: a failed burn is followed by the
    confirmation of the pending transactions, whose failure ends the loop, as
    does a panic. *)
Definition burner_tick s (now : Z) : burner_state N * result unit (BurnError E) :=
  match burn s now with
  | (s, Ok _) => (s, Ok tt)
  | (s, Err BurnPanic) => (s, Err BurnPanic)
  | (s, Err _) =>
      match confirm_pending_txns s now with
      | (_, s, r) => (s, map_err BurnConfirmError r)
      end
  end.

(** The start of the daemon: the cache is built and left over transactions are
    confirmed. *)
Definition daemon_start (t : pending_tables) (n : N) (now : Z)
  : burner_state N * result unit (BurnError E) :=
  match balance_cache_new t n with
  | Err e => (mkBurner t ∅ n, Err (BurnSolanaError e))
  | Ok cache =>
      match confirm_pending_txns (mkBurner t cache n) now with
      | (_, s, r) => (s, map_err BurnConfirmError r)
      end
  end.
End Burner.

(** ** The tables *)

(** The amount pending for a payer. *)
Definition committed (t : pending_tables) (p : PublicKeyBinary) : Z :=
  match pending_burns t !! p with
  | Some r => br_amount r
  | None => 0
  end.

Lemma bigint_ok z : - 2 ^ 63 <= z < 2 ^ 63 -> bigint z = Ok z.
Proof.
  intros Hz. unfold bigint.
  rewrite (proj2 (Z.leb_le _ _)), (proj2 (Z.ltb_lt _ _)) by lia. done.
Qed.

Lemma bigint_inv z a : bigint z = Ok a -> a = z.
Proof. unfold bigint. case_goal; intros H; inv_result; done. Qed.

Lemma add_burned_amount_spec t p a now t' :
  0 <= a < 2 ^ 63 -> add_burned_amount t p a now = Ok t' ->
  pending_txns t' = pending_txns t /\
  forall q, committed t' q = committed t q + if bool_decide (q = p) then a else 0.
Proof.
  intros Ha H. unfold add_burned_amount in H. rewrite as_i64_small in H by done.
  apply result_bind_ok in H as (row & Hrow & H). inv_result. cbn. split; [done|].
  intros q. unfold committed. cbn. case_bool_decide as Hq.
  - subst q. rewrite lookup_insert_eq. destruct (pending_burns t !! p) as [r|]; inv_result; cbn.
    + by apply bigint_inv.
    + lia.
  - rewrite lookup_insert_ne by done. lia.
Qed.

Lemma subtract_burned_amount_spec t p a now :
  0 < a <= committed t p -> committed t p < 2 ^ 63 ->
  exists t', subtract_burned_amount t p a now = Ok t' /\
    pending_txns t' = pending_txns t /\
    forall q, committed t' q = committed t q - if bool_decide (q = p) then a else 0.
Proof.
  intros Ha Hc. unfold subtract_burned_amount, committed in *. rewrite as_i64_small by lia.
  destruct (pending_burns t !! p) as [r|] eqn:Er; [|lia].
  rewrite bigint_ok by lia. eexists. split; [reflexivity|]. cbn. split; [done|].
  intros q. case_bool_decide as Hq.
  - subst q. by rewrite lookup_insert_eq, Er.
  - rewrite lookup_insert_ne by done. lia.
Qed.

#[global] Instance burned_earlier_total : Total burned_earlier.
Proof. intros r s. unfold burned_earlier. lia. Qed.

#[global] Instance burned_earlier_trans : Transitive burned_earlier.
Proof. intros r s t. unfold burned_earlier. lia. Qed.

(** The row [fetch_next_burn] picks, with the rows it was picked from. *)
Lemma fetch_next_burn_row t :
  match fetch_next_burn t with
  | Some b =>
      exists r, pending_burns t !! b_payer b = Some r /\ b_amount b = as_u64 (br_amount r) /\
        BURN_THRESHOLD <= br_amount r /\
        forall q r', pending_burns t !! q = Some r' -> BURN_THRESHOLD <= br_amount r' ->
          br_last_burn r <= br_last_burn r'
  | None => forall q r, pending_burns t !! q = Some r -> br_amount r < BURN_THRESHOLD
  end.
Proof.
  unfold fetch_next_burn. set (rows := filter _ _).
  assert (forall q r, (q, r) ∈ rows <->
            pending_burns t !! q = Some r /\ BURN_THRESHOLD <= br_amount r) as Hrows.
  { intros q r. unfold rows. rewrite list_elem_of_filter, elem_of_map_to_list. cbn. tauto. }
  pose proof (merge_sort_Permutation burned_earlier rows) as Hperm.
  pose proof (StronglySorted_merge_sort burned_earlier rows) as Hs.
  destruct (merge_sort burned_earlier rows) as [|[p r] rest]; cbn.
  - intros q r Hq. apply Z.nle_gt. intros Hle.
    apply (not_elem_of_nil (q, r)). rewrite Hperm. by apply Hrows.
  - assert ((p, r) ∈ rows) as Hpr by (rewrite <- Hperm; left). apply Hrows in Hpr as [Hp Hr].
    exists r. split; [done|]. split; [done|]. split; [done|]. intros q r' Hq Hr'.
    assert ((q, r') ∈ (p, r) :: rest) as Hin by (rewrite Hperm; by apply Hrows).
    apply elem_of_cons in Hin as [[= <- <-]|Hin]; [lia|].
    assert (Forall (burned_earlier (p, r)) rest) as Hall.
    { by apply StronglySorted_inv in Hs as [_ ?]. }
    rewrite Forall_forall in Hall. apply (Hall _ Hin).
Qed.

(** ** The cache *)

(** The DC a payer has been debited for and that are not burned yet. *)
Definition cached_burn (c : BalanceStore) (p : PublicKeyBinary) : Z :=
  match c !! p with
  | Some acc => burned acc
  | None => 0
  end.

Lemma settle_burn_spec c p a :
  0 < a <= cached_burn c p ->
  exists c' acc, settle_burn c p a = Some c' /\ c !! p = Some acc /\
    c' = <[p := mkAccount (Z.max 0 (balance acc - a)) (burned acc - a)]> c /\
    forall q, cached_burn c' q = cached_burn c q - if bool_decide (q = p) then a else 0.
Proof.
  intros Ha. unfold settle_burn, cached_burn in *.
  destruct (c !! p) as [acc|] eqn:Ep; [|lia]. eexists _, acc. split; [reflexivity|].
  split; [done|]. unfold saturating_sub. rewrite (Z.max_r 0 (burned acc - a)) by lia.
  split; [done|]. intros q. case_bool_decide as Hq.
  - subst q. rewrite lookup_insert_eq, Ep. done.
  - rewrite lookup_insert_ne by done. lia.
Qed.

Section CacheSpec.
Context {N E T : Type} `{!SolanaNetwork N E T, !SolanaLaws N E T}.
Implicit Types (n : N) (c : BalanceStore).

Lemma balance_cache_loop_spec (l : list (PublicKeyBinary * burn_row)) n c c' :
  net_ok n -> NoDup l.*1 ->
  balance_cache_loop (burn_from_row <$> l) n c = Ok c' ->
  forall p,
    (forall r, (p, r) ∈ l ->
       c' !! p = Some (mkAccount (chain_balance n p) (as_u64 (br_amount r)))) /\
    (p ∉ l.*1 -> c' !! p = c !! p).
Proof.
  intros Hn. revert c. induction l as [|[q r] l IH]; intros c Hnd H p.
  - cbn in H. inv_result. split; [|done]. intros r Hr. by apply not_elem_of_nil in Hr.
  - cbn in H. apply result_bind_ok in H as (b & Hb & H). apply balance_spec in Hb; [|done].
    apply NoDup_cons in Hnd as [Hq Hnd]. specialize (IH _ Hnd H p) as [IHin IHout].
    cbn. split.
    + intros r' Hr'. apply elem_of_cons in Hr' as [[= -> ->]|Hr']; [|by apply IHin].
      rewrite IHout by done. rewrite lookup_insert_eq. by rewrite Hb.
    + intros Hp. apply not_elem_of_cons in Hp as [Hpq Hp]. rewrite IHout by done.
      by rewrite lookup_insert_ne.
Qed.

(** At the start the cache has an account for exactly the payers with a pending
    row, with their balance on chain and the pending amount. *)
Lemma balance_cache_lookup t n c :
  net_ok n -> balance_cache_new t n = Ok c ->
  forall p, c !! p =
    (fun r => mkAccount (chain_balance n p) (as_u64 (br_amount r))) <$> pending_burns t !! p.
Proof.
  intros Hn H p. unfold balance_cache_new, fetch_all_pending_burns in H.
  destruct (balance_cache_loop_spec _ n ∅ c Hn (NoDup_fst_map_to_list _) H p) as [Hin Hout].
  destruct (pending_burns t !! p) as [r|] eqn:Ep; cbn.
  - apply Hin. by apply elem_of_map_to_list.
  - rewrite Hout; [done|]. intros Hp. apply list_elem_of_fmap in Hp as ([q r] & -> & Hq).
    apply elem_of_map_to_list in Hq. cbn in Ep. congruence.
Qed.

(** The outcomes of a debit, when nothing overflows. *)
Lemma debit_cases c n p a thr c' r :
  net_ok n -> 0 <= a -> (forall q, 0 <= cached_burn c q) -> a + cached_burn c p < 2 ^ 64 ->
  debit_if_sufficient c n p a thr = (c', r) ->
  match r with
  | Err _ => c' = c
  | Ok None =>
      (c' = c /\ exists acc, c !! p = Some acc /\ balance acc < a + burned acc) \/
      (c !! p = None /\ chain_balance n p < a /\ c' = <[p := mkAccount (chain_balance n p) 0]> c)
  | Ok (Some rem) =>
      exists b, c' = <[p := mkAccount b (cached_burn c p + a)]> c /\
        rem = u64_sub b (cached_burn c p + a) /\
        (b = chain_balance n p \/ exists acc, c !! p = Some acc /\ b = balance acc) /\
        match c !! p with
        | Some acc => a + burned acc <= balance acc
        | None => a <= chain_balance n p
        end
  end.
Proof.
  intros Hn Ha Hnn Hb. unfold debit_if_sufficient, cached_burn in *. specialize (Hnn p).
  destruct (c !! p) as [acc|] eqn:Ep.
  - rewrite u64_add_small by lia. destruct (checked_sub _ _) as [rem|] eqn:Ec.
    + apply checked_sub_Some in Ec as [Hle ->].
      rewrite (u64_add_small (burned acc)) by lia.
      destruct (_ <? thr).
      * destruct (payer_balance n p) as [b|e] eqn:Eb; intros [= <- <-]; [|done].
        apply balance_spec in Eb; [|done]. exists b. subst b. split; [done|]. split; [done|].
        split; [by left|lia].
      * intros [= <- <-]. exists (balance acc). split; [done|]. split; [done|].
        split; [right; by exists acc|lia].
    + apply checked_sub_None in Ec. intros [= <- <-]. left. split; [done|]. by exists acc.
  - destruct (payer_balance n p) as [b|e] eqn:Eb; [|intros [= <- <-]; done].
    apply balance_spec in Eb; [|done]. cbn [balance burned payer_account_new].
    destruct (Z.leb_spec a b); intros [= <- <-].
    + rewrite u64_add_small by lia. exists b. subst b. split; [done|]. split; [done|].
      split; [by left|lia].
    + right. subst b. split; [done|]. by split.
Qed.
End CacheSpec.
