(* ===== verification/PacketVerifier.v ===== *)
(** * Verification of IoT packet reports

    [iot_packet_verifier/src/verifier.rs]: the loop that debits the payer of
    every uplink packet, the price of a packet, the organisation client that
    caches payers and lock states, and the pass of the fund monitor.  The loop
    is generic in its collaborators, as the code is; their classes are the
    traits, and the laws state what the loop relies on.  The balance cache and
    the pending tables of [PacketBalances] are instances. *)

From S2P Require Import Prelude Solana PacketBalances.

Open Scope Z_scope.
Open Scope oracle_scope.

(** ** Packets *)

Inductive PacketType : Type := Join | Uplink.

#[global] Instance PacketType_eq_dec : EqDecision PacketType.
Proof. solve_decision. Defined.

(** The fields of [PacketRouterPacketReport] the verifier reads; the time is in
    nanoseconds. *)
Record PacketReport : Type := mkReport {
  r_oui : Z;
  r_gateway : PublicKeyBinary;
  r_payload_hash : string;
  r_payload_size : Z;
  r_packet_type : PacketType;
  r_received : Z
}.

(** [encode_timestamp_millis] *)
Definition report_timestamp (r : PacketReport) : Z := as_u64 (r_received r / 1000000).

Record ValidPacket : Type := mkValid {
  v_timestamp : Z;
  v_payload_size : Z;
  v_gateway : PublicKeyBinary;
  v_payload_hash : string;
  v_num_dcs : Z
}.

Inductive InvalidPacketReason : Type := InsufficientBalance.

Record InvalidPacket : Type := mkInvalid {
  i_payload_size : Z;
  i_gateway : PublicKeyBinary;
  i_payload_hash : string;
  i_reason : InvalidPacketReason
}.

Definition BYTES_PER_DC : Z := 24.

Definition payload_size_to_dc (payload_size : Z) : Z :=
  let payload_size := Z.max payload_size BYTES_PER_DC in
  u64_sub (u64_add payload_size BYTES_PER_DC) 1 / BYTES_PER_DC.

(** ** The collaborators *)

Class Debiter (D E : Type) : Type :=
  debit : D -> PublicKeyBinary -> Z -> Z -> D * result (option Z) E.

Class AddPendingBurn (B : Type) : Type :=
  add_burned : B -> PublicKeyBinary -> Z -> result B sqlx_error.

Record Org : Type := mkOrg { org_oui : Z; org_payer : PublicKeyBinary; org_locked : bool }.

Class ConfigServer (C E : Type) : Type := {
  fetch_org : C -> Z -> gmap Z PublicKeyBinary ->
    C * gmap Z PublicKeyBinary * result PublicKeyBinary E;
  disable_org : C -> Z -> C * result unit E;
  enable_org : C -> Z -> C * result unit E;
  list_orgs : C -> C * result (list Org) E
}.

Class PacketWriter (W X E : Type) : Type := write : W -> X -> W * result unit E.

Inductive VerificationError (DE CE VPE IPE : Type) : Type :=
| DebitError (e : DE)
| ConfigError (e : CE)
| BurnAddError (e : sqlx_error)
| ValidPacketWriterError (e : VPE)
| InvalidPacketWriterError (e : IPE).
Arguments DebitError {DE CE VPE IPE} e.
Arguments ConfigError {DE CE VPE IPE} e.
Arguments BurnAddError {DE CE VPE IPE} e.
Arguments ValidPacketWriterError {DE CE VPE IPE} e.
Arguments InvalidPacketWriterError {DE CE VPE IPE} e.

(** Everything [verify] changes. *)
Record verify_state (D C B VP IP : Type) : Type := mkVerify {
  debiter : D;
  config_server : C;
  pending : B;
  valid_packets : VP;
  invalid_packets : IP;
  org_cache : gmap Z PublicKeyBinary
}.
Arguments mkVerify {D C B VP IP} debiter config_server pending valid_packets invalid_packets org_cache.
Arguments debiter {D C B VP IP} v.
Arguments config_server {D C B VP IP} v.
Arguments pending {D C B VP IP} v.
Arguments valid_packets {D C B VP IP} v.
Arguments invalid_packets {D C B VP IP} v.
Arguments org_cache {D C B VP IP} v.

Definition valid_packet_of (r : PacketReport) : ValidPacket :=
  mkValid (report_timestamp r) (r_payload_size r) (r_gateway r) (r_payload_hash r)
    (as_u32 (payload_size_to_dc (r_payload_size r))).

Definition invalid_packet_of (r : PacketReport) : InvalidPacket :=
  mkInvalid (r_payload_size r) (r_gateway r) (r_payload_hash r) InsufficientBalance.

Section Verify.
Context {D DE C CE B VP VPE IP IPE : Type}
  `{!Debiter D DE, !ConfigServer C CE, !AddPendingBurn B,
    !PacketWriter VP ValidPacket VPE, !PacketWriter IP InvalidPacket IPE}.

(** The body of the loop of [Verifier::verify]. *)
Definition verify_report (minimum_allowed_balance : Z) (v : verify_state D C B VP IP)
    (report : PacketReport) : verify_state D C B VP IP * result unit (VerificationError DE CE VPE IPE) :=
  let '(mkVerify d c b vp ip oc) := v in
  if bool_decide (r_packet_type report <> Uplink) then (v, Ok tt) else
  let debit_amount := payload_size_to_dc (r_payload_size report) in
  let '(c, oc, r) := fetch_org c (r_oui report) oc in
  match r with
  | Err e => (mkVerify d c b vp ip oc, Err (ConfigError e))
  | Ok payer =>
      let '(d, r) := debit d payer debit_amount minimum_allowed_balance in
      match r with
      | Err e => (mkVerify d c b vp ip oc, Err (DebitError e))
      | Ok (Some remaining_balance) =>
          match add_burned b payer debit_amount with
          | Err e => (mkVerify d c b vp ip oc, Err (BurnAddError e))
          | Ok b =>
              let '(vp, r) := write vp (valid_packet_of report) in
              match r with
              | Err e => (mkVerify d c b vp ip oc, Err (ValidPacketWriterError e))
              | Ok _ =>
                  if remaining_balance <? minimum_allowed_balance then
                    let '(c, r) := disable_org c (r_oui report) in
                    (mkVerify d c b vp ip oc, map_err ConfigError r)
                  else (mkVerify d c b vp ip oc, Ok tt)
              end
          end
      | Ok None =>
          let '(ip, r) := write ip (invalid_packet_of report) in
          match r with
          | Err e => (mkVerify d c b vp ip oc, Err (InvalidPacketWriterError e))
          | Ok _ =>
              let '(c, r) := disable_org c (r_oui report) in
              (mkVerify d c b vp ip oc, map_err ConfigError r)
          end
      end
  end.

Fixpoint verify_loop (minimum_allowed_balance : Z) (v : verify_state D C B VP IP)
    (reports : list PacketReport)
  : verify_state D C B VP IP * result unit (VerificationError DE CE VPE IPE) :=
  match reports with
  | [] => (v, Ok tt)
  | report :: rest =>
      match verify_report minimum_allowed_balance v report with
      | (v, Ok _) => verify_loop minimum_allowed_balance v rest
      | r => r
      end
  end.

(** [Verifier::verify]: a new cache of payers for the stream of one file. *)
Definition verify (minimum_allowed_balance : Z) (d : D) (c : C) (b : B)
    (reports : list PacketReport) (vp : VP) (ip : IP)
  : verify_state D C B VP IP * result unit (VerificationError DE CE VPE IPE) :=
  verify_loop minimum_allowed_balance (mkVerify d c b vp ip ∅) reports.
End Verify.

(** ** The implementations *)

(** [impl Debiter for BalanceCache<S>] *)
#[global] Instance balance_cache_debiter {N E T} `{!SolanaNetwork N E T}
  : Debiter (BalanceStore * N) E :=
  fun d payer amount threshold =>
    let '(c, r) := debit_if_sufficient d.1 d.2 payer amount threshold in ((c, d.2), r).

(** [impl AddPendingBurn for &mut Transaction<Postgres>], at the time [now]. *)
Definition transaction_add_burned (now : Z) : AddPendingBurn pending_tables :=
  fun t payer amount => add_burned_amount t payer amount now.

(** [impl PacketWriter<T> for &mut Vec<T>] *)
#[global] Instance vec_writer {X} : PacketWriter (list X) X unit :=
  fun w x => (w ++ [x], Ok tt).

(** [trait Orgs] of the organisation client of [iot_config]. *)
Class Orgs (O E : Type) : Type := {
  orgs_get : O -> Z -> O * result (option Org) E;
  orgs_list : O -> O * result (list Org) E;
  orgs_enable : O -> Z -> O * result unit E;
  orgs_disable : O -> Z -> O * result unit E
}.

Inductive ConfigServerError (E : Type) : Type :=
| OrgError (e : E)
| NotFound (oui : Z).
Arguments OrgError {E} e.
Arguments NotFound {E} oui.

Record CachedOrgClient (O : Type) : Type := mkOrgClient { orgs : O; locked_cache : gmap Z bool }.
Arguments mkOrgClient {O} orgs locked_cache.
Arguments orgs {O} c.
Arguments locked_cache {O} c.

Section OrgClient.
Context {O E : Type} `{!Orgs O E}.
Implicit Types (self : CachedOrgClient O).

Definition client_fetch_org self (oui : Z) (oui_cache : gmap Z PublicKeyBinary)
  : CachedOrgClient O * gmap Z PublicKeyBinary * result PublicKeyBinary (ConfigServerError E) :=
  match oui_cache !! oui with
  | Some payer => (self, oui_cache, Ok payer)
  | None =>
      let '(o, r) := orgs_get (orgs self) oui in
      let self := mkOrgClient o (locked_cache self) in
      match r with
      | Err e => (self, oui_cache, Err (OrgError e))
      | Ok None => (self, oui_cache, Err (NotFound oui))
      | Ok (Some org) => (self, <[oui := org_payer org]> oui_cache, Ok (org_payer org))
      end
  end.

Definition client_disable_org self (oui : Z)
  : CachedOrgClient O * result unit (ConfigServerError E) :=
  let entry := default true (locked_cache self !! oui) in
  let cache := <[oui := entry]> (locked_cache self) in
  if entry then
    let '(o, r) := orgs_disable (orgs self) oui in
    match r with
    | Err e => (mkOrgClient o cache, Err (OrgError e))
    | Ok _ => (mkOrgClient o (<[oui := false]> cache), Ok tt)
    end
  else (mkOrgClient (orgs self) cache, Ok tt).

Definition client_enable_org self (oui : Z)
  : CachedOrgClient O * result unit (ConfigServerError E) :=
  let entry := default false (locked_cache self !! oui) in
  let cache := <[oui := entry]> (locked_cache self) in
  if negb entry then
    let '(o, r) := orgs_enable (orgs self) oui in
    match r with
    | Err e => (mkOrgClient o cache, Err (OrgError e))
    | Ok _ => (mkOrgClient o (<[oui := true]> cache), Ok tt)
    end
  else (mkOrgClient (orgs self) cache, Ok tt).

Definition client_list_orgs self : CachedOrgClient O * result (list Org) (ConfigServerError E) :=
  let '(o, r) := orgs_list (orgs self) in
  (mkOrgClient o (locked_cache self), map_err OrgError r).

#[global] Instance cached_org_client : ConfigServer (CachedOrgClient O) (ConfigServerError E) := {
  fetch_org := client_fetch_org;
  disable_org := client_disable_org;
  enable_org := client_enable_org;
  list_orgs := client_list_orgs
}.
End OrgClient.

(** ** The fund monitor *)

Inductive MonitorError (SE CE : Type) : Type :=
| MonitorConfigError (e : CE)
| MonitorSolanaError (e : SE).
Arguments MonitorConfigError {SE CE} e.
Arguments MonitorSolanaError {SE CE} e.

Section Monitor.
Context {N SE T C CE : Type} `{!SolanaNetwork N SE T, !ConfigServer C CE}.

Fixpoint monitor_orgs (c : C) (n : N) (balances : BalanceStore) (minimum_allowed_balance : Z)
    (l : list Org) : C * BalanceStore * result unit (MonitorError SE CE) :=
  match l with
  | [] => (c, balances, Ok tt)
  | org :: rest =>
      if org_locked org then
        match payer_balance n (org_payer org) with
        | Err e => (c, balances, Err (MonitorSolanaError e))
        | Ok b =>
            if minimum_allowed_balance <=? b then
              let balances := set_balance balances (org_payer org) b in
              match enable_org c (org_oui org) with
              | (c, Err e) => (c, balances, Err (MonitorConfigError e))
              | (c, Ok _) => monitor_orgs c n balances minimum_allowed_balance rest
              end
            else monitor_orgs c n balances minimum_allowed_balance rest
        end
      else monitor_orgs c n balances minimum_allowed_balance rest
  end.

(** One pass of the loop of [monitor_funds]. *)
Definition monitor_pass (c : C) (n : N) (balances : BalanceStore) (minimum_allowed_balance : Z)
  : C * BalanceStore * result unit (MonitorError SE CE) :=
  match list_orgs c with
  | (c, Err e) => (c, balances, Err (MonitorConfigError e))
  | (c, Ok l) => monitor_orgs c n balances minimum_allowed_balance l
  end.
End Monitor.

(** ** The price of a packet *)

(** A packet costs one DC per started block of 24 bytes, at least one: the
    addition cannot overflow for a 32-bit size, the price is the least number
    of blocks that holds the payload, and it fits the 32 bits of [num_dcs]. *)
Theorem payload_size_to_dc_spec size :
  is_u32 size ->
  let dc := payload_size_to_dc size in
  1 <= dc < 2 ^ 28 /\ size <= 24 * dc /\ (forall k, 1 <= k -> size <= 24 * k -> dc <= k).
Proof.
  unfold is_u32, payload_size_to_dc, BYTES_PER_DC. intros H. cbv zeta.
  rewrite u64_add_small by lia. rewrite u64_sub_small by lia.
  split; [mlia|]. split; [mlia|]. intros k Hk1 Hk. mlia.
Qed.

Lemma payload_size_to_dc_spec_witness :
  let dc := payload_size_to_dc 25 in 1 <= dc < 2 ^ 28 /\ 25 <= 24 * dc.
Proof.
  destruct (payload_size_to_dc_spec 25) as (H1 & H2 & _); [unfold is_u32; lia|by split].
Defined.

Lemma payload_size_to_dc_bounds size : is_u32 size -> 1 <= payload_size_to_dc size < 2 ^ 28.
Proof.
  unfold is_u32, payload_size_to_dc, BYTES_PER_DC. intros H.
  rewrite u64_add_small by lia. rewrite u64_sub_small by lia. mlia.
Qed.

(** ** What the loop relies on *)

(** A debit adds its amount to the payer's account exactly when it succeeds. *)
Class DebiterLaws (D E : Type) `{!Debiter D E} : Type := {
  debited : D -> PublicKeyBinary -> Z;
  debit_spec d p a thr d' r q :
    debit d p a thr = (d', r) ->
    debited d' q = match r with
                   | Ok (Some _) => if bool_decide (q = p) then u64_add (debited d q) a else debited d q
                   | _ => debited d q
                   end
}.

Class AddPendingBurnLaws (B : Type) `{!AddPendingBurn B} : Type := {
  pending_amount : B -> PublicKeyBinary -> Z;
  add_burned_spec b p a b' q :
    0 <= a < 2 ^ 63 -> add_burned b p a = Ok b' ->
    pending_amount b' q = pending_amount b q + if bool_decide (q = p) then a else 0
}.

(** The payer found is recorded for the rest of the stream, and organisations
    are switched on and off one at a time. *)
Class ConfigServerLaws (C E : Type) `{!ConfigServer C E} : Type := {
  config_ok : C -> Prop;
  org_on : C -> Z -> bool;
  fetch_org_spec c oui oc c' oc' r :
    config_ok c -> fetch_org c oui oc = (c', oc', r) ->
    config_ok c' /\ (forall u, org_on c' u = org_on c u) /\
    forall p, r = Ok p -> oc ⊆ oc' /\ oc' !! oui = Some p;
  disable_org_spec c oui c' :
    config_ok c -> disable_org c oui = (c', Ok tt) ->
    config_ok c' /\ forall u, org_on c' u = if bool_decide (u = oui) then false else org_on c u;
  enable_org_spec c oui c' :
    config_ok c -> enable_org c oui = (c', Ok tt) ->
    config_ok c' /\ forall u, org_on c' u = if bool_decide (u = oui) then true else org_on c u;
  list_orgs_spec c c' r :
    config_ok c -> list_orgs c = (c', r) -> config_ok c' /\ forall u, org_on c' u = org_on c u
}.

(** The configuration service: reading changes nothing, and a request that
    succeeds has its effect. *)
Class OrgsLaws (O E : Type) `{!Orgs O E} : Type := {
  org_enabled : O -> Z -> bool;
  orgs_get_spec o oui o' r : orgs_get o oui = (o', r) -> forall u, org_enabled o' u = org_enabled o u;
  orgs_list_spec o o' r : orgs_list o = (o', r) -> forall u, org_enabled o' u = org_enabled o u;
  orgs_enable_spec o oui o' :
    orgs_enable o oui = (o', Ok tt) ->
    forall u, org_enabled o' u = if bool_decide (u = oui) then true else org_enabled o u;
  orgs_disable_spec o oui o' :
    orgs_disable o oui = (o', Ok tt) ->
    forall u, org_enabled o' u = if bool_decide (u = oui) then false else org_enabled o u
}.

#[global] Instance balance_cache_laws {N E T} `{!SolanaNetwork N E T}
  : DebiterLaws (BalanceStore * N) E.
Proof.
  refine {| debited := fun d p => cached_burn d.1 p |}.
  intros [c n] p a thr d' r q. unfold debit, balance_cache_debiter, debit_if_sufficient, cached_burn.
  cbn. destruct (c !! p) as [acc|] eqn:Ep.
  - destruct (checked_sub _ _) as [rem|]; [|intros [= <- <-]; done].
    destruct (if rem <? thr then _ else _) as [b|e]; intros [= <- <-]; [|done]. cbn.
    case_bool_decide as Hq; [subst q; by rewrite lookup_insert_eq, Ep|by rewrite lookup_insert_ne].
  - destruct (payer_balance n p) as [b|e]; [|intros [= <- <-]; done].
    destruct (_ <=? _); intros [= <- <-]; cbn.
    + case_bool_decide as Hq; [subst q; by rewrite lookup_insert_eq, Ep|by rewrite lookup_insert_ne].
    + destruct (decide (q = p)) as [->|Hq]; [by rewrite lookup_insert_eq, Ep|by rewrite lookup_insert_ne].
Defined.

#[global] Instance transaction_laws now : @AddPendingBurnLaws pending_tables (transaction_add_burned now).
Proof.
  refine (@Build_AddPendingBurnLaws _ (transaction_add_burned now) committed _).
  intros b p a b' q Ha H. by apply (add_burned_amount_spec b p a now b').
Defined.

Section OrgClientLaws.
Context {O E : Type} `{!Orgs O E, !OrgsLaws O E}.
Implicit Types (c : CachedOrgClient O).

(** What the client remembers of an organisation is its state: [true] for one
    that is enabled. *)
Definition client_sync c : Prop :=
  forall oui b, locked_cache c !! oui = Some b -> org_enabled (orgs c) oui = b.

Lemma client_sync_insert (o o' : O) (cache : gmap Z bool) oui b :
  client_sync (mkOrgClient o cache) ->
  (forall u, org_enabled o' u = if bool_decide (u = oui) then b else org_enabled o u) ->
  client_sync (mkOrgClient o' (<[oui := b]> cache)).
Proof.
  intros Hs Ho u b' Hu. cbn in *. rewrite Ho.
  apply lookup_insert_Some in Hu as [[<- <-]|[Hne Hu]]; [by rewrite bool_decide_true|].
  rewrite bool_decide_false by done. by apply Hs.
Qed.

Lemma client_disable_spec c oui c' :
  client_sync c -> client_disable_org c oui = (c', Ok tt) ->
  client_sync c' /\
  forall u, org_enabled (orgs c') u = if bool_decide (u = oui) then false else org_enabled (orgs c) u.
Proof.
  destruct c as [o cache]. intros Hs H. unfold client_disable_org in H. cbn in H.
  destruct (default true (cache !! oui)) eqn:Ed.
  - destruct (orgs_disable o oui) as [o' [[]|e]] eqn:Eo; [|discriminate]. injection H as <-.
    pose proof (orgs_disable_spec _ _ _ Eo) as Hu. split; [|done]. rewrite insert_insert_eq.
    by apply client_sync_insert with o.
  - injection H as <-. destruct (cache !! oui) as [[]|] eqn:Ec; try discriminate Ed.
    assert (forall u, org_enabled o u = if bool_decide (u = oui) then false else org_enabled o u)
      as Hu by (intros u; case_bool_decide; [subst; by apply (Hs oui)|done]).
    split; [by apply client_sync_insert with o|done].
Qed.

Lemma client_enable_spec c oui c' :
  client_sync c -> client_enable_org c oui = (c', Ok tt) ->
  client_sync c' /\
  forall u, org_enabled (orgs c') u = if bool_decide (u = oui) then true else org_enabled (orgs c) u.
Proof.
  destruct c as [o cache]. intros Hs H. unfold client_enable_org in H. cbn in H.
  destruct (default false (cache !! oui)) eqn:Ed; cbn in H.
  - injection H as <-. destruct (cache !! oui) as [[]|] eqn:Ec; try discriminate Ed.
    assert (forall u, org_enabled o u = if bool_decide (u = oui) then true else org_enabled o u)
      as Hu by (intros u; case_bool_decide; [subst; by apply (Hs oui)|done]).
    split; [by apply client_sync_insert with o|done].
  - destruct (orgs_enable o oui) as [o' [[]|e]] eqn:Eo; [|discriminate]. injection H as <-.
    pose proof (orgs_enable_spec _ _ _ Eo) as Hu. split; [|done]. rewrite insert_insert_eq.
    by apply client_sync_insert with o.
Qed.

#[global] Instance cached_org_client_laws
  : ConfigServerLaws (CachedOrgClient O) (ConfigServerError E).
Proof.
  refine {| config_ok := client_sync; org_on := fun c => org_enabled (orgs c) |}.
  - intros c oui oc c' oc' r Hs. cbn. unfold client_fetch_org.
    destruct (oc !! oui) as [q|] eqn:Eq.
    { intros [= <- <- <-]. split; [done|]. split; [done|]. by intros p [= <-]. }
    destruct (orgs_get _ _) as [o r'] eqn:Eg. pose proof (orgs_get_spec _ _ _ _ Eg) as Ho.
    assert (client_sync (mkOrgClient o (locked_cache c))) as Hs'
      by (intros u b Hu; cbn in *; rewrite Ho; by apply Hs).
    destruct r' as [[org|]|e]; intros [= <- <- <-]; cbn; (split; [done|]); (split; [done|]).
    + intros p [= <-]. split; [by apply insert_subseteq|by apply lookup_insert_eq].
    + done.
    + done.
  - apply client_disable_spec.
  - apply client_enable_spec.
  - intros c c' r Hs. cbn. unfold client_list_orgs. destruct (orgs_list _) as [o r'] eqn:El.
    intros [= <- <-]. pose proof (orgs_list_spec _ _ _ El) as Ho. cbn.
    split; [|done]. intros u b Hu. cbn in *. rewrite Ho. by apply Hs.
Defined.
End OrgClientLaws.

(** ** The loop *)

Definition uplink (r : PacketReport) : bool := bool_decide (r_packet_type r = Uplink).

(** The decisions taken: each uplink packet, with whether it was accepted. *)
Definition accepted (ds : list (PacketReport * bool)) : list PacketReport :=
  omap (fun d : PacketReport * bool => if d.2 then Some d.1 else None) ds.
Definition rejected (ds : list (PacketReport * bool)) : list PacketReport :=
  omap (fun d : PacketReport * bool => if d.2 then None else Some d.1) ds.

(** The DC charged to a payer for a list of packets. *)
Definition charged (oc : gmap Z PublicKeyBinary) (p : PublicKeyBinary) (l : list PacketReport) : Z :=
  sumZ (fun r => if bool_decide (oc !! r_oui r = Some p)
                 then payload_size_to_dc (r_payload_size r) else 0) l.

#[local] Arguments charged : simpl never.

Section VerifyLaws.
Context {D DE C CE B : Type}
  `{!Debiter D DE, !ConfigServer C CE, !AddPendingBurn B,
    !DebiterLaws D DE, !ConfigServerLaws C CE, !AddPendingBurnLaws B}.
Implicit Types (v : verify_state D C B (list ValidPacket) (list InvalidPacket)).

(** A list of decisions explains how [v] became [v']. *)
Definition explains v v' (ds : list (PacketReport * bool)) : Prop :=
  org_cache v ⊆ org_cache v' /\
  valid_packets v' = valid_packets v ++ (valid_packet_of <$> accepted ds) /\
  invalid_packets v' = invalid_packets v ++ (invalid_packet_of <$> rejected ds) /\
  (forall p, pending_amount (pending v') p =
             pending_amount (pending v) p + charged (org_cache v') p (accepted ds)) /\
  (forall p, wrap 64 (debited (debiter v') p) =
             wrap 64 (debited (debiter v) p + charged (org_cache v') p (accepted ds))) /\
  (forall r, r ∈ ds.*1 -> is_Some (org_cache v' !! r_oui r)) /\
  (forall u, org_on (config_server v') u = true -> org_on (config_server v) u = true) /\
  (forall r, r ∈ rejected ds -> org_on (config_server v') (r_oui r) = false).

Lemma explains_refl v : explains v v [].
Proof.
  unfold explains, accepted, rejected, charged. cbn. rewrite !app_nil_r.
  repeat split; try done; intros p; rewrite ?Z.add_0_r; try done.
  all: intros H; by apply not_elem_of_nil in H.
Qed.

Lemma charged_mono oc oc' p (l : list PacketReport) :
  oc ⊆ oc' -> (forall r, r ∈ l -> is_Some (oc !! r_oui r)) -> charged oc' p l = charged oc p l.
Proof.
  intros Hsub Hl. apply sumZ_ext. intros r Hr. destruct (Hl r Hr) as [q Hq].
  by rewrite Hq, (lookup_weaken _ _ _ _ Hq Hsub).
Qed.

Lemma elem_of_accepted ds r : r ∈ accepted ds -> r ∈ ds.*1.
Proof.
  unfold accepted. rewrite list_elem_of_omap. intros ([r' []] & Hd & [= <-]).
  apply list_elem_of_fmap. by exists (r', true).
Qed.

Lemma explains_trans v v1 v2 ds1 ds2 :
  explains v v1 ds1 -> explains v1 v2 ds2 -> explains v v2 (ds1 ++ ds2).
Proof.
  intros (Hs1 & Hv1 & Hi1 & Hp1 & Hd1 & Hc1 & Ho1 & Hr1)
         (Hs2 & Hv2 & Hi2 & Hp2 & Hd2 & Hc2 & Ho2 & Hr2).
  unfold explains, accepted, rejected in *. rewrite !omap_app.
  assert (forall p, charged (org_cache v2) p (accepted ds1) = charged (org_cache v1) p (accepted ds1))
    as Ech by (intros p; apply charged_mono; [done|]; intros r Hr; by apply Hc1, elem_of_accepted).
  assert (forall p l1 l2, charged (org_cache v2) p (l1 ++ l2) =
    charged (org_cache v2) p l1 + charged (org_cache v2) p l2) as Eapp
    by (intros; apply sumZ_app).
  unfold accepted in Ech.
  split; [by etrans|]. split; [by rewrite Hv2, Hv1, fmap_app, app_assoc|].
  split; [by rewrite Hi2, Hi1, fmap_app, app_assoc|].
  split; [intros p; rewrite Hp2, Hp1, Eapp, Ech; lia|]. split.
  { intros p. rewrite Hd2, Eapp, Ech. rewrite <- wrap_add_l. rewrite Hd1.
    rewrite wrap_add_l. f_equal. lia. }
  split.
  { intros r. rewrite fmap_app, elem_of_app. intros [Hr|Hr]; [|by apply Hc2].
    destruct (Hc1 r Hr) as [q Hq]. exists q. by eapply lookup_weaken. }
  split; [intros u Hu; by apply Ho1, Ho2|].
  intros r. rewrite elem_of_app. intros [Hr|Hr]; [|by apply Hr2].
  specialize (Hr1 r Hr). destruct (org_on (config_server v2) (r_oui r)) eqn:Eon; [|done].
  apply Ho2 in Eon. congruence.
Qed.

Lemma verify_report_explained min v r v' :
  is_u32 (r_payload_size r) -> config_ok (config_server v) ->
  verify_report min v r = (v', Ok tt) ->
  config_ok (config_server v') /\
  exists ok, explains v v' (if uplink r then [(r, ok)] else []).
Proof.
  intros Hsz Hok. destruct v as [d c b vp ip oc]. unfold verify_report, uplink. cbn in Hok.
  destruct (decide (r_packet_type r = Uplink)) as [Hup|Hup].
  2: { rewrite (bool_decide_false (_ = _)), bool_decide_true by done. intros [= <-].
       split; [done|]. exists true. apply explains_refl. }
  rewrite (bool_decide_true (_ = _)), bool_decide_false by (done || tauto).
  pose proof (payload_size_to_dc_bounds _ Hsz) as Hdc.
  set (dc := payload_size_to_dc (r_payload_size r)) in *.
  destruct (fetch_org c (r_oui r) oc) as [[c1 oc1] [p|e]] eqn:Ef; [|discriminate].
  destruct (fetch_org_spec _ _ _ _ _ _ Hok Ef) as (Hok1 & Hon1 & Hfp).
  destruct (Hfp p eq_refl) as [Hsub Hp].
  assert (forall q, bool_decide (oc1 !! r_oui r = Some q) = bool_decide (q = p)) as Hq
    by (intros q; apply bool_decide_ext; rewrite Hp; split; congruence).
  assert (forall q, charged oc1 q [r] = if bool_decide (q = p) then dc else 0) as Hch
    by (intros q; unfold charged; rewrite sumZ_cons, Hq; cbn [sumZ foldr]; fold dc; apply Z.add_0_r).
  destruct (debit d p dc min) as [d1 [[rem|]|e]] eqn:Ed; [| |discriminate].
  - destruct (add_burned b p dc) as [b1|e] eqn:Eb; [|discriminate]. cbn.
    intros Hv.
    assert (exists c2, v' = mkVerify d1 c2 b1 (vp ++ [valid_packet_of r]) ip oc1 /\ config_ok c2 /\
      forall u, org_on c2 u = true -> org_on c u = true) as (c2 & -> & Hok2 & Hon2).
    { destruct (rem <? min).
      - destruct (disable_org c1 _) as [c2 [[]|]] eqn:Edis; [|discriminate].
        destruct (disable_org_spec _ _ _ Hok1 Edis) as [Hok2 Hon2].
        exists c2. split; [congruence|]. split; [done|].
        intros u. rewrite Hon2, Hon1. by case_bool_decide.
      - exists c1. split; [congruence|]. split; [done|]. intros u. by rewrite Hon1. }
    split; [done|]. exists true. unfold explains, accepted, rejected. cbn. rewrite app_nil_r.
    do 3 (split; [done|]).
    split; [intros q; rewrite Hch; by apply add_burned_spec; [lia|]|]. split.
    { intros q. rewrite (debit_spec _ _ _ _ _ _ q Ed), Hch. unfold u64_add.
      destruct (bool_decide _); [|by rewrite Z.add_0_r]. unfold wrap. by rewrite Zmod_mod. }
    split; [intros r' ->%list_elem_of_singleton; by exists p|]. split; [done|].
    intros r' Hr'. by apply not_elem_of_nil in Hr'.
  - cbn. destruct (disable_org c1 _) as [c2 [[]|]] eqn:Edis; [|discriminate].
    destruct (disable_org_spec _ _ _ Hok1 Edis) as [Hok2 Hon2].
    intros [= <-]. split; [done|]. exists false.
    unfold explains, accepted, rejected. cbn. rewrite app_nil_r. do 3 (split; [done|]).
    split; [intros; unfold charged; cbn; lia|]. split.
    { intros q. rewrite (debit_spec _ _ _ _ _ _ q Ed). unfold charged. cbn. by rewrite Z.add_0_r. }
    split; [intros r' ->%list_elem_of_singleton; by exists p|]. split.
    { intros u. rewrite Hon2, Hon1. by case_bool_decide. }
    intros r' ->%list_elem_of_singleton. rewrite Hon2. by rewrite bool_decide_true.
Qed.

Lemma verify_loop_explained min v reports v' :
  Forall (fun r => is_u32 (r_payload_size r)) reports -> config_ok (config_server v) ->
  verify_loop min v reports = (v', Ok tt) ->
  exists ds, ds.*1 = List.filter uplink reports /\ explains v v' ds.
Proof.
  revert v. induction reports as [|r l IH]; intros v Hsz Hok; cbn.
  - intros [= <-]. exists []. split; [done|apply explains_refl].
  - apply Forall_cons in Hsz as [Hr Hl].
    destruct (verify_report min v r) as [v1 [[]|e]] eqn:E1; [|discriminate]. intros H.
    destruct (verify_report_explained min v r v1 Hr Hok E1) as (Hok1 & ok & Hex).
    destruct (IH v1 Hl Hok1 H) as (ds & Hds & Hex2).
    eexists. split; [|by eapply explains_trans]. rewrite fmap_app, Hds. by destruct (uplink r).
Qed.

(** C4: When a file of reports is verified, every uplink packet is written, in
    order, to exactly one of the two outputs; each payer's pending burn and
    debited amount grow by the price of exactly the packets accepted for the
    organisations the payer pays for; no organisation is enabled, and each one
    with a rejected packet is disabled. *)
Theorem verify_accounts min d c b reports v' :
  Forall (fun r => is_u32 (r_payload_size r)) reports -> config_ok c ->
  verify min d c b reports [] [] = (v', Ok tt) ->
  exists ds, ds.*1 = List.filter uplink reports /\
    valid_packets v' = valid_packet_of <$> accepted ds /\
    invalid_packets v' = invalid_packet_of <$> rejected ds /\
    (forall p, pending_amount (pending v') p =
               pending_amount b p + charged (org_cache v') p (accepted ds)) /\
    (forall p, wrap 64 (debited (debiter v') p) =
               wrap 64 (debited d p + charged (org_cache v') p (accepted ds))) /\
    (forall r, r ∈ ds.*1 -> is_Some (org_cache v' !! r_oui r)) /\
    (forall u, org_on (config_server v') u = true -> org_on c u = true) /\
    (forall r, r ∈ rejected ds -> org_on (config_server v') (r_oui r) = false).
Proof.
  intros Hsz Hok H. destruct (verify_loop_explained min (mkVerify d c b [] [] ∅) reports v' Hsz Hok H)
    as (ds & Hds & _ & Hex).
  exists ds. split; [done|]. exact Hex.
Qed.
End VerifyLaws.

(** ** The monitor *)

Section MonitorLaws.
Context {N SE T C CE : Type}
  `{!SolanaNetwork N SE T, !SolanaLaws N SE T, !ConfigServer C CE, !ConfigServerLaws C CE}.

(** The organisations a pass enables. *)
Definition funded (n : N) (min : Z) (org : Org) : bool :=
  org_locked org && (min <=? chain_balance n (org_payer org)).

Lemma set_balance_cached (balances : BalanceStore) p b q :
  cached_burn (set_balance balances p b) q = cached_burn balances q.
Proof.
  unfold set_balance, cached_burn. destruct (decide (q = p)) as [->|Hq].
  - rewrite lookup_insert_eq. by destruct (balances !! p).
  - by rewrite lookup_insert_ne.
Qed.

Lemma set_balance_balance (balances : BalanceStore) p b q :
  balance <$> set_balance balances p b !! q =
  if bool_decide (q = p) then Some b else balance <$> balances !! q.
Proof.
  unfold set_balance. case_bool_decide as Hq.
  - subst q. by rewrite lookup_insert_eq.
  - by rewrite lookup_insert_ne.
Qed.

Lemma monitor_orgs_spec (c : C) (n : N) (balances : BalanceStore) min l c' balances' :
  net_ok n -> config_ok c -> monitor_orgs c n balances min l = (c', balances', Ok tt) ->
  config_ok c' /\
  (forall u, org_on c' u =
     org_on c u || existsb (fun org => funded n min org && bool_decide (u = org_oui org)) l) /\
  (forall p, balance <$> balances' !! p =
     if existsb (fun org => funded n min org && bool_decide (p = org_payer org)) l
     then Some (chain_balance n p) else balance <$> balances !! p) /\
  (forall p, cached_burn balances' p = cached_burn balances p).
Proof.
  intros Hn. revert c balances. induction l as [|org l IH]; intros c balances Hok; cbn.
  - intros [= <- <-]. split; [done|]. split; [intros u; by rewrite orb_false_r|done].
  - unfold funded at 1 3. destruct (org_locked org); cbn; [|apply IH; done].
    destruct (payer_balance n (org_payer org)) as [b|e] eqn:Eb; [|discriminate].
    apply balance_spec in Eb; [|done]. subst b.
    destruct (min <=? _); cbn; [|apply IH; done].
    destruct (enable_org c (org_oui org)) as [c1 [[]|e]] eqn:Ee; [|discriminate]. intros H.
    destruct (enable_org_spec _ _ _ Hok Ee) as [Hok1 Hon1].
    destruct (IH _ _ Hok1 H) as (Hok2 & Hon2 & Hb2 & Hc2).
    split; [done|]. split; [|split].
    + intros u. rewrite Hon2, Hon1. by destruct (bool_decide (u = _)), (org_on c u).
    + intros p. rewrite Hb2, set_balance_balance.
      destruct (existsb _ l); [by rewrite orb_true_r|]. rewrite orb_false_r.
      by case_bool_decide; [subst p|].
    + intros p. by rewrite Hc2, set_balance_cached.
Qed.

(** A pass of the fund monitor enables exactly the listed organisations that
    are locked and whose payer holds at least the minimum on chain; it gives
    their payers, and no one else, the balance on chain, and leaves every
    pending amount of the cache as it is. *)
Theorem monitor_pass_spec (c : C) (n : N) (balances : BalanceStore) min c0 l c' balances' :
  net_ok n -> config_ok c -> list_orgs c = (c0, Ok l) ->
  monitor_pass c n balances min = (c', balances', Ok tt) ->
  (forall u, org_on c' u =
     org_on c u || existsb (fun org => funded n min org && bool_decide (u = org_oui org)) l) /\
  (forall p, balance <$> balances' !! p =
     if existsb (fun org => funded n min org && bool_decide (p = org_payer org)) l
     then Some (chain_balance n p) else balance <$> balances !! p) /\
  (forall p, cached_burn balances' p = cached_burn balances p).
Proof.
  intros Hn Hok El H. unfold monitor_pass in H. rewrite El in H.
  destruct (list_orgs_spec _ _ _ Hok El) as [Hok0 Hon0].
  destruct (monitor_orgs_spec _ _ _ _ _ _ _ Hn Hok0 H) as (_ & Hu & Hr).
  split; [|done]. intros u. by rewrite Hu, Hon0.
Qed.
End MonitorLaws.

(** ** An organisation service and a run *)

Module ExampleOrgs.
Import ExampleChain.

(** The organisations, by OUI. *)
#[global] Instance org_table : Orgs (gmap Z Org) unit := {
  orgs_get o oui := (o, Ok (o !! oui));
  orgs_list o := (o, Ok (map_to_list o).*2);
  orgs_enable o oui :=
    match o !! oui with
    | Some org => (<[oui := mkOrg (org_oui org) (org_payer org) false]> o, Ok tt)
    | None => (o, Err tt)
    end;
  orgs_disable o oui :=
    match o !! oui with
    | Some org => (<[oui := mkOrg (org_oui org) (org_payer org) true]> o, Ok tt)
    | None => (o, Err tt)
    end
}.

Definition table_enabled (o : gmap Z Org) (oui : Z) : bool :=
  match o !! oui with
  | Some org => negb (org_locked org)
  | None => false
  end.

#[global] Instance org_table_laws : OrgsLaws (gmap Z Org) unit.
Proof.
  refine {| org_enabled := table_enabled |}.
  - by intros o oui o' r [= <- _].
  - by intros o o' r [= <- _].
  - intros o oui o'. cbn. unfold table_enabled.
    destruct (o !! oui) as [org|]; [|discriminate]. intros [= <-] u.
    case_bool_decide as Hu; [subst u; by rewrite lookup_insert_eq|by rewrite lookup_insert_ne].
  - intros o oui o'. cbn. unfold table_enabled.
    destruct (o !! oui) as [org|]; [|discriminate]. intros [= <-] u.
    case_bool_decide as Hu; [subst u; by rewrite lookup_insert_eq|by rewrite lookup_insert_ne].
Defined.

Definition client0 : CachedOrgClient (gmap Z Org) :=
  mkOrgClient {[1 := mkOrg 1 "payer" false; 2 := mkOrg 2 "other" true]} ∅.

(** ["payer"] has 3 DC, ["other"] 50. *)
Definition chain1 : chain := mkChain {["payer" := 3; "other" := 50]} ∅ 0.

Lemma client0_ok : config_ok client0.
Proof. intros oui b H. cbn in H. by rewrite lookup_empty in H. Qed.

Lemma chain1_ok : net_ok chain1.
Proof. intros s H. by apply not_elem_of_empty in H. Qed.

(** Two packets of 24 and 48 bytes and one more than the payer can pay for. *)
Definition reports1 : list PacketReport :=
  [mkReport 1 "gw" "a" 24 Uplink 0; mkReport 1 "gw" "j" 10 Join 1;
   mkReport 1 "gw" "b" 48 Uplink 2; mkReport 1 "gw" "c" 1 Uplink 3].

Definition run1 := verify (AddPendingBurn0 := transaction_add_burned 0) 1
  ((∅ : BalanceStore), chain1) client0 (mkTables ∅ ∅) reports1 [] [].

Example run1_outputs :
  (valid_packets run1.1, invalid_packets run1.1, committed (pending run1.1) "payer") =
  ([valid_packet_of (mkReport 1 "gw" "a" 24 Uplink 0); valid_packet_of (mkReport 1 "gw" "b" 48 Uplink 2)],
   [invalid_packet_of (mkReport 1 "gw" "c" 1 Uplink 3)], 3).
Proof. vm_compute. reflexivity. Qed.

Lemma verify_accounts_witness :
  exists ds, ds.*1 = List.filter uplink reports1 /\
    valid_packets run1.1 = valid_packet_of <$> accepted ds.
Proof.
  destruct (verify_accounts (AddPendingBurn0 := transaction_add_burned 0) 1
    ((∅ : BalanceStore), chain1) client0 (mkTables ∅ ∅) reports1 run1.1)
    as (ds & H1 & H2 & _).
  - repeat constructor; vm_compute; congruence.
  - exact client0_ok.
  - vm_compute. reflexivity.
  - exists ds. by split.
Defined.

Definition pass1 := monitor_pass client0 chain1 ∅ 10.

Lemma monitor_pass_spec_witness : org_on pass1.1.1 2 = true /\ org_on pass1.1.1 1 = true.
Proof.
  destruct (monitor_pass_spec client0 chain1 ∅ 10 client0
    [mkOrg 2 "other" true; mkOrg 1 "payer" false] pass1.1.1 pass1.1.2)
    as (H & _); [exact chain1_ok|exact client0_ok|vm_compute; reflexivity|vm_compute; reflexivity|].
  rewrite !H. vm_compute. done.
Defined.
End ExampleOrgs.
