(* ===== verification/PacketSystem.v ===== *)
(** * The IoT packet verifier as a system

    The verifier, the burner and the fund monitor of [iot_packet_verifier] run
    as concurrent tasks over one balance cache, one database and one chain.
    [step] interleaves them: the burner's [burn] is cut at each of its calls to
    the database and to the chain, the verifier debits packets into an open
    database transaction, and the process may crash at any point and start
    again.  [inv] is the invariant of that interleaving; the theorems derive
    from it that the chain can pay for every debit accepted, that the cache
    agrees with the database and that the burner never panics.  Two more show
    what the interleavings do not guarantee. *)

From S2P Require Import Prelude Solana PacketBalances.

Open Scope Z_scope.
Open Scope oracle_scope.

(** Where the burner task is: between two calls of [burn], or in
    [confirm_pending_txns]. *)
Inductive burner_pc (T : Type) : Type :=
| Idle
| Prepared (b : Burn) (txn : T)
| Submitted (b : Burn) (txn : T)
| Committed (b : Burn)
| Confirming.
Arguments Idle {T}.
Arguments Prepared {T} b txn.
Arguments Submitted {T} b txn.
Arguments Committed {T} b.
Arguments Confirming {T}.

(** [opened] holds the amounts added by the verifier's open transaction: a
    concurrent update of the same row waits for its commit, so they take
    effect then. *)
Record system (N T : Type) : Type := mkSystem {
  st : burner_state N;
  opened : list (PublicKeyBinary * Z);
  pc : burner_pc T
}.
Arguments mkSystem {N T} st opened pc.
Arguments st {N T} s.
Arguments opened {N T} s.
Arguments pc {N T} s.

(** The statements of the open transaction, in order. *)
Fixpoint add_all (t : pending_tables) (l : list (PublicKeyBinary * Z)) (now : Z)
  : result pending_tables sqlx_error :=
  match l with
  | [] => Ok t
  | (p, a) :: l => let? t := add_burned_amount t p a now in add_all t l now
  end.

Definition with_cache {N} (s : burner_state N) (c : BalanceStore) : burner_state N :=
  mkBurner (tables s) c (solana s).

Definition opened_sum (l : list (PublicKeyBinary * Z)) (p : PublicKeyBinary) : Z :=
  sumZ (fun x => if bool_decide (x.1 = p) then x.2 else 0) l.

Section System.
Context {N E T : Type} `{!SolanaNetwork N E T, !SolanaLaws N E T}.
Implicit Types (s : burner_state N) (x : system N T).

(** Burned on chain, still in the tables. *)
Definition unsettled s (p : PublicKeyBinary) : Z :=
  sumZ (fun r => if executed (solana s) r.1 && bool_decide (tr_payer r.2 = p)
                 then tr_amount r.2 else 0) (map_to_list (pending_txns (tables s))).

(** Burned on chain and removed from the tables, still in the cache. *)
Definition uncached (k : burner_pc T) (p : PublicKeyBinary) : Z :=
  match k with
  | Committed b => if bool_decide (p = b_payer b) then b_amount b else 0
  | _ => 0
  end.

#[local] Arguments opened_sum : simpl never.
#[local] Arguments unsettled : simpl never.
#[local] Arguments committed : simpl never.
#[local] Arguments cached_burn : simpl never.

Inductive step : system N T -> system N T -> Prop :=
(** the verifier accepts a packet, or rejects it, or the balance lookup fails *)
| step_debit s o k p a thr c' rem :
    0 < a < 2 ^ 32 ->
    debit_if_sufficient (balances s) (solana s) p a thr = (c', Ok (Some rem)) ->
    step (mkSystem s o k) (mkSystem (with_cache s c') (o ++ [(p, a)]) k)
| step_reject s o k p a thr c' :
    0 < a < 2 ^ 32 ->
    debit_if_sufficient (balances s) (solana s) p a thr = (c', Ok None) ->
    step (mkSystem s o k) (mkSystem (with_cache s c') o k)
(** the transaction of a file of reports commits *)
| step_commit s o k now t' :
    add_all (tables s) o now = Ok t' ->
    step (mkSystem s o k) (mkSystem (mkBurner t' (balances s) (solana s)) [] k)
(** the burner *)
| step_prepare s o now s' b txn :
    burn_prepare s now = (s', Ok (Some (b, txn))) ->
    step (mkSystem s o Idle) (mkSystem s' o (Prepared b txn))
| step_prepare_err s o now s' e :
    burn_prepare s now = (s', Err e) ->
    step (mkSystem s o Idle) (mkSystem s' o Confirming)
| step_submit s o s' b txn :
    burn_submit s txn = (s', Ok tt) ->
    step (mkSystem s o (Prepared b txn)) (mkSystem s' o (Submitted b txn))
| step_submit_err s o s' b txn e :
    burn_submit s txn = (s', Err e) ->
    step (mkSystem s o (Prepared b txn)) (mkSystem s' o Confirming)
| step_burn_commit s o now s' b txn :
    burn_commit s b txn now = (s', Ok tt) ->
    step (mkSystem s o (Submitted b txn)) (mkSystem s' o (Committed b))
| step_burn_commit_err s o now s' b txn e :
    burn_commit s b txn now = (s', Err e) ->
    step (mkSystem s o (Submitted b txn)) (mkSystem s' o Confirming)
| step_settle s o s' b :
    burn_settle (E := E) s b = (s', Ok tt) ->
    step (mkSystem s o (Committed b)) (mkSystem s' o Idle)
(** [confirm_pending_txns], one transaction at a time *)
| step_confirm s o p now now' s' :
    p ∈ fetch_all_pending_txns (tables s) ->
    confirm_one s p now = (now', s', Ok tt) ->
    step (mkSystem s o Confirming) (mkSystem s' o Confirming)
| step_confirmed s o :
    pending_txns (tables s) = ∅ ->
    step (mkSystem s o Confirming) (mkSystem s o Idle)
(** the monitor refreshes a payer's balance *)
| step_monitor s o k p b :
    payer_balance (solana s) p = Ok b ->
    step (mkSystem s o k) (mkSystem (with_cache s (set_balance (balances s) p b)) o k)
(** a payer is credited on chain *)
| step_deposit s o k n' :
    net_ok n' -> (forall p, chain_balance (solana s) p <= chain_balance n' p) ->
    (forall p, chain_balance n' p + unsettled s p + uncached k p < 2 ^ 63) ->
    (forall sig, executed n' sig = executed (solana s) sig) ->
    step (mkSystem s o k) (mkSystem (mkBurner (tables s) (balances s) n') o k)
(** the process stops and starts again *)
| step_restart s o k c' :
    balance_cache_new (tables s) (solana s) = Ok c' ->
    step (mkSystem s o k) (mkSystem (with_cache s c') [] Confirming).

(** ** The invariant *)

(** What the tables hold at each point of the burner: at most one transaction
    is pending, for no more than the payer's pending amount. *)
Definition one_pending s (sig : Signature) (p : PublicKeyBinary) (a : Z) : Prop :=
  (exists time, pending_txns (tables s) = {[sig := mkTxnRow p a time]}) /\
  0 < a <= committed (tables s) p.

Definition pc_ok s (k : burner_pc T) : Prop :=
  match k with
  | Idle => pending_txns (tables s) = ∅
  | Prepared b txn =>
      one_pending s (get_signature txn) (b_payer b) (b_amount b) /\
      txn_payer txn = b_payer b /\ txn_amount txn = b_amount b /\
      executed (solana s) (get_signature txn) = false
  | Submitted b txn =>
      one_pending s (get_signature txn) (b_payer b) (b_amount b) /\
      executed (solana s) (get_signature txn) = true
  | Committed b => pending_txns (tables s) = ∅ /\ 0 < b_amount b
  | Confirming =>
      pending_txns (tables s) = ∅ \/ exists sig p a, one_pending s sig p a
  end.

Record inv (x : system N T) : Prop := mkInv {
  inv_net : net_ok (solana (st x));
  inv_committed : forall p, 0 <= committed (tables (st x)) p;
  inv_opened : Forall (fun d => 0 < d.2 < 2 ^ 32) (opened x);
  inv_burned : forall p,
    cached_burn (balances (st x)) p =
    committed (tables (st x)) p + opened_sum (opened x) p + uncached (pc x) p;
  inv_cover : forall p acc, balances (st x) !! p = Some acc ->
    0 <= balance acc <= chain_balance (solana (st x)) p + unsettled (st x) p + uncached (pc x) p /\
    burned acc <= chain_balance (solana (st x)) p + unsettled (st x) p + uncached (pc x) p;
  inv_bound : forall p,
    0 <= chain_balance (solana (st x)) p /\
    chain_balance (solana (st x)) p + unsettled (st x) p + uncached (pc x) p < 2 ^ 63;
  inv_pc : pc_ok (st x) (pc x)
}.

Inductive reachable (n0 : N) : system N T -> Prop :=
| reach_init : reachable n0 (mkSystem (mkBurner (mkTables ∅ ∅) ∅ n0) [] Idle)
| reach_step x y : reachable n0 x -> step x y -> reachable n0 y.

(** ** Lemmas *)

Lemma unsettled_none s p : pending_txns (tables s) = ∅ -> unsettled s p = 0.
Proof. intros H. unfold unsettled. rewrite H, map_to_list_empty. done. Qed.

Lemma unsettled_one s sig p a q :
  one_pending s sig p a ->
  unsettled s q = if executed (solana s) sig && bool_decide (p = q) then a else 0.
Proof.
  intros [[time H] _]. unfold unsettled. rewrite H, map_to_list_singleton. cbn.
  by destruct (_ && _); lia.
Qed.

Lemma pc_ok_pending s k :
  pc_ok s k -> pending_txns (tables s) = ∅ \/ exists sig p a, one_pending s sig p a.
Proof.
  destruct k as [|b t|b t|b|]; cbn; intros H; [by left| | |left; apply H|done].
  all: right; eexists _, _, _; apply H.
Qed.

Lemma unsettled_nonneg s k p : pc_ok s k -> 0 <= unsettled s p.
Proof.
  intros H. destruct (pc_ok_pending s k H) as [H0|(sig & q & a & H1)].
  - by rewrite unsettled_none.
  - rewrite (unsettled_one s sig q a p H1). destruct H1 as [_ ?]. case_goal; lia.
Qed.

Lemma uncached_nonneg s k p : pc_ok s k -> 0 <= uncached k p.
Proof. destruct k as [|b t|b t|b|]; cbn; try lia. intros [_ ?]. case_bool_decide; lia. Qed.

Lemma opened_sum_app l p a q :
  opened_sum (l ++ [(p, a)]) q = opened_sum l q + if bool_decide (q = p) then a else 0.
Proof.
  unfold opened_sum. rewrite sumZ_app. cbn.
  rewrite (bool_decide_ext (p = q) (q = p)) by done. destruct (bool_decide _); lia.
Qed.

Lemma opened_sum_cons l p a q :
  opened_sum ((p, a) :: l) q = (if bool_decide (q = p) then a else 0) + opened_sum l q.
Proof.
  unfold opened_sum. cbn [sumZ foldr fst snd].
  by rewrite (bool_decide_ext (p = q) (q = p)).
Qed.

Lemma opened_sum_nonneg l q : Forall (fun d => 0 < d.2 < 2 ^ 32) l -> 0 <= opened_sum l q.
Proof.
  intros H. apply sumZ_nonneg. intros d Hd. rewrite Forall_forall in H.
  specialize (H d Hd). cbn in H. case_bool_decide; lia.
Qed.

Lemma inv_cached x p :
  inv x -> 0 <= cached_burn (balances (st x)) p <=
           chain_balance (solana (st x)) p + unsettled (st x) p + uncached (pc x) p.
Proof.
  intros H. pose proof (inv_committed x H p). pose proof (opened_sum_nonneg _ p (inv_opened x H)).
  pose proof (uncached_nonneg _ _ p (inv_pc x H)). pose proof (unsettled_nonneg _ _ p (inv_pc x H)).
  pose proof (inv_burned x H p). split; [lia|]. unfold cached_burn in *.
  destruct (balances (st x) !! p) as [acc|] eqn:Ep.
  - apply (inv_cover x H p acc Ep).
  - pose proof (inv_bound x H p). lia.
Qed.

(** A payer's account is replaced in the cache. *)
Lemma cached_burn_insert (c : BalanceStore) p acc q :
  cached_burn (<[p := acc]> c) q = if bool_decide (q = p) then burned acc else cached_burn c q.
Proof.
  unfold cached_burn. case_bool_decide as Hq.
  - subst q. by rewrite lookup_insert_eq.
  - by rewrite lookup_insert_ne.
Qed.

(** Steps that change only one account of the cache and the open transaction. *)
Lemma inv_account s o k p b u o' :
  inv (mkSystem s o k) ->
  0 <= b <= chain_balance (solana s) p + unsettled s p + uncached k p ->
  u <= chain_balance (solana s) p + unsettled s p + uncached k p ->
  Forall (fun d => 0 < d.2 < 2 ^ 32) o' ->
  (forall q, opened_sum o' q =
     opened_sum o q + if bool_decide (q = p) then u - cached_burn (balances s) p else 0) ->
  inv (mkSystem (with_cache s (<[p := mkAccount b u]> (balances s))) o' k).
Proof.
  intros H Hb Hu Hf Ho. destruct H as [Hn Hc Hop Hbu Hcov Hbd Hpc]. cbn in *.
  constructor; cbn; [done|done|done| | |done|done].
  - intros q. rewrite cached_burn_insert, Ho, <- (Z.add_0_r (opened_sum o q)).
    specialize (Hbu q). case_bool_decide as Hq; [subst q; cbn; lia|lia].
  - intros q acc Hq. apply lookup_insert_Some in Hq as [[<- <-]|[Hne Hq]]; [by cbn|].
    by apply Hcov.
Qed.

Lemma inv_debit s o k p a thr c' rem :
  inv (mkSystem s o k) -> 0 < a < 2 ^ 32 ->
  debit_if_sufficient (balances s) (solana s) p a thr = (c', Ok (Some rem)) ->
  inv (mkSystem (with_cache s c') (o ++ [(p, a)]) k).
Proof.
  intros H Ha Hd. pose proof (fun q => inv_cached _ q H) as Hcb. cbn in Hcb.
  pose proof (inv_bound _ H p) as Hbd. cbn in Hbd.
  pose proof (unsettled_nonneg _ _ p (inv_pc _ H)) as Hu. cbn in Hu.
  pose proof (uncached_nonneg _ _ p (inv_pc _ H)) as Hun. cbn in Hun.
  apply debit_cases in Hd as (b & -> & _ & Hb & Hle);
    [|apply (inv_net _ H)|lia|intros q; apply Hcb|specialize (Hcb p); lia].
  pose proof (inv_cover _ H p) as Hcov. cbn in Hcov.
  apply inv_account with o.
  - done.
  - destruct Hb as [->|(acc & Hacc & ->)]; [lia|by apply Hcov].
  - unfold cached_burn. destruct (balances s !! p) as [acc|]; [|lia].
    destruct (Hcov acc eq_refl). lia.
  - apply Forall_app. split; [apply (inv_opened _ H)|]. constructor; [done|constructor].
  - intros q. rewrite opened_sum_app. destruct (bool_decide _); lia.
Qed.

Lemma inv_reject s o k p a thr c' :
  inv (mkSystem s o k) -> 0 < a < 2 ^ 32 ->
  debit_if_sufficient (balances s) (solana s) p a thr = (c', Ok None) ->
  inv (mkSystem (with_cache s c') o k).
Proof.
  intros H Ha Hd. pose proof (fun q => inv_cached _ q H) as Hcb. cbn in Hcb.
  pose proof (inv_bound _ H p) as Hbd. cbn in Hbd.
  pose proof (unsettled_nonneg _ _ p (inv_pc _ H)) as Hu. cbn in Hu.
  pose proof (uncached_nonneg _ _ p (inv_pc _ H)) as Hun. cbn in Hun.
  apply debit_cases in Hd;
    [|apply (inv_net _ H)|lia|intros q; apply Hcb|specialize (Hcb p); lia].
  destruct Hd as [[-> _]|(Hnone & _ & ->)]; [by destruct s|].
  apply inv_account with o; [done|lia|lia|apply (inv_opened _ H)|].
  intros q. unfold cached_burn. rewrite Hnone. destruct (bool_decide _); lia.
Qed.

Lemma add_all_spec l t now t' :
  Forall (fun d => 0 < d.2 < 2 ^ 32) l -> add_all t l now = Ok t' ->
  pending_txns t' = pending_txns t /\
  forall q, committed t' q = committed t q + opened_sum l q.
Proof.
  revert t. induction l as [|[p a] l IH]; intros t Hl H; cbn in H.
  - inv_result. split; [done|]. intros q. unfold opened_sum. cbn. lia.
  - apply Forall_cons in Hl as [Ha Hl]. cbn in Ha.
    apply result_bind_ok in H as (t1 & H1 & H).
    apply add_burned_amount_spec in H1 as [E1 C1]; [|lia].
    destruct (IH t1 Hl H) as [E2 C2]. split; [congruence|].
    intros q. rewrite C2, C1, opened_sum_cons. lia.
Qed.

(** The tables change and keep the pending transactions; amounts only grow. *)
Lemma pc_ok_tables s s' k :
  pending_txns (tables s') = pending_txns (tables s) ->
  (forall sig, executed (solana s') sig = executed (solana s) sig) ->
  (forall p, committed (tables s) p <= committed (tables s') p) ->
  pc_ok s k -> pc_ok s' k.
Proof.
  intros Ht He Hc.
  assert (forall sig p a, one_pending s sig p a -> one_pending s' sig p a) as Ho.
  { intros sig p a [[time H] Ha]. split; [exists time; congruence|]. specialize (Hc p). lia. }
  destruct k as [|b t|b t|b|]; cbn; rewrite ?Ht, ?He.
  - done.
  - intros (H1 & H2). split; [by apply Ho|done].
  - intros (H1 & H2). split; [by apply Ho|done].
  - done.
  - intros [H|(sig & p & a & H)]; [by left|right; exists sig, p, a; by apply Ho].
Qed.

Lemma unsettled_ext s s' p :
  pending_txns (tables s') = pending_txns (tables s) ->
  (forall sig, executed (solana s') sig = executed (solana s) sig) ->
  unsettled s' p = unsettled s p.
Proof.
  intros Ht He. unfold unsettled. rewrite Ht.
  apply sumZ_ext. intros r _. by rewrite He.
Qed.

Lemma inv_commit s o k now t' :
  inv (mkSystem s o k) -> add_all (tables s) o now = Ok t' ->
  inv (mkSystem (mkBurner t' (balances s) (solana s)) [] k).
Proof.
  intros H Ha. destruct H as [Hn Hc Hop Hbu Hcov Hbd Hpc]. cbn in *.
  destruct (add_all_spec o _ now t' Hop Ha) as [Et Ec].
  assert (forall q, unsettled (mkBurner t' (balances s) (solana s)) q = unsettled s q) as Hu
    by (intros q; by apply unsettled_ext).
  pose proof (fun q => opened_sum_nonneg o q Hop) as Ho.
  constructor; cbn; [done| |constructor| | | |].
  - intros p. rewrite Ec. specialize (Hc p); specialize (Ho p); lia.
  - intros p. rewrite Ec, Hbu. unfold opened_sum at 3. cbn. lia.
  - intros p acc Hp. rewrite Hu. by apply Hcov.
  - intros p. rewrite Hu. by apply Hbd.
  - apply (pc_ok_tables s); [done|done| |done]. intros p. cbn. rewrite Ec.
    specialize (Ho p). lia.
Qed.

(** The burner and the chain change, the tables' amounts and the cache do not. *)
Lemma inv_chain s o k s' k' :
  inv (mkSystem s o k) -> balances s' = balances s ->
  net_ok (solana s') -> (forall p, committed (tables s') p = committed (tables s) p) ->
  (forall p, uncached k' p = uncached k p) ->
  (forall p, 0 <= chain_balance (solana s') p /\
     chain_balance (solana s') p + unsettled s' p = chain_balance (solana s) p + unsettled s p) ->
  pc_ok s' k' -> inv (mkSystem s' o k').
Proof.
  intros [Hn Hc Hop Hbu Hcov Hbd Hpc] Eb Hn' Ec Ek Ech Hpc'. cbn in *.
  constructor; cbn; [done| |done| | | |done].
  - intros p. rewrite Ec. apply Hc.
  - intros p. rewrite Eb, Ec, Ek. apply Hbu.
  - intros p acc Hp. rewrite Eb in Hp. destruct (Ech p) as [_ ->]. rewrite Ek. by apply Hcov.
  - intros p. destruct (Ech p) as [H1 ->]. rewrite Ek. split; [done|apply Hbd].
Qed.

Lemma fetch_next_committed t b :
  fetch_next_burn t = Some b -> committed t (b_payer b) < 2 ^ 63 ->
  b_amount b = committed t (b_payer b) /\ 0 < b_amount b.
Proof.
  intros Hf Hb. pose proof (fetch_next_burn_row t) as H. rewrite Hf in H.
  destruct H as (r & Hr & Ha & Hth). unfold committed in *. rewrite Hr in *.
  unfold BURN_THRESHOLD in Hth. rewrite as_u64_small in Ha by (unfold is_u64; lia). lia.
Qed.

Lemma committed_bound x p : inv x -> committed (tables (st x)) p < 2 ^ 63.
Proof.
  intros H. pose proof (inv_cached x p H). pose proof (inv_bound x H p).
  pose proof (inv_burned x H p). pose proof (opened_sum_nonneg _ p (inv_opened x H)).
  pose proof (uncached_nonneg _ _ p (inv_pc x H)). lia.
Qed.

Lemma inv_prepare s o now s' r :
  inv (mkSystem s o Idle) -> burn_prepare s now = (s', r) ->
  match r with
  | Ok None => s' = s
  | Ok (Some (b, txn)) => inv (mkSystem s' o (Prepared b txn))
  | Err _ => inv (mkSystem s' o Confirming)
  end.
Proof.
  intros H Hp. pose proof (inv_pc _ H) as Ht. cbn in Ht.
  unfold burn_prepare in Hp. destruct (fetch_next_burn (tables s)) as [b|] eqn:Ef;
    [|by injection Hp as <- <-].
  destruct (fetch_next_committed _ _ Ef (committed_bound _ _ H)) as [Hb1 Hb2].
  destruct (make_burn_transaction _ _ _) as [n' [txn|e]] eqn:Em.
  2: { apply make_same in Em as (Hn' & Hc' & He'); [|apply (inv_net _ H)].
       injection Hp as <- <-. apply inv_chain with s Idle; cbn; try done; [|by left].
       intros p. rewrite Hc', !unsettled_none by done. split; [apply (inv_bound _ H)|done]. }
  pose proof (make_same _ _ _ _ _ (inv_net _ H) Em) as (Hn' & Hc' & He').
  pose proof (make_spec _ _ _ _ _ (inv_net _ H) Em) as (Ep & Ea & Eex).
  unfold add_pending_transaction in Hp. cbn in Hp. rewrite Ht, lookup_empty in Hp.
  injection Hp as <- <-.
  assert (one_pending (mkBurner (mkTables (pending_burns (tables s))
      (<[get_signature txn := mkTxnRow (b_payer b) (as_i64 (b_amount b)) now]> ∅)) (balances s) n')
      (get_signature txn) (b_payer b) (b_amount b)) as Hone.
  { pose proof (committed_bound _ (b_payer b) H) as Hbd. cbn in Hbd.
    split; cbn; [exists now; by rewrite as_i64_small by lia|].
    change (0 < b_amount b <= committed (tables s) (b_payer b)). lia. }
  apply inv_chain with s Idle; cbn; try done.
  intros p. rewrite (unsettled_none s) by done. rewrite (unsettled_one _ _ _ _ p Hone).
  cbn. rewrite Eex, Hc'. cbn. split; [apply (inv_bound _ H)|lia].
Qed.

Lemma inv_submit s o b txn s' r :
  inv (mkSystem s o (Prepared b txn)) -> burn_submit s txn = (s', r) ->
  match r with
  | Ok _ => inv (mkSystem s' o (Submitted b txn))
  | Err _ => inv (mkSystem s' o Confirming)
  end.
Proof.
  intros H Hs. destruct (inv_pc _ H) as (Hone & Ep & Ea & Eex). cbn in *.
  unfold burn_submit in Hs. destruct (submit_transaction _ _) as [n' r'] eqn:Esub.
  injection Hs as <- <-.
  apply submit_spec in Esub as (Hn' & Hok & Hs & Hq & Hp); [|apply (inv_net _ H)|done].
  assert (one_pending (mkBurner (tables s) (balances s) n')
            (get_signature txn) (b_payer b) (b_amount b)) as Hone' by exact Hone.
  assert (forall q, 0 <= chain_balance n' q /\ chain_balance n' q +
            unsettled (mkBurner (tables s) (balances s) n') q =
            chain_balance (solana s) q + unsettled s q) as Hch.
  { intros q. rewrite (unsettled_one _ _ _ _ q Hone), (unsettled_one _ _ _ _ q Hone').
    cbn. rewrite Eex. cbn. rewrite Ep, Ea in Hp. rewrite Ep in Hq.
    pose proof (inv_bound _ H q) as [Hnn _]. cbn in Hnn.
    destruct (decide (b_payer b = q)) as [<-|Hne].
    - rewrite bool_decide_true by done. destruct (executed n' _); cbn; lia.
    - rewrite bool_decide_false, Hq by congruence. rewrite andb_false_r. lia. }
  destruct r' as [[]|e]; cbn.
  - apply inv_chain with s (Prepared b txn); cbn; try done. by split; [|apply Hok].
  - apply inv_chain with s (Prepared b txn); cbn; try done. right. by eexists _, _, _.
Qed.

Lemma inv_burn_commit s o b txn now s' r :
  inv (mkSystem s o (Submitted b txn)) -> burn_commit s b txn now = (s', r) ->
  r = Ok tt /\ inv (mkSystem s' o (Committed b)).
Proof.
  intros H Hs. destruct (inv_pc _ H) as (Hone & Eex). cbn in *.
  pose proof Hone as [[time Etx] Ha]. unfold burn_commit in Hs.
  destruct (subtract_burned_amount_spec (remove_pending_transaction (tables s) (get_signature txn))
    (b_payer b) (b_amount b) now) as (t' & E' & Et' & Ec'); [exact Ha|exact (committed_bound _ _ H)|].
  rewrite E' in Hs. injection Hs as <- <-. split; [done|].
  assert (pending_txns t' = ∅) as Eemp
    by (rewrite Et'; cbn; rewrite Etx; apply delete_singleton_eq).
  assert (forall q, committed t' q = committed (tables s) q -
            if bool_decide (q = b_payer b) then b_amount b else 0) as Ec by exact Ec'.
  assert (forall q, unsettled s q = if bool_decide (q = b_payer b) then b_amount b else 0) as Eu.
  { intros q. rewrite (unsettled_one _ _ _ _ q Hone), Eex. cbn.
    by rewrite (bool_decide_ext (b_payer b = q) (q = b_payer b)). }
  destruct H as [Hn Hc Hop Hbu Hcov Hbd Hpc]. cbn in *.
  constructor; cbn; [done| |done| | | |by split; [|lia]].
  - intros q. rewrite Ec. specialize (Hc q). case_bool_decide; [subst q; lia|lia].
  - intros q. rewrite Hbu, Ec. lia.
  - intros q acc Hq. specialize (Hcov q acc Hq). rewrite Eu in Hcov.
    rewrite unsettled_none by done. lia.
  - intros q. specialize (Hbd q). rewrite Eu in Hbd. rewrite unsettled_none by done. lia.
Qed.

(** A burn leaves the cache; [d] is what it takes off the in-flight amounts. *)
Lemma inv_settled s o k k' t' c' p a :
  inv (mkSystem s o k) -> 0 < a -> settle_burn (balances s) p a = Some c' ->
  let d q := if bool_decide (q = p) then a else 0 in
  let s' := mkBurner t' c' (solana s) in
  a <= cached_burn (balances s) p ->
  (forall q, 0 <= committed t' q) ->
  (forall q, unsettled s' q + uncached k' q = unsettled s q + uncached k q - d q) ->
  (forall q, committed t' q + uncached k' q = committed (tables s) q + uncached k q - d q) ->
  (forall q, 0 <= unsettled s' q + uncached k' q) ->
  pc_ok s' k' -> inv (mkSystem s' o k').
Proof.
  intros H Ha Hs d s' Hle Hc' Hfl Hcm Hnn Hpc'.
  destruct (settle_burn_spec (balances s) p a ltac:(lia)) as (c1 & acc & E1 & Ep & -> & Ecb).
  rewrite E1 in Hs. injection Hs as <-.
  destruct H as [Hn Hc Hop Hbu Hcov Hbd Hpc]. cbn in *.
  constructor; cbn; [done|done|done| | | |done].
  - intros q. rewrite Ecb, Hbu. specialize (Hcm q). unfold d in Hcm. lia.
  - intros q acc' Hq. specialize (Hfl q); specialize (Hnn q); unfold d, s' in *.
    apply lookup_insert_Some in Hq as [[<- <-]|[Hne Hq]].
    + rewrite bool_decide_true in Hfl by done. cbn. specialize (Hcov p acc Ep).
      specialize (Hbd p). lia.
    + rewrite bool_decide_false in Hfl by done. specialize (Hcov q acc' Hq). lia.
  - intros q. specialize (Hfl q); specialize (Hbd q). unfold d, s' in *.
    destruct (bool_decide _); lia.
Qed.

Lemma inv_settle s o b s' r :
  inv (mkSystem s o (Committed b)) -> burn_settle (E := E) s b = (s', r) ->
  r = Ok tt /\ inv (mkSystem s' o Idle).
Proof.
  intros H Hs. destruct (inv_pc _ H) as [Ht Ha]. cbn in *.
  assert (b_amount b <= cached_burn (balances s) (b_payer b)) as Hle.
  { pose proof (inv_burned _ H (b_payer b)) as Hb. cbn in Hb. unfold uncached in Hb.
    rewrite bool_decide_true in Hb by done.
    pose proof (inv_committed _ H (b_payer b)) as H1. cbn in H1.
    pose proof (opened_sum_nonneg _ (b_payer b) (inv_opened _ H)) as H2. cbn in H2. lia. }
  unfold burn_settle in Hs.
  destruct (settle_burn (balances s) (b_payer b) (b_amount b)) as [c'|] eqn:Ec.
  2: { destruct (settle_burn_spec (balances s) (b_payer b) (b_amount b)) as (c1 & _ & E1 & _);
         [lia|congruence]. }
  injection Hs as <- <-. split; [done|].
  apply (inv_settled s o (Committed b) Idle (tables s) c' (b_payer b) (b_amount b)); try done.
  - apply (inv_committed _ H).
  - intros q. rewrite !unsettled_none by done. cbn. lia.
  - intros q. cbn. lia.
  - intros q. rewrite unsettled_none by done. done.
Qed.

Lemma inv_confirm s o p now :
  inv (mkSystem s o Confirming) -> p ∈ fetch_all_pending_txns (tables s) ->
  match confirm_one s p now with
  | (_, s', Ok _) => inv (mkSystem s' o Confirming)
  | (_, s', Err e) => s' = s /\ exists e', e = ConfirmSolanaError e'
  end.
Proof.
  intros H Hp. destruct (inv_pc _ H) as [Ht|(sig & q & a & Hone)]; cbn in *.
  { unfold fetch_all_pending_txns in Hp. rewrite Ht, map_to_list_empty in Hp.
    by apply not_elem_of_nil in Hp. }
  pose proof Hone as [[time Et] Ha]. pose proof (committed_bound _ q H) as Hbd. cbn in Hbd.
  unfold fetch_all_pending_txns in Hp. rewrite Et, map_to_list_singleton in Hp.
  apply list_elem_of_singleton in Hp. cbn in Hp.
  unfold txn_from_row in Hp. cbn in Hp. rewrite as_u64_small in Hp by (unfold is_u64; lia). subst p.
  unfold confirm_one. cbn.
  destruct (confirm_transaction (solana s) sig) as [[]|e] eqn:Ecf;
    [| |by split; [|by exists e]]; apply confirm_spec in Ecf; try apply (inv_net _ H).
  - destruct (subtract_burned_amount_spec (remove_pending_transaction (tables s) sig) q a
      (if now - time <? one_minute then now + (one_minute - (now - time)) else now))
      as (t' & -> & Et' & Ec'); [exact Ha|exact Hbd|].
    assert (pending_txns t' = ∅) as Eemp
      by (rewrite Et'; cbn; rewrite Et; apply delete_singleton_eq).
    assert (forall r, committed t' r = committed (tables s) r -
              if bool_decide (r = q) then a else 0) as Ec by exact Ec'.
    assert (a <= cached_burn (balances s) q) as Hle.
    { pose proof (inv_burned _ H q) as Hb. cbn in Hb.
      pose proof (opened_sum_nonneg _ q (inv_opened _ H)) as H2. cbn in H2. lia. }
    destruct (settle_burn (balances s) q a) as [c'|] eqn:Es.
    2: { destruct (settle_burn_spec (balances s) q a) as (c1 & _ & E1 & _); [lia|congruence]. }
    pose proof (inv_committed _ H) as Hnn. cbn in Hnn.
    apply (inv_settled s o Confirming Confirming t' c' q a); cbn; try done.
    + lia.
    + intros r. rewrite Ec. specialize (Hnn r). case_bool_decide; [subst r; lia|lia].
    + intros r. rewrite unsettled_none by done. rewrite (unsettled_one _ _ _ _ r Hone), <- Ecf.
      cbn. rewrite (bool_decide_ext (q = r) (r = q)) by done. lia.
    + intros r. rewrite Ec. lia.
    + intros r. by rewrite unsettled_none by done.
    + by left.
  - apply inv_chain with s Confirming; cbn; try done.
    + apply (inv_net _ H).
    + intros r. rewrite unsettled_none by (cbn; rewrite Et; apply delete_singleton_eq).
      rewrite (unsettled_one _ _ _ _ r Hone), <- Ecf. cbn.
      split; [apply (inv_bound _ H)|lia].
    + left. rewrite Et. apply delete_singleton_eq.
Qed.

Lemma inv_monitor s o k p b :
  inv (mkSystem s o k) -> payer_balance (solana s) p = Ok b ->
  inv (mkSystem (with_cache s (set_balance (balances s) p b)) o k).
Proof.
  intros H Hb. apply balance_spec in Hb; [|apply (inv_net _ H)].
  pose proof (inv_bound _ H p) as Hbd. pose proof (inv_cached _ p H) as Hcb. cbn in *.
  pose proof (unsettled_nonneg _ _ p (inv_pc _ H)) as Hu. cbn in Hu.
  pose proof (uncached_nonneg _ _ p (inv_pc _ H)) as Hun. cbn in Hun.
  assert (burned (default (mkAccount 0 0) (balances s !! p)) = cached_burn (balances s) p) as Ed
    by (unfold cached_burn; by destruct (balances s !! p)).
  unfold set_balance. rewrite Ed.
  apply inv_account with o; [done|lia|lia|apply (inv_opened _ H)|].
  intros q. destruct (bool_decide _); lia.
Qed.

Lemma inv_deposit s o k n' :
  inv (mkSystem s o k) -> net_ok n' ->
  (forall p, chain_balance (solana s) p <= chain_balance n' p) ->
  (forall p, chain_balance n' p + unsettled s p + uncached k p < 2 ^ 63) ->
  (forall sig, executed n' sig = executed (solana s) sig) ->
  inv (mkSystem (mkBurner (tables s) (balances s) n') o k).
Proof.
  intros [Hn Hc Hop Hbu Hcov Hbd Hpc] Hn' Hle Hb He. cbn in *.
  assert (forall q, unsettled (mkBurner (tables s) (balances s) n') q = unsettled s q) as Hu
    by (intros q; by apply unsettled_ext).
  constructor; cbn; [done|done|done|done| | |].
  - intros p acc Hp. specialize (Hcov p acc Hp); specialize (Hle p). rewrite Hu. lia.
  - intros p. specialize (Hbd p); specialize (Hle p); specialize (Hb p). rewrite Hu. lia.
  - by apply (pc_ok_tables s).
Qed.

Lemma inv_restart s o k c' :
  inv (mkSystem s o k) -> balance_cache_new (tables s) (solana s) = Ok c' ->
  inv (mkSystem (with_cache s c') [] Confirming).
Proof.
  intros H Hc'. pose proof (balance_cache_lookup _ _ _ (inv_net _ H) Hc') as Hl.
  assert (forall p, cached_burn c' p = committed (tables s) p) as Ecb.
  { intros p. pose proof (committed_bound _ p H) as Hb. pose proof (inv_committed _ H p) as Hnn.
    cbn in *. unfold cached_burn, committed in *. rewrite Hl.
    destruct (pending_burns (tables s) !! p) as [r|]; cbn; [|done].
    apply as_u64_small. unfold is_u64. lia. }
  pose proof (fun p => inv_cached _ p H) as Hcb.
  destruct H as [Hn Hc Hop Hbu Hcov Hbd Hpc]. cbn in *.
  pose proof (fun p => opened_sum_nonneg _ p Hop) as Ho.
  pose proof (fun p => uncached_nonneg _ _ p Hpc) as Hun.
  pose proof (fun p => unsettled_nonneg _ _ p Hpc) as Hu.
  assert (forall p, unsettled (with_cache s c') p = unsettled s p) as Eu by done.
  constructor; cbn; [done|done|constructor| | | |].
  - intros p. rewrite Ecb. unfold opened_sum. cbn. lia.
  - intros p acc Hp. rewrite Eu. specialize (Hbd p); specialize (Hu p); specialize (Hcb p).
    specialize (Hbu p); specialize (Ho p). specialize (Hun p).
    specialize (Ecb p). unfold cached_burn at 1 in Ecb. rewrite Hp in Ecb.
    rewrite Hl in Hp. destruct (pending_burns (tables s) !! p) as [r|]; [|done].
    injection Hp as <-. cbn in *. lia.
  - intros p. rewrite Eu. specialize (Hbd p); specialize (Hun p). lia.
  - by destruct (pc_ok_pending s k Hpc) as [H0|H1]; [left|right].
Qed.

Lemma inv_step x y : inv x -> step x y -> inv y.
Proof.
  intros H Hs. destruct Hs.
  - by eapply inv_debit.
  - by eapply inv_reject.
  - by eapply inv_commit.
  - by apply (inv_prepare _ _ _ _ _ H H0).
  - by apply (inv_prepare _ _ _ _ _ H H0).
  - by apply (inv_submit _ _ _ _ _ _ H H0).
  - by apply (inv_submit _ _ _ _ _ _ H H0).
  - by apply (inv_burn_commit _ _ _ _ _ _ _ H H0).
  - by destruct (inv_burn_commit _ _ _ _ _ _ _ H H0).
  - by apply (inv_settle _ _ _ _ _ H H0).
  - pose proof (inv_confirm _ _ _ now H H0) as Hc. by rewrite H1 in Hc.
  - apply inv_chain with s Confirming; try done.
    + apply (inv_net _ H).
    + intros q. split; [apply (inv_bound _ H)|done].
  - by apply inv_monitor.
  - by apply inv_deposit.
  - by eapply inv_restart.
Qed.

(** A chain the system can start on. *)
Definition initial_chain (n0 : N) : Prop :=
  net_ok n0 /\ forall p, 0 <= chain_balance n0 p < 2 ^ 63.

Lemma reachable_inv n0 x : initial_chain n0 -> reachable n0 x -> inv x.
Proof.
  intros [Hn Hb] Hr. induction Hr as [|x y _ IH Hs]; [|by eapply inv_step].
  constructor; cbn; try done.
  intros p. rewrite unsettled_none by done. specialize (Hb p). lia.
Qed.

(** ** Theorems *)

(** C1: In every interleaving of debits, commits, burns, confirmations,
    deposits and restarts, the chain can pay each payer's accepted debits: the
    amount pending in the tables and in the open transaction, less what is
    burned and not settled, is within the payer's balance on chain. *)
Theorem system_solvent n0 x p :
  initial_chain n0 -> reachable n0 x ->
  committed (tables (st x)) p + opened_sum (opened x) p - unsettled (st x) p
  <= chain_balance (solana (st x)) p.
Proof.
  intros Hi Hr. pose proof (reachable_inv _ _ Hi Hr) as H.
  pose proof (inv_cached _ p H). pose proof (inv_burned _ H p).
  pose proof (uncached_nonneg _ _ p (inv_pc _ H)). lia.
Qed.

(** C11: The cache counts, for every payer, exactly the pending amounts of the
    tables and of the open transaction, plus a burn whose rows are gone and
    which the burner is about to take off the cache. *)
Theorem cache_agrees n0 x p :
  initial_chain n0 -> reachable n0 x ->
  cached_burn (balances (st x)) p =
  committed (tables (st x)) p + opened_sum (opened x) p + uncached (pc x) p.
Proof. intros Hi Hr. apply (inv_burned _ (reachable_inv _ _ Hi Hr)). Qed.


(** The burner never panics and its database statements never fail: after
    the submission the rows are updated, after that the cache entry exists and
    is reduced, and a confirmation fails only when the chain cannot be asked. *)
Theorem burner_progress n0 s o k now :
  initial_chain n0 -> reachable n0 (mkSystem s o k) ->
  match k with
  | Submitted b txn => exists s', burn_commit s b txn now = (s', Ok tt)
  | Committed b => exists s', burn_settle (E := E) s b = (s', Ok tt)
  | Confirming => forall p t s' e, p ∈ fetch_all_pending_txns (tables s) ->
      confirm_one s p now = (t, s', Err e) -> s' = s /\ exists e', e = ConfirmSolanaError e'
  | _ => True
  end.
Proof.
  intros Hi Hr. pose proof (reachable_inv _ _ Hi Hr) as H.
  destruct k as [|b t|b txn|b|]; [done|done| | |].
  - destruct (burn_commit s b txn now) as [s' r] eqn:E1.
    destruct (inv_burn_commit _ _ _ _ _ _ _ H E1) as [-> _]. by exists s'.
  - destruct (burn_settle s b) as [s' r] eqn:E1.
    destruct (inv_settle _ _ _ _ _ H E1) as [-> _]. by exists s'.
  - intros p t s' e Hp E1. pose proof (inv_confirm _ _ _ now H Hp) as Hc. by rewrite E1 in Hc.
Qed.
End System.

(** ** A run *)

Module Run.
Import ExampleChain.

(** One payer with 20000 DC. *)
Definition chain0 : chain := mkChain {["payer" := 20000]} ∅ 0.

Definition start : system chain MockTransaction :=
  mkSystem (mkBurner (mkTables ∅ ∅) ∅ chain0) [] Idle.

(** A debit of 15000, its commit, and the burn up to the submission. *)
Definition debited : system chain MockTransaction :=
  mkSystem (with_cache (st start)
              (debit_if_sufficient (balances (st start)) chain0 "payer" 15000 10000).1)
    ([] ++ [("payer", 15000)]) Idle.

Definition tables1 : pending_tables := mkTables {["payer" := mkBurnRow 15000 1]} ∅.

Definition committed_run : system chain MockTransaction :=
  mkSystem (mkBurner tables1 (balances (st debited)) chain0) [] Idle.

Definition the_burn : Burn := mkBurn "payer" 15000.
Definition the_txn : MockTransaction := mkMockTxn (unary 0) "payer" 15000.

Definition prepared : system chain MockTransaction :=
  mkSystem (burn_prepare (st committed_run) 2).1 [] (Prepared the_burn the_txn).

Definition submitted : system chain MockTransaction :=
  mkSystem (burn_submit (st prepared) the_txn).1 [] (Submitted the_burn the_txn).

Lemma initial_chain0 : initial_chain chain0.
Proof.
  split; [intros s Hs; by apply not_elem_of_empty in Hs|]. intros p.
  cbn. unfold ch_balance. cbn. destruct (decide (p = "payer")) as [->|Hp].
  - rewrite lookup_singleton_eq. cbn. lia.
  - rewrite lookup_singleton_ne by done. cbn. lia.
Qed.

Lemma debited_reachable : reachable chain0 debited.
Proof.
  eapply reach_step; [apply reach_init|].
  apply (step_debit _ _ _ _ _ 10000 _ 5000); [lia|]. vm_compute. reflexivity.
Qed.

Lemma prepared_reachable : reachable chain0 prepared.
Proof.
  eapply reach_step; [eapply reach_step; [apply debited_reachable|]|].
  - apply (step_commit _ _ _ 1 tables1). vm_compute. reflexivity.
  - apply (step_prepare _ _ 2). vm_compute. reflexivity.
Qed.

Lemma submitted_reachable : reachable chain0 submitted.
Proof.
  eapply reach_step; [apply prepared_reachable|]. apply step_submit. vm_compute. reflexivity.
Qed.

Lemma system_solvent_witness :
  committed (tables (st submitted)) "payer" + opened_sum (opened submitted) "payer"
  - unsettled (st submitted) "payer" <= chain_balance (solana (st submitted)) "payer".
Proof. exact (system_solvent chain0 submitted "payer" initial_chain0 submitted_reachable). Defined.

Lemma cache_agrees_witness :
  cached_burn (balances (st submitted)) "payer" =
  committed (tables (st submitted)) "payer" + opened_sum (opened submitted) "payer"
  + uncached (pc submitted) "payer".
Proof. exact (cache_agrees chain0 submitted "payer" initial_chain0 submitted_reachable). Defined.


Lemma burner_progress_witness :
  exists s', burn_commit (st submitted) the_burn the_txn 3 = (s', Ok tt).
Proof.
  exact (burner_progress chain0 (st submitted) [] (Submitted the_burn the_txn) 3
           initial_chain0 submitted_reachable).
Defined.

(** Between the execution of a burn on chain and the update of the cache, a
    debit that refreshes the balance computes the remaining balance from the
    new balance and the old pending amount: the subtraction wraps around, and
    the remaining balance reported is above [2 ^ 63] although the payer's
    account holds 5000 DC of which 1000 were just debited. *)
Theorem remaining_balance_wraps :
  exists x c' rem,
    reachable chain0 x /\
    chain_balance (solana (st x)) "payer" = 5000 /\
    debit_if_sufficient (balances (st x)) (solana (st x)) "payer" 1000 10000 =
      (c', Ok (Some rem)) /\ 2 ^ 63 < rem.
Proof.
  eexists submitted, _, _. split; [exact submitted_reachable|].
  split; [vm_compute; reflexivity|]. split; [vm_compute; reflexivity|]. vm_compute. reflexivity.
Qed.

(** The burn of the run completed: tables, then cache. *)
Definition settled : system chain MockTransaction :=
  mkSystem (burn_settle (E := unit) (burn_commit (E := unit) (st submitted) the_burn the_txn 3).1
              the_burn).1 [] Idle.

Lemma settled_reachable : reachable chain0 settled.
Proof.
  eapply reach_step; [eapply reach_step; [apply submitted_reachable|]|].
  - apply (step_burn_commit _ _ 3 (burn_commit (E := unit) (st submitted) the_burn the_txn 3).1).
    vm_compute. reflexivity.
  - apply step_settle. vm_compute. reflexivity.
Qed.

(** [monitor_funds] reads a balance and stores it in two steps.  When a burn
    completes in between, the stored balance is the one before the burn, and a
    debit that the account cannot pay is accepted. *)
Theorem monitor_stale_balance :
  exists x y b c' rem,
    reachable chain0 x /\ reachable chain0 y /\
    payer_balance (solana (st x)) "payer" = Ok b /\
    debit_if_sufficient (set_balance (balances (st y)) "payer" b) (solana (st y))
      "payer" 12000 1000 = (c', Ok (Some rem)) /\
    chain_balance (solana (st y)) "payer" < cached_burn c' "payer".
Proof.
  eexists prepared, settled, _, _, _. split; [exact prepared_reachable|].
  split; [exact settled_reachable|]. split; [vm_compute; reflexivity|].
  split; [vm_compute; reflexivity|]. vm_compute. reflexivity.
Qed.

(** When a burn was executed on chain and the process stopped before the
    tables were updated, the next start reads the balance after the burn and
    then subtracts the burn from it once more: 20000 DC less the burned 15000
    leave 5000 on chain and 0 in the cache. *)
Theorem restart_subtracts_twice :
  exists x s',
    reachable chain0 x /\
    daemon_start (tables (st x)) (solana (st x)) 4 = (s', Ok tt) /\
    chain_balance (solana s') "payer" = 5000 /\
    balances s' !! "payer" = Some (mkAccount 0 0).
Proof.
  eexists submitted, _. split; [exact submitted_reachable|].
  split; [vm_compute; reflexivity|]. split; vm_compute; reflexivity.
Qed.
End Run.
