(* ===== verification/Text.v ===== *)
(** * Numbers as text

    Rust's [to_string] and [parse] for 64-bit integers, with the round trips the
    report types, the [meta] table and the file names rely on. *)

From S2P Require Import Prelude.
From Stdlib Require Import Ascii.

Open Scope Z_scope.
Open Scope oracle_scope.

(** ** Decimal numerals *)

Definition digit_char (d : Z) : ascii := ascii_of_N (Z.to_N (48 + d)).

Definition digit_val (c : ascii) : option Z :=
  let n := Z.of_N (N_of_ascii c) in
  if (48 <=? n) && (n <=? 57) then Some (n - 48) else None.

Fixpoint print_digits (fuel : nat) (n : Z) (acc : string) : string :=
  match fuel with
  | O => acc
  | S fuel =>
      if n <? 10 then String (digit_char n) acc
      else print_digits fuel (n / 10) (String (digit_char (n mod 10)) acc)
  end.

(** [u64::to_string]; twenty digits are enough for 64 bits. *)
Definition u64_to_string (n : Z) : string := print_digits 20 n "".

(** [i64::to_string] *)
Definition i64_to_string (n : Z) : string :=
  if n <? 0 then String "-" (u64_to_string (- n)) else u64_to_string n.

(** The digits of [s] after [acc], as long as the value stays within [max]. *)
Fixpoint parse_digits (max acc : Z) (s : string) : option Z :=
  match s with
  | EmptyString => Some acc
  | String c s =>
      match digit_val c with
      | Some d => if acc * 10 + d <=? max then parse_digits max (acc * 10 + d) s else None
      | None => None
      end
  end.

Definition parse_nonempty (max : Z) (s : string) : option Z :=
  match s with EmptyString => None | _ => parse_digits max 0 s end.

(** [str::parse::<u64>]: an optional plus sign and at least one digit. *)
Definition u64_parse (s : string) : option Z :=
  match s with
  | String "+" s => parse_nonempty (2 ^ 64 - 1) s
  | _ => parse_nonempty (2 ^ 64 - 1) s
  end.

(** [str::parse::<i64>] *)
Definition i64_parse (s : string) : option Z :=
  match s with
  | String "+" s => parse_nonempty (2 ^ 63 - 1) s
  | String "-" s => option_map Z.opp (parse_nonempty (2 ^ 63) s)
  | _ => parse_nonempty (2 ^ 63 - 1) s
  end.

Lemma digit_val_char d : 0 <= d < 10 -> digit_val (digit_char d) = Some d.
Proof.
  intros H. assert (d ∈ [0; 1; 2; 3; 4; 5; 6; 7; 8; 9]) as Hd.
  { rewrite !elem_of_cons. lia. }
  repeat (apply elem_of_cons in Hd as [->|Hd]; [reflexivity|]). by apply not_elem_of_nil in Hd.
Qed.

Lemma parse_print_digits max fuel n s :
  0 <= n < 10 ^ Z.of_nat fuel -> n <= max ->
  (0 < fuel)%nat -> parse_digits max 0 (print_digits fuel n s) = parse_digits max n s.
Proof.
  revert n s. induction fuel as [|fuel IH]; intros n s Hn Hm Hf; [lia|]. cbn [print_digits].
  destruct (Z.ltb_spec n 10) as [Hlt|Hge].
  - cbn [parse_digits]. rewrite digit_val_char by lia. replace (0 * 10 + n) with n by lia.
    by rewrite (proj2 (Z.leb_le n max)).
  - assert (0 < 10 ^ Z.of_nat fuel) as Hp by (apply Z.pow_pos_nonneg; lia).
    rewrite Nat2Z.inj_succ, Z.pow_succ_r in Hn by lia.
    assert (n / 10 < 10 ^ Z.of_nat fuel) as Hq by (apply Z.div_lt_upper_bound; lia).
    assert (0 <= n / 10) as Hq0 by (apply Z.div_pos; lia).
    pose proof (Z.div_mod n 10 ltac:(lia)) as E. pose proof (Z.mod_pos_bound n 10 ltac:(lia)) as Hr.
    rewrite IH; [|lia|lia|].
    + cbn [parse_digits]. rewrite digit_val_char by lia.
      replace (n / 10 * 10 + n mod 10) with n by lia. by rewrite (proj2 (Z.leb_le n max)).
    + destruct fuel; [|lia]. change (10 ^ Z.of_nat 0) with 1 in Hn. lia.
Qed.

Lemma print_digits_head fuel n s :
  (0 < fuel)%nat -> 0 <= n < 10 ^ Z.of_nat fuel ->
  exists d rest, print_digits fuel n s = String (digit_char d) rest /\ 0 <= d < 10.
Proof.
  revert n s. induction fuel as [|fuel IH]; intros n s Hf Hn; [lia|]. cbn [print_digits].
  destruct (Z.ltb_spec n 10) as [Hlt|Hge]; [exists n, s; split; [done|lia]|].
  rewrite Nat2Z.inj_succ, Z.pow_succ_r in Hn by lia.
  apply IH.
  - destruct fuel; [|lia]. change (10 ^ Z.of_nat 0) with 1 in Hn. lia.
  - split; [apply Z.div_pos; lia|apply Z.div_lt_upper_bound; lia].
Qed.

(** Digits are neither signs nor anything else the parsers treat specially. *)
Lemma digit_char_cases d : 0 <= d < 10 -> digit_char d <> "+"%char /\ digit_char d <> "-"%char /\ digit_char d <> "."%char.
Proof.
  intros H. pose proof (digit_val_char d H) as E.
  split; [|split]; intros Heq; rewrite Heq in E; discriminate.
Qed.

Lemma parse_u64_digits s d rest :
  s = String (digit_char d) rest -> 0 <= d < 10 -> u64_parse s = parse_digits (2 ^ 64 - 1) 0 s.
Proof.
  intros -> H. destruct (digit_char_cases d H) as (Hp & _). revert Hp.
  generalize (digit_char d). intros [[] [] [] [] [] [] [] []] Hp; try reflexivity. by destruct Hp.
Qed.

Lemma parse_i64_digits s d rest :
  s = String (digit_char d) rest -> 0 <= d < 10 -> i64_parse s = parse_digits (2 ^ 63 - 1) 0 s.
Proof.
  intros -> H. destruct (digit_char_cases d H) as (Hp & Hm & _). revert Hp Hm.
  generalize (digit_char d). intros [[] [] [] [] [] [] [] []] Hp Hm; try reflexivity; by (destruct Hp || destruct Hm).
Qed.

(** A 64-bit number survives printing and parsing. *)
Lemma u64_parse_print n : is_u64 n -> u64_parse (u64_to_string n) = Some n.
Proof.
  intros Hn. unfold is_u64 in Hn. unfold u64_to_string.
  destruct (print_digits_head 20 n "") as (d & rest & E & Hd); [lia|split; [lia|cbn; lia]|].
  rewrite (parse_u64_digits _ d rest E Hd). apply parse_print_digits; [split; [lia|cbn; lia]|lia|lia].
Qed.

Lemma i64_parse_print n : - 2 ^ 63 <= n < 2 ^ 63 -> i64_parse (i64_to_string n) = Some n.
Proof.
  intros Hn. unfold i64_to_string, u64_to_string. destruct (Z.ltb_spec n 0) as [Hlt|Hge].
  - cbn [i64_parse]. destruct (print_digits_head 20 (- n) "") as (d & rest & E & Hd); [lia|split; [lia|cbn; lia]|].
    unfold parse_nonempty. rewrite E. rewrite <- E. rewrite parse_print_digits; [|split; [lia|cbn; lia]|lia|lia].
    cbn [parse_digits option_map]. f_equal. lia.
  - destruct (print_digits_head 20 n "") as (d & rest & E & Hd); [lia|split; [lia|cbn; lia]|].
    rewrite (parse_i64_digits _ d rest E Hd). apply parse_print_digits; [split; [lia|cbn; lia]|lia|lia].
Qed.
