(* ===== verification/FileStoreTypes.v ===== *)
(** * Types shared by the report files

    [file_store/src/error.rs] and [file_store/src/traits/]: the error types, the
    conversions between times and the integers of the messages, and the ids of
    reports.  Times are in nanoseconds; [chrono], the hash function and the
    generated message enums are parameters. *)

From S2P Require Import Prelude Solana.
From Stdlib Require Import Ascii.

Open Scope Z_scope.
Open Scope oracle_scope.

(** ** Errors *)

Inductive DecodeError : Type :=
| Prost
| FileInfoDecode (msg : string)
| FromInt
| UnsupportedRegion (msg : string) (v : Z)
| UnsupportedDataRate (msg : string) (v : Z)
| UnsupportedInvalidReason (msg : string) (v : Z)
| UnsupportedParticipantSide (msg : string) (v : Z)
| UnsupportedStatusReason (msg : string) (v : Z)
| UnsupportedSignalLevel (msg : string) (v : Z)
| InvalidTimestamp (v : Z)
| UuidError
| InvalidCellIndexError
| UnsupportedPacketType (msg : string) (v : Z)
| FileStreamTryDecode (msg : string).

(** [file_store::Error], without the variants of the libraries it wraps. *)
Inductive FsError : Type :=
| Decode (e : DecodeError)
| NotFound (msg : string)
| Channel
| NoManifest
| SendTimeout
| Shutdown.

Definition not_found (msg : string) : FsError := NotFound msg.
Definition unsupported_region (msg : string) (v : Z) : FsError := Decode (UnsupportedRegion msg v).
Definition unsupported_datarate (msg : string) (v : Z) : FsError := Decode (UnsupportedDataRate msg v).
Definition unsupported_packet_type (msg : string) (v : Z) : FsError := Decode (UnsupportedPacketType msg v).
Definition unsupported_participant_side (msg : string) (v : Z) : FsError :=
  Decode (UnsupportedParticipantSide msg v).
Definition unsupported_invalid_reason (msg : string) (v : Z) : FsError :=
  Decode (UnsupportedInvalidReason msg v).
Definition invalid_timestamp (v : Z) : FsError := Decode (InvalidTimestamp v).
(** As written: the variant is that of an invalid reason. *)
Definition unsupported_status_reason (msg : string) (v : Z) : FsError :=
  Decode (UnsupportedInvalidReason msg v).
Definition unsupported_signal_level (msg : string) (v : Z) : FsError :=
  Decode (UnsupportedSignalLevel msg v).

(** ** Times *)

Definition nanos_per_milli : Z := 1000000.
Definition nanos_per_sec : Z := 1000000000.

(** [chrono::DateTime<Utc>] represents the times of about 262 thousand years
    around the epoch, which include the times whose nanoseconds are an [i64].
    [duration_trunc] rounds a time down to a multiple of a duration; it fails
    for durations that are longer than the time since the epoch. *)
Class Chrono : Type := {
  time_ok : Z -> bool;
  duration_trunc : Z -> Z -> option Z;
  time_ok_spec t : - 2 ^ 63 <= t < 2 ^ 63 -> time_ok t = true;
  duration_trunc_spec t d : 0 < d <= t -> t < 2 ^ 63 -> duration_trunc t d = Some (t - t mod d)
}.

#[global] Program Instance chrono_years : Chrono := {
  time_ok t := Z.abs t <=? 262000 * 365 * 86400 * nanos_per_sec;
  duration_trunc t d := if (0 <? d) && (d <=? t) then Some (t - t mod d) else None
}.
Next Obligation. intros t H. apply Z.leb_le. unfold nanos_per_sec. lia. Qed.
Next Obligation.
  intros t d H _. cbn. rewrite (proj2 (Z.ltb_lt 0 d)), (proj2 (Z.leb_le d t)) by lia. done.
Qed.

Section Times.
Context `{!Chrono}.

(** [i64::try_from] of a [u64] *)
Definition i64_try_from (v : Z) : result Z FsError :=
  if v <? 2 ^ 63 then Ok v else Err (Decode FromInt).

Definition single (t v : Z) : result Z FsError :=
  if time_ok t then Ok t else Err (invalid_timestamp v).

Definition to_timestamp (v : Z) : result Z FsError :=
  let? decoded := i64_try_from v in single (decoded * nanos_per_sec) v.

Definition to_timestamp_millis (v : Z) : result Z FsError :=
  let? decoded := i64_try_from v in single (decoded * nanos_per_milli) v.

Definition to_timestamp_nanos (v : Z) : result Z FsError :=
  let? decoded := i64_try_from v in Ok decoded.
End Times.

Definition encode_timestamp (t : Z) : Z := as_u64 (t / nanos_per_sec).
Definition encode_timestamp_millis (t : Z) : Z := as_u64 (t / nanos_per_milli).

(** [None] is the panic of [expect] outside the range of an [i64]. *)
Definition encode_timestamp_nanos (t : Z) : option Z :=
  if (- 2 ^ 63 <=? t) && (t <? 2 ^ 63) then Some (as_u64 t) else None.

(** The times whose nanoseconds are a non-negative [i64]: up to the year 2262. *)
Definition time_i64 (t : Z) : Prop := 0 <= t < 2 ^ 63.

Section TimeLemmas.
Context `{!Chrono}.

Lemma time_i64_div t k : time_i64 t -> 0 < k -> 0 <= t / k < 2 ^ 63 /\ t / k * k <= t.
Proof.
  intros [H0 H1] Hk. split.
  - split; [by apply Z.div_pos|]. apply Z.div_lt_upper_bound; [done|]. nia.
  - pose proof (Z.mul_div_le t k Hk). lia.
Qed.

Lemma decode_encode t k :
  time_i64 t -> 0 < k ->
  (let? d := i64_try_from (as_u64 (t / k)) in single (d * k) (as_u64 (t / k))) = Ok (t / k * k).
Proof.
  intros Ht Hk. destruct (time_i64_div t k Ht Hk) as [Hr Hle].
  rewrite as_u64_small by (unfold is_u64; lia). unfold i64_try_from.
  rewrite (proj2 (Z.ltb_lt _ (2 ^ 63))) by lia. cbn [result_bind]. unfold single.
  rewrite time_ok_spec; [done|]. destruct Ht. nia.
Qed.

(** Encoding keeps whole milliseconds and whole seconds. *)
Lemma timestamp_millis_roundtrip t :
  time_i64 t -> to_timestamp_millis (encode_timestamp_millis t) = Ok (t / nanos_per_milli * nanos_per_milli).
Proof. intros Ht. by apply decode_encode. Qed.

Lemma timestamp_roundtrip t :
  time_i64 t -> to_timestamp (encode_timestamp t) = Ok (t / nanos_per_sec * nanos_per_sec).
Proof. intros Ht. by apply decode_encode. Qed.

Lemma timestamp_nanos_roundtrip t :
  time_i64 t -> exists v, encode_timestamp_nanos t = Some v /\ to_timestamp_nanos v = Ok t.
Proof.
  intros [H0 H1]. exists t. unfold encode_timestamp_nanos, to_timestamp_nanos, i64_try_from.
  rewrite (proj2 (Z.leb_le _ t)), (proj2 (Z.ltb_lt t _)) by lia. cbn [andb].
  rewrite as_u64_small by (unfold is_u64; lia). done.
Qed.
End TimeLemmas.

(** Encoding after decoding gives the number back. *)
Lemma encode_decode_millis `{!Chrono} v t : to_timestamp_millis v = Ok t -> 0 <= v -> encode_timestamp_millis t = v.
Proof.
  unfold to_timestamp_millis, i64_try_from. destruct (Z.ltb_spec v (2 ^ 63)); [|done]. cbn [result_bind].
  unfold single. destruct (time_ok _); [|done]. intros [= <-] Hv. unfold encode_timestamp_millis.
  rewrite Z.div_mul by done. apply as_u64_small. unfold is_u64. lia.
Qed.

(** ** Message enums *)

(** A generated enum: [as i32] and [from_i32], inverse on the values of the enum. *)
Class ProtoEnum (A : Type) : Type := {
  to_i32 : A -> Z;
  from_i32 : Z -> option A;
  from_to_i32 a : from_i32 (to_i32 a) = Some a
}.

(** ** Report ids *)

Definition byte (z : Z) : ascii := ascii_of_N (Z.to_N (z mod 256)).

(** The [n] low bytes of [z], least significant first. *)
Fixpoint le_bytes (n : nat) (z : Z) : string :=
  match n with
  | O => EmptyString
  | S n => String (byte z) (le_bytes n (z / 256))
  end.

Fixpoint rev_string (s acc : string) : string :=
  match s with EmptyString => acc | String c s => rev_string s (String c acc) end.

Definition u64_to_le_bytes (z : Z) : string := le_bytes 8 z.
Definition u64_to_be_bytes (z : Z) : string := rev_string (le_bytes 8 z) EmptyString.

(** [blake3]: the hash of the concatenated updates. *)
Class Blake3 : Type := { blake3 : string -> string }.
