(* ===== verification/Decimal.v ===== *)
(** * Decimal arithmetic

    The oracles compute rewards with [rust_decimal], which is not part of the
    repository: its operations are the class [Decimal].  [DecimalLaws] states
    the documented behaviour the reward theorems rely on: a value is a 96-bit
    integer scaled by a power of ten up to [10 ^ 28], an operation rounds the
    exact result to a representable value (and overflows beyond the range),
    [round_dp_with_strategy] rounds as its strategy says, and [to_u64] truncates.
    The rational numbers satisfy the laws. *)

From S2P Require Import Prelude.
From Stdlib Require Import Qabs Qpower.

Open Scope Z_scope.
Open Scope oracle_scope.

(** [rust_decimal::RoundingStrategy], as far as it is used. *)
Inductive RoundingStrategy : Type :=
| MidpointNearestEven
| ToZero
| ToPositiveInfinity
| ToNegativeInfinity.

Class Decimal (dec : Type) : Type := {
  dec_new : Z -> nat -> dec;                (* [Decimal::new(num, scale)] *)
  dadd : dec -> dec -> dec;
  dsub : dec -> dec -> dec;
  dmul : dec -> dec -> dec;
  ddiv : dec -> dec -> dec;
  dleb : dec -> dec -> bool;
  round_dp : nat -> RoundingStrategy -> dec -> dec;
  to_u64 : dec -> option Z;
  to_u32 : dec -> option Z;
  from_f32_retain : Q -> option dec;        (* of the value of a float *)
  checked_powu : dec -> Z -> option dec;
  checked_div : dec -> dec -> option dec
}.

Declare Scope dec_scope.
Delimit Scope dec_scope with dec.
Infix "+" := dadd : dec_scope.
Infix "-" := dsub : dec_scope.
Infix "*" := dmul : dec_scope.
Infix "/" := ddiv : dec_scope.

(** [Decimal::from] of an integer; [Decimal::ZERO]; [a > b]. *)
Definition dec_of_Z {dec} `{!Decimal dec} (z : Z) : dec := dec_new z 0.
Definition dec_zero {dec} `{!Decimal dec} : dec := dec_of_Z 0.
Definition dgtb {dec} `{!Decimal dec} (a b : dec) : bool := negb (dleb a b).

Definition dmin {dec} `{!Decimal dec} (a b : dec) : dec := if dleb a b then a else b.

Definition dmax {dec} `{!Decimal dec} (a b : dec) : dec := if dleb a b then b else a.

(** [.to_u64().unwrap_or(0)] *)
Definition to_u64_or_0 {dec} `{!Decimal dec} (a : dec) : Z := default 0 (to_u64 a).

Definition to_u32_or_0 {dec} `{!Decimal dec} (a : dec) : Z := default 0 (to_u32 a).

(** ** Rational helpers *)

Open Scope Q_scope.

Definition pow10 (s : nat) : Q := inject_Z (10 ^ Z.of_nat s).

(** The integer a rational is rounded to. *)
Definition round_int (st : RoundingStrategy) (q : Q) : Z :=
  match st with
  | ToNegativeInfinity => Qfloor q
  | ToPositiveInfinity => Qceiling q
  | ToZero => if Qle_bool 0 q then Qfloor q else Qceiling q
  | MidpointNearestEven =>
      let f := Qfloor q in
      let d := q - inject_Z f in
      if negb (Qle_bool (1 # 2) d) then f
      else if negb (Qle_bool d (1 # 2)) then (f + 1)%Z
      else if Z.even f then f else (f + 1)%Z
  end.

Definition round_q (n : nat) (st : RoundingStrategy) (q : Q) : Q :=
  inject_Z (round_int st (q * pow10 n)) / pow10 n.

(** ** The laws *)

(** The largest absolute value, and the rounding error at a value. *)
Definition dec_max : Q := inject_Z (2 ^ 96 - 1).
Definition dec_err (q : Q) : Q := Qabs q * (1 # 1000000000000000000000000000) + (1 # 10000000000000000000000000000).

Record rounding (r : Q -> Q) : Prop := mkRounding {
  rnd_proper : Proper (Qeq ==> Qeq) r;
  rnd_mono p q : p <= q -> r p <= r q;
  rnd_near q : Qabs q <= dec_max -> Qabs (r q - q) <= dec_err q;
  rnd_exact m s : (Z.abs m < 2 ^ 96)%Z -> (s <= 28)%nat ->
    r (inject_Z m / pow10 s) == inject_Z m / pow10 s
}.

Class DecimalLaws (dec : Type) `{!Decimal dec} : Type := {
  dval : dec -> Q;
  add_rnd : Q -> Q;
  mul_rnd : Q -> Q;
  div_rnd : Q -> Q;
  add_rounding : rounding add_rnd;
  mul_rounding : rounding mul_rnd;
  div_rounding : rounding div_rnd;
  dec_new_val m s : (Z.abs m < 2 ^ 63)%Z -> (s <= 28)%nat -> dval (dec_new m s) == inject_Z m / pow10 s;
  dadd_val a b : Qabs (dval a + dval b) <= dec_max -> dval (dadd a b) == add_rnd (dval a + dval b);
  dsub_val a b : Qabs (dval a - dval b) <= dec_max -> dval (dsub a b) == add_rnd (dval a - dval b);
  dmul_val a b : Qabs (dval a * dval b) <= dec_max -> dval (dmul a b) == mul_rnd (dval a * dval b);
  ddiv_val a b : ~ dval b == 0 -> Qabs (dval a / dval b) <= dec_max ->
    dval (ddiv a b) == div_rnd (dval a / dval b);
  dleb_val a b : dleb a b = true <-> dval a <= dval b;
  round_dp_val n st a : dval (round_dp n st a) == round_q n st (dval a);
  to_u64_val a :
    to_u64_or_0 a =
    if Qle_bool 0 (dval a) && (Qfloor (dval a) <? 2 ^ 64)%Z then Qfloor (dval a) else 0%Z;
  to_u32_val a :
    to_u32_or_0 a =
    if Qle_bool 0 (dval a) && (Qfloor (dval a) <? 2 ^ 32)%Z then Qfloor (dval a) else 0%Z;
  (* a float of at most 24 significant bits and 8 binary places *)
  from_f32_retain_val m s : (Z.abs m < 2 ^ 24)%Z -> (s <= 8)%nat ->
    exists d, from_f32_retain (inject_Z m / inject_Z (2 ^ Z.of_nat s)) = Some d /\
              dval d == inject_Z m / inject_Z (2 ^ Z.of_nat s);
  (* powers of a value between 0 and 1 do not overflow *)
  checked_powu_val a e : 0 <= dval a <= 1 -> (0 <= e)%Z ->
    exists d, checked_powu a e = Some d /\ 0 <= dval d <= 1 /\
              Qabs (dval d - dval a ^ e) <= inject_Z e * (1 # 1000000000000000000000000000);
  checked_div_val a b : ~ dval b == 0 -> Qabs (dval a / dval b) <= dec_max -> checked_div a b = Some (ddiv a b);
  checked_div_zero a b : dval b == 0 -> checked_div a b = None
}.

(** ** The rational instance *)

#[global] Instance Q_decimal : Decimal Q := {
  dec_new m s := Qred (inject_Z m / pow10 s);
  dadd a b := Qred (a + b);
  dsub a b := Qred (a - b);
  dmul a b := Qred (a * b);
  ddiv a b := Qred (a / b);
  dleb := Qle_bool;
  round_dp n st a := Qred (round_q n st a);
  to_u64 a := if Qle_bool 0 a && (Qfloor a <? 2 ^ 64)%Z then Some (Qfloor a) else None;
  to_u32 a := if Qle_bool 0 a && (Qfloor a <? 2 ^ 32)%Z then Some (Qfloor a) else None;
  from_f32_retain q := Some (Qred q);
  checked_powu a e := Some (Qred (a ^ e));
  checked_div a b := if Qeq_bool b 0 then None else Some (Qred (a / b))
}.

Lemma exact_rounding : rounding (fun q => q).
Proof.
  constructor.
  - by intros p q ->.
  - done.
  - intros q _. unfold dec_err. pose proof (Qabs_nonneg q).
    assert (q - q == 0) as -> by ring. change (Qabs 0) with 0. lra.
  - done.
Qed.

Lemma Qpower_unit a e : 0 <= a <= 1 -> (0 <= e)%Z -> 0 <= a ^ e <= 1.
Proof.
  intros Ha He. pattern e. apply natlike_ind; [|clear e He|done].
  - rewrite Qpower_0_r. split; discriminate.
  - intros e He [H0 H1]. unfold Z.succ. rewrite Qpower_plus' by lia. rewrite Qpower_1_r.
    split; [apply Qmult_le_0_compat; lra|].
    apply Qle_trans with (1 * a); [apply Qmult_le_compat_r; lra|lra].
Qed.

#[global] Instance Q_decimal_laws : DecimalLaws Q.
Proof.
  refine {| dval := fun q => q; add_rnd := fun q => q; mul_rnd := fun q => q; div_rnd := fun q => q |};
    try apply exact_rounding; cbn; intros; try apply Qred_correct.
  - apply Qle_bool_iff.
  - unfold to_u64_or_0. cbn. by destruct (_ && _).
  - unfold to_u32_or_0. cbn. by destruct (_ && _).
  - eexists. split; [done|]. apply Qred_correct.
  - exists (Qred (a ^ e)). split; [done|]. pose proof (Qred_correct (a ^ e)) as E.
    split; [by rewrite E; apply Qpower_unit|].
    change (Qabs (Qred (a ^ e) - a ^ e) <= inject_Z e * (1 # 1000000000000000000000000000)).
    assert (Qred (a ^ e) - a ^ e == 0) as E0 by (rewrite E; ring). rewrite E0. apply Qmult_le_0_compat; [|discriminate].
    change 0 with (inject_Z 0). by rewrite <- Zle_Qle.
  - destruct (Qeq_bool b 0) eqn:E; [|done]. by apply Qeq_bool_eq in E.
  - by rewrite (proj2 (Qeq_bool_iff b 0)).
Defined.

(** ** Derived facts *)

Lemma pow10_pos s : 0 < pow10 s.
Proof.
  unfold pow10. change 0 with (inject_Z 0). rewrite <- Zlt_Qlt. apply Z.pow_pos_nonneg; lia.
Qed.

Lemma pow10_0 : pow10 0 == 1.
Proof. reflexivity. Qed.

Lemma Qeq_le a b : a == b -> a <= b.
Proof. intros ->. apply Qle_refl. Qed.

Lemma Qle_bool_false a b : Qle_bool a b = false <-> b < a.
Proof.
  split; intros H.
  - apply Qnot_le_lt. intros Hle. apply Qle_bool_iff in Hle. congruence.
  - destruct (Qle_bool a b) eqn:E; [|done]. apply Qle_bool_iff in E. exfalso. lra.
Qed.

Lemma Qfloor_bounds q : inject_Z (Qfloor q) <= q /\ q < inject_Z (Qfloor q) + 1.
Proof.
  split; [apply Qfloor_le|]. pose proof (Qlt_floor q) as H.
  rewrite inject_Z_plus in H. exact H.
Qed.

Lemma Qfloor_nonneg q : 0 <= q -> (0 <= Qfloor q)%Z.
Proof. intros H. change 0%Z with (Qfloor 0). by apply Qfloor_resp_le. Qed.

Section Rounding.
Context (r : Q -> Q) (Hr : rounding r).

Lemma rnd_int z : (Z.abs z < 2 ^ 96)%Z -> r (inject_Z z) == inject_Z z.
Proof.
  intros Hz. pose proof (rnd_exact r Hr z 0 Hz ltac:(lia)) as H.
  assert (inject_Z z / pow10 0 == inject_Z z) as E by (rewrite pow10_0; field).
  pose proof (rnd_proper r Hr) as Hp. rewrite E in H. exact H.
Qed.

Lemma rnd_nonneg q : 0 <= q -> 0 <= r q.
Proof.
  intros H. pose proof (rnd_int 0 ltac:(done)) as E. change (inject_Z 0) with 0 in E.
  pose proof (rnd_mono r Hr 0 q H). lra.
Qed.

Lemma rnd_upper q : 0 <= q -> q <= dec_max -> r q <= q + dec_err q.
Proof.
  intros H0 H. pose proof (rnd_near r Hr q) as Hn. rewrite Qabs_pos in Hn by done.
  specialize (Hn H). apply Qabs_Qle_condition in Hn. lra.
Qed.

Lemma rnd_lower q : 0 <= q -> q <= dec_max -> q - dec_err q <= r q.
Proof.
  intros H0 H. pose proof (rnd_near r Hr q) as Hn. rewrite Qabs_pos in Hn by done.
  specialize (Hn H). apply Qabs_Qle_condition in Hn. lra.
Qed.
End Rounding.

Lemma dec_err_pos q : 0 <= q -> dec_err q == q * (1 # 1000000000000000000000000000) + (1 # 10000000000000000000000000000).
Proof. intros H. unfold dec_err. by rewrite Qabs_pos. Qed.

(** Rounding to an integer. *)
Lemma round_int_nearest q :
  Qabs (inject_Z (round_int MidpointNearestEven q) - q) <= 1 # 2.
Proof.
  cbn [round_int]. destruct (Qfloor_bounds q) as [H1 H2]. apply Qabs_Qle_condition.
  destruct (Qle_bool (1 # 2) _) eqn:E1; cbn [negb].
  - apply Qle_bool_iff in E1. destruct (Qle_bool _ (1 # 2)) eqn:E2; cbn [negb].
    + apply Qle_bool_iff in E2. destruct (Z.even _); rewrite ?inject_Z_plus; change (inject_Z 1) with 1; lra.
    + apply Qle_bool_false in E2. rewrite inject_Z_plus. change (inject_Z 1) with 1. lra.
  - apply Qle_bool_false in E1. lra.
Qed.

Lemma round_int_nonneg st q : 0 <= q -> (0 <= round_int st q)%Z.
Proof.
  intros H. pose proof (Qfloor_nonneg q H). destruct st; cbn [round_int].
  - destruct (negb _); [done|]. destruct (negb _); [lia|]. destruct (Z.even _); lia.
  - destruct (Qle_bool 0 q); [done|]. change 0%Z with (Qceiling 0). by apply Qceiling_resp_le.
  - change 0%Z with (Qceiling 0). by apply Qceiling_resp_le.
  - done.
Qed.

Lemma Qle_bool_comp a b c d : a == b -> c == d -> Qle_bool a c = Qle_bool b d.
Proof.
  intros E1 E2. destruct (Qle_bool b d) eqn:E.
  - apply Qle_bool_iff in E. apply Qle_bool_iff. lra.
  - apply Qle_bool_false in E. apply Qle_bool_false. lra.
Qed.

Lemma round_int_comp st p q : p == q -> round_int st p = round_int st q.
Proof.
  intros E. destruct st; cbn [round_int].
  - rewrite (Qfloor_comp _ _ E). set (z := inject_Z (Qfloor q)).
    rewrite (Qle_bool_comp (1 # 2) (1 # 2) (p - z) (q - z)) by (done || by rewrite E).
    by rewrite (Qle_bool_comp (p - z) (q - z) (1 # 2) (1 # 2)) by (done || by rewrite E).
  - rewrite (Qfloor_comp _ _ E), (Qceiling_comp _ _ E).
    by rewrite (Qle_bool_comp 0 0 p q).
  - apply (Qceiling_comp _ _ E).
  - apply (Qfloor_comp _ _ E).
Qed.

#[global] Instance round_q_proper n st : Proper (Qeq ==> Qeq) (round_q n st).
Proof.
  intros p q E. unfold round_q. rewrite (round_int_comp st (p * pow10 n) (q * pow10 n)); [done|].
  by rewrite E.
Qed.

Lemma round_q_near n q : Qabs (round_q n MidpointNearestEven q - q) <= (1 # 2) / pow10 n.
Proof.
  pose proof (pow10_pos n) as Hp. pose proof (round_int_nearest (q * pow10 n)) as H.
  apply Qabs_Qle_condition in H as [H1 H2]. apply Qabs_Qle_condition. unfold round_q.
  set (z := inject_Z (round_int _ _)) in *.
  assert (z / pow10 n - q == (z - q * pow10 n) / pow10 n) as -> by (field; lra).
  split.
  - assert (- ((1 # 2) / pow10 n) == - (1 # 2) / pow10 n) as -> by (field; lra).
    apply Qmult_le_compat_r; [lra|]. apply Qlt_le_weak, Qinv_lt_0_compat. done.
  - apply Qmult_le_compat_r; [lra|]. apply Qlt_le_weak, Qinv_lt_0_compat. done.
Qed.

Lemma round_q_nonneg n st q : 0 <= q -> 0 <= round_q n st q.
Proof.
  intros H. unfold round_q. pose proof (pow10_pos n) as Hp.
  apply Qle_shift_div_l; [done|]. rewrite Qmult_0_l. change 0 with (inject_Z 0).
  rewrite <- Zle_Qle. apply round_int_nonneg. apply Qmult_le_0_compat; lra.
Qed.

Lemma round_q_floor q : 0 <= q -> round_q 0 ToZero q == inject_Z (Qfloor q).
Proof.
  intros H. unfold round_q. cbn [round_int].
  assert (q * pow10 0 == q) as E by (rewrite pow10_0; ring).
  rewrite (proj2 (Qle_bool_iff 0 (q * pow10 0))) by (rewrite E; done).
  rewrite (Qfloor_comp _ _ E), pow10_0. field.
Qed.

(** ** Sums *)

Definition sumQ {A} (f : A -> Q) (l : list A) : Q := foldr (fun a s => f a + s) 0 l.

Lemma sumQ_cons {A} (f : A -> Q) a l : sumQ f (a :: l) = f a + sumQ f l.
Proof. reflexivity. Qed.

Lemma sumQ_nonneg {A} (f : A -> Q) (l : list A) :
  (forall a, a ∈ l -> 0 <= f a) -> 0 <= sumQ f l.
Proof.
  induction l as [|a l IH]; intros H; [apply Qle_refl|]. rewrite sumQ_cons.
  assert (0 <= f a) by (apply H; left). assert (0 <= sumQ f l) by (apply IH; intros; apply H; by right).
  lra.
Qed.

Lemma sumQ_le {A} (f g : A -> Q) (l : list A) :
  (forall a, a ∈ l -> f a <= g a) -> sumQ f l <= sumQ g l.
Proof.
  induction l as [|a l IH]; intros H; [apply Qle_refl|]. rewrite !sumQ_cons.
  assert (f a <= g a) by (apply H; left).
  assert (sumQ f l <= sumQ g l) by (apply IH; intros; apply H; by right). lra.
Qed.

Lemma sumQ_elem {A} (f : A -> Q) (l : list A) a :
  a ∈ l -> (forall b, b ∈ l -> 0 <= f b) -> f a <= sumQ f l.
Proof.
  induction l as [|b l IH]; intros Ha Hl; [by apply not_elem_of_nil in Ha|]. rewrite sumQ_cons.
  assert (0 <= f b) by (apply Hl; left).
  assert (0 <= sumQ f l) by (apply sumQ_nonneg; intros; apply Hl; by right).
  apply elem_of_cons in Ha as [->|Ha]; [lra|].
  assert (f a <= sumQ f l) by (apply IH; [done|]; intros; apply Hl; by right). lra.
Qed.

Lemma sumQ_affine {A} (f : A -> Q) (c d : Q) (l : list A) :
  sumQ (fun a => c * f a + d) l == c * sumQ f l + inject_Z (Z.of_nat (length l)) * d.
Proof.
  induction l as [|a l IH]; [cbn; ring|]. rewrite !sumQ_cons, IH. cbn [length].
  rewrite Nat2Z.inj_succ. unfold Z.succ. rewrite inject_Z_plus. change (inject_Z 1) with 1. ring.
Qed.

Lemma sumZ_inject {A} (f : A -> Z) (l : list A) :
  inject_Z (sumZ f l) == sumQ (fun a => inject_Z (f a)) l.
Proof.
  induction l as [|a l IH]; [done|]. rewrite sumZ_cons, sumQ_cons, inject_Z_plus. by rewrite IH.
Qed.

(** Multiples of [10 ^ -s]. *)
Definition on_grid (s : nat) (q : Q) : Prop := exists m, q == inject_Z m / pow10 s.

Lemma on_grid_add s p q : on_grid s p -> on_grid s q -> on_grid s (p + q).
Proof.
  intros [m Hm] [k Hk]. exists (m + k)%Z. rewrite Hm, Hk, inject_Z_plus.
  pose proof (pow10_pos s). field. lra.
Qed.

Lemma sumQ_permutation {A} (f : A -> Q) (l l' : list A) : l ≡ₚ l' -> sumQ f l == sumQ f l'.
Proof.
  induction 1 as [|a l l' _ IH|a b l|l1 l2 l3 _ IH1 _ IH2]; rewrite ?sumQ_cons; [done| | |].
  - by rewrite IH.
  - ring.
  - by rewrite IH1.
Qed.

Lemma sumQ_app {A} (f : A -> Q) (l l' : list A) : sumQ f (l ++ l') == sumQ f l + sumQ f l'.
Proof. induction l as [|a l IH]; cbn [app]; rewrite ?sumQ_cons; [cbn; ring|]. rewrite IH. ring. Qed.

Lemma sumQ_insert {K V} `{Countable K} (f : K * V -> Q) (m : gmap K V) k v :
  sumQ f (map_to_list (<[k := v]> m)) ==
  sumQ f (map_to_list m) - from_option (fun o => f (k, o)) 0 (m !! k) + f (k, v).
Proof.
  assert (sumQ f (map_to_list (<[k := v]> m)) == f (k, v) + sumQ f (map_to_list (delete k m))) as ->.
  { rewrite <- insert_delete_eq, (sumQ_permutation f _ ((k, v) :: map_to_list (delete k m))).
    - by rewrite sumQ_cons.
    - apply map_to_list_insert, lookup_delete_eq. }
  destruct (m !! k) as [o|] eqn:E; cbn.
  - rewrite <- (sumQ_permutation f _ _ (map_to_list_delete m k o E)), sumQ_cons. ring.
  - rewrite delete_id by done. ring.
Qed.

Lemma on_grid_sum {A} (s : nat) (f : A -> Q) (l : list A) :
  (forall a, a ∈ l -> on_grid s (f a)) -> on_grid s (sumQ f l).
Proof.
  induction l as [|a l IH]; intros H.
  - exists 0%Z. change (0 == 0 / pow10 s). pose proof (pow10_pos s). field. lra.
  - rewrite sumQ_cons. apply on_grid_add; [apply H; left|]. apply IH. intros b Hb. apply H. by right.
Qed.

Lemma on_grid_eq s p q : p == q -> on_grid s p -> on_grid s q.
Proof. intros E [m Hm]. exists m. by rewrite <- E. Qed.

Lemma sumQ_filter_le {A} (f : A -> Q) (P : A -> bool) (l : list A) :
  (forall a, a ∈ l -> 0 <= f a) -> 0 <= sumQ f (List.filter P l) <= sumQ f l.
Proof.
  induction l as [|a l IH]; intros H; [cbn; lra|]. rewrite sumQ_cons.
  pose proof (H a ltac:(left)) as Ha.
  destruct IH as [H0 H1]; [intros b Hb; apply H; by right|].
  cbn [List.filter]. destruct (P a); rewrite ?sumQ_cons; lra.
Qed.

Lemma sumQ_fmap {A B} (f : B -> Q) (g : A -> B) (l : list A) : sumQ f (g <$> l) = sumQ (fun a => f (g a)) l.
Proof. induction l as [|a l IH]; [done|]. cbn [fmap list_fmap]. by rewrite !sumQ_cons, IH. Qed.

Lemma sumQ_bound {A} (f : A -> Q) (l : list A) c :
  (forall a, a ∈ l -> f a <= c) -> sumQ f l <= inject_Z (Z.of_nat (length l)) * c.
Proof.
  induction l as [|a l IH]; intros H; [change (0 <= 0 * c); lra|]. rewrite sumQ_cons. cbn [length].
  rewrite Nat2Z.inj_succ, <- Z.add_1_r, inject_Z_plus.
  assert (f a <= c) by (apply H; left). assert (sumQ f l <= inject_Z (Z.of_nat (length l)) * c)
    by (apply IH; intros b Hb; apply H; by right).
  change (inject_Z 1) with 1. lra.
Qed.

Lemma on_grid_weaken q : on_grid 8 q -> on_grid 10 q.
Proof.
  intros [m Hm]. exists (m * 100)%Z. rewrite Hm, inject_Z_mult.
  change (pow10 10) with (10000000000 # 1). change (pow10 8) with (100000000 # 1).
  change (inject_Z 100) with (100 # 1). field.
Qed.

(** A multiple of [10 ^ -10] that is not negative is zero or at least that. *)
Lemma on_grid_cases q : on_grid 10 q -> 0 <= q -> q == 0 \/ (1 # 10000000000) <= q.
Proof.
  intros [m Hm] H. assert (q == inject_Z m * (1 # 10000000000)) as E
    by (rewrite Hm; change (pow10 10) with (10000000000 # 1); field).
  destruct (Z.le_gt_cases m 0) as [Hle|Hgt].
  - left. assert (inject_Z m <= inject_Z 0) as H1 by (by rewrite <- Zle_Qle).
    change (inject_Z 0) with 0 in H1. lra.
  - right. assert (inject_Z 1 <= inject_Z m) as H1 by (rewrite <- Zle_Qle; lia).
    change (inject_Z 1) with 1 in H1. lra.
Qed.

Section Laws.
Context {dec : Type} `{!Decimal dec, !DecimalLaws dec}.
Implicit Types (a b : dec).

Lemma dec_of_Z_val z : (Z.abs z < 2 ^ 63)%Z -> dval (dec_of_Z z) == inject_Z z.
Proof.
  intros Hz. unfold dec_of_Z. rewrite dec_new_val by (done || lia). rewrite pow10_0. field.
Qed.

Lemma dec_zero_val : dval dec_zero == 0.
Proof. apply dec_of_Z_val. done. Qed.

Lemma dgtb_val a b : dgtb a b = true <-> dval b < dval a.
Proof.
  unfold dgtb. destruct (dleb a b) eqn:E; cbn.
  - apply dleb_val in E. split; [done|lra].
  - split; [|done]. intros _. apply Qnot_le_lt. intros H. apply dleb_val in H. congruence.
Qed.

(** An addition whose result has at most ten decimals and is not huge is exact. *)
Lemma dadd_exact a b :
  on_grid 10 (dval a) -> on_grid 10 (dval b) -> 0 <= dval a + dval b ->
  dval a + dval b <= inject_Z (10 ^ 18) -> dval (dadd a b) == dval a + dval b.
Proof.
  intros Ha Hb H0 H1. destruct (on_grid_add 10 _ _ Ha Hb) as [m Hm].
  rewrite dadd_val.
  2: { rewrite Qabs_pos by done. apply Qle_trans with (1 := H1). unfold dec_max. rewrite <- Zle_Qle. lia. }
  pose proof (rnd_proper _ add_rounding) as Hp. rewrite Hm. apply (rnd_exact _ add_rounding); [|lia].
  rewrite Hm in H0, H1. pose proof (pow10_pos 10) as Hpos.
  assert (inject_Z m == (inject_Z m / pow10 10) * pow10 10) as Em by (field; lra).
  assert (0 <= inject_Z m) as H2 by (rewrite Em; apply Qmult_le_0_compat; lra).
  assert (inject_Z m <= inject_Z (10 ^ 18) * pow10 10) as H3
    by (rewrite Em; apply Qmult_le_compat_r; [done|lra]).
  unfold pow10 in H3. rewrite <- inject_Z_mult, <- Zle_Qle in H3.
  change 0 with (inject_Z 0) in H2. rewrite <- Zle_Qle in H2. cbn in H3. lia.
Qed.

Definition dec_sum {A} (f : A -> dec) (l : list A) : dec :=
  fold_left (fun acc x => dadd acc (f x)) l dec_zero.

Lemma fold_dadd_exact {A} (f : A -> dec) (l : list A) acc :
  (forall x, x ∈ l -> on_grid 10 (dval (f x)) /\ 0 <= dval (f x)) ->
  on_grid 10 (dval acc) -> 0 <= dval acc ->
  dval acc + sumQ (fun x => dval (f x)) l <= inject_Z (10 ^ 18) ->
  dval (fold_left (fun acc x => dadd acc (f x)) l acc) == dval acc + sumQ (fun x => dval (f x)) l.
Proof.
  revert acc. induction l as [|x l IH]; intros acc Hl Hg H0 Hs; [cbn; ring|].
  rewrite sumQ_cons in Hs. cbn [fold_left].
  destruct (Hl x ltac:(left)) as [Hgx H0x].
  assert (0 <= sumQ (fun x => dval (f x)) l) as Hrest
    by (apply sumQ_nonneg; intros y Hy; by apply Hl; right).
  assert (dval (dadd acc (f x)) == dval acc + dval (f x)) as E by (apply dadd_exact; try done; lra).
  rewrite IH.
  - rewrite sumQ_cons, E. ring.
  - intros y Hy. apply Hl. by right.
  - destruct (on_grid_add 10 _ _ Hg Hgx) as [m Hm]. exists m. by rewrite E.
  - lra.
  - lra.
Qed.

Lemma dec_sum_exact {A} (f : A -> dec) (l : list A) :
  (forall x, x ∈ l -> on_grid 10 (dval (f x)) /\ 0 <= dval (f x)) ->
  sumQ (fun x => dval (f x)) l <= inject_Z (10 ^ 18) ->
  dval (dec_sum f l) == sumQ (fun x => dval (f x)) l.
Proof.
  intros Hl Hs. pose proof dec_zero_val as Hz. unfold dec_sum. rewrite fold_dadd_exact; [lra|done| |lra|lra].
  exists 0%Z. rewrite Hz. reflexivity.
Qed.
End Laws.

(** ** Shares of a pot

    A pot [T] is divided by the total number of shares [S] with fifteen
    decimals, and a holder of [x] shares gets the product, truncated. *)

Section Shares.
Context {dec : Type} `{!Decimal dec, !DecimalLaws dec}.
Implicit Types (T S x rps : dec).

Definition share_rate T S : dec := round_dp 15 MidpointNearestEven (ddiv T S).
Definition share_payout rps x : Z := to_u64_or_0 (round_dp 0 ToZero (dmul rps x)).

(** What the theorems assume of a pot and its shares: no division overflows. *)
Definition pot_ok T S : Prop :=
  0 <= dval T <= inject_Z (10 ^ 15) /\ (1 # 10000000000) <= dval S <= inject_Z (10 ^ 13).

Lemma share_rate_near T S :
  pot_ok T S ->
  let u := dval T / dval S in
  let e := u * (1 # 1000000000000000000000000000) + (51 # 100000000000000000) in
  0 <= dval (share_rate T S) /\ u - e <= dval (share_rate T S) <= u + e.
Proof.
  intros [[HT0 HT1] [HS0 HS1]] u e. unfold share_rate.
  assert (0 < dval S) as HS by lra.
  assert (0 <= u) as Hu0 by (apply Qle_shift_div_l; [done|]; lra).
  assert (u <= inject_Z (10 ^ 25)) as Hu1.
  { apply Qle_shift_div_r; [done|]. change (inject_Z (10 ^ 15)) with (1000000000000000 # 1) in HT1.
    change (inject_Z (10 ^ 25)) with (10000000000000000000000000 # 1). lra. }
  assert (u <= dec_max) as Hmax by (apply Qle_trans with (1 := Hu1); unfold dec_max; rewrite <- Zle_Qle; lia).
  assert (dval (ddiv T S) == div_rnd u) as Ed.
  { apply ddiv_val; [lra|]. fold u. by rewrite Qabs_pos. }
  pose proof (rnd_upper _ div_rounding u Hu0 Hmax) as H1.
  pose proof (rnd_lower _ div_rounding u Hu0 Hmax) as H2.
  pose proof (rnd_nonneg _ div_rounding u Hu0) as H3. rewrite dec_err_pos in H1, H2 by done.
  pose proof (round_q_near 15 (dval (ddiv T S))) as H4. apply Qabs_Qle_condition in H4 as [H4 H5].
  pose proof (round_q_nonneg 15 MidpointNearestEven (dval (ddiv T S))) as H6.
  rewrite round_dp_val. rewrite Ed in H4, H5, H6 |- *. specialize (H6 H3).
  change ((1 # 2) / pow10 15) with ((1 # 2) / (1000000000000000 # 1)) in H4, H5.
  assert ((1 # 2) / (1000000000000000 # 1) == 1 # 2000000000000000) as E15 by reflexivity.
  unfold e. rewrite E15 in H4, H5. split; [done|]. lra.
Qed.

Lemma to_u64_floor a : 0 <= dval a -> dval a < inject_Z (2 ^ 64) ->
  to_u64_or_0 (round_dp 0 ToZero a) = Qfloor (dval a).
Proof.
  intros H0 H1. rewrite to_u64_val.
  assert (dval (round_dp 0 ToZero a) == inject_Z (Qfloor (dval a))) as E
    by (rewrite round_dp_val; by apply round_q_floor).
  rewrite (Qfloor_comp _ _ E), Qfloor_Z.
  rewrite (Qle_bool_comp 0 0 _ _ (Qeq_refl 0) E).
  pose proof (Qfloor_nonneg _ H0) as Hf.
  rewrite (proj2 (Qle_bool_iff 0 (inject_Z (Qfloor (dval a)))))
    by (change 0 with (inject_Z 0); by rewrite <- Zle_Qle).
  rewrite (proj2 (Z.ltb_lt _ _)); [done|].
  rewrite Zlt_Qlt. apply Qle_lt_trans with (2 := H1). apply Qfloor_le.
Qed.

Lemma to_u64_nonpos a : dval a <= 0 -> to_u64_or_0 (round_dp 0 ToZero a) = 0%Z.
Proof.
  intros H. rewrite to_u64_val. set (y := dval (round_dp 0 ToZero a)).
  assert (y <= 0) as Hy.
  { unfold y. rewrite round_dp_val. destruct (Qlt_le_dec (dval a) 0) as [Hn|Hz].
    - unfold round_q. cbn [round_int].
      assert (dval a * pow10 0 == dval a) as E by (rewrite pow10_0; ring).
      rewrite (Qle_bool_comp 0 0 _ _ (Qeq_refl 0) E), (proj2 (Qle_bool_false 0 (dval a)) Hn).
      rewrite (Qceiling_comp _ _ E), pow10_0.
      assert (Qceiling (dval a) <= 0)%Z as Hc
        by (change 0%Z with (Qceiling 0); by apply Qceiling_resp_le).
      assert (inject_Z (Qceiling (dval a)) <= inject_Z 0) as Hc' by (by rewrite <- Zle_Qle).
      change (inject_Z 0) with 0 in Hc'. assert (inject_Z (Qceiling (dval a)) / 1 == inject_Z (Qceiling (dval a)))
        as -> by field. done.
    - rewrite round_q_floor by done. assert (Qfloor (dval a) <= 0)%Z as Hf
        by (change 0%Z with (Qfloor 0); by apply Qfloor_resp_le).
      change 0 with (inject_Z 0). by rewrite <- Zle_Qle. }
  destruct (Qle_bool 0 y) eqn:E0; [|done]. apply Qle_bool_iff in E0.
  assert (y == 0) as Ey by lra. rewrite (Qfloor_comp _ _ Ey). done.
Qed.

(** A product within a pot, truncated. *)
Lemma share_payout_product rps x :
  let w := dval rps * dval x in
  let e := w * (1 # 1000000000000000000000000000) + (1 # 10000000000000000000000000000) in
  0 <= w -> w <= inject_Z (10 ^ 16) ->
  w - e - 1 < inject_Z (share_payout rps x) <= w + e /\ (0 <= share_payout rps x)%Z.
Proof.
  intros w e H0 H1. unfold share_payout.
  assert (w <= dec_max) as Hmax
    by (apply Qle_trans with (1 := H1); unfold dec_max; rewrite <- Zle_Qle; lia).
  assert (dval (dmul rps x) == mul_rnd w) as Em by (apply dmul_val; fold w; by rewrite Qabs_pos).
  pose proof (rnd_upper _ mul_rounding w H0 Hmax) as H2.
  pose proof (rnd_lower _ mul_rounding w H0 Hmax) as H3.
  pose proof (rnd_nonneg _ mul_rounding w H0) as H4. rewrite dec_err_pos in H2, H3 by done.
  change (inject_Z (10 ^ 16)) with (10000000000000000 # 1) in H1.
  rewrite to_u64_floor.
  2: { by rewrite Em. }
  2: { rewrite Em. change (inject_Z (2 ^ 64)) with (18446744073709551616 # 1). lra. }
  pose proof (Qfloor_bounds (dval (dmul rps x))) as [H5 H6]. rewrite Em in H5 at 2. rewrite Em in H6 at 1.
  split; [unfold e; lra|]. apply Qfloor_nonneg. by rewrite Em.
Qed.

(** The exact share of the pot. *)
Definition exact_share T S x : Q := dval T / dval S * dval x.

Lemma exact_share_bounds T S x :
  pot_ok T S -> 0 <= dval x <= dval S -> 0 <= exact_share T S x <= dval T.
Proof.
  intros [[HT0 HT1] [HS0 HS1]] [Hx0 Hx1]. unfold exact_share.
  assert (0 < dval S) as HS by lra.
  assert (0 <= dval T / dval S) as Hu by (apply Qle_shift_div_l; [done|]; lra).
  split; [by apply Qmult_le_0_compat|].
  assert (dval T == dval T / dval S * dval S) as E by (field; lra).
  rewrite E at 2. rewrite !(Qmult_comm (dval T / dval S)). by apply Qmult_le_compat_r.
Qed.

(** Every holder gets the exact share to within one unit below and a hundredth
    above. *)
Lemma share_payout_near T S x :
  pot_ok T S -> 0 <= dval x <= dval S ->
  exact_share T S x - 1 - (1 # 100) < inject_Z (share_payout (share_rate T S) x)
  <= exact_share T S x + (1 # 100) /\ (0 <= share_payout (share_rate T S) x)%Z.
Proof.
  intros Hp Hx. pose proof (exact_share_bounds T S x Hp Hx) as [Hq0 Hq1].
  destruct (share_rate_near T S Hp) as (Hr0 & Hr1 & Hr2).
  pose proof Hp as [[_ HT1] [_ HS1]]. destruct Hx as [Hx0 Hx1].
  change (inject_Z (10 ^ 15)) with (1000000000000000 # 1) in HT1.
  change (inject_Z (10 ^ 13)) with (10000000000000 # 1) in HS1.
  unfold exact_share in *. set (u := dval T / dval S) in *. set (k := dval (share_rate T S)) in *.
  assert (k * dval x <= (u + (u * (1 # 1000000000000000000000000000) + (51 # 100000000000000000))) * dval x) as H1
    by (apply Qmult_le_compat_r; lra).
  assert ((u - (u * (1 # 1000000000000000000000000000) + (51 # 100000000000000000))) * dval x <= k * dval x) as H2
    by (apply Qmult_le_compat_r; lra).
  assert (0 <= k * dval x) as H3 by (apply Qmult_le_0_compat; lra).
  set (q := u * dval x) in *. set (w := k * dval x) in *.
  assert ((u + (u * (1 # 1000000000000000000000000000) + (51 # 100000000000000000))) * dval x ==
    q + q * (1 # 1000000000000000000000000000) + (51 # 100000000000000000) * dval x) as E1 by (unfold q; ring).
  assert ((u - (u * (1 # 1000000000000000000000000000) + (51 # 100000000000000000))) * dval x ==
    q - q * (1 # 1000000000000000000000000000) - (51 # 100000000000000000) * dval x) as E2 by (unfold q; ring).
  rewrite E1 in H1. rewrite E2 in H2.
  destruct (share_payout_product (share_rate T S) x) as [[H4 H5] H6].
  - exact H3.
  - fold k. fold w. change (inject_Z (10 ^ 16)) with (10000000000000000 # 1). lra.
  - fold k in H4, H5. fold w in H4, H5. split; [lra|done].
Qed.

(** All payouts together exceed the pot by less than a hundredth. *)
Lemma share_payouts_bound {A} (f : A -> dec) (l : list A) T S :
  pot_ok T S -> (forall a, a ∈ l -> 0 <= dval (f a)) ->
  dval S == sumQ (fun a => dval (f a)) l -> (Z.of_nat (length l) <= 10 ^ 20)%Z ->
  inject_Z (sumZ (fun a => share_payout (share_rate T S) (f a)) l) <= dval T + (1 # 100).
Proof.
  intros Hp Hl HS Hn.
  destruct (share_rate_near T S Hp) as (Hr0 & _ & Hr2).
  pose proof Hp as [[HT0 HT1] [HS0 HS1]].
  change (inject_Z (10 ^ 15)) with (1000000000000000 # 1) in HT1.
  change (inject_Z (10 ^ 13)) with (10000000000000 # 1) in HS1.
  set (k := dval (share_rate T S)) in *.
  assert (k * dval S <= dval T + dval T * (1 # 1000000000000000000000000000) + (51 # 100000000000000000) * dval S) as Hk.
  { apply Qle_trans with ((dval T / dval S + (dval T / dval S * (1 # 1000000000000000000000000000) +
      (51 # 100000000000000000))) * dval S); [apply Qmult_le_compat_r; lra|].
    apply Qeq_le. field. lra. }
  assert (forall a, a ∈ l -> dval (f a) <= dval S) as Hle.
  { intros a Ha. rewrite HS. apply (sumQ_elem (fun b => dval (f b))); [done|]. intros b Hb. by apply Hl. }
  rewrite sumZ_inject.
  apply Qle_trans with (sumQ (fun a => (k * (1 + (1 # 1000000000000000000000000000))) * dval (f a) + (1 # 10000000000000000000000000000)) l).
  - apply sumQ_le. intros a Ha. specialize (Hl a Ha); specialize (Hle a Ha).
    assert (0 <= k * dval (f a)) as H0 by (by apply Qmult_le_0_compat).
    assert (k * dval (f a) <= k * dval S) as H1
      by (rewrite !(Qmult_comm k); by apply Qmult_le_compat_r).
    destruct (share_payout_product (share_rate T S) (f a)) as [[_ H5] _].
    + exact H0.
    + fold k. change (inject_Z (10 ^ 16)) with (10000000000000000 # 1). lra.
    + fold k in H5. apply Qle_trans with (1 := H5). apply Qeq_le. ring.
  - rewrite sumQ_affine, <- HS.
    assert (inject_Z (Z.of_nat (length l)) <= (100000000000000000000 # 1)) as Hn'
      by (change (100000000000000000000 # 1) with (inject_Z (10 ^ 20)); by rewrite <- Zle_Qle).
    assert (k * (1 + (1 # 1000000000000000000000000000)) * dval S == k * dval S + (k * dval S) * (1 # 1000000000000000000000000000)) as -> by ring.
    lra.
Qed.
End Shares.

(** ** Operations with their error *)

Lemma Qmult_near x y d s M :
  y - d <= x <= y + d -> 0 <= s <= M -> 0 <= d -> y * s - d * M <= x * s <= y * s + d * M.
Proof.
  intros [H1 H2] [H3 H4] H5.
  assert ((y - d) * s <= x * s) by (apply Qmult_le_compat_r; lra).
  assert (x * s <= (y + d) * s) by (apply Qmult_le_compat_r; lra).
  assert (s * d <= M * d) by (by apply Qmult_le_compat_r).
  assert ((y - d) * s == y * s - s * d) by ring. assert ((y + d) * s == y * s + s * d) by ring.
  assert (d * M == M * d) by ring. lra.
Qed.

Lemma Qmult_bounds x y a b : 0 <= x <= a -> 0 <= y <= b -> 0 <= x * y <= a * b.
Proof.
  intros [Hx0 Hx1] [Hy0 Hy1]. split; [by apply Qmult_le_0_compat|].
  apply Qle_trans with (a * y); [by apply Qmult_le_compat_r|].
  rewrite !(Qmult_comm a). apply Qmult_le_compat_r; [done|lra].
Qed.

(** [x] is [q] up to the rounding error at [q]. *)
Definition near (x q : Q) : Prop :=
  q - (q * (1 # 1000000000000000000000000000) + (1 # 10000000000000000000000000000)) <= x <= q + (q * (1 # 1000000000000000000000000000) + (1 # 10000000000000000000000000000)).

Section Near.
Context {dec : Type} `{!Decimal dec, !DecimalLaws dec}.
Implicit Types (a b : dec).

Lemma rounding_near r q :
  rounding r -> 0 <= q -> q <= inject_Z (10 ^ 28) -> 0 <= r q /\ near (r q) q.
Proof.
  intros Hr H0 H1.
  assert (q <= dec_max) as Hmax
    by (apply Qle_trans with (1 := H1); unfold dec_max; rewrite <- Zle_Qle; lia).
  pose proof (rnd_upper _ Hr q H0 Hmax) as H2. pose proof (rnd_lower _ Hr q H0 Hmax) as H3.
  rewrite dec_err_pos in H2, H3 by done. split; [by apply rnd_nonneg|]. split; lra.
Qed.

Lemma abs_max q : 0 <= q -> q <= inject_Z (10 ^ 28) -> Qabs q <= dec_max.
Proof.
  intros H0 H1. rewrite Qabs_pos by done. apply Qle_trans with (1 := H1).
  unfold dec_max. rewrite <- Zle_Qle. lia.
Qed.

Lemma dadd_near a b :
  0 <= dval a + dval b -> dval a + dval b <= inject_Z (10 ^ 28) ->
  0 <= dval (dadd a b) /\ near (dval (dadd a b)) (dval a + dval b).
Proof.
  intros H0 H1. pose proof (dadd_val a b (abs_max _ H0 H1)) as E.
  pose proof (rounding_near _ _ add_rounding H0 H1) as H. unfold near in *. by rewrite E.
Qed.

Lemma dsub_near a b :
  0 <= dval a - dval b -> dval a - dval b <= inject_Z (10 ^ 28) ->
  0 <= dval (dsub a b) /\ near (dval (dsub a b)) (dval a - dval b).
Proof.
  intros H0 H1. pose proof (dsub_val a b (abs_max _ H0 H1)) as E.
  pose proof (rounding_near _ _ add_rounding H0 H1) as H. unfold near in *. by rewrite E.
Qed.

Lemma dmul_near a b :
  0 <= dval a * dval b -> dval a * dval b <= inject_Z (10 ^ 28) ->
  0 <= dval (dmul a b) /\ near (dval (dmul a b)) (dval a * dval b).
Proof.
  intros H0 H1. pose proof (dmul_val a b (abs_max _ H0 H1)) as E.
  pose proof (rounding_near _ _ mul_rounding H0 H1) as H. unfold near in *. by rewrite E.
Qed.

Lemma ddiv_near a b :
  0 < dval b -> 0 <= dval a / dval b -> dval a / dval b <= inject_Z (10 ^ 28) ->
  0 <= dval (ddiv a b) /\ near (dval (ddiv a b)) (dval a / dval b).
Proof.
  intros Hb H0 H1. assert (~ dval b == 0) as Hn by lra. pose proof (ddiv_val a b Hn (abs_max _ H0 H1)) as E.
  pose proof (rounding_near _ _ div_rounding H0 H1) as H. unfold near in *. by rewrite E.
Qed.

Lemma round15_near a :
  0 <= dval a -> 0 <= dval (round_dp 15 MidpointNearestEven a) /\
  dval a - (1 # 2000000000000000) <= dval (round_dp 15 MidpointNearestEven a)
  <= dval a + (1 # 2000000000000000).
Proof.
  intros H. pose proof (round_q_near 15 (dval a)) as H4. apply Qabs_Qle_condition in H4 as [H4 H5].
  pose proof (round_q_nonneg 15 MidpointNearestEven (dval a) H) as H6.
  rewrite round_dp_val. assert ((1 # 2) / pow10 15 == 1 # 2000000000000000) as E15 by reflexivity.
  rewrite E15 in H4, H5. split; [done|]. lra.
Qed.
(** [(total - Decimal::from(allocated))] rounded to zero, as [u64] or 0. *)
Definition unallocated_amount (total : dec) (allocated : Z) : Z :=
  to_u64_or_0 (round_dp 0 ToZero (total - dec_of_Z allocated)%dec).

(** What is left of a total. *)
Lemma unallocated_spec (total : dec) allocated :
  0 <= dval total <= inject_Z (10 ^ 16) -> (0 <= allocated < 2 ^ 62)%Z ->
  (0 <= unallocated_amount total allocated)%Z /\
  (inject_Z allocated <= dval total ->
     dval total - inject_Z allocated - 1 - (1 # 1000) < inject_Z (unallocated_amount total allocated)
     <= dval total - inject_Z allocated + (1 # 1000)) /\
  (dval total < inject_Z allocated -> unallocated_amount total allocated = 0%Z).
Proof.
  intros [H0 H1] Ha. unfold unallocated_amount.
  pose proof (dec_of_Z_val (dec := dec) allocated ltac:(lia)) as Ea.
  set (x := (total - dec_of_Z allocated)%dec).
  assert (0 <= inject_Z allocated) as Ha0 by (change 0 with (inject_Z 0); rewrite <- Zle_Qle; lia).
  assert (inject_Z (10 ^ 16) <= inject_Z (10 ^ 28)) as Hbig by (rewrite <- Zle_Qle; lia).
  destruct (Qlt_le_dec (dval total) (inject_Z allocated)) as [Hlt|Hle].
  - assert (dval x <= 0) as Hx.
    { assert (Qabs (dval total - dval (dec_of_Z allocated)) <= dec_max) as Habs.
      { rewrite Ea. rewrite Qabs_neg by lra. unfold dec_max.
        assert (inject_Z allocated <= inject_Z (2 ^ 62)) by (rewrite <- Zle_Qle; lia).
        apply Qle_trans with (inject_Z (2 ^ 62)); [lra|]. rewrite <- Zle_Qle. lia. }
      pose proof (dsub_val total (dec_of_Z allocated) Habs) as E. fold x in E.
      pose proof (rnd_proper _ add_rounding) as Hprop. rewrite E, Ea.
      pose proof (rnd_int _ add_rounding 0 ltac:(done)) as Ez. change (inject_Z 0) with 0 in Ez.
      rewrite <- Ez. apply (rnd_mono _ add_rounding). lra. }
    assert (to_u64_or_0 (round_dp 0 ToZero x) = 0%Z) as Ez by (by apply to_u64_nonpos).
    rewrite Ez. split; [done|]. split; [intros; exfalso; lra|done].
  - destruct (dsub_near total (dec_of_Z allocated)) as [Hx0 Hxn].
    { rewrite Ea. lra. }
    { rewrite Ea. lra. }
    fold x in Hx0, Hxn. unfold near in Hxn. rewrite Ea in Hxn. change (inject_Z (10 ^ 16)) with (10000000000000000 # 1) in H1.
    rewrite to_u64_floor; [|done|].
    2: { change (inject_Z (2 ^ 64)) with (18446744073709551616 # 1). lra. }
    pose proof (Qfloor_bounds (dval x)) as [Hf1 Hf2].
    split; [by apply Qfloor_nonneg|]. split; [intros _; lra|intros; exfalso; lra].
Qed.

Lemma ddiv_exact (a b : dec) m s k :
  (Z.abs m < 2 ^ 96)%Z -> (s <= 28)%nat -> (0 < k)%Z ->
  dval b == inject_Z k -> dval a / inject_Z k == inject_Z m / pow10 s ->
  Qabs (inject_Z m / pow10 s) <= dec_max -> dval (a / b)%dec == inject_Z m / pow10 s.
Proof.
  intros Hm Hs Hk Eb Ea Hmax.
  assert (dval a / dval b == inject_Z m / pow10 s) as E by (by rewrite Eb).
  pose proof (rnd_proper _ div_rounding) as Hp.
  assert (~ dval b == 0) as Hb.
  { rewrite Eb. change 0 with (inject_Z 0). rewrite inject_Z_injective. lia. }
  rewrite ddiv_val; [|done|by rewrite E]. rewrite E. by apply (rnd_exact _ div_rounding).
Qed.

(** A price in millionths of a dollar per token, per millionth of a token. *)
Lemma micros_twice_val z :
  (1 <= z < 2 ^ 63)%Z -> dval (dec_of_Z (dec := dec) z / dec_of_Z 1000000 / dec_of_Z 1000000)%dec == inject_Z z / pow10 12.
Proof.
  intros Hz.
  pose proof (dec_of_Z_val (dec := dec) z ltac:(lia)) as Ez.
  pose proof (dec_of_Z_val (dec := dec) 1000000 ltac:(lia)) as E6.
  assert (inject_Z 1 <= inject_Z z /\ inject_Z z <= inject_Z (2 ^ 63)) as [H1 H2]
    by (rewrite <- !Zle_Qle; lia).
  change (inject_Z 1) with 1 in H1. change (inject_Z (2 ^ 63)) with (9223372036854775808 # 1) in H2.
  assert (forall s, 1 <= pow10 s) as Hp.
  { intros s. unfold pow10. change 1 with (inject_Z 1). rewrite <- Zle_Qle.
    pose proof (Z.pow_pos_nonneg 10 (Z.of_nat s) ltac:(lia) ltac:(lia)). lia. }
  assert (forall s, Qabs (inject_Z z / pow10 s) <= dec_max) as Hmax.
  { intros s. specialize (Hp s). rewrite Qabs_pos by (apply Qle_shift_div_l; lra).
    apply Qle_shift_div_r; [lra|]. change dec_max with (79228162514264337593543950335 # 1). lra. }
  assert (dval (dec_of_Z z / dec_of_Z 1000000)%dec == inject_Z z / pow10 6) as E1.
  { apply (ddiv_exact _ _ z 6 1000000); [lia|lia|lia|done| |apply Hmax]. rewrite Ez. reflexivity. }
  apply (ddiv_exact _ _ z 12 1000000); [lia|lia|lia|done| |apply Hmax].
  rewrite E1. change (pow10 12) with (pow10 6 * inject_Z 1000000). pose proof (Hp 6%nat). field. lra.
Qed.
End Near.

(** ** Sums and products with a relative error *)

(** [x] is [q] up to the factors [1 - e] and [1 + e]. *)
Definition rel (e x q : Q) : Prop := 0 <= q /\ q - q * e <= x <= q + q * e.

(** Zero, or not tiny. *)
Definition zero_or_above (c q : Q) : Prop := q == 0 \/ c <= q.

Lemma rel_refl e q : 0 <= e -> 0 <= q -> rel e q q.
Proof. intros He Hq. assert (0 <= q * e) by (by apply Qmult_le_0_compat). split; [done|lra]. Qed.

Lemma rel_nonneg e x q : rel e x q -> e <= 1 -> 0 <= x.
Proof.
  intros [Hq [H _]] He. assert (q * e <= q * 1); [|lra]. rewrite !(Qmult_comm q). by apply Qmult_le_compat_r.
Qed.

Lemma rel_trans e1 e2 e x y q :
  0 <= e1 -> 0 <= e2 <= 1 -> e1 + e2 + e1 * e2 <= e -> rel e1 x y -> rel e2 y q -> rel e x q.
Proof.
  intros H1 [H2 H2'] He [Hy [H3 H4]] [Hq [H5 H6]]. split; [done|].
  assert (y * e1 <= (q + q * e2) * e1) as H7 by (apply Qmult_le_compat_r; lra).
  assert (q * (e1 + e2 + e1 * e2) <= q * e) as H8.
  { rewrite !(Qmult_comm q). by apply Qmult_le_compat_r. }
  assert (q * (e1 + e2 + e1 * e2) == (q + q * e2) * e1 + q * e2) as E by ring.
  lra.
Qed.

Lemma rel_sum {A} e (f g : A -> Q) (l : list A) :
  (forall a, a ∈ l -> rel e (f a) (g a)) -> rel e (sumQ f l) (sumQ g l).
Proof.
  induction l as [|a l IH]; intros H; [unfold rel; cbn; lra|]. rewrite !sumQ_cons.
  destruct (H a ltac:(left)) as [H1 H2]. destruct IH as [H3 H4]; [intros b Hb; apply H; by right|].
  split; [lra|]. assert ((g a + sumQ g l) * e == g a * e + sumQ g l * e) as E by ring. lra.
Qed.

Lemma rel_scale e x q c : 0 <= c -> rel e x q -> rel e (c * x) (c * q).
Proof.
  intros Hc [Hq [H1 H2]]. split; [by apply Qmult_le_0_compat|].
  assert ((q - q * e) * c <= x * c) by (by apply Qmult_le_compat_r).
  assert (x * c <= (q + q * e) * c) by (by apply Qmult_le_compat_r).
  assert ((q - q * e) * c == c * q - c * q * e) by ring. assert ((q + q * e) * c == c * q + c * q * e) by ring.
  assert (x * c == c * x) by ring. lra.
Qed.

Lemma rel_eq e x q x' q' : x == x' -> q == q' -> rel e x q -> rel e x' q'.
Proof. intros Ex Eq [H1 H2]. unfold rel. by rewrite <- Ex, <- Eq. Qed.

Lemma rel_zero_or_above e x q c c' : rel e x q -> zero_or_above c q -> e <= 1 -> c' <= c - c * e -> zero_or_above c' x.
Proof.
  intros [H0 [H1 H2]] Hq He Hc. destruct Hq as [E|H].
  - left. assert (q * e == 0) as E' by (rewrite E; ring). lra.
  - right. assert ((q - c) * e <= (q - c) * 1) as H3 by (rewrite !(Qmult_comm (q - c)); apply Qmult_le_compat_r; lra).
    assert ((q - c) * e == q * e - c * e) by ring. lra.
Qed.

Lemma sumQ_zero_or_above {A} (f : A -> Q) (l : list A) c :
  0 <= c -> (forall a, a ∈ l -> zero_or_above c (f a)) -> zero_or_above c (sumQ f l).
Proof.
  intros Hc. induction l as [|a l IH]; intros H; [by left|]. unfold zero_or_above. rewrite sumQ_cons.
  assert (zero_or_above c (sumQ f l)) as Hl by (apply IH; intros b Hb; apply H; by right).
  destruct (H a ltac:(left)) as [E|Ha], Hl as [E'|Hl]; [left|right|right|right]; lra.
Qed.

Section Relative.
Context {dec : Type} `{!Decimal dec, !DecimalLaws dec}.
Implicit Types (a b : dec).

Lemma whole_comp a b : dval a == dval b -> to_u64_or_0 (round_dp 0 ToZero a) = to_u64_or_0 (round_dp 0 ToZero b).
Proof.
  intros E. assert (dval (round_dp 0 ToZero a) == dval (round_dp 0 ToZero b)) as E' by (by rewrite !round_dp_val, E).
  rewrite !to_u64_val. by rewrite (Qle_bool_comp 0 0 _ _ (Qeq_refl 0) E'), (Qfloor_comp _ _ E').
Qed.

(** Integers are added exactly. *)
Lemma dadd_int a b m n :
  dval a == inject_Z m -> dval b == inject_Z n -> (Z.abs (m + n) < 2 ^ 96)%Z -> dval (dadd a b) == inject_Z (m + n).
Proof.
  intros Ea Eb H. assert (dval a + dval b == inject_Z (m + n)) as E by (rewrite Ea, Eb; by rewrite inject_Z_plus).
  rewrite dadd_val.
  - pose proof (rnd_proper _ add_rounding) as Hp. rewrite E. by apply (rnd_int _ add_rounding).
  - rewrite E. unfold dec_max. apply Qabs_Qle_condition. change (- inject_Z (2 ^ 96 - 1)) with (inject_Z (- (2 ^ 96 - 1))).
    rewrite <- !Zle_Qle. lia.
Qed.

Lemma fold_dadd_int {A} (f : A -> dec) (g : A -> Z) (l : list A) acc m :
  (forall x, x ∈ l -> dval (f x) == inject_Z (g x) /\ (0 <= g x)%Z) -> dval acc == inject_Z m ->
  (0 <= m)%Z -> (m + sumZ g l < 2 ^ 96)%Z ->
  dval (fold_left (fun acc x => dadd acc (f x)) l acc) == inject_Z (m + sumZ g l).
Proof.
  revert acc m. induction l as [|x l IH]; intros acc m Hl Ha Hm Hs.
  - cbn. by rewrite Z.add_0_r.
  - rewrite sumZ_cons in *. cbn [fold_left]. destruct (Hl x ltac:(left)) as [Ex Hx].
    assert (0 <= sumZ g l)%Z by (apply sumZ_nonneg; intros y Hy; apply Hl; by right).
    rewrite (IH _ (m + g x)%Z).
    + by rewrite Z.add_assoc.
    + intros y Hy. apply Hl. by right.
    + apply dadd_int; [done|done|lia].
    + lia.
    + lia.
Qed.

Lemma dec_sum_int {A} (f : A -> dec) (g : A -> Z) (l : list A) :
  (forall x, x ∈ l -> dval (f x) == inject_Z (g x) /\ (0 <= g x)%Z) -> (sumZ g l < 2 ^ 96)%Z ->
  dval (dec_sum f l) == inject_Z (sumZ g l).
Proof. intros Hl Hs. apply (fold_dadd_int f g l _ 0%Z); [done|apply dec_zero_val|lia|lia]. Qed.

(** Every addition of a sum adds an error of at most [d]. *)
Lemma fold_dadd_near {A} (f : A -> dec) (l : list A) acc B :
  let d := B * (1 # 1000000000000000000000000000) + (1 # 10000000000000000000000000000) in
  let n := inject_Z (Z.of_nat (length l)) in
  let s := dval acc + sumQ (fun x => dval (f x)) l in
  (forall x, x ∈ l -> 0 <= dval (f x)) -> 0 <= dval acc -> 0 <= B <= inject_Z (10 ^ 28) -> s + n * d <= B ->
  let r := dval (fold_left (fun acc x => dadd acc (f x)) l acc) in 0 <= r /\ s - n * d <= r <= s + n * d.
Proof.
  intros d n s. unfold n, s. clear n s. revert acc.
  induction l as [|x l IH]; intros acc Hl Ha HB Hs.
  - cbn [fold_left length sumQ foldr]. change (inject_Z (Z.of_nat 0)) with 0. split; [done|]. lra.
  - cbn [fold_left length] in *. rewrite sumQ_cons in *.
    rewrite Nat2Z.inj_succ, <- Z.add_1_r, inject_Z_plus in *. change (inject_Z 1) with 1 in *.
    assert (0 <= inject_Z (Z.of_nat (length l))) as Hn by (change 0 with (inject_Z 0); rewrite <- Zle_Qle; lia).
    set (n := inject_Z (Z.of_nat (length l))) in *. pose proof (Hl x ltac:(left)) as Hx.
    assert (0 <= sumQ (fun y => dval (f y)) l) as Hr by (apply sumQ_nonneg; intros y Hy; apply Hl; by right).
    set (t := sumQ (fun y => dval (f y)) l) in *.
    assert ((n + 1) * d == n * d + d) as Ed by ring. rewrite Ed in *.
    assert (0 <= d) as Hd by (unfold d; lra). assert (0 <= n * d) as Hnd by (by apply Qmult_le_0_compat).
    destruct (dadd_near acc (f x)) as [H0 H1]; [lra|lra|]. unfold near in H1.
    assert (dval acc + dval (f x) <= B) as HaB by lra.
    assert (forall y, y ∈ l -> 0 <= dval (f y)) as Hl' by (intros y Hy; apply Hl; by right).
    assert (dval (dadd acc (f x)) + t + n * d <= B) as Hs' by (unfold d in *; lra).
    destruct (IH (dadd acc (f x)) Hl' H0 HB Hs') as [H2 H3]. unfold d in *. split; [done|]. lra.
Qed.

Lemma length_bound {A} (l : list A) k : (Z.of_nat (length l) <= k)%Z -> 0 <= inject_Z (Z.of_nat (length l)) <= inject_Z k.
Proof. intros H. change 0 with (inject_Z 0). rewrite <- !Zle_Qle. lia. Qed.

(** Sums of up to a hundred million values: their absolute error, and their
    relative error when they are not tiny. *)
Lemma dec_sum_abs {A} (f : A -> dec) (l : list A) :
  let s := sumQ (fun x => dval (f x)) l in
  let e := (s + 1) * (1 # 1000000000000000000) in
  (forall x, x ∈ l -> 0 <= dval (f x)) -> s <= inject_Z (10 ^ 26) -> (Z.of_nat (length l) <= 10 ^ 8)%Z ->
  0 <= s /\ 0 <= dval (dec_sum f l) /\ s - e <= dval (dec_sum f l) <= s + e.
Proof.
  intros s e Hl Hs Hn. assert (0 <= s) as H0 by (by apply sumQ_nonneg).
  pose proof (length_bound l _ Hn) as Hn'. change (inject_Z (10 ^ 8)) with (100000000 # 1) in Hn'.
  change (inject_Z (10 ^ 26)) with (100000000000000000000000000 # 1) in Hs.
  pose proof (fold_dadd_near f l dec_zero (2 * s + 1)) as H. cbv zeta in H. fold s in H.
  pose proof (dec_zero_val (dec := dec)) as Ez. set (n := inject_Z _) in *.
  set (d := (2 * s + 1) * (1 # 1000000000000000000000000000) + (1 # 10000000000000000000000000000)) in *.
  assert (n * d <= (100000000 # 1) * d) as Hd by (apply Qmult_le_compat_r; unfold d; lra).
  destruct H as [H1 H2]; [done|lra|change (inject_Z (10 ^ 28)) with (10000000000000000000000000000 # 1); lra| |].
  - unfold d in *. lra.
  - fold (dec_sum f l) in H1, H2. split; [done|]. split; [done|]. unfold e, d in *. lra.
Qed.

Lemma dec_sum_zero {A} (f : A -> dec) (l : list A) :
  (forall x, x ∈ l -> dval (f x) == 0) -> dval (dec_sum f l) == 0.
Proof.
  intros Hl. assert (sumZ (fun _ : A => 0%Z) l = 0%Z) as E by (clear; induction l; [done|]; by rewrite sumZ_cons).
  rewrite (dec_sum_int f (fun _ => 0%Z)); rewrite ?E; [done| |done]. intros x Hx. split; [by apply Hl|done].
Qed.

Lemma sumQ_zero {A} (f : A -> Q) (l : list A) :
  (forall x, x ∈ l -> 0 <= f x) -> sumQ f l == 0 -> forall x, x ∈ l -> f x == 0.
Proof. intros Hl E x Hx. pose proof (sumQ_elem f l x Hx Hl). pose proof (Hl x Hx). lra. Qed.

Lemma dec_sum_rel {A} (f : A -> dec) (l : list A) :
  let s := sumQ (fun x => dval (f x)) l in
  (forall x, x ∈ l -> 0 <= dval (f x)) -> zero_or_above (1 # 100) s -> s <= inject_Z (10 ^ 27) ->
  (Z.of_nat (length l) <= 10 ^ 8)%Z -> rel (2 # 1000000000000000000) (dval (dec_sum f l)) s.
Proof.
  intros s Hl [E|Hc] Hs Hn.
  - pose proof (dec_sum_zero f l (sumQ_zero (fun x => dval (f x)) l Hl E)) as E'. unfold rel. rewrite E, E'. lra.
  - pose proof (length_bound l _ Hn) as Hn'. change (inject_Z (10 ^ 8)) with (100000000 # 1) in Hn'.
    change (inject_Z (10 ^ 27)) with (1000000000000000000000000000 # 1) in Hs.
    pose proof (fold_dadd_near f l dec_zero (2 * s)) as H. cbv zeta in H. fold s in H.
    pose proof (dec_zero_val (dec := dec)) as Ez. set (n := inject_Z _) in *.
    set (d := (2 * s) * (1 # 1000000000000000000000000000) + (1 # 10000000000000000000000000000)) in *.
    assert (n * d <= (100000000 # 1) * d) as Hd by (apply Qmult_le_compat_r; unfold d; lra).
    destruct H as [H1 H2]; [done|lra|change (inject_Z (10 ^ 28)) with (10000000000000000000000000000 # 1); lra| |].
    + unfold d in *. lra.
    + fold (dec_sum f l) in H1, H2. split; [lra|]. unfold d in *. lra.
Qed.

Lemma dmul_rel a b :
  let q := dval a * dval b in
  0 <= q <= inject_Z (10 ^ 28) -> zero_or_above (1 # 100) q -> rel (2 # 100000000000000000000000000) (dval (dmul a b)) q.
Proof.
  intros q [H0 H1] [E|Hc].
  - assert (Qabs q <= dec_max) as Hmax by (rewrite Qabs_pos by done; rewrite E; discriminate).
    pose proof (dmul_val a b Hmax) as Em. pose proof (rnd_proper _ mul_rounding) as Hp. fold q in Em.
    rewrite E in Em. change 0 with (inject_Z 0) in Em at 1. rewrite (rnd_int _ mul_rounding 0) in Em by done.
    unfold rel. rewrite E, Em. change (inject_Z 0) with 0. lra.
  - destruct (dmul_near a b H0 H1) as [_ Hn]. fold q in Hn. unfold near in Hn. split; [done|]. lra.
Qed.
End Relative.
