(* ===== verification/IotReports.v ===== *)
(** * IoT reports

    The report types of [file_store/src/iot_beacon_report.rs],
    [iot_witness_report.rs], [iot_valid_poc.rs], [iot_invalid_poc.rs],
    [iot_packet.rs] and [entropy_report.rs], their conversions from and to the
    messages, and the ids of [traits/report_id.rs].  The theorems are the round
    trips: what a verifier writes is what a reader of the file decodes, with
    times cut to whole milliseconds. *)

From S2P Require Import Prelude Solana Text FileStoreTypes Decimal.
From Stdlib Require Import Qabs.

Open Scope Z_scope.
Open Scope oracle_scope.

(** ** Message types *)

Inductive InvalidReason : Type :=
| ReasonNone | Stale | Duplicate | Denied | DeniedEdge | SelfWitness | EntropyExpired
| GatewayNotFound | NotAsserted | InvalidCapability | IrregularInterval | InvalidPacket
| TooLate | InvalidFrequency | InvalidRegion | MaxDistanceExceeded | BelowMinDistance | BadRssi.

#[global] Instance InvalidReason_eq_dec : EqDecision InvalidReason.
Proof. solve_decision. Defined.

Inductive InvalidParticipantSide : Type := SideNone | SideBeaconer | SideWitness.

Inductive VerificationStatus : Type := StatusValid | StatusInvalid.

#[global] Instance VerificationStatus_eq_dec : EqDecision VerificationStatus.
Proof. solve_decision. Defined.

(** [invalid_details::Data] and [InvalidDetails] *)
Inductive InvalidDetailsData : Type := DenylistTag (tag : string).
Definition InvalidDetails : Type := option InvalidDetailsData.

(** The enums of the message definitions. *)
Class ProtoTypes : Type := {
  DataRate : Type;
  Region : Type;
  PacketType : Type;
  DataRate_enum :: ProtoEnum DataRate;
  Region_enum :: ProtoEnum Region;
  PacketType_enum :: ProtoEnum PacketType;
  Region_eq_dec :: EqDecision Region;
  Region_countable :: Countable Region;
  InvalidReason_enum :: ProtoEnum InvalidReason;
  InvalidParticipantSide_enum :: ProtoEnum InvalidParticipantSide;
  VerificationStatus_enum :: ProtoEnum VerificationStatus
}.

Section Reports.
Context `{!ProtoTypes, !Chrono, !Blake3}.

(** ** Beacons *)

Record IotBeaconReport : Type := mkBeaconReport {
  br_pub_key : PublicKeyBinary;
  br_local_entropy : string;
  br_remote_entropy : string;
  br_data : string;
  br_frequency : Z;
  br_channel : Z;
  br_datarate : DataRate;
  br_tx_power : Z;
  br_timestamp : Z;
  br_signature : string;
  br_tmst : Z
}.

Record IotBeaconIngestReport : Type := mkBeaconIngest {
  bi_received_timestamp : Z;
  bi_report : IotBeaconReport
}.

(** [LoraBeaconReportReqV1] *)
Record LoraBeaconReportReq : Type := mkLoraBeacon {
  lb_pub_key : string;
  lb_local_entropy : string;
  lb_remote_entropy : string;
  lb_data : string;
  lb_frequency : Z;
  lb_channel : Z;
  lb_datarate : Z;
  lb_tx_power : Z;
  lb_timestamp : Z;
  lb_signature : string;
  lb_tmst : Z
}.

Record LoraBeaconIngestReport : Type := mkLoraBeaconIngest {
  lbi_received_timestamp : Z;
  lbi_report : option LoraBeaconReportReq
}.

Definition beacon_report_try_from (v : LoraBeaconReportReq) : result IotBeaconReport FsError :=
  let? data_rate :=
    ok_or (from_i32 (lb_datarate v)) (unsupported_datarate "iot_beacon_report_req_v1" (lb_datarate v)) in
  let? timestamp := to_timestamp_nanos (lb_timestamp v) in
  Ok (mkBeaconReport (lb_pub_key v) (lb_local_entropy v) (lb_remote_entropy v) (lb_data v)
        (lb_frequency v) (lb_channel v) data_rate (lb_tx_power v) timestamp (lb_signature v) (lb_tmst v)).

(** [None] where the encoding of the time panics. *)
Definition beacon_report_into (v : IotBeaconReport) : option LoraBeaconReportReq :=
  timestamp ← encode_timestamp_nanos (br_timestamp v);
  Some (mkLoraBeacon (br_pub_key v) (br_local_entropy v) (br_remote_entropy v) (br_data v)
          (br_frequency v) (br_channel v) (to_i32 (br_datarate v)) (br_tx_power v) timestamp
          (br_signature v) (br_tmst v)).

Definition beacon_ingest_of_req (now : Z) (v : LoraBeaconReportReq) : result IotBeaconIngestReport FsError :=
  let? report := beacon_report_try_from v in Ok (mkBeaconIngest now report).

Definition beacon_ingest_try_from (v : LoraBeaconIngestReport) : result IotBeaconIngestReport FsError :=
  let? received_timestamp := to_timestamp_millis (lbi_received_timestamp v) in
  let? req := ok_or (lbi_report v) (not_found "iot beacon ingest report") in
  let? report := beacon_report_try_from req in
  Ok (mkBeaconIngest received_timestamp report).

Definition beacon_ingest_into (v : IotBeaconIngestReport) : option LoraBeaconReportReq :=
  let r := bi_report v in
  timestamp ← encode_timestamp_nanos (br_timestamp r);
  Some (mkLoraBeacon (br_pub_key r) (br_local_entropy r) (br_remote_entropy r) (br_data r)
          (br_frequency r) (br_channel r) (to_i32 (br_datarate r)) (br_tx_power r) timestamp
          (br_signature r) (br_tmst r)).

(** ** Witnesses *)

Record IotWitnessReport : Type := mkWitnessReport {
  wr_pub_key : PublicKeyBinary;
  wr_data : string;
  wr_timestamp : Z;
  wr_tmst : Z;
  wr_signal : Z;
  wr_snr : Z;
  wr_frequency : Z;
  wr_datarate : DataRate;
  wr_signature : string
}.

Record IotWitnessIngestReport : Type := mkWitnessIngest {
  wi_received_timestamp : Z;
  wi_report : IotWitnessReport
}.

Record LoraWitnessReportReq : Type := mkLoraWitness {
  lw_pub_key : string;
  lw_data : string;
  lw_timestamp : Z;
  lw_tmst : Z;
  lw_signal : Z;
  lw_snr : Z;
  lw_frequency : Z;
  lw_datarate : Z;
  lw_signature : string
}.

Record LoraWitnessIngestReport : Type := mkLoraWitnessIngest {
  lwi_received_timestamp : Z;
  lwi_report : option LoraWitnessReportReq
}.

Definition witness_report_try_from (v : LoraWitnessReportReq) : result IotWitnessReport FsError :=
  let dr := lw_datarate v in
  let? data_rate := ok_or (from_i32 dr) (unsupported_datarate "iot_witness_report_req_v1" dr) in
  let? timestamp := to_timestamp_nanos (lw_timestamp v) in
  Ok (mkWitnessReport (lw_pub_key v) (lw_data v) timestamp (lw_tmst v) (lw_signal v) (lw_snr v)
        (lw_frequency v) data_rate (lw_signature v)).

Definition witness_report_into (v : IotWitnessReport) : option LoraWitnessReportReq :=
  timestamp ← encode_timestamp_nanos (wr_timestamp v);
  Some (mkLoraWitness (wr_pub_key v) (wr_data v) timestamp (wr_tmst v) (wr_signal v) (wr_snr v)
          (wr_frequency v) (to_i32 (wr_datarate v)) (wr_signature v)).

Definition witness_ingest_of_req (now : Z) (v : LoraWitnessReportReq) : result IotWitnessIngestReport FsError :=
  let? report := witness_report_try_from v in Ok (mkWitnessIngest now report).

Definition witness_ingest_try_from (v : LoraWitnessIngestReport) : result IotWitnessIngestReport FsError :=
  let? received_timestamp := to_timestamp_millis (lwi_received_timestamp v) in
  let? req := ok_or (lwi_report v) (not_found "iot witness ingest report v1") in
  let? report := witness_report_try_from req in
  Ok (mkWitnessIngest received_timestamp report).

(** As written: the data rate of the message is 0. *)
Definition witness_ingest_into (v : IotWitnessIngestReport) : option LoraWitnessReportReq :=
  let r := wi_report v in
  timestamp ← encode_timestamp_nanos (wr_timestamp r);
  Some (mkLoraWitness (wr_pub_key r) (wr_data r) timestamp (wr_tmst r) (wr_signal r) (wr_snr r)
          (wr_frequency r) 0 (wr_signature r)).

(** ** Ids *)

(** [hasher.update] of the data, the time and the key. *)
Definition poc_report_id (data : string) (received_ts : Z) (pub_key : PublicKeyBinary) : string :=
  blake3 (data +:+ u64_to_be_bytes (encode_timestamp_millis received_ts) +:+ pub_key).

Definition beacon_report_id (r : IotBeaconReport) (received_ts : Z) : string :=
  poc_report_id (br_data r) received_ts (br_pub_key r).
Definition witness_report_id (r : IotWitnessReport) (received_ts : Z) : string :=
  poc_report_id (wr_data r) received_ts (wr_pub_key r).
Definition beacon_ingest_id (r : IotBeaconIngestReport) : string :=
  poc_report_id (br_data (bi_report r)) (bi_received_timestamp r) (br_pub_key (bi_report r)).
Definition witness_ingest_id (r : IotWitnessIngestReport) : string :=
  poc_report_id (wr_data (wi_report r)) (wi_received_timestamp r) (wr_pub_key (wi_report r)).
End Reports.

(** ** Verified PoCs *)

Definition SCALING_PRECISION : nat := 4.

Section ValidPoc.
Context `{!ProtoTypes, !Chrono} {dec : Type} `{!Decimal dec}.

Definition SCALE_MULTIPLIER : dec := dec_new 10000 0.

Record IotValidBeaconReport : Type := mkValidBeacon {
  vb_received_timestamp : Z;
  vb_location : option Z;
  vb_gain : Z;
  vb_elevation : Z;
  vb_hex_scale : dec;
  vb_report : IotBeaconReport;
  vb_reward_unit : dec
}.

Record IotVerifiedWitnessReport : Type := mkVerifiedWitness {
  vw_received_timestamp : Z;
  vw_status : VerificationStatus;
  vw_report : IotWitnessReport;
  vw_location : option Z;
  vw_gain : Z;
  vw_elevation : Z;
  vw_hex_scale : dec;
  vw_reward_unit : dec;
  vw_invalid_reason : InvalidReason;
  vw_participant_side : InvalidParticipantSide;
  vw_invalid_details : option InvalidDetails
}.

Record IotPoc : Type := mkIotPoc {
  poc_id : string;
  poc_beacon_report : IotValidBeaconReport;
  poc_selected_witnesses : list IotVerifiedWitnessReport;
  poc_unselected_witnesses : list IotVerifiedWitnessReport
}.

Record LoraValidBeaconReport : Type := mkLoraValidBeacon {
  lvb_received_timestamp : Z;
  lvb_location : string;
  lvb_gain : Z;
  lvb_elevation : Z;
  lvb_hex_scale : Z;
  lvb_report : option LoraBeaconReportReq;
  lvb_reward_unit : Z
}.

Record LoraVerifiedWitnessReport : Type := mkLoraVerifiedWitness {
  lvw_received_timestamp : Z;
  lvw_status : Z;
  lvw_report : option LoraWitnessReportReq;
  lvw_location : string;
  lvw_gain : Z;
  lvw_elevation : Z;
  lvw_hex_scale : Z;
  lvw_reward_unit : Z;
  lvw_invalid_reason : Z;
  lvw_participant_side : Z;
  lvw_invalid_details : option InvalidDetails
}.

Record LoraPoc : Type := mkLoraPoc {
  lp_poc_id : string;
  lp_beacon_report : option LoraValidBeaconReport;
  lp_selected_witnesses : list LoraVerifiedWitnessReport;
  lp_unselected_witnesses : list LoraVerifiedWitnessReport
}.

(** [v.location.map(|l| l.to_string()).unwrap_or_default()] *)
Definition location_to_string (l : option Z) : string := from_option u64_to_string EmptyString l.

Definition scale_encode (d : dec) : Z := to_u32_or_0 (d * SCALE_MULTIPLIER)%dec.
Definition scale_decode (v : Z) : dec := dec_new v SCALING_PRECISION.

Definition valid_beacon_try_from (v : LoraValidBeaconReport) : result IotValidBeaconReport FsError :=
  let? received_timestamp := to_timestamp_millis (lvb_received_timestamp v) in
  let? req := ok_or (lvb_report v) (not_found "iot valid beacon report v1") in
  let? report := beacon_report_try_from req in
  Ok (mkValidBeacon received_timestamp (u64_parse (lvb_location v)) (lvb_gain v) (lvb_elevation v)
        (scale_decode (lvb_hex_scale v)) report (scale_decode (lvb_reward_unit v))).

Definition valid_beacon_into (v : IotValidBeaconReport) : option LoraValidBeaconReport :=
  report ← beacon_report_into (vb_report v);
  Some (mkLoraValidBeacon (encode_timestamp_millis (vb_received_timestamp v))
          (location_to_string (vb_location v)) (vb_gain v) (vb_elevation v)
          (scale_encode (vb_hex_scale v)) (Some report) (scale_encode (vb_reward_unit v))).

Definition verified_witness_try_from (v : LoraVerifiedWitnessReport)
  : result IotVerifiedWitnessReport FsError :=
  let? received_timestamp := to_timestamp_millis (lvw_received_timestamp v) in
  let? status := ok_or (from_i32 (lvw_status v))
    (unsupported_status_reason "iot_verified_witness_report_v1" (lvw_status v)) in
  let? invalid_reason := ok_or (from_i32 (lvw_invalid_reason v))
    (unsupported_invalid_reason "iot_verified_witness_report_v1" (lvw_invalid_reason v)) in
  let? participant_side := ok_or (from_i32 (lvw_participant_side v))
    (unsupported_participant_side "iot_verified_witness_report_v1" (lvw_participant_side v)) in
  let? req := ok_or (lvw_report v) (not_found "iot valid witness port v1") in
  let? report := witness_report_try_from req in
  Ok (mkVerifiedWitness received_timestamp status report (u64_parse (lvw_location v)) (lvw_gain v)
        (lvw_elevation v) (scale_decode (lvw_hex_scale v)) (scale_decode (lvw_reward_unit v))
        invalid_reason participant_side (lvw_invalid_details v)).

Definition verified_witness_into (v : IotVerifiedWitnessReport) : option LoraVerifiedWitnessReport :=
  report ← witness_report_into (vw_report v);
  Some (mkLoraVerifiedWitness (encode_timestamp_millis (vw_received_timestamp v)) (to_i32 (vw_status v))
          (Some report) (location_to_string (vw_location v)) (vw_gain v) (vw_elevation v)
          (scale_encode (vw_hex_scale v)) (scale_encode (vw_reward_unit v))
          (to_i32 (vw_invalid_reason v)) (to_i32 (vw_participant_side v)) (vw_invalid_details v)).

(** [collect::<Result<Vec<_>>>]: the first error, or all the values. *)
Fixpoint collect {A B} (f : A -> result B FsError) (l : list A) : result (list B) FsError :=
  match l with
  | [] => Ok []
  | a :: l => let? b := f a in let? bs := collect f l in Ok (b :: bs)
  end.

Definition poc_try_from (v : LoraPoc) : result IotPoc FsError :=
  let? selected_witnesses := collect verified_witness_try_from (lp_selected_witnesses v) in
  let? unselected_witnesses := collect verified_witness_try_from (lp_unselected_witnesses v) in
  let? beacon := ok_or (lp_beacon_report v) (not_found "iot poc v1") in
  let? beacon_report := valid_beacon_try_from beacon in
  Ok (mkIotPoc (lp_poc_id v) beacon_report selected_witnesses unselected_witnesses).

Definition poc_into (v : IotPoc) : option LoraPoc :=
  selected_witnesses ← mapM verified_witness_into (poc_selected_witnesses v);
  unselected_witnesses ← mapM verified_witness_into (poc_unselected_witnesses v);
  beacon_report ← valid_beacon_into (poc_beacon_report v);
  Some (mkLoraPoc (poc_id v) (Some beacon_report) selected_witnesses unselected_witnesses).

(** [IotVerifiedWitnessReport::valid] and [invalid] *)
Definition verified_valid (report : IotWitnessReport) (received_timestamp : Z) (location : option Z)
    (gain elevation : Z) (hex_scale : dec) : IotVerifiedWitnessReport :=
  mkVerifiedWitness received_timestamp StatusValid report location gain elevation hex_scale dec_zero
    ReasonNone SideNone None.

Definition verified_invalid (invalid_reason : InvalidReason) (invalid_details : option InvalidDetails)
    (report : IotWitnessReport) (received_timestamp : Z) (location : option Z) (gain elevation : Z)
    (participant_side : InvalidParticipantSide) : IotVerifiedWitnessReport :=
  mkVerifiedWitness received_timestamp StatusInvalid report location gain elevation dec_zero dec_zero
    invalid_reason participant_side invalid_details.
End ValidPoc.

Arguments IotValidBeaconReport {_} dec.
Arguments IotVerifiedWitnessReport {_} dec.
Arguments IotPoc {_} dec.

(** ** Invalid reports *)

Section InvalidPoc.
Context `{!ProtoTypes, !Chrono}.

Record IotInvalidBeaconReport : Type := mkInvalidBeacon {
  ib_received_timestamp : Z;
  ib_reason : InvalidReason;
  ib_invalid_details : option InvalidDetails;
  ib_report : IotBeaconReport;
  ib_location : option Z;
  ib_gain : Z;
  ib_elevation : Z
}.

Record IotInvalidWitnessReport : Type := mkInvalidWitness {
  iw_received_timestamp : Z;
  iw_reason : InvalidReason;
  iw_invalid_details : option InvalidDetails;
  iw_report : IotWitnessReport;
  iw_participant_side : InvalidParticipantSide
}.

Record LoraInvalidBeaconReport : Type := mkLoraInvalidBeacon {
  lib_received_timestamp : Z;
  lib_reason : Z;
  lib_report : option LoraBeaconReportReq;
  lib_location : string;
  lib_gain : Z;
  lib_elevation : Z;
  lib_invalid_details : option InvalidDetails
}.

Record LoraInvalidWitnessReport : Type := mkLoraInvalidWitness {
  liw_received_timestamp : Z;
  liw_reason : Z;
  liw_report : option LoraWitnessReportReq;
  liw_participant_side : Z;
  liw_invalid_details : option InvalidDetails
}.

Definition invalid_beacon_try_from (v : LoraInvalidBeaconReport) : result IotInvalidBeaconReport FsError :=
  let? invalid_reason := ok_or (from_i32 (lib_reason v))
    (unsupported_invalid_reason "iot_invalid_beacon_report_v1" (lib_reason v)) in
  let? received_timestamp := to_timestamp_millis (lib_received_timestamp v) in
  let? req := ok_or (lib_report v) (not_found "iot invalid beacon report v1") in
  let? report := beacon_report_try_from req in
  Ok (mkInvalidBeacon received_timestamp invalid_reason (lib_invalid_details v) report
        (u64_parse (lib_location v)) (lib_gain v) (lib_elevation v)).

Definition invalid_beacon_into (v : IotInvalidBeaconReport) : option LoraInvalidBeaconReport :=
  report ← beacon_report_into (ib_report v);
  Some (mkLoraInvalidBeacon (encode_timestamp_millis (ib_received_timestamp v)) (to_i32 (ib_reason v))
          (Some report) (location_to_string (ib_location v)) (ib_gain v) (ib_elevation v)
          (ib_invalid_details v)).

Definition invalid_witness_try_from (v : LoraInvalidWitnessReport) : result IotInvalidWitnessReport FsError :=
  let? invalid_reason := ok_or (from_i32 (liw_reason v))
    (unsupported_invalid_reason "iot_invalid_witness_report_v1" (liw_reason v)) in
  let? side := ok_or (from_i32 (liw_participant_side v))
    (unsupported_participant_side "iot_invalid_witness_report_v1" (liw_participant_side v)) in
  let? received_timestamp := to_timestamp_millis (liw_received_timestamp v) in
  let? req := ok_or (liw_report v) (not_found "iot invalid witness report") in
  let? report := witness_report_try_from req in
  Ok (mkInvalidWitness received_timestamp invalid_reason (liw_invalid_details v) report side).

Definition invalid_witness_into (v : IotInvalidWitnessReport) : option LoraInvalidWitnessReport :=
  report ← witness_report_into (iw_report v);
  Some (mkLoraInvalidWitness (encode_timestamp_millis (iw_received_timestamp v)) (to_i32 (iw_reason v))
          (Some report) (to_i32 (iw_participant_side v)) (iw_invalid_details v)).
End InvalidPoc.

(** ** Packets and entropy *)

Section Packets.
Context `{!ProtoTypes, !Chrono, !Blake3}.

(** The signal to noise ratio is a float and is only passed on: its 32 bits. *)
Record PacketRouterPacketReport : Type := mkPacketReport {
  pr_oui : Z;
  pr_net_id : Z;
  pr_rssi : Z;
  pr_frequency : Z;
  pr_snr : Z;
  pr_data_rate : DataRate;
  pr_region : Region;
  pr_gateway : PublicKeyBinary;
  pr_payload_hash : string;
  pr_payload_size : Z;
  pr_packet_type : PacketType;
  pr_received_timestamp : Z
}.

(** [PacketRouterPacketReportV1] *)
Record PacketReportProto : Type := mkPacketReportProto {
  pp_oui : Z;
  pp_net_id : Z;
  pp_rssi : Z;
  pp_frequency : Z;
  pp_snr : Z;
  pp_datarate : Z;
  pp_region : Z;
  pp_gateway : string;
  pp_payload_hash : string;
  pp_payload_size : Z;
  pp_type : Z;
  pp_received_timestamp : Z
}.

Definition packet_report_try_from (v : PacketReportProto) : result PacketRouterPacketReport FsError :=
  let? data_rate := ok_or (from_i32 (pp_datarate v))
    (unsupported_datarate "iot_packet_router_packet_report_v1" (pp_datarate v)) in
  let? region := ok_or (from_i32 (pp_region v))
    (unsupported_region "iot_packet_router_packet_report_v1" (pp_region v)) in
  let? packet_type := ok_or (from_i32 (pp_type v))
    (unsupported_packet_type "iot_packet_router_packet_report_v1" (pp_type v)) in
  let? received_timestamp := to_timestamp_millis (pp_received_timestamp v) in
  Ok (mkPacketReport (pp_oui v) (pp_net_id v) (pp_rssi v) (pp_frequency v) (pp_snr v) data_rate region
        (pp_gateway v) (pp_payload_hash v) (pp_payload_size v) packet_type received_timestamp).

Record IotValidPacket : Type := mkIotValidPacket {
  ivp_payload_size : Z;
  ivp_gateway : PublicKeyBinary;
  ivp_payload_hash : string;
  ivp_num_dcs : Z;
  ivp_packet_timestamp : Z
}.

(** The message [ValidPacket]. *)
Record ValidPacketProto : Type := mkValidPacketProto {
  vpp_payload_size : Z;
  vpp_gateway : string;
  vpp_payload_hash : string;
  vpp_num_dcs : Z;
  vpp_packet_timestamp : Z
}.

Definition valid_packet_try_from (v : ValidPacketProto) : result IotValidPacket FsError :=
  let? ts := to_timestamp_millis (vpp_packet_timestamp v) in
  Ok (mkIotValidPacket (vpp_payload_size v) (vpp_gateway v) (vpp_payload_hash v) (vpp_num_dcs v) ts).

Definition valid_packet_into (v : IotValidPacket) : ValidPacketProto :=
  mkValidPacketProto (ivp_payload_size v) (ivp_gateway v) (ivp_payload_hash v) (ivp_num_dcs v)
    (encode_timestamp_millis (ivp_packet_timestamp v)).

(** [IotValidPacket::packet_id], at the time [now]. *)
Definition packet_id (now : Z) (v : IotValidPacket) : string :=
  let now := as_u64 (now / 1000) in
  blake3 (ivp_gateway v +:+ ivp_payload_hash v
    +:+ u64_to_le_bytes (encode_timestamp_millis (ivp_packet_timestamp v)) +:+ u64_to_le_bytes now).

Record EntropyReport : Type := mkEntropyReport {
  er_data : string;
  er_timestamp : Z;
  er_version : Z
}.

(** The message [EntropyReportV1]. *)
Record EntropyReportProto : Type := mkEntropyReportProto {
  erp_data : string;
  erp_timestamp : Z;
  erp_version : Z
}.

(** [MsgTimestamp::timestamp] of the report is in milliseconds, that of the
    message in seconds. *)
Definition entropy_report_timestamp (v : EntropyReport) : Z := encode_timestamp_millis (er_timestamp v).
Definition entropy_msg_timestamp (v : EntropyReportProto) : result Z FsError := to_timestamp (erp_timestamp v).

Definition entropy_report_try_from (v : EntropyReportProto) : result EntropyReport FsError :=
  let? timestamp := entropy_msg_timestamp v in
  Ok (mkEntropyReport (erp_data v) timestamp (erp_version v)).
End Packets.

(** ** Round trips *)

(** A time as a reader sees it. *)
Definition trunc_millis (t : Z) : Z := t / nanos_per_milli * nanos_per_milli.

Section RoundTrips.
Context `{!ProtoTypes, !Chrono}.

Lemma ok_or_from_to {A} `{!ProtoEnum A} (a : A) (e : FsError) : ok_or (from_i32 (to_i32 a)) e = Ok a.
Proof. by rewrite from_to_i32. Qed.

Lemma location_roundtrip l :
  from_option is_u64 True l -> u64_parse (location_to_string l) = l.
Proof. destruct l as [l|]; [|done]. cbn. apply u64_parse_print. Qed.

Lemma beacon_report_roundtrip v :
  time_i64 (br_timestamp v) ->
  exists m, beacon_report_into v = Some m /\ beacon_report_try_from m = Ok v.
Proof.
  intros Ht. destruct (timestamp_nanos_roundtrip _ Ht) as (ts & E1 & E2).
  unfold beacon_report_into. rewrite E1. eexists. split; [done|].
  unfold beacon_report_try_from. cbn. rewrite ok_or_from_to, E2. by destruct v.
Qed.

Lemma witness_report_roundtrip v :
  time_i64 (wr_timestamp v) ->
  exists m, witness_report_into v = Some m /\ witness_report_try_from m = Ok v.
Proof.
  intros Ht. destruct (timestamp_nanos_roundtrip _ Ht) as (ts & E1 & E2).
  unfold witness_report_into. rewrite E1. eexists. split; [done|].
  unfold witness_report_try_from. cbn. rewrite ok_or_from_to, E2. by destruct v.
Qed.

(** What the verifier writes about an invalid beacon or witness is decoded as
    it was, with the time of reception cut to whole milliseconds. *)
Theorem invalid_poc_roundtrip b w :
  time_i64 (ib_received_timestamp b) -> time_i64 (br_timestamp (ib_report b)) ->
  from_option is_u64 True (ib_location b) ->
  time_i64 (iw_received_timestamp w) -> time_i64 (wr_timestamp (iw_report w)) ->
  (exists m, invalid_beacon_into b = Some m /\
     invalid_beacon_try_from m =
     Ok (mkInvalidBeacon (trunc_millis (ib_received_timestamp b)) (ib_reason b) (ib_invalid_details b)
           (ib_report b) (ib_location b) (ib_gain b) (ib_elevation b))) /\
  (exists m, invalid_witness_into w = Some m /\
     invalid_witness_try_from m =
     Ok (mkInvalidWitness (trunc_millis (iw_received_timestamp w)) (iw_reason w) (iw_invalid_details w)
           (iw_report w) (iw_participant_side w))).
Proof.
  intros Hb Hbr Hl Hw Hwr. split.
  - destruct (beacon_report_roundtrip _ Hbr) as (r & E1 & E2). unfold invalid_beacon_into. rewrite E1.
    eexists. split; [done|]. unfold invalid_beacon_try_from. cbn.
    rewrite ok_or_from_to. cbn. rewrite timestamp_millis_roundtrip by done. cbn. rewrite E2. cbn.
    by rewrite location_roundtrip.
  - destruct (witness_report_roundtrip _ Hwr) as (r & E1 & E2). unfold invalid_witness_into. rewrite E1.
    eexists. split; [done|]. unfold invalid_witness_try_from. cbn.
    rewrite !ok_or_from_to. cbn. rewrite timestamp_millis_roundtrip by done. cbn. by rewrite E2.
Qed.
End RoundTrips.

Section PocRoundTrip.
Context `{!ProtoTypes, !Chrono} {dec : Type} `{!Decimal dec, !DecimalLaws dec}.

(** Four decimals, within the [u32] of the message. *)
Definition scale_ok (d : dec) : Prop :=
  exists m, 0 <= m < 2 ^ 32 /\ (dval d == inject_Z m / pow10 4)%Q.

Lemma scale_roundtrip (d : dec) : scale_ok d -> (dval (scale_decode (dec := dec) (scale_encode d)) == dval d)%Q.
Proof.
  intros (m & Hm & E). unfold scale_encode, SCALE_MULTIPLIER.
  pose proof (dec_of_Z_val (dec := dec) 10000 ltac:(lia)) as E1. unfold dec_of_Z in E1.
  assert (dval d * dval (dec_new 10000 0) == inject_Z m)%Q as E2.
  { rewrite E, E1. change (pow10 4) with (inject_Z 10000). field. }
  assert (dval (d * dec_new 10000 0)%dec == inject_Z m)%Q as E3.
  { rewrite dmul_val.
    - pose proof (rnd_proper _ mul_rounding) as Hp. rewrite E2. apply rnd_int; [apply mul_rounding|lia].
    - rewrite E2. rewrite Qabs_pos by (change 0%Q with (inject_Z 0); rewrite <- Zle_Qle; lia).
      unfold dec_max. rewrite <- Zle_Qle. lia. }
  assert (Qfloor (dval (d * dec_new 10000 0)%dec) = m) as Ef by (rewrite E3; apply Qfloor_Z).
  assert (Qle_bool 0 (dval (d * dec_new 10000 0)%dec) = true) as E0.
  { apply Qle_bool_iff. rewrite E3. change 0%Q with (inject_Z 0). rewrite <- Zle_Qle. lia. }
  rewrite to_u32_val, E0, Ef. rewrite (proj2 (Z.ltb_lt m (2 ^ 32))) by lia. cbn [andb].
  unfold scale_decode, SCALING_PRECISION. rewrite dec_new_val by lia. by rewrite E.
Qed.

Definition beacon_ok (v : IotValidBeaconReport dec) : Prop :=
  time_i64 (vb_received_timestamp v) /\ time_i64 (br_timestamp (vb_report v)) /\
  from_option is_u64 True (vb_location v) /\ scale_ok (vb_hex_scale v) /\ scale_ok (vb_reward_unit v).

Definition witness_ok (v : IotVerifiedWitnessReport dec) : Prop :=
  time_i64 (vw_received_timestamp v) /\ time_i64 (wr_timestamp (vw_report v)) /\
  from_option is_u64 True (vw_location v) /\ scale_ok (vw_hex_scale v) /\ scale_ok (vw_reward_unit v).

(** [v'] is [v] as a reader sees it: times in whole milliseconds, the same
    decimal values. *)
Definition beacon_seen (v v' : IotValidBeaconReport dec) : Prop :=
  v' = mkValidBeacon (trunc_millis (vb_received_timestamp v)) (vb_location v) (vb_gain v) (vb_elevation v)
         (vb_hex_scale v') (vb_report v) (vb_reward_unit v') /\
  (dval (vb_hex_scale v') == dval (vb_hex_scale v))%Q /\
  (dval (vb_reward_unit v') == dval (vb_reward_unit v))%Q.

Definition witness_seen (v v' : IotVerifiedWitnessReport dec) : Prop :=
  v' = mkVerifiedWitness (trunc_millis (vw_received_timestamp v)) (vw_status v) (vw_report v)
         (vw_location v) (vw_gain v) (vw_elevation v) (vw_hex_scale v') (vw_reward_unit v')
         (vw_invalid_reason v) (vw_participant_side v) (vw_invalid_details v) /\
  (dval (vw_hex_scale v') == dval (vw_hex_scale v))%Q /\
  (dval (vw_reward_unit v') == dval (vw_reward_unit v))%Q.

Lemma valid_beacon_roundtrip v :
  beacon_ok v ->
  exists m v', valid_beacon_into v = Some m /\ valid_beacon_try_from m = Ok v' /\ beacon_seen v v'.
Proof.
  intros (Ht & Hr & Hl & Hs & Hu). destruct (beacon_report_roundtrip _ Hr) as (r & E1 & E2).
  unfold valid_beacon_into. rewrite E1. eexists _, _. split; [done|].
  unfold valid_beacon_try_from. cbn. rewrite timestamp_millis_roundtrip by done. cbn. rewrite E2. cbn.
  rewrite location_roundtrip by done. split; [done|]. split; [done|]. cbn. by split; apply scale_roundtrip.
Qed.

Lemma verified_witness_roundtrip v :
  witness_ok v ->
  exists m v', verified_witness_into v = Some m /\ verified_witness_try_from m = Ok v' /\ witness_seen v v'.
Proof.
  intros (Ht & Hr & Hl & Hs & Hu). destruct (witness_report_roundtrip _ Hr) as (r & E1 & E2).
  unfold verified_witness_into. rewrite E1. eexists _, _. split; [done|].
  unfold verified_witness_try_from. cbn. rewrite timestamp_millis_roundtrip by done. cbn.
  rewrite !ok_or_from_to. cbn. rewrite E2. cbn.
  rewrite location_roundtrip by done. split; [done|]. split; [done|]. cbn. by split; apply scale_roundtrip.
Qed.

Lemma witnesses_roundtrip l :
  Forall witness_ok l ->
  exists ms l', mapM verified_witness_into l = Some ms /\
    collect verified_witness_try_from ms = Ok l' /\ Forall2 witness_seen l l'.
Proof.
  induction 1 as [|v l Hv _ (ms & l' & E1 & E2 & E3)]; [by exists [], []|].
  destruct (verified_witness_roundtrip v Hv) as (m & v' & F1 & F2 & F3).
  exists (m :: ms), (v' :: l'). cbn. rewrite F1. cbn. rewrite E1. cbn. rewrite F2. cbn. rewrite E2.
  split; [done|]. split; [done|]. by constructor.
Qed.

(** A PoC that the verifier writes is decoded with the same id, reports,
    statuses, reasons, locations and decimal values, and with times of reception
    cut to whole milliseconds. *)
Theorem poc_roundtrip (v : IotPoc dec) :
  beacon_ok (poc_beacon_report v) -> Forall witness_ok (poc_selected_witnesses v) ->
  Forall witness_ok (poc_unselected_witnesses v) ->
  exists m v', poc_into v = Some m /\ poc_try_from m = Ok v' /\ poc_id v' = poc_id v /\
    beacon_seen (poc_beacon_report v) (poc_beacon_report v') /\
    Forall2 witness_seen (poc_selected_witnesses v) (poc_selected_witnesses v') /\
    Forall2 witness_seen (poc_unselected_witnesses v) (poc_unselected_witnesses v').
Proof.
  intros Hb Hs Hu. destruct (valid_beacon_roundtrip _ Hb) as (b & b' & B1 & B2 & B3).
  destruct (witnesses_roundtrip _ Hs) as (s & s' & S1 & S2 & S3).
  destruct (witnesses_roundtrip _ Hu) as (u & u' & U1 & U2 & U3).
  unfold poc_into. rewrite S1. cbn. rewrite U1. cbn. rewrite B1. cbn. eexists _, _. split; [done|].
  unfold poc_try_from. cbn. rewrite S2. cbn. rewrite U2. cbn. rewrite B2. done.
Qed.
End PocRoundTrip.

(** ** A concrete instance of the message types *)

Module ExampleProto.
Definition reasons : list InvalidReason :=
  [ReasonNone; Stale; Duplicate; Denied; DeniedEdge; SelfWitness; EntropyExpired; GatewayNotFound;
   NotAsserted; InvalidCapability; IrregularInterval; InvalidPacket; TooLate; InvalidFrequency;
   InvalidRegion; MaxDistanceExceeded; BelowMinDistance; BadRssi].

Fixpoint index (r : InvalidReason) (l : list InvalidReason) : nat :=
  match l with [] => O | x :: l => if bool_decide (x = r) then O else S (index r l) end.

#[global] Instance Z_enum : ProtoEnum Z.
Proof. by refine {| to_i32 := fun z => z; from_i32 := Some |}. Defined.

#[global] Instance reason_enum : ProtoEnum InvalidReason.
Proof.
  refine {| to_i32 := fun r => Z.of_nat (index r reasons); from_i32 := fun z => reasons !! Z.to_nat z |}.
  by intros [].
Defined.

#[global] Instance side_enum : ProtoEnum InvalidParticipantSide.
Proof.
  refine {| to_i32 := fun s => match s with SideNone => 0 | SideBeaconer => 1 | SideWitness => 2 end;
    from_i32 := fun z => [SideNone; SideBeaconer; SideWitness] !! Z.to_nat z |}.
  by intros [].
Defined.

#[global] Instance status_enum : ProtoEnum VerificationStatus.
Proof.
  refine {| to_i32 := fun s => match s with StatusValid => 0 | StatusInvalid => 1 end;
    from_i32 := fun z => [StatusValid; StatusInvalid] !! Z.to_nat z |}.
  by intros [].
Defined.

#[global] Instance proto : ProtoTypes := {
  DataRate := Z; Region := Z; PacketType := Z
}.

Definition beacon : IotBeaconReport := mkBeaconReport "b" "l" "r" "data" 904000000 0 1 27 5 "sig" 0.
Definition witness : IotWitnessReport := mkWitnessReport "w" "data" 7 0 (-900) 3 904000000 1 "sig".
Definition valid_beacon : IotValidBeaconReport Q := mkValidBeacon 5000001 (Some 42) 12 3 (1 # 2)%Q beacon 1%Q.
Definition verified : IotVerifiedWitnessReport Q :=
  mkVerifiedWitness 6000002 StatusValid witness (Some 43) 12 3 (1 # 4)%Q 1%Q ReasonNone SideNone None.
End ExampleProto.

Lemma invalid_poc_roundtrip_witness :
  let b := mkInvalidBeacon 5000001 Denied (Some (Some (DenylistTag "7"))) ExampleProto.beacon (Some 42) 12 3 in
  let w := mkInvalidWitness 6000002 Denied None ExampleProto.witness SideBeaconer in
  exists m, invalid_beacon_into b = Some m /\
    invalid_beacon_try_from m =
    Ok (mkInvalidBeacon 5000000 Denied (Some (Some (DenylistTag "7"))) ExampleProto.beacon (Some 42) 12 3).
Proof.
  intros b w. refine (proj1 (invalid_poc_roundtrip b w _ _ _ _ _)); cbn; unfold time_i64, is_u64; lia.
Defined.

Lemma scale_ok_Q m : 0 <= m < 2 ^ 32 -> scale_ok (dec := Q) (inject_Z m / pow10 4)%Q.
Proof. intros H. by exists m. Qed.

Lemma poc_roundtrip_witness :
  let v := mkIotPoc "id" ExampleProto.valid_beacon [ExampleProto.verified] [] in
  exists m v', poc_into v = Some m /\ poc_try_from m = Ok v' /\ poc_id v' = poc_id v.
Proof.
  intros v. destruct (poc_roundtrip v) as (m & v' & H1 & H2 & H3 & _).
  - split; [cbn; unfold time_i64; lia|]. split; [cbn; unfold time_i64; lia|].
    split; [cbn; unfold is_u64; lia|]. split; [by exists 5000|by exists 10000].
  - constructor; [|constructor]. split; [cbn; unfold time_i64; lia|]. split; [cbn; unfold time_i64; lia|].
    split; [cbn; unfold is_u64; lia|]. split; [by exists 2500|by exists 10000].
  - constructor.
  - by exists m, v'.
Defined.

(** An ingested beacon turned back into its request decodes to the same
    report.  An ingested witness does not: its request always carries data rate
    code 0, whatever the data rate of the report. *)
Theorem ingest_request_datarate `{!ProtoTypes, !Chrono} (b : IotBeaconIngestReport) (w : IotWitnessIngestReport) :
  time_i64 (br_timestamp (bi_report b)) -> time_i64 (wr_timestamp (wi_report w)) ->
  (exists m, beacon_ingest_into b = Some m /\ beacon_report_try_from m = Ok (bi_report b)) /\
  (exists m, witness_ingest_into w = Some m /\
     match from_i32 (A := DataRate) 0 with
     | None => is_ok (witness_report_try_from m) = false
     | Some d => exists r, witness_report_try_from m = Ok r /\ wr_datarate r = d /\
                   (r = wi_report w <-> wr_datarate (wi_report w) = d)
     end).
Proof.
  intros Hb Hw. split.
  - destruct (beacon_report_roundtrip _ Hb) as (m & E1 & E2). exists m. split; [|done]. exact E1.
  - destruct (timestamp_nanos_roundtrip _ Hw) as (ts & E1 & E2). unfold witness_ingest_into. rewrite E1.
    eexists. split; [done|]. unfold witness_report_try_from. cbn.
    destruct (from_i32 0) as [d|]; [|done]. cbn. rewrite E2. cbn. eexists. split; [done|]. split; [done|].
    destruct w as [t r]. cbn. split; [by intros <-|]. destruct r. cbn. by intros ->.
Qed.

Lemma ingest_request_datarate_witness :
  exists m, witness_ingest_into (mkWitnessIngest 5 ExampleProto.witness) = Some m /\
    exists r, witness_report_try_from m = Ok r /\ wr_datarate r = 0 /\
      (r = ExampleProto.witness <-> wr_datarate ExampleProto.witness = 0).
Proof.
  refine (proj2 (ingest_request_datarate (mkBeaconIngest 5 ExampleProto.beacon)
    (mkWitnessIngest 5 ExampleProto.witness) _ _)); cbn; unfold time_i64; lia.
Defined.
