(* ===== verification/Scheduler.v ===== *)
(** * Reward periods

    [reward_scheduler/src/lib.rs], and the part of the two rewarders
    ([iot_verifier/src/rewarder.rs], [mobile_verifier/src/rewarder.rs]) that
    decides when a period is rewarded and moves on to the next one.  Times and
    durations are in nanoseconds; the table [meta] keeps whole seconds. *)

From S2P Require Import Prelude.

Open Scope Z_scope.
Open Scope oracle_scope.

Definition second : Z := 1000000000.
Definition minutes (n : Z) : Z := n * 60 * second.
Definition hours (n : Z) : Z := n * 3600 * second.

(** A half open range of times. *)
Record Range : Type := mkRange { r_start : Z; r_end : Z }.

Record Scheduler : Type := mkScheduler {
  reward_period_length : Z;
  reward_period : Range;
  reward_offset : Z
}.

Inductive OutOfRangeError : Type := OutOfRangeErr.

(** [chrono::Duration::to_std] fails on a negative duration. *)
Definition to_std (d : Z) : result Z OutOfRangeError :=
  if d <? 0 then Err OutOfRangeErr else Ok d.

Definition scheduler_new (length last next offset : Z) : Scheduler :=
  mkScheduler length (mkRange last next) offset.

Definition should_reward (self : Scheduler) (now : Z) : bool :=
  r_end (reward_period self) + reward_offset self <=? now.

Definition next_reward_period (self : Scheduler) : Range :=
  mkRange (r_end (reward_period self)) (r_end (reward_period self) + reward_period_length self).

Definition sleep_duration (self : Scheduler) (now : Z) : result Z OutOfRangeError :=
  let next := next_reward_period self in
  let duration :=
    if now <? r_end (reward_period self) + reward_offset self then
      r_end (reward_period self) + reward_offset self - now
    else if r_end next + reward_offset self <=? now then 0
    else r_end next + reward_offset self - now in
  to_std duration.

(** ** The rewarders *)

(** The rows [last_rewarded_end_time] and [next_rewarded_end_time] of [meta], in
    seconds since the epoch. *)
Record reward_meta : Type := mkMeta { meta_last : Z; meta_next : Z }.

(** [fetch_rewarded_timestamp]: [Utc.timestamp_opt(secs, 0)] *)
Definition time_of_secs (s : Z) : Z := s * second.

(** [save_rewarded_timestamp]: [DateTime::timestamp] *)
Definition secs_of_time (t : Z) : Z := t / second.

Definition scheduler_of_meta (m : reward_meta) (length offset : Z) : Scheduler :=
  scheduler_new length (time_of_secs (meta_last m)) (time_of_secs (meta_next m)) offset.

(** The rows the IoT rewarder stores after a period is rewarded. *)
Definition iot_reward_meta (s : Scheduler) : reward_meta :=
  mkMeta (secs_of_time (r_end (reward_period s))) (secs_of_time (r_end (next_reward_period s))).

(** The rows the mobile rewarder stores. *)
Definition mobile_reward_meta (s : Scheduler) : reward_meta :=
  mkMeta (secs_of_time (r_start (next_reward_period s)))
         (secs_of_time (r_end (next_reward_period s))).

Definition REWARDS_NOT_CURRENT_DELAY_PERIOD : Z := 5.

(** One iteration of the IoT rewarder: the clock is read once to decide and
    once more ([now']) to sleep.  Returns the rows, the period rewarded and the
    sleep. *)
Definition iot_rewarder_step (m : reward_meta) (length offset now now' : Z) (data_current : bool)
  : reward_meta * option Range * result Z OutOfRangeError :=
  let s := scheduler_of_meta m length offset in
  if should_reward s now then
    if data_current then (iot_reward_meta s, Some (reward_period s), sleep_duration s now')
    else (m, None, to_std (minutes REWARDS_NOT_CURRENT_DELAY_PERIOD))
  else (m, None, sleep_duration s now').

(** One iteration of the mobile rewarder: one reading of the clock, and no sleep
    after a rewarded period. *)
Definition mobile_rewarder_step (m : reward_meta) (length offset now : Z) (data_current : bool)
  : reward_meta * option Range * result Z OutOfRangeError :=
  let s := scheduler_of_meta m length offset in
  if should_reward s now then
    if data_current then (mobile_reward_meta s, Some (reward_period s), Ok 0)
    else (m, None, to_std (minutes REWARDS_NOT_CURRENT_DELAY_PERIOD))
  else (m, None, sleep_duration s now).

(** The periods rewarded by a rewarder over a sequence of readings of the clock
    and of data checks. *)
Fixpoint iot_rewarded (m : reward_meta) (length offset : Z) (ticks : list (Z * Z * bool))
  : reward_meta * list Range :=
  match ticks with
  | [] => (m, [])
  | (now, now', cur) :: rest =>
      let '(m', p, _) := iot_rewarder_step m length offset now now' cur in
      let '(m'', ps) := iot_rewarded m' length offset rest in
      (m'', option_list p ++ ps)
  end.

Fixpoint mobile_rewarded (m : reward_meta) (length offset : Z) (ticks : list (Z * bool))
  : reward_meta * list Range :=
  match ticks with
  | [] => (m, [])
  | (now, cur) :: rest =>
      let '(m', p, _) := mobile_rewarder_step m length offset now cur in
      let '(m'', ps) := mobile_rewarded m' length offset rest in
      (m'', option_list p ++ ps)
  end.

Example boot_mid_period_with_no_reward :
  let s := scheduler_new (hours 24) 0 (hours 24) (minutes 30) in
  should_reward s (hours 1) = false /\ sleep_duration s (hours 1) = Ok (minutes 1410).
Proof. split; reflexivity. Qed.

(** ** Theorems *)

(** [sleep_duration] never fails for a positive period: before the period is
    due it sleeps exactly until it is due, then exactly until the next one is
    due, and not at all once that has passed too. *)
Theorem sleep_duration_spec s now :
  0 < reward_period_length s ->
  exists d, sleep_duration s now = Ok d /\ 0 <= d /\
    (if should_reward s now then
       let due := r_end (next_reward_period s) + reward_offset s in
       d = Z.max 0 (due - now)
     else should_reward s (now + d) = true /\
          forall t, now <= t < now + d -> should_reward s t = false).
Proof.
  intros Hl. unfold sleep_duration, should_reward, next_reward_period, to_std. cbn.
  destruct (Z.leb_spec (r_end (reward_period s) + reward_offset s) now) as [H|H].
  - rewrite (proj2 (Z.ltb_ge now (r_end (reward_period s) + reward_offset s))) by lia.
    destruct (Z.leb_spec (r_end (reward_period s) + reward_period_length s + reward_offset s) now);
      (rewrite (proj2 (Z.ltb_ge _ 0)) by lia); (eexists; split; [done|]); lia.
  - rewrite (proj2 (Z.ltb_lt now (r_end (reward_period s) + reward_offset s))) by lia. rewrite (proj2 (Z.ltb_ge _ 0)) by lia.
    eexists. split; [done|]. split; [lia|]. split; [apply Z.leb_le; lia|].
    intros t Ht. apply Z.leb_gt. lia.
Qed.

Lemma sleep_duration_spec_witness :
  exists d, sleep_duration (scheduler_new (hours 24) 0 (hours 24) (minutes 30)) (hours 1) = Ok d /\ 0 <= d.
Proof.
  destruct (sleep_duration_spec (scheduler_new (hours 24) 0 (hours 24) (minutes 30)) (hours 1))
    as (d & Hd & H0 & _); [reflexivity|]. by exists d.
Defined.

(** Consecutive ranges of one length, the first from [a]. *)
Fixpoint tiles (a length : Z) (ps : list Range) : Prop :=
  match ps with
  | [] => True
  | p :: ps => r_start p = a /\ r_end p = a + length /\ tiles (a + length) length ps
  end.

Lemma secs_time s : secs_of_time (time_of_secs s) = s.
Proof. unfold secs_of_time, time_of_secs, second. apply Z.div_mul. lia. Qed.

Lemma secs_time_add s k :
  secs_of_time (time_of_secs s + k * second) = s + k.
Proof. unfold secs_of_time, time_of_secs, second. rewrite <- Z.mul_add_distr_r. apply Z.div_mul. lia. Qed.

(** A rewarded period of whole seconds moves both rows on by its length. *)
Lemma next_meta m k offset :
  meta_next m = meta_last m + k ->
  let s := scheduler_of_meta m (k * second) offset in
  iot_reward_meta s = mkMeta (meta_next m) (meta_next m + k) /\
  mobile_reward_meta s = mkMeta (meta_next m) (meta_next m + k).
Proof.
  intros Hm s. unfold iot_reward_meta, mobile_reward_meta, next_reward_period. subst s. cbn.
  by rewrite secs_time, secs_time_add.
Qed.

Lemma iot_rewarded_tiles ticks m k offset :
  meta_next m = meta_last m + k ->
  let r := iot_rewarded m (k * second) offset ticks in
  tiles (time_of_secs (meta_last m)) (k * second) r.2 /\
  meta_next r.1 = meta_last r.1 + k /\
  meta_last r.1 = meta_last m + Z.of_nat (length r.2) * k.
Proof.
  revert m. induction ticks as [|[[now now'] cur] rest IH]; intros m Hm; cbn [iot_rewarded];
    [cbn; lia|].
  unfold iot_rewarder_step. destruct (should_reward _ _); [destruct cur|].
  2,3: specialize (IH m Hm); cbn in IH |- *; by destruct (iot_rewarded m _ _ rest).
  rewrite (proj1 (next_meta m k offset Hm)).
  specialize (IH (mkMeta (meta_next m) (meta_next m + k)) eq_refl). cbn in IH |- *.
  destruct (iot_rewarded (mkMeta _ _) _ _ rest) as [m' ps]. cbn in *.
  destruct IH as (H1 & H2 & H3).
  assert (time_of_secs (meta_next m) = time_of_secs (meta_last m) + k * second) as E
    by (unfold time_of_secs; rewrite Hm; ring).
  split; [|split; [done|lia]]. split; [done|]. split; [done|]. by rewrite <- E.
Qed.

Lemma mobile_rewarded_tiles ticks m k offset :
  meta_next m = meta_last m + k ->
  let r := mobile_rewarded m (k * second) offset ticks in
  tiles (time_of_secs (meta_last m)) (k * second) r.2 /\
  meta_next r.1 = meta_last r.1 + k /\
  meta_last r.1 = meta_last m + Z.of_nat (length r.2) * k.
Proof.
  revert m. induction ticks as [|[now cur] rest IH]; intros m Hm; cbn [mobile_rewarded];
    [cbn; lia|].
  unfold mobile_rewarder_step. destruct (should_reward _ _); [destruct cur|].
  2,3: specialize (IH m Hm); cbn in IH |- *; by destruct (mobile_rewarded m _ _ rest).
  rewrite (proj2 (next_meta m k offset Hm)).
  specialize (IH (mkMeta (meta_next m) (meta_next m + k)) eq_refl). cbn in IH |- *.
  destruct (mobile_rewarded (mkMeta _ _) _ _ rest) as [m' ps]. cbn in *.
  destruct IH as (H1 & H2 & H3).
  assert (time_of_secs (meta_next m) = time_of_secs (meta_last m) + k * second) as E
    by (unfold time_of_secs; rewrite Hm; ring).
  split; [|split; [done|lia]]. split; [done|]. split; [done|]. by rewrite <- E.
Qed.

(** The ranges [(start, end]] that contain a time. *)
Definition covering (t : Z) (ps : list Range) : list Range :=
  List.filter (fun p => (r_start p <? t) && (t <=? r_end p)) ps.

Lemma tiles_cover a l ps t :
  0 < l -> tiles a l ps ->
  length (covering t ps) =
    if (a <? t) && (t <=? a + Z.of_nat (length ps) * l) then 1%nat else 0%nat.
Proof.
  intros Hl. revert a. induction ps as [|p ps IH]; intros a H; cbn.
  - rewrite Z.add_0_r. destruct (Z.ltb_spec a t), (Z.leb_spec t a); cbn; try lia.
  - destruct H as (E1 & E2 & H). rewrite E1, E2. specialize (IH _ H).
    fold (covering t ps).
    replace (a + Z.of_nat (S (length ps)) * l) with (a + l + Z.of_nat (length ps) * l) by lia.
    assert (0 <= Z.of_nat (length ps) * l) as Hn by lia.
    set (n := Z.of_nat (length ps) * l) in *. clearbody n.
    destruct (Z.ltb_spec a t), (Z.leb_spec t (a + l)), (Z.ltb_spec (a + l) t),
      (Z.leb_spec t (a + l + n)); cbn in *; lia.
Qed.

(** C40: Whatever the readings of the clock and the data checks, the periods
    rewarded by either rewarder follow one another without gap or overlap: a
    time after the first period's start lies in exactly one of them, up to the
    time the rewarder has recorded as last rewarded. *)
Theorem reward_periods_tile m k offset ticks mticks t :
  0 < k -> meta_next m = meta_last m + k ->
  let ri := iot_rewarded m (k * second) offset ticks in
  let rm := mobile_rewarded m (k * second) offset mticks in
  length (covering t ri.2) =
    (if (time_of_secs (meta_last m) <? t) && (t <=? time_of_secs (meta_last ri.1)) then 1%nat else 0%nat) /\
  length (covering t rm.2) =
    (if (time_of_secs (meta_last m) <? t) && (t <=? time_of_secs (meta_last rm.1)) then 1%nat else 0%nat).
Proof.
  intros Hk Hm ri rm.
  destruct (iot_rewarded_tiles ticks m k offset Hm) as (H1 & _ & H2).
  destruct (mobile_rewarded_tiles mticks m k offset Hm) as (H3 & _ & H4).
  assert (0 < k * second) as Hl by (unfold second; lia).
  split.
  - fold ri in H1, H2. rewrite (tiles_cover _ _ _ t Hl H1), H2. unfold time_of_secs.
    rewrite Z.mul_add_distr_r, Z.mul_assoc. done.
  - fold rm in H3, H4. rewrite (tiles_cover _ _ _ t Hl H3), H4. unfold time_of_secs.
    rewrite Z.mul_add_distr_r, Z.mul_assoc. done.
Qed.

Lemma reward_periods_tile_witness :
  length (covering (hours 30)
    (mobile_rewarded (mkMeta 0 86400) (86400 * second) (minutes 30)
       [(hours 1, true); (hours 25, true); (hours 26, true); (hours 49, true)]).2) = 1%nat.
Proof.
  exact (proj2 (reward_periods_tile (mkMeta 0 86400) 86400 (minutes 30) []
    [(hours 1, true); (hours 25, true); (hours 26, true); (hours 49, true)] (hours 30)
    eq_refl eq_refl)).
Defined.

(** The IoT rewarder reads the clock a second time for the sleep.  When the
    period becomes due between the two readings, nothing is rewarded and the
    sleep lasts until the following period is due. *)
Theorem iot_clock_race m length offset now now' cur :
  let s := scheduler_of_meta m length offset in
  let due := r_end (reward_period s) + offset in
  now < due <= now' -> now' < due + length ->
  iot_rewarder_step m length offset now now' cur = (m, None, Ok (due + length - now')).
Proof.
  intros s due [H1 H2] H3. unfold iot_rewarder_step, should_reward, sleep_duration, to_std.
  fold s. unfold due, s, scheduler_of_meta, scheduler_new, next_reward_period in *. cbn in *.
  repeat (case_goal; zbool; try lia). do 2 f_equal. lia.
Qed.

Lemma iot_clock_race_witness :
  iot_rewarder_step (mkMeta 0 86400) (hours 24) (minutes 30)
    (hours 24 + minutes 30 - 1) (hours 24 + minutes 30) true = (mkMeta 0 86400, None, Ok (hours 24)).
Proof.
  exact (iot_clock_race (mkMeta 0 86400) (hours 24) (minutes 30)
    (hours 24 + minutes 30 - 1) (hours 24 + minutes 30) true
    (conj eq_refl (Z.le_refl _)) eq_refl).
Defined.
