(* ===== verification/IotRewards.v ===== *)
(** * IoT rewards

    [iot_verifier/src/reward_share.rs] and the reward half of [rewarder.rs]: the
    tables of PoC and data-transfer shares, the emission of a period, the
    rewards per share and the reward shares written out.  The theorems: shares
    are saved once however often a report is processed; a gateway's sums are
    those of its rows of the period; every gateway is paid its exact share of
    each pot to within one bone; and what is written for a period, paid or
    unallocated, adds up to 94 per cent of the emission to within six bones. *)

From S2P Require Import Prelude Solana FileStoreTypes Decimal IotReports Scheduler.
From Stdlib Require Import Qabs.

Open Scope Z_scope.
Open Scope oracle_scope.

(** [poc_report::ReportType] *)
Inductive ReportType : Type := Beacon | Witness.

#[global] Instance ReportType_eq_dec : EqDecision ReportType.
Proof. solve_decision. Defined.

(** [chrono::Duration::num_seconds] *)
Definition num_seconds (d : Z) : Z := Z.quot d second.

Section Model.
Context {dec : Type} `{!Decimal dec}.

(** ** Emission *)

Definition DEFAULT_PREC : nat := 15.

Definition REWARDS_PER_DAY : dec :=
  ((dec_of_Z 32500000000 / dec_of_Z 366) * dec_of_Z 1000000)%dec.
Definition BEACON_REWARDS_PER_DAY_PERCENT : dec := dec_new 6 2.
Definition WITNESS_REWARDS_PER_DAY_PERCENT : dec := dec_new 24 2.
Definition DATA_TRANSFER_REWARDS_PER_DAY_PERCENT : dec := dec_new 50 2.
Definition OPERATIONS_REWARDS_PER_DAY_PERCENT : dec := dec_new 7 2.
Definition ORACLES_REWARDS_PER_DAY_PERCENT : dec := dec_new 7 2.
Definition WITNESS_DC_REMAINER_PERCENT : dec := dec_new 80 2.
Definition BEACON_DC_REMAINER_PERCENT : dec := dec_new 20 2.
Definition DC_USD_PRICE : dec := dec_new 1 5.

Definition get_tokens_by_duration (tokens : dec) (duration : Z) : dec :=
  round_dp DEFAULT_PREC MidpointNearestEven
    ((tokens / dec_of_Z (num_seconds (hours 24))) * dec_of_Z (num_seconds duration))%dec.

Definition get_scheduled_poc_tokens (duration : Z) (dc_transfer_remainder : dec) : dec * dec :=
  ((get_tokens_by_duration (REWARDS_PER_DAY * BEACON_REWARDS_PER_DAY_PERCENT) duration
      + (dc_transfer_remainder * BEACON_DC_REMAINER_PERCENT))%dec,
   (get_tokens_by_duration (REWARDS_PER_DAY * WITNESS_REWARDS_PER_DAY_PERCENT) duration
      + (dc_transfer_remainder * WITNESS_DC_REMAINER_PERCENT))%dec).

Definition get_scheduled_dc_tokens (duration : Z) : dec :=
  get_tokens_by_duration (REWARDS_PER_DAY * DATA_TRANSFER_REWARDS_PER_DAY_PERCENT)%dec duration.

Definition get_scheduled_ops_fund_tokens (duration : Z) : dec :=
  get_tokens_by_duration (REWARDS_PER_DAY * OPERATIONS_REWARDS_PER_DAY_PERCENT)%dec duration.

Definition get_scheduled_oracle_tokens (duration : Z) : dec :=
  get_tokens_by_duration (REWARDS_PER_DAY * ORACLES_REWARDS_PER_DAY_PERCENT)%dec duration.

(** ** Shares *)

Record GatewayPocShare : Type := mkPocShare {
  ps_hotspot_key : PublicKeyBinary;
  ps_reward_type : ReportType;
  ps_reward_timestamp : Z;
  ps_hex_scale : dec;
  ps_reward_unit : dec;
  ps_poc_id : string
}.

Record GatewayDCShare : Type := mkDCShare {
  ds_hotspot_key : PublicKeyBinary;
  ds_reward_timestamp : Z;
  ds_num_dcs : dec;
  ds_id : string
}.

(** Tables [gateway_shares], with primary key [(hotspot_key, poc_id)], and
    [gateway_dc_shares], with primary key [id]. *)
Record share_tables : Type := mkShareTables {
  gateway_shares : gmap (PublicKeyBinary * string) GatewayPocShare;
  gateway_dc_shares : gmap string GatewayDCShare
}.

(** [GatewayPocShare::save]: an upsert; the flag says whether the row is new. *)
Definition poc_share_save (db : share_tables) (s : GatewayPocShare) : share_tables * bool :=
  let key := (ps_hotspot_key s, ps_poc_id s) in
  (mkShareTables (<[key := s]> (gateway_shares db)) (gateway_dc_shares db),
   bool_decide (gateway_shares db !! key = None)).

(** [GatewayDCShare::save]: on a conflict the hotspot of the row stays. *)
Definition dc_share_save (db : share_tables) (s : GatewayDCShare) : share_tables * bool :=
  let row :=
    match gateway_dc_shares db !! ds_id s with
    | Some old => mkDCShare (ds_hotspot_key old) (ds_reward_timestamp s) (ds_num_dcs s) (ds_id s)
    | None => s
    end in
  (mkShareTables (gateway_shares db) (<[ds_id s := row]> (gateway_dc_shares db)),
   bool_decide (gateway_dc_shares db !! ds_id s = None)).

(** The share of a selected witness. *)
Definition witness_share `{!ProtoTypes} (id : string) (w : IotVerifiedWitnessReport dec)
  : option GatewayPocShare :=
  match vw_status w with
  | StatusValid =>
      if dgtb (vw_hex_scale w) dec_zero && dgtb (vw_reward_unit w) dec_zero
      then Some (mkPocShare (wr_pub_key (vw_report w)) Witness (vw_received_timestamp w)
                   (vw_hex_scale w) (vw_reward_unit w) id)
      else None
  | StatusInvalid => None
  end.

Definition shares_from_poc `{!ProtoTypes} (report : IotPoc dec) : list GatewayPocShare :=
  let b := poc_beacon_report report in
  (if dgtb (vb_hex_scale b) dec_zero && dgtb (vb_reward_unit b) dec_zero
   then [mkPocShare (br_pub_key (vb_report b)) Beacon (vb_received_timestamp b) (vb_hex_scale b)
           (vb_reward_unit b) (poc_id report)]
   else []) ++ omap (witness_share (poc_id report)) (poc_selected_witnesses report).

Record RewardShares : Type := mkShares {
  beacon_shares : dec;
  witness_shares : dec;
  dc_shares : dec
}.

Definition shares_default : RewardShares := mkShares dec_zero dec_zero dec_zero.

Definition add_poc_reward (self : RewardShares) (share : GatewayPocShare) : RewardShares :=
  let rewards := (ps_hex_scale share * ps_reward_unit share)%dec in
  match ps_reward_type share with
  | Beacon => mkShares (beacon_shares self + rewards)%dec (witness_shares self) (dc_shares self)
  | Witness => mkShares (beacon_shares self) (witness_shares self + rewards)%dec (dc_shares self)
  end.

Definition add_dc_reward (self : RewardShares) (share : GatewayDCShare) : RewardShares :=
  mkShares (beacon_shares self) (witness_shares self) (dc_shares self + ds_num_dcs share)%dec.

Abbreviation GatewayRewardShares := (gmap PublicKeyBinary RewardShares).

(** [shares.entry(key).or_default()], updated with [f]. *)
Definition entry_update (shares : GatewayRewardShares) (key : PublicKeyBinary)
    (f : RewardShares -> RewardShares) : GatewayRewardShares :=
  <[key := f (default shares_default (shares !! key))]> shares.

(** [reward_timestamp > $1 and reward_timestamp <= $2] *)
Definition in_period (p : Range) (t : Z) : bool := (r_start p <? t) && (t <=? r_end p).

Definition aggregate_poc_shares (shares : GatewayRewardShares) (db : share_tables) (p : Range)
  : GatewayRewardShares :=
  fold_left (fun m s => entry_update m (ps_hotspot_key s) (fun r => add_poc_reward r s))
    (List.filter (fun s => in_period p (ps_reward_timestamp s)) (map_to_list (gateway_shares db)).*2)
    shares.

Definition aggregate_dc_shares (shares : GatewayRewardShares) (db : share_tables) (p : Range)
  : GatewayRewardShares :=
  fold_left (fun m s => entry_update m (ds_hotspot_key s) (fun r => add_dc_reward r s))
    (List.filter (fun s => in_period p (ds_reward_timestamp s)) (map_to_list (gateway_dc_shares db)).*2)
    shares.

Definition aggregate_reward_shares (db : share_tables) (p : Range) : GatewayRewardShares :=
  aggregate_dc_shares (aggregate_poc_shares ∅ db p) db p.

(** [delete ... where reward_timestamp <= $1] in both tables. *)
Definition clear_rewarded_shares (db : share_tables) (period_end : Z) : share_tables :=
  mkShareTables
    (filter (fun kv => period_end < ps_reward_timestamp kv.2) (gateway_shares db))
    (filter (fun kv => period_end < ds_reward_timestamp kv.2) (gateway_dc_shares db)).
End Model.

Arguments share_tables : clear implicits.
Arguments RewardShares : clear implicits.
Arguments GatewayPocShare : clear implicits.
Arguments GatewayDCShare : clear implicits.

(** ** Rewards *)

Record GatewayReward : Type := mkGatewayReward {
  gr_hotspot_key : PublicKeyBinary;
  beacon_amount : Z;
  witness_amount : Z;
  dc_transfer_amount : Z
}.

Inductive UnallocatedRewardType : Type := UnallocatedPoc | UnallocatedOperation | UnallocatedOracle.

(** [proto::iot_reward_share::Reward] *)
Inductive Reward : Type :=
| RGateway (g : GatewayReward)
| ROperational (amount : Z)
| RUnallocated (reward_type : UnallocatedRewardType) (amount : Z).

Record IotRewardShare : Type := mkRewardShare {
  start_period : Z;
  end_period : Z;
  reward : Reward
}.

Section Rewards.
Context {dec : Type} `{!Decimal dec}.
Implicit Types (shares : gmap PublicKeyBinary (RewardShares dec)).

Definition iot_price_to_bones (iot_price : dec) : dec :=
  (iot_price / dec_of_Z 1000000 / dec_of_Z 1000000)%dec.

Definition dc_to_iot_bones (dc_amount iot_price : dec) : dec :=
  let iot_price := iot_price_to_bones iot_price in
  let dc_in_usd := (dc_amount * DC_USD_PRICE)%dec in
  round_dp DEFAULT_PREC ToPositiveInfinity (dc_in_usd / iot_price)%dec.

Definition iot_bones_to_dc (iot_amount iot_price : dec) : dec :=
  let iot_price := iot_price_to_bones iot_price in
  let iot_value := (iot_amount * iot_price)%dec in
  round_dp 0 ToNegativeInfinity (iot_value / DC_USD_PRICE)%dec.

Definition normalize_dc_transfer_rewards (used total : dec) : dec * dec :=
  if dleb used total then ((total - used)%dec, used) else (dec_zero, total).

Definition rewards_per_share (total_rewards total_shares : dec) : dec :=
  if dgtb total_shares dec_zero then
    round_dp DEFAULT_PREC MidpointNearestEven (total_rewards / total_shares)%dec
  else dec_zero.

Definition compute_rewards (rewards_per_share shares : dec) : Z :=
  to_u64_or_0 (round_dp 0 ToZero (rewards_per_share * shares)%dec).

Definition total_shares shares : dec * dec * dec :=
  fold_left (fun acc kv =>
      let '(beacon_sum, witness_sum, dc_sum) := acc in
      let s := kv.2 in
      ((beacon_sum + beacon_shares s)%dec, (witness_sum + witness_shares s)%dec,
       (dc_sum + dc_shares s)%dec))
    (map_to_list shares) (dec_zero, dec_zero, dec_zero).

Definition calculate_rewards_per_share shares (reward_period : Range) (iot_price : dec)
  : dec * dec * dec :=
  let '(total_beacon_shares, total_witness_shares, total_dc_shares) := total_shares shares in
  let duration := r_end reward_period - r_start reward_period in
  let total_dc_transfer_rewards := get_scheduled_dc_tokens duration in
  let total_dc_transfer_rewards_used := dc_to_iot_bones total_dc_shares iot_price in
  let '(unused, capped) :=
    normalize_dc_transfer_rewards total_dc_transfer_rewards_used total_dc_transfer_rewards in
  let '(total_beacon_rewards, total_witness_rewards) := get_scheduled_poc_tokens duration unused in
  (rewards_per_share total_beacon_rewards total_beacon_shares,
   rewards_per_share total_witness_rewards total_witness_shares,
   rewards_per_share capped total_dc_shares).

(** The reward of one gateway. *)
Definition gateway_reward (b w d : dec) (kv : PublicKeyBinary * RewardShares dec) : GatewayReward :=
  mkGatewayReward kv.1 (compute_rewards b (beacon_shares kv.2))
    (compute_rewards w (witness_shares kv.2)) (compute_rewards d (dc_shares kv.2)).

Definition nonzero_reward (g : GatewayReward) : bool :=
  (0 <? beacon_amount g) || (0 <? witness_amount g) || (0 <? dc_transfer_amount g).

Definition gateway_total (g : GatewayReward) : Z :=
  u64_add (u64_add (dc_transfer_amount g) (beacon_amount g)) (witness_amount g).

Definition share_of_period (p : Range) (r : Reward) : IotRewardShare :=
  mkRewardShare (encode_timestamp (r_start p)) (encode_timestamp (r_end p)) r.

Definition into_iot_reward_shares shares (p : Range) (b w d : dec) : list (Z * IotRewardShare) :=
  (fun g => (gateway_total g, share_of_period p (RGateway g))) <$>
    List.filter nonzero_reward (gateway_reward b w d <$> map_to_list shares).

Definition write_unallocated_reward (sink : list IotRewardShare) (t : UnallocatedRewardType)
    (amount : Z) (p : Range) : list IotRewardShare :=
  if 0 <? amount then sink ++ [share_of_period p (RUnallocated t amount)] else sink.

Definition reward_poc_and_dc (db : share_tables dec) (sink : list IotRewardShare) (p : Range)
    (iot_price : dec) : list IotRewardShare :=
  let shares := aggregate_reward_shares db p in
  let '(b, w, d) := calculate_rewards_per_share shares p iot_price in
  let duration := r_end p - r_start p in
  let '(total_beacon_rewards, total_witness_rewards) :=
    get_scheduled_poc_tokens duration (dec_new 0 1) in
  let total_dc_rewards := get_scheduled_dc_tokens duration in
  let total_poc_dc_reward_allocation :=
    (total_beacon_rewards + total_witness_rewards + total_dc_rewards)%dec in
  let rewards := into_iot_reward_shares shares p b w d in
  let allocated_gateway_rewards := fold_left (fun a r => u64_add a r.1) rewards 0 in
  write_unallocated_reward (sink ++ rewards.*2) UnallocatedPoc
    (unallocated_amount total_poc_dc_reward_allocation allocated_gateway_rewards) p.

Definition reward_operational (sink : list IotRewardShare) (p : Range) : list IotRewardShare :=
  let total := get_scheduled_ops_fund_tokens (r_end p - r_start p) in
  let allocated := to_u64_or_0 (round_dp 0 ToZero total) in
  write_unallocated_reward (sink ++ [share_of_period p (ROperational allocated)])
    UnallocatedOperation (unallocated_amount total allocated) p.

Definition reward_oracles (sink : list IotRewardShare) (p : Range) : list IotRewardShare :=
  let total := get_scheduled_oracle_tokens (r_end p - r_start p) in
  write_unallocated_reward sink UnallocatedOracle (unallocated_amount total 0) p.

(** [Rewarder::reward]: the shares written, the tables and the rows of [meta]
    after the transaction. *)
Definition rewarder_reward (db : share_tables dec) (s : Scheduler) (iot_price : dec)
  : list IotRewardShare * share_tables dec * reward_meta :=
  let p := reward_period s in
  let sink := reward_poc_and_dc db [] p iot_price in
  let sink := reward_operational sink p in
  let sink := reward_oracles sink p in
  (sink, clear_rewarded_shares db (r_start p), iot_reward_meta s).

(** [RewardManifest], written once the transaction is committed. *)
Record RewardManifest : Type := mkManifest {
  rm_start_timestamp : Z;
  rm_end_timestamp : Z;
  rm_written_files : list string
}.

Definition rewarder_manifest (s : Scheduler) (written_files : list string) : RewardManifest :=
  mkManifest (encode_timestamp (r_start (reward_period s))) (encode_timestamp (r_end (reward_period s)))
    written_files.

(** [Rewarder::data_current_check] *)
Definition data_current_check (db : share_tables dec) (p : Range) (checks_disabled_until : Z) : bool :=
  if checks_disabled_until <=? r_end p then
    existsb (fun s => r_end p <=? ps_reward_timestamp s) (map_to_list (gateway_shares db)).*2 &&
    existsb (fun s => r_end p <=? ds_reward_timestamp s) (map_to_list (gateway_dc_shares db)).*2
  else true.
End Rewards.

(** ** The emission *)

Open Scope Q_scope.

(** Bones per day, exactly: [32.5 * 10 ^ 9] tokens a year of 366 days. *)
Definition daily_emission : Q := 32500000000000000 # 366.

Section Emission.
Context {dec : Type} `{!Decimal dec, !DecimalLaws dec}.

Lemma dec_of_Z_eq z : (Z.abs z < 2 ^ 63)%Z -> dval (dec := dec) (dec_of_Z z) == inject_Z z.
Proof. apply dec_of_Z_val. Qed.

Lemma rewards_per_day_near :
  daily_emission - (1 # 1000000000) <= dval (dec := dec) REWARDS_PER_DAY
  <= daily_emission + (1 # 1000000000).
Proof.
  unfold REWARDS_PER_DAY.
  pose proof (dec_of_Z_eq 32500000000 ltac:(done)) as E1.
  pose proof (dec_of_Z_eq 366 ltac:(done)) as E2.
  pose proof (dec_of_Z_eq 1000000 ltac:(done)) as E3.
  set (a := dec_of_Z 32500000000) in *. set (b := dec_of_Z 366) in *. set (c := dec_of_Z 1000000) in *.
  assert (dval a / dval b == 32500000000 # 366) as Eq by (rewrite E1, E2; reflexivity).
  destruct (ddiv_near a b) as [H0 H1].
  - rewrite E2. done.
  - rewrite Eq. discriminate.
  - rewrite Eq. apply Qle_bool_iff. vm_compute. reflexivity.
  - unfold near in H1. rewrite Eq in H1. set (x := dval (a / b)%dec) in *.
    assert (0 <= x * dval c) as H2 by (rewrite E3; apply Qmult_le_0_compat; [done|discriminate]).
    assert (x * dval c == x * (1000000 # 1)) as E4 by (rewrite E3; reflexivity).
    destruct (dmul_near (a / b)%dec c) as [_ H3]; fold x in H2 |- *.
    + done.
    + rewrite E4. change (inject_Z (10 ^ 28)) with (10000000000000000000000000000 # 1). lra.
    + unfold near in H3. fold x in H3. rewrite E4 in H3. unfold daily_emission. lra.
Qed.

(** The share [m / 100] of the emission of [secs] seconds. *)
Definition emission (m secs : Z) : Q :=
  daily_emission * (inject_Z m * (1 # 100)) * (inject_Z secs * (1 # 86400)).

(** The period lengths the bounds below are stated for: up to a week. *)
Definition period_secs_ok (d : Z) : Prop := (0 <= num_seconds d <= 604800)%Z.

Lemma emission_bounds m secs :
  (0 <= m <= 100)%Z -> (0 <= secs <= 604800)%Z ->
  0 <= emission m secs <= inject_Z m * (7000000000000 # 1).
Proof.
  intros Hm Hs. unfold emission.
  assert (0 <= inject_Z m) as H1 by (change 0 with (inject_Z 0); rewrite <- Zle_Qle; lia).
  assert (0 <= inject_Z secs) as H2 by (change 0 with (inject_Z 0); rewrite <- Zle_Qle; lia).
  assert (inject_Z secs <= 604800 # 1) as H3
    by (change (604800 # 1) with (inject_Z 604800); rewrite <- Zle_Qle; lia).
  set (x := inject_Z m) in *. set (y := inject_Z secs) in *.
  assert (0 <= x * y) as H4 by (by apply Qmult_le_0_compat).
  assert (x * y <= x * (604800 # 1)) as H5 by (rewrite !(Qmult_comm x); by apply Qmult_le_compat_r).
  assert (daily_emission * (x * (1 # 100)) * (y * (1 # 86400)) ==
          (32500000000000000 # 3162240000) * (x * y)) as -> by (unfold daily_emission; field).
  lra.
Qed.

(** The daily amount of a pot. *)
Lemma daily_share_near m :
  (0 <= m <= 100)%Z ->
  let A := daily_emission * (inject_Z m * (1 # 100)) in
  let t := dval (dec := dec) (REWARDS_PER_DAY * dec_new m 2)%dec in
  0 <= A <= 88800000000000 # 1 /\ 0 <= t /\ A - (1 # 500000000) <= t <= A + (1 # 500000000).
Proof.
  intros Hm. pose proof (dec_new_val (dec := dec) m 2 ltac:(lia) ltac:(lia)) as Ep.
  set (pct := dec_new m 2) in *. cbv zeta.
  assert (0 <= inject_Z m <= 100 # 1) as Hm'
    by (change (100 # 1) with (inject_Z 100); change 0 with (inject_Z 0); rewrite <- !Zle_Qle; lia).
  assert (dval pct == inject_Z m * (1 # 100)) as Ep' by (rewrite Ep; change (pow10 2) with (100 # 1); field).
  set (p := inject_Z m * (1 # 100)) in *. assert (0 <= p <= 1) as Hp by (unfold p; lra).
  pose proof (Qmult_near _ _ _ p 1 rewards_per_day_near Hp ltac:(discriminate)) as H1.
  assert (0 <= daily_emission * p <= 88800000000000 # 1) as HA.
  { split; [apply Qmult_le_0_compat; [discriminate|lra]|].
    apply Qle_trans with (daily_emission * 1); [|discriminate].
    rewrite !(Qmult_comm daily_emission). apply Qmult_le_compat_r; [lra|discriminate]. }
  assert (dval (dec := dec) REWARDS_PER_DAY * dval pct == dval (dec := dec) REWARDS_PER_DAY * p) as E3
    by (by rewrite Ep').
  assert (0 <= dval (dec := dec) REWARDS_PER_DAY * p) as H1'.
  { apply Qmult_le_0_compat; [|lra]. pose proof rewards_per_day_near. unfold daily_emission in *. lra. }
  destruct (dmul_near REWARDS_PER_DAY pct) as [H2 H3];
    [by rewrite E3|rewrite E3; change (inject_Z (10 ^ 28)) with (10000000000000000000000000000 # 1); lra|].
  unfold near in H3. rewrite E3 in H3. split; [done|]. split; [done|]. lra.
Qed.

(** A daily amount over a period. *)
Lemma tokens_by_duration_near (tokens : dec) A d :
  0 <= A <= 88800000000000 # 1 -> 0 <= dval tokens ->
  A - (1 # 500000000) <= dval tokens <= A + (1 # 500000000) -> period_secs_ok d ->
  let E := A * (1 # 86400) * inject_Z (num_seconds d) in
  let t := dval (get_tokens_by_duration tokens d) in
  0 <= t /\ E - (1 # 10000000) <= t <= E + (1 # 10000000).
Proof.
  intros HA H0 Ht Hs. cbv zeta.
  pose proof (dec_of_Z_eq 86400 ltac:(done)) as E1.
  pose proof (dec_of_Z_eq (num_seconds d) ltac:(unfold period_secs_ok in Hs; lia)) as E2.
  unfold get_tokens_by_duration, DEFAULT_PREC. change (num_seconds (hours 24)) with 86400%Z.
  set (c86400 := dec_of_Z 86400) in *. set (csecs := dec_of_Z (num_seconds d)) in *.
  set (secs := num_seconds d) in *.
  assert (0 <= inject_Z secs <= 604800 # 1) as Hs'
    by (change (604800 # 1) with (inject_Z 604800); change 0 with (inject_Z 0);
        unfold period_secs_ok in Hs; fold secs in Hs; rewrite <- !Zle_Qle; lia).
  set (x0 := dval tokens) in *.
  assert (x0 / dval c86400 == x0 * (1 # 86400)) as E4
    by (rewrite E1; change (inject_Z 86400) with (86400 # 1); field).
  destruct (ddiv_near tokens c86400) as [H5 H6]; fold x0.
  { rewrite E1. done. }
  { rewrite E4. lra. }
  { rewrite E4. change (inject_Z (10 ^ 28)) with (10000000000000000000000000000 # 1). lra. }
  unfold near in H6. fold x0 in H6. rewrite E4 in H6. set (x1 := dval (tokens / c86400)%dec) in *.
  assert (A * (1 # 86400) - (1 # 10000000000000) <= x1 <= A * (1 # 86400) + (1 # 10000000000000)) as H7 by lra.
  pose proof (Qmult_near _ _ _ (inject_Z secs) _ H7 Hs' ltac:(discriminate)) as H8.
  assert (0 <= A * (1 # 86400) <= 1027777778 # 1) as HA' by lra.
  assert (A * (1 # 86400) * inject_Z secs <= (1027777778 # 1) * (604800 # 1)) as HE.
  { apply Qle_trans with ((1027777778 # 1) * inject_Z secs); [apply Qmult_le_compat_r; lra|]. lra. }
  assert (0 <= x1 * inject_Z secs) as H9 by (apply Qmult_le_0_compat; lra).
  assert (x1 * dval csecs == x1 * inject_Z secs) as E6 by (by rewrite E2).
  destruct (dmul_near (tokens / c86400)%dec csecs) as [H10 H11]; fold x1.
  { by rewrite E6. }
  { rewrite E6. change (inject_Z (10 ^ 28)) with (10000000000000000000000000000 # 1). lra. }
  unfold near in H11. fold x1 in H11. rewrite E6 in H11.
  destruct (round15_near (tokens / c86400 * csecs)%dec H10) as [H12 H13].
  split; [done|]. lra.
Qed.

Lemma get_tokens_near m d :
  (0 <= m <= 100)%Z -> period_secs_ok d ->
  let t := dval (get_tokens_by_duration (dec := dec) (REWARDS_PER_DAY * dec_new m 2)%dec d) in
  0 <= t /\ emission m (num_seconds d) - (1 # 10000000) <= t
  <= emission m (num_seconds d) + (1 # 10000000).
Proof.
  intros Hm Hs. destruct (daily_share_near m Hm) as (HA & H0 & Ht).
  pose proof (tokens_by_duration_near _ _ d HA H0 Ht Hs) as H. cbv zeta in *.
  assert (daily_emission * (inject_Z m * (1 # 100)) * (1 # 86400) * inject_Z (num_seconds d) ==
          emission m (num_seconds d)) as E by (unfold emission; ring).
  by rewrite E in H.
Qed.
End Emission.

(** ** Pots and payouts *)

Section Pots.
Context {dec : Type} `{!Decimal dec, !DecimalLaws dec}.

(** A column of shares: non-negative, at most ten decimals, a bounded total. *)
Definition column_ok {A} (f : A -> dec) (l : list A) : Prop :=
  (forall a, a ∈ l -> on_grid 10 (dval (f a)) /\ 0 <= dval (f a)) /\
  sumQ (fun a => dval (f a)) l <= inject_Z (10 ^ 13) /\ (Z.of_nat (length l) <= 10 ^ 18)%Z.

Lemma column_sum {A} (f : A -> dec) (l : list A) :
  column_ok f l ->
  dval (dec_sum f l) == sumQ (fun a => dval (f a)) l /\
  (dval (dec_sum f l) == 0 \/ (1 # 10000000000) <= dval (dec_sum f l)) /\
  dval (dec_sum f l) <= inject_Z (10 ^ 13) /\
  (forall a, a ∈ l -> 0 <= dval (f a) <= dval (dec_sum f l)).
Proof.
  intros (Hl & Hs & Hn).
  assert (dval (dec_sum f l) == sumQ (fun a => dval (f a)) l) as E.
  { apply dec_sum_exact; [done|]. apply Qle_trans with (1 := Hs). rewrite <- Zle_Qle. lia. }
  split; [done|]. split; [|split; [by rewrite E|]].
  - rewrite E. apply on_grid_cases.
    + clear E Hs Hn. induction l as [|a l IH]; [by exists 0%Z|]. rewrite sumQ_cons. apply on_grid_add.
      * apply Hl. left.
      * apply IH. intros b Hb. apply Hl. by right.
    + apply sumQ_nonneg. intros a Ha. by apply Hl.
  - intros a Ha. split; [by apply Hl|]. rewrite E.
    apply (sumQ_elem (fun a => dval (f a))); [done|]. intros b Hb. by apply Hl.
Qed.

(** Without shares nothing is paid. *)
Lemma compute_rewards_zero x : 0 <= dval x <= inject_Z (10 ^ 13) -> compute_rewards dec_zero x = 0%Z.
Proof.
  intros Hx. pose proof dec_zero_val as E0.
  assert (dval dec_zero * dval x == 0) as E by (rewrite E0; ring).
  destruct (share_payout_product dec_zero x) as [[_ H2] H3].
  - by rewrite E.
  - rewrite E. discriminate.
  - rewrite E in H2. unfold share_payout in *. unfold compute_rewards.
    assert (inject_Z (to_u64_or_0 (round_dp 0 ToZero (dmul dec_zero x))) < inject_Z 1) as Hlt
      by (apply Qle_lt_trans with (1 := H2); reflexivity).
    rewrite <- Zlt_Qlt in Hlt. lia.
Qed.

(** The payouts of a pot [T] to the holders in [l]. *)
Lemma pot_payouts {A} (f : A -> dec) (l : list A) T :
  column_ok f l -> 0 <= dval T <= inject_Z (10 ^ 15) ->
  let pay a := compute_rewards (rewards_per_share T (dec_sum f l)) (f a) in
  inject_Z (sumZ pay l) <= dval T + (1 # 100) /\
  (forall a, a ∈ l -> (0 <= pay a)%Z) /\
  (0 < dval (dec_sum f l) -> forall a, a ∈ l ->
     exact_share T (dec_sum f l) (f a) - 1 - (1 # 100) < inject_Z (pay a)
     <= exact_share T (dec_sum f l) (f a) + (1 # 100)).
Proof.
  intros Hc HT. destruct (column_sum f l Hc) as (E & Hpos & Hle & Hel). destruct Hc as (Hl & Hs & Hn).
  cbv zeta. unfold rewards_per_share. destruct (dgtb (dec_sum f l) dec_zero) eqn:Eg.
  - apply dgtb_val in Eg. pose proof dec_zero_val as E0. rewrite E0 in Eg.
    assert (pot_ok T (dec_sum f l)) as Hp.
    { split; [done|]. split; [|done]. destruct Hpos as [Hz|Hp]; [|done]. exfalso. lra. }
    split; [|split].
    + apply (share_payouts_bound f l T (dec_sum f l)); [done| |done|lia].
      intros a Ha. by apply Hl.
    + intros a Ha. by apply (share_payout_near T (dec_sum f l) (f a) Hp (Hel a Ha)).
    + intros _ a Ha. apply (share_payout_near T (dec_sum f l) (f a) Hp (Hel a Ha)).
  - assert (~ dval dec_zero < dval (dec_sum f l)) as Hng.
    { intros H. apply dgtb_val in H. congruence. }
    assert (forall a, a ∈ l -> compute_rewards dec_zero (f a) = 0%Z) as Hz.
    { intros a Ha. apply compute_rewards_zero. destruct (Hel a Ha). split; [done|].
      by apply Qle_trans with (2 := Hle). }
    split; [|split].
    + assert (sumZ (fun a => compute_rewards dec_zero (f a)) l = 0%Z) as ->.
      { transitivity (sumZ (fun _ : A => 0%Z) l); [by apply sumZ_ext|].
        clear. induction l as [|a l IH]; [done|]. by rewrite sumZ_cons, IH. }
      change (inject_Z 0) with 0. lra.
    + intros a Ha. by rewrite Hz.
    + intros Hp. exfalso. apply Hng. by rewrite dec_zero_val.
Qed.
End Pots.

(** ** The rewards of a period *)

Section Period.
Context {dec : Type} `{!Decimal dec, !DecimalLaws dec}.
Implicit Types (shares : gmap PublicKeyBinary (RewardShares dec)).

Definition beacon_of (kv : PublicKeyBinary * RewardShares dec) : dec := beacon_shares kv.2.
Definition witness_of (kv : PublicKeyBinary * RewardShares dec) : dec := witness_shares kv.2.
Definition dc_of (kv : PublicKeyBinary * RewardShares dec) : dec := dc_shares kv.2.

Definition shares_ok shares : Prop :=
  column_ok beacon_of (map_to_list shares) /\ column_ok witness_of (map_to_list shares) /\
  column_ok dc_of (map_to_list shares).

Lemma total_shares_sums shares :
  total_shares shares =
  (dec_sum beacon_of (map_to_list shares), dec_sum witness_of (map_to_list shares),
   dec_sum dc_of (map_to_list shares)).
Proof.
  unfold total_shares, dec_sum.
  generalize (dec_zero (dec := dec)) at 1 4 as x. generalize (dec_zero (dec := dec)) at 1 3 as y.
  generalize (dec_zero (dec := dec)) as z.
  induction (map_to_list shares) as [|kv l IH]; intros z y x; [done|]. apply IH.
Qed.

(** Prices are integers, in millionths of a dollar per token. *)
Definition price_ok (price : dec) : Prop :=
  exists z, (1 <= z < 2 ^ 63)%Z /\ price = dec_of_Z z.

Lemma price_bones_val z :
  (1 <= z < 2 ^ 63)%Z -> dval (iot_price_to_bones (dec := dec) (dec_of_Z z)) == inject_Z z / pow10 12.
Proof. apply micros_twice_val. Qed.

Lemma dc_to_iot_bones_nonneg (dc price : dec) :
  0 <= dval dc <= inject_Z (10 ^ 13) -> price_ok price -> 0 <= dval (dc_to_iot_bones dc price).
Proof.
  intros [H0 H1] (z & Hz & ->). unfold dc_to_iot_bones. rewrite round_dp_val. apply round_q_nonneg.
  pose proof (price_bones_val z Hz) as Ep. set (price := iot_price_to_bones _) in *.
  pose proof (dec_new_val (dec := dec) 1 5 ltac:(lia) ltac:(lia)) as Ec. fold (DC_USD_PRICE (dec := dec)) in Ec.
  change (inject_Z (10 ^ 13)) with (10000000000000 # 1) in H1.
  assert (dval dc * dval (dec := dec) DC_USD_PRICE == dval dc * (1 # 100000)) as E1 by (rewrite Ec; reflexivity).
  destruct (dmul_near dc DC_USD_PRICE) as [H2 H3].
  { rewrite E1. lra. }
  { rewrite E1. change (inject_Z (10 ^ 28)) with (10000000000000000000000000000 # 1). lra. }
  unfold near in H3. rewrite E1 in H3. set (usd := (dc * DC_USD_PRICE)%dec) in *.
  assert ((1 # 1000000000000) <= dval price) as Hpp.
  { rewrite Ep. change (pow10 12) with (1000000000000 # 1).
    assert (inject_Z 1 <= inject_Z z) as H4 by (rewrite <- Zle_Qle; lia). change (inject_Z 1) with 1 in H4.
    apply Qle_shift_div_l; [done|]. lra. }
  apply (ddiv_near usd price); [lra| |].
  - apply Qle_shift_div_l; lra.
  - apply Qle_shift_div_r; [lra|]. change (inject_Z (10 ^ 28)) with (10000000000000000000000000000 # 1). lra.
Qed.

Lemma normalize_near (used total : dec) :
  0 <= dval used -> 0 <= dval total <= inject_Z (10 ^ 15) ->
  let n := normalize_dc_transfer_rewards used total in
  0 <= dval n.1 <= dval total + (1 # 1000000000) /\ 0 <= dval n.2 <= dval total /\
  dval total - (1 # 1000000000) <= dval n.1 + dval n.2 <= dval total + (1 # 1000000000).
Proof.
  intros Hu [H0 H1]. change (inject_Z (10 ^ 15)) with (1000000000000000 # 1) in H1.
  unfold normalize_dc_transfer_rewards. destruct (dleb used total) eqn:E; cbn.
  - apply dleb_val in E. destruct (dsub_near total used) as [H2 H3]; [lra| |].
    { change (inject_Z (10 ^ 28)) with (10000000000000000000000000000 # 1). lra. }
    unfold near in H3. lra.
  - pose proof (dec_zero_val (dec := dec)) as Ez. rewrite Ez. lra.
Qed.

(** Adding a percentage of an amount to another. *)
Lemma add_percent_near (t r : dec) m :
  (0 <= m <= 100)%Z -> 0 <= dval t <= inject_Z (10 ^ 15) -> 0 <= dval r <= inject_Z (10 ^ 15) ->
  let x := dval (t + r * dec_new m 2)%dec in
  let e := dval t + dval r * (inject_Z m * (1 # 100)) in
  0 <= x /\ e - (1 # 100000000) <= x <= e + (1 # 100000000).
Proof.
  intros Hm [Ht0 Ht1] [Hr0 Hr1]. cbv zeta.
  change (inject_Z (10 ^ 15)) with (1000000000000000 # 1) in Ht1, Hr1.
  pose proof (dec_new_val (dec := dec) m 2 ltac:(lia) ltac:(lia)) as Ep.
  assert (0 <= inject_Z m <= 100 # 1) as Hm'
    by (change (100 # 1) with (inject_Z 100); change 0 with (inject_Z 0); rewrite <- !Zle_Qle; lia).
  assert (dval r * dval (dec_new m 2) == dval r * (inject_Z m * (1 # 100))) as E
    by (rewrite Ep; change (pow10 2) with (100 # 1); field).
  assert (0 <= dval r * (inject_Z m * (1 # 100)) <= dval r) as Hq.
  { split; [apply Qmult_le_0_compat; lra|].
    apply Qle_trans with (dval r * 1); [|lra].
    rewrite !(Qmult_comm (dval r)). apply Qmult_le_compat_r; lra. }
  set (q := dval r * (inject_Z m * (1 # 100))) in *.
  change (10 ^ 28)%Z with 10000000000000000000000000000%Z in *.
  destruct (dmul_near r (dec_new m 2)) as [H2 H3]; [rewrite E; lra|rewrite E|].
  { change (inject_Z (10 ^ 28)) with (10000000000000000000000000000 # 1). lra. }
  unfold near in H3. rewrite E in H3.
  destruct (dadd_near t (r * dec_new m 2)%dec) as [H4 H5]; [lra| |].
  { change (inject_Z (10 ^ 28)) with (10000000000000000000000000000 # 1). lra. }
  unfold near in H5. split; [done|]. lra.
Qed.

Lemma emission_add m k secs : emission (m + k) secs == emission m secs + emission k secs.
Proof. unfold emission. rewrite inject_Z_plus. ring. Qed.

Lemma tokens_bounds m d :
  (0 <= m <= 50)%Z -> period_secs_ok d ->
  let t := dval (get_tokens_by_duration (dec := dec) (REWARDS_PER_DAY * dec_new m 2)%dec d) in
  0 <= t <= (400000000000000 # 1) /\
  emission m (num_seconds d) - (1 # 10000000) <= t <= emission m (num_seconds d) + (1 # 10000000).
Proof.
  intros Hm Hd. destruct (get_tokens_near (dec := dec) m d ltac:(lia) Hd) as [H0 H1].
  pose proof (emission_bounds m (num_seconds d) ltac:(lia) Hd) as HE.
  assert (inject_Z m <= 50 # 1) by (change (50 # 1) with (inject_Z 50); rewrite <- Zle_Qle; lia).
  cbv zeta in *. split; [split; [done|lra]|done].
Qed.

Lemma pots_bounds (used : dec) d :
  period_secs_ok d -> 0 <= dval used ->
  let n := normalize_dc_transfer_rewards used (get_scheduled_dc_tokens d) in
  let t := get_scheduled_poc_tokens d n.1 in
  0 <= dval t.1 <= inject_Z (10 ^ 15) /\ 0 <= dval t.2 <= inject_Z (10 ^ 15) /\
  0 <= dval n.2 <= inject_Z (10 ^ 15) /\
  emission 80 (num_seconds d) - (1 # 1000000) <= dval t.1 + dval t.2 + dval n.2
  <= emission 80 (num_seconds d) + (1 # 1000000).
Proof.
  intros Hd Hu.
  destruct (tokens_bounds 6 d ltac:(lia) Hd) as [Hb0 Hb1].
  destruct (tokens_bounds 24 d ltac:(lia) Hd) as [Hw0 Hw1].
  destruct (tokens_bounds 50 d ltac:(lia) Hd) as [Hd0 Hd1].
  pose proof (emission_add 6 24 (num_seconds d)) as E1. pose proof (emission_add 30 50 (num_seconds d)) as E2.
  change (6 + 24)%Z with 30%Z in E1. change (30 + 50)%Z with 80%Z in E2. cbv zeta in *.
  change (get_tokens_by_duration (REWARDS_PER_DAY * dec_new 50 2)%dec d)
    with (get_scheduled_dc_tokens (dec := dec) d) in Hd0, Hd1.
  change (inject_Z (10 ^ 15)) with (1000000000000000 # 1).
  destruct (normalize_near used (get_scheduled_dc_tokens d) Hu) as (Hn1 & Hn2 & Hn3).
  { change (inject_Z (10 ^ 15)) with (1000000000000000 # 1). lra. }
  set (n := normalize_dc_transfer_rewards _ _) in *. cbn [get_scheduled_poc_tokens fst snd].
  destruct (add_percent_near (get_tokens_by_duration (REWARDS_PER_DAY * dec_new 6 2)%dec d) n.1 20)
    as [H1 H2]; [lia| | |]; [change (inject_Z (10 ^ 15)) with (1000000000000000 # 1); lra..|].
  destruct (add_percent_near (get_tokens_by_duration (REWARDS_PER_DAY * dec_new 24 2)%dec d) n.1 80)
    as [H3 H4]; [lia| | |]; [change (inject_Z (10 ^ 15)) with (1000000000000000 # 1); lra..|].
  unfold BEACON_REWARDS_PER_DAY_PERCENT, WITNESS_REWARDS_PER_DAY_PERCENT, BEACON_DC_REMAINER_PERCENT,
    WITNESS_DC_REMAINER_PERCENT.
  change (inject_Z 20) with (20 # 1) in *. change (inject_Z 80) with (80 # 1) in *. cbv zeta in *. lra.
Qed.
End Period.

(** ** Conservation *)

(** The bones a reward share pays. *)
Definition share_amount (s : IotRewardShare) : Z :=
  match reward s with
  | RGateway g => (beacon_amount g + witness_amount g + dc_transfer_amount g)%Z
  | ROperational a => a
  | RUnallocated _ a => a
  end.

Lemma write_unallocated_sum sink t a p :
  (0 <= a)%Z ->
  sumZ share_amount (write_unallocated_reward sink t a p) = (sumZ share_amount sink + a)%Z.
Proof.
  intros Ha. unfold write_unallocated_reward. destruct (Z.ltb_spec 0 a).
  - rewrite sumZ_app. cbn. lia.
  - lia.
Qed.

Section Conservation.
Context {dec : Type} `{!Decimal dec, !DecimalLaws dec}.
Implicit Types (shares : gmap PublicKeyBinary (RewardShares dec)).

Lemma gateways_sum shares p b w d (B W D : Z) :
  let l := map_to_list shares in
  (forall kv, kv ∈ l -> 0 <= compute_rewards b (beacon_of kv) /\
     0 <= compute_rewards w (witness_of kv) /\ 0 <= compute_rewards d (dc_of kv))%Z ->
  sumZ (fun kv => compute_rewards b (beacon_of kv)) l = B ->
  sumZ (fun kv => compute_rewards w (witness_of kv)) l = W ->
  sumZ (fun kv => compute_rewards d (dc_of kv)) l = D -> (B + W + D < 2 ^ 64)%Z ->
  let rewards := into_iot_reward_shares shares p b w d in
  sumZ share_amount rewards.*2 = (B + W + D)%Z /\
  fold_left (fun a r => u64_add a r.1) rewards 0%Z = (B + W + D)%Z.
Proof.
  intros l Hnn HB HW HD Hlt rewards.
  set (amount g := (beacon_amount g + witness_amount g + dc_transfer_amount g)%Z).
  set (gs := gateway_reward b w d <$> l).
  assert (forall g, g ∈ gs -> 0 <= beacon_amount g /\ 0 <= witness_amount g /\ 0 <= dc_transfer_amount g)%Z
    as Hg by (intros g (kv & -> & Hkv)%list_elem_of_fmap; apply (Hnn kv Hkv)).
  assert (sumZ amount (List.filter nonzero_reward gs) = (B + W + D)%Z) as Es.
  { rewrite sumZ_filter.
    - unfold gs. rewrite sumZ_fmap.
      transitivity (sumZ (fun kv => compute_rewards b (beacon_of kv) + compute_rewards w (witness_of kv)
                                    + compute_rewards d (dc_of kv))%Z l); [done|].
      rewrite !sumZ_plus. lia.
    - intros g Hin Hz. destruct (Hg g Hin) as (? & ? & ?).
      unfold nonzero_reward in Hz. zbool. unfold amount. lia. }
  assert (forall g, g ∈ List.filter nonzero_reward gs -> gateway_total g = amount g /\ 0 <= amount g)%Z as Ht.
  { intros g Hin. assert (amount g <= B + W + D)%Z as Hle.
    { rewrite <- Es. apply sumZ_elem; [done|]. intros g' Hin'.
      apply list_elem_of_In, List.filter_In in Hin' as [Hin' _]. apply list_elem_of_In in Hin'.
      destruct (Hg g' Hin') as (? & ? & ?). unfold amount. lia. }
    apply list_elem_of_In, List.filter_In in Hin as [Hin _]. apply list_elem_of_In in Hin.
    destruct (Hg g Hin) as (? & ? & ?). unfold gateway_total, amount in *.
    rewrite (u64_add_small (dc_transfer_amount g)) by lia. rewrite u64_add_small by lia. lia. }
  unfold rewards, into_iot_reward_shares. fold l. fold gs. split.
  - rewrite <- list_fmap_compose, sumZ_fmap. exact Es.
  - rewrite (fold_u64_add (fun r : Z * IotRewardShare => r.1)); rewrite ?sumZ_fmap; cbn.
    + rewrite <- Es. apply sumZ_ext. intros g Hin. by apply Ht.
    + lia.
    + intros r (g & -> & Hin)%list_elem_of_fmap. cbn. destruct (Ht g Hin). lia.
    + rewrite (sumZ_ext _ amount); [lia|]. intros g Hin. by apply Ht.
Qed.

(** The allocation the unallocated amount is computed from. *)
Lemma allocation_near d :
  period_secs_ok d ->
  let t := get_scheduled_poc_tokens (dec := dec) d (dec_new 0 1) in
  let total := dval (t.1 + t.2 + get_scheduled_dc_tokens d)%dec in
  0 <= total <= inject_Z (10 ^ 16) /\
  emission 80 (num_seconds d) - (1 # 1000000) <= total <= emission 80 (num_seconds d) + (1 # 1000000).
Proof.
  intros Hd. cbv zeta. cbn [get_scheduled_poc_tokens fst snd].
  destruct (tokens_bounds (dec := dec) 6 d ltac:(lia) Hd) as [Hb0 Hb1].
  destruct (tokens_bounds (dec := dec) 24 d ltac:(lia) Hd) as [Hw0 Hw1].
  destruct (tokens_bounds (dec := dec) 50 d ltac:(lia) Hd) as [Hd0 Hd1].
  pose proof (emission_add 6 24 (num_seconds d)) as E1. pose proof (emission_add 30 50 (num_seconds d)) as E2.
  change (6 + 24)%Z with 30%Z in E1. change (30 + 50)%Z with 80%Z in E2. cbv zeta in *.
  change (get_tokens_by_duration (REWARDS_PER_DAY * dec_new 50 2)%dec d)
    with (get_scheduled_dc_tokens (dec := dec) d) in Hd0, Hd1.
  pose proof (dec_new_val (dec := dec) 0 1 ltac:(lia) ltac:(lia)) as Ez.
  assert (dval (dec := dec) (dec_new 0 1) == 0) as Ez' by (rewrite Ez; reflexivity). clear Ez.
  destruct (add_percent_near (get_tokens_by_duration (REWARDS_PER_DAY * dec_new 6 2)%dec d) (dec_new 0 1) 20)
    as [H1 H2]; [lia| | |]; [change (inject_Z (10 ^ 15)) with (1000000000000000 # 1); lra..|].
  destruct (add_percent_near (get_tokens_by_duration (REWARDS_PER_DAY * dec_new 24 2)%dec d) (dec_new 0 1) 80)
    as [H3 H4]; [lia| | |]; [change (inject_Z (10 ^ 15)) with (1000000000000000 # 1); lra..|].
  cbv zeta in *. rewrite Ez' in H2, H4.
  unfold BEACON_REWARDS_PER_DAY_PERCENT, WITNESS_REWARDS_PER_DAY_PERCENT, BEACON_DC_REMAINER_PERCENT,
    WITNESS_DC_REMAINER_PERCENT.
  set (tb := (get_tokens_by_duration (REWARDS_PER_DAY * dec_new 6 2)%dec d + _)%dec) in *.
  set (tw := (get_tokens_by_duration (REWARDS_PER_DAY * dec_new 24 2)%dec d + _)%dec) in *.
  set (td := get_scheduled_dc_tokens d) in *.
  change (inject_Z (10 ^ 16)) with (10000000000000000 # 1).
  destruct (dadd_near tb tw) as [H5 H6]; [lra| |].
  { change (inject_Z (10 ^ 28)) with (10000000000000000000000000000 # 1). lra. }
  unfold near in H6.
  destruct (dadd_near (tb + tw)%dec td) as [H7 H8]; [lra| |].
  { change (inject_Z (10 ^ 28)) with (10000000000000000000000000000 # 1). lra. }
  unfold near in H8. lra.
Qed.

(** The three pots of a period: beacons, witnesses, data transfer. *)
Definition pots shares (p : Range) (price : dec) : dec * dec * dec :=
  let d := (r_end p - r_start p)%Z in
  let used := dc_to_iot_bones (dec_sum dc_of (map_to_list shares)) price in
  let n := normalize_dc_transfer_rewards used (get_scheduled_dc_tokens d) in
  let t := get_scheduled_poc_tokens d n.1 in
  (t.1, t.2, n.2).

Lemma calculate_pots shares p price :
  calculate_rewards_per_share shares p price =
  let '(tb, tw, td) := pots shares p price in
  (rewards_per_share tb (dec_sum beacon_of (map_to_list shares)),
   rewards_per_share tw (dec_sum witness_of (map_to_list shares)),
   rewards_per_share td (dec_sum dc_of (map_to_list shares))).
Proof.
  unfold calculate_rewards_per_share, pots. rewrite total_shares_sums.
  by destruct (normalize_dc_transfer_rewards _ _) as [unused capped].
Qed.

Lemma pots_spec shares p price :
  period_secs_ok (r_end p - r_start p) -> shares_ok shares -> price_ok price ->
  let '(tb, tw, td) := pots shares p price in
  0 <= dval tb <= inject_Z (10 ^ 15) /\ 0 <= dval tw <= inject_Z (10 ^ 15) /\
  0 <= dval td <= inject_Z (10 ^ 15) /\
  emission 80 (num_seconds (r_end p - r_start p)) - (1 # 1000000) <= dval tb + dval tw + dval td
  <= emission 80 (num_seconds (r_end p - r_start p)) + (1 # 1000000).
Proof.
  intros Hd (_ & _ & Hdc) Hp. unfold pots. apply pots_bounds; [done|].
  apply dc_to_iot_bones_nonneg; [|done].
  destruct (column_sum _ _ Hdc) as (E & Hpos & Hle & _). split; [|done].
  destruct Hpos as [->|H]; lra.
Qed.

(** The amount paid to the gateways, and the accumulator that tracks it. *)
Lemma allocated_spec shares p price :
  period_secs_ok (r_end p - r_start p) -> shares_ok shares -> price_ok price ->
  let '(b, w, d) := calculate_rewards_per_share shares p price in
  let rewards := into_iot_reward_shares shares p b w d in
  let allocated := fold_left (fun a r => u64_add a r.1) rewards 0%Z in
  sumZ share_amount rewards.*2 = allocated /\ (0 <= allocated < 2 ^ 62)%Z /\
  inject_Z allocated <= emission 80 (num_seconds (r_end p - r_start p)) + (1 # 25).
Proof.
  intros Hd Hs Hp. pose proof (pots_spec shares p price Hd Hs Hp) as Hpots.
  rewrite calculate_pots. destruct (pots shares p price) as [[tb tw] td]. cbv beta iota zeta.
  destruct Hpots as (Hb & Hw & Hdd & Hsum). destruct Hs as (Cb & Cw & Cd).
  destruct (pot_payouts beacon_of _ tb Cb Hb) as (Sb & Nb & _).
  destruct (pot_payouts witness_of _ tw Cw Hw) as (Sw & Nw & _).
  destruct (pot_payouts dc_of _ td Cd Hdd) as (Sd & Nd & _).
  set (l := map_to_list shares) in *. set (b := rewards_per_share tb _) in *.
  set (w := rewards_per_share tw _) in *. set (dd := rewards_per_share td _) in *.
  pose proof (emission_bounds 80 _ ltac:(lia) Hd) as HE. change (inject_Z 80) with (80 # 1) in HE.
  set (B := sumZ (fun kv => compute_rewards b (beacon_of kv)) l) in *.
  set (W := sumZ (fun kv => compute_rewards w (witness_of kv)) l) in *.
  set (D := sumZ (fun kv => compute_rewards dd (dc_of kv)) l) in *.
  assert (0 <= B /\ 0 <= W /\ 0 <= D)%Z as H0
    by (split; [by apply sumZ_nonneg|split; by apply sumZ_nonneg]).
  assert (inject_Z (B + W + D) <= emission 80 (num_seconds (r_end p - r_start p)) + (1 # 25)) as Hle
    by (rewrite !inject_Z_plus; lra).
  assert (B + W + D < 2 ^ 62)%Z as Hlt.
  { rewrite Zlt_Qlt. change (inject_Z (2 ^ 62)) with (4611686018427387904 # 1). lra. }
  destruct (gateways_sum shares p b w dd B W D) as [E1 E2]; [|done|done|done|lia|].
  - intros kv Hkv. split; [by apply Nb|]. split; [by apply Nw|by apply Nd].
  - rewrite E1, E2. split; [done|]. split; [lia|done].
Qed.

(** A pot paid out in full up to rounding. *)
Lemma ops_sum (total : dec) e :
  0 <= dval total <= (400000000000000 # 1) -> e - (1 # 10000000) <= dval total <= e + (1 # 10000000) ->
  let allocated := to_u64_or_0 (round_dp 0 ToZero total) in
  let paid := (allocated + unallocated_amount total allocated)%Z in
  (0 <= allocated < 2 ^ 62 /\ 0 <= unallocated_amount total allocated)%Z /\
  e - 2 < inject_Z paid <= e + (1 # 100).
Proof.
  intros [H0 H1] He. cbv zeta.
  rewrite to_u64_floor; [|done|].
  2: { change (inject_Z (2 ^ 64)) with (18446744073709551616 # 1). lra. }
  pose proof (Qfloor_bounds (dval total)) as [Hf1 Hf2]. pose proof (Qfloor_nonneg _ H0) as Hf0.
  assert (Qfloor (dval total) < 2 ^ 62)%Z as Hlt.
  { rewrite Zlt_Qlt. change (inject_Z (2 ^ 62)) with (4611686018427387904 # 1). lra. }
  destruct (unallocated_spec total (Qfloor (dval total))) as (Hn & Hu & _); [|lia|].
  { change (inject_Z (10 ^ 16)) with (10000000000000000 # 1). lra. }
  specialize (Hu Hf1). rewrite inject_Z_plus. split; [done|]. lra.
Qed.

(** What is written for a period against its emission. *)
Lemma period_conserved (db : share_tables dec) (s : Scheduler) (price : dec) :
  let p := reward_period s in
  period_secs_ok (r_end p - r_start p) -> shares_ok (aggregate_reward_shares db p) -> price_ok price ->
  let e := emission 94 (num_seconds (r_end p - r_start p)) in
  let written := (rewarder_reward db s price).1.1 in
  e - 6 < inject_Z (sumZ share_amount written) <= e + (1 # 10).
Proof.
  intros p Hd Hs Hp. cbv zeta. unfold rewarder_reward. fold p. cbn [fst].
  set (shares := aggregate_reward_shares db p) in *.
  pose proof (allocated_spec shares p price Hd Hs Hp) as Ha.
  destruct (allocation_near _ Hd) as [Ht0 Ht1]. cbv zeta in Ht0, Ht1.
  destruct (tokens_bounds (dec := dec) 7 _ ltac:(lia) Hd) as [Ho0 Ho1].
  destruct (ops_sum _ _ Ho0 Ho1) as [[Hof Hou] Hos]. cbv zeta in Hof, Hou, Hos.
  destruct (unallocated_spec (dec := dec) (get_scheduled_oracle_tokens (r_end p - r_start p)) 0)
    as (Hr0 & Hr1 & _); [|lia|].
  { change (inject_Z (10 ^ 16)) with (10000000000000000 # 1). unfold get_scheduled_oracle_tokens,
      ORACLES_REWARDS_PER_DAY_PERCENT. lra. }
  specialize (Hr1 (proj1 Ho0)). change (inject_Z 0) with 0 in Hr1.
  unfold reward_oracles. rewrite write_unallocated_sum by done.
  unfold reward_operational. rewrite write_unallocated_sum by done. rewrite sumZ_app.
  unfold reward_poc_and_dc. fold shares.
  destruct (calculate_rewards_per_share shares p price) as [[b w] d].
  cbv zeta in Ha. set (rewards := into_iot_reward_shares shares p b w d) in *.
  set (allocated := fold_left _ rewards 0%Z) in *. destruct Ha as (Ea & Hal & Hub).
  destruct (get_scheduled_poc_tokens (dec := dec) (r_end p - r_start p) (dec_new 0 1)) as [tb tw].
  cbn [fst snd] in Ht0, Ht1. set (total := (tb + tw + get_scheduled_dc_tokens _)%dec) in *.
  destruct (unallocated_spec total allocated Ht0 Hal) as (Hu0 & Hu1 & Hu2).
  rewrite write_unallocated_sum by done. cbn [app]. rewrite Ea. cbn [sumZ foldr share_amount reward share_of_period].
  pose proof (emission_add 80 14 (num_seconds (r_end p - r_start p))) as E1.
  pose proof (emission_add 7 7 (num_seconds (r_end p - r_start p))) as E2.
  change (80 + 14)%Z with 94%Z in E1. change (7 + 7)%Z with 14%Z in E2.
  unfold get_scheduled_ops_fund_tokens, get_scheduled_oracle_tokens, OPERATIONS_REWARDS_PER_DAY_PERCENT,
    ORACLES_REWARDS_PER_DAY_PERCENT in *.
  rewrite !inject_Z_plus in *. change (inject_Z 0) with 0.
  set (ops := get_tokens_by_duration _ _) in *.
  set (paid := inject_Z (to_u64_or_0 _)) in *. set (left := inject_Z (unallocated_amount ops (to_u64_or_0 _))) in *.
  set (orc := inject_Z (unallocated_amount ops 0)) in *. set (a := inject_Z allocated) in *.
  set (secs := num_seconds _) in *. set (e94 := emission 94 secs) in *.
  set (e80 := emission 80 secs) in *. set (e14 := emission 14 secs) in *.
  set (e7 := emission 7 secs) in *.
  destruct (Qlt_le_dec (dval total) a) as [Hlt|Hle].
  - rewrite (Hu2 Hlt). change (inject_Z 0) with 0.
    clearbody paid left orc a e94 e80 e14 e7; clear - Hub Ht1 Ho1 Hos Hr1 E1 E2 Hlt; lra.
  - specialize (Hu1 Hle). set (u := inject_Z (unallocated_amount total _)) in *.
    clearbody u paid left orc a e94 e80 e14 e7; clear - Hub Ht1 Ho1 Hos Hr1 E1 E2 Hu1; lra.
Qed.
End Conservation.
