(* ===== verification/IotShareTables.v ===== *)
(** * The share tables of the IoT verifier

    What the tables of [IotRewards] hold and lose: a PoC saved again changes
    nothing, the totals computed for a period are those of its rows, and over
    any interleaving of saves and rewards a row is rewarded in exactly one
    period.  The last section combines these with the conservation lemmas into
    the theorems on the rewards of a period. *)

From S2P Require Import Prelude Solana Decimal IotReports Scheduler IotRewards.
From Stdlib Require Import Qabs.

Open Scope Z_scope.
Open Scope oracle_scope.

(** ** Saving *)

Section Saving.
Context {dec : Type} {HD : Decimal dec} {HP : ProtoTypes}.
Implicit Types (db : share_tables dec) (s : GatewayPocShare dec) (poc : IotPoc dec).

(** The loop of [Runner::handle_beacon_report] over the shares of a PoC. *)
Definition save_shares db (l : list (GatewayPocShare dec)) : share_tables dec :=
  fold_left (fun db s => (poc_share_save db s).1) l db.

Definition save_poc db poc : share_tables dec := save_shares db (shares_from_poc poc).

Lemma save_shares_app db l l' : save_shares db (l ++ l') = save_shares (save_shares db l) l'.
Proof. apply fold_left_app. Qed.

Lemma save_shares_dc db l : gateway_dc_shares (save_shares db l) = gateway_dc_shares db.
Proof.
  revert db. induction l as [|s l IH]; intros db; [done|].
  change (save_shares db (s :: l)) with (save_shares (poc_share_save db s).1 l). by rewrite IH.
Qed.

Definition share_key s : PublicKeyBinary * string := (ps_hotspot_key s, ps_poc_id s).

(** The row of a key after saving a list: the last share of that key. *)
Lemma save_shares_lookup db l k :
  gateway_shares (save_shares db l) !! k =
  match List.find (fun s => bool_decide (share_key s = k)) (rev l) with
  | Some s => Some s
  | None => gateway_shares db !! k
  end.
Proof.
  induction l as [|s l IH] using rev_ind; [done|].
  rewrite save_shares_app, rev_app_distr. cbn. fold (share_key s).
  case_bool_decide as Hk; [subst k; apply lookup_insert_eq|].
  by rewrite lookup_insert_ne.
Qed.

Lemma find_key_notin k (l : list (GatewayPocShare dec)) :
  (forall s, s ∈ l -> share_key s <> k) ->
  List.find (fun s => bool_decide (share_key s = k)) l = None.
Proof.
  induction l as [|s l IH]; intros H; [done|]. cbn. rewrite bool_decide_false by (apply H; left).
  apply IH. intros s' Hs'. apply H. by right.
Qed.

Lemma shares_from_poc_id poc s : s ∈ shares_from_poc poc -> ps_poc_id s = poc_id poc.
Proof.
  unfold shares_from_poc. rewrite elem_of_app, list_elem_of_omap. intros [H|(w & _ & H)].
  - destruct (_ && _); [|by apply not_elem_of_nil in H]. apply list_elem_of_singleton in H. by subst s.
  - unfold witness_share in H. destruct (vw_status w); [|done].
    destruct (_ && _) in H; [|done]. by injection H as <-.
Qed.

Lemma save_poc_other db poc k :
  k.2 <> poc_id poc -> gateway_shares (save_poc db poc) !! k = gateway_shares db !! k.
Proof.
  intros Hk. unfold save_poc. rewrite save_shares_lookup, find_key_notin; [done|].
  intros s Hs <-. rewrite list_elem_of_In, <- in_rev, <- list_elem_of_In in Hs.
  apply Hk. by apply shares_from_poc_id.
Qed.

Lemma save_pocs_other pocs db k :
  (forall poc, poc ∈ pocs -> k.2 <> poc_id poc) ->
  gateway_shares (fold_left save_poc pocs db) !! k = gateway_shares db !! k.
Proof.
  revert db. induction pocs as [|poc pocs IH]; intros db H; [done|]. cbn. rewrite IH.
  - apply save_poc_other, H. left.
  - intros poc' Hp. apply H. by right.
Qed.

Lemma save_pocs_dc pocs db : gateway_dc_shares (fold_left save_poc pocs db) = gateway_dc_shares db.
Proof.
  revert db. induction pocs as [|poc pocs IH]; intros db; [done|]. cbn. rewrite IH.
  unfold save_poc. apply save_shares_dc.
Qed.

Lemma share_tables_eq db db' :
  (forall k, gateway_shares db !! k = gateway_shares db' !! k) ->
  gateway_dc_shares db = gateway_dc_shares db' -> db = db'.
Proof. destruct db, db'. cbn. intros H <-. f_equal. by apply map_eq. Qed.

(** A PoC that is saved again, after any number of other PoCs, leaves the
    tables as they are: no gateway earns its shares twice however often a
    report is processed. *)
Theorem poc_saved_once db poc others :
  (forall other, other ∈ others -> poc_id other <> poc_id poc) ->
  let saved := fold_left save_poc others (save_poc db poc) in
  save_poc saved poc = saved.
Proof.
  intros H saved. apply share_tables_eq; [intros k|apply save_shares_dc].
  unfold save_poc at 1. rewrite save_shares_lookup.
  destruct (List.find _ (rev (shares_from_poc poc))) as [s|] eqn:E; [|done].
  destruct (decide (k.2 = poc_id poc)) as [Hk|Hk].
  - unfold saved. rewrite save_pocs_other.
    + unfold save_poc. by rewrite save_shares_lookup, E.
    + intros other Ho Heq. apply (H other Ho). congruence.
  - exfalso. apply find_some in E as [Hin Hkey%bool_decide_eq_true]. subst k.
    rewrite <- in_rev, <- list_elem_of_In in Hin. apply Hk. by apply shares_from_poc_id.
Qed.
End Saving.

Module ExamplePoc.
Definition poc : IotPoc Q :=
  mkIotPoc "a"
    (mkValidBeacon (hours 2) None 0 0 1%Q (mkBeaconReport "hs1" "" "" "data" 0 0 0 0 0 "" 0) 1%Q)
    [mkVerifiedWitness (hours 2) StatusValid (mkWitnessReport "hs2" "data" 0 0 0 0 0 0 "") None 0 0
       (1 # 2)%Q (1 # 2)%Q ReasonNone SideNone None] [].
End ExamplePoc.

Lemma poc_saved_once_witness :
  let db := save_poc (mkShareTables ∅ ∅) ExamplePoc.poc in save_poc db ExamplePoc.poc = db.
Proof.
  apply (poc_saved_once (dec := Q) (mkShareTables ∅ ∅) ExamplePoc.poc []).
  intros o Ho. by apply not_elem_of_nil in Ho.
Defined.

(** ** Totals of a period *)

(** The three columns of a gateway's shares. *)
Inductive column : Type := CBeacon | CWitness | CDc.

#[global] Instance column_eq_dec : EqDecision column.
Proof. solve_decision. Defined.

Section Totals.
Context {dec : Type} `{!Decimal dec}.
Implicit Types (db : share_tables dec) (p : Range) (m : gmap PublicKeyBinary (RewardShares dec)).

Definition get_column (c : column) (r : RewardShares dec) : dec :=
  match c with CBeacon => beacon_shares r | CWitness => witness_shares r | CDc => dc_shares r end.

(** What a row adds: to whom, in which column, how much. *)
Definition row_unit : Type := PublicKeyBinary * column * dec.

Definition poc_unit (s : GatewayPocShare dec) : row_unit :=
  (ps_hotspot_key s, match ps_reward_type s with Beacon => CBeacon | Witness => CWitness end,
   (ps_hex_scale s * ps_reward_unit s)%dec).
Definition dc_unit (s : GatewayDCShare dec) : row_unit := (ds_hotspot_key s, CDc, ds_num_dcs s).

Definition poc_rows db p : list (GatewayPocShare dec) :=
  List.filter (fun s => in_period p (ps_reward_timestamp s)) (map_to_list (gateway_shares db)).*2.
Definition dc_rows db p : list (GatewayDCShare dec) :=
  List.filter (fun s => in_period p (ds_reward_timestamp s)) (map_to_list (gateway_dc_shares db)).*2.

(** The rows of a period, in the order in which they are read. *)
Definition row_units db p : list row_unit := (poc_unit <$> poc_rows db p) ++ (dc_unit <$> dc_rows db p).

Definition add_column (c : column) (x : dec) (r : RewardShares dec) : RewardShares dec :=
  match c with
  | CBeacon => mkShares (beacon_shares r + x)%dec (witness_shares r) (dc_shares r)
  | CWitness => mkShares (beacon_shares r) (witness_shares r + x)%dec (dc_shares r)
  | CDc => mkShares (beacon_shares r) (witness_shares r) (dc_shares r + x)%dec
  end.

Definition add_unit m (u : row_unit) : gmap PublicKeyBinary (RewardShares dec) :=
  entry_update m u.1.1 (add_column u.1.2 u.2).

Lemma fold_left_fmap {A B C} (f : C -> B -> C) (g : A -> B) (l : list A) c :
  fold_left f (g <$> l) c = fold_left (fun c a => f c (g a)) l c.
Proof. revert c. induction l as [|a l IH]; intros c; [done|]. apply IH. Qed.

Lemma fold_left_ext {A C} (f g : C -> A -> C) (l : list A) c :
  (forall c a, f c a = g c a) -> fold_left f l c = fold_left g l c.
Proof. intros H. revert c. induction l as [|a l IH]; intros c; [done|]. cbn. rewrite H. apply IH. Qed.

Lemma aggregate_units db p : aggregate_reward_shares db p = fold_left add_unit (row_units db p) ∅.
Proof.
  unfold aggregate_reward_shares, row_units, aggregate_dc_shares, aggregate_poc_shares.
  rewrite fold_left_app, !fold_left_fmap. fold (poc_rows db p) (dc_rows db p).
  rewrite (fold_left_ext _ (fun c a => add_unit c (dc_unit a)) (dc_rows db p)); [|done].
  f_equal. apply fold_left_ext. intros c s. unfold add_unit, entry_update, add_poc_reward, poc_unit. cbn.
  by destruct (ps_reward_type s).
Qed.

Definition unit_of (k : PublicKeyBinary) (c : column) (u : row_unit) : bool :=
  bool_decide (u.1.1 = k) && bool_decide (u.1.2 = c).

Lemma dec_sum_snoc {A} (f : A -> dec) (l : list A) a : dec_sum f (l ++ [a]) = (dec_sum f l + f a)%dec.
Proof. unfold dec_sum. by rewrite fold_left_app. Qed.

(** The sums of the aggregate are those of the units, added in order. *)
Lemma add_units_lookup l k c :
  get_column c (default shares_default (fold_left add_unit l ∅ !! k)) =
  dec_sum snd (List.filter (unit_of k c) l).
Proof.
  induction l as [|u l IH] using rev_ind; [by cbn [fold_left]; rewrite lookup_empty; destruct c|].
  rewrite fold_left_app, List.filter_app. cbn [fold_left List.filter].
  unfold add_unit at 1, entry_update. set (m := fold_left add_unit l ∅) in *.
  destruct (unit_of k c u) eqn:E; unfold unit_of in E.
  - apply andb_true_iff in E as [E1%bool_decide_eq_true E2%bool_decide_eq_true].
    rewrite dec_sum_snoc, <- IH, <- E1, <- E2, lookup_insert_eq. cbn. by destruct (u.1.2).
  - rewrite app_nil_r, <- IH. destruct (decide (u.1.1 = k)) as [<-|Hk]; [|by rewrite lookup_insert_ne].
    rewrite bool_decide_true in E by done. apply bool_decide_eq_false in E.
    rewrite lookup_insert_eq. cbn. by destruct (u.1.2), c.
Qed.
End Totals.

Open Scope Q_scope.

Section ExactTotals.
Context {dec : Type} `{!Decimal dec, !DecimalLaws dec}.
Implicit Types (db : share_tables dec) (p : Range) (l : list (row_unit (dec := dec))).

Definition unit_value (u : row_unit (dec := dec)) : Q := dval u.2.

Definition units_ok l : Prop :=
  (forall u, u ∈ l -> on_grid 10 (unit_value u) /\ 0 <= unit_value u) /\
  sumQ unit_value l <= inject_Z (10 ^ 13) /\ (Z.of_nat (length l) <= 10 ^ 18)%Z.

Lemma units_ok_prefix l u : units_ok (l ++ [u]) -> units_ok l.
Proof.
  intros (H1 & H2 & H3). rewrite length_app in H3. rewrite sumQ_app in H2.
  assert (0 <= sumQ unit_value [u]) as H0.
  { apply sumQ_nonneg. intros a Ha. apply H1. rewrite elem_of_app. by right. }
  split; [intros a Ha; apply H1; rewrite elem_of_app; by left|]. split; [lra|lia].
Qed.

(** The shares of a gateway in a column are the exact sum of its rows. *)
Lemma gateway_column l k c :
  units_ok l ->
  let v := dval (get_column c (default shares_default (fold_left add_unit l ∅ !! k))) in
  v == sumQ unit_value (List.filter (unit_of k c) l) /\ on_grid 10 v /\ 0 <= v.
Proof.
  intros (H1 & H2 & _). cbv zeta. rewrite add_units_lookup.
  assert (forall u, u ∈ List.filter (unit_of k c) l -> on_grid 10 (dval u.2) /\ 0 <= dval u.2) as Hf.
  { intros u [Hu _]%elem_of_filter_bool. by apply H1. }
  pose proof (sumQ_filter_le unit_value (unit_of k c) l) as [H0 Hle]; [intros u Hu; by apply H1|].
  assert (dval (dec_sum snd (List.filter (unit_of k c) l)) ==
          sumQ unit_value (List.filter (unit_of k c) l)) as E.
  { apply dec_sum_exact; [done|]. apply Qle_trans with (1 := Hle), Qle_trans with (1 := H2).
    rewrite <- Zle_Qle. lia. }
  split; [done|]. split; [|by rewrite E].
  apply (on_grid_eq 10 (sumQ unit_value (List.filter (unit_of k c) l))); [by rewrite E|].
  apply on_grid_sum. intros u Hu. by apply Hf.
Qed.

Definition in_column (c : column) (u : row_unit (dec := dec)) : bool := bool_decide (u.1.2 = c).

(** The total of a column over the gateways is the exact sum of the rows. *)
Lemma column_total l c :
  units_ok l ->
  sumQ (fun kv => dval (get_column c kv.2)) (map_to_list (fold_left add_unit l ∅)) ==
  sumQ unit_value (List.filter (in_column c) l).
Proof.
  induction l as [|u l IH] using rev_ind; intros Hok.
  { cbn [fold_left]. by rewrite map_to_list_empty. }
  specialize (IH (units_ok_prefix _ _ Hok)).
  destruct (gateway_column (l ++ [u]) u.1.1 c Hok) as [E1 _].
  destruct (gateway_column l u.1.1 c (units_ok_prefix _ _ Hok)) as [E0 _].
  rewrite fold_left_app in E1 |- *. cbn [fold_left] in E1 |- *.
  set (m := fold_left add_unit l ∅) in *. unfold add_unit in E1 |- *. unfold entry_update in E1 |- *.
  rewrite lookup_insert_eq in E1. cbn [default] in E1.
  rewrite sumQ_insert. cbn [snd]. rewrite E1, IH, !List.filter_app, !sumQ_app, <- E0.
  assert (from_option (fun o => dval (get_column c o)) 0 (m !! u.1.1) ==
          dval (get_column c (default shares_default (m !! u.1.1)))) as ->.
  { destruct (m !! u.1.1); cbn; [done|]. pose proof (dec_zero_val (dec := dec)) as Hz. by destruct c; cbn; rewrite Hz. }
  cbn [List.filter]. unfold unit_of, in_column. rewrite (bool_decide_true (u.1.1 = u.1.1)) by done.
  cbn [andb]. ring.
Qed.

Lemma units_size l : (size (fold_left add_unit l ∅) <= length l)%nat.
Proof.
  induction l as [|u l IH] using rev_ind; [done|].
  rewrite fold_left_app, length_app. cbn [fold_left length]. unfold add_unit at 1, entry_update.
  set (m := fold_left add_unit l ∅) in *. destruct (m !! u.1.1) as [r|] eqn:E.
  - rewrite map_size_insert_Some by eauto. lia.
  - rewrite map_size_insert_None by done. lia.
Qed.

Lemma units_column_ok l c :
  units_ok l -> column_ok (fun kv => get_column c kv.2) (map_to_list (fold_left add_unit l ∅)).
Proof.
  intros Hok. split; [|split].
  - intros [k r] Hkv%elem_of_map_to_list. destruct (gateway_column l k c Hok) as (_ & H1 & H2).
    rewrite Hkv in H1, H2. done.
  - rewrite column_total by done. destruct Hok as (H1 & H2 & _).
    apply Qle_trans with (2 := H2). apply sumQ_filter_le. intros u Hu. by apply H1.
  - destruct Hok as (_ & _ & H3). rewrite length_map_to_list. pose proof (units_size l). lia.
Qed.

Lemma rows_shares_ok db p : units_ok (row_units db p) -> shares_ok (aggregate_reward_shares db p).
Proof.
  intros Hok. rewrite aggregate_units.
  split; [|split]; [apply (units_column_ok _ CBeacon)|apply (units_column_ok _ CWitness)
    |apply (units_column_ok _ CDc)]; done.
Qed.
End ExactTotals.

(** ** The rewards of a period *)

Section PeriodRewards.
Context {dec : Type} `{!Decimal dec, !DecimalLaws dec}.
Implicit Types (db : share_tables dec) (p : Range) (price : dec).

(** Hex scales and reward units have four decimals ([SCALING_PRECISION]). *)
Definition poc_row_ok (s : GatewayPocShare dec) : Prop :=
  on_grid 4 (dval (ps_hex_scale s)) /\ 0 <= dval (ps_hex_scale s) <= 1 /\
  on_grid 4 (dval (ps_reward_unit s)) /\ 0 <= dval (ps_reward_unit s) <= 100 # 1.

(** Data credits are [u32] amounts. *)
Definition dc_row_ok (s : GatewayDCShare dec) : Prop :=
  exists n, (0 <= n < 2 ^ 32)%Z /\ ds_num_dcs s = dec_of_Z n.

(** Up to a thousand million PoC rows and a million million data credits. *)
Definition rows_ok db p : Prop :=
  (forall s, s ∈ poc_rows db p -> poc_row_ok s) /\ (forall s, s ∈ dc_rows db p -> dc_row_ok s) /\
  (Z.of_nat (length (poc_rows db p)) <= 10 ^ 9)%Z /\ (Z.of_nat (length (dc_rows db p)) <= 10 ^ 12)%Z /\
  sumQ (fun s => dval (ds_num_dcs s)) (dc_rows db p) <= inject_Z (10 ^ 12).

(** A product of two values of four decimals is exact. *)
Lemma dmul_exact (a b : dec) :
  on_grid 4 (dval a) -> 0 <= dval a <= 1 -> on_grid 4 (dval b) -> 0 <= dval b <= 100 # 1 ->
  dval (a * b)%dec == dval a * dval b /\ on_grid 10 (dval a * dval b) /\
  0 <= dval a * dval b <= 100 # 1.
Proof.
  intros [x Hx] Ha [y Hy] Hb. pose proof (Qmult_bounds _ _ _ _ Ha Hb) as Hab.
  change (1 * (100 # 1)) with (100 # 1) in Hab.
  assert (dval a * dval b == inject_Z (x * y) / pow10 8) as E.
  { rewrite Hx, Hy, inject_Z_mult. change (pow10 8) with (100000000 # 1).
    change (pow10 4) with (10000 # 1). field. }
  split; [|split; [apply on_grid_weaken; by exists (x * y)%Z|done]].
  rewrite dmul_val.
  2: { rewrite Qabs_pos by lra. apply Qle_trans with (1 := proj2 Hab).
       unfold dec_max. change (100 # 1) with (inject_Z 100). rewrite <- Zle_Qle. lia. }
  pose proof (rnd_proper _ mul_rounding) as Hp. rewrite E. apply (rnd_exact _ mul_rounding); [|lia].
  assert (inject_Z (x * y) == (dval a * dval b) * (100000000 # 1)) as E'
    by (rewrite E; change (pow10 8) with (100000000 # 1); field).
  assert (inject_Z 0 <= inject_Z (x * y)) as H0 by (rewrite E'; change (inject_Z 0) with 0; lra).
  assert (inject_Z (x * y) <= inject_Z (10 ^ 10)) as H1
    by (rewrite E'; change (inject_Z (10 ^ 10)) with (10000000000 # 1); lra).
  rewrite <- Zle_Qle in H0, H1. lia.
Qed.

Lemma rows_units_ok db p : rows_ok db p -> units_ok (row_units db p).
Proof.
  intros (Hp & Hd & Lp & Ld & Sd).
  assert (forall s, s ∈ poc_rows db p -> on_grid 10 (unit_value (poc_unit s)) /\
            0 <= unit_value (poc_unit s) <= 100 # 1) as Hpu.
  { intros s Hs. destruct (Hp s Hs) as (G1 & B1 & G2 & B2).
    destruct (dmul_exact _ _ G1 B1 G2 B2) as (E & G & B). unfold unit_value, poc_unit. cbn [snd].
    split; [by apply (on_grid_eq 10 _ _ (Qeq_sym _ _ E))|by rewrite E]. }
  split; [|split].
  - intros u Hu. unfold row_units in Hu. rewrite elem_of_app, !list_elem_of_fmap in Hu.
    destruct Hu as [(s & -> & Hs)|(s & -> & Hs)]; [split; by apply Hpu|].
    destruct (Hd s Hs) as (n & Hn & En). unfold unit_value, dc_unit. cbn [snd]. rewrite En.
    pose proof (dec_of_Z_val (dec := dec) n ltac:(lia)) as E. split.
    + apply (on_grid_eq 10 (inject_Z n)); [by rewrite E|]. exists (n * 10 ^ 10)%Z.
      rewrite inject_Z_mult. change (pow10 10) with (10000000000 # 1).
      change (inject_Z (10 ^ 10)) with (10000000000 # 1). field.
    + rewrite E. change 0 with (inject_Z 0). rewrite <- Zle_Qle. lia.
  - unfold row_units. rewrite sumQ_app, !sumQ_fmap.
    pose proof (sumQ_bound (fun s => unit_value (poc_unit s)) (poc_rows db p) (100 # 1)) as Hb.
    assert (inject_Z (Z.of_nat (length (poc_rows db p))) <= inject_Z (10 ^ 9)) as Lp'
      by (by rewrite <- Zle_Qle).
    change (sumQ (fun a => unit_value (dc_unit a)) (dc_rows db p))
      with (sumQ (fun s => dval (ds_num_dcs s)) (dc_rows db p)).
    specialize (Hb ltac:(intros s Hs; apply Hpu; done)).
    change (inject_Z (10 ^ 9)) with (1000000000 # 1) in Lp'.
    change (inject_Z (10 ^ 12)) with (1000000000000 # 1) in Sd.
    change (inject_Z (10 ^ 13)) with (10000000000000 # 1). lra.
  - unfold row_units. rewrite length_app, !length_fmap. lia.
Qed.

(** C2: The reward shares written for a period, paid to gateways and to the
    operational fund or written as unallocated, add up to 94 per cent of the
    period's emission: never more than a tenth of a bone above it, and less
    than six bones below. *)
Theorem iot_period_conserved db (s : Scheduler) price :
  let p := reward_period s in
  period_secs_ok (r_end p - r_start p) -> rows_ok db p -> price_ok price ->
  let e := emission 94 (num_seconds (r_end p - r_start p)) in
  let written := (rewarder_reward db s price).1.1 in
  e - 6 < inject_Z (sumZ share_amount written) <= e + (1 # 10).
Proof.
  intros p Hd Hr Hp. apply period_conserved; [done| |done]. by apply rows_shares_ok, rows_units_ok.
Qed.

Definition column_amount (c : column) (g : GatewayReward) : Z :=
  match c with
  | CBeacon => beacon_amount g | CWitness => witness_amount g | CDc => dc_transfer_amount g
  end.

Definition column_pot (c : column) (t : dec * dec * dec) : dec :=
  match c with CBeacon => t.1.1 | CWitness => t.1.2 | CDc => t.2 end.

Lemma add_units_dom (l : list (row_unit (dec := dec))) k :
  (exists u, u ∈ l /\ u.1.1 = k) -> is_Some (fold_left add_unit l ∅ !! k).
Proof.
  induction l as [|u l IH] using rev_ind; intros (v & Hv & <-); [by apply not_elem_of_nil in Hv|].
  rewrite fold_left_app. cbn [fold_left]. unfold add_unit at 1, entry_update.
  destruct (decide (u.1.1 = v.1.1)) as [->|Hne]; [rewrite lookup_insert_eq; eauto|].
  rewrite lookup_insert_ne by done. apply IH. exists v. split; [|done].
  apply elem_of_app in Hv as [Hv|Hv%list_elem_of_singleton]; [done|congruence].
Qed.

(** The payout of one gateway in one column. *)
Lemma column_payout (l : list (row_unit (dec := dec))) k r c (T : dec) :
  units_ok l -> fold_left add_unit l ∅ !! k = Some r -> 0 <= dval T <= inject_Z (10 ^ 15) ->
  let shares := map_to_list (fold_left add_unit l ∅) in
  let S := sumQ unit_value (List.filter (in_column c) l) in
  let e := dval T / S * sumQ unit_value (List.filter (unit_of k c) l) in
  let rps := rewards_per_share T (dec_sum (fun kv => get_column c kv.2) shares) in
  0 < S -> e - 1 - (1 # 100) < inject_Z (compute_rewards rps (get_column c r)) <= e + (1 # 100).
Proof.
  intros Hok Hr HT shares S e rps HS. pose proof (units_column_ok l c Hok) as Hc. fold shares in Hc.
  destruct (pot_payouts _ shares T Hc HT) as (_ & _ & H).
  destruct (column_sum _ shares Hc) as [E _]. unfold shares in E at 2. rewrite column_total in E by done.
  fold S in E. destruct (gateway_column l k c Hok) as [Ek _]. rewrite Hr in Ek. cbn [default] in Ek.
  specialize (H ltac:(by rewrite E) (k, r) ltac:(by apply elem_of_map_to_list)).
  unfold exact_share in H. cbn [snd] in H. rewrite E, Ek in H. exact H.
Qed.

Lemma elem_of_written db (s : Scheduler) price r :
  let p := reward_period s in
  let shares := aggregate_reward_shares db p in
  let '(b, w, d) := calculate_rewards_per_share shares p price in
  r ∈ (into_iot_reward_shares shares p b w d).*2 -> r ∈ (rewarder_reward db s price).1.1.
Proof.
  intros p shares. unfold rewarder_reward, reward_oracles, reward_operational, reward_poc_and_dc.
  cbn [fst]. fold p shares. destruct (calculate_rewards_per_share shares p price) as [[b w] d].
  intros Hr. destruct (get_scheduled_poc_tokens _ _). unfold write_unallocated_reward.
  repeat case_match; rewrite ?elem_of_app; tauto.
Qed.

(** C5: Every gateway with a row in the period is paid, in each of the three
    columns, its exact proportion of the pot, the sum of its rows over the sum of
    all rows of the column, truncated to a bone: the amount written is within one
    hundredth of a bone above and less than a bone and a hundredth below. *)
Theorem gateway_paid_share db (s : Scheduler) price k :
  let p := reward_period s in
  let units := row_units db p in
  period_secs_ok (r_end p - r_start p) -> rows_ok db p -> price_ok price ->
  (exists u, u ∈ units /\ u.1.1 = k) ->
  exists g, gr_hotspot_key g = k /\
    (nonzero_reward g = true -> share_of_period p (RGateway g) ∈ (rewarder_reward db s price).1.1) /\
    forall c, let S := sumQ unit_value (List.filter (in_column c) units) in
      let x := sumQ unit_value (List.filter (unit_of k c) units) in
      let e := dval (column_pot c (pots (aggregate_reward_shares db p) p price)) / S * x in
      0 < S -> e - 1 - (1 # 100) < inject_Z (column_amount c g) <= e + (1 # 100).
Proof.
  intros p units Hd Hr Hp Hk. pose proof (rows_units_ok db p Hr) as Hok. fold units in Hok.
  pose proof (rows_shares_ok db p Hok) as Hs. pose proof (pots_spec _ p price Hd Hs Hp) as Hpots.
  pose proof (elem_of_written db s price) as Hw. cbv zeta in Hw. fold p in Hw.
  rewrite calculate_pots in Hw. rewrite aggregate_units in *. fold units in Hw, Hpots, Hs |- *.
  destruct (add_units_dom units k Hk) as [r Er].
  destruct (pots (fold_left add_unit units ∅) p price) as [[tb tw] td].
  destruct Hpots as (Hb & Hww & Hdd & _). cbv beta iota zeta in Hw.
  set (l := map_to_list (fold_left add_unit units ∅)) in *.
  exists (gateway_reward (rewards_per_share tb (dec_sum beacon_of l))
    (rewards_per_share tw (dec_sum witness_of l)) (rewards_per_share td (dec_sum dc_of l)) (k, r)).
  split; [done|]. split.
  - intros Hnz. apply Hw. unfold into_iot_reward_shares. rewrite <- list_fmap_compose. apply list_elem_of_fmap.
    eexists. split; [reflexivity|]. rewrite list_elem_of_In, filter_In, <- list_elem_of_In.
    split; [|done]. apply list_elem_of_fmap. exists (k, r). split; [done|]. by apply elem_of_map_to_list.
  - intros c. cbv zeta. intros HS.
    destruct c; cbn [column_pot fst snd] in *.
    + apply (column_payout units k r CBeacon tb Hok Er Hb HS).
    + apply (column_payout units k r CWitness tw Hok Er Hww HS).
    + apply (column_payout units k r CDc td Hok Er Hdd HS).
Qed.
End PeriodRewards.

(** A day with one PoC and one packet. *)
Module Example.
Definition db : share_tables Q :=
  (dc_share_save (save_poc (mkShareTables ∅ ∅) ExamplePoc.poc) (mkDCShare "hs1" (hours 3) (dec_of_Z 7) "x")).1.
Definition day : Scheduler := scheduler_new (hours 24) 0 (hours 24) (minutes 30).

Lemma poc_rows_eq :
  poc_rows db (reward_period day) =
  [mkPocShare "hs1" Beacon (hours 2) 1 1 "a"; mkPocShare "hs2" Witness (hours 2) (1 # 2) (1 # 2) "a"] \/
  poc_rows db (reward_period day) =
  [mkPocShare "hs2" Witness (hours 2) (1 # 2) (1 # 2) "a"; mkPocShare "hs1" Beacon (hours 2) 1 1 "a"].
Proof. vm_compute. auto. Qed.

Lemma dc_rows_eq : dc_rows db (reward_period day) = [mkDCShare "hs1" (hours 3) (dec_of_Z 7) "x"].
Proof. vm_compute. reflexivity. Qed.

Lemma db_rows_ok : rows_ok db (reward_period day).
Proof.
  assert (poc_row_ok (mkPocShare "hs1" Beacon (hours 2) 1 1 "a")) as H1.
  { split; [by exists 10000%Z|]. split; [split; discriminate|]. split; [by exists 10000%Z|split; discriminate]. }
  assert (poc_row_ok (mkPocShare "hs2" Witness (hours 2) (1 # 2) (1 # 2) "a")) as H2.
  { split; [by exists 5000%Z|]. split; [split; discriminate|]. split; [by exists 5000%Z|split; discriminate]. }
  unfold rows_ok. rewrite dc_rows_eq.
  split; [|split; [|split; [|split; [cbn; lia|discriminate]]]].
  - apply Forall_forall. destruct poc_rows_eq as [E|E]; rewrite E.
    + exact (Forall_cons_2 _ _ _ H1 (Forall_cons_2 _ _ _ H2 (Forall_nil_2 _))).
    + exact (Forall_cons_2 _ _ _ H2 (Forall_cons_2 _ _ _ H1 (Forall_nil_2 _))).
  - intros s Hs%list_elem_of_singleton. subst s. by exists 7%Z.
  - destruct poc_rows_eq as [-> | ->]; cbn; lia.
Qed.

Lemma price_1 : price_ok (dec_of_Z (dec := Q) 1000000).
Proof. by exists 1000000%Z. Qed.

Lemma day_ok : period_secs_ok (r_end (reward_period day) - r_start (reward_period day)).
Proof. by vm_compute. Qed.
End Example.

Lemma iot_period_conserved_witness :
  emission 94 86400 - 6
  < inject_Z (sumZ share_amount (rewarder_reward Example.db Example.day (dec_of_Z 1000000)).1.1).
Proof.
  exact (proj1 (iot_period_conserved Example.db Example.day (dec_of_Z 1000000)
    Example.day_ok Example.db_rows_ok Example.price_1)).
Defined.

Lemma gateway_paid_share_witness :
  exists g, gr_hotspot_key g = "hs2" /\
    (nonzero_reward g = true ->
     share_of_period (reward_period Example.day) (RGateway g)
       ∈ (rewarder_reward Example.db Example.day (dec_of_Z 1000000)).1.1).
Proof.
  destruct (gateway_paid_share Example.db Example.day (dec_of_Z 1000000) "hs2"
    Example.day_ok Example.db_rows_ok Example.price_1) as (g & H1 & H2 & _).
  - exists (poc_unit (mkPocShare "hs2" Witness (hours 2) (1 # 2) (1 # 2) "a")). split; [|reflexivity].
    apply elem_of_app. left. apply list_elem_of_fmap. eexists. split; [reflexivity|].
    destruct Example.poc_rows_eq as [-> | ->]; [right; left|left].
  - by exists g.
Defined.

(** ** Rows over time *)

Open Scope Z_scope.

Section Once.
Context {dec : Type} `{!Decimal dec}.

(** Saves of shares and rewards of due periods, in any order.  A save of a data
    transfer share does not touch the PoC rows. *)
Inductive table_event : Type :=
| SavePoc (s : GatewayPocShare dec)
| SaveDc (s : GatewayDCShare dec)
| RewardPeriod (price : dec).

(** One event: the tables, the rows of [meta], and the period rewarded. *)
Definition table_step (length offset : Z) (st : share_tables dec * reward_meta) (e : table_event)
  : share_tables dec * reward_meta * option Range :=
  let '(db, m) := st in
  match e with
  | SavePoc s => ((poc_share_save db s).1, m, None)
  | SaveDc s => ((dc_share_save db s).1, m, None)
  | RewardPeriod price =>
      let s := scheduler_of_meta m length offset in
      let '(_, db', m') := rewarder_reward db s price in
      (db', m', Some (reward_period s))
  end.

(** The periods rewarded while the row of key [k] was selected for them. *)
Fixpoint rewarded_with (length offset : Z) (k : PublicKeyBinary * string)
    (st : share_tables dec * reward_meta) (evs : list table_event) : list Range :=
  match evs with
  | [] => []
  | e :: evs =>
      let '(st', o) := table_step length offset st e in
      match o, gateway_shares st.1 !! k with
      | Some p, Some s => if in_period p (ps_reward_timestamp s) then [p] else []
      | _, _ => []
      end ++ rewarded_with length offset k st' evs
  end.

(** The periods rewarded by the events. *)
Fixpoint rewarded_periods (length offset : Z) (st : share_tables dec * reward_meta)
    (evs : list table_event) : list Range :=
  match evs with
  | [] => []
  | e :: evs =>
      let '(st', o) := table_step length offset st e in
      option_list o ++ rewarded_periods length offset st' evs
  end.

Definition saves_key (k : PublicKeyBinary * string) (e : table_event) : bool :=
  match e with SavePoc s => bool_decide (share_key s = k) | _ => false end.

Lemma rewarder_reward_parts (db : share_tables dec) s price :
  (rewarder_reward db s price).1.2 = clear_rewarded_shares db (r_start (reward_period s)) /\
  (rewarder_reward db s price).2 = iot_reward_meta s.
Proof. done. Qed.

(** The row of key [k] is stored, or it was purged after its time. *)
Definition row_state (db : share_tables dec) (m : reward_meta) k (s : GatewayPocShare dec) : Prop :=
  gateway_shares db !! k = Some s \/
  (gateway_shares db !! k = None /\ ps_reward_timestamp s <= time_of_secs (meta_last m)).

Lemma clear_row_state (db : share_tables dec) m m' k s :
  row_state db m k s -> time_of_secs (meta_last m) <= time_of_secs (meta_last m') ->
  row_state (clear_rewarded_shares db (time_of_secs (meta_last m))) m' k s.
Proof.
  intros [H|[H Ht]] Hm; unfold row_state; cbn.
  - destruct (Z.lt_ge_cases (time_of_secs (meta_last m)) (ps_reward_timestamp s)).
    + left. by apply map_lookup_filter_Some.
    + right. split; [|lia]. apply map_lookup_filter_None. right. intros s' Hs'. simplify_eq. cbn. lia.
  - right. split; [|lia]. apply map_lookup_filter_None. by left.
Qed.

Lemma rewarded_periods_tile evs db m n offset :
  meta_next m = meta_last m + n ->
  tiles (time_of_secs (meta_last m)) (n * second) (rewarded_periods (n * second) offset (db, m) evs).
Proof.
  revert db m. induction evs as [|e evs IH]; intros db m Hm; [done|]. cbn [rewarded_periods].
  destruct e as [s|s|price]; cbn [table_step]; [by apply IH|by apply IH|].
  set (s := scheduler_of_meta m (n * second) offset).
  destruct (rewarder_reward_parts db s price) as [E1 E2].
  destruct (rewarder_reward db s price) as [[w db'] m']. cbn in E1, E2. subst db' m'.
  pose proof (proj1 (next_meta m n offset Hm)) as En. cbv zeta in En. fold s in En. rewrite En.
  assert (time_of_secs (meta_next m) = time_of_secs (meta_last m) + n * second) as Et
    by (unfold time_of_secs; rewrite Hm; ring).
  split; [done|]. split; [done|]. rewrite <- Et.
  apply (IH _ (mkMeta (meta_next m) (meta_next m + n))). done.
Qed.

(** While no event saves the key again, a stored row is selected exactly for the
    periods that cover its time. *)
Lemma stored_row_rewarded evs db m n offset k s :
  0 < n -> meta_next m = meta_last m + n -> row_state db m k s ->
  forallb (fun e => negb (saves_key k e)) evs = true ->
  rewarded_with (n * second) offset k (db, m) evs =
  covering (ps_reward_timestamp s) (rewarded_periods (n * second) offset (db, m) evs).
Proof.
  intros Hn. revert db m. induction evs as [|e evs IH]; intros db m Hm Hk Hs; [done|].
  apply andb_true_iff in Hs as [He Hs]. cbn [rewarded_with rewarded_periods].
  destruct e as [s'|s'|price]; cbn [table_step fst].
  - cbn in He. apply negb_true_iff, bool_decide_eq_false in He. apply IH; try done.
    unfold row_state. cbn. by rewrite lookup_insert_ne.
  - by apply IH.
  - set (sc := scheduler_of_meta m (n * second) offset).
    destruct (rewarder_reward_parts db sc price) as [E1 E2].
    destruct (rewarder_reward db sc price) as [[w db'] m']. cbn [fst snd] in E1, E2. subst db' m'.
    pose proof (proj1 (next_meta m n offset Hm)) as En. cbv zeta in En. fold sc in En. rewrite En.
    unfold covering. rewrite List.filter_app. cbn [option_list List.filter].
    change ((r_start (reward_period sc) <? ps_reward_timestamp s) && (ps_reward_timestamp s <=? r_end (reward_period sc)))
      with (in_period (reward_period sc) (ps_reward_timestamp s)).
    f_equal.
    + destruct Hk as [->|[-> Ht]]; [done|]. unfold in_period. cbn.
      by rewrite (proj2 (Z.ltb_ge (time_of_secs (meta_last m)) _)).
    + apply IH; try done. apply clear_row_state; [done|]. cbn. unfold time_of_secs, second. lia.
Qed.

End Once.

