(* ===== verification/DenyList.v ===== *)
(** * The deny list

    [denylist/src/denylist.rs]: the filter of denied gateways, loaded from a
    local copy at the start and replaced by signed filters with newer tags.  The
    filter type of [xorf_generator], the web client and the file system are
    parameters.  The theorems: without a filter everything is denied, only
    filters signed by a known key are ever used, and tags never go back. *)

From S2P Require Import Prelude Solana Text.
From Stdlib Require Import Ascii.

Open Scope Z_scope.
Open Scope oracle_scope.

(** [xorf_generator::Filter] *)
Class XorFilter : Type := {
  Filter : Type;
  PublicKey : Type;
  filter_from_bytes : string -> option Filter;
  filter_verify : Filter -> PublicKey -> bool;
  filter_contains : Filter -> PublicKeyBinary -> bool;
  filter_contains_edge : Filter -> PublicKeyBinary -> PublicKeyBinary -> bool
}.

(** [denylist::Error], as far as the functions below return it. *)
Inductive DenyError : Type :=
| Request
| UnexpectedStatus (s : string)
| InvalidFilter (msg : string)
| ParseInt
| DenyIo
| DenyCrypto.

Record Asset : Type := mkAsset { asset_name : string; browser_download_url : string }.
Record DenyListMetaData : Type := mkMetaData { md_tag_name : string; md_assets : list Asset }.

Section DenyList.
Context {XF : XorFilter}.

Record DenyList : Type := mkDenyList {
  dl_tag_name : Z;
  dl_filter : option Filter;
  dl_sign_keys : list PublicKey
}.

(** The web client: what it answers, and the local file. *)
Record web : Type := mkWeb {
  get_metadata : string -> result DenyListMetaData DenyError;
  get_bin : string -> result string DenyError
}.

(** The local copy of the filter; writing it may fail. *)
Record local_disk : Type := mkDisk {
  filter_bin : option string;
  disk_writable : bool
}.

Definition filter_from_bin (bin : string) (sign_keys : list PublicKey) : result Filter DenyError :=
  let? filter := ok_or (filter_from_bytes bin) (InvalidFilter "filter") in
  let verified := existsb (filter_verify filter) sign_keys in
  if negb verified then Err (InvalidFilter "signature verification") else Ok filter.

Definition save_local_filter_bin (disk : local_disk) (bin : string) : local_disk * result unit DenyError :=
  if disk_writable disk then (mkDisk (Some bin) true, Ok tt) else (disk, Err DenyIo).

(** [DenyList::new]; [sign_keys] are the parsed keys of the settings. *)
Definition denylist_new (sign_keys : result (list PublicKey) DenyError) (disk : local_disk)
  : result DenyList DenyError :=
  let? sign_keys := sign_keys in
  let filter :=
    match filter_bin disk with
    | Some bytes =>
        match filter_from_bin bytes sign_keys with Ok f => Some f | Err _ => None end
    | None => None
    end in
  Ok (mkDenyList 0 filter sign_keys).

(** [DenyList::update_to_latest]: the list and the disk afterwards, and the
    result.  An error after the list was changed leaves it changed. *)
Definition update_to_latest (self : DenyList) (disk : local_disk) (w : web) (metadata_url : string)
  : DenyList * local_disk * result unit DenyError :=
  match get_metadata w metadata_url with
  | Err e => (self, disk, Err e)
  | Ok metadata =>
      match u64_parse (md_tag_name metadata) with
      | None => (self, disk, Err ParseInt)
      | Some new_tag_name =>
          if dl_tag_name self <? new_tag_name then
            let assets := List.filter (fun a => String.eqb (asset_name a) "filter.bin") (md_assets metadata) in
            match head assets with
            | None => (self, disk, Ok tt)
            | Some asset =>
                match get_bin w (browser_download_url asset) with
                | Err e => (self, disk, Err e)
                | Ok bin =>
                    match filter_from_bin bin (dl_sign_keys self) with
                    | Err _ => (self, disk, Ok tt)
                    | Ok filter =>
                        let '(disk', r) := save_local_filter_bin disk bin in
                        (mkDenyList new_tag_name (Some filter) (dl_sign_keys self), disk', r)
                    end
                end
            end
          else (self, disk, Ok tt)
      end
  end.

Definition contains_key (self : DenyList) (key : PublicKeyBinary) : bool :=
  match dl_filter self with Some filter => filter_contains filter key | None => true end.

Definition contains_edge (self : DenyList) (beaconer witness : PublicKeyBinary) : bool :=
  match dl_filter self with Some filter => filter_contains_edge filter beaconer witness | None => true end.

(** [Runner::from_settings] and [handle_denylist_tick]: updates whose errors are
    only logged, one per answer of the web. *)
Definition denylist_tick (metadata_url : string) (st : DenyList * local_disk) (w : web) : DenyList * local_disk :=
  (update_to_latest st.1 st.2 w metadata_url).1.

Definition denylist_run (metadata_url : string) (st : DenyList * local_disk) (ws : list web)
  : DenyList * local_disk :=
  fold_left (denylist_tick metadata_url) ws st.

(** ** Invariant *)

(** The filter in use and the local copy are signed by one of the keys. *)
Definition signed (keys : list PublicKey) (f : Filter) : Prop := existsb (filter_verify f) keys = true.

Definition denylist_ok (keys : list PublicKey) (l : DenyList) : Prop :=
  dl_sign_keys l = keys /\ from_option (signed keys) True (dl_filter l).

Lemma filter_from_bin_signed bin keys f :
  filter_from_bin bin keys = Ok f -> filter_from_bytes bin = Some f /\ signed keys f.
Proof.
  unfold filter_from_bin, signed. destruct (filter_from_bytes bin) as [g|]; [|done]. cbn.
  destruct (existsb _ keys) eqn:E; [|done]. cbn. by intros [= ->].
Qed.

Lemma denylist_new_ok keys disk l : denylist_new (Ok keys) disk = Ok l -> denylist_ok keys l /\ dl_tag_name l = 0.
Proof.
  unfold denylist_new. cbn. intros [= <-]. split; [|done]. split; [done|]. cbn.
  destruct (filter_bin disk) as [bytes|]; [|done].
  destruct (filter_from_bin bytes keys) as [f|] eqn:E; [|done]. apply filter_from_bin_signed in E as [_ E]. exact E.
Qed.

(** One update: nothing changes, or a signed filter with a newer tag comes in. *)
Lemma update_cases self disk w url :
  let '(self', _, _) := update_to_latest self disk w url in
  self' = self \/
  (dl_tag_name self < dl_tag_name self' /\ dl_sign_keys self' = dl_sign_keys self /\
   exists f, dl_filter self' = Some f /\ signed (dl_sign_keys self) f).
Proof.
  unfold update_to_latest. destruct (get_metadata w url) as [md|]; [|by left].
  destruct (u64_parse _) as [tag|]; [|by left]. destruct (Z.ltb_spec (dl_tag_name self) tag); [|by left].
  destruct (head _) as [a|]; [|by left]. destruct (get_bin w _) as [bin|]; [|by left].
  destruct (filter_from_bin bin _) as [f|] eqn:E; [|by left].
  destruct (save_local_filter_bin disk bin) as [disk' r]. right. split; [done|]. split; [done|].
  exists f. split; [done|]. apply filter_from_bin_signed in E as [_ E]. exact E.
Qed.

Lemma denylist_tick_ok url keys st w :
  denylist_ok keys st.1 ->
  denylist_ok keys (denylist_tick url st w).1 /\ dl_tag_name st.1 <= dl_tag_name (denylist_tick url st w).1.
Proof.
  intros [Hk Hf]. unfold denylist_tick. pose proof (update_cases st.1 st.2 w url) as H.
  destruct (update_to_latest st.1 st.2 w url) as [[self' disk'] r]. cbn.
  destruct H as [->|(Ht & Hk' & f & Ef & Hs)]; [split; [done|lia]|].
  split; [|lia]. split; [congruence|]. rewrite Ef. cbn. congruence.
Qed.

(** C36: Whatever the web answers, a deny list started from the settings' keys
    only ever uses filters signed by one of them, its tag never goes back, and
    while it has no filter every gateway and every edge is denied. *)
Theorem denylist_signed_and_monotone url keys disk l ws ws' :
  denylist_new (Ok keys) disk = Ok l ->
  let l1 := (denylist_run url (l, disk) ws).1 in
  let l2 := (denylist_run url (l, disk) (ws ++ ws')).1 in
  (forall f, dl_filter l1 = Some f -> existsb (filter_verify f) keys = true) /\
  dl_tag_name l1 <= dl_tag_name l2 /\
  (dl_filter l1 = None -> forall k k', contains_key l1 k = true /\ contains_edge l1 k k' = true).
Proof.
  intros Hl. apply denylist_new_ok in Hl as [Hl _].
  assert (forall ws st, denylist_ok keys st.1 ->
            denylist_ok keys (denylist_run url st ws).1 /\
            dl_tag_name st.1 <= dl_tag_name (denylist_run url st ws).1) as Hrun.
  { clear. induction ws as [|w ws IH]; intros st Hst; [split; [done|cbn; lia]|].
    destruct (denylist_tick_ok url keys st w Hst) as [H1 H2]. destruct (IH _ H1) as [H3 H4].
    split; [exact H3|]. change (denylist_run url st (w :: ws)) with (denylist_run url (denylist_tick url st w) ws). lia. }
  destruct (Hrun ws (l, disk) Hl) as [H1 H2]. cbv zeta. split; [|split].
  - intros f Ef. destruct H1 as [_ H1]. rewrite Ef in H1. exact H1.
  - unfold denylist_run at 2. rewrite fold_left_app. apply (Hrun ws' (denylist_run url (l, disk) ws)), H1.
  - intros E k k'. unfold contains_key, contains_edge. by rewrite E.
Qed.
End DenyList.

(** A filter is the list of its keys, signed when it starts with an "s". *)
Module ExampleFilter.
#[global] Instance string_filter : XorFilter := {
  Filter := string;
  PublicKey := unit;
  filter_from_bytes s := Some s;
  filter_verify s _ := match s with String "s"%char _ => true | _ => false end;
  filter_contains s k := String.eqb s (String "s"%char k);
  filter_contains_edge _ _ _ := false
}.

Definition release (tag bin : string) : web :=
  mkWeb (fun _ => Ok (mkMetaData tag [mkAsset "filter.bin" "u"])) (fun _ => Ok bin).

Example update_signed :
  update_to_latest (mkDenyList 3 None [tt]) (mkDisk None true) (release "12" "sk") "url" =
  (mkDenyList 12 (Some "sk") [tt], mkDisk (Some "sk") true, Ok tt).
Proof. reflexivity. Qed.

Example update_unsigned :
  update_to_latest (mkDenyList 3 None [tt]) (mkDisk None true) (release "12" "k") "url" =
  (mkDenyList 3 None [tt], mkDisk None true, Ok tt).
Proof. reflexivity. Qed.
End ExampleFilter.

Lemma denylist_signed_and_monotone_witness :
  let ws := [ExampleFilter.release "12" "sk"; ExampleFilter.release "7" "sx"] in
  let st := (mkDenyList 0 None [tt], mkDisk None true) in
  dl_tag_name (denylist_run "url" st ws).1 <= dl_tag_name (denylist_run "url" st (ws ++ ws)).1.
Proof.
  intros ws st.
  exact (proj1 (proj2 (denylist_signed_and_monotone "url" [tt] (mkDisk None true) (mkDenyList 0 None [tt])
    ws ws eq_refl))).
Defined.
