(* ===== verification/IotPoc.v ===== *)
(** * Verification of IoT proofs of coverage

    [iot_verifier/src/poc.rs] with the gateway and region caches, the table
    [last_beacon] and [IotBeaconReport::to_beacon].  The geometry of [h3o], the
    floats of the signal model and the [beacon] crate are parameters. *)

From S2P Require Import Prelude Solana Text FileStoreTypes Decimal IotReports DenyList.

Open Scope Z_scope.
Open Scope oracle_scope.

(** ** Libraries *)

(** [h3o]: cells, their parents, grid distance and the distance in metres as the
    value of a float. *)
Class H3 : Type := {
  Cell : Type;
  cell_try_from : Z -> option Cell;
  cell_parent : Cell -> Z -> option Cell;
  grid_distance : Cell -> Cell -> option Z;
  distance_m : Cell -> Cell -> Q
}.

(** The operations of [f64] that the signal model uses. *)
Class Float64 : Type := {
  f64 : Type;
  f64_of_Z : Z -> f64;
  fadd : f64 -> f64 -> f64;
  fsub : f64 -> f64 -> f64;
  fmul : f64 -> f64 -> f64;
  fdiv : f64 -> f64 -> f64;
  flog10 : f64 -> f64;
  fgt : f64 -> f64 -> bool;
  f64_PI : f64;
  f64_C : f64                              (* 2.998e8 *)
}.

(** [beacon::Entropy] and [beacon::Beacon] *)
Record Entropy : Type := mkEntropy { ent_timestamp : Z; ent_data : string; ent_version : Z }.

Record Beacon `{!ProtoTypes} : Type := mkBeacon {
  b_data : string;
  b_frequency : Z;
  b_datarate : DataRate;
  b_remote_entropy : Entropy;
  b_local_entropy : Entropy;
  b_conducted_power : Z
}.

(** The region parameters of the messages, and [Beacon::new] and [verify]. *)
Class BeaconLib `{!ProtoTypes} (dec : Type) : Type := {
  BlockchainRegionParam : Type;
  BeaconRegion : Type;
  beacon_region_of : Region -> BeaconRegion;
  beacon_new : Entropy -> Entropy -> BeaconRegion -> list BlockchainRegionParam -> dec -> Z -> option Beacon;
  beacon_verify : Beacon -> Beacon -> bool
}.

(** ** Gateways *)

Section Gateways.
Context {PT : ProtoTypes}.

Record GatewayMetadata : Type := mkMetadata {
  gm_location : Z;
  gm_elevation : Z;
  gm_gain : Z;
  gm_region : Region
}.

Record GatewayInfo : Type := mkGatewayInfo {
  gi_address : PublicKeyBinary;
  gi_metadata : option GatewayMetadata;
  gi_is_full_hotspot : bool
}.

Abbreviation GatewayCache := (gmap PublicKeyBinary GatewayInfo).

Inductive GatewayCacheError : Type := CacheGatewayNotFound (address : PublicKeyBinary).

Definition resolve_gateway_info (cache : GatewayCache) (address : PublicKeyBinary)
  : result GatewayInfo GatewayCacheError :=
  match cache !! address with
  | Some hit => Ok hit
  | None => Err (CacheGatewayNotFound address)
  end.
End Gateways.

(** The table [last_beacon], by id. *)
Definition last_beacon_get (t : gmap string Z) (id : string) : option Z := t !! id.
Definition update_last_timestamp (t : gmap string Z) (id : string) (timestamp : Z) : gmap string Z :=
  <[id := timestamp]> t.
Definition get_all_since (t : gmap string Z) (deadline : Z) : gmap string Z :=
  filter (fun kv => deadline <= kv.2) t.

(** ** Checks *)

Record InvalidResponse : Type := mkInvalidResponse {
  ir_reason : InvalidReason;
  ir_details : option InvalidDetails
}.

Definition GenericVerifyResult : Type := result unit InvalidResponse.

Definition reject (reason : InvalidReason) : GenericVerifyResult := Err (mkInvalidResponse reason None).

Definition POC_DISTANCE_LIMIT : Z := 100.
Definition POC_CELL_DISTANCE_MINIMUM : Z := 8.
Definition POC_CELL_PARENT_RES : Z := 11.
Definition MAX_WITNESS_LAG : Z := 1500 * nanos_per_milli.
Definition MAX_BEACON_TO_WITNESS_LAG : Z := 4000 * nanos_per_milli.
Definition ENTROPY_LIFESPAN : Z := 180.

(** A panic aborts the task that handles the beacon. *)
Inductive verify_failure : Type :=
| Rejected (r : InvalidResponse)
| Panicked.

Section Checks.
Context {PT : ProtoTypes} {CH : Chrono} {XF : XorFilter} {GEO : H3} {FL : Float64}
  {dec : Type} {D : Decimal dec} {BL : BeaconLib dec}.

(** [duration_trunc] failing is a panic. *)
Definition verify_beacon_schedule (last_beacon : option Z) (beacon_received_ts beacon_interval : Z)
  : result unit verify_failure :=
  match last_beacon with
  | Some last =>
      let? last_bucket := ok_or (duration_trunc last beacon_interval) Panicked in
      let? cur_bucket := ok_or (duration_trunc beacon_received_ts beacon_interval) Panicked in
      if cur_bucket <=? last_bucket then Err (Rejected (mkInvalidResponse IrregularInterval None)) else Ok tt
  | None => Ok tt
  end.

(** [deny_list.tag_name.to_string()] *)
Definition denylist_details (deny_list : DenyList) : option InvalidDetails :=
  Some (Some (DenylistTag (u64_to_string (dl_tag_name deny_list)))).

Definition verify_denylist (pub_key : PublicKeyBinary) (deny_list : DenyList) : GenericVerifyResult :=
  if contains_key deny_list pub_key
  then Err (mkInvalidResponse Denied (denylist_details deny_list)) else Ok tt.

Definition verify_edge_denylist (beaconer witness : PublicKeyBinary) (deny_list : DenyList)
  : GenericVerifyResult :=
  if contains_edge deny_list beaconer witness
  then Err (mkInvalidResponse DeniedEdge (denylist_details deny_list)) else Ok tt.

(** [DateTime::timestamp]: whole seconds *)
Definition timestamp_secs (t : Z) : Z := t / nanos_per_sec.

Definition verify_entropy (entropy_start entropy_end received_ts : Z) : GenericVerifyResult :=
  if (timestamp_secs received_ts <? timestamp_secs entropy_start)
     || (timestamp_secs entropy_end <? timestamp_secs received_ts)
  then reject EntropyExpired else Ok tt.

Definition verify_gw_capability (is_full_hotspot : bool) : GenericVerifyResult :=
  if negb is_full_hotspot then reject InvalidCapability else Ok tt.

Definition verify_witness_lag (beacon_received_ts first_witness_ts received_ts : Z) : GenericVerifyResult :=
  let '(first_event_ts, max_permitted_lag) :=
    if beacon_received_ts <=? first_witness_ts then (beacon_received_ts, MAX_BEACON_TO_WITNESS_LAG)
    else (first_witness_ts, MAX_WITNESS_LAG) in
  let this_witness_lag := received_ts - first_event_ts in
  if max_permitted_lag <? this_witness_lag then reject TooLate else Ok tt.

Definition verify_self_witness (beacon_pub_key witness_pub_key : PublicKeyBinary) : GenericVerifyResult :=
  if String.eqb witness_pub_key beacon_pub_key then reject SelfWitness else Ok tt.

(** [(beacon_freq.abs_diff(witness_freq) as i32) > 1000 * 100] *)
Definition verify_witness_freq (beacon_freq witness_freq : Z) : GenericVerifyResult :=
  if 1000 * 100 <? as_i32 (abs_diff beacon_freq witness_freq) then reject InvalidFrequency else Ok tt.

Definition verify_witness_region (beacon_region witness_region : Region) : GenericVerifyResult :=
  if bool_decide (beacon_region = witness_region) then Ok tt else reject InvalidRegion.

Definition verify_witness_data (beacon_data witness_data : string) : GenericVerifyResult :=
  if String.eqb witness_data beacon_data then Ok tt else reject InvalidPacket.

(** *** Distances *)

Inductive CalcDistanceError : Type := H3CellError | H3ParentError | H3DistanceError.

(** [f64::round] of a value that is not negative, and [as u32], which saturates. *)
Definition round_as_u32 (q : Q) : Z := Z.max 0 (Z.min (2 ^ 32 - 1) (Qfloor (q + (1 # 2)))).

Definition calc_cell_distance (p1 p2 : Z) : result Z CalcDistanceError :=
  let? p1_cell := ok_or (cell_try_from p1) H3CellError in
  let? p2_cell := ok_or (cell_try_from p2) H3CellError in
  let? source_parent := ok_or (cell_parent p1_cell POC_CELL_PARENT_RES) H3ParentError in
  let? dest_parent := ok_or (cell_parent p2_cell POC_CELL_PARENT_RES) H3ParentError in
  let? cell_distance := ok_or (grid_distance source_parent dest_parent) H3DistanceError in
  Ok (as_u32 cell_distance).

Definition calc_distance (p1 p2 : Z) : result Z CalcDistanceError :=
  let? p1_cell := ok_or (cell_try_from p1) H3CellError in
  let? p2_cell := ok_or (cell_try_from p2) H3CellError in
  Ok (round_as_u32 (distance_m p1_cell p2_cell)).

Definition verify_witness_distance (beacon_loc witness_loc : Z) : GenericVerifyResult :=
  match calc_distance beacon_loc witness_loc with
  | Err _ => reject MaxDistanceExceeded
  | Ok witness_distance =>
      if POC_DISTANCE_LIMIT <? witness_distance / 1000 then reject MaxDistanceExceeded else Ok tt
  end.

Definition verify_witness_cell_distance (beacon_loc witness_loc : Z) : GenericVerifyResult :=
  match calc_cell_distance beacon_loc witness_loc with
  | Err _ => reject BelowMinDistance
  | Ok cell_distance =>
      if cell_distance <? POC_CELL_DISTANCE_MINIMUM then reject BelowMinDistance else Ok tt
  end.

(** *** Signal *)

Definition calc_fpsl (freq distance_mtrs : Z) : f64 :=
  fmul (f64_of_Z 20)
    (flog10 (fdiv (fmul (fmul (fmul (f64_of_Z 4) f64_PI) (f64_of_Z distance_mtrs)) (f64_of_Z freq)) f64_C)).

(** Gains are [i32] tenths of a decibel, divided towards zero. *)
Definition calc_expected_rssi (conducted_tx_power_dbm freq distance_mtrs beaconer_gain_ddb witness_gain_ddb : Z)
  : f64 :=
  let beaconer_gain_db := Z.quot beaconer_gain_ddb 10 in
  let witness_gain_db := Z.quot witness_gain_ddb 10 in
  let fpsl := calc_fpsl freq distance_mtrs in
  fadd (fsub (fadd (f64_of_Z conducted_tx_power_dbm) (f64_of_Z beaconer_gain_db)) fpsl)
    (f64_of_Z witness_gain_db).

Definition verify_witness_rssi (witness_signal witness_freq beacon_tx_power beacon_gain witness_gain
    beacon_loc witness_loc : Z) : GenericVerifyResult :=
  match calc_distance beacon_loc witness_loc with
  | Err _ => reject BadRssi
  | Ok distance =>
      let min_rcv_signal := calc_expected_rssi beacon_tx_power witness_freq distance beacon_gain witness_gain in
      if fgt (fdiv (f64_of_Z witness_signal) (f64_of_Z 10)) min_rcv_signal then reject BadRssi else Ok tt
  end.

(** *** Beacon construction *)

(** [IotBeaconReport::to_beacon] *)
Definition to_beacon (r : IotBeaconReport) (entropy_start entropy_version : Z) : Beacon :=
  mkBeacon _ (br_data r) (br_frequency r) (br_datarate r)
    (mkEntropy (timestamp_secs entropy_start) (br_remote_entropy r) entropy_version)
    (mkEntropy 0 (br_local_entropy r) entropy_version)
    (as_u32 (br_tx_power r)).

Definition generate_beacon (region : BeaconRegion) (params : list BlockchainRegionParam) (gain : dec)
    (entropy_start entropy_version : Z) (local_entropy_data remote_entropy_data : string) : option Beacon :=
  let remote_entropy := mkEntropy entropy_start remote_entropy_data entropy_version in
  let local_entropy := mkEntropy 0 local_entropy_data entropy_version in
  beacon_new remote_entropy local_entropy region params gain 0.

Definition verify_beacon_payload (beacon_report : IotBeaconReport) (region : Region)
    (region_params : list BlockchainRegionParam) (gain entropy_start entropy_version : Z)
  : GenericVerifyResult :=
  match generate_beacon (beacon_region_of region) region_params (dec_new gain 1)
          (timestamp_secs entropy_start) entropy_version
          (br_local_entropy beacon_report) (br_remote_entropy beacon_report) with
  | None => reject InvalidPacket
  | Some generated_beacon =>
      let reported_beacon := to_beacon beacon_report entropy_start entropy_version in
      if negb (beacon_verify generated_beacon reported_beacon) then reject InvalidPacket else Ok tt
  end.
End Checks.

(** ** Verification of a beacon and of its witnesses *)

Section Verify.
Context {PT : ProtoTypes} {CH : Chrono} {XF : XorFilter} {GEO : H3} {FL : Float64}
  {dec : Type} {D : Decimal dec} {BL : BeaconLib dec}.

Definition do_beacon_verifications (deny_list : DenyList) (entropy_start entropy_end entropy_version : Z)
    (last_beacon : option Z) (beacon_report : IotBeaconIngestReport) (beaconer_info : GatewayInfo)
    (beaconer_region_params : list BlockchainRegionParam) (beacon_interval : Z)
  : result unit verify_failure :=
  let beacon_received_ts := bi_received_timestamp beacon_report in
  match gi_metadata beaconer_info with
  | None => Err (Rejected (mkInvalidResponse NotAsserted None))
  | Some beaconer_metadata =>
      let? _ := map_err Rejected (verify_denylist (br_pub_key (bi_report beacon_report)) deny_list) in
      let? _ := map_err Rejected (verify_entropy entropy_start entropy_end beacon_received_ts) in
      let? _ := map_err Rejected (verify_gw_capability (gi_is_full_hotspot beaconer_info)) in
      let? _ := verify_beacon_schedule last_beacon beacon_received_ts beacon_interval in
      map_err Rejected (verify_beacon_payload (dec := dec) (bi_report beacon_report)
        (gm_region beaconer_metadata) beaconer_region_params (gm_gain beaconer_metadata) entropy_start
        (as_u32 entropy_version))
  end.

Definition do_witness_verifications (deny_list : DenyList) (entropy_start entropy_end : Z)
    (witness_report : IotWitnessIngestReport) (witness_info : GatewayInfo)
    (beacon_report : IotBeaconIngestReport) (beaconer_metadata : GatewayMetadata)
    (witness_first_ts : Z) : GenericVerifyResult :=
  let witness := wi_report witness_report in
  let beacon := bi_report beacon_report in
  match gi_metadata witness_info with
  | None => reject NotAsserted
  | Some witness_metadata =>
      let? _ := verify_denylist (wr_pub_key witness) deny_list in
      let? _ := verify_edge_denylist (br_pub_key beacon) (wr_pub_key witness) deny_list in
      let? _ := verify_self_witness (br_pub_key beacon) (wr_pub_key witness) in
      let? _ := verify_entropy entropy_start entropy_end (wi_received_timestamp witness_report) in
      let? _ := verify_witness_lag (bi_received_timestamp beacon_report) witness_first_ts
                  (wi_received_timestamp witness_report) in
      let? _ := verify_witness_data (br_data beacon) (wr_data witness) in
      let? _ := verify_gw_capability (gi_is_full_hotspot witness_info) in
      let? _ := verify_witness_freq (br_frequency beacon) (wr_frequency witness) in
      let? _ := verify_witness_region (gm_region beaconer_metadata) (gm_region witness_metadata) in
      let? _ := verify_witness_cell_distance (gm_location beaconer_metadata) (gm_location witness_metadata) in
      let? _ := verify_witness_distance (gm_location beaconer_metadata) (gm_location witness_metadata) in
      verify_witness_rssi (wr_signal witness) (wr_frequency witness) (br_tx_power beacon)
        (gm_gain beaconer_metadata) (gm_gain witness_metadata) (gm_location beaconer_metadata)
        (gm_location witness_metadata)
  end.

(** [Poc] *)
Record Poc : Type := mkPoc {
  p_beacon_report : IotBeaconIngestReport;
  p_witness_reports : list IotWitnessIngestReport;
  p_entropy_start : Z;
  p_entropy_end : Z;
  p_entropy_version : Z
}.

Definition poc_new (beacon_report : IotBeaconIngestReport) (witness_reports : list IotWitnessIngestReport)
    (entropy_start entropy_version : Z) : Poc :=
  mkPoc beacon_report witness_reports entropy_start (entropy_start + ENTROPY_LIFESPAN * nanos_per_sec)
    entropy_version.

Record VerifyBeaconResult : Type := mkVerifyBeacon {
  vbr_result : VerificationStatus;
  vbr_invalid_reason : InvalidReason;
  vbr_invalid_details : option InvalidDetails;
  vbr_gateway_info : option GatewayInfo;
  vbr_hex_scale : option dec
}.

Definition beacon_valid (gateway_info : GatewayInfo) (hex_scale : dec) : VerifyBeaconResult :=
  mkVerifyBeacon StatusValid ReasonNone None (Some gateway_info) (Some hex_scale).
Definition beacon_invalid (reason : InvalidReason) (details : option InvalidDetails)
    (gateway_info : GatewayInfo) : VerifyBeaconResult :=
  mkVerifyBeacon StatusInvalid reason details (Some gateway_info) None.
Definition beacon_gateway_not_found : VerifyBeaconResult :=
  mkVerifyBeacon StatusInvalid GatewayNotFound None None None.

(** [RegionCache]: entries with the time they expire. *)
Record RegionParamsInfo : Type := mkRegionParams {
  rp_region : Region;
  rp_region_params : list BlockchainRegionParam
}.

Record RegionCache : Type := mkRegionCache {
  rc_cache : gmap Region (RegionParamsInfo * Z);
  rc_refresh_interval : Z
}.

(** [fetch] is the gateway service; [None] is its error. *)
Definition resolve_region_info (self : RegionCache) (fetch : Region -> option RegionParamsInfo)
    (now : Z) (region : Region) : RegionCache * option RegionParamsInfo :=
  let lookup :=
    match fetch region with
    | Some res =>
        (mkRegionCache (<[region := (res, now + rc_refresh_interval self)]> (rc_cache self))
           (rc_refresh_interval self), Some res)
    | None => (self, None)
    end in
  match rc_cache self !! region with
  | Some (hit, expires) => if now <? expires then (self, Some hit) else lookup
  | None => lookup
  end.

Definition DEFAULT_TX_SCALE : dec := dec_new 2000 4.

(** [HexDensityMap::get] *)
Definition tx_scale_at (hex_density_map : gmap Z dec) (hex : Z) : dec :=
  default DEFAULT_TX_SCALE (hex_density_map !! hex).

(** The failures of [verify_beacon]: the region service, or a panic. *)
Inductive VerificationError : Type := RegionCacheFailed | VerifyPanicked.

(** [Poc::verify_beacon]; [region_params] is what the region cache resolves. *)
Definition verify_beacon (self : Poc) (hex_density_map : gmap Z dec)
    (gateway_cache : gmap PublicKeyBinary GatewayInfo) (region_params : Region -> option RegionParamsInfo)
    (last_beacons : gmap string Z) (beacon_interval : Z) (deny_list : DenyList)
  : result VerifyBeaconResult VerificationError :=
  let beaconer_pub_key := br_pub_key (bi_report (p_beacon_report self)) in
  match resolve_gateway_info gateway_cache beaconer_pub_key with
  | Err (CacheGatewayNotFound _) => Ok beacon_gateway_not_found
  | Ok beaconer_info =>
      match gi_metadata beaconer_info with
      | None => Ok (beacon_invalid NotAsserted None beaconer_info)
      | Some beaconer_metadata =>
          let? beaconer_region_info := ok_or (region_params (gm_region beaconer_metadata)) RegionCacheFailed in
          let last_beacon := last_beacon_get last_beacons beaconer_pub_key in
          match do_beacon_verifications deny_list (p_entropy_start self) (p_entropy_end self)
                  (p_entropy_version self) last_beacon (p_beacon_report self) beaconer_info
                  (rp_region_params beaconer_region_info) beacon_interval with
          | Ok _ => Ok (beacon_valid beaconer_info (tx_scale_at hex_density_map (gm_location beaconer_metadata)))
          | Err (Rejected r) => Ok (beacon_invalid (ir_reason r) (ir_details r) beaconer_info)
          | Err Panicked => Err VerifyPanicked
          end
      end
  end.

(** [Poc::verify_witness] *)
Definition verify_witness (self : Poc) (deny_list : DenyList) (witness_report : IotWitnessIngestReport)
    (beaconer_info : GatewayInfo) (gateway_cache : gmap PublicKeyBinary GatewayInfo)
    (hex_density_map : gmap Z dec) (witness_first_ts : Z)
  : result (IotVerifiedWitnessReport dec) VerificationError :=
  let witness := wi_report witness_report in
  let received := wi_received_timestamp witness_report in
  match resolve_gateway_info gateway_cache (wr_pub_key witness) with
  | Err (CacheGatewayNotFound _) =>
      Ok (verified_invalid GatewayNotFound None witness received None 0 0 SideWitness)
  | Ok witness_info =>
      match gi_metadata witness_info with
      | None => Ok (verified_invalid NotAsserted None witness received None 0 0 SideWitness)
      | Some witness_metadata =>
          match gi_metadata beaconer_info with
          | None => Ok (verified_invalid NotAsserted None witness received None 0 0 SideBeaconer)
          | Some beaconer_metadata =>
              match do_witness_verifications deny_list (p_entropy_start self) (p_entropy_end self)
                      witness_report witness_info (p_beacon_report self) beaconer_metadata
                      witness_first_ts with
              | Ok _ =>
                  Ok (verified_valid witness received (Some (gm_location witness_metadata))
                        (gm_gain witness_metadata) (gm_elevation witness_metadata)
                        (tx_scale_at hex_density_map (gm_location beaconer_metadata)))
              | Err r =>
                  Ok (verified_invalid (ir_reason r) (ir_details r) witness received
                        (Some (gm_location witness_metadata)) (gm_gain witness_metadata)
                        (gm_elevation witness_metadata) SideWitness)
              end
          end
      end
  end.

(** The loop of [Poc::verify_witnesses] with the gateways seen so far: the
    verified and the failed witnesses. *)
Fixpoint verify_witness_loop (self : Poc) (deny_list : DenyList) (beacon_info : GatewayInfo)
    (gateway_cache : gmap PublicKeyBinary GatewayInfo) (hex_density_map : gmap Z dec)
    (first_ts : Z) (existing_gateways : list PublicKeyBinary) (witnesses : list IotWitnessIngestReport)
  : list (IotVerifiedWitnessReport dec) * list IotWitnessIngestReport :=
  match witnesses with
  | [] => ([], [])
  | w :: rest =>
      let continue existing :=
        verify_witness_loop self deny_list beacon_info gateway_cache hex_density_map first_ts existing rest in
      if bool_decide (wr_pub_key (wi_report w) ∈ existing_gateways) then
        let dup_witness :=
          verified_invalid Duplicate None (wi_report w) (wi_received_timestamp w) None 0 0 SideWitness in
        let '(verified, failed) := continue existing_gateways in
        (dup_witness :: verified, failed)
      else
        match verify_witness self deny_list w beacon_info gateway_cache hex_density_map first_ts with
        | Ok v =>
            let '(verified, failed) := continue (existing_gateways ++ [wr_pub_key (vw_report v)]) in
            (v :: verified, failed)
        | Err _ =>
            let '(verified, failed) := continue existing_gateways in
            (verified, w :: failed)
        end
  end.

Definition verify_witnesses (self : Poc) (beacon_info : GatewayInfo) (hex_density_map : gmap Z dec)
    (gateway_cache : gmap PublicKeyBinary GatewayInfo) (deny_list : DenyList)
  : list (IotVerifiedWitnessReport dec) * list IotWitnessIngestReport :=
  match p_witness_reports self with
  | [] => ([], [])
  | w :: _ =>
      verify_witness_loop self deny_list beacon_info gateway_cache hex_density_map
        (wi_received_timestamp w) [] (p_witness_reports self)
  end.
End Verify.

Arguments VerifyBeaconResult {_} dec.

(** ** What the checks accept *)

Section Accept.
Context {PT : ProtoTypes} {CH : Chrono} {XF : XorFilter} {GEO : H3} {FL : Float64}
  {dec : Type} {D : Decimal dec} {BL : BeaconLib dec}.

Lemma bind_tt {E} (r k : result unit E) : (let? _ := r in k) = Ok tt <-> r = Ok tt /\ k = Ok tt.
Proof. destruct r as [[]|]; cbn; [tauto|]. split; [done|by intros []]. Qed.

Lemma map_err_tt {E F} (f : E -> F) (r : result unit E) : map_err f r = Ok tt <-> r = Ok tt.
Proof. destruct r as [[]|]; cbn; [tauto|done]. Qed.

Lemma verify_denylist_ok k dl : verify_denylist k dl = Ok tt <-> contains_key dl k = false.
Proof. unfold verify_denylist. by destruct (contains_key dl k). Qed.

Lemma verify_edge_denylist_ok b w dl : verify_edge_denylist b w dl = Ok tt <-> contains_edge dl b w = false.
Proof. unfold verify_edge_denylist. by destruct (contains_edge dl b w). Qed.

Lemma verify_entropy_ok s e t :
  verify_entropy s e t = Ok tt <-> timestamp_secs s <= timestamp_secs t <= timestamp_secs e.
Proof.
  unfold verify_entropy.
  destruct (Z.ltb_spec (timestamp_secs t) (timestamp_secs s)), (Z.ltb_spec (timestamp_secs e) (timestamp_secs t));
    cbn; unfold reject; split; intros; try done; lia.
Qed.

Lemma verify_gw_capability_ok b : verify_gw_capability b = Ok tt <-> b = true.
Proof. by destruct b. Qed.

(** The latest time a witness may be received. *)
Definition witness_deadline (beacon_received_ts first_witness_ts : Z) : Z :=
  if beacon_received_ts <=? first_witness_ts then beacon_received_ts + 4 * nanos_per_sec
  else first_witness_ts + 1500 * nanos_per_milli.

Lemma verify_witness_lag_ok b f t :
  verify_witness_lag b f t = Ok tt <-> t <= witness_deadline b f.
Proof.
  unfold verify_witness_lag, witness_deadline, reject, MAX_WITNESS_LAG, MAX_BEACON_TO_WITNESS_LAG,
    nanos_per_sec, nanos_per_milli.
  destruct (Z.leb_spec b f); case_goal; zbool; split; intros; try done; lia.
Qed.

Lemma verify_self_witness_ok b w : verify_self_witness b w = Ok tt <-> w <> b.
Proof. unfold verify_self_witness. destruct (String.eqb_spec w b); unfold reject; split; done || congruence. Qed.

Lemma verify_witness_data_ok b w : verify_witness_data b w = Ok tt <-> w = b.
Proof. unfold verify_witness_data. destruct (String.eqb_spec w b); unfold reject; split; done || congruence. Qed.

Lemma verify_witness_region_ok b w : verify_witness_region b w = Ok tt <-> b = w.
Proof. unfold verify_witness_region. by case_bool_decide. Qed.

(** The tolerance holds for differences that fit an [i32]. *)
Lemma verify_witness_freq_ok b w :
  verify_witness_freq b w = Ok tt <-> as_i32 (Z.abs (b - w)) <= 100000.
Proof.
  unfold verify_witness_freq, abs_diff, reject. destruct (Z.ltb_spec (1000 * 100) (as_i32 (Z.abs (b - w))));
    split; intros; done || lia.
Qed.

Lemma verify_witness_cell_distance_ok b w :
  verify_witness_cell_distance b w = Ok tt <->
  exists d, calc_cell_distance b w = Ok d /\ POC_CELL_DISTANCE_MINIMUM <= d.
Proof.
  unfold verify_witness_cell_distance, reject. destruct (calc_cell_distance b w) as [d|].
  - destruct (Z.ltb_spec d POC_CELL_DISTANCE_MINIMUM); split; intros H'; try done.
    + destruct H' as (d' & [= <-] & ?). lia.
    + by exists d.
  - split; [done|]. by intros (d & ? & _).
Qed.

(** [distance / 1000 > 100] on metres. *)
Lemma verify_witness_distance_ok b w :
  verify_witness_distance b w = Ok tt <-> exists m, calc_distance b w = Ok m /\ m < 101000.
Proof.
  unfold verify_witness_distance, reject, POC_DISTANCE_LIMIT. destruct (calc_distance b w) as [m|].
  - pose proof (Z.div_mod m 1000 ltac:(lia)). pose proof (Z.mod_pos_bound m 1000 ltac:(lia)).
    destruct (Z.ltb_spec 100 (m / 1000)); split; intros H'; try done.
    + destruct H' as (m' & [= <-] & ?). lia.
    + exists m. split; [done|lia].
  - split; [done|]. by intros (m & ? & _).
Qed.

Definition signal_possible (signal freq tx_power beacon_gain witness_gain metres : Z) : Prop :=
  fgt (fdiv (f64_of_Z signal) (f64_of_Z 10)) (calc_expected_rssi tx_power freq metres beacon_gain witness_gain)
  = false.

Lemma verify_witness_rssi_ok s f p bg wg b w :
  verify_witness_rssi s f p bg wg b w = Ok tt <->
  exists m, calc_distance b w = Ok m /\ signal_possible s f p bg wg m.
Proof.
  unfold verify_witness_rssi, reject, signal_possible. destruct (calc_distance b w) as [m|].
  - destruct (fgt _ _) eqn:E; split; intros H'; try done.
    + destruct H' as (m' & [= <-] & H2). congruence.
    + by exists m.
  - split; [done|]. by intros (m & ? & _).
Qed.

Lemma accepted_not_self deny_list s e w info b bm t :
  do_witness_verifications deny_list s e w info b bm t = Ok tt ->
  wr_pub_key (wi_report w) <> br_pub_key (bi_report b).
Proof.
  unfold do_witness_verifications, GenericVerifyResult. destruct (gi_metadata info); [|done].
  rewrite !bind_tt, verify_self_witness_ok. tauto.
Qed.


(** The frequency check compares a difference cast to [i32]: within that
    range it enforces the 100 kHz tolerance, but a difference between 2^31 and
    2^32 Hz is accepted whatever the frequencies. *)
Theorem witness_freq_wraps beacon_freq witness_freq :
  let diff := Z.abs (beacon_freq - witness_freq) in
  (diff < 2 ^ 31 ->
     (verify_witness_freq beacon_freq witness_freq = Ok tt <-> diff <= 100000)) /\
  (2 ^ 31 <= diff <= 2 ^ 32 -> verify_witness_freq beacon_freq witness_freq = Ok tt).
Proof.
  intros diff. rewrite verify_witness_freq_ok. fold diff. assert (0 <= diff) as H0 by (unfold diff; lia).
  clearbody diff. unfold as_i32, as_signed, wrap. change (32 - 1) with 31. split; intros Hd.
  - rewrite Z.mod_small by lia. rewrite (proj2 (Z.ltb_lt diff (2 ^ 31))) by lia. done.
  - destruct (Z.eq_dec diff (2 ^ 32)) as [->|Hne]; [discriminate|].
    rewrite Z.mod_small by lia. rewrite (proj2 (Z.ltb_ge diff (2 ^ 31))) by lia. lia.
Qed.

(** The schedule check in terms of intervals since the epoch. *)
Lemma verify_beacon_schedule_ok last t interval :
  0 < interval -> from_option (fun l => interval <= l < 2 ^ 63) True last -> interval <= t < 2 ^ 63 ->
  verify_beacon_schedule last t interval = Ok tt <->
  from_option (fun l => l / interval < t / interval) True last.
Proof.
  intros Hi Hl Ht. unfold verify_beacon_schedule. destruct last as [l|]; [|done]. cbn in Hl |- *.
  rewrite !duration_trunc_spec by lia. cbn.
  pose proof (Z.div_mod l interval ltac:(lia)) as E1. pose proof (Z.div_mod t interval ltac:(lia)) as E2.
  replace (l - l mod interval) with (interval * (l / interval)) by lia.
  replace (t - t mod interval) with (interval * (t / interval)) by lia.
  destruct (Z.leb_spec (interval * (t / interval)) (interval * (l / interval))) as [H|H].
  - split; [done|]. intros Hlt. nia.
  - split; [|done]. intros _. nia.
Qed.
End Accept.

(** ** Witnesses of a beacon *)

Section Witnesses.
Context {PT : ProtoTypes} {CH : Chrono} {XF : XorFilter} {GEO : H3} {FL : Float64}
  {dec : Type} {D : Decimal dec} {BL : BeaconLib dec}.
Variables (self : Poc) (deny_list : DenyList) (beacon_info : GatewayInfo)
  (cache : gmap PublicKeyBinary GatewayInfo) (hexes : gmap Z dec).

Definition witness_key (v : IotVerifiedWitnessReport dec) : PublicKeyBinary := wr_pub_key (vw_report v).

(** What is known of the verdict on a report. *)
Definition verdict_ok (first_ts : Z) (w : IotWitnessIngestReport) (v : IotVerifiedWitnessReport dec) : Prop :=
  vw_report v = wi_report w /\ vw_received_timestamp v = wi_received_timestamp w /\
  (vw_status v = StatusValid <-> vw_invalid_reason v = ReasonNone) /\
  (vw_status v = StatusValid ->
     exists info bm, cache !! wr_pub_key (wi_report w) = Some info /\
       gi_metadata beacon_info = Some bm /\ vw_hex_scale v = tx_scale_at hexes (gm_location bm) /\
       do_witness_verifications deny_list (p_entropy_start self) (p_entropy_end self) w info
         (p_beacon_report self) bm first_ts = Ok tt).

(** A failing check gives a reason. *)
Definition reasoned (k : GenericVerifyResult) : Prop := forall r, k = Err r -> ir_reason r <> ReasonNone.

Lemma reasoned_bind r k : reasoned r -> reasoned k -> reasoned (let? _ := r in k).
Proof. intros Hr Hk. by destruct r as [[]|e]; cbn. Qed.

Lemma do_witness_verifications_reasoned dl s e w info b bm t :
  reasoned (do_witness_verifications dl s e w info b bm t).
Proof.
  unfold do_witness_verifications. destruct (gi_metadata info); [|by intros r [= <-]].
  repeat (apply reasoned_bind).
  - unfold verify_denylist. case_match; by intros r [= <-].
  - unfold verify_edge_denylist. case_match; by intros r [= <-].
  - unfold verify_self_witness. case_match; by intros r [= <-].
  - unfold verify_entropy. case_match; by intros r [= <-].
  - unfold verify_witness_lag. repeat case_match; by intros r [= <-].
  - unfold verify_witness_data. case_match; by intros r [= <-].
  - unfold verify_gw_capability. case_match; by intros r [= <-].
  - unfold verify_witness_freq. case_match; by intros r [= <-].
  - unfold verify_witness_region. case_match; by intros r [= <-].
  - unfold verify_witness_cell_distance. repeat case_match; by intros r [= <-].
  - unfold verify_witness_distance. repeat case_match; by intros r [= <-].
  - unfold verify_witness_rssi. repeat case_match; by intros r [= <-].
Qed.

Lemma verify_witness_verdict first_ts w :
  exists v, verify_witness self deny_list w beacon_info cache hexes first_ts = Ok v /\ verdict_ok first_ts w v.
Proof.
  unfold verify_witness, resolve_gateway_info, verdict_ok.
  destruct (cache !! wr_pub_key (wi_report w)) as [info|] eqn:Ec; [|eexists; by split].
  destruct (gi_metadata info) as [wm|] eqn:Em; [|eexists; by split].
  destruct (gi_metadata beacon_info) as [bm|] eqn:Eb; [|eexists; by split].
  destruct (do_witness_verifications _ _ _ w info _ bm first_ts) as [[]|r] eqn:Ev; eexists; (split; [done|]).
  - repeat (split; [done|]). intros _. by exists info, bm.
  - apply do_witness_verifications_reasoned in Ev. split; [done|]. split; [done|]. split; [|done].
    split; [done|]. intros H. by destruct Ev.
Qed.

Lemma verify_witness_loop_spec first_ts ws existing :
  let r := verify_witness_loop self deny_list beacon_info cache hexes first_ts existing ws in
  r.2 = [] /\ Forall2 (verdict_ok first_ts) ws r.1 /\
  (forall v, v ∈ r.1 -> vw_status v = StatusValid -> witness_key v ∉ existing) /\
  NoDup (witness_key <$> List.filter (fun v => bool_decide (vw_status v = StatusValid)) r.1).
Proof.
  revert existing. induction ws as [|w ws IH]; intros existing; cbn [verify_witness_loop].
  { split; [done|]. split; [constructor|]. split; [|constructor]. intros v Hv. by apply not_elem_of_nil in Hv. }
  case_bool_decide as Hin.
  - specialize (IH existing). destruct (verify_witness_loop _ _ _ _ _ _ existing ws) as [vs fs].
    cbn in IH |- *. destruct IH as (-> & H1 & H2 & H3). split; [done|]. split; [|split; [|done]].
    + constructor; [|done]. split; [done|]. split; [done|]. split; done.
    + intros v [->|Hv]%elem_of_cons Hs; [done|]. by apply H2.
  - destruct (verify_witness_verdict first_ts w) as (v & -> & Hv). pose proof Hv as (Er & _).
    specialize (IH (existing ++ [wr_pub_key (vw_report v)])).
    destruct (verify_witness_loop _ _ _ _ _ _ _ ws) as [vs fs]. cbn in IH |- *.
    destruct IH as (-> & H1 & H2 & H3). split; [done|]. split; [by constructor|]. split.
    + intros u [->|Hu]%elem_of_cons Hs; [by unfold witness_key; rewrite Er|].
      intros Hk. apply (H2 u Hu Hs). apply elem_of_app. by left.
    + case_bool_decide as Hs; [|done]. cbn. constructor; [|done].
      intros (u & Eu & Hu)%list_elem_of_fmap. apply list_elem_of_In, filter_In in Hu as [Hu Hus].
      apply bool_decide_eq_true in Hus. apply list_elem_of_In in Hu.
      apply (H2 u Hu Hus). apply elem_of_app. right. rewrite list_elem_of_singleton. by rewrite <- Eu.
Qed.

(** Verifying the witnesses of a beacon never fails a report and gives one
    verdict per report, in order.  Each gateway has at most one valid witness,
    the beaconer is never its own witness, and every valid witness passed the
    checks against the first report's time of reception. *)
Theorem verify_witnesses_spec :
  let '(verified, failed) := verify_witnesses self beacon_info hexes cache deny_list in
  failed = [] /\
  vw_report <$> verified = wi_report <$> p_witness_reports self /\
  NoDup (witness_key <$> List.filter (fun v => bool_decide (vw_status v = StatusValid)) verified) /\
  (forall v, v ∈ verified -> vw_status v = StatusValid ->
     witness_key v <> br_pub_key (bi_report (p_beacon_report self)) /\
     exists w first info bm, w ∈ p_witness_reports self /\ vw_report v = wi_report w /\
       head (p_witness_reports self) = Some first /\ gi_metadata beacon_info = Some bm /\
       vw_hex_scale v = tx_scale_at hexes (gm_location bm) /\
       do_witness_verifications deny_list (p_entropy_start self) (p_entropy_end self) w info
         (p_beacon_report self) bm (wi_received_timestamp first) = Ok tt).
Proof.
  unfold verify_witnesses. destruct (p_witness_reports self) as [|w0 ws] eqn:Ews.
  { split; [done|]. split; [done|]. split; [constructor|]. intros v Hv. by apply not_elem_of_nil in Hv. }
  pose proof (verify_witness_loop_spec (wi_received_timestamp w0) (w0 :: ws) []) as H. cbv zeta in H.
  destruct (verify_witness_loop _ _ _ _ _ _ [] (w0 :: ws)) as [vs fs].
  destruct H as (H1 & H2 & _ & H3). cbn [fst snd] in *. split; [done|]. split; [|split; [done|]].
  - clear - H2. revert H2. generalize (w0 :: ws). intros l H2.
    induction H2 as [|w v l' vs' (E & _) _ IH]; [done|]. cbn. by rewrite E, IH.
  - intros v Hv Hs. apply list_elem_of_lookup in Hv as [i Hi].
    destruct (Forall2_lookup_r _ _ _ i v H2 Hi) as (w & Hw & Er & _ & _ & Hval).
    destruct (Hval Hs) as (info & bm & Hc & Hb & Hx & Hd). split.
    + unfold witness_key. rewrite Er. by eapply accepted_not_self.
    + exists w, w0, info, bm. split; [by eapply list_elem_of_lookup_2|]. done.
Qed.
End Witnesses.
