(* ===== verification/IotReportTable.v ===== *)
(** * The report tables of the IoT verifier

    [iot_verifier/src/poc_report.rs], [entropy.rs] and [meta.rs]: the tables
    [poc_report] and [entropy] by their primary keys, and the queries on them.
    Every column that a query reads has a value: the inserts bind it or the
    schema gives a default. *)

From S2P Require Import Prelude Solana Text FileStoreTypes IotReports IotPoc IotRewards.

Open Scope Z_scope.
Open Scope oracle_scope.

Inductive IotStatus : Type := Pending | Ready | IotValid | IotInvalid.

#[global] Instance IotStatus_eq_dec : EqDecision IotStatus.
Proof. solve_decision. Defined.

Record Report : Type := mkReport {
  rep_id : string;
  rep_remote_entropy : string;
  rep_packet_data : string;
  rep_report_data : string;
  rep_report_type : ReportType;
  rep_status : IotStatus;
  rep_attempts : Z;
  rep_report_timestamp : Z;
  rep_last_processed : Z;
  rep_created_at : Z
}.

Record InsertBindings : Type := mkBindings {
  ins_id : string;
  ins_remote_entropy : string;
  ins_packet_data : string;
  ins_buf : string;
  ins_received_ts : Z;
  ins_report_type : ReportType;
  ins_status : IotStatus
}.

Abbreviation poc_reports := (gmap string Report).

(** A new row at the time [now] of the database, unless the id is taken. *)
Definition insert_report (t : poc_reports) (now : Z) (b : InsertBindings) : poc_reports :=
  match t !! ins_id b with
  | Some _ => t
  | None =>
      <[ins_id b := mkReport (ins_id b) (ins_remote_entropy b) (ins_packet_data b) (ins_buf b)
          (ins_report_type b) (ins_status b) 0 (ins_received_ts b) now now]> t
  end.

(** [Report::insert_into] *)
Definition insert_into (t : poc_reports) (now : Z) (id remote_entropy packet_data report_data : string)
    (report_timestamp : Z) (report_type : ReportType) (status : IotStatus) : poc_reports :=
  insert_report t now
    (mkBindings id remote_entropy packet_data report_data report_timestamp report_type status).

Definition bulk_insert (t : poc_reports) (now : Z) (bindings : list InsertBindings) : poc_reports :=
  fold_left (fun t b => insert_report t now b) bindings t.

Definition delete_poc (t : poc_reports) (packet_data : string) : poc_reports :=
  filter (fun kv => rep_packet_data kv.2 <> packet_data) t.

Definition delete_report (t : poc_reports) (id : string) : poc_reports := delete id t.

(** Changes the rows that satisfy [p]. *)
Definition update_where (p : Report -> bool) (f : Report -> Report) (t : poc_reports) : poc_reports :=
  (fun r => if p r then f r else r) <$> t.

Definition set_status (status : IotStatus) (timestamp : Z) (r : Report) : Report :=
  mkReport (rep_id r) (rep_remote_entropy r) (rep_packet_data r) (rep_report_data r) (rep_report_type r)
    status (rep_attempts r) (rep_report_timestamp r) timestamp (rep_created_at r).

Definition add_attempt (timestamp : Z) (r : Report) : Report :=
  mkReport (rep_id r) (rep_remote_entropy r) (rep_packet_data r) (rep_report_data r) (rep_report_type r)
    (rep_status r) (rep_attempts r + 1) (rep_report_timestamp r) timestamp (rep_created_at r).

Definition is_beacon (r : Report) : bool := bool_decide (rep_report_type r = IotRewards.Beacon).
Definition is_witness (r : Report) : bool := bool_decide (rep_report_type r = IotRewards.Witness).
Definition has_status (s : IotStatus) (r : Report) : bool := bool_decide (rep_status r = s).

Definition pending_beacons_to_ready (t : poc_reports) (timestamp : Z) : poc_reports :=
  update_where (fun r => is_beacon r && has_status Pending r) (set_status Ready timestamp) t.

Definition update_status (t : poc_reports) (id : string) (status : IotStatus) (timestamp : Z) : poc_reports :=
  update_where (fun r => String.eqb (rep_id r) id) (set_status status timestamp) t.

Definition update_status_all (t : poc_reports) (packet_data : string) (status : IotStatus) (timestamp : Z)
  : poc_reports :=
  update_where (fun r => String.eqb (rep_packet_data r) packet_data) (set_status status timestamp) t.

Definition update_attempts (t : poc_reports) (id : string) (timestamp : Z) : poc_reports :=
  update_where (fun r => String.eqb (rep_id r) id) (add_attempt timestamp) t.

Definition rows (t : poc_reports) : list Report := (map_to_list t).*2.

Definition get_pending_beacon_packet_data (t : poc_reports) : list Report :=
  List.filter (fun r => is_beacon r && has_status Pending r) (rows t).

Definition get_witnesses_for_beacon (t : poc_reports) (packet_data : string) (max_retries : Z) : list Report :=
  sort_by_key rep_report_timestamp
    (List.filter (fun r => String.eqb (rep_packet_data r) packet_data && is_witness r
                           && (rep_attempts r <? as_i64 max_retries)) (rows t)).

(** [created_at < now - stale_period] among the ready reports of a type. *)
Definition get_stale_beacons (t : poc_reports) (now stale_period : Z) : list Report :=
  List.filter (fun r => is_beacon r && has_status Ready r && (rep_created_at r <? now - stale_period)) (rows t).

Definition get_stale_witnesses (t : poc_reports) (now stale_period : Z) : list Report :=
  List.filter (fun r => is_witness r && has_status Ready r && (rep_created_at r <? now - stale_period)) (rows t).

Definition count_all_beacons (t : poc_reports) : Z :=
  Z.of_nat (length (List.filter (fun r => is_beacon r && (has_status Pending r || has_status Ready r)) (rows t))).

(** ** Entropy *)

Record EntropyRow : Type := mkEntropyRow {
  en_id : string;
  en_data : string;
  en_timestamp : Z;
  en_version : Z;
  en_created_at : Z
}.

Abbreviation entropies := (gmap string EntropyRow).

Definition entropy_insert_into (t : entropies) (now : Z) (id data : string) (timestamp version : Z) : entropies :=
  match t !! id with
  | Some _ => t
  | None => <[id := mkEntropyRow id data timestamp version now]> t
  end.

Definition entropy_get (t : entropies) (id : string) : option EntropyRow := t !! id.

Definition entropy_purge (t : entropies) (now stale_period : Z) : entropies :=
  filter (fun kv => now - stale_period <= en_timestamp kv.2) t.

(** [Report::get_next_beacons]: the ready beacons joined with their entropy, the
    oldest first. *)
Definition get_next_beacons (t : poc_reports) (e : entropies) (now max_retries : Z)
  : list (Report * EntropyRow) :=
  let entropy_min_time := now - ENTROPY_LIFESPAN * nanos_per_sec in
  take (Z.to_nat 25000)
    (sort_by_key (fun re => rep_created_at re.1)
       (List.filter (fun re => String.eqb (rep_remote_entropy re.1) (en_data re.2)
                               && is_beacon re.1 && has_status Ready re.1
                               && (en_timestamp re.2 <? entropy_min_time)
                               && (rep_attempts re.1 <? as_i64 max_retries))
          (list_prod (rows t) (map_to_list e).*2))).

(** ** The table [meta] of the loader *)

(** The column [value] may be null. *)
Abbreviation meta_table := (gmap string (option string)).

Inductive MetaError : Type := MetaNull | MetaConflict.

(** [Meta::last_timestamp]: a text that does not parse counts as missing; a null
    cannot be read as a text. *)
Definition meta_last_timestamp `{!Chrono} (t : meta_table) (file_type : string) : result (option Z) MetaError :=
  match t !! file_type with
  | None => Ok None
  | Some None => Err MetaNull
  | Some (Some v) =>
      Ok (ts ← u64_parse v;
          match to_timestamp_millis ts with Ok d => Some d | Err _ => None end)
  end.

(** [Meta::insert_kv] returns no row if the key is taken. *)
Definition meta_insert_kv (t : meta_table) (key val : string) : meta_table * result (string * string) MetaError :=
  match t !! key with
  | Some _ => (t, Err MetaConflict)
  | None => (<[key := Some val]> t, Ok (key, val))
  end.

Definition meta_get (t : meta_table) (key : string) : option (option string) := t !! key.

Definition meta_update_last_timestamp (t : meta_table) (file_type : string) (timestamp : option Z) : meta_table :=
  <[file_type := option_map (fun ts => i64_to_string (ts / nanos_per_milli)) timestamp]> t.

(** A time that was stored is read back in whole milliseconds. *)
Lemma meta_last_update `{!Chrono} t file_type ts :
  time_i64 ts ->
  meta_last_timestamp (meta_update_last_timestamp t file_type (Some ts)) file_type =
  Ok (Some (trunc_millis ts)).
Proof.
  intros Ht. unfold meta_last_timestamp, meta_update_last_timestamp. rewrite lookup_insert_eq. cbn.
  destruct (time_i64_div ts nanos_per_milli Ht ltac:(done)) as [Hr _].
  unfold i64_to_string. rewrite (proj2 (Z.ltb_ge _ 0)) by lia.
  rewrite u64_parse_print by (unfold is_u64; lia). cbn.
  pose proof (timestamp_millis_roundtrip ts Ht) as E. unfold encode_timestamp_millis in E.
  rewrite as_u64_small in E by (unfold is_u64; lia). by rewrite E.
Qed.
