(* ===== verification/IotRunner.v ===== *)
(** * The runner of the IoT verifier

    [iot_verifier/src/runner.rs]: a tick takes the ready beacons from the report
    table, verifies each with its witnesses, saves the reward shares, writes the
    verdict to a file sink and deletes the reports.  A handler reads everything
    it decides on before it writes, so it is a verification phase followed by a
    commit phase; a tick runs the handlers one after the other, and
    [interleaved] runs two of them with their phases interleaved, as the
    concurrent stream of the code may. *)

From S2P Require Import Prelude Solana Text FileStoreTypes Decimal IotReports DenyList Scheduler.
From S2P Require Import IotRewards IotShareTables IotPoc IotReportTable.
From Stdlib Require Import Qabs.

Open Scope Z_scope.
Open Scope oracle_scope.

(** Decoding of the messages of a file. *)
Class IngestCodec : Type := {
  decode_beacon_msg : string -> option LoraBeaconIngestReport;
  decode_witness_msg : string -> option LoraWitnessIngestReport
}.

(** The errors of a handler, and a panic of one of its checks. *)
Inductive RunnerError : Type :=
| RunnerDecode (e : FsError)
| RunnerRegion
| RunnerPanic
| RunnerRewardUnit
| RunnerNotFound.

Inductive FilterStatus : Type := Drop | Include.

Section Runner.
Context {PT : ProtoTypes} {CH : Chrono} {HB : Blake3} {XF : XorFilter} {GEO : H3} {FL : Float64}
  {dec : Type} {D : Decimal dec} {BL : BeaconLib dec} {CO : IngestCodec}.

(** ** Reward units *)

Definition WITNESS_REDUNDANCY : Z := 4.
Definition POC_REWARD_DECAY_RATE : dec := dec_new 8 1.
Definition HIP15_TX_REWARD_UNIT_CAP : dec := dec_of_Z 2.

(** [num_witnesses as f32 / WITNESS_REDUNDANCY as f32], exact in a float. *)
Definition witness_fraction (num_witnesses : Z) : Q := (inject_Z num_witnesses / inject_Z WITNESS_REDUNDANCY)%Q.

Definition round_units (u : dec) : dec := round_dp SCALING_PRECISION MidpointNearestEven u.

Definition poc_beaconer_reward_unit (num_witnesses : Z) : result dec RunnerError :=
  let? reward_units :=
    if num_witnesses =? 0 then Ok dec_zero
    else if num_witnesses <=? WITNESS_REDUNDANCY then
      ok_or (from_f32_retain (witness_fraction num_witnesses)) RunnerRewardUnit
    else
      let exp := num_witnesses - WITNESS_REDUNDANCY in
      let? to_sub := ok_or (checked_powu POC_REWARD_DECAY_RATE exp) RunnerRewardUnit in
      let unnormalized := (dec_of_Z 2 - to_sub)%dec in
      Ok (dmin HIP15_TX_REWARD_UNIT_CAP unnormalized) in
  Ok (round_units reward_units).

Definition poc_per_witness_reward_unit (num_witnesses : Z) : result dec RunnerError :=
  let? reward_units :=
    if num_witnesses =? 0 then Ok dec_zero
    else if num_witnesses <=? WITNESS_REDUNDANCY then Ok (dec_of_Z 1)
    else
      let exp := num_witnesses - WITNESS_REDUNDANCY in
      let? to_sub := ok_or (checked_powu POC_REWARD_DECAY_RATE exp) RunnerRewardUnit in
      let unnormalized := ((dec_of_Z WITNESS_REDUNDANCY - (dec_of_Z 1 - to_sub)) / dec_of_Z num_witnesses)%dec in
      Ok (dmin HIP15_TX_REWARD_UNIT_CAP unnormalized) in
  Ok (round_units reward_units).

(** ** Selection of witnesses *)

Implicit Types (ws : list (IotVerifiedWitnessReport dec)).

Definition filter_witness (invalid_reason : InvalidReason) : FilterStatus :=
  match invalid_reason with SelfWitness => Drop | _ => Include end.

Definition included (w : IotVerifiedWitnessReport dec) : bool :=
  match filter_witness (vw_invalid_reason w) with Include => true | Drop => false end.

Definition is_valid (w : IotVerifiedWitnessReport dec) : bool := bool_decide (vw_status w = StatusValid).

Definition filter_witnesses ws : list (IotVerifiedWitnessReport dec) * list (IotVerifiedWitnessReport dec) :=
  List.partition is_valid (List.filter included ws).

(** The selected and the unselected witnesses. *)
Definition sort_and_split_witnesses ws (max_count : nat)
  : list (IotVerifiedWitnessReport dec) * list (IotVerifiedWitnessReport dec) :=
  if (length ws <=? max_count)%nat then (ws, [])
  else
    let sorted := sort_by_key vw_received_timestamp ws in
    (take max_count sorted, drop max_count sorted).

Definition with_reward_unit (unit : dec) (w : IotVerifiedWitnessReport dec) : IotVerifiedWitnessReport dec :=
  mkVerifiedWitness (vw_received_timestamp w) (vw_status w) (vw_report w) (vw_location w) (vw_gain w)
    (vw_elevation w) (vw_hex_scale w)
    (match vw_status w with StatusValid => unit | StatusInvalid => dec_zero end)
    (vw_invalid_reason w) (vw_participant_side w) (vw_invalid_details w).

(** ** State *)

(** The tables and the messages written to the file sinks. *)
Record runner_state : Type := mkRunnerState {
  rs_reports : gmap string Report;
  rs_entropy : gmap string EntropyRow;
  rs_last_beacon : gmap string Z;
  rs_shares : share_tables dec;
  rs_poc_sink : list (IotPoc dec);
  rs_invalid_beacon_sink : list IotInvalidBeaconReport;
  rs_invalid_witness_sink : list IotInvalidWitnessReport
}.

(** What the runner reads besides its tables. *)
Record runner_env : Type := mkRunnerEnv {
  re_beacon_interval : Z;
  re_max_witnesses_per_poc : nat;
  re_beacon_max_retries : Z;
  re_witness_max_retries : Z;
  re_deny_list : DenyList;
  re_gateway_cache : gmap PublicKeyBinary GatewayInfo;
  re_region_params : Region -> option RegionParamsInfo;
  re_hex_density_map : gmap Z dec;
  re_now : Z;
  (* which writes to the sinks succeed *)
  re_poc_write_ok : bool;
  re_invalid_beacon_write_ok : bool;
  re_invalid_witness_write_ok : IotInvalidWitnessReport -> bool
}.

Definition set_reports (st : runner_state) (t : gmap string Report) : runner_state :=
  mkRunnerState t (rs_entropy st) (rs_last_beacon st) (rs_shares st) (rs_poc_sink st)
    (rs_invalid_beacon_sink st) (rs_invalid_witness_sink st).

(** ** Handlers *)

Definition decode_beacon (buf : string) : result IotBeaconIngestReport RunnerError :=
  let? msg := ok_or (decode_beacon_msg buf) (RunnerDecode (Decode Prost)) in
  map_err RunnerDecode (beacon_ingest_try_from msg).

Definition decode_witness (buf : string) : result IotWitnessIngestReport RunnerError :=
  let? msg := ok_or (decode_witness_msg buf) (RunnerDecode (Decode Prost)) in
  map_err RunnerDecode (witness_ingest_try_from msg).

Fixpoint decode_witnesses (reports : list Report) : result (list IotWitnessIngestReport) RunnerError :=
  match reports with
  | [] => Ok []
  | r :: reports =>
      let? w := decode_witness (rep_report_data r) in
      let? ws := decode_witnesses reports in Ok (w :: ws)
  end.

(** What a handler has decided to do. *)
Inductive poc_outcome : Type :=
| OutcomeRetry (failed : list IotWitnessIngestReport)
| OutcomeValid (beacon : IotValidBeaconReport dec) (selected unselected : list (IotVerifiedWitnessReport dec))
| OutcomeInvalid (r : VerifyBeaconResult dec) (beacon : IotBeaconIngestReport)
    (witnesses : list IotWitnessIngestReport)
| OutcomeNothing.

(** The valid branch of [handle_beacon_report] once the witnesses are verified. *)
Definition select_poc (env : runner_env) (beacon_report : IotBeaconIngestReport) (beacon_info : GatewayInfo)
    (hex_scale : option dec) (verified : list (IotVerifiedWitnessReport dec)) : result poc_outcome RunnerError :=
  let '(selected_witnesses, invalid_witnesses) := filter_witnesses verified in
  let '(selected_witnesses, unselected_witnesses) :=
    sort_and_split_witnesses selected_witnesses (re_max_witnesses_per_poc env) in
  let unselected_witnesses := unselected_witnesses ++ invalid_witnesses in
  let num_valid_selected_witnesses := Z.of_nat (length selected_witnesses) in
  let? beaconer_reward_units := poc_beaconer_reward_unit (as_u32 num_valid_selected_witnesses) in
  let? witness_reward_units := poc_per_witness_reward_unit (as_u32 num_valid_selected_witnesses) in
  let selected_witnesses := with_reward_unit witness_reward_units <$> selected_witnesses in
  let '(location, gain, elevation) :=
    match gi_metadata beacon_info with
    | Some metadata => (Some (gm_location metadata), gm_gain metadata, gm_elevation metadata)
    | None => (None, 0, 0)
    end in
  let? hex_scale := ok_or hex_scale RunnerNotFound in
  Ok (OutcomeValid
        (mkValidBeacon (bi_received_timestamp beacon_report) location gain elevation hex_scale
           (bi_report beacon_report) beaconer_reward_units)
        selected_witnesses unselected_witnesses).

(** The reading half of [handle_beacon_report]. *)
Definition verify_phase (env : runner_env) (st : runner_state) (db_beacon : Report * EntropyRow)
  : result poc_outcome RunnerError :=
  let '(report, entropy) := db_beacon in
  let? beacon_report := decode_beacon (rep_report_data report) in
  let db_witnesses :=
    get_witnesses_for_beacon (rs_reports st) (rep_packet_data report) (re_witness_max_retries env) in
  let? witnesses := decode_witnesses db_witnesses in
  let poc := poc_new beacon_report witnesses (en_timestamp entropy) (en_version entropy) in
  let? beacon_verify_result :=
    map_err (fun e => match e with RegionCacheFailed => RunnerRegion | VerifyPanicked => RunnerPanic end)
      (verify_beacon poc (re_hex_density_map env) (re_gateway_cache env) (re_region_params env)
         (rs_last_beacon st) (re_beacon_interval env) (re_deny_list env)) in
  match vbr_result beacon_verify_result with
  | StatusValid =>
      match vbr_gateway_info beacon_verify_result with
      | Some beacon_info =>
          let '(verified, failed) :=
            verify_witnesses poc beacon_info (re_hex_density_map env) (re_gateway_cache env)
              (re_deny_list env) in
          match failed with
          | _ :: _ => Ok (OutcomeRetry failed)
          | [] => select_poc env beacon_report beacon_info (vbr_hex_scale beacon_verify_result) verified
          end
      | None => Ok OutcomeNothing
      end
  | StatusInvalid => Ok (OutcomeInvalid beacon_verify_result beacon_report witnesses)
  end.

Definition handle_valid_poc (env : runner_env) (st : runner_state) (beacon : IotValidBeaconReport dec)
    (selected unselected : list (IotVerifiedWitnessReport dec)) : runner_state :=
  let received_timestamp := vb_received_timestamp beacon in
  let beacon_id := beacon_report_id (vb_report beacon) received_timestamp in
  let iot_poc := mkIotPoc beacon_id beacon selected unselected in
  let shares := save_poc (rs_shares st) iot_poc in
  if re_poc_write_ok env then
    mkRunnerState (delete_poc (rs_reports st) (br_data (vb_report beacon))) (rs_entropy st)
      (update_last_timestamp (rs_last_beacon st) (br_pub_key (vb_report beacon)) received_timestamp)
      shares (rs_poc_sink st ++ [iot_poc]) (rs_invalid_beacon_sink st) (rs_invalid_witness_sink st)
  else
    mkRunnerState (update_attempts (rs_reports st) beacon_id (re_now env)) (rs_entropy st)
      (rs_last_beacon st) shares (rs_poc_sink st) (rs_invalid_beacon_sink st) (rs_invalid_witness_sink st).

Definition handle_invalid_poc (env : runner_env) (st : runner_state) (r : VerifyBeaconResult dec)
    (beacon_report : IotBeaconIngestReport) (witness_reports : list IotWitnessIngestReport) : runner_state :=
  let '(location, elevation, gain) :=
    match vbr_gateway_info r with
    | Some info =>
        match gi_metadata info with
        | Some m => (Some (gm_location m), gm_elevation m, gm_gain m)
        | None => (None, 0, 0)
        end
    | None => (None, 0, 0)
    end in
  let invalid_poc :=
    mkInvalidBeacon (bi_received_timestamp beacon_report) (vbr_invalid_reason r) (vbr_invalid_details r)
      (bi_report beacon_report) location gain elevation in
  if re_invalid_beacon_write_ok env then
    let invalid_witnesses :=
      (fun w => mkInvalidWitness (wi_received_timestamp w) (vbr_invalid_reason r) (vbr_invalid_details r)
                  (wi_report w) SideBeaconer) <$> witness_reports in
    mkRunnerState (delete_poc (rs_reports st) (br_data (bi_report beacon_report))) (rs_entropy st)
      (rs_last_beacon st) (rs_shares st) (rs_poc_sink st) (rs_invalid_beacon_sink st ++ [invalid_poc])
      (rs_invalid_witness_sink st ++ List.filter (re_invalid_witness_write_ok env) invalid_witnesses)
  else
    set_reports st (update_attempts (rs_reports st) (beacon_ingest_id beacon_report) (re_now env)).

(** The writing half of [handle_beacon_report]. *)
Definition commit_phase (env : runner_env) (st : runner_state) (o : poc_outcome) : runner_state :=
  match o with
  | OutcomeRetry failed =>
      set_reports st
        (fold_left (fun t w => update_attempts t (witness_report_id (wi_report w) (wi_received_timestamp w))
                                 (re_now env)) failed (rs_reports st))
  | OutcomeValid beacon selected unselected => handle_valid_poc env st beacon selected unselected
  | OutcomeInvalid r beacon witnesses => handle_invalid_poc env st r beacon witnesses
  | OutcomeNothing => st
  end.

Definition handle_beacon_report (env : runner_env) (st : runner_state) (db_beacon : Report * EntropyRow)
  : runner_state * result unit RunnerError :=
  match verify_phase env st db_beacon with
  | Ok o => (commit_phase env st o, Ok tt)
  | Err e => (st, Err e)
  end.

(** One beacon of a tick: an error adds an attempt, a panic ends the task. *)
Definition tick_beacon (env : runner_env) (acc : runner_state * bool) (db_beacon : Report * EntropyRow)
  : runner_state * bool :=
  let '(st, running) := acc in
  if running then
    match handle_beacon_report env st db_beacon with
    | (st', Ok _) => (st', true)
    | (st', Err RunnerPanic) => (st', false)
    | (st', Err _) => (set_reports st' (update_attempts (rs_reports st') (rep_id db_beacon.1) (re_now env)), true)
    end
  else (st, false).

(** [Runner::handle_db_tick] *)
Definition runner_tick (env : runner_env) (st : runner_state) : runner_state * bool :=
  let db_beacon_reports :=
    get_next_beacons (rs_reports st) (rs_entropy st) (re_now env) (re_beacon_max_retries env) in
  fold_left (tick_beacon env) db_beacon_reports (st, true).

(** Two handlers whose verification phases both run before either commits. *)
Definition interleaved (env : runner_env) (st : runner_state) (b1 b2 : Report * EntropyRow) : runner_state :=
  match verify_phase env st b1, verify_phase env st b2 with
  | Ok o1, Ok o2 => commit_phase env (commit_phase env st o1) o2
  | _, _ => st
  end.
End Runner.

Arguments runner_state {_} dec.
Arguments runner_env {_ _} dec {_}.
Arguments poc_outcome {_} dec.

(** ** Reward units *)

Section Units.
Context {dec : Type} {D : Decimal dec} {DL : DecimalLaws dec}.
Open Scope Q_scope.

Definition decay (n : Z) : Q := (4 # 5) ^ (n - 4).

(** Rounding to four decimals keeps the grid and the integer bounds. *)
Lemma round_units_spec (u : dec) (k : Z) :
  (0 <= k)%Z -> 0 <= dval u <= inject_Z k + (1 # 100000) ->
  on_grid 4 (dval (round_units u)) /\ 0 <= dval (round_units u) <= inject_Z k /\
  dval u - (1 # 20000) <= dval (round_units u) <= dval u + (1 # 20000).
Proof.
  intros Hk [H0 H1]. unfold round_units, SCALING_PRECISION. pose proof (round_dp_val 4 MidpointNearestEven u) as E.
  pose proof (round_q_near 4 (dval u)) as Hn. apply Qabs_Qle_condition in Hn as [N1 N2].
  assert ((1 # 2) / pow10 4 == 1 # 20000) as E4 by reflexivity. rewrite E4 in N1, N2.
  pose proof (round_q_nonneg 4 MidpointNearestEven (dval u) H0) as Hnn. rewrite <- E in Hnn, N1, N2.
  assert (on_grid 4 (dval (round_dp 4 MidpointNearestEven u))) as Hg
    by (eexists; rewrite E; reflexivity).
  split; [done|]. split; [|lra]. split; [done|]. destruct Hg as [m Hm].
  assert (dval (round_dp 4 MidpointNearestEven u) == inject_Z m * (1 # 10000)) as Em
    by (rewrite Hm; change (pow10 4) with (10000 # 1); field).
  assert (inject_Z m < inject_Z (k * 10000 + 1)) as Hlt.
  { rewrite inject_Z_plus, inject_Z_mult. change (inject_Z 10000) with (10000 # 1). change (inject_Z 1) with 1. lra. }
  rewrite <- Zlt_Qlt in Hlt. assert (inject_Z m <= inject_Z (k * 10000)) as Hle by (rewrite <- Zle_Qle; lia).
  rewrite inject_Z_mult in Hle. change (inject_Z 10000) with (10000 # 1) in Hle. lra.
Qed.

Lemma decay_rate_val : dval (dec := dec) POC_REWARD_DECAY_RATE == 4 # 5.
Proof. unfold POC_REWARD_DECAY_RATE. rewrite dec_new_val by lia. reflexivity. Qed.

(** The decayed amount of [n] witnesses. *)
Lemma powu_decay n :
  (4 < n < 2 ^ 32)%Z ->
  exists d : dec, checked_powu POC_REWARD_DECAY_RATE (n - WITNESS_REDUNDANCY) = Some d /\
    0 <= dval d <= 1 /\ decay n - (1 # 1000000000000) <= dval d <= decay n + (1 # 1000000000000).
Proof.
  intros Hn. pose proof decay_rate_val as Er.
  destruct (checked_powu_val (dec := dec) POC_REWARD_DECAY_RATE (n - WITNESS_REDUNDANCY)) as (d & E & H1 & H2).
  - rewrite Er. split; discriminate.
  - unfold WITNESS_REDUNDANCY. lia.
  - exists d. split; [done|]. split; [done|]. rewrite Er in H2. unfold WITNESS_REDUNDANCY in H2. fold (decay n) in H2.
    apply Qabs_Qle_condition in H2 as [H2 H3].
    assert (inject_Z (n - 4) <= inject_Z (2 ^ 32)) as Hi by (rewrite <- Zle_Qle; lia).
    change (inject_Z (2 ^ 32)) with (4294967296 # 1) in Hi. lra.
Qed.

(** The cap never applies to a value up to 2, up to rounding. *)
Lemma cap_near (u : dec) :
  0 <= dval u <= 2 + (1 # 1000000000000) ->
  let v := dval (dmin HIP15_TX_REWARD_UNIT_CAP u) in
  0 <= v <= 2 /\ dval u - (1 # 1000000000000) <= v <= dval u.
Proof.
  intros Hu. pose proof (dec_of_Z_val (dec := dec) 2 ltac:(lia)) as E2. cbv zeta.
  change (inject_Z 2) with 2 in E2. unfold HIP15_TX_REWARD_UNIT_CAP, dmin.
  destruct (dleb (dec_of_Z 2) u) eqn:E.
  - apply dleb_val in E. rewrite E2 in E |- *. lra.
  - assert (dval u <= 2) as H.
    { apply Qnot_lt_le. intros H. apply Qlt_le_weak in H. rewrite <- E2 in H. apply dleb_val in H. congruence. }
    lra.
Qed.

Lemma beaconer_unit_large n :
  (4 < n < 2 ^ 32)%Z ->
  exists b : dec, poc_beaconer_reward_unit n = Ok b /\ on_grid 4 (dval b) /\ 0 <= dval b <= 2 /\
    Qabs (dval b - (2 - decay n)) <= 1 # 10000.
Proof.
  intros Hn. destruct (powu_decay n Hn) as (d & E & Hd & Hdd). unfold poc_beaconer_reward_unit.
  rewrite (proj2 (Z.eqb_neq n 0)) by lia. rewrite (proj2 (Z.leb_gt n WITNESS_REDUNDANCY)) by (unfold WITNESS_REDUNDANCY; lia).
  rewrite E. cbn [ok_or result_bind]. eexists. split; [done|].
  pose proof (dec_of_Z_val (dec := dec) 2 ltac:(lia)) as E2. change (inject_Z 2) with 2 in E2.
  destruct (dsub_near (dec_of_Z 2) d) as [S0 S1].
  { rewrite E2. lra. }
  { rewrite E2. change (inject_Z (10 ^ 28)) with (10000000000000000000000000000 # 1). lra. }
  unfold near in S1. rewrite E2 in S1. set (x := (dec_of_Z 2 - d)%dec) in *.
  destruct (cap_near x) as [C0 C1]; [lra|]. set (y := dmin HIP15_TX_REWARD_UNIT_CAP x) in *.
  destruct (round_units_spec y 2) as (G & R0 & R1); [lia|change (inject_Z 2) with 2; lra|].
  change (inject_Z 2) with 2 in R0. split; [done|]. split; [done|].
  apply Qabs_Qle_condition. lra.
Qed.

Lemma witness_unit_large n :
  (4 < n < 2 ^ 32)%Z ->
  exists w : dec, poc_per_witness_reward_unit n = Ok w /\ on_grid 4 (dval w) /\ 0 <= dval w <= 1 /\
    Qabs (dval w - (3 + decay n) / inject_Z n) <= 1 # 10000.
Proof.
  intros Hn. destruct (powu_decay n Hn) as (d & E & Hd & Hdd). unfold poc_per_witness_reward_unit.
  rewrite (proj2 (Z.eqb_neq n 0)) by lia. rewrite (proj2 (Z.leb_gt n WITNESS_REDUNDANCY)) by (unfold WITNESS_REDUNDANCY; lia).
  rewrite E. cbn [ok_or result_bind]. eexists. split; [done|]. unfold WITNESS_REDUNDANCY.
  pose proof (dec_of_Z_val (dec := dec) 1 ltac:(lia)) as E1. change (inject_Z 1) with 1 in E1.
  pose proof (dec_of_Z_val (dec := dec) 4 ltac:(lia)) as E4. change (inject_Z 4) with (4 # 1) in E4.
  pose proof (dec_of_Z_val (dec := dec) n ltac:(lia)) as En.
  assert (inject_Z 5 <= inject_Z n) as Hn5 by (rewrite <- Zle_Qle; lia). change (inject_Z 5) with (5 # 1) in Hn5.
  destruct (dsub_near (dec_of_Z 1) d) as [S0 S1].
  { rewrite E1. lra. }
  { rewrite E1. change (inject_Z (10 ^ 28)) with (10000000000000000000000000000 # 1). lra. }
  unfold near in S1. rewrite E1 in S1. set (x := (dec_of_Z 1 - d)%dec) in *.
  destruct (dsub_near (dec_of_Z 4) x) as [T0 T1].
  { rewrite E4. lra. }
  { rewrite E4. change (inject_Z (10 ^ 28)) with (10000000000000000000000000000 # 1). lra. }
  unfold near in T1. rewrite E4 in T1. set (y := (dec_of_Z 4 - x)%dec) in *.
  set (k := inject_Z n) in *. assert (0 < k) as Hk by lra.
  assert (dval y / dval (dec_of_Z n) == dval y / k) as Ey by (by rewrite En).
  assert (0 <= dval y / k <= (4 # 5) + (1 # 1000000)) as Hy.
  { split; [apply Qle_shift_div_l; lra|]. apply Qle_shift_div_r; lra. }
  assert ((3 + decay n) / k - (1 # 1000000) <= dval y / k <= (3 + decay n) / k + (1 # 1000000)) as Hyd.
  { assert ((3 + decay n) / k - (1 # 1000000) == (3 + decay n - (1 # 1000000) * k) / k) as -> by (field; lra).
    assert ((3 + decay n) / k + (1 # 1000000) == (3 + decay n + (1 # 1000000) * k) / k) as -> by (field; lra).
    split; (apply Qmult_le_compat_r; [lra|apply Qlt_le_weak, Qinv_lt_0_compat; done]). }
  destruct (ddiv_near y (dec_of_Z n)) as [V0 V1].
  { by rewrite En. }
  { rewrite Ey. lra. }
  { rewrite Ey. change (inject_Z (10 ^ 28)) with (10000000000000000000000000000 # 1). lra. }
  unfold near in V1. rewrite Ey in V1. set (q := (3 + decay n) / k) in *. set (z := (y / dec_of_Z n)%dec) in *.
  destruct (cap_near z) as [C0 C1]; [lra|]. set (v := dmin HIP15_TX_REWARD_UNIT_CAP z) in *.
  destruct (round_units_spec v 1) as (G & R0 & R1); [lia|change (inject_Z 1) with 1; lra|].
  change (inject_Z 1) with 1 in R0. split; [done|]. split; [done|]. apply Qabs_Qle_condition. lra.
Qed.

Lemma units_small n :
  (0 <= n <= 4)%Z ->
  exists b w : dec, poc_beaconer_reward_unit n = Ok b /\ poc_per_witness_reward_unit n = Ok w /\
    on_grid 4 (dval b) /\ on_grid 4 (dval w) /\ dval b == inject_Z n / 4 /\
    dval w == (if (n =? 0)%Z then 0 else 1).
Proof.
  intros Hn. unfold poc_beaconer_reward_unit, poc_per_witness_reward_unit.
  destruct (Z.eqb_spec n 0) as [->|Hn0].
  - pose proof (dec_zero_val (dec := dec)) as E0. cbn [result_bind].
    assert (on_grid 4 (dval (round_units (dec := dec) dec_zero)) /\ dval (round_units (dec := dec) dec_zero) == 0) as [G E].
    { destruct (round_units_spec dec_zero 0) as (G & R & _); [lia|rewrite E0; split; discriminate|].
      split; [done|]. change (inject_Z 0) with 0 in R. lra. }
    eexists _, _. split; [done|]. split; [done|]. split; [done|]. split; [done|]. rewrite E. done.
  - rewrite (proj2 (Z.leb_le n WITNESS_REDUNDANCY)) by (unfold WITNESS_REDUNDANCY; lia).
    destruct (from_f32_retain_val (dec := dec) n 2 ltac:(lia) ltac:(lia)) as (d & Ed & Vd).
    unfold witness_fraction, WITNESS_REDUNDANCY. change (inject_Z (2 ^ Z.of_nat 2)) with (inject_Z 4) in Ed, Vd.
    rewrite Ed. cbn [ok_or result_bind].
    pose proof (dec_of_Z_val (dec := dec) 1 ltac:(lia)) as E1.
    assert (forall u : dec, on_grid 4 (dval u) -> dval (round_units u) == dval u) as Hexact.
    { intros u [m Hm]. unfold round_units, SCALING_PRECISION. rewrite round_dp_val, Hm. unfold round_q.
      assert (inject_Z m / pow10 4 * pow10 4 == inject_Z m) as Em by (change (pow10 4) with (10000 # 1); field).
      rewrite (round_int_comp _ _ _ Em). unfold round_int. rewrite Qfloor_Z.
      assert (inject_Z m - inject_Z m == 0) as Ez by ring.
      by rewrite (Qle_bool_comp (1 # 2) (1 # 2) _ _ (Qeq_refl _) Ez). }
    assert (on_grid 4 (dval d)) as Gd.
    { exists (n * 2500)%Z. rewrite Vd, inject_Z_mult. change (pow10 4) with (10000 # 1).
      change (inject_Z 2500) with (2500 # 1). change (inject_Z 4) with (4 # 1). field. }
    assert (on_grid 4 (dval (dec := dec) (dec_of_Z 1))) as G1 by (exists 10000%Z; rewrite E1; reflexivity).
    eexists _, _. split; [done|]. split; [done|].
    split; [apply (on_grid_eq 4 _ _ (Qeq_sym _ _ (Hexact _ Gd))); done|].
    split; [apply (on_grid_eq 4 _ _ (Qeq_sym _ _ (Hexact _ G1))); done|].
    rewrite !Hexact by done. by rewrite Vd, E1.
Qed.

(** For any number of witnesses the reward units exist, have four decimals
    and follow HIP 15: a beaconer earns a quarter per witness up to four and then
    [2 - 0.8^(n-4)], capped at 2; each of up to four witnesses earns 1, and
    beyond that they share [3 + 0.8^(n-4)] equally, each at most 1. *)
Theorem reward_units_spec n :
  (0 <= n < 2 ^ 32)%Z ->
  exists b w : dec, poc_beaconer_reward_unit n = Ok b /\ poc_per_witness_reward_unit n = Ok w /\
    on_grid 4 (dval b) /\ on_grid 4 (dval w) /\ 0 <= dval b <= 2 /\ 0 <= dval w <= 1 /\
    ((n <= 4)%Z -> dval b == inject_Z n / 4 /\ dval w == (if (n =? 0)%Z then 0 else 1)) /\
    ((4 < n)%Z -> Qabs (dval b - (2 - (4 # 5) ^ (n - 4))) <= 1 # 10000 /\
                  Qabs (dval w - (3 + (4 # 5) ^ (n - 4)) / inject_Z n) <= 1 # 10000).
Proof.
  intros Hn. destruct (Z.le_gt_cases n 4) as [Hs|Hl].
  - destruct (units_small n ltac:(lia)) as (b & w & Eb & Ew & Gb & Gw & Vb & Vw). exists b, w.
    assert (0 <= inject_Z n <= 4 # 1) as Hi
      by (change 0 with (inject_Z 0); change (4 # 1) with (inject_Z 4); rewrite <- !Zle_Qle; lia).
    repeat (split; [done|]). split; [|split; [|split; [done|lia]]].
    + rewrite Vb. split; [apply Qle_shift_div_l; lra|apply Qle_shift_div_r; lra].
    + rewrite Vw. destruct (n =? 0)%Z; split; discriminate.
  - destruct (beaconer_unit_large n ltac:(lia)) as (b & Eb & Gb & Rb & Vb).
    destruct (witness_unit_large n ltac:(lia)) as (w & Ew & Gw & Rw & Vw).
    exists b, w. repeat (split; [done|]). split; [lia|done].
Qed.
End Units.

Lemma reward_units_spec_witness :
  exists b w : Q, poc_beaconer_reward_unit 5 = Ok b /\ poc_per_witness_reward_unit 5 = Ok w.
Proof.
  destruct (reward_units_spec (dec := Q) 5) as (b & w & Hb & Hw & _); [lia|]. by exists b, w.
Defined.

(** The table of the code's test, in ten-thousandths. *)
Example reward_unit_calculations :
  let units f := (fun n => match f (Z.of_nat n) with Ok u => Qfloor (u * (10000 # 1))%Q | Err _ => -1 end)
                   <$> seq 1 15 in
  units (poc_per_witness_reward_unit (dec := Q)) =
    [10000; 10000; 10000; 10000; 7600; 6067; 5017; 4262; 3697; 3262; 2918; 2640; 2411; 2220; 2057] /\
  units (poc_beaconer_reward_unit (dec := Q)) =
    [2500; 5000; 7500; 10000; 12000; 13600; 14880; 15904; 16723; 17379; 17903; 18322; 18658; 18926; 19141].
Proof. vm_compute. split; reflexivity. Qed.

(** ** Selection *)

Section Selection.
Context {PT : ProtoTypes} {dec : Type}.
Implicit Types (ws : list (IotVerifiedWitnessReport dec)).

Lemma partition_filter {A} (f : A -> bool) (l : list A) :
  List.partition f l = (List.filter f l, List.filter (fun a => negb (f a)) l).
Proof. induction l as [|a l IH]; [done|]. cbn. rewrite IH. by destruct (f a). Qed.

Lemma filter_partition_perm {A} (f : A -> bool) (l : list A) :
  List.filter f l ++ List.filter (fun a => negb (f a)) l ≡ₚ l.
Proof.
  induction l as [|a l IH]; [done|]. cbn. destruct (f a); cbn; [by rewrite IH|].
  rewrite <- Permutation_middle. by rewrite IH.
Qed.

Lemma sort_and_split_perm ws n :
  let '(sel, unsel) := sort_and_split_witnesses ws n in
  sel ++ unsel ≡ₚ ws /\ length sel = Nat.min (length ws) n /\
  forall s u, s ∈ sel -> u ∈ unsel -> vw_received_timestamp s <= vw_received_timestamp u.
Proof.
  unfold sort_and_split_witnesses. destruct (Nat.leb_spec (length ws) n) as [H|H].
  - rewrite app_nil_r. split; [done|]. split; [lia|]. intros s u _ Hu. by apply not_elem_of_nil in Hu.
  - rewrite take_drop. split; [apply sort_by_key_perm|]. split.
    + rewrite length_take, (Permutation_length (sort_by_key_perm vw_received_timestamp ws)). lia.
    + intros s u Hs Hu. pose proof (sort_by_key_sorted vw_received_timestamp ws) as Hst.
      rewrite <- (take_drop n (sort_by_key vw_received_timestamp ws)) in Hst.
      apply (StronglySorted_app_le _ _ _ s u Hst Hs Hu).
Qed.

(** The selected witnesses are the earliest valid ones, up to the limit: all
    of them are valid, none was received later than an unselected valid one, and
    together with the unselected they are the verified witnesses without those
    that witnessed their own beacon. *)
Theorem selected_witnesses_spec ws max :
  let '(valid, invalid) := filter_witnesses ws in
  let '(selected, unselected) := sort_and_split_witnesses valid max in
  selected ++ unselected ++ invalid ≡ₚ List.filter included ws /\
  length selected = Nat.min (length (List.filter (fun w => included w && is_valid w) ws)) max /\
  (forall w, w ∈ selected -> vw_status w = StatusValid) /\
  (forall w, w ∈ selected ++ unselected ++ invalid -> vw_invalid_reason w <> SelfWitness) /\
  (forall s u, s ∈ selected -> u ∈ unselected -> vw_received_timestamp s <= vw_received_timestamp u).
Proof.
  unfold filter_witnesses. rewrite partition_filter.
  pose proof (sort_and_split_perm (List.filter is_valid (List.filter included ws)) max) as H.
  destruct (sort_and_split_witnesses _ max) as [sel unsel]. destruct H as (Hp & Hl & Ho).
  assert (sel ++ unsel ++ List.filter (fun a => negb (is_valid a)) (List.filter included ws)
          ≡ₚ List.filter included ws) as Hperm.
  { rewrite app_assoc, Hp. apply filter_partition_perm. }
  split; [done|]. split; [|split; [|split; [|done]]].
  - rewrite Hl. f_equal. clear. induction ws as [|w ws IH]; [done|]. cbn.
    destruct (included w); cbn; [|done]. destruct (is_valid w); cbn; lia.
  - intros w Hw. assert (w ∈ List.filter is_valid (List.filter included ws)) as Hin.
    { rewrite <- Hp. apply elem_of_app. by left. }
    apply elem_of_filter_bool in Hin as [_ Hv]. by apply bool_decide_eq_true in Hv.
  - intros w Hw. rewrite Hperm in Hw. apply elem_of_filter_bool in Hw as [_ Hi].
    unfold included, filter_witness in Hi. by destruct (vw_invalid_reason w).
Qed.
End Selection.

(** ** Report rows *)

Lemma update_where_lookup p f (t : gmap string Report) id :
  update_where p f t !! id = (fun r => if p r then f r else r) <$> t !! id.
Proof. apply lookup_fmap. Qed.

Lemma delete_poc_lookup (t : gmap string Report) data id :
  delete_poc t data !! id =
  match t !! id with
  | Some r => if bool_decide (rep_packet_data r = data) then None else Some r
  | None => None
  end.
Proof.
  unfold delete_poc. destruct (t !! id) as [r|] eqn:E.
  - case_bool_decide as Hd.
    + apply map_lookup_filter_None. right. intros r' Hr'. rewrite E in Hr'.
      injection Hr' as <-. intros Hn. by apply Hn.
    + by apply map_lookup_filter_Some.
  - apply map_lookup_filter_None. by left.
Qed.

(** The row [r] is gone or has been attempted more often. *)
Definition attempted (t : gmap string Report) (r : Report) : Prop :=
  match t !! rep_id r with Some r' => rep_attempts r < rep_attempts r' | None => True end.

(** A later table: rows are only dropped or attempted again. *)
Definition later (t t' : gmap string Report) : Prop :=
  forall id, match t !! id, t' !! id with
             | _, None => True
             | Some r, Some r' => rep_id r' = rep_id r /\ rep_packet_data r' = rep_packet_data r /\
                                  rep_report_data r' = rep_report_data r /\ rep_attempts r <= rep_attempts r'
             | None, Some _ => False
             end.

Lemma later_refl t : later t t.
Proof. intros id. destruct (t !! id); [|done]. repeat split. lia. Qed.

Lemma later_trans t1 t2 t3 : later t1 t2 -> later t2 t3 -> later t1 t3.
Proof.
  intros H1 H2 id. specialize (H1 id). specialize (H2 id).
  destruct (t1 !! id), (t2 !! id), (t3 !! id); try done.
  destruct H1 as (? & ? & ? & ?), H2 as (? & ? & ? & ?). repeat split; congruence || lia.
Qed.

Lemma later_update_attempts t id now : later t (update_attempts t id now).
Proof.
  intros i. unfold update_attempts. rewrite update_where_lookup. destruct (t !! i) as [r|]; [|done]. cbn.
  destruct (String.eqb _ _); cbn; repeat split; lia.
Qed.

Lemma later_delete_poc t data : later t (delete_poc t data).
Proof.
  intros i. rewrite delete_poc_lookup. destruct (t !! i) as [r|]; [|done]. case_bool_decide; [done|].
  repeat split. lia.
Qed.

Lemma attempted_later t t' r : attempted t r -> later t t' -> attempted t' r.
Proof.
  unfold attempted. intros H1 H2. specialize (H2 (rep_id r)).
  destruct (t !! rep_id r), (t' !! rep_id r); try done. destruct H2 as (_ & _ & _ & ?). lia.
Qed.

Lemma update_attempts_attempted t r now :
  (forall r', t !! rep_id r = Some r' -> rep_id r' = rep_id r /\ rep_attempts r <= rep_attempts r') ->
  attempted (update_attempts t (rep_id r) now) r.
Proof.
  intros H. unfold attempted, update_attempts. rewrite update_where_lookup.
  destruct (t !! rep_id r) as [r'|]; [|done]. destruct (H r' eq_refl) as [E ?]. cbn.
  rewrite E, String.eqb_refl. cbn. lia.
Qed.

Lemma delete_poc_attempted t r :
  (forall r', t !! rep_id r = Some r' -> rep_packet_data r' = rep_packet_data r) ->
  attempted (delete_poc t (rep_packet_data r)) r.
Proof.
  intros H. unfold attempted. rewrite delete_poc_lookup. destruct (t !! rep_id r) as [r'|]; [|done].
  by rewrite bool_decide_true by (by apply H).
Qed.

(** ** Progress of a tick *)

Section Progress.
Context {PT : ProtoTypes} {CH : Chrono} {HB : Blake3} {XF : XorFilter} {GEO : H3} {FL : Float64}
  {dec : Type} {D : Decimal dec} {BL : BeaconLib dec} {CO : IngestCodec}.
Implicit Types (env : runner_env dec) (st : runner_state dec) (t : gmap string Report).

(** A beacon row as the loader inserts it: its id and its packet data are those
    of the report it stores. *)
Definition row_ok (r : Report) : Prop :=
  forall b, decode_beacon (rep_report_data r) = Ok b ->
    rep_id r = beacon_ingest_id b /\ rep_packet_data r = br_data (bi_report b).

Definition table_ok t : Prop :=
  forall id r, t !! id = Some r -> rep_id r = id /\ (is_beacon r = true -> row_ok r).

Lemma verify_beacon_valid_info poc hexes cache params last interval dl r :
  verify_beacon (dec := dec) poc hexes cache params last interval dl = Ok r ->
  vbr_result r = StatusValid -> exists info, vbr_gateway_info r = Some info.
Proof.
  unfold verify_beacon, resolve_gateway_info.
  destruct (cache !! _) as [info|]; [|by intros [= <-]].
  destruct (gi_metadata info) as [m|]; [|by intros [= <-]].
  destruct (params (gm_region m)) as [ps|]; [|done]. cbn.
  destruct (do_beacon_verifications _ _ _ _ _ _ _ _ _) as [[]|[rr|]]; [|by intros [= <-]|done].
  intros [= <-] _. by exists info.
Qed.

Lemma verify_witnesses_failed (poc : Poc) info hexes cache dl :
  (verify_witnesses (dec := dec) poc info hexes cache dl).2 = [].
Proof.
  unfold verify_witnesses. destruct (p_witness_reports poc) as [|w ws]; [done|].
  apply (verify_witness_loop_spec poc dl info cache hexes (wi_received_timestamp w) (w :: ws) []).
Qed.

Lemma select_poc_beacon env b info scale verified o :
  select_poc env b info scale verified = Ok o ->
  exists vb sel unsel, o = OutcomeValid vb sel unsel /\ vb_report vb = bi_report b /\
    vb_received_timestamp vb = bi_received_timestamp b.
Proof.
  unfold select_poc. destruct (filter_witnesses verified) as [valid invalid].
  destruct (sort_and_split_witnesses valid _) as [sel unsel].
  destruct (poc_beaconer_reward_unit _) as [bu|]; [|done].
  destruct (poc_per_witness_reward_unit _) as [wu|]; [|done]. cbn [result_bind].
  destruct (gi_metadata info) as [m|]; (destruct scale as [hs|]; [|done]); intros [= <-]; eexists _, _, _; done.
Qed.

(** What the verification of a stored beacon decides. *)
Lemma verify_phase_outcome env st re o :
  verify_phase env st re = Ok o ->
  exists b, decode_beacon (rep_report_data re.1) = Ok b /\
    ((exists vb sel unsel, o = OutcomeValid vb sel unsel /\ vb_report vb = bi_report b /\
        vb_received_timestamp vb = bi_received_timestamp b) \/
     (exists r ws, o = OutcomeInvalid r b ws)).
Proof.
  unfold verify_phase. destruct re as [r e]. destruct (decode_beacon (rep_report_data r)) as [b|] eqn:Eb; [|done].
  cbn [result_bind fst]. destruct (decode_witnesses _) as [ws|]; [|done]. cbn [result_bind].
  destruct (verify_beacon _ _ _ _ _ _ _) as [vr|] eqn:Ev; [|done]. cbn [map_err result_bind].
  intros Ho. exists b. split; [done|]. destruct (vbr_result vr) eqn:Er.
  - destruct (verify_beacon_valid_info _ _ _ _ _ _ _ _ Ev Er) as [info Ei]. rewrite Ei in Ho.
    pose proof (verify_witnesses_failed (poc_new b ws (en_timestamp e) (en_version e)) info
      (re_hex_density_map env) (re_gateway_cache env) (re_deny_list env)) as Hf.
    destruct (verify_witnesses _ _ _ _ _) as [vs fs]. cbn in Hf. subst fs. left.
    by apply select_poc_beacon in Ho.
  - injection Ho as <-. right. by exists vr, ws.
Qed.

Lemma commit_later env st o : later (rs_reports st) (rs_reports (commit_phase env st o)).
Proof.
  destruct o as [failed|vb sel unsel|r b ws|]; cbn [commit_phase].
  - cbn. revert st. induction failed as [|w failed IH]; intros st; [apply later_refl|]. cbn.
    eapply later_trans; [apply later_update_attempts|]. apply (IH (set_reports st _)).
  - unfold handle_valid_poc. destruct (re_poc_write_ok env); [apply later_delete_poc|apply later_update_attempts].
  - unfold handle_invalid_poc. destruct (match vbr_gateway_info r with Some _ => _ | None => _ end) as [[l el] g].
    destruct (re_invalid_beacon_write_ok env); [apply later_delete_poc|apply later_update_attempts].
  - apply later_refl.
Qed.

Lemma tick_beacon_later env st running re :
  later (rs_reports st) (rs_reports (tick_beacon env (st, running) re).1).
Proof.
  unfold tick_beacon. destruct running; [|apply later_refl]. unfold handle_beacon_report.
  destruct (verify_phase env st re) as [o|e]; [apply commit_later|].
  destruct e; cbn; try apply later_update_attempts. apply later_refl.
Qed.

(** The table still has the row [r], perhaps attempted more often, or not at all. *)
Definition row_stands t (r : Report) : Prop :=
  match t !! rep_id r with
  | Some r' => rep_id r' = rep_id r /\ rep_packet_data r' = rep_packet_data r /\ rep_attempts r <= rep_attempts r'
  | None => True
  end.

Lemma commit_attempted env st re o :
  row_ok re.1 -> row_stands (rs_reports st) re.1 -> verify_phase env st re = Ok o ->
  attempted (rs_reports (commit_phase env st o)) re.1.
Proof.
  intros Hrow Hst Ho. destruct (verify_phase_outcome _ _ _ _ Ho) as (b & Eb & Hcases).
  destruct (Hrow b Eb) as [Eid Edata]. unfold row_stands in Hst.
  assert (forall r', rs_reports st !! rep_id re.1 = Some r' ->
            rep_id r' = rep_id re.1 /\ rep_attempts re.1 <= rep_attempts r') as H1
    by (intros r' E; rewrite E in Hst; tauto).
  assert (forall r', rs_reports st !! rep_id re.1 = Some r' -> rep_packet_data r' = rep_packet_data re.1) as H2
    by (intros r' E; rewrite E in Hst; tauto).
  destruct Hcases as [(vb & sel & unsel & -> & Ev & Et)|(r & ws & ->)]; cbn [commit_phase].
  - unfold handle_valid_poc. rewrite Ev, Et. destruct (re_poc_write_ok env); cbn [rs_reports].
    + rewrite <- Edata. by apply delete_poc_attempted.
    + change (beacon_report_id (bi_report b) (bi_received_timestamp b)) with (beacon_ingest_id b).
      rewrite <- Eid. by apply update_attempts_attempted.
  - unfold handle_invalid_poc. destruct (match vbr_gateway_info r with Some _ => _ | None => _ end) as [[l el] g].
    destruct (re_invalid_beacon_write_ok env); cbn [rs_reports set_reports].
    + rewrite <- Edata. by apply delete_poc_attempted.
    + rewrite <- Eid. by apply update_attempts_attempted.
Qed.

Lemma tick_beacon_attempted env st re :
  row_ok re.1 -> row_stands (rs_reports st) re.1 -> (tick_beacon env (st, true) re).2 = true ->
  attempted (rs_reports (tick_beacon env (st, true) re).1) re.1.
Proof.
  intros Hrow Hst. unfold tick_beacon, handle_beacon_report.
  destruct (verify_phase env st re) as [o|e] eqn:Ev; [intros _; by apply commit_attempted|].
  assert (attempted (update_attempts (rs_reports st) (rep_id re.1) (re_now env)) re.1) as Ha.
  { apply update_attempts_attempted. intros r' E. unfold row_stands in Hst. rewrite E in Hst. tauto. }
  by destruct e; cbn.
Qed.

Lemma row_stands_later t t' r : row_stands t r -> later t t' -> row_stands t' r.
Proof.
  unfold row_stands. intros H1 H2. specialize (H2 (rep_id r)).
  destruct (t !! rep_id r), (t' !! rep_id r); try done.
  destruct H1 as (? & ? & ?), H2 as (? & ? & ? & ?). repeat split; congruence || lia.
Qed.

Lemma tick_stopped env st l : fold_left (tick_beacon env) l (st, false) = (st, false).
Proof. induction l as [|re l IH]; [done|]. apply IH. Qed.

Lemma tick_fold env l st :
  (forall re, re ∈ l -> row_ok re.1 /\ row_stands (rs_reports st) re.1) ->
  let '(st', running) := fold_left (tick_beacon env) l (st, true) in
  later (rs_reports st) (rs_reports st') /\
  (running = true -> forall re, re ∈ l -> attempted (rs_reports st') re.1).
Proof.
  revert st. induction l as [|re l IH]; intros st Hl.
  { split; [apply later_refl|]. intros _ re Hre. by apply not_elem_of_nil in Hre. }
  cbn [fold_left]. pose proof (tick_beacon_later env st true re) as Hlater.
  pose proof (tick_beacon_attempted env st re) as Hatt.
  destruct (Hl re ltac:(left)) as [Hrow Hst]. specialize (Hatt Hrow Hst).
  destruct (tick_beacon env (st, true) re) as [st1 [|]]; cbn [fst snd] in Hlater, Hatt.
  2: { rewrite tick_stopped. done. }
  specialize (IH st1). destruct (fold_left (tick_beacon env) l (st1, true)) as [st2 running].
  destruct IH as [H1 H2].
  { intros re' Hre'. destruct (Hl re' ltac:(by right)) as [? ?]. split; [done|]. by eapply row_stands_later. }
  split; [by eapply later_trans|]. intros Hr re' [->|Hre']%elem_of_cons; [|by apply H2].
  eapply attempted_later; [by apply Hatt|done].
Qed.

Lemma get_next_beacons_row t e now retries re :
  re ∈ get_next_beacons t e now retries ->
  (exists id, t !! id = Some re.1) /\ is_beacon re.1 = true /\ rep_attempts re.1 < as_i64 retries.
Proof.
  intros H. unfold get_next_beacons in H.
  assert (re ∈ List.filter (fun re => String.eqb (rep_remote_entropy re.1) (en_data re.2)
      && is_beacon re.1 && has_status Ready re.1
      && (en_timestamp re.2 <? now - ENTROPY_LIFESPAN * nanos_per_sec)
      && (rep_attempts re.1 <? as_i64 retries)) (list_prod (rows t) (map_to_list e).*2)) as Hin.
  { rewrite <- (sort_by_key_perm (fun re => rep_created_at re.1)).
    rewrite <- (take_drop (Z.to_nat 25000) (sort_by_key _ _)). apply elem_of_app. by left. }
  apply elem_of_filter_bool in Hin as [Hp Ht]. zbool.
  destruct re as [r en]. rewrite list_elem_of_In in Hp. apply in_prod_iff in Hp as [Hr _].
  rewrite <- list_elem_of_In in Hr. apply list_elem_of_fmap in Hr as ([id r'] & -> & Hr%elem_of_map_to_list).
  split; [by exists id|]. done.
Qed.

End Progress.

(** ** The beacon schedule *)

Section Schedule.
Context {PT : ProtoTypes} {CH : Chrono} {HB : Blake3} {XF : XorFilter} {GEO : H3} {FL : Float64}
  {dec : Type} {D : Decimal dec} {BL : BeaconLib dec} {CO : IngestCodec}.
Implicit Types (env : runner_env dec) (st : runner_state dec).

Lemma verify_beacon_valid_schedule poc hexes cache params last interval dl r :
  verify_beacon (dec := dec) poc hexes cache params last interval dl = Ok r -> vbr_result r = StatusValid ->
  let b := p_beacon_report poc in
  verify_beacon_schedule (last !! br_pub_key (bi_report b)) (bi_received_timestamp b) interval = Ok tt.
Proof.
  unfold verify_beacon, resolve_gateway_info. cbv zeta.
  destruct (cache !! _) as [info|]; [|by intros [= <-]].
  destruct (gi_metadata info) as [m|] eqn:Em; [|by intros [= <-]].
  destruct (params (gm_region m)) as [ps|]; [|done]. cbn [ok_or result_bind].
  destruct (do_beacon_verifications _ _ _ _ _ _ _ _ _) as [[]|[rr|]] eqn:E; [|by intros [= <-]|done].
  intros _ _. unfold do_beacon_verifications in E. rewrite Em in E.
  rewrite !bind_tt in E. unfold last_beacon_get in E. tauto.
Qed.

Lemma verify_phase_schedule env st re vb sel unsel :
  verify_phase env st re = Ok (OutcomeValid vb sel unsel) ->
  verify_beacon_schedule (rs_last_beacon st !! br_pub_key (vb_report vb)) (vb_received_timestamp vb)
    (re_beacon_interval env) = Ok tt.
Proof.
  unfold verify_phase. destruct re as [r e]. destruct (decode_beacon _) as [b|]; [|done].
  cbn [result_bind]. destruct (decode_witnesses _) as [ws|]; [|done]. cbn [result_bind].
  destruct (verify_beacon _ _ _ _ _ _ _) as [vr|] eqn:Ev; [|done]. cbn [map_err result_bind].
  destruct (vbr_result vr) eqn:Er; [|done].
  pose proof (verify_beacon_valid_schedule _ _ _ _ _ _ _ _ Ev Er) as Hs. cbn in Hs.
  destruct (vbr_gateway_info vr) as [info|]; [|done].
  destruct (verify_witnesses _ _ _ _ _) as [vs [|f fs]]; [|done]. intros Ho.
  apply select_poc_beacon in Ho as (vb' & sel' & unsel' & [= <- <- <-] & -> & ->). done.
Qed.

(** The gateway and the interval of an accepted beacon. *)
Definition poc_slot (i : Z) (p : IotPoc dec) : PublicKeyBinary * Z :=
  (br_pub_key (vb_report (poc_beacon_report p)), vb_received_timestamp (poc_beacon_report p) / i).

Definition schedule_inv (i : Z) st : Prop :=
  NoDup (poc_slot i <$> rs_poc_sink st) /\
  (forall p, p ∈ rs_poc_sink st ->
     exists l, rs_last_beacon st !! (poc_slot i p).1 = Some l /\ (poc_slot i p).2 <= l / i) /\
  (forall k l, rs_last_beacon st !! k = Some l -> i <= l < 2 ^ 63).

(** Stored beacons were received at plausible times. *)
Definition times_ok (i : Z) : Prop :=
  forall buf b, decode_beacon buf = Ok b -> i <= bi_received_timestamp b < 2 ^ 63.

Lemma schedule_inv_ext i st st' :
  rs_poc_sink st' = rs_poc_sink st -> rs_last_beacon st' = rs_last_beacon st ->
  schedule_inv i st -> schedule_inv i st'.
Proof. unfold schedule_inv. by intros -> ->. Qed.

Lemma valid_poc_schedule i env st re vb sel unsel :
  0 < i -> times_ok i -> re_beacon_interval env = i -> schedule_inv i st ->
  verify_phase env st re = Ok (OutcomeValid vb sel unsel) ->
  schedule_inv i (handle_valid_poc env st vb sel unsel).
Proof.
  intros Hi Ht Ei (Hn & Hl & Hr) Ho. pose proof (verify_phase_schedule _ _ _ _ _ _ Ho) as Hs.
  destruct (verify_phase_outcome _ _ _ _ Ho) as (b & Eb & [(vb' & s' & u' & [= <- <- <-] & _ & Et)|(? & ? & ?)]); [|done].
  unfold handle_valid_poc. destruct (re_poc_write_ok env); [|by apply (schedule_inv_ext i st)].
  set (k := br_pub_key (vb_report vb)) in *. set (t := vb_received_timestamp vb) in *.
  assert (i <= t < 2 ^ 63) as Htt by (rewrite Et; by eapply Ht).
  rewrite Ei in Hs. apply verify_beacon_schedule_ok in Hs; [|done| |done].
  2: { destruct (rs_last_beacon st !! k) as [l|] eqn:El; [|done]. by apply (Hr k). }
  unfold schedule_inv. cbn [rs_poc_sink rs_last_beacon]. rewrite fmap_app. unfold update_last_timestamp.
  split; [|split].
  - apply NoDup_app. split; [done|]. split; [|apply NoDup_singleton].
    intros s Hin Hs'%list_elem_of_singleton. apply list_elem_of_fmap in Hin as (p & -> & Hp).
    destruct (Hl p Hp) as (l & El & Hle). rewrite Hs' in El, Hle. cbn in El, Hle. fold k t in El, Hle.
    rewrite El in Hs. cbn in Hs. lia.
  - intros p [Hp|Hp%list_elem_of_singleton]%elem_of_app.
    + destruct (Hl p Hp) as (l & El & Hle). destruct (decide ((poc_slot i p).1 = k)) as [E|E].
      * exists t. rewrite E, lookup_insert_eq. split; [done|]. rewrite E in El. rewrite El in Hs. cbn in Hs. lia.
      * exists l. by rewrite lookup_insert_ne.
    + subst p. exists t. cbn. fold k t. rewrite lookup_insert_eq. split; [done|lia].
  - intros k' l. destruct (decide (k' = k)) as [->|E].
    + rewrite lookup_insert_eq. by intros [= <-].
    + rewrite lookup_insert_ne by done. apply Hr.
Qed.

Lemma tick_beacon_schedule i env acc re :
  0 < i -> times_ok i -> re_beacon_interval env = i -> schedule_inv i acc.1 ->
  schedule_inv i (tick_beacon env acc re).1.
Proof.
  intros Hi Ht Ei Hinv. destruct acc as [st running]. unfold tick_beacon. destruct running; [|done].
  unfold handle_beacon_report. destruct (verify_phase env st re) as [o|e] eqn:Eo.
  - destruct (verify_phase_outcome _ _ _ _ Eo) as (b & Eb & [(vb & sel & unsel & -> & _)|(r & ws & ->)]).
    + by apply (valid_poc_schedule i env st re).
    + cbn [commit_phase fst]. unfold handle_invalid_poc.
      destruct (match vbr_gateway_info r with Some _ => _ | None => _ end) as [[l el] g].
      destruct (re_invalid_beacon_write_ok env); by apply (schedule_inv_ext i st).
  - by destruct e; apply (schedule_inv_ext i st).
Qed.

End Schedule.

(** ** The rows of the share table *)

Section Rows.
Context {PT : ProtoTypes} {CH : Chrono} {HB : Blake3} {XF : XorFilter} {GEO : H3} {FL : Float64}
  {dec : Type} {D : Decimal dec} {DL : DecimalLaws dec} {BL : BeaconLib dec} {CO : IngestCodec}.
Implicit Types (env : runner_env dec) (st : runner_state dec).

(** Scales and units as the share table holds them. *)
Definition scale_row_ok (d : dec) : Prop := on_grid 4 (dval d) /\ (0 <= dval d <= 1)%Q.
Definition unit_row_ok (d : dec) : Prop := on_grid 4 (dval d) /\ (0 <= dval d <= 100 # 1)%Q.

Definition density_ok (hexes : gmap Z dec) : Prop := forall h d, hexes !! h = Some d -> scale_row_ok d.

Lemma units_row_ok n b w :
  0 <= n < 2 ^ 32 -> poc_beaconer_reward_unit n = Ok b -> poc_per_witness_reward_unit n = Ok w ->
  unit_row_ok b /\ unit_row_ok w.
Proof.
  intros Hn Eb Ew. unfold unit_row_ok. destruct (Z.le_gt_cases n 4) as [Hs|Hl].
  - destruct (units_small (dec := dec) n ltac:(lia)) as (b' & w' & Eb' & Ew' & Gb & Gw & Vb & Vw).
    rewrite Eb in Eb'. rewrite Ew in Ew'. injection Eb' as <-. injection Ew' as <-.
    assert (0 <= inject_Z n <= 4 # 1)%Q as Hi
      by (change 0%Q with (inject_Z 0); change (4 # 1)%Q with (inject_Z 4); rewrite <- !Zle_Qle; lia).
    split; (split; [done|]).
    + rewrite Vb. split; [apply Qle_shift_div_l; lra|apply Qle_shift_div_r; lra].
    + rewrite Vw. destruct (n =? 0); split; discriminate.
  - destruct (beaconer_unit_large (dec := dec) n ltac:(lia)) as (b' & Eb' & Gb & Rb & _).
    destruct (witness_unit_large (dec := dec) n ltac:(lia)) as (w' & Ew' & Gw & Rw & _).
    rewrite Eb in Eb'. rewrite Ew in Ew'. injection Eb' as <-. injection Ew' as <-.
    split; (split; [done|lra]).
Qed.

Lemma tx_scale_row_ok hexes h : density_ok hexes -> scale_row_ok (tx_scale_at hexes h).
Proof.
  intros Hd. unfold tx_scale_at. destruct (hexes !! h) as [d|] eqn:E; [by apply (Hd h)|]. cbn.
  pose proof (dec_new_val (dec := dec) 2000 4 ltac:(lia) ltac:(lia)) as E2. unfold DEFAULT_TX_SCALE, scale_row_ok.
  split; [by exists 2000|]. rewrite E2. split; discriminate.
Qed.

(** What a PoC must satisfy for its shares to be good rows. *)
Definition poc_scales_ok (beacon : IotValidBeaconReport dec) (selected : list (IotVerifiedWitnessReport dec)) : Prop :=
  scale_row_ok (vb_hex_scale beacon) /\ unit_row_ok (vb_reward_unit beacon) /\
  forall w, w ∈ selected -> vw_status w = StatusValid -> scale_row_ok (vw_hex_scale w) /\ unit_row_ok (vw_reward_unit w).

Lemma shares_row_ok id beacon selected unselected s :
  poc_scales_ok beacon selected -> s ∈ shares_from_poc (mkIotPoc id beacon selected unselected) -> poc_row_ok s.
Proof.
  intros (Hs & Hu & Hw) Hin. unfold shares_from_poc in Hin. cbn [poc_beacon_report poc_selected_witnesses poc_id] in Hin.
  apply elem_of_app in Hin as [Hin|Hin].
  - destruct (_ && _); [|by apply not_elem_of_nil in Hin]. apply list_elem_of_singleton in Hin as ->.
    unfold poc_row_ok. cbn. destruct Hs, Hu. done.
  - apply list_elem_of_omap in Hin as (w & Hin & E). unfold witness_share in E.
    destruct (vw_status w) eqn:Est; [|done]. destruct (_ && _); [|done]. injection E as <-.
    destruct (Hw w Hin Est) as [[] []]. done.
Qed.

Lemma select_poc_scales env b info scale verified vb sel unsel :
  (forall d, scale = Some d -> scale_row_ok d) ->
  (forall v, v ∈ verified -> vw_status v = StatusValid -> scale_row_ok (vw_hex_scale v)) ->
  select_poc env b info scale verified = Ok (OutcomeValid vb sel unsel) -> poc_scales_ok vb sel.
Proof.
  intros Hscale Hv. unfold select_poc, filter_witnesses. rewrite partition_filter.
  pose proof (sort_and_split_perm (List.filter is_valid (List.filter included verified)) (re_max_witnesses_per_poc env)) as Hp.
  destruct (sort_and_split_witnesses _ _) as [s u]. destruct Hp as (Hp & _).
  set (n := as_u32 _). assert (0 <= n < 2 ^ 32) as Hn by (by apply wrap_range).
  destruct (poc_beaconer_reward_unit n) as [bu|] eqn:Eb; [|done].
  destruct (poc_per_witness_reward_unit n) as [wu|] eqn:Ew; [|done]. cbn [result_bind].
  destruct (units_row_ok n bu wu Hn Eb Ew) as [Hbu Hwu].
  assert (forall w, w ∈ with_reward_unit wu <$> s -> vw_status w = StatusValid ->
            scale_row_ok (vw_hex_scale w) /\ unit_row_ok (vw_reward_unit w)) as Hsel.
  { intros w (v & -> & Hin)%list_elem_of_fmap Hst. cbn in Hst |- *. rewrite Hst. split; [|done].
    apply Hv; [|done]. assert (v ∈ List.filter is_valid (List.filter included verified)) as Hin'
      by (rewrite <- Hp; apply elem_of_app; by left).
    apply elem_of_filter_bool in Hin' as [Hin' _]. by apply elem_of_filter_bool in Hin' as [Hin' _]. }
  destruct (gi_metadata info) as [m|]; (destruct scale as [d|]; [|done]); intros [= <- <- <-];
    (split; [by apply Hscale|split; done]).
Qed.

Lemma verify_phase_scales env st re vb sel unsel :
  density_ok (re_hex_density_map env) ->
  verify_phase env st re = Ok (OutcomeValid vb sel unsel) -> poc_scales_ok vb sel.
Proof.
  intros Hd. unfold verify_phase. destruct re as [r e]. destruct (decode_beacon _) as [b|]; [|done].
  cbn [result_bind]. destruct (decode_witnesses _) as [ws|]; [|done]. cbn [result_bind].
  set (poc := poc_new _ _ _ _). destruct (verify_beacon poc _ _ _ _ _ _) as [vr|] eqn:Ev; [|done].
  cbn [map_err result_bind]. destruct (vbr_result vr) eqn:Er; [|done].
  assert (forall d, vbr_hex_scale vr = Some d -> scale_row_ok d) as Hscale.
  { revert Ev. unfold verify_beacon. destruct (resolve_gateway_info _ _) as [info|[]]; [|by intros [= <-]].
    destruct (gi_metadata info) as [m|]; [|by intros [= <-]].
    destruct (re_region_params env (gm_region m)) as [ps|]; [|done]. cbn [ok_or result_bind].
    destruct (do_beacon_verifications _ _ _ _ _ _ _ _ _) as [[]|[rr|]]; [|by intros [= <-]|done].
    intros [= <-] d [= <-]. by apply tx_scale_row_ok. }
  destruct (vbr_gateway_info vr) as [info|]; [|done].
  assert (forall v, v ∈ (verify_witnesses poc info (re_hex_density_map env) (re_gateway_cache env) (re_deny_list env)).1 ->
            vw_status v = StatusValid -> scale_row_ok (vw_hex_scale v)) as Hv.
  { unfold verify_witnesses. destruct (p_witness_reports poc) as [|w0 ws0]; [intros v Hv; by apply not_elem_of_nil in Hv|].
    pose proof (verify_witness_loop_spec poc (re_deny_list env) info (re_gateway_cache env) (re_hex_density_map env)
      (wi_received_timestamp w0) (w0 :: ws0) []) as (_ & HF & _).
    intros v Hin Hst. apply list_elem_of_lookup in Hin as [i Hi].
    destruct (Forall2_lookup_r _ _ _ i v HF Hi) as (w & _ & _ & _ & _ & Hval).
    destruct (Hval Hst) as (info' & bm & _ & _ & -> & _). by apply tx_scale_row_ok. }
  destruct (verify_witnesses _ _ _ _ _) as [vs [|f fs]]; [|done]. cbn [fst] in Hv.
  by apply select_poc_scales.
Qed.

Definition shares_rows_ok st : Prop :=
  forall k s, gateway_shares (rs_shares st) !! k = Some s -> poc_row_ok s.

Lemma handle_valid_rows env st vb sel unsel :
  poc_scales_ok vb sel -> shares_rows_ok st -> shares_rows_ok (handle_valid_poc env st vb sel unsel).
Proof.
  intros Hp Hst k s. unfold handle_valid_poc.
  assert (rs_shares (handle_valid_poc env st vb sel unsel) =
    save_poc (rs_shares st) (mkIotPoc (beacon_report_id (vb_report vb) (vb_received_timestamp vb)) vb sel unsel)) as E
    by (unfold handle_valid_poc; by destruct (re_poc_write_ok env)).
  unfold handle_valid_poc in E. rewrite E. unfold save_poc. rewrite save_shares_lookup.
  destruct (List.find _ _) as [s'|] eqn:Ef; [|by apply Hst]. intros [= <-].
  apply find_some in Ef as [Hin _]. rewrite <- in_rev, <- list_elem_of_In in Hin. by eapply shares_row_ok.
Qed.

(** C23: Ticks of the runner keep the share table well-formed: if the density map
    holds scales between 0 and 1 with four decimals, so does every row, and its
    reward unit has four decimals and stays within the bounds that the
    conservation of the rewards is proved for. *)
Theorem runner_tick_rows_ok env st :
  density_ok (re_hex_density_map env) -> shares_rows_ok st -> shares_rows_ok (runner_tick env st).1.
Proof.
  intros Hd Hst. unfold runner_tick.
  generalize (get_next_beacons (rs_reports st) (rs_entropy st) (re_now env) (re_beacon_max_retries env)). intros l.
  assert (shares_rows_ok (st, true).1) as H by done. revert H. generalize (st, true).
  induction l as [|re l IH]; intros [st0 running] H; [done|]. cbn [fold_left]. apply IH.
  unfold tick_beacon. destruct running; [|done]. unfold handle_beacon_report.
  destruct (verify_phase env st0 re) as [o|e] eqn:Eo; [|by destruct e].
  destruct (verify_phase_outcome _ _ _ _ Eo) as (b & Eb & [(vb & sel & unsel & -> & _)|(r & ws & ->)]).
  - apply handle_valid_rows; [|done]. by eapply verify_phase_scales.
  - cbn [commit_phase fst]. unfold handle_invalid_poc.
    destruct (match vbr_gateway_info r with Some _ => _ | None => _ end) as [[? ?] ?].
    by destruct (re_invalid_beacon_write_ok env).
Qed.
End Rows.

(** ** A gateway with two beacons and a witness *)

Module ExampleRunner.
#[global] Instance line_geo : H3 := {
  Cell := Z;
  cell_try_from z := Some z;
  cell_parent c _ := Some c;
  grid_distance a b := Some (Z.abs (a - b));
  distance_m a b := inject_Z (50 * Z.abs (a - b))
}.

#[global] Instance Q_float : Float64 := {
  f64 := Q; f64_of_Z := inject_Z; fadd := Qplus; fsub := Qminus; fmul := Qmult; fdiv := Qdiv;
  flog10 _ := 0%Q; fgt a b := negb (Qle_bool a b); f64_PI := (314 # 100)%Q; f64_C := (299800000 # 1)%Q
}.

#[global] Instance concat_beacon : BeaconLib Q := {
  BlockchainRegionParam := unit;
  BeaconRegion := Z;
  beacon_region_of r := r;
  beacon_new remote local _ _ _ _ :=
    Some (mkBeacon _ (ent_data remote +:+ ent_data local) 904000000 1 remote local 27);
  beacon_verify generated reported := String.eqb (b_data generated) (b_data reported)
}.

#[global] Instance no_hash : Blake3 := { blake3 s := s }.

Definition lora_beacon (local : string) : LoraBeaconReportReq :=
  mkLoraBeacon "g1" local "e" ("e" +:+ local) 904000000 0 1 27 5 "sig" 0.
Definition lora_witness : LoraWitnessReportReq :=
  mkLoraWitness "g2" "el1" 7 0 (-900) 3 904000000 1 "sig".

#[global] Instance named_messages : IngestCodec := {
  decode_beacon_msg s :=
    if String.eqb s "b1" then Some (mkLoraBeaconIngest 1010000 (Some (lora_beacon "l1")))
    else if String.eqb s "b2" then Some (mkLoraBeaconIngest 1020000 (Some (lora_beacon "l2")))
    else None;
  decode_witness_msg s :=
    if String.eqb s "w" then Some (mkLoraWitnessIngest 1011000 (Some lora_witness)) else None
}.

Definition secs (n : Z) : Z := n * nanos_per_sec.
Definition interval : Z := secs 100.

Definition beacon_row (name local : string) (received : Z) : Report :=
  mkReport (poc_report_id ("e" +:+ local) received "g1") "e" ("e" +:+ local) name IotRewards.Beacon Ready
    0 received received received.
Definition row1 : Report := beacon_row "b1" "l1" (secs 1010).
Definition row2 : Report := beacon_row "b2" "l2" (secs 1020).
Definition roww : Report :=
  mkReport "w" "" "el1" "w" IotRewards.Witness Ready 0 (secs 1011) (secs 1011) (secs 1011).
Definition entropy_row : EntropyRow := mkEntropyRow "e" "e" (secs 950) 0 (secs 950).

Definition gateway (k : string) (location : Z) : GatewayInfo :=
  mkGatewayInfo k (Some (mkMetadata location 3 12 0)) true.

Definition env : runner_env Q :=
  mkRunnerEnv interval 14 5 5 (mkDenyList 0 (Some "sk") [tt]) {["g1" := gateway "g1" 100; "g2" := gateway "g2" 120]}
    (fun r => Some (mkRegionParams r [])) {[100 := (1 # 2)%Q]} (secs 2000) true true (fun _ => true).

Definition table : gmap string Report := {[rep_id row1 := row1; rep_id row2 := row2; rep_id roww := roww]}.
Definition start : runner_state Q :=
  mkRunnerState table {["e" := entropy_row]} ∅ (mkShareTables ∅ ∅) [] [] [].

Lemma named_times_ok : times_ok interval.
Proof.
  intros buf b. unfold decode_beacon. cbn [decode_beacon_msg named_messages].
  destruct (String.eqb buf "b1"); [|destruct (String.eqb buf "b2"); [|done]];
    intros [= <-]; by vm_compute.
Qed.

Lemma start_inv : schedule_inv interval start.
Proof.
  split; [apply NoDup_nil_2|]. split; [intros p Hp; by apply not_elem_of_nil in Hp|].
  intros k l Hk. cbn in Hk. by rewrite lookup_empty in Hk.
Qed.

Lemma table_rows_ok : table_ok table.
Proof.
  intros id r Hr. unfold table in Hr.
  rewrite !lookup_insert_Some, lookup_singleton_Some in Hr.
  destruct Hr as [[<- <-]|[_ [[<- <-]|[_ [<- <-]]]]]; (split; [done|]); [intros _|intros _|done].
  - intros b Hb. vm_compute in Hb. injection Hb as <-. by vm_compute.
  - intros b Hb. vm_compute in Hb. injection Hb as <-. by vm_compute.
Qed.

Lemma env_density_ok : density_ok (re_hex_density_map env).
Proof.
  intros h d Hd. cbn in Hd. apply lookup_singleton_Some in Hd as [_ <-].
  split; [by exists 5000|split; discriminate].
Qed.

Example tick_outcome :
  let st := (runner_tick env start).1 in
  length (rs_poc_sink st) = 1%nat /\ length (rs_invalid_beacon_sink st) = 1%nat /\ rs_reports st = ∅ /\
  size (gateway_shares (rs_shares st)) = 2%nat.
Proof. vm_compute. auto. Qed.
End ExampleRunner.



Lemma runner_tick_rows_ok_witness : shares_rows_ok (runner_tick ExampleRunner.env ExampleRunner.start).1.
Proof.
  apply runner_tick_rows_ok; [exact ExampleRunner.env_density_ok|].
  intros k s Hs. cbn in Hs. by rewrite lookup_empty in Hs.
Defined.

(** The handlers of a tick run concurrently, and the schedule is checked
    against the last accepted beacon as it was read.  When two beacons of a
    gateway in one interval are both verified before either is committed, both
    are accepted and rewarded; one after the other, only the first is. *)
Theorem concurrent_beacons_race :
  let beacons := get_next_beacons (rs_reports ExampleRunner.start) (rs_entropy ExampleRunner.start)
                   (re_now ExampleRunner.env) (re_beacon_max_retries ExampleRunner.env) in
  let b1 := (ExampleRunner.row1, ExampleRunner.entropy_row) in
  let b2 := (ExampleRunner.row2, ExampleRunner.entropy_row) in
  beacons = [b1; b2] /\
  poc_slot ExampleRunner.interval <$> rs_poc_sink (interleaved ExampleRunner.env ExampleRunner.start b1 b2) =
    [("g1", 10); ("g1", 10)] /\
  poc_slot ExampleRunner.interval <$> rs_poc_sink (runner_tick ExampleRunner.env ExampleRunner.start).1 =
    [("g1", 10)].
Proof. vm_compute. auto. Qed.
