(* ===== verification/MobileSpeedtests.v ===== *)
(** * Speedtests of mobile hotspots

    [mobile_verifier/src/speedtests.rs], [speedtests_average.rs] and the message
    conversions of [file_store/src/speedtest.rs]: the table of speedtests, the
    processing of a file of reports, the averages over a window and the tier and
    multiplier they earn.  The theorems: the tier is exactly the one whose
    thresholds all three averages meet, an average is valid exactly when its
    multiplier is not zero, the averages of an epoch are over the latest tests of
    each hotspot, and a file is processed as a whole or not at all. *)

From S2P Require Import Prelude Solana FileStoreTypes Decimal Scheduler.

Open Scope Z_scope.
Open Scope oracle_scope.

(** ** Reports and messages *)

Record CellSpeedtest : Type := mkSpeedtest {
  st_pubkey : PublicKeyBinary;
  st_serial : string;
  st_timestamp : Z;
  st_upload_speed : Z;
  st_download_speed : Z;
  st_latency : Z
}.

Record CellSpeedtestIngestReport : Type := mkSpeedtestIngest {
  si_received_timestamp : Z;
  si_report : CellSpeedtest
}.

(** [SpeedtestReqV1] and [SpeedtestIngestReportV1] *)
Record SpeedtestReq : Type := mkSpeedtestReq {
  sq_pub_key : string;
  sq_serial : string;
  sq_timestamp : Z;
  sq_upload_speed : Z;
  sq_download_speed : Z;
  sq_latency : Z;
  sq_signature : string
}.

Record SpeedtestIngestMsg : Type := mkSpeedtestIngestMsg {
  sm_received_timestamp : Z;
  sm_report : option SpeedtestReq
}.

Section Messages.
Context {CH : Chrono}.

Definition speedtest_into (v : CellSpeedtest) : SpeedtestReq :=
  mkSpeedtestReq (st_pubkey v) (st_serial v) (encode_timestamp (st_timestamp v)) (st_upload_speed v)
    (st_download_speed v) (st_latency v) "".

Definition speedtest_try_from (value : SpeedtestReq) : result CellSpeedtest FsError :=
  let? timestamp := to_timestamp (sq_timestamp value) in
  Ok (mkSpeedtest (sq_pub_key value) (sq_serial value) timestamp (sq_upload_speed value)
        (sq_download_speed value) (sq_latency value)).

Definition speedtest_ingest_try_from (v : SpeedtestIngestMsg) : result CellSpeedtestIngestReport FsError :=
  let? received_timestamp := to_timestamp_millis (sm_received_timestamp v) in
  let? req := ok_or (sm_report v) (not_found "ingest speedtest report") in
  let? report := speedtest_try_from req in
  Ok (mkSpeedtestIngest received_timestamp report).

Definition speedtest_ingest_into (v : CellSpeedtestIngestReport) : SpeedtestIngestMsg :=
  mkSpeedtestIngestMsg (encode_timestamp_millis (si_received_timestamp v)) (Some (speedtest_into (si_report v))).

(** Encoding keeps a report up to the precision of its two times. *)
Lemma speedtest_ingest_roundtrip v :
  time_i64 (si_received_timestamp v) -> time_i64 (st_timestamp (si_report v)) ->
  let r := si_report v in
  speedtest_ingest_try_from (speedtest_ingest_into v) =
  Ok (mkSpeedtestIngest (si_received_timestamp v / nanos_per_milli * nanos_per_milli)
        (mkSpeedtest (st_pubkey r) (st_serial r) (st_timestamp r / nanos_per_sec * nanos_per_sec)
           (st_upload_speed r) (st_download_speed r) (st_latency r))).
Proof.
  intros Hr Ht r. unfold speedtest_ingest_try_from, speedtest_ingest_into. cbn [sm_received_timestamp sm_report].
  rewrite timestamp_millis_roundtrip by done. cbn. unfold speedtest_try_from, speedtest_into. cbn.
  by rewrite timestamp_roundtrip.
Qed.
End Messages.

(** ** Averages *)

Definition SPEEDTEST_LAPSE : Z := 48.
Definition MIN_REQUIRED_SAMPLES : Z := 2.
Definition mbps (n : Z) : Z := n * 125000.
Definition MIN_DOWNLOAD : Z := mbps 30.
Definition MIN_UPLOAD : Z := mbps 2.
Definition MAX_LATENCY : Z := 100.

Inductive SpeedtestAvgValidity : Type :=
| AvgValid | TooFewSamples | SlowDownloadSpeed | SlowUploadSpeed | HighLatency.

Inductive SpeedtestTier : Type := Failed | Poor | Degraded | Acceptable.

(** The order of the declaration, which [derive(Ord)] compares by. *)
Definition tier_rank (t : SpeedtestTier) : Z :=
  match t with Failed => 0 | Poor => 1 | Degraded => 2 | Acceptable => 3 end.
Definition tier_min (a b : SpeedtestTier) : SpeedtestTier := if tier_rank b <? tier_rank a then b else a.

Definition from_download_speed (download_speed : Z) : SpeedtestTier :=
  if mbps 100 <=? download_speed then Acceptable
  else if mbps 50 <=? download_speed then Degraded
  else if mbps 30 <=? download_speed then Poor
  else Failed.

Definition from_upload_speed (upload_speed : Z) : SpeedtestTier :=
  if mbps 10 <=? upload_speed then Acceptable
  else if mbps 5 <=? upload_speed then Degraded
  else if mbps 2 <=? upload_speed then Poor
  else Failed.

Definition from_latency (latency : Z) : SpeedtestTier :=
  if latency <=? 50 then Acceptable
  else if latency <=? 75 then Degraded
  else if latency <=? 100 then Poor
  else Failed.

Definition calculate_tier (window_size upload_speed_avg_bps download_speed_avg_bps latency_avg_ms : Z)
  : SpeedtestTier :=
  if window_size <? MIN_REQUIRED_SAMPLES then Failed
  else tier_min (tier_min (from_download_speed download_speed_avg_bps) (from_upload_speed upload_speed_avg_bps))
         (from_latency latency_avg_ms).

Definition validity (window_size upload_speed_avg_bps download_speed_avg_bps latency_avg_ms : Z)
  : SpeedtestAvgValidity :=
  if window_size <? MIN_REQUIRED_SAMPLES then TooFewSamples
  else if download_speed_avg_bps <? MIN_DOWNLOAD then SlowDownloadSpeed
  else if upload_speed_avg_bps <? MIN_UPLOAD then SlowUploadSpeed
  else if MAX_LATENCY <? latency_avg_ms then HighLatency
  else AvgValid.

Section Averages.
Context {dec : Type} {D : Decimal dec}.

Definition into_multiplier (t : SpeedtestTier) : dec :=
  match t with
  | Acceptable => dec_new 10 1
  | Degraded => dec_new 5 1
  | Poor => dec_new 25 2
  | Failed => dec_new 0 1
  end.

Record SpeedtestAverage : Type := mkAverage {
  sa_pubkey : PublicKeyBinary;
  sa_window_size : Z;
  sa_upload_speed_avg_bps : Z;
  sa_download_speed_avg_bps : Z;
  sa_latency_avg_ms : Z;
  sa_validity : SpeedtestAvgValidity;
  sa_reward_multiplier : dec;
  sa_speedtests : list CellSpeedtest
}.

(** The loop of [SpeedtestAverage::from]: id, window size and the wrapping sums
    of upload, download and latency. *)
Definition average_step (acc : PublicKeyBinary * Z * Z * Z * Z) (report : CellSpeedtest)
  : PublicKeyBinary * Z * Z * Z * Z :=
  let '(id, window_size, sum_upload, sum_download, sum_latency) := acc in
  (st_pubkey report, window_size + 1, u64_add sum_upload (st_upload_speed report),
   u64_add sum_download (st_download_speed report), u32_add sum_latency (st_latency report)).

Definition average_from (speedtests : list CellSpeedtest) : SpeedtestAverage :=
  let '(id, window_size, sum_upload, sum_download, sum_latency) :=
    fold_left average_step speedtests ("", 0, 0, 0, 0) in
  if 0 <? window_size then
    let upload_speed_avg_bps := sum_upload / window_size in
    let download_speed_avg_bps := sum_download / window_size in
    let latency_avg_ms := sum_latency / window_size in
    mkAverage id window_size upload_speed_avg_bps download_speed_avg_bps latency_avg_ms
      (validity window_size upload_speed_avg_bps download_speed_avg_bps latency_avg_ms)
      (into_multiplier (calculate_tier window_size upload_speed_avg_bps download_speed_avg_bps latency_avg_ms))
      speedtests
  else mkAverage id 0 sum_upload sum_download sum_latency TooFewSamples dec_zero speedtests.

(** ** The table and its queries *)

Definition SPEEDTEST_AVG_MAX_DATA_POINTS : nat := 6.

Record SpeedtestRow : Type := mkSpeedtestRow {
  row_pubkey : PublicKeyBinary;
  row_upload_speed : Z;                     (* bigint *)
  row_download_speed : Z;                   (* bigint *)
  row_latency : Z;                          (* integer *)
  row_serial_num : string;
  row_timestamp : Z
}.

Abbreviation speedtest_table := (gmap (PublicKeyBinary * Z) SpeedtestRow).

(** [FromRow for Speedtest] *)
Definition speedtest_from_row (row : SpeedtestRow) : CellSpeedtest :=
  mkSpeedtest (row_pubkey row) (row_serial_num row) (row_timestamp row) (as_u64 (row_upload_speed row))
    (as_u64 (row_download_speed row)) (as_u32 (row_latency row)).

Definition save_speedtest (t : speedtest_table) (speedtest : CellSpeedtest) : speedtest_table :=
  let key := (st_pubkey speedtest, st_timestamp speedtest) in
  match t !! key with
  | Some _ => t
  | None =>
      <[key := mkSpeedtestRow (st_pubkey speedtest) (as_i64 (st_upload_speed speedtest))
          (as_i64 (st_download_speed speedtest)) (as_i32 (st_latency speedtest)) (st_serial speedtest)
          (st_timestamp speedtest)]> t
  end.

Definition speedtest_rows (t : speedtest_table) : list SpeedtestRow := (map_to_list t).*2.

(** The latest rows of a hotspot among some rows: ordered by time descending, the
    first six. *)
Definition latest_rows (pubkey : PublicKeyBinary) (rs : list SpeedtestRow) : list SpeedtestRow :=
  take SPEEDTEST_AVG_MAX_DATA_POINTS
    (sort_by_key (fun r => - row_timestamp r) (List.filter (fun r => String.eqb (row_pubkey r) pubkey) rs)).

Definition get_latest_speedtests_for_pubkey (t : speedtest_table) (pubkey : PublicKeyBinary) (timestamp : Z)
  : list CellSpeedtest :=
  speedtest_from_row <$>
    latest_rows pubkey (List.filter (fun r => (timestamp - hours SPEEDTEST_LAPSE <=? row_timestamp r)
                                              && (row_timestamp r <=? timestamp)) (speedtest_rows t)).

(** The rows of each hotspot, numbered by time descending, up to the sixth. *)
Definition aggregate_epoch_speedtests (t : speedtest_table) (epoch_end : Z)
  : gmap PublicKeyBinary (list CellSpeedtest) :=
  let start := epoch_end - hours SPEEDTEST_LAPSE in
  let rs := List.filter (fun r => (start <=? row_timestamp r) && (row_timestamp r <? epoch_end))
              (speedtest_rows t) in
  fold_left (fun m r => <[row_pubkey r := speedtest_from_row <$> latest_rows (row_pubkey r) rs]> m) rs ∅.

Definition aggregate_epoch_averages (t : speedtest_table) (epoch_end : Z) : gmap PublicKeyBinary SpeedtestAverage :=
  average_from <$> aggregate_epoch_speedtests t epoch_end.

Definition get_average (averages : gmap PublicKeyBinary SpeedtestAverage) (pub_key : PublicKeyBinary)
  : option SpeedtestAverage := averages !! pub_key.

Definition clear_speedtests (t : speedtest_table) (epoch_end : Z) : speedtest_table :=
  filter (fun kv => epoch_end - hours SPEEDTEST_LAPSE <= row_timestamp kv.2) t.

(** ** Processing a file *)

Inductive SpeedtestVerificationResult : Type := SpeedtestValid | SpeedtestGatewayNotFound.

Record VerifiedSpeedtest : Type := mkVerifiedSpeedtest {
  vs_report : SpeedtestIngestMsg;
  vs_result : SpeedtestVerificationResult;
  vs_timestamp : Z
}.

(** The [proto::SpeedtestAvg] written for an average. *)
Record SpeedtestAvgMsg : Type := mkAvgMsg {
  am_average : SpeedtestAverage;
  am_timestamp : Z
}.

Record speedtest_state : Type := mkSpeedtestState {
  ss_table : speedtest_table;
  ss_avg_sink : list SpeedtestAvgMsg;
  ss_verified_sink : list VerifiedSpeedtest
}.

Section Processing.
(** What the gateway service answers, and the clock at each report. *)
Context {E : Type} (resolve : PublicKeyBinary -> result bool E) (clock : nat -> Z).

Definition validate_speedtest (speedtest : CellSpeedtestIngestReport)
  : result SpeedtestVerificationResult E :=
  let? found := resolve (st_pubkey (si_report speedtest)) in
  Ok (if (found : bool) then SpeedtestValid else SpeedtestGatewayNotFound).

Definition write_verified_speedtest (st : speedtest_state) (report : CellSpeedtestIngestReport)
    (result : SpeedtestVerificationResult) : speedtest_state :=
  mkSpeedtestState (ss_table st) (ss_avg_sink st)
    (ss_verified_sink st ++
       [mkVerifiedSpeedtest (speedtest_ingest_into report) result
          (as_u64 (clock (length (ss_verified_sink st)) / nanos_per_milli))]).

Definition process_report (st : speedtest_state) (speedtest_report : CellSpeedtestIngestReport)
  : result speedtest_state E :=
  let? result := validate_speedtest speedtest_report in
  let st :=
    match result with
    | SpeedtestValid =>
        let report := si_report speedtest_report in
        let table := save_speedtest (ss_table st) report in
        let latest_speedtests := get_latest_speedtests_for_pubkey table (st_pubkey report) (st_timestamp report) in
        let average := average_from latest_speedtests in
        mkSpeedtestState table
          (ss_avg_sink st ++
             [mkAvgMsg average (encode_timestamp (clock (length (ss_verified_sink st))))])
          (ss_verified_sink st)
    | SpeedtestGatewayNotFound => st
    end in
  Ok (write_verified_speedtest st speedtest_report result).

(** The loop with the state it leaves when a report fails. *)
Fixpoint process_reports (st : speedtest_state) (reports : list CellSpeedtestIngestReport)
  : speedtest_state * result unit E :=
  match reports with
  | [] => (st, Ok tt)
  | r :: reports =>
      match process_report st r with
      | Ok st => process_reports st reports
      | Err e => (st, Err e)
      end
  end.

(** [SpeedtestDaemon::process_file]: an error drops the transaction, not what was
    handed to the sinks. *)
Definition process_speedtest_file (st : speedtest_state) (reports : list CellSpeedtestIngestReport)
  : speedtest_state * result unit E :=
  let '(st', r) := process_reports st reports in
  match r with
  | Ok _ => (st', Ok tt)
  | Err e => (mkSpeedtestState (ss_table st) (ss_avg_sink st') (ss_verified_sink st'), Err e)
  end.
End Processing.
End Averages.

Arguments SpeedtestAverage dec : clear implicits.
Arguments speedtest_state dec : clear implicits.

(** ** Tiers *)

(** The thresholds of the tiers that earn a reward. *)
Definition min_download (t : SpeedtestTier) : Z :=
  match t with Acceptable => mbps 100 | Degraded => mbps 50 | _ => mbps 30 end.
Definition min_upload (t : SpeedtestTier) : Z :=
  match t with Acceptable => mbps 10 | Degraded => mbps 5 | _ => mbps 2 end.
Definition max_latency (t : SpeedtestTier) : Z :=
  match t with Acceptable => 50 | Degraded => 75 | _ => 100 end.

Lemma tier_min_rank a b t :
  tier_rank t <= tier_rank (tier_min a b) <-> tier_rank t <= tier_rank a /\ tier_rank t <= tier_rank b.
Proof. unfold tier_min. destruct (Z.ltb_spec (tier_rank b) (tier_rank a)); lia. Qed.

Lemma calculate_tier_spec w u d l t :
  t <> Failed ->
  tier_rank t <= tier_rank (calculate_tier w u d l) <->
  MIN_REQUIRED_SAMPLES <= w /\ min_download t <= d /\ min_upload t <= u /\ l <= max_latency t.
Proof.
  intros Ht. unfold calculate_tier. destruct (Z.ltb_spec w MIN_REQUIRED_SAMPLES) as [Hw|Hw].
  { split; [|lia]. destruct t; [done|..]; cbn; lia. }
  rewrite !tier_min_rank. unfold from_download_speed, from_upload_speed, from_latency.
  unfold min_download, min_upload, max_latency, mbps.
  destruct (Z.leb_spec (100 * 125000) d), (Z.leb_spec (50 * 125000) d), (Z.leb_spec (30 * 125000) d); try lia;
  destruct (Z.leb_spec (10 * 125000) u), (Z.leb_spec (5 * 125000) u), (Z.leb_spec (2 * 125000) u); try lia;
  destruct (Z.leb_spec l 50), (Z.leb_spec l 75), (Z.leb_spec l 100); try lia;
  destruct t; cbn; try done; lia.
Qed.

Lemma validity_spec w u d l :
  validity w u d l = AvgValid <-> tier_rank Poor <= tier_rank (calculate_tier w u d l).
Proof.
  rewrite calculate_tier_spec by done. unfold validity, MIN_DOWNLOAD, MIN_UPLOAD, MAX_LATENCY, min_download, min_upload, max_latency.
  destruct (Z.ltb_spec w MIN_REQUIRED_SAMPLES), (Z.ltb_spec d (mbps 30)), (Z.ltb_spec u (mbps 2)), (Z.ltb_spec 100 l);
    (split; [intros HA; try discriminate HA; lia|intros HB; first [done|lia]]).
Qed.

Lemma fold_average_step l id n u d lat :
  is_u64 u -> is_u64 d -> is_u32 lat ->
  exists id', fold_left average_step l (id, n, u, d, lat) =
    (id', n + Z.of_nat (length l), wrap 64 (u + sumZ st_upload_speed l), wrap 64 (d + sumZ st_download_speed l),
     wrap 32 (lat + sumZ st_latency l)).
Proof.
  revert id n u d lat. induction l as [|r l IH]; intros id n u d lat Hu Hd Hl.
  - exists id. cbn. by rewrite !Z.add_0_r, !wrap_small.
  - cbn [fold_left average_step]. unfold u64_add, u32_add.
    destruct (IH (st_pubkey r) (n + 1) (wrap 64 (u + st_upload_speed r)) (wrap 64 (d + st_download_speed r))
      (wrap 32 (lat + st_latency r))) as (id' & E); [by apply wrap_range..|].
    exists id'. rewrite E, !sumZ_cons, !wrap_add_l, !Z.add_assoc.
    by replace (n + 1 + Z.of_nat (length l)) with (n + Z.of_nat (length (r :: l))) by (cbn [length]; lia).
Qed.

Section AverageTheorems.
Context {dec : Type} {D : Decimal dec} {DL : DecimalLaws dec}.
Implicit Types (l : list CellSpeedtest).

(** What the multipliers are worth. *)
Definition tier_value (t : SpeedtestTier) : Q :=
  match t with Acceptable => 1 | Degraded => 1 # 2 | Poor => 1 # 4 | Failed => 0 end.

Lemma into_multiplier_val t : (dval (into_multiplier (dec := dec) t) == tier_value t)%Q.
Proof. destruct t; cbn; rewrite dec_new_val by lia; reflexivity. Qed.

Lemma tier_value_rank a b : (tier_value a <= tier_value b)%Q <-> tier_rank a <= tier_rank b.
Proof. destruct a, b; cbn; (split; [try lia; intros HA; exfalso; apply HA; reflexivity|intros HB; try lia; by vm_compute]). Qed.

(** The mean of a column over the window, rounded down. *)
Definition mean (f : CellSpeedtest -> Z) l : Z := sumZ f l / Z.of_nat (length l).

Lemma average_from_eq l :
  l <> [] ->
  exists id, average_from (dec := dec) l =
    let n := Z.of_nat (length l) in
    let u := wrap 64 (sumZ st_upload_speed l) / n in
    let d := wrap 64 (sumZ st_download_speed l) / n in
    let lat := wrap 32 (sumZ st_latency l) / n in
    mkAverage id n u d lat (validity n u d lat) (into_multiplier (calculate_tier n u d lat)) l.
Proof.
  intros Hl. unfold average_from. destruct (fold_average_step l "" 0 0 0 0) as (id & E); [done..|].
  unfold PublicKeyBinary in *. rewrite E, !Z.add_0_l. exists id.
  rewrite (proj2 (Z.ltb_lt _ _)); [done|]. destruct l; [done|cbn [length]; lia].
Qed.

Lemma average_from_mean l :
  l <> [] -> is_u64 (sumZ st_upload_speed l) -> is_u64 (sumZ st_download_speed l) -> is_u32 (sumZ st_latency l) ->
  exists id, average_from (dec := dec) l =
    let n := Z.of_nat (length l) in
    let u := mean st_upload_speed l in let d := mean st_download_speed l in let lat := mean st_latency l in
    mkAverage id n u d lat (validity n u d lat) (into_multiplier (calculate_tier n u d lat)) l.
Proof.
  intros Hl Hu Hd Hlat. destruct (average_from_eq l Hl) as (id & ->). exists id.
  by rewrite !wrap_small.
Qed.

(** While the sums do not overflow, an average is valid exactly when it earns
    something, and it earns at least the multiplier of a tier exactly when there
    are two samples or more and the mean download, upload and latency all meet
    the thresholds of the tier. *)
Theorem speedtest_average_spec l t :
  is_u64 (sumZ st_upload_speed l) -> is_u64 (sumZ st_download_speed l) -> is_u32 (sumZ st_latency l) ->
  t <> Failed ->
  let a := average_from (dec := dec) l in
  (sa_validity a = AvgValid <-> (0 < dval (sa_reward_multiplier a))%Q) /\
  ((tier_value t <= dval (sa_reward_multiplier a))%Q <->
   2 <= Z.of_nat (length l) /\ min_download t <= mean st_download_speed l /\
   min_upload t <= mean st_upload_speed l /\ mean st_latency l <= max_latency t).
Proof.
  intros Hu Hd Hlat Ht a. subst a. destruct (decide (l = [])) as [->|Hl].
  { cbn. rewrite dec_zero_val. split; [split; [done|intros HA; by exfalso; apply (Qlt_irrefl 0)]|].
    split; [|lia]. destruct t; [done|..]; intros HA; exfalso; by apply HA. }
  destruct (average_from_mean l Hl Hu Hd Hlat) as (id & ->). cbn [sa_validity sa_reward_multiplier].
  rewrite !into_multiplier_val, validity_spec, tier_value_rank, (calculate_tier_spec _ _ _ _ t) by done.
  split; [|done].
  destruct (calculate_tier _ _ _ _); cbn; (split; [try lia; done|]); intros HA; try lia; by vm_compute in HA.
Qed.

(** The sum of latencies is a 32-bit integer that wraps, and latencies are
    what the hotspot reports: two tests of 2^31 ms average to 0 ms and earn the
    full multiplier. *)
Theorem latency_sum_wraps (key serial : string) (ts1 ts2 up1 up2 down1 down2 : Z) :
  mbps 10 <= up1 < 2 ^ 62 -> mbps 10 <= up2 < 2 ^ 62 -> mbps 100 <= down1 < 2 ^ 62 -> mbps 100 <= down2 < 2 ^ 62 ->
  let a := average_from (dec := dec)
             [mkSpeedtest key serial ts1 up1 down1 (2 ^ 31); mkSpeedtest key serial ts2 up2 down2 (2 ^ 31)] in
  sa_latency_avg_ms a = 0 /\ sa_validity a = AvgValid /\ (dval (sa_reward_multiplier a) == 1)%Q.
Proof.
  intros H1 H2 H3 H4. unfold mbps in *. cbv zeta.
  edestruct average_from_eq as (id & ->); [discriminate|]. cbn [sumZ foldr st_upload_speed st_download_speed
    st_latency length]. change (Z.of_nat 2) with 2. rewrite !Z.add_0_r, !(wrap_small 64) by lia.
  change (wrap 32 (2 ^ 31 + 2 ^ 31) / 2) with 0. cbn [sa_latency_avg_ms sa_validity sa_reward_multiplier].
  rewrite into_multiplier_val, validity_spec. split; [done|].
  assert (tier_rank Acceptable <= tier_rank (calculate_tier 2 ((up1 + up2) / 2) ((down1 + down2) / 2) 0)) as Hr.
  { apply calculate_tier_spec; [done|]. unfold MIN_REQUIRED_SAMPLES, min_download, min_upload, max_latency, mbps. mlia. }
  destruct (calculate_tier _ _ _ _); cbn in Hr |- *; [lia..|]. split; [lia|reflexivity].
Qed.
End AverageTheorems.

(** ** The tests of an epoch *)

Section Epochs.
Implicit Types (t : gmap (PublicKeyBinary * Z) SpeedtestRow) (rs : list SpeedtestRow).

(** The rows of a hotspot in the window of an epoch. *)
Definition window_rows t (epoch_end : Z) (pk : PublicKeyBinary) : list SpeedtestRow :=
  List.filter (fun r => String.eqb (row_pubkey r) pk)
    (List.filter (fun r => (epoch_end - hours SPEEDTEST_LAPSE <=? row_timestamp r) && (row_timestamp r <? epoch_end))
       (speedtest_rows t)).

Lemma fold_insert_lookup {A} (key : A -> string) {B} (f : string -> B) (l : list A) (m : gmap string B) k :
  fold_left (fun m a => <[key a := f (key a)]> m) l m !! k =
  if existsb (fun a => String.eqb (key a) k) l then Some (f k) else m !! k.
Proof.
  revert m. induction l as [|a l IH]; intros m; [done|]. cbn [fold_left existsb]. rewrite IH.
  destruct (String.eqb_spec (key a) k) as [->|Hne]; cbn.
  - destruct (existsb _ l); [done|]. by rewrite lookup_insert_eq.
  - destruct (existsb _ l); [done|]. by rewrite lookup_insert_ne.
Qed.

Lemma latest_rows_spec pk rs :
  let w := List.filter (fun r => String.eqb (row_pubkey r) pk) rs in
  exists dropped, w ≡ₚ latest_rows pk rs ++ dropped /\
    length (latest_rows pk rs) = Nat.min SPEEDTEST_AVG_MAX_DATA_POINTS (length w) /\
    forall r r', r ∈ latest_rows pk rs -> r' ∈ dropped -> row_timestamp r' <= row_timestamp r.
Proof.
  intros w. unfold latest_rows. fold w.
  pose proof (sort_by_key_perm (fun r => - row_timestamp r) w) as Hp.
  pose proof (sort_by_key_sorted (fun r => - row_timestamp r) w) as Hs.
  set (s := sort_by_key _ w) in *. exists (drop SPEEDTEST_AVG_MAX_DATA_POINTS s).
  split; [by rewrite take_drop|]. split; [rewrite length_take; by rewrite Hp|].
  intros r r' Hr Hr'. rewrite <- (take_drop SPEEDTEST_AVG_MAX_DATA_POINTS s) in Hs.
  pose proof (StronglySorted_app_le _ _ _ r r' Hs Hr Hr') as Hle. cbn in Hle. lia.
Qed.

(** The averages of an epoch are taken over the right tests: a hotspot has an
    entry exactly when it has a test in the 48 hours before the end of the epoch,
    and its entry holds the latest of them, six at most. *)
Theorem epoch_speedtests_spec t epoch_end pk :
  match aggregate_epoch_speedtests t epoch_end !! pk with
  | None => window_rows t epoch_end pk = []
  | Some tests =>
      exists kept dropped,
        tests = speedtest_from_row <$> kept /\ kept <> [] /\ window_rows t epoch_end pk ≡ₚ kept ++ dropped /\
        length kept = Nat.min SPEEDTEST_AVG_MAX_DATA_POINTS (length (window_rows t epoch_end pk)) /\
        forall r r', r ∈ kept -> r' ∈ dropped -> row_timestamp r' <= row_timestamp r
  end.
Proof.
  unfold aggregate_epoch_speedtests, window_rows.
  set (rs := List.filter _ (speedtest_rows t)).
  rewrite (fold_insert_lookup row_pubkey (fun k => speedtest_from_row <$> latest_rows k rs) rs ∅ pk).
  destruct (existsb _ rs) eqn:E.
  - destruct (latest_rows_spec pk rs) as (dropped & Hp & Hlen & Hle).
    exists (latest_rows pk rs), dropped. split; [done|]. split; [|done]. intros Hnil. rewrite Hnil in Hlen.
    apply existsb_exists in E as (r & Hin & Hr).
    assert (In r (List.filter (fun r => String.eqb (row_pubkey r) pk) rs)) as Hf by (by apply filter_In).
    destruct (List.filter _ rs); [done|]. cbn in Hlen. lia.
  - rewrite lookup_empty. clear -E. induction rs as [|r rs IH]; [done|]. cbn in E |- *.
    apply orb_false_iff in E as [-> E]. by apply IH.
Qed.
End Epochs.

(** ** A file is processed as a whole or not at all *)

Section Files.
Context {dec : Type} {D : Decimal dec} {E : Type}.
Context (resolve : PublicKeyBinary -> result bool E) (clock : nat -> Z).
Implicit Types (st : speedtest_state dec).

Definition known (r : CellSpeedtestIngestReport) : bool :=
  match resolve (st_pubkey (si_report r)) with Ok b => b | Err _ => false end.

(** The verdicts written for some reports, and the tests saved. *)
Definition verdict (r : CellSpeedtestIngestReport) : SpeedtestIngestMsg * SpeedtestVerificationResult :=
  (speedtest_ingest_into r, if known r then SpeedtestValid else SpeedtestGatewayNotFound).
Definition saved (t : gmap (PublicKeyBinary * Z) SpeedtestRow) (reports : list CellSpeedtestIngestReport)
  : gmap (PublicKeyBinary * Z) SpeedtestRow :=
  fold_left save_speedtest (si_report <$> List.filter known reports) t.

Definition written st : list (SpeedtestIngestMsg * SpeedtestVerificationResult) :=
  (fun v => (vs_report v, vs_result v)) <$> ss_verified_sink st.

Lemma process_reports_spec reports : forall st,
  match process_reports resolve clock st reports with
  | (st', Ok _) =>
      written st' = written st ++ (verdict <$> reports) /\ ss_table st' = saved (ss_table st) reports
  | (st', Err e) =>
      exists pre r rest, reports = pre ++ r :: rest /\ resolve (st_pubkey (si_report r)) = Err e /\
        written st' = written st ++ (verdict <$> pre)
  end.
Proof.
  induction reports as [|r reports IH]; intros st; [by cbn; rewrite app_nil_r|].
  cbn [process_reports]. unfold process_report, validate_speedtest.
  destruct (resolve (st_pubkey (si_report r))) as [b|e] eqn:Er; cbn [result_bind].
  2: { exists [], r, reports. split; [done|]. split; [done|]. cbn. by rewrite app_nil_r. }
  assert (known r = b) as Hk by (unfold known; by rewrite Er).
  match goal with |- context [process_reports resolve clock ?s reports] => specialize (IH s); set (s1 := s) in * end.
  assert (written s1 = written st ++ [verdict r]) as Hw.
  { unfold written, verdict, s1, write_verified_speedtest. rewrite Hk.
    destruct b; cbn [ss_verified_sink]; by rewrite fmap_app. }
  assert (ss_table s1 = saved (ss_table st) [r]) as Ht.
  { unfold saved, s1, write_verified_speedtest. cbn [List.filter ss_table]. rewrite Hk. by destruct b. }
  destruct (process_reports resolve clock s1 reports) as [st' [u|e]].
  - destruct IH as [IH1 IH2]. rewrite IH1, IH2, Hw, Ht, <- app_assoc. split; [done|].
    unfold saved. cbn [List.filter]. destruct (known r); [by rewrite fmap_cons|done].
  - destruct IH as (pre & r' & rest & -> & Ee & IH1). exists (r :: pre), r', rest.
    split; [done|]. split; [done|]. by rewrite IH1, Hw, <- app_assoc.
Qed.

(** A file of speedtests is processed as a whole or not at all.  On success
    every report has one verdict, in order, and the tests of known gateways are
    in the table; on an error of the gateway service the table is as before, and
    the error is that of the first report that could not be resolved. *)
Theorem process_speedtest_file_spec st reports :
  match process_speedtest_file resolve clock st reports with
  | (st', Ok _) =>
      written st' = written st ++ (verdict <$> reports) /\ ss_table st' = saved (ss_table st) reports
  | (st', Err e) =>
      ss_table st' = ss_table st /\
      exists pre r rest, reports = pre ++ r :: rest /\ resolve (st_pubkey (si_report r)) = Err e /\
        written st' = written st ++ (verdict <$> pre)
  end.
Proof.
  unfold process_speedtest_file. pose proof (process_reports_spec reports st) as H.
  destruct (process_reports resolve clock st reports) as [st' [[]|e]]; [done|]. by split.
Qed.
End Files.

Module ExampleTests.
Definition test (ts latency : Z) : CellSpeedtest :=
  mkSpeedtest "hs" "s" ts (mbps 12) (mbps 150) latency.
End ExampleTests.

Lemma speedtest_average_spec_witness :
  sa_validity (average_from (dec := Q) [ExampleTests.test 0 40; ExampleTests.test 1 50]) = AvgValid <->
  (0 < dval (sa_reward_multiplier (average_from (dec := Q) [ExampleTests.test 0 40; ExampleTests.test 1 50])))%Q.
Proof.
  refine (proj1 (speedtest_average_spec [ExampleTests.test 0 40; ExampleTests.test 1 50] Acceptable _ _ _ _)); by vm_compute.
Defined.

Lemma latency_sum_wraps_witness :
  sa_latency_avg_ms (average_from (dec := Q) [ExampleTests.test 0 (2 ^ 31); ExampleTests.test 1 (2 ^ 31)]) = 0.
Proof.
  refine (proj1 (latency_sum_wraps (dec := Q) "hs" "s" 0 1 (mbps 12) (mbps 12) (mbps 150) (mbps 150) _ _ _ _));
    by vm_compute.
Defined.
