(* ===== verification/MobileCoverage.v ===== *)
(** * Modelled coverage of mobile radios

    [mobile_verifier/src/coverage.rs]: coverage objects and the hexes they claim,
    the seniority of radios, and the points that the radios covering a hex earn.
    The key types are those of [heartbeats/mod.rs].  A [BinaryHeap] is the list of
    its elements; how it orders equal ones is not specified, so it is a class with
    the documented law.  The theorems: the place of a radio in an outdoor hex is
    the number of radios that outrank it, indoor only the radios of the best
    signal level count, and the points of a hex are bounded. *)

From S2P Require Import Prelude Solana FileStoreTypes Decimal Scheduler.
From Stdlib Require Import Ascii.

Open Scope Z_scope.
Open Scope oracle_scope.

(** ** Radio keys *)

Inductive HbType : Type := HbCbrs | HbWifi.

#[global] Instance HbType_eq_dec : EqDecision HbType.
Proof. solve_decision. Defined.
#[global] Instance HbType_countable : Countable HbType.
Proof.
  apply (inj_countable' (fun t => match t with HbCbrs => true | HbWifi => false end)
           (fun b => if (b : bool) then HbCbrs else HbWifi)).
  by intros [].
Defined.

(** [KeyType], borrowed or owned. *)
Inductive KeyType : Type := KCbrs (cbsd_id : string) | KWifi (key : PublicKeyBinary).

#[global] Instance KeyType_eq_dec : EqDecision KeyType.
Proof. solve_decision. Defined.

(** The text form of a public key. *)
Class KeyText : Type := {
  key_to_string : PublicKeyBinary -> string;
  key_from_str : string -> option PublicKeyBinary;
  key_text_roundtrip k : key_from_str (key_to_string k) = Some k;
  (* base58 leaves out the zero, some letters and all punctuation *)
  key_text_chars s k : key_from_str s = Some k ->
    forall c, c ∈ String.list_ascii_of_string s -> c <> "0"%char /\ c <> "-"%char
}.

Definition key_hb_type (k : KeyType) : HbType := match k with KCbrs _ => HbCbrs | KWifi _ => HbWifi end.
Definition into_cbsd_id (k : KeyType) : option string := match k with KCbrs s => Some s | KWifi _ => None end.
Definition is_wifi (k : KeyType) : bool := match k with KCbrs _ => false | KWifi _ => true end.

(** A key as a [TEXT] column, and read back from it. *)
Definition key_encode `{!KeyText} (k : KeyType) : string :=
  match k with KCbrs s => s | KWifi key => key_to_string key end.
Definition key_decode `{!KeyText} (text : string) : KeyType :=
  match key_from_str text with Some pubkey => KWifi pubkey | None => KCbrs text end.

Definition key_to_id `{!KeyText} (k : KeyType) : string * HbType := (key_encode k, key_hb_type k).

(** ** Coverage objects *)

Inductive SignalLevel : Type := SNone | SLow | SMedium | SHigh.

#[global] Instance SignalLevel_eq_dec : EqDecision SignalLevel.
Proof. solve_decision. Defined.

Definition level_rank (l : SignalLevel) : Z :=
  match l with SNone => 0 | SLow => 1 | SMedium => 2 | SHigh => 3 end.
Definition level_of_rank (r : Z) : SignalLevel :=
  if r =? 0 then SNone else if r =? 1 then SLow else if r =? 2 then SMedium else SHigh.

#[global] Instance SignalLevel_countable : Countable SignalLevel.
Proof. apply (inj_countable' level_rank level_of_rank). by intros []. Defined.

Abbreviation Uuid := string.

Record RadioHexSignalLevel : Type := mkHexSignal {
  hs_location : Z;
  hs_signal_level : SignalLevel;
  hs_signal_power : Z
}.

Record FsCoverageObject : Type := mkCoverageObject {
  fco_pub_key : PublicKeyBinary;
  fco_uuid : Uuid;
  fco_key_type : KeyType;
  fco_coverage_claim_time : Z;
  fco_coverage : list RadioHexSignalLevel;
  fco_indoor : bool;
  fco_trust_score : Z;
  fco_signature : string
}.

Inductive CoverageObjectValidity : Type := CoverageValid | CoverageInvalidPubKey.

Record CoverageObject : Type := mkValidatedCoverage {
  co_coverage_object : FsCoverageObject;
  co_validity : CoverageObjectValidity
}.

(** ** Tables *)

Record CoverageRow : Type := mkCoverageRow {
  cr_radio_type : HbType;
  cr_radio_key : string;
  cr_indoor : bool;
  cr_coverage_claim_time : Z;
  cr_trust_score : Z;
  cr_inserted_at : Z;
  cr_invalidated_at : option Z
}.

Record HexRow : Type := mkHexRow { hr_signal_level : SignalLevel; hr_signal_power : Z }.

Record SeniorityRow : Type := mkSeniorityRow {
  sr_uuid : Uuid;
  sr_last_heartbeat : Z;
  sr_inserted_at : Z;
  sr_update_reason : Z
}.

Record coverage_tables : Type := mkCoverageTables {
  t_coverage_objects : gmap Uuid CoverageRow;
  t_hexes : gmap (Uuid * Z) HexRow;
  t_seniority : gmap (string * HbType * Z) SeniorityRow     (* radio_key, radio_type, seniority_ts *)
}.

(** [on conflict do update] refuses to touch a row twice in one statement. *)
Inductive CoverageError : Type := RowAffectedTwice | AuthFailed.

Definition COVERAGE_MAX_BATCH_ENTRIES : nat := Z.to_nat (65535 / 4).

(** [slice::chunks]; [fuel] is the length of the list. *)
Fixpoint chunks_fuel {A} (fuel n : nat) (l : list A) : list (list A) :=
  match fuel, l with
  | _, [] => []
  | O, _ => []
  | S fuel, _ => take n l :: chunks_fuel fuel n (drop n l)
  end.
Definition chunks {A} (n : nat) (l : list A) : list (list A) := chunks_fuel (length l) n l.

Definition hex_key (uuid : Uuid) (hex : RadioHexSignalLevel) : Uuid * Z := (uuid, as_i64 (hs_location hex)).

Definition insert_hexes (uuid : Uuid) (t : gmap (Uuid * Z) HexRow) (hexes : list RadioHexSignalLevel)
  : result (gmap (Uuid * Z) HexRow) CoverageError :=
  if bool_decide (NoDup (hex_key uuid <$> hexes)) then
    Ok (fold_left (fun t hex => <[hex_key uuid hex := mkHexRow (hs_signal_level hex) (hs_signal_power hex)]> t)
          hexes t)
  else Err RowAffectedTwice.

Fixpoint insert_chunks (uuid : Uuid) (t : gmap (Uuid * Z) HexRow) (cs : list (list RadioHexSignalLevel))
  : result (gmap (Uuid * Z) HexRow) CoverageError :=
  match cs with
  | [] => Ok t
  | c :: cs => let? t := insert_hexes uuid t c in insert_chunks uuid t cs
  end.

Section Tables.
Context {KT : KeyText}.

(** [CoverageObject::save] *)
Definition save_coverage (t : coverage_tables) (now : Z) (self : CoverageObject)
  : result coverage_tables CoverageError :=
  let o := co_coverage_object self in
  let key := fco_key_type o in
  let invalidated_at :=
    match t_coverage_objects t !! fco_uuid o with Some old => cr_invalidated_at old | None => None end in
  let row := mkCoverageRow (key_hb_type key) (key_encode key) (fco_indoor o) (fco_coverage_claim_time o)
               (as_i32 (fco_trust_score o)) now invalidated_at in
  let? hexes := insert_chunks (fco_uuid o) (t_hexes t) (chunks COVERAGE_MAX_BATCH_ENTRIES (fco_coverage o)) in
  Ok (mkCoverageTables (<[fco_uuid o := row]> (t_coverage_objects t)) hexes (t_seniority t)).

Definition coverage_is_valid (self : CoverageObject) : bool :=
  match co_validity self with CoverageValid => true | CoverageInvalidPubKey => false end.

(** [auth] is the authorization service for the role [MobilePcs]. *)
Definition validate_coverage (auth : PublicKeyBinary -> option bool) (o : FsCoverageObject)
  : result CoverageObject CoverageError :=
  let? authorized := ok_or (auth (fco_pub_key o)) AuthFailed in
  Ok (mkValidatedCoverage o (if (authorized : bool) then CoverageValid else CoverageInvalidPubKey)).

(** The loop of [CoverageDaemon::process_file]; the sink holds what was written,
    and [clock] is the time at each object. *)
Fixpoint process_coverage (auth : PublicKeyBinary -> option bool) (clock : nat -> Z) (t : coverage_tables)
    (sink : list CoverageObject) (reports : list FsCoverageObject)
  : coverage_tables * list CoverageObject * result unit CoverageError :=
  match reports with
  | [] => (t, sink, Ok tt)
  | r :: reports =>
      match validate_coverage auth r with
      | Err e => (t, sink, Err e)
      | Ok co =>
          let sink := sink ++ [co] in
          if coverage_is_valid co then
            match save_coverage t (clock (length sink)) co with
            | Ok t => process_coverage auth clock t sink reports
            | Err e => (t, sink, Err e)
            end
          else process_coverage auth clock t sink reports
      end
  end.

(** An error drops the transaction. *)
Definition process_coverage_file (auth : PublicKeyBinary -> option bool) (clock : nat -> Z) (t : coverage_tables)
    (sink : list CoverageObject) (reports : list FsCoverageObject)
  : coverage_tables * list CoverageObject * result unit CoverageError :=
  match process_coverage auth clock t sink reports with
  | (t', sink', Ok _) => (t', sink', Ok tt)
  | (_, sink', Err e) => (t, sink', Err e)
  end.

(** [delete from hexes where uuid in (...)] and from [coverage_objects]. *)
Definition clear_coverage_objects (t : coverage_tables) (timestamp : Z) : coverage_tables :=
  let stale row := match cr_invalidated_at row with Some at_ => at_ <? timestamp | None => false end in
  mkCoverageTables
    (filter (fun kv => stale kv.2 = false) (t_coverage_objects t))
    (filter (fun kv => from_option stale false (t_coverage_objects t !! kv.1.1) = false) (t_hexes t))
    (t_seniority t).

(** ** Seniority *)

Record Seniority : Type := mkSeniority {
  sen_uuid : Uuid;
  sen_seniority_ts : Z;
  sen_last_heartbeat : Z;
  sen_inserted_at : Z;
  sen_update_reason : Z
}.

Definition seniority_rows (t : coverage_tables) (key : KeyType) : list Seniority :=
  (fun kv => mkSeniority (sr_uuid kv.2) kv.1.2 (sr_last_heartbeat kv.2) (sr_inserted_at kv.2)
               (sr_update_reason kv.2)) <$>
  List.filter (fun kv => String.eqb kv.1.1.1 (key_encode key)) (map_to_list (t_seniority t)).

(** [order by last_heartbeat desc limit 1] *)
Definition fetch_latest (t : coverage_tables) (key : KeyType) : option Seniority :=
  head (sort_by_key (fun s => - sen_last_heartbeat s) (seniority_rows t key)).

(** [inserted_at <= period_end order by inserted_at desc limit 1]; no row is an error. *)
Definition fetch_seniority (t : coverage_tables) (key : KeyType) (period_end : Z) : option Seniority :=
  head (sort_by_key (fun s => - sen_inserted_at s)
          (List.filter (fun s => sen_inserted_at s <=? period_end) (seniority_rows t key))).

Record HexCoverage : Type := mkHexCoverage {
  hc_uuid : Uuid;
  hc_hex : Z;
  hc_indoor : bool;
  hc_radio_key : KeyType;
  hc_signal_level : SignalLevel;
  hc_signal_power : Z;
  hc_coverage_claim_time : Z;
  hc_inserted_at : Z
}.

(** [covered_hex_stream]: older seniorities of the radio are deleted, and the
    hexes of its coverage object are returned with its seniority as the claim
    time. *)
Definition covered_hex_stream (t : coverage_tables) (key : KeyType) (coverage_obj : Uuid) (seniority : Seniority)
  : coverage_tables * list HexCoverage :=
  let t' := mkCoverageTables (t_coverage_objects t) (t_hexes t)
              (filter (fun kv => ~ (sr_inserted_at kv.2 < sen_inserted_at seniority /\ kv.1.1.1 = key_encode key))
                 (t_seniority t)) in
  let hexes :=
    match t_coverage_objects t !! coverage_obj with
    | Some row =>
        if String.eqb (cr_radio_key row) (key_encode key) then
          (fun kv => mkHexCoverage coverage_obj kv.1.2 (cr_indoor row) (key_decode (cr_radio_key row))
                       (hr_signal_level kv.2) (hr_signal_power kv.2) (sen_seniority_ts seniority)
                       (cr_inserted_at row)) <$>
          List.filter (fun kv => String.eqb kv.1.1 coverage_obj) (map_to_list (t_hexes t))
        else []
    | None => []
    end in
  (t', hexes).
End Tables.

(** ** Points *)

(** [CellIndex::try_from(hex)] succeeds. *)
Class CellIndex : Type := { cell_valid : Z -> bool }.

(** [BinaryHeap::into_sorted_vec]: ascending, with equal elements in any order. *)
Class BinaryHeap : Type := {
  into_sorted_vec : forall {A : Type}, (A -> A -> bool) -> list A -> list A;
  into_sorted_vec_perm {A} (le : A -> A -> bool) l : into_sorted_vec le l ≡ₚ l;
  into_sorted_vec_sorted {A} (le : A -> A -> bool) l :
    (forall a b, le a b = true \/ le b a = true) ->
    (forall a b c, le a b = true -> le b c = true -> le a c = true) ->
    StronglySorted (fun a b => le a b = true) (into_sorted_vec le l)
}.

#[global] Instance insertion_heap : BinaryHeap.
Proof.
  refine {| into_sorted_vec := fun A le l => sort_by le l |}.
  - intros A le l. apply sort_by_perm.
  - intros A le l Ht Htr. apply sort_by_sorted; [|exact Htr].
    intros a b E. destruct (Ht a b); [congruence|done].
Defined.

Section Points.
Context {dec : Type} {D : Decimal dec} {CI : CellIndex} {BH : BinaryHeap}.

Record IndoorCoverageLevel : Type := mkIndoor {
  ic_radio_key : KeyType;
  ic_seniority_timestamp : Z;
  ic_hotspot : PublicKeyBinary;
  ic_signal_level : SignalLevel
}.

(** [Ord]: by seniority. *)
Definition indoor_le (a b : IndoorCoverageLevel) : bool :=
  ic_seniority_timestamp a <=? ic_seniority_timestamp b.

Definition indoor_coverage_points (self : IndoorCoverageLevel) : dec :=
  match ic_signal_level self with
  | SHigh => dec_of_Z 400
  | SLow => dec_of_Z 100
  | _ => dec_of_Z 0
  end.

Record OutdoorCoverageLevel : Type := mkOutdoor {
  oc_radio_key : KeyType;
  oc_seniority_timestamp : Z;
  oc_hotspot : PublicKeyBinary;
  oc_signal_power : Z;
  oc_signal_level : SignalLevel
}.

(** [Ord]: by power, the highest first, then by seniority. *)
Definition outdoor_le (a b : OutdoorCoverageLevel) : bool :=
  if oc_signal_power a =? oc_signal_power b then oc_seniority_timestamp a <=? oc_seniority_timestamp b
  else oc_signal_power b <? oc_signal_power a.

Definition outdoor_coverage_points (self : OutdoorCoverageLevel) : dec :=
  match oc_signal_level self with
  | SHigh => dec_of_Z 16
  | SMedium => dec_of_Z 8
  | SLow => dec_of_Z 4
  | SNone => dec_of_Z 0
  end.

Record CoverageReward : Type := mkCoverageReward {
  cw_radio_key : KeyType;
  cw_points : dec;
  cw_hotspot : PublicKeyBinary
}.

Record CoveredHexes : Type := mkCoveredHexes {
  ch_indoor : gmap Z (gmap SignalLevel (list IndoorCoverageLevel));
  ch_outdoor : gmap Z (list OutdoorCoverageLevel)
}.

Definition covered_hexes_default : CoveredHexes := mkCoveredHexes ∅ ∅.

Definition MAX_INDOOR_RADIOS_PER_RES12_HEX : nat := 5.
Definition MAX_OUTDOOR_RADIOS_PER_RES12_HEX : nat := 3.
Definition OUTDOOR_REWARD_WEIGHTS : list dec := [dec_new 10 1; dec_new 75 2; dec_new 25 2].

(** One hex of [aggregate_coverage]; [None] is the panic on an invalid cell. *)
Definition add_hex (hotspot : PublicKeyBinary) (self : CoveredHexes) (h : HexCoverage) : option CoveredHexes :=
  let cell := as_u64 (hc_hex h) in
  if negb (cell_valid cell) then None
  else if hc_indoor h then
    let levels := default ∅ (ch_indoor self !! cell) in
    let heap := default [] (levels !! hc_signal_level h) in
    let entry := mkIndoor (hc_radio_key h) (hc_coverage_claim_time h) hotspot (hc_signal_level h) in
    Some (mkCoveredHexes (<[cell := <[hc_signal_level h := heap ++ [entry]]> levels]> (ch_indoor self))
            (ch_outdoor self))
  else
    let signal_power :=
      if is_wifi (hc_radio_key h) then as_i32 (hc_signal_power h - 300) else hc_signal_power h in
    let heap := default [] (ch_outdoor self !! cell) in
    let entry := mkOutdoor (hc_radio_key h) (hc_coverage_claim_time h) hotspot signal_power (hc_signal_level h) in
    Some (mkCoveredHexes (ch_indoor self) (<[cell := heap ++ [entry]]> (ch_outdoor self))).

Fixpoint aggregate_coverage (hotspot : PublicKeyBinary) (self : CoveredHexes) (hexes : list HexCoverage)
  : option CoveredHexes :=
  match hexes with
  | [] => Some self
  | h :: hexes => self' ← add_hex hotspot self h; aggregate_coverage hotspot self' hexes
  end.

(** [BTreeMap::pop_last]: the entry of the greatest key. *)
Definition pop_last (levels : gmap SignalLevel (list IndoorCoverageLevel)) : option (list IndoorCoverageLevel) :=
  match levels !! SHigh, levels !! SMedium, levels !! SLow, levels !! SNone with
  | Some rs, _, _, _ => Some rs
  | None, Some rs, _, _ => Some rs
  | None, None, Some rs, _ => Some rs
  | None, None, None, o => o
  end.

Definition outdoor_hex_rewards (radios : list OutdoorCoverageLevel) : list CoverageReward :=
  zip_with (fun cl rank => mkCoverageReward (oc_radio_key cl) (outdoor_coverage_points cl * rank)%dec (oc_hotspot cl))
    (take MAX_OUTDOOR_RADIOS_PER_RES12_HEX (into_sorted_vec outdoor_le radios)) OUTDOOR_REWARD_WEIGHTS.

Definition indoor_hex_rewards (levels : gmap SignalLevel (list IndoorCoverageLevel)) : list CoverageReward :=
  match pop_last levels with
  | Some radios =>
      (fun cl => mkCoverageReward (ic_radio_key cl) (indoor_coverage_points cl) (ic_hotspot cl)) <$>
      take MAX_INDOOR_RADIOS_PER_RES12_HEX (into_sorted_vec indoor_le radios)
  | None => []
  end.

Definition into_coverage_rewards (self : CoveredHexes) : list CoverageReward :=
  List.filter (fun r => dgtb (cw_points r) dec_zero)
    (((map_to_list (ch_outdoor self)).*2 ≫= outdoor_hex_rewards) ++
     ((map_to_list (ch_indoor self)).*2 ≫= indoor_hex_rewards)).
End Points.

Arguments CoverageReward dec : clear implicits.

(** ** Ranks *)

Section Ranks.
Context {A : Type} (le : A -> A -> bool).
Implicit Types (l : list A).

Definition beats (b a : A) : bool := le b a && negb (le a b).
Definition rank (l : list A) (a : A) : nat := length (List.filter (fun b => beats b a) l).

(** No element is there twice and no two are equal in the order. *)
Definition no_ties l : Prop :=
  NoDup l /\ forall a b, a ∈ l -> b ∈ l -> le a b = true -> le b a = true -> a = b.

Lemma filter_length_app (f : A -> bool) l1 l2 :
  length (List.filter f (l1 ++ l2)) = (length (List.filter f l1) + length (List.filter f l2))%nat.
Proof. by rewrite List.filter_app, length_app. Qed.

Lemma filter_length_all (f : A -> bool) l : (forall x, x ∈ l -> f x = true) -> length (List.filter f l) = length l.
Proof.
  induction l as [|x l IH]; intros H; [done|]. cbn. rewrite H by left. cbn. f_equal. apply IH. intros; apply H; by right.
Qed.

Lemma filter_length_none (f : A -> bool) l : (forall x, x ∈ l -> f x = false) -> length (List.filter f l) = 0%nat.
Proof.
  induction l as [|x l IH]; intros H; [done|]. cbn. rewrite H by left. apply IH. intros; apply H; by right.
Qed.

Lemma sorted_rank l i a :
  no_ties l -> StronglySorted (fun a b => le a b = true) l -> l !! i = Some a -> rank l a = i.
Proof.
  intros [Hn Ha] Hs Hi. pose proof (lookup_lt_Some _ _ _ Hi) as Hlt.
  rewrite <- (take_drop_middle l i a Hi) in Hn, Ha, Hs |- *. set (p := take i l) in *. set (s := drop (S i) l) in *.
  assert (length p = i) as Hp by (unfold p; rewrite length_take; lia).
  apply NoDup_app in Hn as (_ & Hdis & _).
  unfold rank. rewrite filter_length_app, filter_length_all.
  - cbn [List.filter]. unfold beats at 1. rewrite andb_negb_r, filter_length_none; [lia|].
    intros x Hx. unfold beats. assert (le a x = true) as ->; [|by rewrite andb_false_r].
    apply (StronglySorted_app_le (fun a b => le a b = true) (p ++ [a]) s); [by rewrite <- app_assoc| |done].
    apply elem_of_app. right. left.
  - intros x Hx. unfold beats. assert (le x a = true) as Hxa.
    { apply (StronglySorted_app_le (fun a b => le a b = true) p (a :: s)); [done..|left]. }
    rewrite Hxa. destruct (le a x) eqn:E; [|done]. exfalso. apply (Hdis x Hx).
    rewrite (Ha x a); [left| | |done|done]; apply elem_of_app; [by left|right; left].
Qed.

Lemma rank_perm l l' a : l ≡ₚ l' -> rank l a = rank l' a.
Proof.
  intros H. unfold rank. induction H as [|x l1 l2 _ IH|x y l1|l1 l2 l3 _ IH1 _ IH2]; [done|..]; cbn.
  - destruct (beats x a); cbn; by rewrite IH.
  - by destruct (beats x a), (beats y a).
  - by rewrite IH1.
Qed.

Lemma no_ties_perm l l' : l ≡ₚ l' -> no_ties l -> no_ties l'.
Proof.
  intros Hp [Hn Ha]. split; [by rewrite <- Hp|]. intros a b H1 H2. rewrite <- Hp in H1, H2. by apply Ha.
Qed.

Lemma perm_lookup_rank l s a i :
  s ≡ₚ l -> StronglySorted (fun a b => le a b = true) s -> no_ties l ->
  s !! i = Some a <-> a ∈ l /\ rank l a = i.
Proof.
  intros Hp Hs Hn. assert (no_ties s) as Hn' by (eapply no_ties_perm; [|exact Hn]; by symmetry).
  split.
  - intros Hi. split; [rewrite <- Hp; by eapply list_elem_of_lookup_2|].
    rewrite <- (rank_perm s) by done. by apply sorted_rank.
  - intros [Ha Hr]. rewrite <- Hp in Ha. apply list_elem_of_lookup in Ha as [j Hj].
    assert (rank s a = j) as Hj' by (by apply sorted_rank). rewrite (rank_perm s l) in Hj' by done. congruence.
Qed.
End Ranks.

Lemma lookup_take_iff {A} (l : list A) n i x : take n l !! i = Some x <-> l !! i = Some x /\ (i < n)%nat.
Proof.
  destruct (decide (i < n)%nat) as [H|H].
  - rewrite lookup_take by lia. rewrite decide_True by done. tauto.
  - rewrite lookup_take, decide_False by done. split; [done|lia].
Qed.

(** ** Rewards of a hex *)

Lemma outdoor_le_total a b : outdoor_le a b = true \/ outdoor_le b a = true.
Proof.
  unfold outdoor_le. rewrite (Z.eqb_sym (oc_signal_power b)).
  destruct (Z.eqb_spec (oc_signal_power a) (oc_signal_power b)); rewrite ?Z.leb_le, ?Z.ltb_lt; lia.
Qed.

Lemma outdoor_le_trans a b c : outdoor_le a b = true -> outdoor_le b c = true -> outdoor_le a c = true.
Proof.
  unfold outdoor_le. destruct (Z.eqb_spec (oc_signal_power a) (oc_signal_power b)),
    (Z.eqb_spec (oc_signal_power b) (oc_signal_power c)), (Z.eqb_spec (oc_signal_power a) (oc_signal_power c));
    rewrite ?Z.leb_le, ?Z.ltb_lt; lia.
Qed.

Lemma indoor_le_total a b : indoor_le a b = true \/ indoor_le b a = true.
Proof. unfold indoor_le. rewrite !Z.leb_le. lia. Qed.

Lemma indoor_le_trans a b c : indoor_le a b = true -> indoor_le b c = true -> indoor_le a c = true.
Proof. unfold indoor_le. rewrite !Z.leb_le. lia. Qed.

(** More power, or the same power for longer. *)
Lemma outdoor_beats a b :
  beats outdoor_le a b = true <->
  oc_signal_power b < oc_signal_power a \/
  (oc_signal_power a = oc_signal_power b /\ oc_seniority_timestamp a < oc_seniority_timestamp b).
Proof.
  unfold beats, outdoor_le. rewrite andb_true_iff, negb_true_iff, (Z.eqb_sym (oc_signal_power b)).
  destruct (Z.eqb_spec (oc_signal_power a) (oc_signal_power b)); rewrite ?Z.leb_le, ?Z.leb_gt, ?Z.ltb_lt, ?Z.ltb_ge; lia.
Qed.

Section HexRewards.
Context {dec : Type} {D : Decimal dec} {BH : BinaryHeap}.

(** In an outdoor hex the place of a radio is the number of radios with more
    power, or with the same power for longer, whatever the order in which they
    were aggregated.  The first three places earn the whole, three quarters and a
    quarter of the points of their signal level, and nobody else earns any. *)
Theorem outdoor_rewards_by_rank radios r :
  no_ties outdoor_le radios ->
  r ∈ outdoor_hex_rewards (dec := dec) radios <->
  exists cl w, cl ∈ radios /\ OUTDOOR_REWARD_WEIGHTS !! rank outdoor_le radios cl = Some w /\
    r = mkCoverageReward (oc_radio_key cl) (outdoor_coverage_points cl * w)%dec (oc_hotspot cl).
Proof.
  intros Hn. unfold outdoor_hex_rewards.
  pose proof (into_sorted_vec_perm outdoor_le radios) as Hp.
  pose proof (into_sorted_vec_sorted outdoor_le radios outdoor_le_total outdoor_le_trans) as Hs.
  set (s := into_sorted_vec outdoor_le radios) in *. rewrite list_elem_of_lookup. split.
  - intros [i Hi]. apply lookup_zip_with_Some in Hi as (cl & w & -> & Hc & Hw).
    apply lookup_take_iff in Hc as [Hc _]. destruct (proj1 (perm_lookup_rank _ _ _ cl i Hp Hs Hn) Hc) as [Hc' Hr].
    exists cl, w. by rewrite Hr.
  - intros (cl & w & Hc & Hw & ->). exists (rank outdoor_le radios cl). apply lookup_zip_with_Some.
    exists cl, w. split; [done|]. split; [|done]. apply lookup_take_iff. split.
    + by apply (perm_lookup_rank outdoor_le radios).
    + apply lookup_lt_Some in Hw. exact Hw.
Qed.

(** The best signal level that covers a hex. *)
Definition best_level (levels : gmap SignalLevel (list IndoorCoverageLevel)) (l : SignalLevel) : Prop :=
  is_Some (levels !! l) /\ forall l', is_Some (levels !! l') -> level_rank l' <= level_rank l.

Lemma pop_last_best levels :
  match pop_last levels with
  | Some rs => exists l, best_level levels l /\ levels !! l = Some rs
  | None => forall l, levels !! l = None
  end.
Proof.
  unfold pop_last, best_level.
  destruct (levels !! SHigh) as [h|] eqn:E1; [exists SHigh; rewrite E1; split; [split; [done|]; intros []; cbn; lia|done]|].
  destruct (levels !! SMedium) as [m|] eqn:E2.
  { exists SMedium. rewrite E2. split; [split; [done|]; intros []; cbn; try lia; by rewrite E1; intros []|done]. }
  destruct (levels !! SLow) as [lo|] eqn:E3.
  { exists SLow. rewrite E3. split; [split; [done|]; intros []; cbn; try lia; rewrite ?E1, ?E2; by intros []|done]. }
  destruct (levels !! SNone) as [n|] eqn:E4; [|by intros []].
  exists SNone. rewrite E4. split; [split; [done|]; intros []; cbn; try lia; rewrite ?E1, ?E2, ?E3; by intros []|done].
Qed.

(** In an indoor hex only the radios of the best signal level that covers it
    count: the five that have been there longest earn the points of that level,
    and nobody else earns any. *)
Theorem indoor_rewards_by_seniority levels l radios r :
  best_level levels l -> levels !! l = Some radios -> no_ties indoor_le radios ->
  r ∈ indoor_hex_rewards (dec := dec) levels <->
  exists cl, cl ∈ radios /\ (rank indoor_le radios cl < MAX_INDOOR_RADIOS_PER_RES12_HEX)%nat /\
    r = mkCoverageReward (ic_radio_key cl) (indoor_coverage_points cl) (ic_hotspot cl).
Proof.
  intros [Hl Hmax] Hrs Hn. unfold indoor_hex_rewards. pose proof (pop_last_best levels) as Hb.
  destruct (pop_last levels) as [rs|]; [|by rewrite Hb in Hl; destruct Hl].
  destruct Hb as (l' & [Hl' Hmax'] & Hrs').
  assert (l' = l) as -> by (specialize (Hmax l' Hl'); specialize (Hmax' l Hl); destruct l, l'; cbn in *; done || lia).
  rewrite Hrs in Hrs'. injection Hrs' as <-.
  pose proof (into_sorted_vec_perm indoor_le radios) as Hp.
  pose proof (into_sorted_vec_sorted indoor_le radios indoor_le_total indoor_le_trans) as Hs.
  rewrite list_elem_of_fmap. split.
  - intros (cl & -> & Hc). apply list_elem_of_lookup in Hc as [i Hi]. apply lookup_take_iff in Hi as [Hi Hlt].
    destruct (proj1 (perm_lookup_rank _ _ _ cl i Hp Hs Hn) Hi) as [Hc Hr]. exists cl. by rewrite Hr.
  - intros (cl & Hc & Hlt & ->). exists cl. split; [done|]. apply list_elem_of_lookup.
    exists (rank indoor_le radios cl). apply lookup_take_iff. split; [|done]. by apply (perm_lookup_rank indoor_le radios).
Qed.
End HexRewards.

(** ** Bounds on the points *)

Section PointBounds.
Context {dec : Type} {D : Decimal dec} {DL : DecimalLaws dec} {CI : CellIndex} {BH : BinaryHeap}.
Open Scope Q_scope.

Lemma outdoor_points_val cl :
  exists n, dval (outdoor_coverage_points (dec := dec) cl) == inject_Z (4 * n) /\ (0 <= n <= 4)%Z.
Proof.
  unfold outdoor_coverage_points. destruct (oc_signal_level cl);
    [exists 0%Z|exists 1%Z|exists 2%Z|exists 4%Z]; (split; [by apply dec_of_Z_val|lia]).
Qed.

(** Quarters of multiples of four are whole numbers. *)
Lemma weighted_points_val cl w q :
  (0 <= q <= 4)%Z -> dval (dec := dec) w == inject_Z q * (1 # 4) ->
  exists n, dval (outdoor_coverage_points (dec := dec) cl * w)%dec == inject_Z n /\ (0 <= n <= 4 * q)%Z.
Proof.
  intros Hq Ew. destruct (outdoor_points_val cl) as (n & En & Hn). exists (n * q)%Z. split; [|nia].
  assert (dval (outdoor_coverage_points (dec := dec) cl) * dval w == inject_Z (n * q)) as E.
  { rewrite En, Ew, !inject_Z_mult. change (inject_Z 4) with (4 # 1). field. }
  rewrite dmul_val.
  - pose proof (rnd_proper _ (mul_rounding (dec := dec))) as Hp. rewrite E. apply (rnd_int _ mul_rounding). nia.
  - rewrite E. apply abs_max; [|]; change 0 with (inject_Z 0); rewrite <- Zle_Qle; nia.
Qed.

Lemma zip_points_bounds (ws : list dec) (qs : list Z) l :
  Forall2 (fun w q => (0 <= q <= 4)%Z /\ dval w == inject_Z q * (1 # 4)) ws qs ->
  let rs := zip_with (fun cl rank => mkCoverageReward (oc_radio_key cl) (outdoor_coverage_points cl * rank)%dec
                        (oc_hotspot cl)) l ws in
  sumQ (fun r => dval (cw_points r)) rs <= inject_Z (4 * sumZ id qs) /\
  forall r, r ∈ rs -> exists n, dval (cw_points r) == inject_Z n /\ (0 <= n <= 16)%Z.
Proof.
  intros HF. revert l. induction HF as [|w q ws qs [Hq Hw] HF IH]; intros [|cl l]; cbn zeta;
    (try by (cbn; split; [discriminate|]; intros r Hr; by apply not_elem_of_nil in Hr)).
  - assert (0 <= sumZ id (q :: qs))%Z as H0.
    { apply sumZ_nonneg. intros x Hx. clear -Hx HF Hq. apply elem_of_cons in Hx as [->|Hx]; [unfold id; lia|].
      apply list_elem_of_lookup in Hx as [i Hi]. destruct (Forall2_lookup_r _ _ _ _ _ HF Hi) as (w' & _ & Hx & _).
      unfold id. lia. }
    cbn [zip_with]. split; [|intros r Hr; by apply not_elem_of_nil in Hr].
    change (sumQ _ []) with (inject_Z 0). rewrite <- Zle_Qle. lia.
  - destruct (IH l) as [IH1 IH2]. destruct (weighted_points_val cl w q Hq Hw) as (n & En & Hn).
    cbn [zip_with]. rewrite sumQ_cons, sumZ_cons. cbn [cw_points]. split.
    + assert (inject_Z n <= inject_Z (4 * q)) as Hle by (rewrite <- Zle_Qle; lia).
      rewrite Z.mul_add_distr_l, inject_Z_plus. unfold id at 1. set (x := sumQ _ _) in *. rewrite En. lra.
    + intros r [->|Hr]%elem_of_cons; [exists n; split; [done|lia]|by apply IH2].
Qed.

Lemma outdoor_hex_bounds radios :
  sumQ (fun r => dval (cw_points r)) (outdoor_hex_rewards (dec := dec) radios) <= 32 # 1 /\
  forall r, r ∈ outdoor_hex_rewards (dec := dec) radios -> exists n, dval (cw_points r) == inject_Z n /\ (0 <= n <= 16)%Z.
Proof.
  apply (zip_points_bounds OUTDOOR_REWARD_WEIGHTS [4; 3; 1]%Z).
  repeat constructor; try lia; rewrite dec_new_val by lia; reflexivity.
Qed.

Lemma indoor_points_val cl :
  exists n, dval (indoor_coverage_points (dec := dec) cl) == inject_Z n /\ (0 <= n <= 400)%Z.
Proof.
  unfold indoor_coverage_points. destruct (ic_signal_level cl);
    [exists 0%Z|exists 100%Z|exists 0%Z|exists 400%Z]; (split; [by apply dec_of_Z_val|lia]).
Qed.

Lemma indoor_hex_bounds levels :
  sumQ (fun r => dval (cw_points r)) (indoor_hex_rewards (dec := dec) levels) <= 2000 # 1 /\
  forall r, r ∈ indoor_hex_rewards (dec := dec) levels -> exists n, dval (cw_points r) == inject_Z n /\ (0 <= n <= 400)%Z.
Proof.
  assert (forall r, r ∈ indoor_hex_rewards (dec := dec) levels ->
    exists n, dval (cw_points r) == inject_Z n /\ (0 <= n <= 400)%Z) as H.
  { unfold indoor_hex_rewards. destruct (pop_last levels); [|intros r Hr; by apply not_elem_of_nil in Hr].
    intros r (cl & -> & _)%list_elem_of_fmap. apply indoor_points_val. }
  split; [|done]. eapply Qle_trans.
  - apply (sumQ_bound _ _ (inject_Z 400)). intros r Hr. destruct (H r Hr) as (n & -> & Hn). rewrite <- Zle_Qle. lia.
  - change (2000 # 1) with (inject_Z 2000). rewrite <- inject_Z_mult, <- Zle_Qle. unfold indoor_hex_rewards.
    destruct (pop_last levels); [|cbn; lia]. rewrite length_fmap, length_take. unfold MAX_INDOOR_RADIOS_PER_RES12_HEX. lia.
Qed.
End PointBounds.

(** ** Where rewards come from *)

(** A hotspot's radio covers a hex. *)
Definition covers (c : CoveredHexes) (hotspot : PublicKeyBinary) (key : KeyType) : Prop :=
  (exists cell rs e, ch_outdoor c !! cell = Some rs /\ e ∈ rs /\ oc_hotspot e = hotspot /\ oc_radio_key e = key) \/
  (exists cell levels l rs e, ch_indoor c !! cell = Some levels /\ levels !! l = Some rs /\ e ∈ rs /\
     ic_hotspot e = hotspot /\ ic_radio_key e = key).

Section Origins.
Context {dec : Type} {D : Decimal dec} {DL : DecimalLaws dec} {CI : CellIndex} {BH : BinaryHeap}.

Lemma add_hex_covers hotspot c h c' hs k :
  add_hex hotspot c h = Some c' -> covers c' hs k -> covers c hs k \/ (hs = hotspot /\ k = hc_radio_key h).
Proof.
  unfold add_hex. destruct (negb _); [done|]. destruct (hc_indoor h); intros [= <-].
  - intros [Ho|(cell & levels & l & rs & e & Hl & Hr & He & <- & <-)]; [by left; left|]. cbn [ch_indoor] in Hl.
    destruct (decide (cell = as_u64 (hc_hex h))) as [->|Hne].
    + rewrite lookup_insert_eq in Hl. injection Hl as <-. destruct (decide (l = hc_signal_level h)) as [->|Hl].
      * rewrite lookup_insert_eq in Hr. injection Hr as <-.
        apply elem_of_app in He as [He| ->%list_elem_of_singleton]; [|by right].
        left. right. destruct (ch_indoor c !! as_u64 (hc_hex h)) as [lv|] eqn:E; cbn in He.
        -- destruct (lv !! hc_signal_level h) as [rs|] eqn:E2; cbn in He; [|by apply not_elem_of_nil in He].
           by eexists _, lv, _, rs, e.
        -- rewrite lookup_empty in He. by apply not_elem_of_nil in He.
      * rewrite lookup_insert_ne in Hr by done. left. right.
        destruct (ch_indoor c !! as_u64 (hc_hex h)) as [lv|] eqn:E; cbn in Hr; [by eexists _, lv, l, rs, e|].
        by rewrite lookup_empty in Hr.
    + rewrite lookup_insert_ne in Hl by done. left. right. by exists cell, levels, l, rs, e.
  - intros [(cell & rs & e & Hr & He & <- & <-)|Hi]; [|by left; right]. cbn [ch_outdoor] in Hr.
    destruct (decide (cell = as_u64 (hc_hex h))) as [->|Hne].
    + rewrite lookup_insert_eq in Hr. injection Hr as <-.
      apply elem_of_app in He as [He| ->%list_elem_of_singleton]; [|by right].
      left. left. destruct (ch_outdoor c !! as_u64 (hc_hex h)) as [rs|] eqn:E; cbn in He; [by eexists _, rs, e|].
      by apply not_elem_of_nil in He.
    + rewrite lookup_insert_ne in Hr by done. left. left. by exists cell, rs, e.
Qed.

Lemma aggregate_coverage_covers hotspot hexes : forall c c' hs k,
  aggregate_coverage hotspot c hexes = Some c' -> covers c' hs k ->
  covers c hs k \/ (hs = hotspot /\ exists h, h ∈ hexes /\ k = hc_radio_key h).
Proof.
  induction hexes as [|h hexes IH]; intros c c' hs k; cbn; [intros [= <-]; by left|].
  destruct (add_hex hotspot c h) as [c1|] eqn:E; [|done]. cbn. intros Ha Hc.
  destruct (IH c1 c' hs k Ha Hc) as [H|(-> & h' & Hh & ->)].
  - destruct (add_hex_covers _ _ _ _ _ _ E H) as [H'|[-> ->]]; [by left|]. right. split; [done|].
    exists h. split; [left|done].
  - right. split; [done|]. exists h'. split; [by right|done].
Qed.

Lemma elem_of_bind_values {K A B} `{Countable K} (f : A -> list B) (m : gmap K A) b :
  b ∈ ((map_to_list m).*2 ≫= f) <-> exists k a, m !! k = Some a /\ b ∈ f a.
Proof.
  rewrite list_elem_of_bind. split.
  - intros (a & Hb & Ha). apply list_elem_of_fmap in Ha as ([k a'] & -> & Ha%elem_of_map_to_list). by exists k, a'.
  - intros (k & a & Hk & Hb). exists a. split; [done|]. apply list_elem_of_fmap. exists (k, a).
    split; [done|by apply elem_of_map_to_list].
Qed.

Lemma reward_covers c r : r ∈ into_coverage_rewards (dec := dec) c -> covers c (cw_hotspot r) (cw_radio_key r).
Proof.
  unfold into_coverage_rewards. rewrite list_elem_of_In, filter_In, <- list_elem_of_In. intros [Hr _].
  apply elem_of_app in Hr as [Hr|Hr]; apply elem_of_bind_values in Hr as (cell & x & Hx & Hr).
  - left. unfold outdoor_hex_rewards in Hr. apply list_elem_of_lookup in Hr as [i Hi].
    apply lookup_zip_with_Some in Hi as (cl & w & -> & Hc & _). apply lookup_take_iff in Hc as [Hc _].
    exists cell, x, cl. split; [done|]. split; [|done]. rewrite <- (into_sorted_vec_perm outdoor_le).
    by eapply list_elem_of_lookup_2.
  - right. unfold indoor_hex_rewards in Hr. pose proof (pop_last_best x) as Hb.
    destruct (pop_last x) as [rs|]; [|by apply not_elem_of_nil in Hr].
    destruct Hb as (l & _ & Hl). apply list_elem_of_fmap in Hr as (cl & -> & Hc).
    exists cell, x, l, rs, cl. split; [done|]. split; [done|]. split; [|done].
    rewrite <- (into_sorted_vec_perm indoor_le). apply list_elem_of_lookup in Hc as [i Hi].
    apply lookup_take_iff in Hi as [Hi _]. by eapply list_elem_of_lookup_2.
Qed.

Lemma sumQ_bind_bounded {A} (f : A -> list (CoverageReward dec)) (l : list A) (M : Z) :
  (forall a, a ∈ l -> (sumQ (fun r => dval (cw_points r)) (f a) <= inject_Z M)%Q) ->
  (sumQ (fun r => dval (cw_points r)) (l ≫= f) <= inject_Z (M * Z.of_nat (length l)))%Q.
Proof.
  induction l as [|a l IH]; intros H; [rewrite Z.mul_0_r; apply Qle_refl|].
  change ((a :: l) ≫= f) with (f a ++ (l ≫= f)). cbn [length].
  rewrite Nat2Z.inj_succ, Z.mul_succ_r, Z.add_comm, inject_Z_plus.
  rewrite sumQ_app. apply Qplus_le_compat; [apply H; left|apply IH; intros; apply H; by right].
Qed.

(** The points that hexes give. *)
Lemma coverage_points_bounds c :
  let rs := into_coverage_rewards (dec := dec) c in
  (sumQ (fun r => dval (cw_points r)) rs <=
   inject_Z (32 * Z.of_nat (size (ch_outdoor c)) + 2000 * Z.of_nat (size (ch_indoor c))))%Q /\
  forall r, r ∈ rs -> exists n, (dval (cw_points r) == inject_Z n)%Q /\ 1 <= n <= 400.
Proof.
  intros rs. unfold rs, into_coverage_rewards.
  set (o := (map_to_list (ch_outdoor c)).*2 ≫= outdoor_hex_rewards).
  set (i := (map_to_list (ch_indoor c)).*2 ≫= indoor_hex_rewards).
  assert (forall r, r ∈ o ++ i -> exists n, (dval (cw_points r) == inject_Z n)%Q /\ 0 <= n <= 400) as Hn.
  { intros r [Hr|Hr]%elem_of_app; apply elem_of_bind_values in Hr as (cell & x & _ & Hr).
    - destruct (proj2 (outdoor_hex_bounds x) r Hr) as (n & E & Hn). exists n. split; [done|lia].
    - by apply (proj2 (indoor_hex_bounds x)). }
  split.
  - eapply Qle_trans; [apply (sumQ_filter_le (fun r => dval (cw_points r)))|].
    { intros r Hr. destruct (Hn r Hr) as (n & -> & ?). change 0%Q with (inject_Z 0). rewrite <- Zle_Qle. lia. }
    rewrite sumQ_app, inject_Z_plus. rewrite <- !length_map_to_list, <- !(length_fmap snd).
    apply Qplus_le_compat; apply sumQ_bind_bounded; intros x _; [apply outdoor_hex_bounds|apply indoor_hex_bounds].
  - intros r. rewrite list_elem_of_In, filter_In, <- list_elem_of_In. intros [Hr Hpos].
    apply dgtb_val in Hpos. rewrite dec_zero_val in Hpos. destruct (Hn r Hr) as (n & E & H). exists n.
    split; [done|]. rewrite E in Hpos. change 0%Q with (inject_Z 0) in Hpos. rewrite <- Zlt_Qlt in Hpos. lia.
Qed.
End Origins.

(** ** A hex claimed twice *)

Section Duplicates.
Context {KT : KeyText}.

(** The object claims some hex twice within one statement. *)
Definition claims_twice (o : FsCoverageObject) : Prop :=
  (length (fco_coverage o) <= COVERAGE_MAX_BATCH_ENTRIES)%nat /\ ~ NoDup (hs_location <$> fco_coverage o).

Lemma chunks_short {A} n (l : list A) : l <> [] -> (length l <= n)%nat -> chunks n l = [l].
Proof.
  intros Hl Hn. unfold chunks. destruct l as [|a l]; [done|]. cbn [length chunks_fuel].
  rewrite take_ge, drop_ge by done. by destruct (length l).
Qed.

Lemma claims_twice_fails t now o v : claims_twice o -> exists e, save_coverage t now (mkValidatedCoverage o v) = Err e.
Proof.
  intros [Hlen Hdup]. unfold save_coverage. cbn [co_coverage_object].
  rewrite chunks_short; [|by intros E; rewrite E in Hdup; apply Hdup, NoDup_nil_2|done].
  cbn [insert_chunks]. unfold insert_hexes. rewrite bool_decide_false; [by eexists|].
  intros Hn. apply Hdup. clear -Hn. induction (fco_coverage o) as [|h l IH]; [apply NoDup_nil_2|].
  rewrite !fmap_cons in *. apply NoDup_cons in Hn as [Hnot Hn]. apply NoDup_cons. split; [|by apply IH].
  intros (h' & E & Hin)%list_elem_of_fmap. apply Hnot, list_elem_of_fmap. exists h'. split; [|done].
  unfold hex_key. by rewrite E.
Qed.

(** Coverage objects are not checked for hexes claimed twice, and the insert
    refuses to touch a row twice.  One authorized object with a repeated hex
    makes its whole file fail, whatever else the file holds: no object of the
    file is ever stored. *)
Theorem repeated_hex_fails_file auth clock t sink reports o :
  o ∈ reports -> auth (fco_pub_key o) = Some true -> claims_twice o ->
  exists sink' e, process_coverage_file auth clock t sink reports = (t, sink', Err e).
Proof.
  intros Hin Hauth Htwice. unfold process_coverage_file.
  enough (forall t sink, exists t' sink' e, process_coverage auth clock t sink reports = (t', sink', Err e)) as H
    by (destruct (H t sink) as (t' & sink' & e & ->); by exists sink', e).
  clear t sink. induction reports as [|r reports IH]; [by apply not_elem_of_nil in Hin|]. intros t sink.
  cbn [process_coverage]. unfold validate_coverage.
  destruct (auth (fco_pub_key r)) as [b|] eqn:Er; cbn [ok_or result_bind]; [|by eexists _, _, _].
  apply elem_of_cons in Hin as [<-|Hin].
  - rewrite Hauth in Er. injection Er as <-. cbn [coverage_is_valid co_validity].
    destruct (claims_twice_fails t (clock (length (sink ++ [mkValidatedCoverage o CoverageValid]))) o CoverageValid Htwice)
      as [e ->]. by eexists _, _, _.
  - destruct b; cbn [coverage_is_valid co_validity]; [|by apply IH].
    destruct (save_coverage _ _ _) as [t1|e]; [by apply IH|by eexists _, _, _].
Qed.
End Duplicates.

(** ** Examples *)

(** A list of distinct values. *)
Ltac nodup_list :=
  repeat first
    [ apply NoDup_nil_2
    | apply NoDup_cons_2;
      [let H := fresh in intros H;
       repeat (apply elem_of_cons in H as [H|H]; [discriminate H|]); by apply not_elem_of_nil in H|] ].

Module ExampleCoverage.
(** Keys are written as the binary digits of their code, with 1 and 2. *)
Fixpoint digits (p : positive) : string :=
  match p with
  | xH => ""
  | xO p => String "1" (digits p)
  | xI p => String "2" (digits p)
  end.

Fixpoint of_digits (s : string) : option positive :=
  match s with
  | "" => Some xH
  | String "1" s => xO <$> of_digits s
  | String "2" s => xI <$> of_digits s
  | _ => None
  end.

Lemma of_digits_chars s p : of_digits s = Some p -> forall c, c ∈ String.list_ascii_of_string s -> c <> "0"%char /\ c <> "-"%char.
Proof.
  revert p. induction s as [|a s IH]; intros p; cbn [of_digits String.list_ascii_of_string].
  - intros _ c Hc. by apply not_elem_of_nil in Hc.
  - intros H c [->|Hc]%elem_of_cons.
    + split; intros ->; done.
    + assert (exists q, of_digits s = Some q) as [q Hq]; [|by apply (IH q)].
      destruct a as [[] [] [] [] [] [] [] []]; try done; destruct (of_digits s); eauto; done.
Qed.

#[global] Instance binary_text : KeyText.
Proof.
  refine {| key_to_string := fun k => digits (encode k); key_from_str := fun s => of_digits s ≫= decode |}.
  - intros k. assert (forall p, of_digits (digits p) = Some p) as ->.
    { induction p as [p IH|p IH|]; cbn; [by rewrite IH..|done]. }
    cbn. apply countable.decode_encode.
  - intros s k H. destruct (of_digits s) as [p|] eqn:E; [|done]. by apply (of_digits_chars s p).
Defined.

#[global] Instance any_cell : CellIndex := { cell_valid _ := true }.

Definition radio (key : string) (power since : Z) : OutdoorCoverageLevel :=
  mkOutdoor (KCbrs key) since "owner" power SHigh.
Definition radios : list OutdoorCoverageLevel :=
  [radio "a" (-946) 3; radio "b" (-936) 9; radio "c" (-887) 5; radio "d" (-887) 2].
Definition indoor (key : string) (since : Z) : IndoorCoverageLevel := mkIndoor (KCbrs key) since "owner" SHigh.

Lemma radios_no_ties : no_ties outdoor_le radios.
Proof.
  split; [nodup_list|].
  intros a b Ha Hb. unfold radios in Ha, Hb.
  repeat (apply elem_of_cons in Ha as [->|Ha]); [..|by apply not_elem_of_nil in Ha];
    (repeat (apply elem_of_cons in Hb as [->|Hb]); [..|by apply not_elem_of_nil in Hb]); done.
Qed.

Example ranks : rank outdoor_le radios <$> radios = [3; 2; 1; 0]%nat.
Proof. reflexivity. Qed.

Definition twice : FsCoverageObject :=
  mkCoverageObject "pcs" "uuid" (KCbrs "cbsd") 0 [mkHexSignal 7 SHigh 0; mkHexSignal 7 SLow 0] true 0 "".
End ExampleCoverage.

Lemma outdoor_rewards_by_rank_witness :
  mkCoverageReward (KCbrs "b") (dec_of_Z 16 * dec_new 25 2)%dec "owner"
    ∈ outdoor_hex_rewards (dec := Q) ExampleCoverage.radios.
Proof.
  apply (outdoor_rewards_by_rank ExampleCoverage.radios _ ExampleCoverage.radios_no_ties).
  exists (ExampleCoverage.radio "b" (-936) 9), (dec_new 25 2). split; [right; left|]. by split.
Defined.

Lemma indoor_rewards_by_seniority_witness :
  mkCoverageReward (KCbrs "x") (dec_of_Z 400) "owner" ∈
  indoor_hex_rewards (dec := Q) {[SHigh := [ExampleCoverage.indoor "y" 4; ExampleCoverage.indoor "x" 2]]}.
Proof.
  apply (indoor_rewards_by_seniority _ SHigh [ExampleCoverage.indoor "y" 4; ExampleCoverage.indoor "x" 2]).
  - split; [by rewrite lookup_singleton_eq|]. intros l [rs Hl]. apply lookup_singleton_Some in Hl as [<- _]. lia.
  - by rewrite lookup_singleton_eq.
  - split; [nodup_list|]. intros a b Ha Hb.
    repeat (apply elem_of_cons in Ha as [->|Ha]); [..|by apply not_elem_of_nil in Ha];
      (repeat (apply elem_of_cons in Hb as [->|Hb]); [..|by apply not_elem_of_nil in Hb]); done.
  - exists (ExampleCoverage.indoor "x" 2). split; [right; left|]. split; [vm_compute; lia|done].
Defined.

Lemma repeated_hex_fails_file_witness :
  exists sink' e,
    process_coverage_file (fun _ => Some true) (fun _ => 0) (mkCoverageTables ∅ ∅ ∅) [] [ExampleCoverage.twice] =
    (mkCoverageTables ∅ ∅ ∅, sink', Err e).
Proof.
  apply (repeated_hex_fails_file _ _ _ _ _ ExampleCoverage.twice); [left|done|].
  split; [apply Nat.leb_le; vm_compute; reflexivity|].
  intros Hn. apply NoDup_cons in Hn as [Hn _]. apply Hn. left.
Defined.
