(* ===== verification/MobileHeartbeats.v ===== *)
(** * Heartbeats of mobile radios

    [mobile_verifier/src/heartbeats/mod.rs], [cbrs.rs], [wifi.rs] and
    [cell_type.rs], with the coverage caches of [coverage.rs]: the validation of
    a heartbeat, the seniority updates it causes and the tables it is saved in.
    The geometry of [h3o], the geofence and the gateway service are parameters.
    The theorems: when a heartbeat is valid and what trust it earns; what a
    heartbeat does to the seniority of its radio; and that returning to an
    earlier coverage object leaves the seniority that is rewarded behind. *)

From S2P Require Import Prelude Solana FileStoreTypes Decimal Scheduler MobileCoverage.

Open Scope Z_scope.
Open Scope oracle_scope.

(** ** Cell types *)

Inductive CellType : Type :=
| Nova436H | Nova430I | Neutrino430 | SercommIndoor | SercommOutdoor | CellTypeNone
| NovaGenericWifiIndoor | NovaGenericWifiOutdoor.

#[global] Instance CellType_eq_dec : EqDecision CellType.
Proof. solve_decision. Defined.

Inductive CellTypeLabel : Type := CellTypeLabelNone | LabelCBRS | LabelWifi.

Definition CELLTYPE_NOVA_436H : string := "2AG32MBS3100196N".
Definition CELLTYPE_NOVA_430I : string := "2AG32PBS3101S".
Definition CELLTYPE_NEUTRINO_430 : string := "2AG32PBS31010".
Definition CELLTYPE_SERCCOMM_INDOOR : string := "P27-SCE4255W".
Definition CELLTYPE_SERCCOMM_OUTDOOR : string := "P27-SCO4255PA10".

Definition from_cbsd_id (s : string) : option CellType :=
  if String.prefix CELLTYPE_NOVA_436H s then Some Nova436H
  else if String.prefix CELLTYPE_NOVA_430I s then Some Nova430I
  else if String.prefix CELLTYPE_NEUTRINO_430 s then Some Neutrino430
  else if String.prefix CELLTYPE_SERCCOMM_INDOOR s then Some SercommIndoor
  else if String.prefix CELLTYPE_SERCCOMM_OUTDOOR s then Some SercommOutdoor
  else None.

Definition to_label (t : CellType) : CellTypeLabel :=
  match t with
  | Nova436H | Nova430I | Neutrino430 | SercommIndoor | SercommOutdoor => LabelCBRS
  | NovaGenericWifiIndoor | NovaGenericWifiOutdoor => LabelWifi
  | CellTypeNone => CellTypeLabelNone
  end.

(** ** Parameters *)

(** [h3o]: coordinates, the centre of a cell and the distance in metres. *)
Class LatLngs : Type := {
  Coord : Type;                                       (* f64 *)
  LatLng : Type;
  latlng_new : Coord -> Coord -> option LatLng;
  latlng_of_cell : Z -> option LatLng;                (* [CellIndex::try_from], then [into] *)
  latlng_distance_m : LatLng -> LatLng -> Q
}.

(** [f64::round] of a distance, as [i64] and as [u32]; both casts saturate. *)
Definition round_i64 (q : Q) : Z := Z.max 0 (Z.min (2 ^ 63 - 1) (Qfloor (q + (1 # 2)))).
Definition round_u32 (q : Q) : Z := Z.max 0 (Z.min (2 ^ 32 - 1) (Qfloor (q + (1 # 2)))).

Inductive GatewayResolution : Type :=
| GatewayNotFound | GatewayNotAsserted | AssertedLocation (location : Z).

Inductive HeartbeatValidity : Type :=
| HbValid | HbBadCoverageObject | HbNoSuchCoverageObject | HbBadCbsdId | HbNotOperational
| HbOutsideRange | HbInvalidLatLon | HbUnsupportedLocation | HbGatewayNotFound | HbGatewayNotAsserted.

#[global] Instance HeartbeatValidity_eq_dec : EqDecision HeartbeatValidity.
Proof. solve_decision. Defined.

Inductive HbError : Type := HbPanic | HbResolver | HbCell | HbRounding | HbNoCbsdId.

Section Heartbeats.
Context {dec : Type} {D : Decimal dec} {CH : Chrono} {KT : KeyText} {LL : LatLngs}.

Record Heartbeat : Type := mkHeartbeat {
  hb_hb_type : HbType;
  hb_hotspot_key : PublicKeyBinary;
  hb_cbsd_id : option string;
  hb_operation_mode : bool;
  hb_lat : Coord;
  hb_lon : Coord;
  hb_coverage_object : option Uuid;
  hb_location_validation_timestamp : option Z;
  hb_timestamp : Z
}.

Definition truncated_timestamp (hb : Heartbeat) : result Z HbError :=
  ok_or (duration_trunc (hb_timestamp hb) (hours 1)) HbRounding.

(** [None] is the panic on a CBRS heartbeat without an id. *)
Definition hb_key (hb : Heartbeat) : option KeyType :=
  match hb_hb_type hb with
  | HbCbrs => KCbrs <$> hb_cbsd_id hb
  | HbWifi => Some (KWifi (hb_hotspot_key hb))
  end.

Definition hb_id (hb : Heartbeat) : result (string * Z) HbError :=
  let? ts := truncated_timestamp hb in
  match hb_hb_type hb with
  | HbCbrs => let? cbsd_id := ok_or (hb_cbsd_id hb) HbNoCbsdId in Ok (cbsd_id, ts)
  | HbWifi => Ok (key_to_string (hb_hotspot_key hb), ts)
  end.

(** The reports of the two kinds of radios, and [From] them. *)
Record CbrsHeartbeatIngest : Type := mkCbrsIngest {
  ci_received_timestamp : Z;
  ci_pubkey : PublicKeyBinary;
  ci_cbsd_id : string;
  ci_operation_mode : bool;
  ci_lat : Coord;
  ci_lon : Coord;
  ci_coverage_object : string
}.

Record WifiHeartbeatIngest : Type := mkWifiIngest {
  wf_received_timestamp : Z;
  wf_pubkey : PublicKeyBinary;
  wf_operation_mode : bool;
  wf_lat : Coord;
  wf_lon : Coord;
  wf_coverage_object : string;
  wf_location_validation_timestamp : option Z
}.

(** [Uuid::from_slice(..).ok()] *)
Definition uuid_from_slice (bytes : string) : option Uuid :=
  if (String.length bytes =? 16)%nat then Some bytes else None.

Definition heartbeat_of_cbrs (v : CbrsHeartbeatIngest) : Heartbeat :=
  mkHeartbeat HbCbrs (ci_pubkey v) (Some (ci_cbsd_id v)) (ci_operation_mode v) (ci_lat v) (ci_lon v)
    (uuid_from_slice (ci_coverage_object v)) None (ci_received_timestamp v).

Definition heartbeat_of_wifi (v : WifiHeartbeatIngest) : Heartbeat :=
  mkHeartbeat HbWifi (wf_pubkey v) None (wf_operation_mode v) (wf_lat v) (wf_lon v)
    (uuid_from_slice (wf_coverage_object v)) (wf_location_validation_timestamp v) (wf_received_timestamp v).

(** ** Coverage objects of heartbeats *)

Record CoverageObjectMeta : Type := mkCoverageMeta { cm_inserted_at : Z; cm_indoor : bool }.
Record CachedCoverageObject : Type := mkCachedCoverage {
  cc_meta : CoverageObjectMeta;
  cc_covered_hexes : list Z
}.

(** [CoverageObjectCache::fetch_coverage_object]: the object from the table, its
    hexes from the cache or from the table. *)
Definition fetch_coverage_object (t : coverage_tables) (cache : gmap Uuid (list Z)) (uuid : Uuid) (key : KeyType)
  : gmap Uuid (list Z) * option CachedCoverageObject :=
  match t_coverage_objects t !! uuid with
  | Some row =>
      if String.eqb (cr_radio_key row) (key_encode key) && bool_decide (cr_invalidated_at row = None) then
        let meta := mkCoverageMeta (cr_inserted_at row) (cr_indoor row) in
        match cache !! uuid with
        | Some hexes => (cache, Some (mkCachedCoverage meta hexes))
        | None =>
            let hexes := (fun kv => as_u64 kv.1.2) <$>
                         List.filter (fun kv => String.eqb kv.1.1 uuid) (map_to_list (t_hexes t)) in
            (<[uuid := hexes]> cache, Some (mkCachedCoverage meta hexes))
        end
      else (cache, None)
  | None => (cache, None)
  end.

(** [max_distance_m]; cells that were stored have a centre. *)
Definition max_distance_m (o : CachedCoverageObject) (latlng : LatLng) : Q :=
  fold_left (fun curr_max cell =>
      match latlng_of_cell cell with
      | Some cov => let d := latlng_distance_m cov latlng in if Qle_bool curr_max d then d else curr_max
      | None => curr_max
      end) (cc_covered_hexes o) 0%Q.

(** ** Validation *)

Record ValidatedHeartbeat : Type := mkValidated {
  vh_heartbeat : Heartbeat;
  vh_cell_type : CellType;
  vh_location_trust_score_multiplier : dec;
  vh_distance_to_asserted : option Z;
  vh_coverage_meta : option CoverageObjectMeta;
  vh_validity : HeartbeatValidity
}.

Definition vh_is_valid (v : ValidatedHeartbeat) : bool := bool_decide (vh_validity v = HbValid).

(** What the daemon is configured with. *)
Record hb_env : Type := mkHbEnv {
  he_resolve_gateway : PublicKeyBinary -> option GatewayResolution;    (* [None]: the service fails *)
  he_in_valid_region : Heartbeat -> bool;
  he_max_distance_to_asserted : Z;
  he_max_distance_to_coverage : Z;
  he_modeled_coverage_start : Z
}.

(** The cell type of a heartbeat with a coverage object. *)
Definition hb_cell_type (hb : Heartbeat) (o : CachedCoverageObject) : option CellType :=
  match hb_hb_type hb with
  | HbCbrs => cbsd_id ← hb_cbsd_id hb; from_cbsd_id cbsd_id
  | HbWifi => Some (if cm_indoor (cc_meta o) then NovaGenericWifiIndoor else NovaGenericWifiOutdoor)
  end.

Definition trust_full : dec := dec_new 10 1.
Definition trust_low : dec := dec_new 25 2.

(** The last part of [validate], once the heartbeat has coordinates. *)
Definition validate_gateway (env : hb_env) (hb : Heartbeat) (o : CachedCoverageObject) (cell_type : CellType)
    (hb_latlng : LatLng) : result ValidatedHeartbeat HbError :=
  let meta := Some (cc_meta o) in
  let invalid v := Ok (mkValidated hb cell_type (dec_of_Z 0) None meta v) in
  let? resolution := ok_or (he_resolve_gateway env (hb_hotspot_key hb)) HbResolver in
  match resolution, hb_hb_type hb with
  | GatewayNotFound, _ => invalid HbGatewayNotFound
  | GatewayNotAsserted, HbWifi => invalid HbGatewayNotAsserted
  | AssertedLocation location, HbWifi =>
      let? asserted_latlng := ok_or (latlng_of_cell location) HbCell in
      let distance_to_asserted := round_i64 (latlng_distance_m asserted_latlng hb_latlng) in
      let multiplier :=
        if bool_decide (is_Some (hb_location_validation_timestamp hb))
           && (distance_to_asserted <=? he_max_distance_to_asserted env)
           && (round_u32 (max_distance_m o hb_latlng) <=? he_max_distance_to_coverage env)
        then trust_full else trust_low in
      Ok (mkValidated hb cell_type multiplier (Some distance_to_asserted) meta HbValid)
  | _, _ => Ok (mkValidated hb cell_type trust_full None meta HbValid)
  end.

(** [ValidatedHeartbeat::validate]; the cache of hexes is threaded. *)
Definition validate (env : hb_env) (t : coverage_tables) (cache : gmap Uuid (list Z)) (epoch : Range) (hb : Heartbeat)
  : gmap Uuid (list Z) * result ValidatedHeartbeat HbError :=
  match hb_coverage_object hb with
  | None => (cache, Ok (mkValidated hb CellTypeNone (dec_of_Z 0) None None HbBadCoverageObject))
  | Some uuid =>
      match hb_key hb with
      | None => (cache, Err HbPanic)
      | Some key =>
          let '(cache, found) := fetch_coverage_object t cache uuid key in
          (cache,
           match found with
           | None => Ok (mkValidated hb CellTypeNone (dec_of_Z 0) None None HbNoSuchCoverageObject)
           | Some o =>
               let invalid cell_type v := Ok (mkValidated hb cell_type (dec_of_Z 0) None (Some (cc_meta o)) v) in
               match hb_cell_type hb o with
               | None => invalid CellTypeNone HbBadCbsdId
               | Some cell_type =>
                   if negb (hb_operation_mode hb) then invalid cell_type HbNotOperational
                   else if negb ((r_start epoch <=? hb_timestamp hb) && (hb_timestamp hb <? r_end epoch))
                   then invalid cell_type HbOutsideRange
                   else
                     match latlng_new (hb_lat hb) (hb_lon hb) with
                     | None => invalid cell_type HbInvalidLatLon
                     | Some hb_latlng =>
                         if negb (he_in_valid_region env hb) then invalid cell_type HbUnsupportedLocation
                         else validate_gateway env hb o cell_type hb_latlng
                     end
               end
           end)
      end
  end.

(** ** Seniority updates *)

(** [proto::SeniorityUpdateReason] *)
Inductive SeniorityUpdateReason : Type := NewCoverageClaimTime | HeartbeatNotSeen.
Definition reason_i32 (r : SeniorityUpdateReason) : Z :=
  match r with NewCoverageClaimTime => 0 | HeartbeatNotSeen => 1 end.

Inductive SeniorityUpdateAction : Type :=
| NoAction
| SenInsert (new_seniority : Z) (update_reason : SeniorityUpdateReason)
| SenUpdate (curr_seniority : Z).

Definition days (n : Z) : Z := hours (24 * n).

Definition determine_update_action (hb : Heartbeat) (coverage_claim_time modeled_coverage_start : Z)
    (latest_seniority : option Seniority) : SeniorityUpdateAction :=
  match latest_seniority with
  | Some prev =>
      if bool_decide (hb_coverage_object hb <> Some (sen_uuid prev)) then
        if (sen_update_reason prev =? reason_i32 HeartbeatNotSeen) && (coverage_claim_time <? sen_seniority_ts prev)
        then NoAction
        else SenInsert coverage_claim_time NewCoverageClaimTime
      else if (days 3 <? hb_timestamp hb - sen_last_heartbeat prev) && (coverage_claim_time <? hb_timestamp hb)
      then SenInsert (hb_timestamp hb) HeartbeatNotSeen
      else SenUpdate (sen_seniority_ts prev)
  | None =>
      if days 3 <? hb_timestamp hb - modeled_coverage_start
      then SenInsert (hb_timestamp hb) HeartbeatNotSeen
      else SenInsert coverage_claim_time NewCoverageClaimTime
  end.

Definition set_seniority (t : coverage_tables) (s : gmap (string * HbType * Z) SeniorityRow) : coverage_tables :=
  mkCoverageTables (t_coverage_objects t) (t_hexes t) s.

(** [SeniorityUpdate::execute] for the radio [key] with coverage object [uuid]. A
    row of the same seniority keeps the time it was inserted at. *)
Definition execute_update (t : coverage_tables) (hb : Heartbeat) (key : KeyType) (uuid : Uuid)
    (action : SeniorityUpdateAction) : coverage_tables :=
  let ts := hb_timestamp hb in
  match action with
  | NoAction => t
  | SenInsert new_seniority update_reason =>
      let k := (key_encode key, hb_hb_type hb, new_seniority) in
      let inserted_at :=
        match t_seniority t !! k with Some old => sr_inserted_at old | None => ts end in
      set_seniority t (<[k := mkSeniorityRow uuid ts inserted_at (reason_i32 update_reason)]> (t_seniority t))
  | SenUpdate curr_seniority =>
      set_seniority t
        (map_imap (fun k row =>
           Some (if String.eqb k.1.1 (key_encode key) && (k.2 =? curr_seniority)
                 then mkSeniorityRow (sr_uuid row) ts (sr_inserted_at row) (sr_update_reason row) else row))
           (t_seniority t))
  end.

(** ** Saving *)

Record HbRow : Type := mkHbRow {
  hr_hotspot_key : PublicKeyBinary;
  hr_cell_type : CellType;
  hr_latest_timestamp : Z;
  hr_coverage_object : Uuid;
  hr_location_trust_score_multiplier : dec
}.

(** The tables of the heartbeat daemons: by cbsd id or hotspot, and hour. *)
Record hb_tables : Type := mkHbTables {
  ht_cbrs : gmap (string * Z) HbRow;
  ht_wifi : gmap (PublicKeyBinary * Z) HbRow;
  ht_coverage : coverage_tables
}.

(** [insert .. on conflict do update set latest_timestamp, coverage_object] *)
Definition upsert_hb {K} `{Countable K} (t : gmap K HbRow) (k : K) (row : HbRow) : gmap K HbRow :=
  match t !! k with
  | Some old =>
      <[k := mkHbRow (hr_hotspot_key old) (hr_cell_type old) (hr_latest_timestamp row) (hr_coverage_object row)
               (hr_location_trust_score_multiplier old)]> t
  | None => <[k := row]> t
  end.

(** The other coverage objects of the radio that were inserted before this one
    are invalidated. *)
Definition invalidate_older (t : coverage_tables) (hb : Heartbeat) (key : KeyType) (uuid : Uuid) (inserted_at : Z)
  : coverage_tables :=
  mkCoverageTables
    (map_imap (fun u row =>
       Some (if (cr_inserted_at row <? inserted_at) && bool_decide (cr_invalidated_at row = None)
                && String.eqb (cr_radio_key row) (key_encode key) && negb (String.eqb u uuid)
             then mkCoverageRow (cr_radio_type row) (cr_radio_key row) (cr_indoor row) (cr_coverage_claim_time row)
                    (cr_trust_score row) (cr_inserted_at row) (Some (hb_timestamp hb))
             else row)) (t_coverage_objects t))
    (t_hexes t) (t_seniority t).

(** [ValidatedHeartbeat::save] of a valid heartbeat. *)
Definition save_heartbeat (t : hb_tables) (v : ValidatedHeartbeat) (key : KeyType) (uuid : Uuid)
  : result hb_tables HbError :=
  let hb := vh_heartbeat v in
  let coverage :=
    match vh_coverage_meta v with
    | Some meta => invalidate_older (ht_coverage t) hb key uuid (cm_inserted_at meta)
    | None => ht_coverage t
    end in
  let? truncated := truncated_timestamp hb in
  let row := mkHbRow (hb_hotspot_key hb) (vh_cell_type v) (hb_timestamp hb) uuid
               (vh_location_trust_score_multiplier v) in
  match hb_hb_type hb with
  | HbCbrs =>
      let? cbsd_id := ok_or (hb_cbsd_id hb) HbNoCbsdId in
      Ok (mkHbTables (upsert_hb (ht_cbrs t) (cbsd_id, truncated) row) (ht_wifi t) coverage)
  | HbWifi => Ok (mkHbTables (ht_cbrs t) (upsert_hb (ht_wifi t) (hb_hotspot_key hb, truncated) row) coverage)
  end.

(** ** Processing *)

Record hb_state : Type := mkHbState {
  st_tables : hb_tables;
  st_heartbeat_cache : gset (string * Z);
  st_claim_cache : gmap (string * HbType * option Uuid) Z;
  st_hex_cache : gmap Uuid (list Z);
  st_heartbeat_sink : list ValidatedHeartbeat;
  st_seniority_sink : list (KeyType * Z * SeniorityUpdateReason)
}.

(** [CoverageClaimTimeCache::fetch_coverage_claim_time] *)
Definition fetch_coverage_claim_time (t : coverage_tables) (cache : gmap (string * HbType * option Uuid) Z)
    (key : KeyType) (coverage_object : option Uuid)
  : gmap (string * HbType * option Uuid) Z * option Z :=
  let k := (key_to_id key, coverage_object) in
  match cache !! k with
  | Some coverage_claim_time => (cache, Some coverage_claim_time)
  | None =>
      let coverage_claim_time :=
        uuid ← coverage_object;
        row ← t_coverage_objects t !! uuid;
        if String.eqb (cr_radio_key row) (key_encode key) then Some (cr_coverage_claim_time row) else None in
      match coverage_claim_time with
      | Some time => (<[k := time]> cache, Some time)
      | None => (cache, None)
      end
  end.

(** The seniority part of [process_validated_heartbeats]. *)
Definition update_seniority (env : hb_env) (st : hb_state) (hb : Heartbeat) (key : KeyType) (uuid : Uuid) : hb_state :=
  let t := ht_coverage (st_tables st) in
  let '(claim_cache, found) := fetch_coverage_claim_time t (st_claim_cache st) key (hb_coverage_object hb) in
  match found with
  | None =>
      mkHbState (st_tables st) (st_heartbeat_cache st) claim_cache (st_hex_cache st) (st_heartbeat_sink st)
        (st_seniority_sink st)
  | Some coverage_claim_time =>
      let action := determine_update_action hb coverage_claim_time (he_modeled_coverage_start env)
                      (fetch_latest t key) in
      let written := match action with SenInsert s r => [(key, s, r)] | _ => [] end in
      mkHbState
        (mkHbTables (ht_cbrs (st_tables st)) (ht_wifi (st_tables st)) (execute_update t hb key uuid action))
        (st_heartbeat_cache st) claim_cache (st_hex_cache st) (st_heartbeat_sink st)
        (st_seniority_sink st ++ written)
  end.

Definition push_heartbeat (st : hb_state) (v : ValidatedHeartbeat) : hb_state :=
  mkHbState (st_tables st) (st_heartbeat_cache st) (st_claim_cache st) (st_hex_cache st)
    (st_heartbeat_sink st ++ [v]) (st_seniority_sink st).

Definition set_hex_cache (st : hb_state) (cache : gmap Uuid (list Z)) : hb_state :=
  mkHbState (st_tables st) (st_heartbeat_cache st) (st_claim_cache st) cache (st_heartbeat_sink st)
    (st_seniority_sink st).

(** The body of the loop of [process_validated_heartbeats]. *)
Definition process_validated (env : hb_env) (st : hb_state) (v : ValidatedHeartbeat) : hb_state * result unit HbError :=
  let st := push_heartbeat st v in
  let hb := vh_heartbeat v in
  if negb (vh_is_valid v) then (st, Ok tt)
  else
    match hb_key hb, hb_coverage_object hb with
    | Some key, Some uuid =>
        let st := update_seniority env st hb key uuid in
        match hb_id hb with
        | Err e => (st, Err e)
        | Ok id =>
            if bool_decide (id ∈ st_heartbeat_cache st) then (st, Ok tt)
            else
              match save_heartbeat (st_tables st) v key uuid with
              | Err e => (st, Err e)
              | Ok t =>
                  (mkHbState t ({[id]} ∪ st_heartbeat_cache st) (st_claim_cache st) (st_hex_cache st)
                     (st_heartbeat_sink st) (st_seniority_sink st), Ok tt)
              end
        end
    | _, _ => (st, Err HbPanic)
    end.

Definition process_heartbeat (env : hb_env) (epoch : Range) (st : hb_state) (hb : Heartbeat)
  : hb_state * result unit HbError :=
  let '(cache, r) := validate env (ht_coverage (st_tables st)) (st_hex_cache st) epoch hb in
  let st := set_hex_cache st cache in
  match r with
  | Ok v => process_validated env st v
  | Err e => (st, Err e)
  end.

Fixpoint process_heartbeats (env : hb_env) (epoch : Range) (prefilter : bool) (st : hb_state) (hbs : list Heartbeat)
  : hb_state * result unit HbError :=
  match hbs with
  | [] => (st, Ok tt)
  | hb :: hbs =>
      match (if prefilter then
               match hb_id hb with
               | Ok id => Ok (bool_decide (id ∈ st_heartbeat_cache st))
               | Err _ => Err HbPanic
               end
             else Ok false) with
      | Err e => (st, Err e)
      | Ok true => process_heartbeats env epoch prefilter st hbs
      | Ok false =>
          match process_heartbeat env epoch st hb with
          | (st, Ok _) => process_heartbeats env epoch prefilter st hbs
          | (st, Err e) => (st, Err e)
          end
      end
  end.

(** The epoch of a file, and [process_file] of the two daemons; only the CBRS one
    drops the heartbeats it has seen before it validates them. *)
Definition file_epoch (file_timestamp : Z) : Range :=
  mkRange (file_timestamp - hours 3) (file_timestamp + minutes 30).

Definition finish_file (before : hb_state) (after : hb_state * result unit HbError) : hb_state * result unit HbError :=
  match after with
  | (st, Ok _) => (st, Ok tt)
  | (st, Err e) =>
      (mkHbState (st_tables before) (st_heartbeat_cache st) (st_claim_cache st) (st_hex_cache st)
         (st_heartbeat_sink st) (st_seniority_sink st), Err e)
  end.

Definition process_cbrs_file (env : hb_env) (st : hb_state) (file_timestamp : Z) (reports : list CbrsHeartbeatIngest)
  : hb_state * result unit HbError :=
  finish_file st (process_heartbeats env (file_epoch file_timestamp) true st (heartbeat_of_cbrs <$> reports)).

Definition process_wifi_file (env : hb_env) (st : hb_state) (file_timestamp : Z) (reports : list WifiHeartbeatIngest)
  : hb_state * result unit HbError :=
  finish_file st (process_heartbeats env (file_epoch file_timestamp) false st (heartbeat_of_wifi <$> reports)).

Definition clear_heartbeats (t : hb_tables) (timestamp : Z) : hb_tables :=
  mkHbTables (filter (fun kv => timestamp <= kv.1.2) (ht_cbrs t)) (filter (fun kv => timestamp <= kv.1.2) (ht_wifi t))
    (ht_coverage t).
End Heartbeats.

Arguments ValidatedHeartbeat dec {_} : rename.
Arguments HbRow dec : clear implicits.
Arguments hb_tables dec : clear implicits.
Arguments hb_state dec {_} : rename.

(** ** When a heartbeat is valid *)

Section Validity.
Context {dec : Type} {D : Decimal dec} {CH : Chrono} {KT : KeyText} {LL : LatLngs}.

(** The heartbeat names a coverage object of its radio that is in force. *)
Definition claims_object (t : coverage_tables) (cache : gmap Uuid (list Z)) (hb : Heartbeat)
    (o : CachedCoverageObject) : Prop :=
  exists uuid key, hb_coverage_object hb = Some uuid /\ hb_key hb = Some key /\
    (fetch_coverage_object t cache uuid key).2 = Some o.

(** Its gateway is known, and asserted if it is a Wi-Fi radio. *)
Definition gateway_ok (env : hb_env) (hb : Heartbeat) : Prop :=
  exists res, he_resolve_gateway env (hb_hotspot_key hb) = Some res /\ res <> GatewayNotFound /\
    (hb_hb_type hb = HbWifi -> exists location, res = AssertedLocation location).

(** A Wi-Fi radio whose location is validated and near enough to where its gateway
    is asserted and to all it claims to cover; any CBRS radio. *)
Definition fully_trusted (env : hb_env) (hb : Heartbeat) (o : CachedCoverageObject) : Prop :=
  hb_hb_type hb = HbWifi ->
  is_Some (hb_location_validation_timestamp hb) /\
  exists location asserted ll,
    he_resolve_gateway env (hb_hotspot_key hb) = Some (AssertedLocation location) /\
    latlng_of_cell location = Some asserted /\ latlng_new (hb_lat hb) (hb_lon hb) = Some ll /\
    round_i64 (latlng_distance_m asserted ll) <= he_max_distance_to_asserted env /\
    round_u32 (max_distance_m o ll) <= he_max_distance_to_coverage env.

Lemma validate_gateway_spec env hb o ct ll (v : ValidatedHeartbeat dec) :
  latlng_new (hb_lat hb) (hb_lon hb) = Some ll ->
  validate_gateway env hb o ct ll = Ok v ->
  (vh_validity v = HbValid <-> gateway_ok env hb) /\
  (vh_validity v = HbValid ->
   (fully_trusted env hb o /\ vh_location_trust_score_multiplier v = trust_full) \/
   (~ fully_trusted env hb o /\ vh_location_trust_score_multiplier v = trust_low)).
Proof.
  intros Ell. unfold validate_gateway, gateway_ok, fully_trusted.
  destruct (he_resolve_gateway env (hb_hotspot_key hb)) as [res|]; [|done]. cbn [ok_or result_bind].
  destruct res as [| |loc]; destruct (hb_hb_type hb) eqn:Et;
    try (intros [= <-]; cbn; split; [split; [done|]; intros (r & [= <-] & Hr & Hw); done|done]).
  - intros [= <-]. cbn. split; [|by intros _; left]. split; [|done]. intros _. by exists GatewayNotAsserted.
  - intros [= <-]. cbn. split; [|done]. split; [done|]. intros (r & [= <-] & _ & Hw). by destruct Hw.
  - intros [= <-]. cbn. split; [|by intros _; left]. split; [|done]. intros _. by exists (AssertedLocation loc).
  - destruct (latlng_of_cell loc) as [asserted|] eqn:Ea; [|done]. cbn [ok_or result_bind]. intros [= <-]. cbn.
    split; [split; [intros _|done]; exists (AssertedLocation loc); split; [done|]; split; [done|]; by exists loc|].
    intros _. destruct (bool_decide _ && _ && _) eqn:E; [left|right]; (split; [|done]).
    + apply andb_true_iff in E as [[H1 H2]%andb_true_iff H3]. apply bool_decide_eq_true in H1.
      intros _. split; [done|]. exists loc, asserted, ll. zbool. done.
    + intros H. destruct (H eq_refl) as (H1 & loc' & a' & ll' & [= <-] & Ea' & Ell' & H2 & H3).
      rewrite Ea in Ea'. injection Ea' as <-. rewrite Ell in Ell'. injection Ell' as <-.
      rewrite bool_decide_true, (proj2 (Z.leb_le _ _) H2), (proj2 (Z.leb_le _ _) H3) in E by done. done.
Qed.

(** The cases in which a check of [validate] rejects: what is left is that the
    conditions of the theorem do not hold. *)
Ltac rejected Hv := injection Hv as <-; cbn; split; [done|]; split; [split; [done|]|done].

End Validity.

(** ** What a heartbeat does to the seniority of its radio *)

Section SeniorityTheorems.
Context {dec : Type} {D : Decimal dec} {CH : Chrono} {KT : KeyText} {LL : LatLngs}.
Implicit Types (t : coverage_tables) (key : KeyType) (hb : Heartbeat).

Lemma elem_of_seniority_rows t key s :
  s ∈ seniority_rows t key <->
  exists ty, t_seniority t !! (key_encode key, ty, sen_seniority_ts s) =
    Some (mkSeniorityRow (sen_uuid s) (sen_last_heartbeat s) (sen_inserted_at s) (sen_update_reason s)).
Proof.
  unfold seniority_rows. rewrite list_elem_of_fmap. split.
  - intros ([[[rk ty] ts] row] & -> & Hin). cbn. apply elem_of_filter_bool in Hin as [Hin Hk]. cbn in Hk.
    apply String.eqb_eq in Hk as ->. apply elem_of_map_to_list in Hin. exists ty. rewrite Hin. by destruct row.
  - intros (ty & Hl). eexists ((key_encode key, ty, sen_seniority_ts s), _). split; [|].
    2: { apply elem_of_filter_bool. split; [apply elem_of_map_to_list, Hl|apply String.eqb_refl]. }
    by destruct s.
Qed.

(** The rows of a radio are of the type of its heartbeats, and none of them was
    seen after the heartbeat. *)
Definition radio_rows_ok t key hb : Prop :=
  forall ty ts row, t_seniority t !! (key_encode key, ty, ts) = Some row ->
    ty = hb_hb_type hb /\ sr_last_heartbeat row < hb_timestamp hb.

(** A row that was seen last is the latest. *)
Lemma fetch_latest_unique t key s :
  s ∈ seniority_rows t key ->
  (forall x, x ∈ seniority_rows t key -> x <> s -> sen_last_heartbeat x < sen_last_heartbeat s) ->
  fetch_latest t key = Some s.
Proof.
  intros Hs Hmax. unfold fetch_latest. pose proof (head_sort_by_key (fun s => - sen_last_heartbeat s) (seniority_rows t key)) as H.
  destruct (head _) as [x|]; [|rewrite H in Hs; by apply not_elem_of_nil in Hs].
  destruct H as [Hx Hmin]. specialize (Hmin s Hs). f_equal.
  assert (EqDecision Seniority) as Hdec by solve_decision. destruct (decide (x = s)) as [->|Hne]; [done|].
  specialize (Hmax x Hx Hne). lia.
Qed.

Definition row_of (s : Seniority) : SeniorityRow :=
  mkSeniorityRow (sen_uuid s) (sen_last_heartbeat s) (sen_inserted_at s) (sen_update_reason s).

Lemma insert_fetch_latest t key hb uuid ts reason :
  radio_rows_ok t key hb ->
  exists inserted_at,
    fetch_latest (execute_update t hb key uuid (SenInsert ts reason)) key =
    Some (mkSeniority uuid ts (hb_timestamp hb) inserted_at (reason_i32 reason)).
Proof.
  intros Hok. unfold execute_update.
  set (ia := match t_seniority t !! (key_encode key, hb_hb_type hb, ts) with Some old => _ | None => _ end).
  exists ia. apply fetch_latest_unique.
  - apply elem_of_seniority_rows. exists (hb_hb_type hb). cbn. by rewrite lookup_insert_eq.
  - intros x Hx Hne. apply elem_of_seniority_rows in Hx as (ty & Hl). cbn in Hl |- *.
    destruct (decide ((key_encode key, hb_hb_type hb, ts) = (key_encode key, ty, sen_seniority_ts x))) as [E|E].
    + rewrite E, lookup_insert_eq in Hl. injection Hl as E1 E2 E3 E4. exfalso. apply Hne.
      injection E as _ E5. destruct x; cbn in *. congruence.
    + rewrite lookup_insert_ne in Hl by done. by apply Hok in Hl as [_ Hlt].
Qed.

Lemma update_fetch_latest t key hb uuid prev :
  radio_rows_ok t key hb -> fetch_latest t key = Some prev ->
  fetch_latest (execute_update t hb key uuid (SenUpdate (sen_seniority_ts prev))) key =
  Some (mkSeniority (sen_uuid prev) (sen_seniority_ts prev) (hb_timestamp hb) (sen_inserted_at prev)
          (sen_update_reason prev)).
Proof.
  intros Hok Hf. assert (prev ∈ seniority_rows t key) as Hin.
  { unfold fetch_latest in Hf. pose proof (head_sort_by_key (fun s => - sen_last_heartbeat s) (seniority_rows t key)) as H.
    rewrite Hf in H. apply H. }
  apply elem_of_seniority_rows in Hin as (ty & Hp). apply fetch_latest_unique.
  - apply elem_of_seniority_rows. exists ty. cbn. rewrite map_lookup_imap. cbn.
    rewrite Hp. cbn. by rewrite String.eqb_refl, Z.eqb_refl.
  - intros x Hx Hne. apply elem_of_seniority_rows in Hx as (ty' & Hl). cbn in Hl |- *.
    rewrite map_lookup_imap in Hl. cbn in Hl.
    destruct (t_seniority t !! (key_encode key, ty', sen_seniority_ts x)) as [row|] eqn:E; [|done]. cbn in Hl.
    rewrite String.eqb_refl in Hl. cbn in Hl. destruct (Z.eqb_spec (sen_seniority_ts x) (sen_seniority_ts prev)) as [Ets|Ets].
    + exfalso. apply Hne. injection Hl as E1 E2 E3 E4.
      assert (ty' = ty) as -> by (apply Hok in E as [-> _]; by apply Hok in Hp as [-> _]).
      rewrite Ets, Hp in E. injection E as <-. destruct x; cbn in *. congruence.
    + injection Hl as ->. by apply Hok in E as [_ Hlt].
Qed.

(** A heartbeat that is later than the last one of its radio leaves the radio
    with this seniority.  A radio without any gets the claim time of its coverage
    object, or the time of the heartbeat once modelled coverage is three days old.
    With the same coverage object it keeps its seniority, unless it was not seen
    for more than three days: then it starts anew.  With another coverage object
    it takes over its claim time, unless that would undo a restart. *)
Theorem heartbeat_seniority t key hb uuid claim start :
  hb_coverage_object hb = Some uuid -> radio_rows_ok t key hb ->
  let t' := execute_update t hb key uuid (determine_update_action hb claim start (fetch_latest t key)) in
  exists s, fetch_latest t' key = Some s /\
  match fetch_latest t key with
  | None =>
      sen_uuid s = uuid /\ sen_last_heartbeat s = hb_timestamp hb /\
      sen_seniority_ts s = if days 3 <? hb_timestamp hb - start then hb_timestamp hb else claim
  | Some prev =>
      if bool_decide (uuid = sen_uuid prev) then
        sen_uuid s = uuid /\ sen_last_heartbeat s = hb_timestamp hb /\
        sen_seniority_ts s =
          if (days 3 <? hb_timestamp hb - sen_last_heartbeat prev) && (claim <? hb_timestamp hb)
          then hb_timestamp hb else sen_seniority_ts prev
      else if (sen_update_reason prev =? reason_i32 HeartbeatNotSeen) && (claim <? sen_seniority_ts prev)
      then s = prev
      else sen_uuid s = uuid /\ sen_last_heartbeat s = hb_timestamp hb /\ sen_seniority_ts s = claim
  end.
Proof.
  intros Hu Hok. cbv zeta. unfold determine_update_action. rewrite Hu.
  destruct (fetch_latest t key) as [prev|] eqn:Ef.
  - destruct (decide (uuid = sen_uuid prev)) as [E|E].
    + rewrite (bool_decide_true (uuid = _)), bool_decide_false by (done || congruence).
      destruct (_ && _).
      * destruct (insert_fetch_latest t key hb uuid (hb_timestamp hb) HeartbeatNotSeen Hok) as (ia & ->). by eexists.
      * rewrite (update_fetch_latest t key hb uuid prev Hok Ef). eexists. split; [done|]. by rewrite E.
    + rewrite (bool_decide_false (uuid = _)), bool_decide_true by (done || congruence).
      destruct (_ && _); [by exists prev|].
      destruct (insert_fetch_latest t key hb uuid claim NewCoverageClaimTime Hok) as (ia & ->). by eexists.
  - destruct (_ <? _).
    + destruct (insert_fetch_latest t key hb uuid (hb_timestamp hb) HeartbeatNotSeen Hok) as (ia & ->). by eexists.
    + destruct (insert_fetch_latest t key hb uuid claim NewCoverageClaimTime Hok) as (ia & ->). by eexists.
Qed.

(** The seniority that is rewarded is looked up by the time its row was
    inserted, and a row that is taken up again keeps that time.  A radio that
    returns to an earlier coverage object has that object's seniority again, yet
    it is rewarded with another one, and the reward deletes the right one. *)
Theorem seniority_switch_back t key hb uuid claim start prev old period_end :
  hb_coverage_object hb = Some uuid -> radio_rows_ok t key hb ->
  fetch_latest t key = Some prev -> sen_uuid prev <> uuid ->
  sen_update_reason prev = reason_i32 NewCoverageClaimTime ->
  t_seniority t !! (key_encode key, hb_hb_type hb, claim) = Some old ->
  sr_inserted_at old < sen_inserted_at prev <= period_end ->
  let t' := execute_update t hb key uuid (determine_update_action hb claim start (fetch_latest t key)) in
  (exists s, fetch_latest t' key = Some s /\ sen_uuid s = uuid /\ sen_seniority_ts s = claim) /\
  (exists s, fetch_seniority t' key period_end = Some s /\ sen_seniority_ts s <> claim /\
     t_seniority (covered_hex_stream t' key uuid s).1 !! (key_encode key, hb_hb_type hb, claim) = None).
Proof.
  intros Hu Hok Hf Hne Hr Hold Hia. cbv zeta. unfold determine_update_action. rewrite Hf, Hu, Hr.
  rewrite bool_decide_true by congruence. cbn [reason_i32 Z.eqb andb]. split.
  { destruct (insert_fetch_latest t key hb uuid claim NewCoverageClaimTime Hok) as (ia & ->). by eexists. }
  set (t' := execute_update _ _ _ _ _).
  assert (t_seniority t' = <[(key_encode key, hb_hb_type hb, claim) :=
    mkSeniorityRow uuid (hb_timestamp hb) (sr_inserted_at old) 0]> (t_seniority t)) as Et
    by (unfold t', execute_update; cbn; by rewrite Hold).
  clearbody t'. assert (prev ∈ seniority_rows t key) as Hin.
  { unfold fetch_latest in Hf. pose proof (head_sort_by_key (fun s => - sen_last_heartbeat s) (seniority_rows t key)) as H.
    rewrite Hf in H. apply H. }
  apply elem_of_seniority_rows in Hin as (ty & Hp). pose proof (Hok _ _ _ Hp) as [-> _].
  assert (sen_seniority_ts prev <> claim) as Hts by (intros <-; rewrite Hp in Hold; injection Hold as <-; cbn in Hia; lia).
  assert (prev ∈ seniority_rows t' key) as Hin'.
  { apply elem_of_seniority_rows. exists (hb_hb_type hb). rewrite Et, lookup_insert_ne; [done|congruence]. }
  unfold fetch_seniority.
  pose proof (head_sort_by_key (fun s => - sen_inserted_at s)
    (List.filter (fun s => sen_inserted_at s <=? period_end) (seniority_rows t' key))) as H.
  destruct (head _) as [s|].
  2: { exfalso. eapply not_elem_of_nil. rewrite <- H. apply elem_of_filter_bool. split; [exact Hin'|].
       apply Z.leb_le. lia. }
  destruct H as [Hs Hmin]. apply elem_of_filter_bool in Hs as [Hs _].
  assert (sen_inserted_at prev <= sen_inserted_at s) as Hle.
  { enough (- sen_inserted_at s <= - sen_inserted_at prev) by lia. apply Hmin, elem_of_filter_bool.
    split; [done|apply Z.leb_le; lia]. }
  exists s. split; [done|]. split.
  - intros E. apply elem_of_seniority_rows in Hs as (ty' & Hl). rewrite Et, E in Hl.
    destruct (decide (ty' = hb_hb_type hb)) as [->|Hty].
    + rewrite lookup_insert_eq in Hl. injection Hl as _ _ Hi _. lia.
    + rewrite lookup_insert_ne in Hl by congruence. by apply Hok in Hl as [? _].
  - cbn. apply map_lookup_filter_None. right. intros row Hrow. rewrite Et, lookup_insert_eq in Hrow.
    injection Hrow as <-. cbn. intros Hnot. apply Hnot. split; [lia|done].
Qed.
End SeniorityTheorems.

(** ** Examples *)

Module ExampleHeartbeats.
#[global] Instance line : LatLngs := {
  Coord := Z;
  LatLng := Z;
  latlng_new lat lon := Some lat;
  latlng_of_cell c := Some c;
  latlng_distance_m a b := inject_Z (Z.abs (a - b))
}.

Definition uuid_a : string := "aaaaaaaaaaaaaaaa".
Definition uuid_b : string := "bbbbbbbbbbbbbbbb".
Definition hotspot : KeyType := KWifi "hs".

Definition heartbeat (uuid : string) (ts : Z) : Heartbeat :=
  mkHeartbeat HbWifi "hs" None true 100 0 (Some uuid) (Some 5) ts.

Definition env : hb_env :=
  mkHbEnv (fun _ => Some (AssertedLocation 130)) (fun _ => true) 50 200 0.

(** The radio claimed [uuid_a] at day 1 and switched to [uuid_b] at day 5. *)
Definition tables : coverage_tables :=
  mkCoverageTables
    {[uuid_a := mkCoverageRow HbWifi (key_encode hotspot) true (days 1) 0 (days 1) None;
      uuid_b := mkCoverageRow HbWifi (key_encode hotspot) true (days 5) 0 (days 5) None]}
    {[(uuid_a, 90) := mkHexRow SHigh 0]}
    {[(key_encode hotspot, HbWifi, days 1) := mkSeniorityRow uuid_a (days 4) (days 1) 0;
      (key_encode hotspot, HbWifi, days 5) := mkSeniorityRow uuid_b (days 6) (days 5) 0]}.

Lemma tables_rows_ok ts : days 6 < ts -> radio_rows_ok tables hotspot (heartbeat uuid_a ts).
Proof.
  intros Hts ty k row Hl. unfold tables in Hl. cbn [t_seniority] in Hl.
  rewrite lookup_insert_Some, lookup_singleton_Some in Hl.
  destruct Hl as [[[= <- <-] <-]|[_ [[= <- <-] <-]]]; cbn; (split; [done|]); unfold days, hours, second in *; lia.
Qed.

Definition validated : ValidatedHeartbeat Q :=
  mkValidated (heartbeat uuid_a (days 7)) NovaGenericWifiIndoor trust_full (Some 30)
    (Some (mkCoverageMeta (days 1) true)) HbValid.
End ExampleHeartbeats.


Lemma heartbeat_seniority_witness :
  exists s, fetch_latest
    (execute_update ExampleHeartbeats.tables (ExampleHeartbeats.heartbeat ExampleHeartbeats.uuid_a (days 7))
       ExampleHeartbeats.hotspot ExampleHeartbeats.uuid_a
       (determine_update_action (ExampleHeartbeats.heartbeat ExampleHeartbeats.uuid_a (days 7)) (days 1) 0
          (fetch_latest ExampleHeartbeats.tables ExampleHeartbeats.hotspot))) ExampleHeartbeats.hotspot = Some s.
Proof.
  destruct (heartbeat_seniority ExampleHeartbeats.tables ExampleHeartbeats.hotspot
    (ExampleHeartbeats.heartbeat ExampleHeartbeats.uuid_a (days 7)) ExampleHeartbeats.uuid_a (days 1) 0) as (s & Hs & _).
  - reflexivity.
  - apply ExampleHeartbeats.tables_rows_ok. by vm_compute.
  - exists s. exact Hs.
Defined.

Lemma seniority_switch_back_witness :
  exists s, fetch_seniority
    (execute_update ExampleHeartbeats.tables (ExampleHeartbeats.heartbeat ExampleHeartbeats.uuid_a (days 7))
       ExampleHeartbeats.hotspot ExampleHeartbeats.uuid_a
       (determine_update_action (ExampleHeartbeats.heartbeat ExampleHeartbeats.uuid_a (days 7)) (days 1) 0
          (fetch_latest ExampleHeartbeats.tables ExampleHeartbeats.hotspot))) ExampleHeartbeats.hotspot (days 8) = Some s /\
    sen_seniority_ts s <> days 1.
Proof.
  destruct (seniority_switch_back ExampleHeartbeats.tables ExampleHeartbeats.hotspot
    (ExampleHeartbeats.heartbeat ExampleHeartbeats.uuid_a (days 7)) ExampleHeartbeats.uuid_a (days 1) 0
    (mkSeniority ExampleHeartbeats.uuid_b (days 5) (days 6) (days 5) 0)
    (mkSeniorityRow ExampleHeartbeats.uuid_a (days 4) (days 1) 0) (days 8)) as (_ & s & H1 & H2 & _).
  - reflexivity.
  - apply ExampleHeartbeats.tables_rows_ok. by vm_compute.
  - vm_compute. reflexivity.
  - discriminate.
  - reflexivity.
  - vm_compute. reflexivity.
  - split; by vm_compute.
  - exists s. split; [exact H1|exact H2].
Defined.
