(* ===== verification/MobileRewards.v ===== *)
(** * Rewards of the mobile network

    [mobile_verifier/src/reward_shares.rs] and the reward half of [rewarder.rs],
    with the tables they read: [data_session.rs], [subscriber_location.rs] and the
    query [heartbeats/valid_radios.sql].  Rewards go to radios for coverage, to
    hotspots for data transfer, to mappers and to service providers; the oracles'
    share is unallocated. *)

From S2P Require Import Prelude Solana FileStoreTypes Decimal Scheduler MobileSpeedtests MobileCoverage MobileHeartbeats.
From Stdlib Require Import Qabs.

Open Scope Z_scope.
Open Scope oracle_scope.

(** ** Data transfer sessions *)

Record HotspotDataSession : Type := mkDataSession {
  hd_pub_key : PublicKeyBinary;
  hd_payer : PublicKeyBinary;
  hd_upload_bytes : Z;                      (* bigint *)
  hd_download_bytes : Z;                    (* bigint *)
  hd_num_dcs : Z;                           (* bigint *)
  hd_received_timestamp : Z
}.

(** [ValidDataTransferSession], with unsigned counts. *)
Record ValidDataTransferSession : Type := mkValidSession {
  vd_pub_key : PublicKeyBinary;
  vd_payer : PublicKeyBinary;
  vd_upload_bytes : Z;
  vd_download_bytes : Z;
  vd_num_dcs : Z
}.

Definition from_valid_data_session (v : ValidDataTransferSession) (received_timestamp : Z) : HotspotDataSession :=
  mkDataSession (vd_pub_key v) (vd_payer v) (as_i64 (vd_upload_bytes v)) (as_i64 (vd_download_bytes v))
    (as_i64 (vd_num_dcs v)) received_timestamp.

(** The table has no key: its rows are a list. *)
Definition save_data_session (t : list HotspotDataSession) (s : HotspotDataSession) : list HotspotDataSession := t ++ [s].

(** [DataSessionIngestor::process_file] *)
Definition process_data_session_file (t : list HotspotDataSession) (file_ts : Z)
    (reports : list ValidDataTransferSession) : list HotspotDataSession :=
  fold_left (fun t report => save_data_session t (from_valid_data_session report file_ts)) reports t.

Record HotspotReward : Type := mkHotspotReward { rewardable_bytes : Z; rewardable_dc : Z }.

(** [map.entry(key).or_default()], with wrapping sums. *)
Definition add_session (m : gmap PublicKeyBinary HotspotReward) (s : HotspotDataSession)
  : gmap PublicKeyBinary HotspotReward :=
  let rewards := default (mkHotspotReward 0 0) (m !! hd_pub_key s) in
  <[hd_pub_key s :=
      mkHotspotReward
        (u64_add (rewardable_bytes rewards) (u64_add (as_u64 (hd_upload_bytes s)) (as_u64 (hd_download_bytes s))))
        (u64_add (rewardable_dc rewards) (as_u64 (hd_num_dcs s)))]> m.

Definition data_sessions_to_dc (sessions : list HotspotDataSession) : gmap PublicKeyBinary HotspotReward :=
  fold_left add_session sessions ∅.

Definition in_epoch (epoch : Range) (t : Z) : bool := (r_start epoch <=? t) && (t <? r_end epoch).

Definition aggregate_hotspot_data_sessions_to_dc (t : list HotspotDataSession) (epoch : Range)
  : gmap PublicKeyBinary HotspotReward :=
  data_sessions_to_dc (List.filter (fun s => in_epoch epoch (hd_received_timestamp s)) t).

(** [sum(num_dcs)::bigint .. group by payer]; [None] when a sum is no bigint. *)
Definition sum_data_sessions_to_dc_by_payer (t : list HotspotDataSession) (epoch : Range)
  : option (gmap PublicKeyBinary Z) :=
  let rows := List.filter (fun s => in_epoch epoch (hd_received_timestamp s)) t in
  let sums := fold_left (fun m s => <[hd_payer s := default 0 (m !! hd_payer s) + hd_num_dcs s]> m) rows
                (∅ : gmap PublicKeyBinary Z) in
  if forallb (fun kv => (- 2 ^ 63 <=? kv.2) && (kv.2 <? 2 ^ 63)) (map_to_list sums)
  then Some (as_u64 <$> sums) else None.

Definition clear_hotspot_data_sessions (t : list HotspotDataSession) (timestamp : Z) : list HotspotDataSession :=
  List.filter (fun s => timestamp <=? hd_received_timestamp s) t.

(** ** Subscriber locations *)

Record SubscriberLocation : Type := mkSubscriberLocation { sl_subscriber_id : string; sl_received_timestamp : Z }.

Inductive SubscriberReportVerificationStatus : Type := SubscriberValid | InvalidCarrierKey | InvalidSubscriberId.

(** The answers of the authorization and entity services; [None] is an error. *)
Definition verify_known_carrier_key (authorization : PublicKeyBinary -> option bool) (k : PublicKeyBinary) : bool :=
  default false (authorization k).
Definition verify_subscriber_id (entity : string -> option bool) (id : string) : bool := default false (entity id).

Definition verify_location_report (authorization : PublicKeyBinary -> option bool) (entity : string -> option bool)
    (carrier_pub_key : PublicKeyBinary) (subscriber_id : string) : SubscriberReportVerificationStatus :=
  if negb (verify_known_carrier_key authorization carrier_pub_key) then InvalidCarrierKey
  else if negb (verify_subscriber_id entity subscriber_id) then InvalidSubscriberId
  else SubscriberValid.

Record LocationReport : Type := mkLocationReport {
  lr_carrier_pub_key : PublicKeyBinary;
  lr_subscriber_id : string;
  lr_received_timestamp : Z
}.

Definition process_location (authorization : PublicKeyBinary -> option bool) (entity : string -> option bool)
    (acc : list SubscriberLocation * list (LocationReport * SubscriberReportVerificationStatus)) (r : LocationReport)
  : list SubscriberLocation * list (LocationReport * SubscriberReportVerificationStatus) :=
  let '(t, sink) := acc in
  let status := verify_location_report authorization entity (lr_carrier_pub_key r) (lr_subscriber_id r) in
  let t :=
    match status with
    | SubscriberValid => t ++ [mkSubscriberLocation (lr_subscriber_id r) (lr_received_timestamp r)]
    | _ => t
    end in
  (t, sink ++ [(r, status)]).

Definition SUBSCRIBER_REWARD_PERIOD_IN_DAYS : Z := 1.

(** [select distinct(subscriber_id)] *)
Definition aggregate_location_shares (t : list SubscriberLocation) (reward_period : Range) : list string :=
  remove_dups (sl_subscriber_id <$>
    List.filter (fun s => in_epoch (mkRange (r_end reward_period - days SUBSCRIBER_REWARD_PERIOD_IN_DAYS)
                                      (r_end reward_period)) (sl_received_timestamp s)) t).

(** ** Radios with enough heartbeats *)

Definition MINIMUM_HEARTBEAT_COUNT : Z := 12.

(** The average of a numeric column lies between its values. *)
Class PgNumeric (dec : Type) `{!Decimal dec, !DecimalLaws dec} : Type := {
  numeric_avg : list dec -> dec;
  numeric_avg_bounds l lo hi :
    l <> [] -> (forall a, a ∈ l -> (lo <= dval a <= hi)%Q) -> (lo <= dval (numeric_avg l) <= hi)%Q
}.

Section ValidRadios.
Context {dec : Type} {D : Decimal dec} {DL : DecimalLaws dec} {PG : PgNumeric dec}.

Record HeartbeatReward : Type := mkHeartbeatReward {
  hw_hotspot_key : PublicKeyBinary;
  hw_cbsd_id : option string;
  hw_cell_type : CellType;
  hw_location_trust_score_multiplier : dec;
  hw_coverage_object : Uuid
}.

Definition hw_key (h : HeartbeatReward) : KeyType :=
  match hw_cbsd_id h with Some id => KCbrs id | None => KWifi (hw_hotspot_key h) end.

Definition hour_rows (t : gmap (string * Z) (HbRow dec)) (epoch : Range) : list ((string * Z) * HbRow dec) :=
  List.filter (fun kv => in_epoch epoch kv.1.2) (map_to_list t).

(** The groups of [group by id, cell_type]. *)
Definition hour_groups (rows : list ((string * Z) * HbRow dec)) : list (string * CellType) :=
  remove_dups ((fun kv => (kv.1.1, hr_cell_type kv.2)) <$> rows).
Definition hour_group (rows : list ((string * Z) * HbRow dec)) (g : string * CellType) : list ((string * Z) * HbRow dec) :=
  List.filter (fun kv => String.eqb kv.1.1 g.1 && bool_decide (hr_cell_type kv.2 = g.2)) rows.

(** [distinct on .. order by .. desc]: a row with the greatest value. *)
Definition last_by (key : (string * Z) * HbRow dec -> Z) (rows : list ((string * Z) * HbRow dec))
  : option ((string * Z) * HbRow dec) :=
  head (sort_by_key (fun kv => - key kv) rows).

(** A group of the result: the hotspot the radio was last seen at, and the
    coverage object of the last hour it was seen there. *)
Definition radio_of_group (cbrs : bool) (rows : list ((string * Z) * HbRow dec)) (g : string * CellType)
  : option HeartbeatReward :=
  let of_id := List.filter (fun kv => String.eqb kv.1.1 g.1) rows in
  let group := hour_group rows g in
  if MINIMUM_HEARTBEAT_COUNT <=? Z.of_nat (length group) then
    latest ← last_by (fun kv => hr_latest_timestamp kv.2) of_id;
    let hotspot := if cbrs then hr_hotspot_key latest.2 else g.1 in
    let at_hotspot := if cbrs then List.filter (fun kv => String.eqb (hr_hotspot_key kv.2) hotspot) of_id else of_id in
    last ← last_by (fun kv => kv.1.2) at_hotspot;
    Some (mkHeartbeatReward hotspot (if cbrs then Some g.1 else None) g.2
            (numeric_avg ((fun kv => hr_location_trust_score_multiplier kv.2) <$> group))
            (hr_coverage_object last.2))
  else None.

(** [HeartbeatReward::validated] *)
Definition validated_radios (t : hb_tables dec) (epoch : Range) : list HeartbeatReward :=
  let cbrs := hour_rows (ht_cbrs t) epoch in
  let wifi := hour_rows (ht_wifi t) epoch in
  omap (radio_of_group true cbrs) (hour_groups cbrs) ++ omap (radio_of_group false wifi) (hour_groups wifi).
End ValidRadios.

Arguments HeartbeatReward dec : clear implicits.

(** ** Emission *)

Section Emission.
Context {dec : Type} {D : Decimal dec}.

Definition TOTAL_EMISSIONS_POOL : dec := dec_of_Z 30000000000000000.
Definition MAX_DATA_TRANSFER_REWARDS_PERCENT : dec := dec_new 4 1.
Definition DC_USD_PRICE : dec := dec_new 1 5.
Definition DEFAULT_PREC : nat := 15.
Definition MAPPERS_REWARDS_PERCENT : dec := dec_new 2 1.
Definition DISCOVERY_MAPPING_SHARES : dec := dec_of_Z 30.
Definition SERVICE_PROVIDER_PERCENT : dec := dec_new 1 1.
Definition ORACLES_PERCENT : dec := dec_new 4 2.

(** [Duration::num_seconds]: whole seconds, towards zero. *)
Definition num_secs (d : Z) : Z := Z.quot d second.

Definition get_total_scheduled_tokens (duration : Z) : dec :=
  (TOTAL_EMISSIONS_POOL / dec_of_Z 366 / dec_of_Z 86400 * dec_of_Z (num_secs duration))%dec.
Definition get_scheduled_tokens_for_poc (duration : Z) : dec := (get_total_scheduled_tokens duration * dec_new 6 1)%dec.
Definition get_scheduled_tokens_for_mappers (duration : Z) : dec :=
  (get_total_scheduled_tokens duration * MAPPERS_REWARDS_PERCENT)%dec.
Definition get_scheduled_tokens_for_service_providers (duration : Z) : dec :=
  (get_total_scheduled_tokens duration * SERVICE_PROVIDER_PERCENT)%dec.
Definition get_scheduled_tokens_for_oracles (duration : Z) : dec :=
  (get_total_scheduled_tokens duration * ORACLES_PERCENT)%dec.

Definition dc_to_mobile_bones (dc_amount mobile_bone_price : dec) : dec :=
  let dc_in_usd := (dc_amount * DC_USD_PRICE)%dec in
  round_dp DEFAULT_PREC ToPositiveInfinity (dc_in_usd / mobile_bone_price)%dec.
End Emission.

(** ** Messages *)

Record RadioReward : Type := mkRadioReward {
  rr_hotspot_key : PublicKeyBinary;
  rr_cbsd_id : string;
  rr_poc_reward : Z;
  rr_coverage_points : Z;
  rr_seniority_timestamp : Z;
  rr_coverage_object : Uuid;
  rr_location_trust_score_multiplier : Z;
  rr_speedtest_multiplier : Z
}.

Inductive UnallocatedType : Type := UPoc | UData | UMapper | UServiceProvider | UOracle.

(** [proto::mobile_reward_share::Reward] *)
Inductive MobileReward : Type :=
| MGateway (hotspot_key : PublicKeyBinary) (dc_transfer_reward rewardable_bytes price : Z)
| MRadio (r : RadioReward)
| MSubscriber (subscriber_id : string) (discovery_location_amount : Z)
| MServiceProvider (service_provider_id : Z) (amount : Z)
| MUnallocated (reward_type : UnallocatedType) (amount : Z).

Record MobileRewardShare : Type := mkMobileShare {
  ms_start_period : Z;
  ms_end_period : Z;
  ms_reward : MobileReward
}.

Definition mobile_share (p : Range) (r : MobileReward) : MobileRewardShare :=
  mkMobileShare (encode_timestamp (r_start p)) (encode_timestamp (r_end p)) r.

Section Rewards.
Context {dec : Type} {D : Decimal dec}.

(** [.round_dp_with_strategy(0, ToZero).to_u64().unwrap_or(0)] *)
Definition whole_bones (a : dec) : Z := to_u64_or_0 (round_dp 0 ToZero a).

(** ** Data transfer *)

Record TransferReward : Type := mkTransferReward { tr_bones : dec; tr_bytes_rewarded : Z }.

Record TransferRewards : Type := mkTransferRewards {
  tr_reward_scale : dec;
  tr_rewards : gmap PublicKeyBinary TransferReward;
  tr_reward_sum : dec;
  tr_mobile_bone_price : dec
}.

Definition transfer_total (self : TransferRewards) : dec :=
  dec_sum (fun kv => tr_bones kv.2 * tr_reward_scale self)%dec (map_to_list (tr_rewards self)).

Definition from_transfer_sessions (mobile_bone_price : dec) (sessions : gmap PublicKeyBinary HotspotReward)
    (epoch : Range) : TransferRewards :=
  let rewards := (fun r => mkTransferReward (dc_to_mobile_bones (dec_of_Z (rewardable_dc r)) mobile_bone_price)
                             (rewardable_bytes r)) <$> sessions in
  let reward_sum := dec_sum (fun kv => tr_bones kv.2) (map_to_list rewards) in
  let total_emissions_pool := get_total_scheduled_tokens (r_end epoch - r_start epoch) in
  let reward_scale :=
    if dgtb (reward_sum / total_emissions_pool)%dec MAX_DATA_TRANSFER_REWARDS_PERCENT
    then (MAX_DATA_TRANSFER_REWARDS_PERCENT * total_emissions_pool / reward_sum)%dec
    else dec_of_Z 1 in
  mkTransferRewards reward_scale rewards (reward_sum * reward_scale)%dec mobile_bone_price.

Definition transfer_into_rewards (self : TransferRewards) (epoch : Range) : list (Z * MobileRewardShare) :=
  List.filter (fun r => 0 <? r.1)
    ((fun kv =>
        let dc_transfer_reward := whole_bones (tr_bones kv.2 * tr_reward_scale self)%dec in
        let price := to_u64_or_0 (tr_mobile_bone_price self * dec_of_Z 1000000 * dec_of_Z 1000000)%dec in
        (dc_transfer_reward,
         mobile_share epoch (MGateway kv.1 dc_transfer_reward (tr_bytes_rewarded kv.2) price)))
     <$> map_to_list (tr_rewards self)).

(** ** Mappers *)

Definition mapper_rewards_per_share (shares : list string) (total_mappers_pool : dec) : dec :=
  let discovery_mappers_count := dec_of_Z (Z.of_nat (length shares)) in
  let total_mapper_shares := (discovery_mappers_count * DISCOVERY_MAPPING_SHARES)%dec in
  default dec_zero (checked_div total_mappers_pool total_mapper_shares).

Definition into_subscriber_rewards (shares : list string) (p : Range) (reward_per_share : dec)
  : list (Z * MobileRewardShare) :=
  let amount := whole_bones (DISCOVERY_MAPPING_SHARES * reward_per_share)%dec in
  (fun subscriber_id => (amount, mobile_share p (MSubscriber subscriber_id amount))) <$>
  List.filter (fun _ => 0 <? amount) shares.

(** ** Service providers *)

Record ServiceProviderDataSession : Type := mkSpSession { sp_service_provider : Z; sp_total_dcs : dec }.

(** [client] resolves a payer to its service provider. *)
Fixpoint from_payers_dc (client : PublicKeyBinary -> option Z) (payer_shares : list (PublicKeyBinary * Z))
  : option (list ServiceProviderDataSession) :=
  match payer_shares with
  | [] => Some []
  | (payer, total_dcs) :: rest =>
      service_provider ← client payer;
      shares ← from_payers_dc client rest;
      Some (mkSpSession service_provider (dec_of_Z total_dcs) :: shares)
  end.

Definition total_dc (shares : list ServiceProviderDataSession) : dec := dec_sum sp_total_dcs shares.

Definition maybe_cap_service_provider_rewards (used total : dec) : dec := if dleb used total then used else total.

Definition calc_rewards_per_share (total_rewards total_shares : dec) : dec :=
  if dgtb total_shares dec_zero then round_dp DEFAULT_PREC MidpointNearestEven (total_rewards / total_shares)%dec
  else dec_zero.

Definition sp_rewards_per_share (shares : list ServiceProviderDataSession) (total_sp_rewards mobile_bone_price : dec)
  : dec :=
  let total_sp_dc := total_dc shares in
  let total_sp_rewards_used := dc_to_mobile_bones total_sp_dc mobile_bone_price in
  calc_rewards_per_share (maybe_cap_service_provider_rewards total_sp_rewards_used total_sp_rewards) total_sp_dc.

Definition into_service_provider_rewards (shares : list ServiceProviderDataSession) (p : Range) (reward_per_share : dec)
  : list (Z * MobileRewardShare) :=
  (fun r => (r.2, mobile_share p (MServiceProvider r.1 r.2))) <$>
  List.filter (fun r => 0 <? r.2)
    ((fun s => (sp_service_provider s, whole_bones (sp_total_dcs s * reward_per_share)%dec)) <$> shares).

(** ** Coverage *)

Record RadioPoints : Type := mkRadioPoints {
  rp_location_trust_score_multiplier : dec;
  rp_coverage_object : Uuid;
  rp_seniority : Z;
  rp_points : dec
}.

Definition radio_points_total (self : RadioPoints) : dec :=
  dmax (rp_location_trust_score_multiplier self * rp_points self)%dec dec_zero.

Record HotspotPoints : Type := mkHotspotPoints {
  hp_speedtest_multiplier : dec;
  hp_radio_points : gmap (option string) RadioPoints
}.

Definition hotspot_total_points (self : HotspotPoints) : dec :=
  (hp_speedtest_multiplier self * dec_sum (fun kv => radio_points_total kv.2) (map_to_list (hp_radio_points self)))%dec.

Abbreviation CoveragePoints := (gmap PublicKeyBinary HotspotPoints).

Inductive PointsError : Type := NoSeniority | InvalidCell | UnknownRadio.

(** One radio of the first loop of [aggregate_points].  Rows that are deleted on
    the way stay deleted when a later step fails. *)
Definition add_radio `{!KeyText, !CellIndex} (averages : gmap PublicKeyBinary (SpeedtestAverage dec)) (period_end : Z)
    (t : coverage_tables) (acc : CoveredHexes * CoveragePoints) (heartbeat : HeartbeatReward dec)
  : coverage_tables * result (CoveredHexes * CoveragePoints) PointsError :=
  let '(covered_hexes, coverage_points) := acc in
  let speedtest_multiplier :=
    match get_average averages (hw_hotspot_key heartbeat) with
    | Some a => sa_reward_multiplier a
    | None => dec_zero
    end in
  let key := hw_key heartbeat in
  match fetch_seniority t key period_end with
  | None => (t, Err NoSeniority)
  | Some seniority =>
      let stream := covered_hex_stream t key (hw_coverage_object heartbeat) seniority in
      (stream.1,
       let? covered_hexes := ok_or (aggregate_coverage (hw_hotspot_key heartbeat) covered_hexes stream.2) InvalidCell in
       let entry := default (mkHotspotPoints speedtest_multiplier ∅) (coverage_points !! hw_hotspot_key heartbeat) in
       let radio := mkRadioPoints (hw_location_trust_score_multiplier heartbeat) (hw_coverage_object heartbeat)
                      (sen_seniority_ts seniority) dec_zero in
       Ok (covered_hexes,
           <[hw_hotspot_key heartbeat :=
               mkHotspotPoints (hp_speedtest_multiplier entry)
                 (<[into_cbsd_id key := radio]> (hp_radio_points entry))]> coverage_points))
  end.

Fixpoint add_radios `{!KeyText, !CellIndex} (averages : gmap PublicKeyBinary (SpeedtestAverage dec)) (period_end : Z)
    (t : coverage_tables) (acc : CoveredHexes * CoveragePoints) (heartbeats : list (HeartbeatReward dec))
  : coverage_tables * result (CoveredHexes * CoveragePoints) PointsError :=
  match heartbeats with
  | [] => (t, Ok acc)
  | h :: heartbeats =>
      match add_radio averages period_end t acc h with
      | (t, Ok acc) => add_radios averages period_end t acc heartbeats
      | (t, Err e) => (t, Err e)
      end
  end.

(** One reward of the second loop; the two [unwrap]s fail for an unknown radio. *)
Definition add_points (cp : CoveragePoints) (r : CoverageReward dec) : result CoveragePoints PointsError :=
  let? hotspot := ok_or (cp !! cw_hotspot r) UnknownRadio in
  let? radio := ok_or (hp_radio_points hotspot !! into_cbsd_id (cw_radio_key r)) UnknownRadio in
  let radio := mkRadioPoints (rp_location_trust_score_multiplier radio) (rp_coverage_object radio) (rp_seniority radio)
                 (rp_points radio + cw_points r)%dec in
  Ok (<[cw_hotspot r :=
          mkHotspotPoints (hp_speedtest_multiplier hotspot)
            (<[into_cbsd_id (cw_radio_key r) := radio]> (hp_radio_points hotspot))]> cp).

Fixpoint add_all_points (cp : CoveragePoints) (rs : list (CoverageReward dec)) : result CoveragePoints PointsError :=
  match rs with
  | [] => Ok cp
  | r :: rs => let? cp := add_points cp r in add_all_points cp rs
  end.

(** [CoveragePoints::aggregate_points] *)
Definition aggregate_points `{!KeyText, !CellIndex, !BinaryHeap} (t : coverage_tables)
    (heartbeats : list (HeartbeatReward dec)) (averages : gmap PublicKeyBinary (SpeedtestAverage dec)) (period_end : Z)
  : coverage_tables * result CoveragePoints PointsError :=
  let '(t, r) := add_radios averages period_end t (covered_hexes_default, ∅) heartbeats in
  (t, let? acc := r in add_all_points acc.2 (into_coverage_rewards acc.1)).

Definition coverage_total_shares (cp : CoveragePoints) : dec :=
  dec_sum (fun kv => hotspot_total_points kv.2) (map_to_list cp).

Definition radio_poc_reward (poc_rewards_per_share speedtest_multiplier : dec) (radio_points : RadioPoints) : Z :=
  whole_bones (poc_rewards_per_share * speedtest_multiplier * rp_location_trust_score_multiplier radio_points
               * rp_points radio_points)%dec.

Definition new_radio_reward (cbsd_id : option string) (hotspot_key : PublicKeyBinary) (epoch : Range)
    (poc_rewards_per_share speedtest_multiplier : dec) (radio_points : RadioPoints) : Z * MobileRewardShare :=
  let poc_reward := radio_poc_reward poc_rewards_per_share speedtest_multiplier radio_points in
  (poc_reward,
   mobile_share epoch
     (MRadio (mkRadioReward hotspot_key (default "" cbsd_id) poc_reward (to_u64_or_0 (rp_points radio_points))
        (encode_timestamp (rp_seniority radio_points)) (rp_coverage_object radio_points)
        (to_u32_or_0 (rp_location_trust_score_multiplier radio_points * dec_of_Z 1000)%dec)
        (to_u32_or_0 (speedtest_multiplier * dec_of_Z 1000)%dec)))).

Definition radio_points_into_rewards (hotspot_key : PublicKeyBinary) (epoch : Range)
    (poc_rewards_per_share : dec) (hp : HotspotPoints) : list (Z * MobileRewardShare) :=
  (fun kv => new_radio_reward kv.1 hotspot_key epoch poc_rewards_per_share (hp_speedtest_multiplier hp) kv.2)
  <$> map_to_list (hp_radio_points hp).

Definition coverage_into_rewards (cp : CoveragePoints) (available_poc_rewards : dec) (epoch : Range)
  : option (list (Z * MobileRewardShare)) :=
  poc_rewards_per_share ← checked_div available_poc_rewards (coverage_total_shares cp);
  Some (List.filter (fun r => 0 <? r.1)
          (map_to_list cp ≫= fun kv => radio_points_into_rewards kv.1 epoch poc_rewards_per_share kv.2)).
End Rewards.

Arguments TransferRewards dec : clear implicits.
Arguments RadioPoints dec : clear implicits.
Arguments HotspotPoints dec : clear implicits.
Arguments ServiceProviderDataSession dec : clear implicits.

(** ** The rewarder *)

Section Rewarder.
Context {dec : Type} {D : Decimal dec} {DL : DecimalLaws dec} {PG : PgNumeric dec}.
Context {KT : KeyText} {CI : CellIndex} {BH : BinaryHeap}.

Record mobile_db : Type := mkMobileDb {
  md_heartbeats : hb_tables dec;            (* with the coverage tables *)
  md_speedtests : gmap (PublicKeyBinary * Z) SpeedtestRow;
  md_data_sessions : list HotspotDataSession;
  md_locations : list SubscriberLocation
}.

Record reward_sinks : Type := mkRewardSinks {
  rk_mobile_rewards : list MobileRewardShare;
  rk_speedtest_averages : list (SpeedtestAvgMsg (dec := dec));
  rk_reward_manifests : list (Z * Z)
}.

Inductive RewardError : Type := PointsFailed (e : PointsError) | PayerSum | UnknownPayer.

Definition write_unallocated_reward (sink : list MobileRewardShare) (unallocated_type : UnallocatedType)
    (amount : Z) (p : Range) : list MobileRewardShare :=
  if 0 <? amount then sink ++ [mobile_share p (MUnallocated unallocated_type amount)] else sink.

(** Writes the shares, and what they leave of the total. *)
Definition write_rewards (sink : list MobileRewardShare) (rewards : list (Z * MobileRewardShare)) (total : dec)
    (unallocated_type : UnallocatedType) (p : Range) : list MobileRewardShare :=
  let allocated := fold_left (fun a r => u64_add a r.1) rewards 0 in
  write_unallocated_reward (sink ++ rewards.*2) unallocated_type (unallocated_amount total allocated) p.

Definition total_poc_rewards (p : Range) (transfer_reward_sum : dec) : dec :=
  (get_scheduled_tokens_for_poc (r_end p - r_start p) - transfer_reward_sum)%dec.

Definition with_coverage (db : mobile_db) (t : coverage_tables) : mobile_db :=
  mkMobileDb (mkHbTables (ht_cbrs (md_heartbeats db)) (ht_wifi (md_heartbeats db)) t) (md_speedtests db)
    (md_data_sessions db) (md_locations db).

(** [SpeedtestAverages::write_all], at a time [now]. *)
Definition write_all (sink : list SpeedtestAvgMsg) (averages : gmap PublicKeyBinary (SpeedtestAverage dec)) (now : Z)
  : list SpeedtestAvgMsg :=
  sink ++ ((fun kv => mkAvgMsg kv.2 (encode_timestamp now)) <$> map_to_list averages).

(** The points of the radios with enough heartbeats in a period. *)
Definition period_points (db : mobile_db) (p : Range) : coverage_tables * result (gmap PublicKeyBinary (HotspotPoints dec)) PointsError :=
  aggregate_points (ht_coverage (md_heartbeats db)) (validated_radios (md_heartbeats db) p)
    (aggregate_epoch_averages (md_speedtests db) (r_end p)) (r_end p).

Definition reward_poc (db : mobile_db) (sinks : reward_sinks) (p : Range) (transfer_reward_sum : dec) (now : Z)
  : mobile_db * reward_sinks * result unit RewardError :=
  let total := total_poc_rewards p transfer_reward_sum in
  let averages := aggregate_epoch_averages (md_speedtests db) (r_end p) in
  let avg_sink := write_all (rk_speedtest_averages sinks) averages now in
  let '(t, points) := period_points db p in
  let db := with_coverage db t in
  match points with
  | Err e => (db, mkRewardSinks (rk_mobile_rewards sinks) avg_sink (rk_reward_manifests sinks), Err (PointsFailed e))
  | Ok coverage_points =>
      let mobile_rewards :=
        match coverage_into_rewards coverage_points total p with
        | Some mobile_reward_shares => write_rewards (rk_mobile_rewards sinks) mobile_reward_shares total UPoc p
        | None => rk_mobile_rewards sinks
        end in
      (db, mkRewardSinks mobile_rewards avg_sink (rk_reward_manifests sinks), Ok tt)
  end.

Definition reward_dc (sink : list MobileRewardShare) (p : Range) (transfer_rewards : TransferRewards dec)
  : list MobileRewardShare :=
  write_rewards sink (transfer_into_rewards transfer_rewards p) (transfer_total transfer_rewards) UData p.

Definition period_transfers (db : mobile_db) (p : Range) (mobile_bone_price : dec) : TransferRewards dec :=
  from_transfer_sessions mobile_bone_price (aggregate_hotspot_data_sessions_to_dc (md_data_sessions db) p) p.

Definition with_rewards (sinks : reward_sinks) (l : list MobileRewardShare) : reward_sinks :=
  mkRewardSinks l (rk_speedtest_averages sinks) (rk_reward_manifests sinks).

Definition reward_poc_and_dc (db : mobile_db) (sinks : reward_sinks) (p : Range) (mobile_bone_price : dec) (now : Z)
  : mobile_db * reward_sinks * result unit RewardError :=
  let transfer_rewards := period_transfers db p mobile_bone_price in
  match reward_poc db sinks p (tr_reward_sum transfer_rewards) now with
  | (db, sinks, Ok _) => (db, with_rewards sinks (reward_dc (rk_mobile_rewards sinks) p transfer_rewards), Ok tt)
  | r => r
  end.

Definition reward_mappers (db : mobile_db) (sink : list MobileRewardShare) (p : Range) : list MobileRewardShare :=
  let mapping_shares := aggregate_location_shares (md_locations db) p in
  let total_mappers_pool : dec := get_scheduled_tokens_for_mappers (r_end p - r_start p) in
  let rewards_per_share := mapper_rewards_per_share mapping_shares total_mappers_pool in
  write_rewards sink (into_subscriber_rewards mapping_shares p rewards_per_share) total_mappers_pool UMapper p.

Definition reward_oracles (sink : list MobileRewardShare) (p : Range) : list MobileRewardShare :=
  write_rewards sink [] (get_scheduled_tokens_for_oracles (r_end p - r_start p)) UOracle p.

Definition reward_service_providers (db : mobile_db) (client : PublicKeyBinary -> option Z)
    (sink : list MobileRewardShare) (p : Range) (mobile_bone_price : dec)
  : result (list MobileRewardShare) RewardError :=
  let? payer_dc_sessions := ok_or (sum_data_sessions_to_dc_by_payer (md_data_sessions db) p) PayerSum in
  let? sp_shares := ok_or (from_payers_dc (dec := dec) client (map_to_list payer_dc_sessions)) UnknownPayer in
  let total_sp_rewards := get_scheduled_tokens_for_service_providers (r_end p - r_start p) in
  let rewards_per_share := sp_rewards_per_share sp_shares total_sp_rewards mobile_bone_price in
  Ok (write_rewards sink (into_service_provider_rewards sp_shares p rewards_per_share) total_sp_rewards
        UServiceProvider p).

Definition clear_tables (db : mobile_db) (start : Z) : mobile_db :=
  let hb := clear_heartbeats (md_heartbeats db) start in
  mkMobileDb (mkHbTables (ht_cbrs hb) (ht_wifi hb) (clear_coverage_objects (ht_coverage hb) start))
    (clear_speedtests (md_speedtests db) start) (clear_hotspot_data_sessions (md_data_sessions db) start)
    (md_locations db).

(** [Rewarder::reward], with the price the tracker returned.  The sinks of a run
    that fails are not committed. *)
Definition reward (db : mobile_db) (m : reward_meta) (sinks : reward_sinks) (client : PublicKeyBinary -> option Z)
    (mobile_price : Z) (s : Scheduler) (now : Z)
  : mobile_db * reward_meta * reward_sinks * result unit RewardError :=
  let p := reward_period s in
  let mobile_bone_price := (dec_of_Z mobile_price / dec_of_Z 1000000 / dec_of_Z 1000000)%dec in
  match reward_poc_and_dc db sinks p mobile_bone_price now with
  | (db, sinks, Err e) => (db, m, sinks, Err e)
  | (db, sinks, Ok _) =>
      let mobile_rewards := reward_mappers db (rk_mobile_rewards sinks) p in
      match reward_service_providers db client mobile_rewards p mobile_bone_price with
      | Err e => (db, m, with_rewards sinks mobile_rewards, Err e)
      | Ok mobile_rewards =>
          let sinks := mkRewardSinks (reward_oracles mobile_rewards p) (rk_speedtest_averages sinks)
                         (rk_reward_manifests sinks ++ [(encode_timestamp (r_start p), encode_timestamp (r_end p))]) in
          (clear_tables db (r_start p), mobile_reward_meta s, sinks, Ok tt)
      end
  end.

(** [Rewarder::is_data_current] *)
Definition is_data_current (db : mobile_db) (disable_complete_data_checks_until : Z) (p : Range) : bool :=
  if disable_complete_data_checks_until <=? r_end p then
    let past (t : gmap (string * Z) (HbRow dec)) :=
      List.existsb (fun kv => r_end p <=? hr_latest_timestamp kv.2) (map_to_list t) in
    past (ht_cbrs (md_heartbeats db)) && past (ht_wifi (md_heartbeats db)) &&
    List.existsb (fun r => r_end p <=? row_timestamp r) (speedtest_rows (md_speedtests db))
  else true.
End Rewarder.

Arguments mobile_db dec : clear implicits.
Arguments reward_sinks dec : clear implicits.
