(* ===== verification/MobilePots.v ===== *)
(** * The pots of the mobile rewarder

    What each pot of [MobileRewards] pays out against its size: the emission of a
    period and its percentages, the pot that is written out with what is left
    unallocated, mappers, service providers and data transfer, and the session
    table their shares come from.  The decimal operations round, so every bound
    carries its error. *)

From S2P Require Import Prelude Solana FileStoreTypes Decimal Scheduler MobileSpeedtests MobileCoverage MobileHeartbeats.
From S2P Require Import MobileRewards.
From Stdlib Require Import Qabs Ascii.

Open Scope Z_scope.
Open Scope oracle_scope.
Open Scope Q_scope.

(** ** The emission *)

(** The emission of [secs] seconds, of which a pot is [m] hundredths. *)
Definition mobile_emission (secs : Z) : Q := (30000000000000000 # 31622400) * inject_Z secs.
Definition emission_share (m secs : Z) : Q := mobile_emission secs * (inject_Z m * (1 # 100)).

(** A period lasts from a second to a week. *)
Definition mobile_secs_ok (d : Z) : Prop := (1 <= num_secs d <= 604800)%Z.

Section Emission.
Context {dec : Type} `{!Decimal dec, !DecimalLaws dec}.

Lemma mobile_emission_bounds d :
  mobile_secs_ok d -> (900000000 # 1) <= mobile_emission (num_secs d) <= (600000000000000 # 1).
Proof.
  intros Hd. unfold mobile_emission, mobile_secs_ok in *.
  assert (inject_Z 1 <= inject_Z (num_secs d) <= inject_Z 604800) as [H1 H2] by (rewrite <- !Zle_Qle; lia).
  change (inject_Z 1) with 1 in H1. change (inject_Z 604800) with (604800 # 1) in H2. lra.
Qed.

Lemma total_tokens_near d :
  mobile_secs_ok d ->
  let t := dval (get_total_scheduled_tokens (dec := dec) d) in
  mobile_emission (num_secs d) - (1 # 10000000000) <= t <= mobile_emission (num_secs d) + (1 # 10000000000).
Proof.
  intros Hd. pose proof (mobile_emission_bounds d Hd) as Hb. unfold mobile_secs_ok in Hd.
  assert (inject_Z 1 <= inject_Z (num_secs d) <= inject_Z 604800) as [H1 H2] by (rewrite <- !Zle_Qle; lia).
  change (inject_Z 1) with 1 in H1. change (inject_Z 604800) with (604800 # 1) in H2.
  unfold get_total_scheduled_tokens, TOTAL_EMISSIONS_POOL. cbv zeta.
  pose proof (dec_of_Z_val (dec := dec) 30000000000000000 ltac:(lia)) as E1.
  pose proof (dec_of_Z_val (dec := dec) 366 ltac:(lia)) as E2.
  pose proof (dec_of_Z_val (dec := dec) 86400 ltac:(lia)) as E3.
  pose proof (dec_of_Z_val (dec := dec) (num_secs d) ltac:(lia)) as E4.
  set (pool := dec_of_Z 30000000000000000) in *. set (a := dec_of_Z 366) in *. set (b := dec_of_Z 86400) in *.
  set (s := dec_of_Z (num_secs d)) in *.
  assert (dval pool / dval a == 30000000000000000 # 366) as Ea by (rewrite E1, E2; change (inject_Z 30000000000000000) with (30000000000000000 # 1);
    change (inject_Z 366) with (366 # 1); field).
  destruct (ddiv_near pool a) as [H3 H4]; [rewrite E2; change (inject_Z 366) with (366 # 1); lra|rewrite Ea; lra| |].
  { rewrite Ea. change (inject_Z (10 ^ 28)) with (10000000000000000000000000000 # 1). lra. }
  unfold near in H4. rewrite Ea in H4. set (x := (pool / a)%dec) in *.
  assert (dval x / dval b == dval x * (1 # 86400)) as Eb by (rewrite E3; change (inject_Z 86400) with (86400 # 1); field).
  destruct (ddiv_near x b) as [H5 H6]; [rewrite E3; change (inject_Z 86400) with (86400 # 1); lra|rewrite Eb; lra| |].
  { rewrite Eb. change (inject_Z (10 ^ 28)) with (10000000000000000000000000000 # 1). lra. }
  unfold near in H6. rewrite Eb in H6. set (y := (x / b)%dec) in *.
  assert ((30000000000000000 # 31622400) - (1 # 10000000000000000) <= dval y
    <= (30000000000000000 # 31622400) + (1 # 10000000000000000)) as Hy by lra.
  assert (0 <= dval s <= 604800 # 1) as Hs by (rewrite E4; lra).
  destruct (Qmult_near _ _ _ _ _ Hy Hs ltac:(lra)) as [H7 H8]. rewrite E4 in H7, H8.
  fold (mobile_emission (num_secs d)) in H7, H8. set (e := mobile_emission (num_secs d)) in *.
  assert (dval y * dval s == dval y * inject_Z (num_secs d)) as E5 by (by rewrite E4).
  destruct (dmul_near y s) as [H9 H10]; [rewrite E5; lra| |].
  { rewrite E5. change (inject_Z (10 ^ 28)) with (10000000000000000000000000000 # 1). lra. }
  unfold near in H10. rewrite E5 in H10. set (w := dval y * inject_Z (num_secs d)) in *. lra.
Qed.

(** A percentage of the emission. *)
Lemma tokens_share_near d m k s :
  mobile_secs_ok d -> (0 <= m <= 100)%Z -> (0 <= k < 2 ^ 63)%Z -> (s <= 28)%nat ->
  inject_Z k / pow10 s == inject_Z m * (1 # 100) ->
  let t := dval (get_total_scheduled_tokens (dec := dec) d * dec_new k s)%dec in
  emission_share m (num_secs d) - (1 # 1000000000) <= t <= emission_share m (num_secs d) + (1 # 1000000000).
Proof.
  intros Hd Hm Hk Hs Ek. pose proof (mobile_emission_bounds d Hd) as Hb.
  pose proof (total_tokens_near d Hd) as Ht. cbv zeta in *. unfold emission_share.
  assert (0 <= inject_Z m <= 100 # 1) as Hm'
    by (change (100 # 1) with (inject_Z 100); change 0 with (inject_Z 0); rewrite <- !Zle_Qle; lia).
  assert (dval (dec := dec) (dec_new k s) == inject_Z m * (1 # 100)) as Ep by (rewrite dec_new_val by lia; done).
  assert (0 <= inject_Z m * (1 # 100) <= 1) as Hp by lra. set (q := inject_Z m * (1 # 100)) in *.
  set (t := get_total_scheduled_tokens d) in *. set (e := mobile_emission (num_secs d)) in *.
  destruct (Qmult_near (dval t) e (1 # 10000000000) q 1) as [H1 H2]; [lra|lra|lra|].
  assert (0 <= e * q <= e * 1) as He by (apply Qmult_bounds; lra).
  assert (0 <= dval t * q) as H0 by (apply Qmult_le_0_compat; lra).
  assert (dval t * dval (dec := dec) (dec_new k s) == dval t * q) as E by (by rewrite Ep).
  destruct (dmul_near t (dec_new k s)) as [H3 H4]; [by rewrite E| |].
  { rewrite E. change (inject_Z (10 ^ 28)) with (10000000000000000000000000000 # 1). lra. }
  unfold near in H4. rewrite E in H4. set (w := dval t * q) in *. set (eq := e * q) in *. lra.
Qed.

Lemma scheduled_near d :
  mobile_secs_ok d ->
  let near_share m (t : dec) :=
    emission_share m (num_secs d) - (1 # 1000000000) <= dval t <= emission_share m (num_secs d) + (1 # 1000000000) in
  near_share 60%Z (get_scheduled_tokens_for_poc d) /\ near_share 20%Z (get_scheduled_tokens_for_mappers d) /\
  near_share 10%Z (get_scheduled_tokens_for_service_providers d) /\ near_share 4%Z (get_scheduled_tokens_for_oracles d).
Proof.
  intros Hd. cbv zeta. split; [|split; [|split]].
  - apply (tokens_share_near d 60 6 1); [done|lia|lia|lia|reflexivity].
  - apply (tokens_share_near d 20 2 1); [done|lia|lia|lia|reflexivity].
  - apply (tokens_share_near d 10 1 1); [done|lia|lia|lia|reflexivity].
  - apply (tokens_share_near d 4 4 2); [done|lia|lia|lia|reflexivity].
Qed.
End Emission.

(** ** A pot that is written out *)

Definition mobile_amount (s : MobileRewardShare) : Z :=
  match ms_reward s with
  | MGateway _ a _ _ => a
  | MRadio r => rr_poc_reward r
  | MSubscriber _ a => a
  | MServiceProvider _ a => a
  | MUnallocated _ a => a
  end.

(** Every share is listed with its amount, which is positive. *)
Definition amounts_ok (rewards : list (Z * MobileRewardShare)) : Prop :=
  forall r, r ∈ rewards -> (0 < r.1)%Z /\ mobile_amount r.2 = r.1.

Section Written.
Context {dec : Type} `{!Decimal dec, !DecimalLaws dec}.

Lemma write_rewards_sum sink rewards (total : dec) ty p c :
  amounts_ok rewards -> 0 <= dval total <= (1000000000000000 # 1) -> 0 <= c <= 1 ->
  inject_Z (sumZ fst rewards) <= dval total + c ->
  let w := (sumZ mobile_amount (write_rewards sink rewards total ty p) - sumZ mobile_amount sink)%Z in
  dval total - 1 - (1 # 1000) < inject_Z w <= dval total + c + (1 # 1000).
Proof.
  intros Hok Ht Hc Hs w. unfold w, write_rewards.
  assert (0 <= sumZ fst rewards)%Z as H0 by (apply sumZ_nonneg; intros r Hr; destruct (Hok r Hr); lia).
  assert (sumZ fst rewards < 2 ^ 62)%Z as H1
    by (rewrite Zlt_Qlt; change (inject_Z (2 ^ 62)) with (4611686018427387904 # 1); lra).
  rewrite (fold_u64_add fst); [|lia|intros r Hr; destruct (Hok r Hr); lia|lia].
  rewrite Z.add_0_l. set (a := sumZ fst rewards) in *.
  assert (0 <= dval total <= inject_Z (10 ^ 16)) as Ht'
    by (change (inject_Z (10 ^ 16)) with (10000000000000000 # 1); lra).
  destruct (unallocated_spec total a Ht' ltac:(lia)) as (H2 & H3 & H4). set (u := unallocated_amount total a) in *.
  assert (sumZ mobile_amount rewards.*2 = a) as Ea.
  { unfold a. rewrite sumZ_fmap. apply sumZ_ext. intros r Hr. by apply Hok. }
  assert (sumZ mobile_amount (write_unallocated_reward (sink ++ rewards.*2) ty u p) =
          (sumZ mobile_amount sink + a + u)%Z) as ->.
  { unfold write_unallocated_reward. destruct (Z.ltb_spec 0 u); rewrite ?sumZ_app, Ea; cbn; lia. }
  replace (sumZ mobile_amount sink + a + u - sumZ mobile_amount sink)%Z with (a + u)%Z by lia.
  rewrite inject_Z_plus. destruct (Qlt_le_dec (dval total) (inject_Z a)) as [Hlt|Hle].
  - rewrite (H4 Hlt). change (inject_Z 0) with 0. lra.
  - specialize (H3 Hle). lra.
Qed.
End Written.

(** ** Mappers and service providers *)

Lemma sumZ_const {A} (c : Z) (l : list A) : sumZ (fun _ => c) l = (c * Z.of_nat (length l))%Z.
Proof. induction l as [|x l IH]; [cbn; lia|]. rewrite sumZ_cons, IH. cbn [length]. lia. Qed.

Section Subscribers.
Context {dec : Type} `{!Decimal dec, !DecimalLaws dec}.

Lemma whole_bones_floor (a : dec) :
  0 <= dval a <= (10000000000000000 # 1) ->
  (0 <= whole_bones a)%Z /\ dval a - 1 < inject_Z (whole_bones a) <= dval a.
Proof.
  intros [H0 H1]. unfold whole_bones. rewrite to_u64_floor; [|done|].
  - pose proof (Qfloor_bounds (dval a)) as [H2 H3]. split; [by apply Qfloor_nonneg|]. lra.
  - change (inject_Z (2 ^ 64)) with (18446744073709551616 # 1). lra.
Qed.

Lemma dmul_int (a b : dec) m n :
  dval a == inject_Z m -> dval b == inject_Z n -> (Z.abs (m * n) < 2 ^ 96)%Z -> dval (dmul a b) == inject_Z (m * n).
Proof.
  intros Ea Eb H. assert (dval a * dval b == inject_Z (m * n)) as E by (rewrite Ea, Eb; by rewrite inject_Z_mult).
  rewrite dmul_val.
  - pose proof (rnd_proper _ mul_rounding) as Hp. rewrite E. by apply (rnd_int _ mul_rounding).
  - rewrite E. unfold dec_max. apply Qabs_Qle_condition. change (- inject_Z (2 ^ 96 - 1)) with (inject_Z (- (2 ^ 96 - 1))).
    rewrite <- !Zle_Qle. lia.
Qed.

(** The amount of one subscriber. *)
Lemma mapper_amount shares (pool : dec) :
  shares <> [] -> 0 <= dval pool <= (1000000000000000 # 1) -> (Z.of_nat (length shares) <= 10 ^ 8)%Z ->
  let n := inject_Z (Z.of_nat (length shares)) in
  let amount := whole_bones (DISCOVERY_MAPPING_SHARES * mapper_rewards_per_share shares pool)%dec in
  (0 <= amount)%Z /\ inject_Z amount * n <= dval pool + (1 # 1000).
Proof.
  intros Hne Hp Hn n. cbv zeta. unfold mapper_rewards_per_share.
  assert (1 <= Z.of_nat (length shares))%Z as H1 by (destruct shares; [done|cbn; lia]).
  assert (1 <= n <= 100000000 # 1) as Hn'.
  { unfold n. change 1 with (inject_Z 1). change (100000000 # 1) with (inject_Z (10 ^ 8)). rewrite <- !Zle_Qle. lia. }
  pose proof (dec_of_Z_val (dec := dec) (Z.of_nat (length shares)) ltac:(lia)) as E1.
  pose proof (dec_of_Z_val (dec := dec) 30 ltac:(lia)) as E2. fold (DISCOVERY_MAPPING_SHARES (dec := dec)) in E2.
  pose proof (dmul_int _ _ _ _ E1 E2 ltac:(lia)) as E3. set (S := (dec_of_Z _ * DISCOVERY_MAPPING_SHARES)%dec) in *.
  rewrite inject_Z_mult in E3. fold n in E3. change (inject_Z 30) with (30 # 1) in E2, E3.
  assert (0 < n * (30 # 1)) as HS by lra.
  assert (0 <= dval pool / dval S <= (34000000000000 # 1)) as Hq.
  { rewrite E3. split; [apply Qle_shift_div_l; lra|apply Qle_shift_div_r; lra]. }
  rewrite checked_div_val; [cbn [from_option]; unfold id| |].
  2: { rewrite E3. lra. }
  2: { apply abs_max; [lra|]. change (inject_Z (10 ^ 28)) with (10000000000000000000000000000 # 1). lra. }
  destruct (ddiv_near pool S) as [H2 H3]; [rewrite E3; lra|lra| |].
  { change (inject_Z (10 ^ 28)) with (10000000000000000000000000000 # 1). lra. }
  unfold near in H3. set (q := dval pool / dval S) in *. set (r := (pool / S)%dec) in *.
  assert (dval (dec := dec) DISCOVERY_MAPPING_SHARES * dval r == (30 # 1) * dval r) as E4 by (by rewrite E2).
  destruct (dmul_near DISCOVERY_MAPPING_SHARES r) as [H4 H5]; [rewrite E4; lra| |].
  { rewrite E4. change (inject_Z (10 ^ 28)) with (10000000000000000000000000000 # 1). lra. }
  unfold near in H5. rewrite E4 in H5. set (w := (DISCOVERY_MAPPING_SHARES * r)%dec) in *.
  destruct (whole_bones_floor w) as [H6 H7]; [lra|]. split; [done|].
  assert (q * n * (30 # 1) == dval pool) as Eq by (unfold q; rewrite E3; field; lra).
  assert (inject_Z (whole_bones w) * n <= ((30 # 1) * (q * (1 + (3 # 1000000000000000000000000000))) +
    (40 # 10000000000000000000000000000)) * n) as H8 by (apply Qmult_le_compat_r; lra).
  assert (((30 # 1) * (q * (1 + (3 # 1000000000000000000000000000))) + (40 # 10000000000000000000000000000)) * n ==
    dval pool * (1 + (3 # 1000000000000000000000000000)) + n * (40 # 10000000000000000000000000000)) as E5
    by (rewrite <- Eq; ring).
  lra.
Qed.

Lemma mappers_ok shares p (pool : dec) :
  0 <= dval pool <= (1000000000000000 # 1) -> (Z.of_nat (length shares) <= 10 ^ 8)%Z ->
  let rewards := into_subscriber_rewards shares p (mapper_rewards_per_share shares pool) in
  amounts_ok rewards /\ inject_Z (sumZ fst rewards) <= dval pool + (1 # 1000).
Proof.
  intros Hp Hn. cbv zeta. unfold into_subscriber_rewards.
  set (amount := whole_bones _). destruct (0 <? amount)%Z eqn:E.
  - apply Z.ltb_lt in E. assert (List.filter (fun _ : string => true) shares = shares) as ->.
    { clear. induction shares as [|x l IH]; [done|]. cbn. by rewrite IH. }
    split; [intros r (x & -> & _)%list_elem_of_fmap; done|]. rewrite sumZ_fmap. cbn [fst].
    destruct (decide (shares = [])) as [->|Hne]; [change (0 <= dval pool + (1 # 1000)); lra|].
    destruct (mapper_amount shares pool Hne Hp Hn) as [_ H]. fold amount in H.
    assert (sumZ (fun _ : string => amount) shares = amount * Z.of_nat (length shares))%Z as -> by apply sumZ_const.
    by rewrite inject_Z_mult.
  - assert (List.filter (fun _ : string => false) shares = []) as ->.
    { clear. induction shares as [|x l IH]; [done|]. cbn. by rewrite IH. }
    split; [intros r Hr; by apply not_elem_of_nil in Hr|]. change (0 <= dval pool + (1 # 1000)). lra.
Qed.

(** The price of a bone: an integer of millionths of millionths. *)
Definition bone_price_ok (price : dec) : Prop := (1 # 1000000000000) <= dval price <= inject_Z (10 ^ 10).

Lemma round_up_bounds n q : 0 <= q -> q <= round_q n ToPositiveInfinity q <= q + 1 / pow10 n.
Proof.
  intros Hq. unfold round_q. cbn [round_int]. pose proof (pow10_pos n) as Hp.
  pose proof (Qle_ceiling (q * pow10 n)) as H1. pose proof (Qceiling_lt (q * pow10 n)) as H2.
  set (c := inject_Z (Qceiling _)) in *.
  assert (c <= q * pow10 n + 1) as H3.
  { unfold Z.sub in H2. rewrite inject_Z_plus in H2. fold c in H2. change (inject_Z (- (1))) with (- (1)) in H2. lra. }
  split; [by apply Qle_shift_div_l|].
  assert (q + 1 / pow10 n == (q * pow10 n + 1) / pow10 n) as -> by (field; lra).
  unfold Qdiv. apply Qmult_le_compat_r; [done|]. apply Qlt_le_weak. by apply Qinv_lt_0_compat.
Qed.

Lemma bones_bounds (dc price : dec) :
  0 <= dval dc <= (20000000000000 # 1) -> bone_price_ok price ->
  0 <= dval (dc_to_mobile_bones dc price) <= dval dc * (10000001 # 1) + 1.
Proof.
  intros Hdc [Hp0 Hp1]. unfold dc_to_mobile_bones.
  pose proof (dec_new_val (dec := dec) 1 5 ltac:(lia) ltac:(lia)) as Ec. fold (DC_USD_PRICE (dec := dec)) in Ec.
  assert (dval dc * dval (dec := dec) DC_USD_PRICE == dval dc * (1 # 100000)) as E1 by (rewrite Ec; reflexivity).
  destruct (dmul_near dc DC_USD_PRICE) as [H2 H3]; [rewrite E1; lra| |].
  { rewrite E1. change (inject_Z (10 ^ 28)) with (10000000000000000000000000000 # 1). lra. }
  unfold near in H3. rewrite E1 in H3. set (usd := (dc * DC_USD_PRICE)%dec) in *.
  assert (0 <= dval usd / dval price <= dval usd * (1000000000000 # 1)) as Hq.
  { split; [apply Qle_shift_div_l; lra|]. apply Qle_shift_div_r; [lra|].
    assert (dval usd * (1000000000000 # 1) * (1 # 1000000000000) <= dval usd * (1000000000000 # 1) * dval price) as H.
    { rewrite !(Qmult_comm (dval usd * _)). apply Qmult_le_compat_r; [lra|]. lra. }
    lra. }
  destruct (ddiv_near usd price) as [H4 H5]; [lra|lra| |].
  { change (inject_Z (10 ^ 28)) with (10000000000000000000000000000 # 1). lra. }
  unfold near in H5. set (x := (usd / price)%dec) in *. rewrite round_dp_val.
  destruct (round_up_bounds DEFAULT_PREC (dval x) H4) as [H6 H7].
  assert (1 / pow10 DEFAULT_PREC == 1 # 1000000000000000) as E15 by reflexivity. rewrite E15 in H7. lra.
Qed.

(** Shares whose data credits are integers, up to a million million million in all. *)
Definition sp_shares_ok (shares : list (ServiceProviderDataSession dec)) (dcs : ServiceProviderDataSession dec -> Z) : Prop :=
  (forall s, s ∈ shares -> dval (sp_total_dcs s) == inject_Z (dcs s) /\ (0 <= dcs s)%Z) /\
  (sumZ dcs shares <= 10 ^ 13)%Z /\ (Z.of_nat (length shares) <= 10 ^ 8)%Z.

Lemma share_payout_swap (T S x : dec) :
  pot_ok T S -> 0 <= dval x <= dval S ->
  whole_bones (x * share_rate T S)%dec = share_payout (share_rate T S) x.
Proof.
  intros Hp Hx. destruct (share_rate_near T S Hp) as (H0 & _ & H1). pose proof (exact_share_bounds T S x Hp Hx) as [_ He].
  unfold exact_share in He. destruct Hp as [[HT0 HT1] [HS0 HS1]]. set (r := share_rate T S) in *.
  change (inject_Z (10 ^ 15)) with (1000000000000000 # 1) in HT1.
  change (inject_Z (10 ^ 13)) with (10000000000000 # 1) in HS1. set (u := dval T / dval S) in *.
  assert (dval r * dval x <= (u + (u * (1 # 1000000000000000000000000000) + (51 # 100000000000000000))) * dval x) as H2
    by (apply Qmult_le_compat_r; lra).
  assert ((u + (u * (1 # 1000000000000000000000000000) + (51 # 100000000000000000))) * dval x ==
    u * dval x * (1 + (1 # 1000000000000000000000000000)) + dval x * (51 # 100000000000000000)) as E by ring.
  rewrite E in H2. set (w := u * dval x) in *.
  assert (0 <= dval r * dval x) as H3 by (apply Qmult_le_0_compat; lra).
  assert (dval r * dval x <= inject_Z (10 ^ 28)) as H4
    by (change (inject_Z (10 ^ 28)) with (10000000000000000000000000000 # 1); lra).
  assert (dval x * dval r == dval r * dval x) as Ex by ring.
  apply whole_comp. pose proof (rnd_proper _ mul_rounding) as Hpr.
  rewrite !dmul_val; [by rewrite Ex|by apply abs_max|rewrite Ex; by apply abs_max].
Qed.

Lemma sp_rewards_list shares p (rate : dec) :
  (forall s, s ∈ shares -> 0 <= whole_bones (sp_total_dcs s * rate)%dec)%Z ->
  let rewards := into_service_provider_rewards shares p rate in
  amounts_ok rewards /\ sumZ fst rewards = sumZ (fun s => whole_bones (sp_total_dcs s * rate)%dec) shares.
Proof.
  intros H0. cbv zeta. unfold into_service_provider_rewards. split.
  - intros r (x & -> & Hx)%list_elem_of_fmap. apply list_elem_of_In, filter_In in Hx as [_ Hx]. by zbool.
  - rewrite sumZ_fmap. cbn [fst]. rewrite sumZ_filter.
    + by rewrite sumZ_fmap.
    + intros x (s & -> & Hs)%list_elem_of_fmap. specialize (H0 s Hs). cbn. intros E. zbool. lia.
Qed.

Lemma service_providers_ok shares dcs p (pot price : dec) :
  sp_shares_ok shares dcs -> 0 <= dval pot <= (1000000000000000 # 1) -> bone_price_ok price ->
  let rewards := into_service_provider_rewards shares p (sp_rewards_per_share shares pot price) in
  amounts_ok rewards /\ inject_Z (sumZ fst rewards) <= dval pot + (1 # 100).
Proof.
  intros (Hs & Hsum & Hn) Hpot Hp. cbv zeta. unfold sp_rewards_per_share.
  assert (0 <= sumZ dcs shares)%Z as H0 by (apply sumZ_nonneg; intros s Hin; by apply Hs).
  assert (dval (total_dc shares) == inject_Z (sumZ dcs shares)) as Et by (apply dec_sum_int; [done|lia]).
  set (S := total_dc shares) in *. set (used := dc_to_mobile_bones S price).
  assert (0 <= dval S <= 10000000000000 # 1) as HS.
  { rewrite Et. change 0 with (inject_Z 0). change (10000000000000 # 1) with (inject_Z (10 ^ 13)). by rewrite <- !Zle_Qle. }
  destruct (bones_bounds S price ltac:(lra) Hp) as [Hu _]. fold used in Hu.
  assert (0 <= dval (maybe_cap_service_provider_rewards used pot) <= dval pot) as Hcap.
  { unfold maybe_cap_service_provider_rewards. destruct (dleb used pot) eqn:E; [apply dleb_val in E; lra|lra]. }
  set (T := maybe_cap_service_provider_rewards used pot) in *. unfold calc_rewards_per_share.
  destruct (dgtb S dec_zero) eqn:Eg.
  - apply dgtb_val in Eg. rewrite dec_zero_val, Et in Eg. change 0 with (inject_Z 0) in Eg. rewrite <- Zlt_Qlt in Eg.
    assert (inject_Z 1 <= dval S) as HS1 by (rewrite Et, <- Zle_Qle; lia). change (inject_Z 1) with 1 in HS1.
    assert (pot_ok T S) as Hok.
    { split; [change (inject_Z (10 ^ 15)) with (1000000000000000 # 1); lra|].
      change (inject_Z (10 ^ 13)) with (10000000000000 # 1). lra. }
    assert (dval S == sumQ (fun s => dval (sp_total_dcs s)) shares) as ES.
    { rewrite Et, sumZ_inject. clear - Hs. induction shares as [|s l IH]; [done|]. rewrite !sumQ_cons, IH.
      - by rewrite (proj1 (Hs s ltac:(left))).
      - intros s' Hin. apply Hs. by right. }
    assert (forall s, s ∈ shares -> 0 <= dval (sp_total_dcs s) <= dval S) as Hb.
    { assert (forall s, s ∈ shares -> 0 <= dval (sp_total_dcs s)) as Hb0.
      { intros s Hin. destruct (Hs s Hin) as [-> Hd]. change 0 with (inject_Z 0). by rewrite <- Zle_Qle. }
      intros s Hin. split; [by apply Hb0|]. rewrite ES.
      apply (sumQ_elem (fun s => dval (sp_total_dcs s))); [done|]. intros b Hin'. by apply Hb0. }
    change (round_dp DEFAULT_PREC MidpointNearestEven (T / S)%dec) with (share_rate T S).
    destruct (sp_rewards_list shares p (share_rate T S)) as [Hok' Esum].
    { intros s Hin. rewrite share_payout_swap by auto. by apply share_payout_near; auto. }
    split; [done|]. rewrite Esum.
    rewrite (sumZ_ext _ (fun s => share_payout (share_rate T S) (sp_total_dcs s)))
      by (intros s Hin; apply share_payout_swap; auto).
    pose proof (share_payouts_bound sp_total_dcs shares T S Hok ltac:(intros s Hin; by apply Hb) ES ltac:(lia)). lra.
  - assert (forall s, s ∈ shares -> whole_bones (sp_total_dcs s * dec_zero)%dec = 0%Z) as Hz.
    { intros s Hin. unfold whole_bones. apply to_u64_nonpos. destruct (Hs s Hin) as [Es Hd].
      assert (dcs s <= sumZ dcs shares)%Z as Hle by (apply sumZ_elem; [done|]; intros b Hb; by apply Hs).
      rewrite (dmul_int _ _ (dcs s) 0 Es dec_zero_val) by lia. rewrite Z.mul_0_r. done. }
    destruct (sp_rewards_list shares p dec_zero) as [Hok' Esum]; [intros s Hin; by rewrite Hz|].
    split; [done|]. rewrite Esum, (sumZ_ext _ (fun _ => 0%Z)) by done. rewrite sumZ_const. change (inject_Z _) with 0. lra.
Qed.
End Subscribers.

(** ** Data transfer *)

Section Transfers.
Context {dec : Type} `{!Decimal dec, !DecimalLaws dec}.

(** Rewards [f] of a list, each multiplied by a scale. *)
Lemma scaled_sum {A} (f : A -> dec) (l : list A) (sc : dec) :
  let b := sumQ (fun x => dval (f x)) l in
  let total := dval (dec_sum (fun x => f x * sc)%dec l) in
  let s := dval (dec_sum f l * sc)%dec in
  (forall x, x ∈ l -> 0 <= dval (f x)) -> b <= inject_Z (10 ^ 26) -> (Z.of_nat (length l) <= 10 ^ 8)%Z ->
  0 <= dval sc <= 2 -> dval sc * b <= (300000000000000 # 1) ->
  0 <= total /\ 0 <= s /\ s - (1 # 1000) <= total <= s + (1 # 1000) /\
  s <= dval sc * dval (dec_sum f l) + (1 # 1000000) /\
  (forall x, x ∈ l -> 0 <= whole_bones (f x * sc)%dec)%Z /\
  inject_Z (sumZ (fun x => whole_bones (f x * sc)%dec) l) <= total + (1 # 1000).
Proof.
  intros b total s Hf Hb Hn Hsc Hscb.
  destruct (dec_sum_abs f l Hf Hb Hn) as (Hb0 & Hs0 & Hs1). fold b in Hb0, Hs1.
  assert (forall x, x ∈ l -> 0 <= dval sc * dval (f x) <= dval sc * b) as Hx.
  { intros x Hin. pose proof (Hf x Hin). split; [apply Qmult_le_0_compat; lra|].
    rewrite !(Qmult_comm (dval sc)). apply Qmult_le_compat_r; [|lra].
    apply (sumQ_elem (fun y => dval (f y))); [done|]. intros y Hy. by apply Hf. }
  assert (forall x, x ∈ l -> 0 <= dval (f x * sc)%dec /\ near (dval (f x * sc)%dec) (dval sc * dval (f x))) as Hm.
  { intros x Hin. specialize (Hx x Hin). assert (dval (f x) * dval sc == dval sc * dval (f x)) as E by ring.
    destruct (dmul_near (f x) sc) as [H1 H2]; [rewrite E; lra| |].
    { rewrite E. change (inject_Z (10 ^ 28)) with (10000000000000000000000000000 # 1). lra. }
    split; [done|]. unfold near in *. by rewrite E in H2. }
  set (P := sumQ (fun x => dval (f x * sc)%dec) l).
  assert (dval sc * b - (1 # 1000000) <= P <= dval sc * b + (1 # 1000000)) as HP.
  { pose proof (length_bound l _ Hn) as Hn'. change (inject_Z (10 ^ 8)) with (100000000 # 1) in Hn'.
    assert (P <= sumQ (fun x => (dval sc * (1 + (1 # 1000000000000000000000000000))) * dval (f x) +
      (1 # 10000000000000000000000000000)) l) as H1.
    { apply sumQ_le. intros x Hin. destruct (Hm x Hin) as [_ H]. unfold near in H. lra. }
    assert (sumQ (fun x => (dval sc * (1 - (1 # 1000000000000000000000000000))) * dval (f x) +
      (- (1 # 10000000000000000000000000000))) l <= P) as H2.
    { apply sumQ_le. intros x Hin. destruct (Hm x Hin) as [_ H]. unfold near in H. lra. }
    rewrite sumQ_affine in H1, H2. fold b in H1, H2. set (n := inject_Z _) in *. lra. }
  destruct (dec_sum_abs (fun x => f x * sc)%dec l) as (HP0 & Ht0 & Ht1); [intros x Hin; by apply Hm| |done|].
  { fold P. change (inject_Z (10 ^ 26)) with (100000000000000000000000000 # 1). lra. }
  fold P in HP0, Ht1. fold total in Ht0, Ht1.
  assert (dval sc * b - (32 # 100000) <= dval sc * dval (dec_sum f l) <= dval sc * b + (32 # 100000)) as Hd.
  { assert ((b - (b + 1) * (1 # 1000000000000000000)) * dval sc <= dval (dec_sum f l) * dval sc) as H1
      by (apply Qmult_le_compat_r; lra).
    assert (dval (dec_sum f l) * dval sc <= (b + (b + 1) * (1 # 1000000000000000000)) * dval sc) as H2
      by (apply Qmult_le_compat_r; lra).
    assert ((b - (b + 1) * (1 # 1000000000000000000)) * dval sc ==
      dval sc * b - (dval sc * b + dval sc) * (1 # 1000000000000000000)) as E1 by ring.
    assert ((b + (b + 1) * (1 # 1000000000000000000)) * dval sc ==
      dval sc * b + (dval sc * b + dval sc) * (1 # 1000000000000000000)) as E2 by ring.
    assert (dval (dec_sum f l) * dval sc == dval sc * dval (dec_sum f l)) as E3 by ring. lra. }
  assert (dval (dec_sum f l) * dval sc == dval sc * dval (dec_sum f l)) as E3 by ring.
  destruct (dmul_near (dec_sum f l) sc) as [H3 H4]; [apply Qmult_le_0_compat; lra| |].
  { rewrite E3. change (inject_Z (10 ^ 28)) with (10000000000000000000000000000 # 1). lra. }
  unfold near in H4. rewrite E3 in H4. fold s in H3, H4.
  assert (forall x, x ∈ l -> (0 <= whole_bones (f x * sc)%dec)%Z /\ inject_Z (whole_bones (f x * sc)%dec) <= dval (f x * sc)%dec) as Hw.
  { intros x Hin. destruct (Hm x Hin) as [H5 H6]. specialize (Hx x Hin). unfold near in H6.
    destruct (whole_bones_floor (f x * sc)%dec) as [H7 H8]; [lra|]. split; [done|lra]. }
  split; [done|]. split; [done|]. split; [lra|]. split; [lra|]. split; [intros x Hin; by apply Hw|].
  rewrite sumZ_inject. apply Qle_trans with P; [apply sumQ_le; intros x Hin; by apply Hw|lra].
Qed.

(** The scale brings a sum down to 40 per cent of the pool. *)
Lemma reward_scale_bounds (B E : dec) b :
  (800000000 # 1) <= dval E <= (600000000000001 # 1) -> 0 <= b <= (1000000000000000000000 # 1) -> 0 <= dval B ->
  b - (b + 1) * (1 # 1000000000000000000) <= dval B <= b + (b + 1) * (1 # 1000000000000000000) ->
  let sc := if dgtb (B / E)%dec MAX_DATA_TRANSFER_REWARDS_PERCENT
            then (MAX_DATA_TRANSFER_REWARDS_PERCENT * E / B)%dec else dec_of_Z 1 in
  0 <= dval sc <= 2 /\ dval sc * b <= (300000000000000 # 1) /\
  dval sc * dval B <= dval E * (4 # 10) + (1 # 10000).
Proof.
  intros HE Hb HB0 HB. cbv zeta.
  pose proof (dec_new_val (dec := dec) 4 1 ltac:(lia) ltac:(lia)) as E4.
  fold (MAX_DATA_TRANSFER_REWARDS_PERCENT (dec := dec)) in E4. set (mx := MAX_DATA_TRANSFER_REWARDS_PERCENT) in *.
  assert (dval mx == 4 # 10) as E4' by (rewrite E4; reflexivity). clear E4.
  assert (0 <= dval B / dval E <= dval B) as Hr.
  { split; [apply Qle_shift_div_l; lra|apply Qle_shift_div_r; [lra|]].
    assert (1 * dval B <= dval E * dval B) as H by (apply Qmult_le_compat_r; lra). lra. }
  destruct (ddiv_near B E) as [H1 H2]; [lra|lra| |].
  { change (inject_Z (10 ^ 28)) with (10000000000000000000000000000 # 1). lra. }
  unfold near in H2. set (r := dval B / dval E) in *.
  assert (dval B == r * dval E) as Er by (unfold r; field; lra).
  destruct (dgtb (B / E)%dec mx) eqn:Eg.
  - apply dgtb_val in Eg. rewrite E4' in Eg.
    assert ((399 # 1000) * dval E <= r * dval E) as H3 by (apply Qmult_le_compat_r; lra).
    assert (0 < dval B) as HBp by lra.
    assert (dval mx * dval E == dval E * (4 # 10)) as Em by (rewrite E4'; ring).
    destruct (dmul_near mx E) as [H4 H5]; [rewrite Em; lra| |].
    { rewrite Em. change (inject_Z (10 ^ 28)) with (10000000000000000000000000000 # 1). lra. }
    unfold near in H5. rewrite Em in H5. set (X := (mx * E)%dec) in *.
    assert (0 <= dval X / dval B <= 1 + (1 # 10)) as Hq.
    { split; [apply Qle_shift_div_l; lra|apply Qle_shift_div_r; lra]. }
    destruct (ddiv_near X B) as [H6 H7]; [lra|lra| |].
    { change (inject_Z (10 ^ 28)) with (10000000000000000000000000000 # 1). lra. }
    unfold near in H7. set (q := dval X / dval B) in *. set (sc := (X / B)%dec) in *.
    assert (q * dval B == dval X) as Eq by (unfold q; field; lra).
    assert (dval sc * dval B <= (q * (1 + (1 # 1000000000000000000000000000)) + (1 # 10000000000000000000000000000)) * dval B)
      as H8 by (apply Qmult_le_compat_r; lra).
    assert ((q * (1 + (1 # 1000000000000000000000000000)) + (1 # 10000000000000000000000000000)) * dval B ==
      dval X * (1 + (1 # 1000000000000000000000000000)) + dval B * (1 # 10000000000000000000000000000)) as E8
      by (rewrite <- Eq; ring).
    rewrite E8 in H8. split; [lra|]. split; [|lra].
    assert (b <= dval B * (1 + (3 # 1000000000000000000))) as H9 by lra.
    assert (b * dval sc <= dval B * (1 + (3 # 1000000000000000000)) * dval sc) as H10
      by (apply Qmult_le_compat_r; lra).
    assert (dval B * (1 + (3 # 1000000000000000000)) * dval sc == dval sc * dval B * (1 + (3 # 1000000000000000000)))
      as E10 by ring.
    assert (b * dval sc == dval sc * b) as E11 by ring. rewrite E10 in H10. lra.
  - assert (dval (B / E)%dec <= 4 # 10) as H3.
    { rewrite <- E4'. apply Qnot_lt_le. intros H. apply dgtb_val in H. congruence. }
    pose proof (dec_of_Z_val (dec := dec) 1 ltac:(lia)) as E1. change (inject_Z 1) with 1 in E1.
    assert (r * dval E <= ((4 # 10) + (1 # 1000000000000000000000000)) * dval E) as H4
      by (apply Qmult_le_compat_r; lra).
    split; [rewrite E1; lra|]. rewrite E1. split; lra.
Qed.

Definition sessions_ok (sessions : gmap PublicKeyBinary HotspotReward) : Prop :=
  (forall k r, sessions !! k = Some r -> 0 <= rewardable_dc r)%Z /\
  (sumZ (fun kv => rewardable_dc kv.2) (map_to_list sessions) <= 10 ^ 13)%Z /\
  (Z.of_nat (size sessions) <= 10 ^ 8)%Z.

(** The bones of the hotspots, before the scale. *)
Lemma transfer_bones sessions (price : dec) p :
  sessions_ok sessions -> bone_price_ok price ->
  let l := map_to_list (tr_rewards (from_transfer_sessions price sessions p)) in
  let b := sumQ (fun kv => dval (tr_bones kv.2)) l in
  (forall kv, kv ∈ l -> 0 <= dval (tr_bones kv.2)) /\ 0 <= b <= (1000000000000000000000 # 1) /\
  (Z.of_nat (length l) <= 10 ^ 8)%Z.
Proof.
  intros (H0 & Hs & Hn) Hp. cbv zeta. unfold from_transfer_sessions. cbn [tr_rewards]. rewrite map_to_list_fmap.
  set (g := fun r => mkTransferReward _ _).
  assert (forall kv, kv ∈ map_to_list sessions -> 0 <= dval (tr_bones (g kv.2)) <=
    inject_Z (rewardable_dc kv.2) * (10000001 # 1) + 1) as Hg.
  { intros [k r] Hk%elem_of_map_to_list. cbn [snd]. pose proof (H0 k r Hk) as Hr.
    assert (rewardable_dc r <= 10 ^ 13)%Z as Hle.
    { etransitivity; [|exact Hs]. apply (sumZ_elem (fun kv => rewardable_dc kv.2) _ (k, r)); [by apply elem_of_map_to_list|].
      intros [k' r'] Hk'%elem_of_map_to_list. by apply (H0 k'). }
    pose proof (dec_of_Z_val (dec := dec) (rewardable_dc r) ltac:(lia)) as E.
    rewrite <- E. apply bones_bounds; [|done]. rewrite E. change 0 with (inject_Z 0).
    change (20000000000000 # 1) with (inject_Z 20000000000000). rewrite <- !Zle_Qle. lia. }
  split; [|split].
  - intros kv (x & -> & Hx)%list_elem_of_fmap. by apply Hg.
  - rewrite sumQ_fmap. cbn [prod_map snd]. split; [apply sumQ_nonneg; intros kv Hkv; by apply Hg|].
    apply Qle_trans with (sumQ (fun kv => (10000001 # 1) * inject_Z (rewardable_dc kv.2) + 1) (map_to_list sessions)).
    { apply sumQ_le. intros kv Hkv. destruct (Hg kv Hkv). change (prod_map id g kv).2 with (g kv.2). lra. }
    rewrite sumQ_affine, length_map_to_list, <- sumZ_inject.
    assert (inject_Z (sumZ (fun kv => rewardable_dc kv.2) (map_to_list sessions)) <= inject_Z (10 ^ 13)) as H1
      by (by rewrite <- Zle_Qle).
    assert (inject_Z (Z.of_nat (size sessions)) <= inject_Z (10 ^ 8)) as H2 by (by rewrite <- Zle_Qle).
    change (inject_Z (10 ^ 13)) with (10000000000000 # 1) in H1. change (inject_Z (10 ^ 8)) with (100000000 # 1) in H2. lra.
  - by rewrite length_fmap, length_map_to_list.
Qed.

Lemma transfers_ok sessions (price : dec) p :
  mobile_secs_ok (r_end p - r_start p) -> sessions_ok sessions -> bone_price_ok price ->
  let tr := from_transfer_sessions price sessions p in
  let total := dval (transfer_total tr) in
  let s := dval (tr_reward_sum tr) in
  let rewards := transfer_into_rewards tr p in
  0 <= s <= emission_share 40 (num_secs (r_end p - r_start p)) + (1 # 1000) /\
  0 <= total /\ s - (1 # 1000) <= total <= s + (1 # 1000) /\
  amounts_ok rewards /\ inject_Z (sumZ fst rewards) <= total + (1 # 1000).
Proof.
  intros Hd Hs Hp tr. cbv zeta. destruct (transfer_bones sessions price p Hs Hp) as (H0 & Hb & Hn). fold tr in H0, Hb, Hn.
  set (l := map_to_list (tr_rewards tr)) in *. set (f := fun kv : PublicKeyBinary * TransferReward (dec := dec) => tr_bones kv.2).
  change (forall kv, kv ∈ l -> 0 <= dval (f kv)) in H0. set (b := sumQ _ l) in Hb.
  assert (b <= inject_Z (10 ^ 26)) as Hb' by (change (inject_Z (10 ^ 26)) with (100000000000000000000000000 # 1); lra).
  pose proof (mobile_emission_bounds _ Hd) as HE. pose proof (total_tokens_near (dec := dec) _ Hd) as Ht. cbv zeta in Ht.
  destruct (dec_sum_abs f l H0 Hb' Hn) as (_ & HB0 & HB). change (sumQ (fun x => dval (f x)) l) with b in HB.
  set (E := get_total_scheduled_tokens (dec := dec) (r_end p - r_start p)) in *.
  destruct (reward_scale_bounds (dec_sum f l) E b) as (H1 & H2 & H3); [lra|lra|done|done|].
  change (if dgtb _ _ then _ else _) with (tr_reward_scale tr) in H1, H2, H3.
  destruct (scaled_sum f l (tr_reward_scale tr) H0 Hb' Hn H1 H2) as (H4 & H5 & H6 & H7 & H8 & H9).
  change (dec_sum (fun x => f x * tr_reward_scale tr)%dec l) with (transfer_total tr) in H4, H6, H9.
  change (dec_sum f l * tr_reward_scale tr)%dec with (tr_reward_sum tr) in H5, H6, H7.
  split; [unfold emission_share; change (inject_Z 40) with (40 # 1); lra|].
  split; [done|]. split; [done|]. unfold transfer_into_rewards. fold l. split.
  - intros r Hr. apply list_elem_of_In, filter_In in Hr as [Hr Hpos].
    apply list_elem_of_In, list_elem_of_fmap in Hr as (kv & -> & _). by zbool.
  - rewrite sumZ_filter.
    + rewrite sumZ_fmap. exact H9.
    + intros r (kv & -> & Hkv)%list_elem_of_fmap. cbn [fst]. intros Hz. specialize (H8 kv Hkv). unfold f in H8. zbool. lia.
Qed.
End Transfers.

(** ** The session table *)

Open Scope Z_scope.

Definition epoch_sessions (t : list HotspotDataSession) (p : Range) : list HotspotDataSession :=
  List.filter (fun s => in_epoch p (hd_received_timestamp s)) t.

(** Sessions of a period: up to a hundred million, and up to ten million million
    data credits in all. *)
Definition data_rows_ok (t : list HotspotDataSession) (p : Range) : Prop :=
  (forall s, s ∈ epoch_sessions t p -> 0 <= hd_num_dcs s) /\
  sumZ hd_num_dcs (epoch_sessions t p) <= 10 ^ 13 /\ Z.of_nat (length (epoch_sessions t p)) <= 10 ^ 8.

Definition dcs_of_share {dec} `{!Decimal dec, !DecimalLaws dec} (s : ServiceProviderDataSession dec) : Z :=
  Qfloor (dval (sp_total_dcs s)).

Lemma dc_le_total t p s : data_rows_ok t p -> s ∈ epoch_sessions t p -> 0 <= hd_num_dcs s <= 10 ^ 13.
Proof.
  intros (H0 & H1 & _) Hs. split; [by apply H0|]. etransitivity; [|exact H1]. by apply (sumZ_elem hd_num_dcs).
Qed.

Lemma hotspot_sessions_ok t p : data_rows_ok t p -> sessions_ok (aggregate_hotspot_data_sessions_to_dc t p).
Proof.
  intros Hok. destruct Hok as (H0 & H1 & H2).
  destruct (group_rows_spec hd_pub_key (fun o s =>
      let rewards := default (mkHotspotReward 0 0) o in
      mkHotspotReward
        (u64_add (rewardable_bytes rewards) (u64_add (as_u64 (hd_upload_bytes s)) (as_u64 (hd_download_bytes s))))
        (u64_add (rewardable_dc rewards) (as_u64 (hd_num_dcs s)))) rewardable_dc hd_num_dcs (10 ^ 13) (epoch_sessions t p))
    as (H3 & H4 & H5); [|done|done|].
  - intros o s Hs Ho HM. pose proof (dc_le_total t p s (conj H0 (conj H1 H2)) Hs).
    assert (rewardable_dc (default (mkHotspotReward 0 0) o) = from_option rewardable_dc 0 o) as E by (by destruct o).
    cbn [rewardable_dc]. rewrite E. rewrite as_u64_small by (unfold is_u64; lia). apply u64_add_small; lia.
  - split; [exact H3|]. split.
    + change (aggregate_hotspot_data_sessions_to_dc t p) with
        (group_rows hd_pub_key (fun o s =>
           let rewards := default (mkHotspotReward 0 0) o in
           mkHotspotReward
             (u64_add (rewardable_bytes rewards) (u64_add (as_u64 (hd_upload_bytes s)) (as_u64 (hd_download_bytes s))))
             (u64_add (rewardable_dc rewards) (as_u64 (hd_num_dcs s)))) (epoch_sessions t p)).
      by rewrite H4.
    + change (Z.of_nat (size (aggregate_hotspot_data_sessions_to_dc t p)) <= 10 ^ 8).
      etransitivity; [|exact H2]. apply Nat2Z.inj_le. exact H5.
Qed.

(** No sum of a payer exceeds a [bigint]. *)
Lemma payer_sessions t p :
  data_rows_ok t p ->
  exists m, sum_data_sessions_to_dc_by_payer t p = Some m /\ (forall k n, m !! k = Some n -> 0 <= n <= 10 ^ 13) /\
    sumZ snd (map_to_list m) <= 10 ^ 13 /\ Z.of_nat (size m) <= 10 ^ 8.
Proof.
  intros Hok. destruct Hok as (H0 & H1 & H2).
  destruct (group_rows_spec hd_payer (fun o s => default 0 o + hd_num_dcs s) id hd_num_dcs (10 ^ 13) (epoch_sessions t p))
    as (H3 & H4 & H5); [by intros []|done|done|].
  unfold sum_data_sessions_to_dc_by_payer. fold (epoch_sessions t p).
  change (fold_left _ (epoch_sessions t p) ∅) with (group_rows hd_payer (fun o s => default 0 o + hd_num_dcs s) (epoch_sessions t p)).
  set (m := group_rows hd_payer _ _) in *.
  assert (forall k n, m !! k = Some n -> 0 <= n <= 10 ^ 13) as Hb.
  { intros k n E. split; [by apply (H3 k)|]. etransitivity; [|exact H1]. rewrite <- H4.
    by apply (sumZ_map_elem (fun kv => kv.2) m k n). }
  rewrite (proj2 (forallb_forall _ _)).
  2: { intros [k n] Hk%list_elem_of_In%elem_of_map_to_list. specialize (Hb k n Hk). cbn.
       rewrite (proj2 (Z.leb_le _ _)), (proj2 (Z.ltb_lt _ _)) by lia. done. }
  assert (as_u64 <$> m = m) as ->.
  { apply map_eq. intros k. rewrite lookup_fmap. destruct (m !! k) as [n|] eqn:E; [|done]. cbn.
    rewrite as_u64_small; [done|]. specialize (Hb k n E). unfold is_u64. lia. }
  exists m. split; [done|]. split; [done|]. split; [|lia]. change (fun kv : PublicKeyBinary * Z => id kv.2) with (snd (A := PublicKeyBinary) (B := Z)) in H4. by rewrite H4.
Qed.

Section Payers.
Context {dec : Type} `{!Decimal dec, !DecimalLaws dec}.

Lemma payers_shares client l (shares : list (ServiceProviderDataSession dec)) :
  from_payers_dc client l = Some shares -> (forall kv, kv ∈ l -> 0 <= kv.2 <= 10 ^ 13) ->
  (forall s, s ∈ shares -> (dval (sp_total_dcs s) == inject_Z (dcs_of_share s))%Q /\ 0 <= dcs_of_share s) /\
  sumZ dcs_of_share shares = sumZ snd l /\ length shares = length l.
Proof.
  revert shares. induction l as [|[k n] l IH]; intros shares; cbn.
  - intros [= <-] _. split; [by intros s ?%not_elem_of_nil|done].
  - destruct (client k) as [sp|]; [|done]. cbn. destruct (from_payers_dc client l) as [rest|]; [|done]. cbn.
    intros [= <-] Hb. destruct (IH rest eq_refl) as (H1 & H2 & H3); [intros kv Hkv; apply Hb; by right|].
    pose proof (Hb (k, n) ltac:(left)) as Hn. cbn in Hn.
    pose proof (dec_of_Z_val (dec := dec) n ltac:(lia)) as E.
    assert (dcs_of_share (mkSpSession sp (dec_of_Z (dec := dec) n)) = n) as Ed
      by (unfold dcs_of_share; cbn; by rewrite (Qfloor_comp _ _ E), Qfloor_Z).
    split; [|split].
    + intros s [->|Hs]%elem_of_cons; [|by apply H1]. rewrite Ed. split; [done|lia].
    + rewrite !sumZ_cons, Ed, H2. done.
    + cbn [length]. by rewrite H3.
Qed.
End Payers.
