(* ===== verification/MobilePoints.v ===== *)
(** * The points of the mobile rewarder

    The shares that covered hexes give: their value against the exact product of
    multipliers and points, what the rewards add up to, and the map of points that
    [aggregate_points] builds, in which every radio that a hex rewards is known. *)

From S2P Require Import Prelude Solana FileStoreTypes Decimal Scheduler MobileSpeedtests MobileCoverage MobileHeartbeats.
From S2P Require Import MobileRewards MobilePots.
From Stdlib Require Import Qabs Ascii.

Open Scope Z_scope.
Open Scope oracle_scope.

(** ** Points and their shares *)

Open Scope Q_scope.

Lemma sumZ_bind {A B} (f : B -> Z) (g : A -> list B) (l : list A) : sumZ f (l ≫= g) = sumZ (fun a => sumZ f (g a)) l.
Proof. induction l as [|a l IH]; [done|]. rewrite bind_cons, sumZ_app, sumZ_cons. by rewrite IH. Qed.

Lemma sumQ_scale {A} (f : A -> Q) (c : Q) (l : list A) : sumQ (fun a => c * f a) l == c * sumQ f l.
Proof. induction l as [|a l IH]; [cbn; ring|]. rewrite !sumQ_cons, IH. ring. Qed.

Lemma sumQ_plus {A} (f g : A -> Q) (l : list A) : sumQ (fun a => f a + g a) l == sumQ f l + sumQ g l.
Proof. induction l as [|a l IH]; [cbn; ring|]. rewrite !sumQ_cons, IH. ring. Qed.

Section Points.
Context {dec : Type} `{!Decimal dec, !DecimalLaws dec}.
Implicit Types (r : RadioPoints dec) (h : HotspotPoints dec) (cp : gmap PublicKeyBinary (HotspotPoints dec)).

Definition mult_ok (m : dec) : Prop := zero_or_above (1 # 4) (dval m) /\ 0 <= dval m <= 1.

(** The points of a radio are an integer. *)
Definition points_of r : Z := Qfloor (dval (rp_points r)).

Definition radio_ok r : Prop :=
  (1 # 4) <= dval (rp_location_trust_score_multiplier r) <= 1 /\
  dval (rp_points r) == inject_Z (points_of r) /\ (0 <= points_of r)%Z.

(** The shares of a radio before its speedtest multiplier, and those of a hotspot. *)
Definition radio_shares r : Q := dval (rp_location_trust_score_multiplier r) * inject_Z (points_of r).
Definition hotspot_radios h : list (option string * RadioPoints dec) := map_to_list (hp_radio_points h).
Definition hotspot_shares h : Q :=
  dval (hp_speedtest_multiplier h) * sumQ (fun kv => radio_shares kv.2) (hotspot_radios h).

Definition hotspot_ok h : Prop :=
  mult_ok (hp_speedtest_multiplier h) /\ forall kv, kv ∈ hotspot_radios h -> radio_ok kv.2.

Lemma radio_shares_bounds r :
  radio_ok r -> 0 <= radio_shares r <= inject_Z (points_of r) /\ zero_or_above (1 # 4) (radio_shares r).
Proof.
  intros (Hl & Hp & H0). unfold radio_shares. set (loc := dval _) in *.
  assert (0 <= inject_Z (points_of r)) as Hn by (change 0 with (inject_Z 0); by rewrite <- Zle_Qle).
  assert (loc * inject_Z (points_of r) <= 1 * inject_Z (points_of r)) as H1 by (apply Qmult_le_compat_r; lra).
  assert ((1 # 4) * inject_Z (points_of r) <= loc * inject_Z (points_of r)) as H2 by (apply Qmult_le_compat_r; lra).
  split; [lra|]. destruct (decide (points_of r = 0%Z)) as [E|Hne].
  - left. rewrite E. change (inject_Z 0) with 0. ring.
  - right. assert (inject_Z 1 <= inject_Z (points_of r)) as H3 by (rewrite <- Zle_Qle; lia).
    change (inject_Z 1) with 1 in H3. lra.
Qed.

Lemma dmax_zero (a : dec) : 0 <= dval a -> dval (dmax a dec_zero) == dval a.
Proof.
  intros H. unfold dmax. destruct (dleb a dec_zero) eqn:E; [|done]. apply dleb_val in E.
  pose proof (dec_zero_val (dec := dec)) as Ez. lra.
Qed.

Lemma radio_total_rel r :
  radio_ok r -> (points_of r <= 10 ^ 21)%Z ->
  rel (2 # 100000000000000000000000000) (dval (radio_points_total r)) (radio_shares r).
Proof.
  intros Hr HM. pose proof (radio_shares_bounds r Hr) as [Hb Hz]. destruct Hr as (Hl & Hp & H0).
  assert (inject_Z (points_of r) <= inject_Z (10 ^ 21)) as HM' by (by rewrite <- Zle_Qle).
  change (inject_Z (10 ^ 21)) with (1000000000000000000000 # 1) in HM'.
  assert (dval (rp_location_trust_score_multiplier r) * dval (rp_points r) == radio_shares r) as E
    by (unfold radio_shares; by rewrite Hp).
  pose proof (dmul_rel (rp_location_trust_score_multiplier r) (rp_points r)) as H. cbv zeta in H.
  assert (rel (2 # 100000000000000000000000000)
    (dval (rp_location_trust_score_multiplier r * rp_points r)%dec) (radio_shares r)) as Hrel.
  { apply (rel_eq _ _ _ _ _ (Qeq_refl _) E). apply H.
    - rewrite E. change (inject_Z (10 ^ 28)) with (10000000000000000000000000000 # 1). lra.
    - destruct Hz as [Hz|Hz]; [left|right]; rewrite E; lra. }
  unfold radio_points_total. apply (rel_eq _ _ _ _ _ (Qeq_sym _ _ (dmax_zero _ (rel_nonneg _ _ _ Hrel ltac:(lra)))) (Qeq_refl _) Hrel).
Qed.

Definition hotspot_points_of h : Z := sumZ (fun kv => points_of kv.2) (hotspot_radios h).

Lemma points_le_hotspot h kv : hotspot_ok h -> kv ∈ hotspot_radios h -> (points_of kv.2 <= hotspot_points_of h)%Z.
Proof.
  intros [_ Hr] Hin. apply (sumZ_elem (fun kv => points_of kv.2)); [done|]. intros x Hx. by apply Hr.
Qed.

Lemma radios_sum_bounds h :
  hotspot_ok h ->
  let s := sumQ (fun kv => radio_shares kv.2) (hotspot_radios h) in
  0 <= s <= inject_Z (hotspot_points_of h) /\ zero_or_above (1 # 4) s.
Proof.
  intros [_ Hr]. cbv zeta. split; [split|].
  - apply sumQ_nonneg. intros kv Hin. by apply radio_shares_bounds, Hr.
  - unfold hotspot_points_of. rewrite sumZ_inject. apply sumQ_le. intros kv Hin. by apply radio_shares_bounds, Hr.
  - apply sumQ_zero_or_above; [lra|]. intros kv Hin. by apply radio_shares_bounds, Hr.
Qed.

Lemma hotspot_total_rel h :
  hotspot_ok h -> (hotspot_points_of h <= 10 ^ 21)%Z -> (Z.of_nat (length (hotspot_radios h)) <= 10 ^ 8)%Z ->
  rel (22 # 10000000000000000000) (dval (hotspot_total_points h)) (hotspot_shares h).
Proof.
  intros Hh HM Hn. pose proof (radios_sum_bounds h Hh) as [Hs Hz]. cbv zeta in Hs, Hz.
  assert (inject_Z (hotspot_points_of h) <= inject_Z (10 ^ 21)) as HM' by (by rewrite <- Zle_Qle).
  change (inject_Z (10 ^ 21)) with (1000000000000000000000 # 1) in HM'.
  set (s := sumQ (fun kv => radio_shares kv.2) (hotspot_radios h)) in *.
  set (t := sumQ (fun kv => dval (radio_points_total kv.2)) (hotspot_radios h)).
  assert (forall kv, kv ∈ hotspot_radios h ->
    rel (2 # 100000000000000000000000000) (dval (radio_points_total kv.2)) (radio_shares kv.2)) as Hrel.
  { intros kv Hin. apply radio_total_rel; [by apply Hh|]. pose proof (points_le_hotspot h kv Hh Hin). lia. }
  assert (rel (2 # 100000000000000000000000000) t s) as Hts by (by apply rel_sum).
  assert (zero_or_above (1 # 5) t) as Hzt by (apply (rel_zero_or_above _ _ _ _ _ Hts Hz); lra).
  pose proof (dec_sum_rel (fun kv => radio_points_total kv.2) (hotspot_radios h)) as Hd. cbv beta zeta in Hd. fold t in Hd.
  assert (rel (2 # 1000000000000000000) (dval (dec_sum (fun kv => radio_points_total kv.2) (hotspot_radios h))) t) as Hdt.
  { apply Hd; [intros kv Hin; apply (rel_nonneg _ _ _ (Hrel kv Hin) ltac:(lra))| | |done].
    - destruct Hzt as [E|H]; [by left|right; lra].
    - change (inject_Z (10 ^ 27)) with (1000000000000000000000000000 # 1). unfold rel in Hts. lra. }
  clear Hd. set (d := dec_sum _ _) in *.
  assert (rel (21 # 10000000000000000000) (dval d) s) as Hds
    by (eapply rel_trans; [| | |exact Hdt|exact Hts]; lra).
  destruct Hh as [[Hm0 Hm1] _]. set (m := hp_speedtest_multiplier h) in *.
  assert (zero_or_above (1 # 5) (dval d)) as Hzd
    by (apply (rel_zero_or_above _ _ _ _ _ Hds Hz); lra).
  assert (0 <= dval d) as Hd0 by (apply (rel_nonneg _ _ _ Hds ltac:(lra))).
  assert (rel (2 # 100000000000000000000000000) (dval (m * d)%dec) (dval m * dval d)) as Hmd.
  { assert (0 <= dval m * dval d <= 1 * dval d) as Hb by (split; [apply Qmult_le_0_compat; lra|apply Qmult_le_compat_r; lra]).
    apply dmul_rel; [change (inject_Z (10 ^ 28)) with (10000000000000000000000000000 # 1); unfold rel in Hds; lra|].
    destruct Hm0 as [E|Hm0]; [left; rewrite E; ring|]. destruct Hzd as [E|Hzd]; [left; rewrite E; ring|right].
    apply Qle_trans with ((1 # 4) * (1 # 5)); [lra|]. apply Qle_trans with (dval m * (1 # 5)); [lra|].
    rewrite !(Qmult_comm (dval m)). apply Qmult_le_compat_r; lra. }
  pose proof (rel_scale _ _ _ (dval m) (proj1 Hm1) Hds) as Hsc.
  unfold hotspot_total_points, hotspot_shares. fold m. fold (hotspot_radios h). fold d. fold s.
  eapply rel_trans; [| | |exact Hmd|exact Hsc]; lra.
Qed.

(** All hotspots: up to a hundred million radios. *)
Definition cp_radio_count cp : Z := sumZ (fun kv => Z.of_nat (length (hotspot_radios kv.2))) (map_to_list cp).
Definition cp_points cp : Z := sumZ (fun kv => hotspot_points_of kv.2) (map_to_list cp).
Definition cp_shares cp : Q := sumQ (fun kv => hotspot_shares kv.2) (map_to_list cp).

Definition cp_ok cp : Prop :=
  (forall k h, cp !! k = Some h -> hotspot_ok h) /\ (cp_radio_count cp <= 10 ^ 8)%Z /\ (cp_points cp <= 10 ^ 21)%Z /\
  (Z.of_nat (size cp) <= 10 ^ 8)%Z.

Lemma hotspot_points_nonneg h : hotspot_ok h -> (0 <= hotspot_points_of h)%Z.
Proof. intros [_ Hr]. apply sumZ_nonneg. intros kv Hin. by apply Hr. Qed.

Lemma cp_hotspot cp k h :
  cp_ok cp -> (k, h) ∈ map_to_list cp ->
  hotspot_ok h /\ (hotspot_points_of h <= cp_points cp)%Z /\ (Z.of_nat (length (hotspot_radios h)) <= 10 ^ 8)%Z.
Proof.
  intros (Ho & Hc & _) Hin. pose proof Hin as E%elem_of_map_to_list. split; [by apply (Ho k)|]. split.
  - apply (sumZ_map_elem (fun kv => hotspot_points_of kv.2) cp k h); [|done]. intros k' h' E'.
    by apply hotspot_points_nonneg, (Ho k').
  - etransitivity; [|exact Hc]. apply (sumZ_map_elem (fun kv => Z.of_nat (length (hotspot_radios kv.2))) cp k h); [|done].
    intros k' h' E'. cbn. lia.
Qed.

Lemma hotspot_shares_bounds h :
  hotspot_ok h -> 0 <= hotspot_shares h <= inject_Z (hotspot_points_of h) /\ zero_or_above (1 # 16) (hotspot_shares h).
Proof.
  intros Hh. destruct (radios_sum_bounds h Hh) as [Hs Hz]. cbv zeta in Hs, Hz. destruct Hh as [[Hm Hm'] _].
  unfold hotspot_shares. set (s := sumQ _ _) in *. set (m := dval _) in *.
  assert (0 <= m * s <= 1 * s) as Hb by (split; [apply Qmult_le_0_compat; lra|apply Qmult_le_compat_r; lra]).
  split; [lra|]. destruct Hm as [E|Hm]; [left; rewrite E; ring|]. destruct Hz as [E|Hz]; [left; rewrite E; ring|right].
  assert ((1 # 4) * s <= m * s) by (apply Qmult_le_compat_r; lra). lra.
Qed.

Lemma cp_shares_bounds cp :
  cp_ok cp -> 0 <= cp_shares cp <= inject_Z (cp_points cp) /\ zero_or_above (1 # 16) (cp_shares cp).
Proof.
  intros Hok. split; [split|].
  - apply sumQ_nonneg. intros [k h] Hin. by apply hotspot_shares_bounds, (cp_hotspot cp k h Hok).
  - unfold cp_points. rewrite sumZ_inject. apply sumQ_le. intros [k h] Hin.
    by apply hotspot_shares_bounds, (cp_hotspot cp k h Hok).
  - apply sumQ_zero_or_above; [lra|]. intros [k h] Hin. by apply hotspot_shares_bounds, (cp_hotspot cp k h Hok).
Qed.

Lemma total_shares_rel cp :
  cp_ok cp -> rel (5 # 1000000000000000000) (dval (coverage_total_shares cp)) (cp_shares cp).
Proof.
  intros Hok. destruct (cp_shares_bounds cp Hok) as [Hs Hz]. pose proof Hok as (_ & _ & HM & Hn).
  assert (inject_Z (cp_points cp) <= inject_Z (10 ^ 21)) as HM' by (by rewrite <- Zle_Qle).
  change (inject_Z (10 ^ 21)) with (1000000000000000000000 # 1) in HM'.
  set (t := sumQ (fun kv => dval (hotspot_total_points kv.2)) (map_to_list cp)).
  assert (forall kv, kv ∈ map_to_list cp ->
    rel (22 # 10000000000000000000) (dval (hotspot_total_points kv.2)) (hotspot_shares kv.2)) as Hrel.
  { intros [k h] Hin. destruct (cp_hotspot cp k h Hok Hin) as (H1 & H2 & H3). cbn [snd]. apply hotspot_total_rel; [done|lia|done]. }
  assert (rel (22 # 10000000000000000000) t (cp_shares cp)) as Hts by (by apply rel_sum).
  assert (zero_or_above (1 # 20) t) as Hzt by (apply (rel_zero_or_above _ _ _ _ _ Hts Hz); lra).
  pose proof (dec_sum_rel (fun kv => hotspot_total_points kv.2) (map_to_list cp)) as Hd. cbv beta zeta in Hd. fold t in Hd.
  eapply rel_trans; [| | |apply Hd|exact Hts]; [lra|lra|lra| | | |by rewrite length_map_to_list].
  - intros kv Hin. apply (rel_nonneg _ _ _ (Hrel kv Hin)). lra.
  - destruct Hzt as [E|H]; [by left|right; lra].
  - change (inject_Z (10 ^ 27)) with (1000000000000000000000000000 # 1). unfold rel in Hts. lra.
Qed.

(** The reward of one radio at a rate [R] per share. *)
Lemma radio_payout_bound (R m : dec) r :
  let x := dval m * radio_shares r in
  0 <= dval R <= (100000000000000000 # 1) -> 0 <= dval m <= 1 -> radio_ok r -> (points_of r <= 10 ^ 21)%Z ->
  dval R * x <= (2000000000000000 # 1) ->
  (0 <= radio_poc_reward R m r)%Z /\
  inject_Z (radio_poc_reward R m r) <= dval R * x * (1 + (4 # 1000000000000000000000000000)) +
    (inject_Z (points_of r) + 1) * (1 # 1000000000000000000000000000).
Proof.
  intros x HR Hm (Hl & Hp & H0) HM Hx. unfold x, radio_shares in *. clear x. unfold radio_poc_reward.
  set (loc := rp_location_trust_score_multiplier r) in *. set (pts := inject_Z (points_of r)) in *.
  assert (0 <= pts <= 1000000000000000000000 # 1) as Hpts.
  { unfold pts. change (1000000000000000000000 # 1) with (inject_Z (10 ^ 21)). change 0 with (inject_Z 0). by rewrite <- !Zle_Qle. }
  assert (0 <= dval R * dval m <= dval R * 1) as HA by (apply Qmult_bounds; lra).
  set (A := dval R * dval m) in *.
  assert (0 <= A * dval loc <= A * 1) as HB by (apply Qmult_bounds; lra).
  assert (dval R * (dval m * (dval loc * pts)) == A * dval loc * pts) as Ex by (unfold A; ring).
  rewrite Ex in Hx |- *. set (B := A * dval loc) in *.
  assert (0 <= B * pts) as HC by (apply Qmult_le_0_compat; lra).
  destruct (dmul_near R m) as [H1 H2]; [fold A; lra|fold A; change (inject_Z (10 ^ 28)) with (10000000000000000000000000000 # 1); lra|].
  unfold near in H2. fold A in H2. set (a1 := (R * m)%dec) in *.
  destruct (Qmult_near (dval a1) A (A * (1 # 1000000000000000000000000000) + (1 # 10000000000000000000000000000)) (dval loc) 1)
    as [_ H3]; [lra|lra|lra|]. fold B in H3.
  assert (dval a1 * dval loc <= B * (1 + (1 # 1000000000000000000000000000)) + (1 # 10000000000000000000000000000)) as H3'.
  { assert (dval a1 * dval loc <= (A * (1 + (1 # 1000000000000000000000000000)) + (1 # 10000000000000000000000000000)) * dval loc)
      as H by (apply Qmult_le_compat_r; lra).
    assert ((A * (1 + (1 # 1000000000000000000000000000)) + (1 # 10000000000000000000000000000)) * dval loc ==
      B * (1 + (1 # 1000000000000000000000000000)) + dval loc * (1 # 10000000000000000000000000000)) as E by (unfold B; ring).
    lra. }
  assert (0 <= dval a1 * dval loc) as H4 by (apply Qmult_le_0_compat; lra).
  destruct (dmul_near a1 loc) as [H5 H6]; [lra|change (inject_Z (10 ^ 28)) with (10000000000000000000000000000 # 1); lra|].
  unfold near in H6. set (a2 := (a1 * loc)%dec) in *.
  assert (dval a2 <= B * (1 + (21 # 10000000000000000000000000000)) + (21 # 100000000000000000000000000000)) as H7 by lra.
  assert (dval a2 * dval (rp_points r) == dval a2 * pts) as E2 by (by rewrite Hp).
  assert (dval a2 * pts <= (B * (1 + (21 # 10000000000000000000000000000)) + (21 # 100000000000000000000000000000)) * pts) as H8
    by (apply Qmult_le_compat_r; lra).
  assert ((B * (1 + (21 # 10000000000000000000000000000)) + (21 # 100000000000000000000000000000)) * pts ==
    B * pts * (1 + (21 # 10000000000000000000000000000)) + pts * (21 # 100000000000000000000000000000)) as E3 by ring.
  rewrite E3 in H8. set (C := B * pts) in *.
  assert (0 <= dval a2 * pts) as H9 by (apply Qmult_le_0_compat; lra).
  destruct (dmul_near a2 (rp_points r)) as [H10 H11]; [rewrite E2; lra| |].
  { rewrite E2. change (inject_Z (10 ^ 28)) with (10000000000000000000000000000 # 1). lra. }
  unfold near in H11. rewrite E2 in H11. set (y := dval a2 * pts) in *.
  destruct (whole_bones_floor (a2 * rp_points r)%dec) as [H12 H13]; [lra|]. split; [done|]. lra.
Qed.

(** The rate per share, against the exact shares. *)
Lemma poc_rate_bounds cp (T : dec) :
  cp_ok cp -> 0 <= dval T <= (1000000000000000 # 1) -> (1 # 16) <= cp_shares cp ->
  let R := dval (T / coverage_total_shares cp)%dec in
  ~ dval (coverage_total_shares cp) == 0 /\ Qabs (dval T / dval (coverage_total_shares cp)) <= dec_max /\
  0 <= R <= (100000000000000000 # 1) /\ R * cp_shares cp <= dval T + (1 # 110).
Proof.
  intros Hok HT Hs. cbv zeta. pose proof (total_shares_rel cp Hok) as [_ Hrel].
  destruct (cp_shares_bounds cp Hok) as [[Hs0 Hs1] _]. destruct Hok as (_ & _ & HM & _).
  assert (inject_Z (cp_points cp) <= inject_Z (10 ^ 21)) as HM' by (by rewrite <- Zle_Qle).
  change (inject_Z (10 ^ 21)) with (1000000000000000000000 # 1) in HM'.
  set (S := cp_shares cp) in *. set (c := coverage_total_shares cp) in *.
  assert ((1 # 20) <= dval c) as Hc by lra. assert (S <= dval c * (1 + (6 # 1000000000000000000))) as HSc by lra.
  assert (0 <= dval T / dval c <= (20000000000000000 # 1)) as Hq
    by (split; [apply Qle_shift_div_l; lra|apply Qle_shift_div_r; lra]).
  assert (dval T / dval c <= inject_Z (10 ^ 28)) as Hmax
    by (change (inject_Z (10 ^ 28)) with (10000000000000000000000000000 # 1); lra).
  assert (0 < dval c) as Hc0 by lra. destruct (ddiv_near T c Hc0 (proj1 Hq) Hmax) as [H1 H2]. unfold near in H2.
  split; [lra|]. split; [apply abs_max; lra|]. split; [lra|].
  set (u := dval T / dval c) in *. set (R := dval (T / c)%dec) in *.
  assert (u * dval c == dval T) as Eu by (unfold u; field; lra).
  assert (R * S <= (u * (1 + (1 # 1000000000000000000000000000)) + (1 # 10000000000000000000000000000)) * S) as H3
    by (apply Qmult_le_compat_r; lra).
  assert (S * u <= dval c * (1 + (6 # 1000000000000000000)) * u) as H4 by (apply Qmult_le_compat_r; lra).
  assert (dval c * (1 + (6 # 1000000000000000000)) * u == dval T * (1 + (6 # 1000000000000000000))) as E4
    by (rewrite <- Eu; ring).
  assert ((u * (1 + (1 # 1000000000000000000000000000)) + (1 # 10000000000000000000000000000)) * S ==
    S * u * (1 + (1 # 1000000000000000000000000000)) + S * (1 # 10000000000000000000000000000)) as E3 by ring.
  rewrite E4 in H4. rewrite E3 in H3. lra.
Qed.

Lemma hotspot_payouts (R : dec) h :
  hotspot_ok h -> (hotspot_points_of h <= 10 ^ 21)%Z -> 0 <= dval R <= (100000000000000000 # 1) ->
  dval R * hotspot_shares h <= (2000000000000000 # 1) ->
  (forall kv, kv ∈ hotspot_radios h -> 0 <= radio_poc_reward R (hp_speedtest_multiplier h) kv.2)%Z /\
  inject_Z (sumZ (fun kv => radio_poc_reward R (hp_speedtest_multiplier h) kv.2) (hotspot_radios h)) <=
    dval R * hotspot_shares h * (1 + (4 # 1000000000000000000000000000)) +
    (inject_Z (hotspot_points_of h) + inject_Z (Z.of_nat (length (hotspot_radios h)))) * (1 # 1000000000000000000000000000).
Proof.
  intros Hh HM HR Hx. set (m := hp_speedtest_multiplier h).
  assert (forall kv, kv ∈ hotspot_radios h ->
    (0 <= radio_poc_reward R m kv.2)%Z /\
    inject_Z (radio_poc_reward R m kv.2) <=
      (dval R * dval m * (1 + (4 # 1000000000000000000000000000))) * radio_shares kv.2 +
      ((1 # 1000000000000000000000000000) * inject_Z (points_of kv.2) + (1 # 1000000000000000000000000000))) as Hr.
  { intros kv Hin. pose proof (points_le_hotspot h kv Hh Hin) as Hle. destruct Hh as [[_ Hm] Hh]. fold m in Hm.
    pose proof (radio_shares_bounds _ (Hh kv Hin)) as [Hb _].
    assert (dval R * (dval m * radio_shares kv.2) <= dval R * hotspot_shares h) as Hle'.
    { rewrite !(Qmult_comm (dval R)). apply Qmult_le_compat_r; [|lra]. unfold hotspot_shares. fold m.
      rewrite !(Qmult_comm (dval m)). apply Qmult_le_compat_r; [|lra].
      apply (sumQ_elem (fun kv => radio_shares kv.2)); [done|]. intros x Hx'. by apply radio_shares_bounds, Hh. }
    destruct (radio_payout_bound R m kv.2) as [H1 H2]; [done|done|by apply Hh|lia|lra|]. split; [done|]. lra. }
  split; [intros kv Hin; by apply Hr|]. rewrite sumZ_inject.
  eapply Qle_trans; [apply sumQ_le; intros kv Hin; apply (Hr kv Hin)|].
  rewrite sumQ_plus, sumQ_scale, sumQ_affine. unfold hotspot_shares, hotspot_points_of. rewrite sumZ_inject. fold m.
  apply Qeq_le. ring.
Qed.

Lemma coverage_payouts cp (R : dec) :
  cp_ok cp -> 0 <= dval R <= (100000000000000000 # 1) -> dval R * cp_shares cp <= (2000000000000000 # 1) ->
  let pay kv := sumZ (fun x => radio_poc_reward R (hp_speedtest_multiplier kv.2) x.2) (hotspot_radios kv.2) in
  (forall k h x, (k, h) ∈ map_to_list cp -> x ∈ hotspot_radios h ->
     0 <= radio_poc_reward R (hp_speedtest_multiplier h) x.2)%Z /\
  inject_Z (sumZ pay (map_to_list cp)) <= dval R * cp_shares cp + (1 # 2000).
Proof.
  intros Hok HR Hx pay. pose proof Hok as (_ & Hc & HM & _). destruct (cp_shares_bounds cp Hok) as [[HS0 _] _].
  assert (forall k h, (k, h) ∈ map_to_list cp -> dval R * hotspot_shares h <= (2000000000000000 # 1)) as Hle.
  { intros k h Hin. apply Qle_trans with (2 := Hx). rewrite !(Qmult_comm (dval R)). apply Qmult_le_compat_r; [|lra].
    apply (sumQ_elem (fun kv => hotspot_shares kv.2) _ (k, h)); [done|].
    intros [k' h'] Hin'. by apply hotspot_shares_bounds, (cp_hotspot cp k' h' Hok). }
  assert (forall k h, (k, h) ∈ map_to_list cp -> hotspot_ok h /\ (hotspot_points_of h <= 10 ^ 21)%Z) as Hh.
  { intros k h Hin. destruct (cp_hotspot cp k h Hok Hin) as (H1 & H2 & _). split; [done|lia]. }
  pose proof (fun k h Hin => hotspot_payouts R h (proj1 (Hh k h Hin)) (proj2 (Hh k h Hin)) HR (Hle k h Hin)) as Hp.
  split; [intros k h x Hin Hx'; by apply (Hp k h Hin)|]. rewrite sumZ_inject.
  apply Qle_trans with (sumQ (fun kv =>
    (dval R * (1 + (4 # 1000000000000000000000000000))) * hotspot_shares kv.2 +
    ((1 # 1000000000000000000000000000) * inject_Z (hotspot_points_of kv.2) +
     (1 # 1000000000000000000000000000) * inject_Z (Z.of_nat (length (hotspot_radios kv.2))))) (map_to_list cp)).
  { apply sumQ_le. intros [k h] Hin. destruct (Hp k h Hin) as [_ H]. unfold pay. cbn [snd]. lra. }
  rewrite !sumQ_plus, !sumQ_scale, <- !sumZ_inject. fold (cp_shares cp) (cp_points cp) (cp_radio_count cp).
  assert (inject_Z (cp_points cp) <= inject_Z (10 ^ 21)) as HM' by (by rewrite <- Zle_Qle).
  assert (inject_Z (cp_radio_count cp) <= inject_Z (10 ^ 8)) as Hc' by (by rewrite <- Zle_Qle).
  change (inject_Z (10 ^ 21)) with (1000000000000000000000 # 1) in HM'.
  change (inject_Z (10 ^ 8)) with (100000000 # 1) in Hc'.
  assert (dval R * (1 + (4 # 1000000000000000000000000000)) * cp_shares cp ==
    dval R * cp_shares cp * (1 + (4 # 1000000000000000000000000000))) as E by ring.
  rewrite E. set (w := dval R * cp_shares cp) in *. lra.
Qed.

(** The rewards of the radios exceed the pot by less than a hundredth of a bone;
    there are none only when nobody has shares. *)
Lemma coverage_rewards_ok cp (T : dec) p :
  cp_ok cp -> 0 <= dval T <= (1000000000000000 # 1) ->
  match coverage_into_rewards cp T p with
  | None => cp_shares cp == 0
  | Some rewards => amounts_ok rewards /\ inject_Z (sumZ fst rewards) <= dval T + (1 # 100)
  end.
Proof.
  intros Hok HT. destruct (cp_shares_bounds cp Hok) as [_ [E|Hs]].
  - assert (dval (coverage_total_shares cp) == 0) as Ez.
    { destruct (total_shares_rel cp Hok) as [_ H]. rewrite E in H. lra. }
    unfold coverage_into_rewards. by rewrite checked_div_zero.
  - destruct (poc_rate_bounds cp T Hok HT Hs) as (H1 & H2 & H3 & H4). unfold coverage_into_rewards.
    rewrite checked_div_val by done. cbn [mbind option_bind]. set (R := (T / coverage_total_shares cp)%dec) in *.
    destruct (coverage_payouts cp R Hok H3) as [H5 H6]; [lra|]. cbv zeta in H6.
    assert (forall x, x ∈ map_to_list cp ≫= (fun kv => radio_points_into_rewards kv.1 p R kv.2) ->
      (0 <= x.1)%Z /\ mobile_amount x.2 = x.1) as Hl.
    { intros x ([k h] & Hx & Hin)%list_elem_of_bind. unfold radio_points_into_rewards in Hx. cbn [fst snd] in Hx.
      apply list_elem_of_fmap in Hx as (kv & -> & Hkv). split; [|done]. by apply (H5 k h kv). }
    split.
    + intros x Hx. apply list_elem_of_In, filter_In in Hx as [Hx Hpos]. apply list_elem_of_In in Hx.
      destruct (Hl x Hx). by zbool.
    + rewrite sumZ_filter by (intros x Hx Hz; destruct (Hl x Hx); zbool; lia). rewrite sumZ_bind.
      assert (sumZ (fun kv => sumZ fst (radio_points_into_rewards kv.1 p R kv.2)) (map_to_list cp) =
        sumZ (fun kv => sumZ (fun x => radio_poc_reward R (hp_speedtest_multiplier kv.2) x.2) (hotspot_radios kv.2))
          (map_to_list cp)) as ->.
      { apply sumZ_ext. intros [k h] _. unfold radio_points_into_rewards. by rewrite sumZ_fmap. }
      lra.
Qed.
End Points.

(** ** The points of a period *)

Open Scope Z_scope.

Section Aggregation.
Context {dec : Type} {D : Decimal dec} {DL : DecimalLaws dec} {KT : KeyText} {CI : CellIndex} {BH : BinaryHeap}.
Implicit Types (cp : gmap PublicKeyBinary (HotspotPoints dec)) (c : CoveredHexes).

(** The hexes that were counted. *)
Definition hex_count c : Z := Z.of_nat (size (ch_indoor c)) + Z.of_nat (size (ch_outdoor c)).

Lemma size_insert_le {K V} `{Countable K} (m : gmap K V) k v :
  Z.of_nat (size (<[k := v]> m)) <= Z.of_nat (size m) + 1.
Proof.
  destruct (m !! k) eqn:E; [rewrite map_size_insert_Some by eauto|rewrite map_size_insert_None by done]; lia.
Qed.

Lemma aggregate_coverage_count hotspot hexes : forall c c',
  aggregate_coverage hotspot c hexes = Some c' -> hex_count c' <= hex_count c + Z.of_nat (length hexes).
Proof.
  induction hexes as [|h hexes IH]; intros c c'; cbn [aggregate_coverage length]; [intros [= <-]; lia|].
  destruct (add_hex hotspot c h) as [c1|] eqn:E; [|done]. cbn. intros Ha%IH.
  assert (hex_count c1 <= hex_count c + 1); [|lia].
  unfold add_hex in E. destruct (negb _); [done|]. unfold hex_count.
  destruct (hc_indoor h); injection E as <-; cbn [ch_indoor ch_outdoor].
  - match goal with |- context [<[?k := ?v]> (ch_indoor c)] => pose proof (size_insert_le (ch_indoor c) k v) end. lia.
  - match goal with |- context [<[?k := ?v]> (ch_outdoor c)] => pose proof (size_insert_le (ch_outdoor c) k v) end. lia.
Qed.

(** What is known after some radios of a table with [n] hexes. *)
Record radios_inv (n k : Z) c cp : Prop := mkRadiosInv {
  ri_hexes : hex_count c <= k * n;
  ri_ok : forall key h, cp !! key = Some h -> hotspot_ok h;
  ri_zero : cp_points cp = 0;
  ri_count : cp_radio_count cp <= k;
  ri_size : Z.of_nat (size cp) <= k
}.

Lemma hotspot_points_insert (m : dec) (radios : gmap (option string) (RadioPoints dec)) i r :
  hotspot_points_of (mkHotspotPoints m (<[i := r]> radios)) =
  hotspot_points_of (mkHotspotPoints m radios) - from_option points_of 0 (radios !! i) + points_of r.
Proof.
  unfold hotspot_points_of, hotspot_radios. cbn [hp_radio_points]. rewrite sumZ_insert. cbn [snd].
  by destruct (radios !! i).
Qed.

Lemma cp_points_insert cp k h :
  cp_points (<[k := h]> cp) = cp_points cp - from_option hotspot_points_of 0 (cp !! k) + hotspot_points_of h.
Proof. unfold cp_points. rewrite sumZ_insert. cbn [snd]. by destruct (cp !! k). Qed.

Lemma cp_count_insert cp k h :
  cp_radio_count (<[k := h]> cp) =
  cp_radio_count cp - from_option (fun h => Z.of_nat (length (hotspot_radios h))) 0 (cp !! k) +
  Z.of_nat (length (hotspot_radios h)).
Proof. unfold cp_radio_count. rewrite sumZ_insert. cbn [snd]. by destruct (cp !! k). Qed.

Lemma hotspot_ok_insert (m : dec) (radios : gmap (option string) (RadioPoints dec)) i r :
  hotspot_ok (mkHotspotPoints m radios) -> radio_ok r -> hotspot_ok (mkHotspotPoints m (<[i := r]> radios)).
Proof.
  intros [Hm Hr] Hok. split; [done|]. intros [j x] Hin%elem_of_map_to_list. cbn [snd hp_radio_points] in *.
  destruct (decide (j = i)) as [->|Hne].
  - rewrite lookup_insert_eq in Hin. by injection Hin as <-.
  - rewrite lookup_insert_ne in Hin by done. apply (Hr (j, x)). by apply elem_of_map_to_list.
Qed.

Definition averages_ok (averages : gmap PublicKeyBinary (SpeedtestAverage dec)) : Prop :=
  forall k a, averages !! k = Some a -> mult_ok (sa_reward_multiplier a).

Definition heartbeat_ok (h : HeartbeatReward dec) : Prop :=
  ((1 # 4) <= dval (hw_location_trust_score_multiplier h) <= 1)%Q.

Lemma mult_ok_zero : mult_ok (dec_zero (dec := dec)).
Proof. pose proof (dec_zero_val (dec := dec)) as E. split; [by left|lra]. Qed.

Lemma stream_length t key uuid s : (length (covered_hex_stream t key uuid s).2 <= size (t_hexes t))%nat.
Proof.
  unfold covered_hex_stream. cbn [snd]. destruct (t_coverage_objects t !! uuid) as [row|]; [|cbn; lia].
  destruct (String.eqb _ _); [|cbn; lia]. rewrite length_fmap, <- (length_map_to_list (t_hexes t)).
  apply filter_length_le.
Qed.

Lemma radios_inv_insert n k c c' cp hotspot (m0 : dec) i radio :
  mult_ok m0 -> radio_ok radio -> points_of radio = 0 -> hex_count c' <= (k + 1) * n -> radios_inv n k c cp ->
  let entry := default (mkHotspotPoints m0 ∅) (cp !! hotspot) in
  radios_inv n (k + 1) c'
    (<[hotspot := mkHotspotPoints (hp_speedtest_multiplier entry) (<[i := radio]> (hp_radio_points entry))]> cp).
Proof.
  intros Hm0 Hr Ep Hc' [H1 H2 H3 H4 H5] entry.
  assert (hotspot_ok entry) as He.
  { unfold entry. destruct (cp !! hotspot) as [x|] eqn:E; [by apply (H2 _ _ E)|]. split; [done|].
    intros kv Hin. unfold hotspot_radios in Hin. cbn in Hin. rewrite map_to_list_empty in Hin. by apply not_elem_of_nil in Hin. }
  assert (hotspot_points_of entry = from_option hotspot_points_of 0 (cp !! hotspot)) as Ee
    by (unfold entry; by destruct (cp !! hotspot)).
  assert (length (hotspot_radios entry) = from_option (fun h => length (hotspot_radios h)) 0%nat (cp !! hotspot))
    as El by (unfold entry; by destruct (cp !! hotspot)).
  assert (hotspot_points_of entry <= 0) as Hz.
  { rewrite Ee. destruct (cp !! hotspot) as [y|] eqn:Ey; [|done]. cbn. rewrite <- H3.
    apply (sumZ_map_elem (fun kv => hotspot_points_of kv.2) cp hotspot y); [|exact Ey].
    intros k' h' E'. by apply hotspot_points_nonneg, (H2 k'). }
  clearbody entry. destruct entry as [m radios]. cbn [hp_speedtest_multiplier hp_radio_points]. split.
  - done.
  - intros key x. destruct (decide (key = hotspot)) as [->|Hne].
    + rewrite lookup_insert_eq. intros [= <-]. by apply hotspot_ok_insert.
    + rewrite lookup_insert_ne by done. apply H2.
  - rewrite cp_points_insert, hotspot_points_insert, Ep, Ee, H3.
    assert (from_option points_of 0 (radios !! i) = 0) as ->; [|lia].
    destruct (radios !! i) as [x|] eqn:Ex; [|done]. cbn.
    assert ((i, x) ∈ hotspot_radios (mkHotspotPoints m radios)) as Hin by (by apply elem_of_map_to_list).
    pose proof (points_le_hotspot _ _ He Hin). destruct He as [_ He]. destruct (He _ Hin) as (_ & _ & Hx). cbn in *. lia.
  - rewrite cp_count_insert. unfold hotspot_radios in *. cbn [hp_radio_points] in *. rewrite !length_map_to_list in *.
    pose proof (size_insert_le radios i radio). destruct (cp !! hotspot) as [y|]; cbn in *; lia.
  - etransitivity; [apply size_insert_le|]. lia.
Qed.

Lemma add_radio_inv averages period_end t c cp h t' c' cp' k :
  averages_ok averages -> heartbeat_ok h -> radios_inv (Z.of_nat (size (t_hexes t))) k c cp ->
  add_radio averages period_end t (c, cp) h = (t', Ok (c', cp')) ->
  t_hexes t' = t_hexes t /\ radios_inv (Z.of_nat (size (t_hexes t))) (k + 1) c' cp'.
Proof.
  intros Ha Hh Hinv. unfold add_radio.
  destruct (fetch_seniority t (hw_key h) period_end) as [sen|]; [|done].
  pose proof (stream_length t (hw_key h) (hw_coverage_object h) sen) as Hl.
  destruct (covered_hex_stream t (hw_key h) (hw_coverage_object h) sen) as [ts hexes] eqn:Es. cbn [fst snd] in *.
  assert (t_hexes ts = t_hexes t) as Et by (unfold covered_hex_stream in Es; by injection Es as <- _).
  destruct (aggregate_coverage (hw_hotspot_key h) c hexes) as [c1|] eqn:Ec; [|done]. cbn [ok_or result_bind].
  apply aggregate_coverage_count in Ec. intros [= <- <- <-]. split; [done|]. apply (radios_inv_insert _ _ c); [| | | |done].
  - unfold get_average. destruct (averages !! hw_hotspot_key h) as [a|] eqn:E; [by apply (Ha _ _ E)|apply mult_ok_zero].
  - split; [exact Hh|]. unfold points_of. cbn [rp_points]. rewrite (Qfloor_comp _ _ dec_zero_val).
    split; [exact dec_zero_val|done].
  - unfold points_of. cbn. by rewrite (Qfloor_comp _ _ dec_zero_val).
  - destruct Hinv. lia.
Qed.

Lemma add_radios_inv averages period_end hs : forall t c cp t' c' cp' k,
  averages_ok averages -> (forall h, h ∈ hs -> heartbeat_ok h) -> radios_inv (Z.of_nat (size (t_hexes t))) k c cp ->
  add_radios averages period_end t (c, cp) hs = (t', Ok (c', cp')) ->
  radios_inv (Z.of_nat (size (t_hexes t))) (k + Z.of_nat (length hs)) c' cp'.
Proof.
  induction hs as [|h hs IH]; intros t c cp t' c' cp' k Ha Hh Hinv; cbn [add_radios length].
  - intros [= _ <- <-]. by rewrite Z.add_0_r.
  - destruct (add_radio averages period_end t (c, cp) h) as [t1 [[c1 cp1]|e]] eqn:E; [|done]. intros H.
    destruct (add_radio_inv _ _ _ _ _ _ _ _ _ k Ha (Hh h ltac:(left)) Hinv E) as [Et Hinv'].
    rewrite <- Et in Hinv'. specialize (IH t1 c1 cp1 t' c' cp' (k + 1) Ha ltac:(intros x Hx; apply Hh; by right) Hinv' H).
    rewrite Et in IH. by replace (k + Z.of_nat (S (length hs))) with (k + 1 + Z.of_nat (length hs)) by lia.
Qed.

Definition reward_points (r : CoverageReward dec) : Z := Qfloor (dval (cw_points r)).

Definition reward_ok (r : CoverageReward dec) : Prop :=
  (dval (cw_points r) == inject_Z (reward_points r))%Q /\ 0 <= reward_points r.

Lemma add_points_inv cp r cp' :
  (forall k h, cp !! k = Some h -> hotspot_ok h) -> reward_ok r -> cp_points cp + reward_points r < 2 ^ 96 ->
  add_points cp r = Ok cp' ->
  (forall k h, cp' !! k = Some h -> hotspot_ok h) /\ cp_points cp' = cp_points cp + reward_points r /\
  cp_radio_count cp' = cp_radio_count cp /\ size cp' = size cp.
Proof.
  intros Hok [Er Hr] HM. unfold add_points.
  destruct (cp !! cw_hotspot r) as [h|] eqn:Eh; [|done]. cbn [ok_or result_bind].
  destruct (hp_radio_points h !! into_cbsd_id (cw_radio_key r)) as [x|] eqn:Ex; [|done]. cbn [ok_or result_bind].
  intros [= <-]. pose proof (Hok _ _ Eh) as Hh. set (i := into_cbsd_id (cw_radio_key r)) in *.
  assert ((i, x) ∈ hotspot_radios h) as Hin by (by apply elem_of_map_to_list).
  pose proof (points_le_hotspot h (i, x) Hh Hin) as Hle. cbn [snd] in Hle.
  assert (hotspot_points_of h <= cp_points cp) as Hle'.
  { apply (sumZ_map_elem (fun kv => hotspot_points_of kv.2) cp (cw_hotspot r) h); [|done].
    intros k' h' E'. by apply hotspot_points_nonneg, (Hok k'). }
  destruct (proj2 Hh _ Hin) as (Hl & Hp & H0). cbn [snd] in Hl, Hp, H0.
  pose proof (dadd_int (rp_points x) (cw_points r) _ _ Hp Er ltac:(lia)) as Ea.
  set (radio := mkRadioPoints _ _ _ (rp_points x + cw_points r)%dec).
  assert (points_of radio = points_of x + reward_points r) as Ep
    by (unfold points_of at 1; cbn [rp_points radio]; by rewrite (Qfloor_comp _ _ Ea), Qfloor_Z).
  assert (radio_ok radio) as Hradio by (split; [exact Hl|]; rewrite Ep; split; [exact Ea|lia]).
  destruct h as [m radios]. cbn [hp_speedtest_multiplier hp_radio_points] in *. split; [|split; [|split]].
  - intros k y. destruct (decide (k = cw_hotspot r)) as [->|Hne].
    + rewrite lookup_insert_eq. intros [= <-]. by apply hotspot_ok_insert.
    + rewrite lookup_insert_ne by done. apply Hok.
  - rewrite cp_points_insert, hotspot_points_insert, Eh, Ex, Ep. cbn [from_option]. lia.
  - rewrite cp_count_insert, Eh. cbn [from_option]. unfold hotspot_radios. cbn [hp_radio_points].
    rewrite !length_map_to_list, map_size_insert_Some by eauto. lia.
  - rewrite map_size_insert_Some; eauto.
Qed.

Lemma add_all_points_inv rs : forall cp cp',
  (forall k h, cp !! k = Some h -> hotspot_ok h) -> (forall r, r ∈ rs -> reward_ok r) ->
  cp_points cp + sumZ reward_points rs < 2 ^ 96 -> add_all_points cp rs = Ok cp' ->
  (forall k h, cp' !! k = Some h -> hotspot_ok h) /\ cp_points cp' = cp_points cp + sumZ reward_points rs /\
  cp_radio_count cp' = cp_radio_count cp /\ size cp' = size cp.
Proof.
  induction rs as [|r rs IH]; intros cp cp' Hok Hr HM; cbn [add_all_points].
  - intros [= <-]. rewrite Z.add_0_r. done.
  - rewrite sumZ_cons in *.
    assert (0 <= sumZ reward_points rs) as H0 by (apply sumZ_nonneg; intros x Hx; apply Hr; by right).
    destruct (add_points cp r) as [cp1|e] eqn:E; [|done]. cbn [result_bind]. intros H.
    destruct (add_points_inv cp r cp1 Hok (Hr r ltac:(left)) ltac:(lia) E) as (H1 & H2 & H3 & H4).
    destruct (IH cp1 cp' H1 ltac:(intros x Hx; apply Hr; by right) ltac:(lia) H) as (H5 & H6 & H7 & H8).
    split; [done|]. split; [lia|]. split; [lia|congruence].
Qed.

Lemma coverage_rewards_points c :
  let rs := into_coverage_rewards (dec := dec) c in
  (forall r, r ∈ rs -> reward_ok r) /\ 0 <= sumZ reward_points rs <= 2000 * hex_count c.
Proof.
  intros rs. destruct (coverage_points_bounds c) as [Hs Hr]. fold rs in Hs, Hr.
  assert (forall r, r ∈ rs -> reward_ok r) as Hok.
  { intros r Hin. destruct (Hr r Hin) as (n & E & Hn).
    assert (reward_points r = n) as En by (unfold reward_points; by rewrite (Qfloor_comp _ _ E), Qfloor_Z).
    split; rewrite En; [done|lia]. }
  split; [done|]. split; [apply sumZ_nonneg; intros r Hin; by apply Hok|].
  rewrite Zle_Qle, sumZ_inject.
  apply Qle_trans with (inject_Z (32 * Z.of_nat (size (ch_outdoor c)) + 2000 * Z.of_nat (size (ch_indoor c)))).
  - apply Qle_trans with (2 := Hs). apply sumQ_le. intros r Hin. apply Qeq_le. symmetry. by apply Hok.
  - rewrite <- Zle_Qle. unfold hex_count. lia.
Qed.

(** A table of at most a thousand million hexes, and at most a hundred million radios. *)
Lemma aggregate_points_ok t hs averages period_end cp :
  averages_ok averages -> (forall h, h ∈ hs -> heartbeat_ok h) -> Z.of_nat (length hs) <= 10 ^ 8 ->
  Z.of_nat (size (t_hexes t)) <= 10 ^ 9 ->
  (aggregate_points t hs averages period_end).2 = Ok cp -> cp_ok cp.
Proof.
  intros Ha Hh Hn HH. unfold aggregate_points.
  destruct (add_radios averages period_end t (covered_hexes_default, ∅) hs) as [t' [[c cp1]|e]] eqn:E; [|done].
  cbn [snd fst result_bind]. intros Hp.
  assert (radios_inv (Z.of_nat (size (t_hexes t))) 0 covered_hexes_default (∅ : gmap PublicKeyBinary (HotspotPoints dec))) as H0.
  { split; [done|by intros ?? ?%lookup_empty_Some|done..]. }
  destruct (add_radios_inv _ _ hs _ _ _ _ _ _ 0 Ha Hh H0 E) as [H1 H2 H3 H4 H5].
  destruct (coverage_rewards_points c) as [Hr Hs].
  destruct (add_all_points_inv _ cp1 cp H2 Hr ltac:(nia) Hp) as (H6 & H7 & H8 & H9).
  split; [done|]. split; [lia|]. split; [nia|lia].
Qed.
End Aggregation.

(** ** Every counted radio is known *)

Section KnownRadios.
Context {dec : Type} {D : Decimal dec} {DL : DecimalLaws dec} {KT : KeyText} {CI : CellIndex} {BH : BinaryHeap}.
Implicit Types (cp : gmap PublicKeyBinary (HotspotPoints dec)) (c : CoveredHexes).

Lemma prefix_chars p s : String.prefix p s = true ->
  forall c : Ascii.ascii, c ∈ String.list_ascii_of_string p -> c ∈ String.list_ascii_of_string s.
Proof.
  revert s. induction p as [|a p IH]; intros [|b s]; cbn.
  - intros _ c Hc. by apply not_elem_of_nil in Hc.
  - intros _ c Hc. by apply not_elem_of_nil in Hc.
  - intros [=].
  - destruct (Ascii.ascii_dec a b) as [->|]; [|done]. intros Hp c [->|Hc]%elem_of_cons.
    + left.
    + right. by apply (IH s Hp).
Qed.

(** The serial number of a known model has a zero or a dash: it is no key text. *)
Lemma known_model_not_key id : is_Some (from_cbsd_id id) -> key_decode id = KCbrs id.
Proof.
  intros [ty H]. unfold key_decode. destruct (key_from_str id) as [k|] eqn:E; [|done]. exfalso.
  pose proof (key_text_chars id k E) as Hc. unfold from_cbsd_id in H.
  repeat match goal with
  | H : (if String.prefix ?m id then _ else _) = Some _ |- _ =>
      let P := fresh "P" in destruct (String.prefix m id) eqn:P;
      [pose proof (prefix_chars _ _ P) as Hm; clear H|]
  end; [..|done].
  all: first [apply (proj1 (Hc "0"%char (Hm "0"%char ltac:(by apply (bool_decide_eq_true_1 _); vm_compute)))); reflexivity |
              apply (proj2 (Hc "-"%char (Hm "-"%char ltac:(by apply (bool_decide_eq_true_1 _); vm_compute)))); reflexivity].
Qed.

Definition plain_key (k : KeyType) : Prop := key_decode (key_encode k) = k.

Definition models_known (hs : list (HeartbeatReward dec)) : Prop :=
  forall h id, h ∈ hs -> hw_cbsd_id h = Some id -> is_Some (from_cbsd_id id).

Lemma known_plain hs h : models_known hs -> h ∈ hs -> plain_key (hw_key h).
Proof.
  intros Hk Hin. unfold plain_key, hw_key. destruct (hw_cbsd_id h) as [id|] eqn:E; cbn [key_encode].
  - by apply known_model_not_key, (Hk h).
  - unfold key_decode. by rewrite key_text_roundtrip.
Qed.

Lemma stream_keys t key uuid s hex :
  plain_key key -> hex ∈ (covered_hex_stream t key uuid s).2 -> hc_radio_key hex = key.
Proof.
  intros Hp. unfold covered_hex_stream. cbn [snd].
  destruct (t_coverage_objects t !! uuid) as [row|]; [|by intros ?%not_elem_of_nil].
  destruct (String.eqb_spec (cr_radio_key row) (key_encode key)) as [E|]; [|by intros ?%not_elem_of_nil].
  intros (kv & -> & _)%list_elem_of_fmap. cbn [hc_radio_key]. rewrite E. exact Hp.
Qed.

Definition all_known c cp : Prop :=
  forall hotspot key, covers c hotspot key ->
    exists h, cp !! hotspot = Some h /\ is_Some (hp_radio_points h !! into_cbsd_id key).

Lemma add_radio_known averages period_end t c cp h t' c' cp' :
  plain_key (hw_key h) -> all_known c cp -> add_radio averages period_end t (c, cp) h = (t', Ok (c', cp')) ->
  all_known c' cp'.
Proof.
  intros Hp Hk. unfold add_radio. destruct (fetch_seniority t (hw_key h) period_end) as [sen|]; [|done].
  destruct (aggregate_coverage (hw_hotspot_key h) c _) as [c1|] eqn:Ec; [|done]. cbn [ok_or result_bind].
  intros [= _ <- <-] hotspot key Hc. set (entry := default _ _).
  destruct (aggregate_coverage_covers _ _ _ _ _ _ Ec Hc) as [Hold|(-> & hex & Hin & ->)].
  - destruct (Hk hotspot key Hold) as (x & Ex & Hx). destruct (decide (hotspot = hw_hotspot_key h)) as [->|Hne].
    + rewrite lookup_insert_eq. eexists. split; [done|]. cbn [hp_radio_points]. unfold entry. rewrite Ex. cbn [from_option].
      destruct (decide (into_cbsd_id key = into_cbsd_id (hw_key h))) as [->|Hne'].
      * rewrite lookup_insert_eq. by eexists.
      * by rewrite lookup_insert_ne.
    + rewrite lookup_insert_ne by done. eauto.
  - rewrite (stream_keys _ _ _ _ _ Hp Hin), lookup_insert_eq. eexists. split; [done|].
    cbn [hp_radio_points]. rewrite lookup_insert_eq. by eexists.
Qed.

Lemma add_radios_known averages period_end hs : forall t c cp t' c' cp',
  (forall h, h ∈ hs -> plain_key (hw_key h)) -> all_known c cp ->
  add_radios averages period_end t (c, cp) hs = (t', Ok (c', cp')) -> all_known c' cp'.
Proof.
  induction hs as [|h hs IH]; intros t c cp t' c' cp' Hp Hk; cbn [add_radios]; [by intros [= _ <- <-]|].
  destruct (add_radio averages period_end t (c, cp) h) as [t1 [[c1 cp1]|e]] eqn:E; [|done].
  apply IH; [intros x Hx; apply Hp; by right|]. by eapply add_radio_known; [apply Hp; left| |].
Qed.

Definition reward_known cp (r : CoverageReward dec) : Prop :=
  exists h, cp !! cw_hotspot r = Some h /\ is_Some (hp_radio_points h !! into_cbsd_id (cw_radio_key r)).

Lemma add_points_known cp r : reward_known cp r -> exists cp', add_points cp r = Ok cp' /\
  forall r', reward_known cp r' -> reward_known cp' r'.
Proof.
  intros (h & Eh & [x Ex]). unfold add_points. rewrite Eh. cbn [ok_or result_bind]. rewrite Ex. cbn [ok_or result_bind].
  eexists. split; [done|]. intros r' (h' & Eh' & Hx'). unfold reward_known.
  destruct (decide (cw_hotspot r' = cw_hotspot r)) as [E|Hne].
  - rewrite E in Eh' |- *. rewrite Eh in Eh'. injection Eh' as <-. rewrite lookup_insert_eq. eexists. split; [done|].
    cbn [hp_radio_points]. destruct (decide (into_cbsd_id (cw_radio_key r') = into_cbsd_id (cw_radio_key r))) as [->|Hne].
    + rewrite lookup_insert_eq. by eexists.
    + by rewrite lookup_insert_ne.
  - rewrite lookup_insert_ne by done. eauto.
Qed.

Lemma add_all_points_known rs : forall cp, (forall r, r ∈ rs -> reward_known cp r) -> exists cp', add_all_points cp rs = Ok cp'.
Proof.
  induction rs as [|r rs IH]; intros cp Hr; cbn [add_all_points]; [by eexists|].
  destruct (add_points_known cp r (Hr r ltac:(left))) as (cp1 & -> & Hk). cbn [result_bind].
  apply IH. intros r' Hr'. apply Hk, Hr. by right.
Qed.

(** The two unwraps of [aggregate_points] never fail: when the CBRS radios
    that are rewarded have a serial number of a known model, as every stored
    heartbeat has, each reward of a covered hex goes to a hotspot and a radio of
    the first loop.  The keys read back from the coverage table are parsed as a
    public key first, so the models' prefixes matter. *)
Theorem hex_rewards_known t heartbeats averages period_end :
  models_known heartbeats -> (aggregate_points t heartbeats averages period_end).2 <> Err UnknownRadio.
Proof.
  intros Hk. unfold aggregate_points.
  destruct (add_radios averages period_end t (covered_hexes_default, ∅) heartbeats) as [t' [[c cp]|e']] eqn:E.
  - cbn [snd fst result_bind]. destruct (add_all_points_known (into_coverage_rewards c) cp) as (cp' & ->); [|done].
    intros r Hr. apply (add_radios_known _ _ heartbeats _ _ _ _ _ _ ltac:(intros h; by apply known_plain)) in E.
    + by apply E, reward_covers.
    + intros hotspot key [(cell & rs & x & Hl & _)|(cell & lv & l & rs & x & Hl & _)]; cbn in Hl; by rewrite lookup_empty in Hl.
  - cbn. intros [= ->]. clear Hk. revert E. generalize (covered_hexes_default, ∅ : gmap PublicKeyBinary (HotspotPoints dec)).
    revert t. induction heartbeats as [|h hs IH]; intros t acc; cbn [add_radios]; [done|].
    destruct (add_radio averages period_end t acc h) as [t1 [acc1|e1]] eqn:E1; [apply IH|]. intros [= _ ->].
    unfold add_radio in E1. destruct acc as [c0 cp0]. destruct (fetch_seniority _ _ _); [|done].
    by destruct (aggregate_coverage _ _ _).
Qed.
End KnownRadios.
