(* ===== verification/MobilePeriod.v ===== *)
(** * What the mobile rewarder writes for a period

    The theorems on [MobileRewards]: the shares written for a period add up to
    94 per cent of its emission, what becomes of the proof-of-coverage pot when no
    radio has shares, and how a Wi-Fi radio can be listed twice. *)

From S2P Require Import Prelude Solana FileStoreTypes Decimal Scheduler MobileSpeedtests MobileCoverage MobileHeartbeats.
From S2P Require Import MobileRewards MobilePots MobilePoints.
From Stdlib Require Import Qabs Ascii.

Open Scope Z_scope.
Open Scope oracle_scope.

(** ** The tables of a period *)

Section Tables.
Context {dec : Type} {D : Decimal dec} {DL : DecimalLaws dec} {PG : PgNumeric dec}.
Context {KT : KeyText} {CI : CellIndex} {BH : BinaryHeap}.

Definition hour_rows_ok (t : gmap (string * Z) (HbRow dec)) (p : Range) : Prop :=
  forall kv, kv ∈ hour_rows t p -> ((1 # 4) <= dval (hr_location_trust_score_multiplier kv.2) <= 1)%Q.

(** Heartbeat rows have a trust multiplier between a quarter and one; there are up
    to a hundred million of them, of locations, and a thousand million hexes. *)
Definition mobile_db_ok (db : mobile_db dec) (p : Range) : Prop :=
  let t := md_heartbeats db in
  hour_rows_ok (ht_cbrs t) p /\ hour_rows_ok (ht_wifi t) p /\
  Z.of_nat (length (hour_rows (ht_cbrs t) p)) + Z.of_nat (length (hour_rows (ht_wifi t) p)) <= 10 ^ 8 /\
  Z.of_nat (size (t_hexes (ht_coverage t))) <= 10 ^ 9 /\
  data_rows_ok (md_data_sessions db) p /\ Z.of_nat (length (md_locations db)) <= 10 ^ 8.

Lemma remove_dups_length {A} `{EqDecision A} (l : list A) : (length (remove_dups l) <= length l)%nat.
Proof. induction l as [|a l IH]; [done|]. cbn. destruct (decide_rel _ _ _); cbn; lia. Qed.

Lemma omap_length {A B} (f : A -> option B) (l : list A) : (length (omap f l) <= length l)%nat.
Proof. induction l as [|a l IH]; [done|]. cbn. destruct (f a); cbn; lia. Qed.

Lemma group_radio_ok (cbrs : bool) (t : gmap (string * Z) (HbRow dec)) p g h :
  hour_rows_ok t p -> radio_of_group cbrs (hour_rows t p) g = Some h -> heartbeat_ok h.
Proof.
  intros Hok. unfold radio_of_group. destruct (Z.leb_spec MINIMUM_HEARTBEAT_COUNT (Z.of_nat (length (hour_group (hour_rows t p) g))))
    as [Hlen|]; [|done].
  destruct (last_by _ _) as [latest|]; [|done]. cbn. destruct (last_by _ _) as [last|]; [|done]. cbn. intros [= <-].
  unfold heartbeat_ok. cbn [hw_location_trust_score_multiplier]. apply numeric_avg_bounds.
  - intros E. apply (f_equal length) in E. rewrite length_fmap in E. cbn in E. unfold MINIMUM_HEARTBEAT_COUNT in Hlen. lia.
  - intros a (kv & -> & Hkv)%list_elem_of_fmap. apply Hok. unfold hour_group in Hkv.
    by apply list_elem_of_In, filter_In in Hkv as [Hkv%list_elem_of_In _].
Qed.

Lemma groups_length (cbrs : bool) (rows : list ((string * Z) * HbRow dec)) :
  (length (omap (radio_of_group cbrs rows) (hour_groups rows)) <= length rows)%nat.
Proof.
  etransitivity; [apply omap_length|]. unfold hour_groups. etransitivity; [apply remove_dups_length|].
  by rewrite length_fmap.
Qed.

Lemma validated_radios_ok db p :
  mobile_db_ok db p ->
  (forall h, h ∈ validated_radios (md_heartbeats db) p -> heartbeat_ok h) /\
  Z.of_nat (length (validated_radios (md_heartbeats db) p)) <= 10 ^ 8.
Proof.
  intros (H1 & H2 & H3 & _). unfold validated_radios. split.
  - intros h [Hh|Hh]%elem_of_app; apply list_elem_of_omap in Hh as (g & _ & Hg); by eapply group_radio_ok in Hg.
  - rewrite length_app. pose proof (groups_length true (hour_rows (ht_cbrs (md_heartbeats db)) p)).
    pose proof (groups_length false (hour_rows (ht_wifi (md_heartbeats db)) p)). lia.
Qed.

Lemma into_multiplier_ok tier : mult_ok (into_multiplier (dec := dec) tier).
Proof.
  unfold mult_ok, zero_or_above, into_multiplier.
  destruct tier; rewrite dec_new_val by lia; change (pow10 1) with (10 # 1); change (pow10 2) with (100 # 1).
  - change (inject_Z 0 / (10 # 1))%Q with (0 / (10 # 1))%Q. split; [left; field|]. split; [|]; compute; discriminate.
  - split; [right|split]; compute; discriminate.
  - split; [right|split]; compute; discriminate.
  - split; [right|split]; compute; discriminate.
Qed.

Lemma average_from_ok l : mult_ok (sa_reward_multiplier (average_from (dec := dec) l)).
Proof.
  unfold average_from. destruct (fold_left _ _ _) as [[[[id n] u] d] lat]. destruct (0 <? n); cbn [sa_reward_multiplier].
  - apply into_multiplier_ok.
  - apply mult_ok_zero.
Qed.

Lemma epoch_averages_ok t epoch_end : averages_ok (aggregate_epoch_averages (dec := dec) t epoch_end).
Proof.
  intros k a. unfold aggregate_epoch_averages. rewrite lookup_fmap.
  destruct (_ !! k) as [l|]; [|done]. cbn. intros [= <-]. apply average_from_ok.
Qed.

Lemma period_points_ok db p cp : mobile_db_ok db p -> (period_points db p).2 = Ok cp -> cp_ok cp.
Proof.
  intros Hok H. destruct (validated_radios_ok db p Hok) as [H1 H2]. destruct Hok as (_ & _ & _ & H3 & _).
  by eapply aggregate_points_ok in H; [|apply epoch_averages_ok|..].
Qed.

Lemma location_shares_length t p : (length (aggregate_location_shares t p) <= length t)%nat.
Proof.
  unfold aggregate_location_shares. etransitivity; [apply remove_dups_length|]. rewrite length_fmap. apply filter_length_le.
Qed.

Definition bone_price_of (z : Z) : dec := (dec_of_Z z / dec_of_Z 1000000 / dec_of_Z 1000000)%dec.

Lemma bone_price_of_ok z : 1 <= z < 2 ^ 63 -> bone_price_ok (bone_price_of z).
Proof.
  intros Hz. unfold bone_price_ok, bone_price_of. rewrite (micros_twice_val z Hz).
  assert (inject_Z 1 <= inject_Z z <= inject_Z (2 ^ 63))%Q as [H1 H2] by (rewrite <- !Zle_Qle; lia).
  change (inject_Z 1) with 1%Q in H1. change (inject_Z (2 ^ 63)) with (9223372036854775808 # 1) in H2.
  change (pow10 12) with (1000000000000 # 1). change (inject_Z (10 ^ 10)) with (10000000000 # 1).
  split; [apply Qle_shift_div_l|apply Qle_shift_div_r]; lra.
Qed.
End Tables.

(** ** Wi-Fi radios with two cell types *)

Section TwoTypes.
Context {dec : Type} {D : Decimal dec} {DL : DecimalLaws dec} {PG : PgNumeric dec}.

Lemma last_by_some (key : (string * Z) * HbRow dec -> Z) rows : rows <> [] -> is_Some (last_by key rows).
Proof.
  intros Hne. unfold last_by. pose proof (head_sort_by_key (fun kv => - key kv) rows) as H.
  destruct (head _); [by eexists|done].
Qed.

Lemma wifi_group_listed (t : hb_tables dec) p k ty :
  MINIMUM_HEARTBEAT_COUNT <= Z.of_nat (length (hour_group (hour_rows (ht_wifi t) p) (k, ty))) ->
  exists h, h ∈ validated_radios t p /\ hw_key h = KWifi k /\ hw_cell_type h = ty /\
    Some (hw_coverage_object h) =
      (fun last => hr_coverage_object last.2) <$>
        last_by (fun kv => kv.1.2) (List.filter (fun kv => String.eqb kv.1.1 k) (hour_rows (ht_wifi t) p)).
Proof.
  intros Hn. set (rows := hour_rows (ht_wifi t) p) in *.
  assert (exists kv, kv ∈ hour_group rows (k, ty)) as [kv Hkv].
  { destruct (hour_group rows (k, ty)) as [|kv l]; [cbn in Hn; unfold MINIMUM_HEARTBEAT_COUNT in Hn; lia|].
    exists kv. left. }
  unfold hour_group in Hkv. apply list_elem_of_In, filter_In in Hkv as [Hkv%list_elem_of_In Hg].
  apply andb_prop in Hg as [Hk Hty]. apply String.eqb_eq in Hk as Ek. apply bool_decide_eq_true in Hty. cbn [fst snd] in *.
  set (of_id := List.filter (fun kv => String.eqb kv.1.1 k) rows).
  assert (of_id <> []) as Hne.
  { intros E. assert (kv ∈ of_id) as Hin by (by apply list_elem_of_In, filter_In; split; [apply list_elem_of_In|]).
    rewrite E in Hin. by apply not_elem_of_nil in Hin. }
  destruct (last_by_some (fun kv => hr_latest_timestamp kv.2) of_id Hne) as [latest El].
  destruct (last_by_some (fun kv => kv.1.2) of_id Hne) as [last Ea].
  exists (mkHeartbeatReward k None ty
    (numeric_avg ((fun kv => hr_location_trust_score_multiplier kv.2) <$> hour_group rows (k, ty))) (hr_coverage_object last.2)).
  split; [|split; [done|split; [done|by rewrite Ea]]].
  unfold validated_radios. apply elem_of_app. right. fold rows. apply list_elem_of_omap. exists (k, ty). split.
  - apply elem_of_remove_dups, list_elem_of_fmap. exists kv. by rewrite Ek, Hty.
  - unfold radio_of_group. rewrite (proj2 (Z.leb_le _ _) Hn). cbn [fst snd]. fold of_id. rewrite El. cbn [mbind option_bind].
    by rewrite Ea.
Qed.

(** A Wi-Fi radio that had twelve heartbeat hours as an indoor and twelve as an
    outdoor radio in a period is listed twice for its rewards, each time with the
    coverage object of its last hour, so that its hexes are counted twice: the
    heartbeats are grouped by hotspot and cell type, while a radio is identified
    by its hotspot alone. *)
Theorem wifi_radio_listed_twice (t : hb_tables dec) p k ty ty' :
  ty <> ty' ->
  MINIMUM_HEARTBEAT_COUNT <= Z.of_nat (length (hour_group (hour_rows (ht_wifi t) p) (k, ty))) ->
  MINIMUM_HEARTBEAT_COUNT <= Z.of_nat (length (hour_group (hour_rows (ht_wifi t) p) (k, ty'))) ->
  exists h h', h ∈ validated_radios t p /\ h' ∈ validated_radios t p /\ h <> h' /\
    hw_key h = KWifi k /\ hw_key h' = KWifi k /\ hw_coverage_object h = hw_coverage_object h'.
Proof.
  intros Hne H H'. destruct (wifi_group_listed t p k ty H) as (h & Hh & Hk & Ht & Hc).
  destruct (wifi_group_listed t p k ty' H') as (h' & Hh' & Hk' & Ht' & Hc').
  exists h, h'. split; [done|]. split; [done|]. split; [congruence|]. split; [done|]. split; [done|]. congruence.
Qed.
End TwoTypes.

(** ** The period *)

Section Period.
Context {dec : Type} {D : Decimal dec} {DL : DecimalLaws dec} {PG : PgNumeric dec}.
Context {KT : KeyText} {CI : CellIndex} {BH : BinaryHeap}.
Implicit Types (db : mobile_db dec) (sinks : reward_sinks dec).

Definition written (sink : list MobileRewardShare) : Z := sumZ mobile_amount sink.

(** The pot for coverage: what data transfer leaves of 60 per cent. *)
Definition poc_pot db p mobile_price : dec :=
  total_poc_rewards p (tr_reward_sum (period_transfers db p (bone_price_of mobile_price))).

(** Nobody has shares of the pot. *)
Definition no_shares db p mobile_price : Prop :=
  exists cp, (period_points db p).2 = Ok cp /\ coverage_into_rewards cp (poc_pot db p mobile_price) p = None.

(** The sinks after a run that succeeds. *)
Lemma reward_sinks_of db m sinks client mobile_price (s : Scheduler) now db' m' sinks' :
  reward db m sinks client mobile_price s now = (db', m', sinks', Ok tt) ->
  let p := reward_period s in
  let price := bone_price_of mobile_price in
  exists cp payers shares,
    (period_points db p).2 = Ok cp /\
    sum_data_sessions_to_dc_by_payer (md_data_sessions db) p = Some payers /\
    from_payers_dc client (map_to_list payers) = Some shares /\
    let total := get_scheduled_tokens_for_service_providers (r_end p - r_start p) in
    let k0 := match coverage_into_rewards cp (poc_pot db p mobile_price) p with
              | Some rewards => write_rewards (rk_mobile_rewards sinks) rewards (poc_pot db p mobile_price) UPoc p
              | None => rk_mobile_rewards sinks
              end in
    let k1 := reward_dc k0 p (period_transfers db p price) in
    let k2 := reward_mappers db k1 p in
    let k3 := write_rewards k2 (into_service_provider_rewards shares p (sp_rewards_per_share shares total price)) total
                UServiceProvider p in
    rk_mobile_rewards sinks' = reward_oracles (dec := dec) k3 p.
Proof.
  unfold reward, reward_poc_and_dc, reward_poc. fold (bone_price_of (dec := dec) mobile_price).
  set (p := reward_period s). set (price := bone_price_of (dec := dec) mobile_price). cbv zeta.
  destruct (period_points db p) as [t [cp|e]]; [|done]. cbn [rk_mobile_rewards with_rewards].
  unfold reward_service_providers.
  change (md_data_sessions (with_coverage db t)) with (md_data_sessions db).
  destruct (sum_data_sessions_to_dc_by_payer (md_data_sessions db) p) as [payers|]; [|done]. cbn [ok_or result_bind].
  destruct (from_payers_dc client (map_to_list payers)) as [shares|] eqn:Esh; [|done]. cbn [ok_or result_bind].
  intros [= <- <- <-]. exists cp, payers, shares. split; [done|]. split; [done|]. split; [done|]. reflexivity.
Qed.

Lemma poc_pot_bounds db p mobile_price :
  mobile_secs_ok (r_end p - r_start p) -> mobile_db_ok db p -> 1 <= mobile_price < 2 ^ 63 ->
  let secs := num_secs (r_end p - r_start p) in
  let s := dval (tr_reward_sum (period_transfers db p (bone_price_of mobile_price))) in
  (emission_share 60 secs - s - (1 # 1000000) <= dval (poc_pot db p mobile_price) <= emission_share 60 secs - s + (1 # 1000000) /\
   emission_share 20 secs - (1 # 500) <= dval (poc_pot db p mobile_price) <= (1000000000000000 # 1))%Q.
Proof.
  intros Hd Hok Hz. destruct Hok as (_ & _ & _ & _ & Hs & _). cbv zeta.
  destruct (transfers_ok _ (bone_price_of mobile_price) p Hd (hotspot_sessions_ok _ _ Hs) (bone_price_of_ok mobile_price Hz))
    as (H1 & _).
  fold (period_transfers db p (bone_price_of mobile_price)) in H1. unfold poc_pot, total_poc_rewards.
  pose proof (mobile_emission_bounds _ Hd) as HE.
  destruct (scheduled_near (dec := dec) _ Hd) as (Ht & _). unfold emission_share in *.
  change (inject_Z 60) with (60 # 1) in *. change (inject_Z 40) with (40 # 1) in *. change (inject_Z 20) with (20 # 1) in *.
  set (e := mobile_emission _) in *. set (x := get_scheduled_tokens_for_poc _) in *. set (s := tr_reward_sum _) in *.
  destruct (dsub_near x s) as [H2 H3]; [lra|change (inject_Z (10 ^ 28)) with (10000000000000000000000000000 # 1); lra|].
  unfold near in H3. split; [lra|]. lra.
Qed.

Lemma inject_sum4 a b c d : (inject_Z (a + b + c + d) == inject_Z a + inject_Z b + inject_Z c + inject_Z d)%Q.
Proof. by rewrite !inject_Z_plus. Qed.

(** What is written besides the coverage rewards. *)
Lemma other_pots db p client mobile_price sink payers shares :
  mobile_secs_ok (r_end p - r_start p) -> mobile_db_ok db p -> 1 <= mobile_price < 2 ^ 63 ->
  sum_data_sessions_to_dc_by_payer (md_data_sessions db) p = Some payers ->
  from_payers_dc client (map_to_list payers) = Some shares ->
  let secs := num_secs (r_end p - r_start p) in
  let price := bone_price_of (dec := dec) mobile_price in
  let s := dval (tr_reward_sum (period_transfers db p price)) in
  let total := get_scheduled_tokens_for_service_providers (r_end p - r_start p) in
  let k2 := reward_mappers db (reward_dc sink p (period_transfers db p price)) p in
  let k3 := write_rewards k2 (into_service_provider_rewards shares p (sp_rewards_per_share shares total price)) total
              UServiceProvider p in
  (s + emission_share 34 secs - 4 - (2 # 100) < inject_Z (written (reward_oracles (dec := dec) k3 p) - written sink)
   <= s + emission_share 34 secs + (3 # 100))%Q.
Proof.
  intros Hd Hok Hz Hp Hsh. cbv zeta. pose proof Hok as (_ & _ & _ & _ & Hs & Hl).
  set (price := bone_price_of mobile_price). pose proof (bone_price_of_ok (dec := dec) mobile_price Hz) as Hpr. fold price in Hpr.
  destruct (transfers_ok _ price p Hd (hotspot_sessions_ok _ _ Hs) Hpr) as (H1 & H2 & H3 & H4 & H5).
  change (from_transfer_sessions price (aggregate_hotspot_data_sessions_to_dc (md_data_sessions db) p) p)
    with (period_transfers db p price) in *. set (tr := period_transfers db p price) in *.
  pose proof (mobile_emission_bounds _ Hd) as HE.
  destruct (scheduled_near (dec := dec) _ Hd) as (_ & Tm & Ts & To). unfold emission_share in *.
  change (inject_Z 34) with (34 # 1). change (inject_Z 40) with (40 # 1) in *. change (inject_Z 20) with (20 # 1) in *.
  change (inject_Z 10) with (10 # 1) in *. change (inject_Z 4) with (4 # 1) in *.
  set (pm := get_scheduled_tokens_for_mappers _) in *. set (ps := get_scheduled_tokens_for_service_providers _) in *.
  set (po := get_scheduled_tokens_for_oracles _) in *. set (e := mobile_emission _) in *.
  set (k1 := reward_dc sink p tr). set (k2 := reward_mappers db k1 p).
  set (k3 := write_rewards k2 _ ps UServiceProvider p).
  assert (0 <= dval (transfer_total tr) <= 1000000000000000 # 1)%Q as B1 by lra.
  assert (0 <= dval pm <= 1000000000000000 # 1)%Q as B2 by lra.
  assert (0 <= dval ps <= 1000000000000000 # 1)%Q as B3 by lra.
  assert (0 <= dval po <= 1000000000000000 # 1)%Q as B4 by lra.
  pose proof (write_rewards_sum sink _ (transfer_total tr) UData p (1 # 1000) H4 B1 ltac:(lra) H5) as W1.
  pose proof (location_shares_length (md_locations db) p) as Hll.
  destruct (mappers_ok (aggregate_location_shares (md_locations db) p) p pm B2 ltac:(lia)) as [Am Sm].
  pose proof (write_rewards_sum k1 _ pm UMapper p (1 # 1000) Am B2 ltac:(lra) Sm) as W2.
  destruct (payer_sessions _ _ Hs) as (m & Em & Hm0 & Hm1 & Hm2). rewrite Hp in Em. injection Em as <-.
  destruct (payers_shares client _ shares Hsh) as (Q1 & Q2 & Q3).
  { intros [k n] Hk%elem_of_map_to_list. by apply (Hm0 k). }
  assert (sp_shares_ok shares dcs_of_share) as Hsp.
  { split; [done|]. split; [by rewrite Q2|]. by rewrite Q3, length_map_to_list. }
  destruct (service_providers_ok shares dcs_of_share p ps price Hsp B3 Hpr) as [As Ss].
  pose proof (write_rewards_sum k2 _ ps UServiceProvider p (1 # 100) As B3 ltac:(lra) Ss) as W3.
  assert (amounts_ok [] /\ (inject_Z (sumZ fst ([] : list (Z * MobileRewardShare))) <= dval po + 0)%Q) as [Ao So].
  { split; [intros r Hr; by apply not_elem_of_nil in Hr|]. change (0 <= dval po + 0)%Q. lra. }
  pose proof (write_rewards_sum k3 [] po UOracle p 0 Ao B4 ltac:(lra) So) as W4.
  cbv zeta in W1, W2, W3, W4. fold (reward_dc sink p tr) in W1. fold k1 in W1.
  change (write_rewards k1 _ pm UMapper p) with k2 in W2. fold k3 in W3.
  change (write_rewards k3 [] po UOracle p) with (reward_oracles (dec := dec) k3 p) in W4.
  fold (written sink) (written k1) (written k2) (written k3) in *. fold (written (reward_oracles (dec := dec) k3 p)) in *.
  assert (written (reward_oracles (dec := dec) k3 p) - written sink =
    (written k1 - written sink) + (written k2 - written k1) + (written k3 - written k2) +
    (written (reward_oracles (dec := dec) k3 p) - written k3)) as -> by lia.
  rewrite inject_sum4. lra.
Qed.

(** C6: The shares the mobile rewarder writes for a period (to radios, hotspots,
    mappers and service providers, and as unallocated) add up to 94 per cent of
    the period's emission when some radio has shares of the coverage pot: less
    than six bones below it and less than a tenth of a bone above.  The pots are
    not independent: what data transfer takes, up to 40 per cent, is taken from
    the 60 per cent for coverage. *)
Theorem mobile_period_conserved db m sinks client mobile_price (s : Scheduler) now db' m' sinks' :
  let p := reward_period s in
  mobile_secs_ok (r_end p - r_start p) -> mobile_db_ok db p -> 1 <= mobile_price < 2 ^ 63 ->
  ~ no_shares db p mobile_price -> reward db m sinks client mobile_price s now = (db', m', sinks', Ok tt) ->
  let e := emission_share 94 (num_secs (r_end p - r_start p)) in
  let w := written (rk_mobile_rewards sinks') - written (rk_mobile_rewards sinks) in
  (e - 6 < inject_Z w <= e + (1 # 10))%Q.
Proof.
  intros p Hd Hok Hz Hns Hr. cbv zeta.
  destruct (reward_sinks_of _ _ _ _ _ _ _ _ _ _ Hr) as (cp & payers & shares & Hcp & Hp & Hsh & ->). fold p in Hcp, Hp |- *.
  pose proof (poc_pot_bounds db p mobile_price Hd Hok Hz) as [HT1 HT2]. set (T := poc_pot db p mobile_price) in *.
  pose proof (mobile_emission_bounds _ Hd) as HE.
  assert (0 <= dval T <= 1000000000000000 # 1)%Q as HT
    by (unfold emission_share in HT2; change (inject_Z 20) with (20 # 1) in HT2; lra).
  pose proof (coverage_rewards_ok cp T p (period_points_ok db p cp Hok Hcp) HT) as Hc.
  destruct (coverage_into_rewards cp T p) as [rewards|] eqn:Ec; [|exfalso; apply Hns; by exists cp].
  destruct Hc as [Ha Hs]. set (k0 := write_rewards _ rewards T UPoc p).
  pose proof (write_rewards_sum (rk_mobile_rewards sinks) rewards T UPoc p (1 # 100) Ha HT ltac:(lra) Hs) as W.
  cbv zeta in W. fold k0 (written k0) (written (rk_mobile_rewards sinks)) in W.
  pose proof (other_pots db p client mobile_price k0 payers shares Hd Hok Hz Hp Hsh) as W'. cbv zeta in W'.
  set (k := reward_oracles _ p) in *.
  assert (written k - written (rk_mobile_rewards sinks) =
    (written k0 - written (rk_mobile_rewards sinks)) + (written k - written k0)) as -> by lia.
  rewrite inject_Z_plus. unfold emission_share in *. change (inject_Z 60) with (60 # 1) in *. change (inject_Z 94) with (94 # 1).
  change (inject_Z 34) with (34 # 1) in *. lra.
Qed.

(** When no radio has shares, the coverage pot, at least 20 per cent of the
    emission, is neither paid nor written as unallocated: at most 74 per cent of
    the period's emission is accounted for. *)
Theorem poc_pot_unwritten db m sinks client mobile_price (s : Scheduler) now db' m' sinks' :
  let p := reward_period s in
  mobile_secs_ok (r_end p - r_start p) -> mobile_db_ok db p -> 1 <= mobile_price < 2 ^ 63 ->
  no_shares db p mobile_price -> reward db m sinks client mobile_price s now = (db', m', sinks', Ok tt) ->
  let w := written (rk_mobile_rewards sinks') - written (rk_mobile_rewards sinks) in
  (inject_Z w <= emission_share 74 (num_secs (r_end p - r_start p)) + (1 # 10))%Q.
Proof.
  intros p Hd Hok Hz (cp & Hcp & Ec) Hr. cbv zeta.
  destruct (reward_sinks_of _ _ _ _ _ _ _ _ _ _ Hr) as (cp' & payers & shares & Hcp' & Hp & Hsh & ->).
  fold p in Hcp', Hp |- *. rewrite Hcp in Hcp'. injection Hcp' as <-. rewrite Ec.
  pose proof (poc_pot_bounds db p mobile_price Hd Hok Hz) as [HT1 HT2].
  pose proof (other_pots db p client mobile_price (rk_mobile_rewards sinks) payers shares Hd Hok Hz Hp Hsh) as W'.
  cbv zeta in W'. unfold emission_share in *. change (inject_Z 60) with (60 # 1) in *. change (inject_Z 20) with (20 # 1) in *.
  change (inject_Z 34) with (34 # 1) in *. change (inject_Z 74) with (74 # 1). lra.
Qed.
End Period.

(** ** An example *)

Module ExamplePeriod.
Open Scope Q_scope.

Lemma mean_bounds (l : list Q) lo hi :
  l <> [] -> (forall a, a ∈ l -> lo <= dval a <= hi) ->
  lo <= sumQ (fun a => a) l / inject_Z (Z.of_nat (length l)) <= hi.
Proof.
  intros Hne H. assert (0 < inject_Z (Z.of_nat (length l))) as Hn.
  { change 0 with (inject_Z 0). rewrite <- Zlt_Qlt. destruct l; [done|cbn; lia]. }
  pose proof (sumQ_bound (fun a => a) l hi ltac:(intros a Ha; by apply H)) as H1.
  pose proof (sumQ_bound (fun a => - a) l (- lo) ltac:(intros a Ha; destruct (H a Ha) as [Hlo _]; change (lo <= a) in Hlo; lra)) as H2.
  assert (sumQ (fun a => - a) l == - sumQ (fun a => a) l) as E.
  { clear. induction l as [|a l IH]; [done|]. rewrite !sumQ_cons, IH. ring. }
  rewrite E in H2. split; [apply Qle_shift_div_l|apply Qle_shift_div_r]; lra.
Qed.

#[global] Instance mean : PgNumeric Q := {
  numeric_avg l := sumQ (fun a => a) l / inject_Z (Z.of_nat (length l));
  numeric_avg_bounds := mean_bounds
}.
Open Scope Z_scope.

Definition id : string := "P27-SCE4255W1".
Definition sched : Scheduler := scheduler_new (hours 24) 0 (hours 24) (minutes 30).

(** One radio with a heartbeat in each of twelve hours. *)
Definition beats : gmap (string * Z) (HbRow Q) :=
  list_to_map ((fun i => ((id, hours i), mkHbRow "hs" SercommIndoor (hours i + 1) "uuid" trust_full)) <$>
    [0; 1; 2; 3; 4; 5; 6; 7; 8; 9; 10; 11]).

Definition coverage : coverage_tables :=
  mkCoverageTables {["uuid" := mkCoverageRow HbCbrs id true 0 0 0 None]} {[("uuid", 7) := mkHexRow SHigh 0]}
    {[(id, HbCbrs, 0) := mkSeniorityRow "uuid" 0 0 0]}.

Definition speedtests : gmap (PublicKeyBinary * Z) SpeedtestRow :=
  list_to_map ((fun t => (("hs", t), mkSpeedtestRow "hs" (mbps 20) (mbps 200) 20 "serial" t)) <$> [hours 20; hours 21]).

(** A day with the radio, and one without heartbeats. *)
Definition db (rows : gmap (string * Z) (HbRow Q)) : mobile_db Q :=
  mkMobileDb (mkHbTables rows ∅ coverage) speedtests [mkDataSession "hs" "payer" 1000 1000 100000 (hours 3)]
    [mkSubscriberLocation "subscriber" (hours 4)].

Definition sinks : reward_sinks Q := mkRewardSinks [] [] [].

Definition run (rows : gmap (string * Z) (HbRow Q)) : mobile_db Q * reward_meta * reward_sinks Q * result unit RewardError :=
  reward (db rows) (mkMeta 0 86400) sinks (fun _ => Some 0) 1000000 sched (hours 25).

Lemma run_split rows : (run rows).2 = Ok tt ->
  reward (db rows) (mkMeta 0 86400) sinks (fun _ => Some 0) 1000000 sched (hours 25) =
  ((run rows).1.1.1, (run rows).1.1.2, (run rows).1.2, Ok tt).
Proof. intros <-. fold (run rows). by destruct (run rows) as [[[? ?] ?] ?]. Qed.

Definition trusted (l : list ((string * Z) * HbRow Q)) : bool :=
  forallb (fun kv => Qle_bool (1 # 4) (hr_location_trust_score_multiplier kv.2) &&
                     Qle_bool (hr_location_trust_score_multiplier kv.2) 1) l.

Lemma trusted_ok rows p : trusted (hour_rows rows p) = true -> hour_rows_ok rows p.
Proof.
  unfold trusted. rewrite forallb_forall. intros H kv Hin%list_elem_of_In. specialize (H kv Hin).
  apply andb_prop in H as [H1 H2]. by apply Qle_bool_iff in H1; apply Qle_bool_iff in H2.
Qed.

Lemma db_ok rows :
  trusted (hour_rows rows (reward_period sched)) = true ->
  Z.of_nat (length (hour_rows rows (reward_period sched))) <= 10 ^ 7 -> mobile_db_ok (db rows) (reward_period sched).
Proof.
  intros Ht Hl. split; [by apply trusted_ok|]. split; [by apply trusted_ok|]. split; [|split; [by vm_compute|]].
  { unfold db. cbn [md_heartbeats ht_cbrs ht_wifi].
    match goal with |- _ + ?n <= _ => change n with 0 end. lia. }
  split; [|by vm_compute]. split; [|split; by vm_compute].
  intros s Hs. vm_compute in Hs. apply elem_of_cons in Hs as [->|Hs]; [by vm_compute|by apply not_elem_of_nil in Hs].
Qed.

(** Whether somebody has shares, as a test. *)
Definition has_shares (rows : gmap (string * Z) (HbRow Q)) : bool :=
  match (period_points (db rows) (reward_period sched)).2 with
  | Ok cp => match coverage_into_rewards cp (poc_pot (db rows) (reward_period sched) 1000000) (reward_period sched) with
             | Some _ => true | None => false end
  | Err _ => false
  end.
End ExamplePeriod.

Lemma mobile_period_conserved_witness :
  (emission_share 94 86400 - 6 <
   inject_Z (written (rk_mobile_rewards (ExamplePeriod.run ExamplePeriod.beats).1.2) - 0) <=
   emission_share 94 86400 + (1 # 10))%Q.
Proof.
  apply (mobile_period_conserved (ExamplePeriod.db ExamplePeriod.beats) (mkMeta 0 86400) ExamplePeriod.sinks
    (fun _ => Some 0) 1000000 ExamplePeriod.sched (hours 25) (ExamplePeriod.run ExamplePeriod.beats).1.1.1
    (ExamplePeriod.run ExamplePeriod.beats).1.1.2 (ExamplePeriod.run ExamplePeriod.beats).1.2).
  - by vm_compute.
  - apply ExamplePeriod.db_ok; by vm_compute.
  - done.
  - intros (cp & Hcp & E). assert (ExamplePeriod.has_shares ExamplePeriod.beats = true) as H by (by vm_compute).
    unfold ExamplePeriod.has_shares in H. by rewrite Hcp, E in H.
  - apply ExamplePeriod.run_split. by vm_compute.
Defined.

Lemma poc_pot_unwritten_witness :
  (inject_Z (written (rk_mobile_rewards (ExamplePeriod.run ∅).1.2) - 0) <= emission_share 74 86400 + (1 # 10))%Q.
Proof.
  apply (poc_pot_unwritten (ExamplePeriod.db ∅) (mkMeta 0 86400) ExamplePeriod.sinks
    (fun _ => Some 0) 1000000 ExamplePeriod.sched (hours 25) (ExamplePeriod.run ∅).1.1.1
    (ExamplePeriod.run ∅).1.1.2 (ExamplePeriod.run ∅).1.2).
  - by vm_compute.
  - apply ExamplePeriod.db_ok; by vm_compute.
  - done.
  - exists ∅. by vm_compute.
  - apply ExamplePeriod.run_split. by vm_compute.
Defined.

Lemma hex_rewards_known_witness :
  (aggregate_points ExamplePeriod.coverage
     [mkHeartbeatReward "hs" (Some ExamplePeriod.id) SercommIndoor (trust_full (dec := Q)) "uuid"] ∅ (hours 24)).2
  <> Err UnknownRadio.
Proof.
  apply (hex_rewards_known ExamplePeriod.coverage
    [mkHeartbeatReward "hs" (Some ExamplePeriod.id) SercommIndoor (trust_full (dec := Q)) "uuid"] ∅ (hours 24)).
  intros h i [->|Hh]%elem_of_cons; [|by apply not_elem_of_nil in Hh]. intros [= <-]. by exists SercommIndoor.
Defined.

(** A serial number that is the text of a key would not be found again. *)
Example key_text_serial :
  let id := key_to_string "k" in
  (aggregate_points
     (mkCoverageTables {["uuid" := mkCoverageRow HbCbrs id true 0 0 0 None]} {[("uuid", 7) := mkHexRow SHigh 0]}
        {[(id, HbCbrs, 0) := mkSeniorityRow "uuid" 0 0 0]})
     [mkHeartbeatReward "hs" (Some id) SercommIndoor (trust_full (dec := Q)) "uuid"] ∅ (hours 24)).2 = Err UnknownRadio.
Proof. by vm_compute. Qed.

(** A day of twelve indoor and twelve outdoor hours. *)
Module ExampleTwice.
Definition hours_of (f : Z -> CellType) : gmap (string * Z) (HbRow Q) :=
  list_to_map ((fun n => (("hs", hours n), mkHbRow "hs" (f n) (hours n + 1) "uuid" trust_full)) <$> seqZ 0 24).
Definition switched : hb_tables Q :=
  mkHbTables ∅ (hours_of (fun n => if n <? 12 then NovaGenericWifiIndoor else NovaGenericWifiOutdoor))
    ExamplePeriod.coverage.
End ExampleTwice.

Lemma wifi_radio_listed_twice_witness :
  exists h h', h ∈ validated_radios ExampleTwice.switched (reward_period ExamplePeriod.sched) /\
    h' ∈ validated_radios ExampleTwice.switched (reward_period ExamplePeriod.sched) /\ h <> h' /\
    hw_key h = KWifi "hs" /\ hw_key h' = KWifi "hs" /\ hw_coverage_object h = hw_coverage_object h'.
Proof.
  apply (wifi_radio_listed_twice ExampleTwice.switched (reward_period ExamplePeriod.sched) "hs"
    NovaGenericWifiIndoor NovaGenericWifiOutdoor); [done|by vm_compute|by vm_compute].
Defined.
