(* ===== verification/ConfigTables.v ===== *)
(** * The tables of the configuration service

    The Postgres tables of [iot_config] as its migrations define them, the keys
    of [admin.rs], and what the services of the crate share: status codes, signed
    responses and the update channel of [lib.rs]. *)

From S2P Require Import Prelude Solana FileStoreTypes LoraField HeliumNetids.

(** ** Keys, signatures and statuses *)

(** [PublicKey::try_from(&[u8])] and, for a keypair, [public_key] and [sign];
    [PublicKey] is represented by its bytes. *)
Class Crypto : Type := {
  key_valid : string -> bool;
  own_key : string;
  sign : string -> option string
}.

(** [MsgVerify::verify]: the message carries a signature by the key. *)
Class MsgVerify (R : Type) : Type := { verify_msg : R -> string -> bool }.

(** [Message::encode_to_vec]. *)
Class Encode (M : Type) : Type := { encode_to_vec : M -> string }.

(** [Uuid::try_parse]; a [Uuid] is represented by the text [to_string] gives it,
    which parses to itself. *)
Class Uuids : Type := {
  uuid_parse : string -> option string;
  uuid_parse_text s u : uuid_parse s = Some u -> uuid_parse u = Some u
}.

Abbreviation Uuid := string.

(** [tonic::Status]: the codes the services answer with. *)
Inductive Status : Type :=
| InvalidArgument | Internal | PermissionDenied | NotFound | FailedPrecondition | DeadlineExceeded.

(** [verify_public_key] *)
Definition verify_public_key `{!Crypto} (bytes : string) : result string Status :=
  if key_valid bytes then Ok bytes else Err InvalidArgument.

(** A response with its timestamp, signer and signature. *)
Record signed (A : Type) : Type := mkSigned {
  sg_body : A;
  sg_timestamp : Z;
  sg_signer : string;
  sg_signature : string
}.
Arguments mkSigned {A}. Arguments sg_body {A}. Arguments sg_timestamp {A}.
Arguments sg_signer {A}. Arguments sg_signature {A}.

(** [sign_response]: the message without its signature is encoded and signed. *)
Definition sign_response `{!Crypto} {A} `{!Encode (signed A)} (body : A) (now : Z) : result (signed A) Status :=
  let resp := mkSigned body (encode_timestamp now) own_key "" in
  let? signature := ok_or (sign (encode_to_vec resp)) Internal in
  Ok (mkSigned body (encode_timestamp now) own_key signature).

(** ** Columns *)

Lemma as_signed_wrap w z : as_signed w (wrap w z) = as_signed w z.
Proof. unfold as_signed. assert (wrap w (wrap w z) = wrap w z) as -> by (unfold wrap; apply Zmod_mod). done. Qed.

Lemma wrap_as_signed_any w z : 0 < w -> wrap w (as_signed w z) = wrap w z.
Proof.
  intros Hw. unfold as_signed. destruct (_ <? _).
  - unfold wrap. apply Zmod_mod.
  - unfold wrap. rewrite Zminus_mod, Z_mod_same_full, Z.sub_0_r, !Zmod_mod. done.
Qed.

Lemma as_signed_idem w z : 0 < w -> as_signed w (as_signed w z) = as_signed w z.
Proof. intros Hw. rewrite <- (as_signed_wrap w (as_signed w z)), wrap_as_signed_any by done. apply as_signed_wrap. Qed.

Lemma as_i32_of_u32 a : as_i32 (as_u32 a) = as_i32 a.
Proof. apply (as_signed_wrap 32). Qed.

Lemma as_i32_u32_u32 a : as_i32 (as_u32 (as_u32 a)) = as_i32 a.
Proof. by rewrite !as_i32_of_u32. Qed.

(** ** The update channel *)

Definition BROADCAST_CHANNEL_QUEUE : Z := 1024.

Definition enqueue_update (queue_size : Z) : bool :=
  queue_size * 100 / BROADCAST_CHANNEL_QUEUE <=? 80.

(** ** Tables *)

(** The errors of the statements: constraint violations, [on conflict do update]
    reaching a row twice, and [values] without rows. *)
Inductive SqlError : Type :=
| RowNotFound | UniqueViolated | ForeignKeyViolated | AffectedTwice | NoValues.

Inductive KeyType : Type := Administrator | PacketRouter | Oracle.

#[export] Instance KeyType_eq_dec : EqDecision KeyType.
Proof. solve_decision. Defined.

Record OrgRow : Type := mkOrgRow {
  og_owner : PublicKeyBinary;
  og_payer : PublicKeyBinary;
  og_locked : bool
}.

Record ConstraintRow : Type := mkConstraintRow {
  co_oui : Z;
  co_net_id : Z;
  co_start : Z;
  co_end : Z
}.

(** A row of [routes]; [json] is the type of [jsonb] values. *)
Record RouteRow (json : Type) : Type := mkRouteRow {
  rr_oui : Z;
  rr_net_id : Z;
  rr_max_copies : Z;
  rr_host : string;
  rr_port : Z;
  rr_opts : json;
  rr_active : bool;
  rr_ignore_empty_skf : bool;
  rr_deleted : bool;
  rr_updated_at : Z
}.
Arguments mkRouteRow {json}. Arguments rr_oui {json}. Arguments rr_net_id {json}.
Arguments rr_max_copies {json}. Arguments rr_host {json}. Arguments rr_port {json}.
Arguments rr_opts {json}. Arguments rr_active {json}. Arguments rr_ignore_empty_skf {json}.
Arguments rr_deleted {json}. Arguments rr_updated_at {json}.

#[export] Instance RouteRow_eq_dec {json} `{!EqDecision json} : EqDecision (RouteRow json).
Proof. solve_decision. Defined.

(** A row of a table that belongs to routes: the columns outside the primary key. *)
Record tracked (V : Type) : Type := mkTracked { tk_value : V; tk_deleted : bool; tk_updated_at : Z }.
Arguments mkTracked {V}. Arguments tk_value {V}. Arguments tk_deleted {V}. Arguments tk_updated_at {V}.

#[export] Instance tracked_eq_dec {V} `{!EqDecision V} : EqDecision (tracked V).
Proof. solve_decision. Defined.

(** The database.  Primary keys: [oui], [delegate_pubkey], [devaddr], [id], and
    the route with both EUIs, both ends of a range, or device address and
    session key. *)
Record config_db (json : Type) : Type := mkConfigDb {
  organizations : gmap Z OrgRow;
  delegate_rows : gmap PublicKeyBinary Z;
  constraint_rows : list ConstraintRow;
  used_devaddrs : gmap Z Z;
  routes : gmap Uuid (RouteRow json);
  route_eui_pairs : gmap (Uuid * (Z * Z)) (tracked unit);
  route_devaddr_ranges : gmap (Uuid * (Z * Z)) (tracked unit);
  route_session_key_filters : gmap (Uuid * (Z * string)) (tracked Z);
  admin_keys : gmap PublicKeyBinary KeyType
}.
Arguments mkConfigDb {json}. Arguments organizations {json}. Arguments delegate_rows {json}.
Arguments constraint_rows {json}. Arguments used_devaddrs {json}. Arguments routes {json}.
Arguments route_eui_pairs {json}. Arguments route_devaddr_ranges {json}.
Arguments route_session_key_filters {json}. Arguments admin_keys {json}.

Section Setters.
Context {json : Type}.
Implicit Types db : config_db json.

Definition set_organizations db x : config_db json :=
  mkConfigDb x (delegate_rows db) (constraint_rows db) (used_devaddrs db) (routes db) (route_eui_pairs db)
    (route_devaddr_ranges db) (route_session_key_filters db) (admin_keys db).
Definition set_delegate_rows db x : config_db json :=
  mkConfigDb (organizations db) x (constraint_rows db) (used_devaddrs db) (routes db) (route_eui_pairs db)
    (route_devaddr_ranges db) (route_session_key_filters db) (admin_keys db).
Definition set_constraint_rows db x : config_db json :=
  mkConfigDb (organizations db) (delegate_rows db) x (used_devaddrs db) (routes db) (route_eui_pairs db)
    (route_devaddr_ranges db) (route_session_key_filters db) (admin_keys db).
Definition set_used_devaddrs db x : config_db json :=
  mkConfigDb (organizations db) (delegate_rows db) (constraint_rows db) x (routes db) (route_eui_pairs db)
    (route_devaddr_ranges db) (route_session_key_filters db) (admin_keys db).
Definition set_routes db x : config_db json :=
  mkConfigDb (organizations db) (delegate_rows db) (constraint_rows db) (used_devaddrs db) x (route_eui_pairs db)
    (route_devaddr_ranges db) (route_session_key_filters db) (admin_keys db).
Definition set_euis db x : config_db json :=
  mkConfigDb (organizations db) (delegate_rows db) (constraint_rows db) (used_devaddrs db) (routes db) x
    (route_devaddr_ranges db) (route_session_key_filters db) (admin_keys db).
Definition set_ranges db x : config_db json :=
  mkConfigDb (organizations db) (delegate_rows db) (constraint_rows db) (used_devaddrs db) (routes db)
    (route_eui_pairs db) x (route_session_key_filters db) (admin_keys db).
Definition set_skfs db x : config_db json :=
  mkConfigDb (organizations db) (delegate_rows db) (constraint_rows db) (used_devaddrs db) (routes db)
    (route_eui_pairs db) (route_devaddr_ranges db) x (admin_keys db).
Definition set_admin_keys db x : config_db json :=
  mkConfigDb (organizations db) (delegate_rows db) (constraint_rows db) (used_devaddrs db) (routes db)
    (route_eui_pairs db) (route_devaddr_ranges db) (route_session_key_filters db) x.
End Setters.

(** ** [admin.rs] *)

Abbreviation CacheKeys := (gmap string KeyType).

(** [AuthCache::new]: the stored keys and the key of the settings. *)
Definition auth_cache_new {json} (config_admin_key : string) (db : config_db json) : CacheKeys :=
  <[config_admin_key := Administrator]> (admin_keys db).

Definition verify_signature {R} `{!MsgVerify R} (cache : CacheKeys) (signer : string) (request : R) : bool :=
  bool_decide (is_Some (cache !! signer)) && verify_msg request signer.

Definition verify_signature_with_type {R} `{!MsgVerify R} (cache : CacheKeys) (key_type : KeyType)
    (signer : string) (request : R) : bool :=
  bool_decide (cache !! signer = Some key_type) && verify_msg request signer.

Definition get_keys_by_type (cache : CacheKeys) (key_type : KeyType) : list string :=
  omap (fun kt => if decide (kt.2 = key_type) then Some kt.1 else None) (map_to_list cache).

Definition insert_key {json} (pubkey : PublicKeyBinary) (key_type : KeyType) (db : config_db json)
  : result (config_db json) SqlError :=
  match admin_keys db !! pubkey with
  | Some _ => Err UniqueViolated
  | None => Ok (set_admin_keys db (<[pubkey := key_type]> (admin_keys db)))
  end.

Lemma elem_of_keys_by_type (cache : CacheKeys) t k : k ∈ get_keys_by_type cache t <-> cache !! k = Some t.
Proof.
  unfold get_keys_by_type. rewrite list_elem_of_omap. split.
  - intros ([k' t'] & Hk & Hf). apply elem_of_map_to_list in Hk. cbn in Hf. case_decide; [|done]. by simplify_eq/=.
  - intros Hk. exists (k, t). split; [by apply elem_of_map_to_list|]. cbn. by rewrite decide_True.
Qed.

(** A message is only sent when the queue has room for it: no receiver that has
    read what was sent before lags. *)
Lemma enqueue_update_room q : 0 <= q -> enqueue_update q = true <-> q <= 829.
Proof. intros Hq. unfold enqueue_update, BROADCAST_CHANNEL_QUEUE. rewrite Z.leb_le. mlia. Qed.
