(* ===== verification/ConfigOrgs.v ===== *)
(** * Organizations

    [iot_config/src/org.rs]: creating and updating organizations, their owner,
    payer and delegate keys, and the device address constraints they lease.  The
    theorems: no address of a Helium NetID is leased twice while the requests
    keep to even blocks; the cache of delegate keys and the table agree except
    for one kind of request; and an organization can lose all its constraints. *)

From S2P Require Import Prelude Solana FileStoreTypes LoraField HeliumNetids ConfigTables.

(** [struct Org] *)
Record Org : Type := mkOrg {
  o_oui : Z;
  o_owner : PublicKeyBinary;
  o_payer : PublicKeyBinary;
  o_locked : bool;
  o_delegate_keys : option (list PublicKeyBinary);
  o_constraints : option (list DevAddrConstraint)
}.

Inductive OrgStoreError : Type :=
| FetchOrg (e : SqlError)
| OrgNotFound
| SaveOrg
| SaveDelegates
| SaveConstraints
| DecodeKey
| RouteIdParse
| InvalidUpdate.

Inductive UpdateAuthorizer : Type := Admin | ByOrg.

#[export] Instance UpdateAuthorizer_eq_dec : EqDecision UpdateAuthorizer.
Proof. solve_decision. Defined.

Inductive ActionV1 : Type := Add | Remove.

#[export] Instance ActionV1_eq_dec : EqDecision ActionV1.
Proof. solve_decision. Defined.

(** [org_update_req_v1::update_v1::Update] *)
Inductive Update : Type :=
| UOwner (key : PublicKeyBinary)
| UPayer (key : PublicKeyBinary)
| UDevaddrs (addr_count : Z)
| UConstraint (action : ActionV1) (constraint : option DevAddrConstraint)
| UDelegateKey (action : ActionV1) (delegate_key : PublicKeyBinary).

Section Orgs.
Context {json : Type}.
Implicit Types db : config_db json.

(** [DevAddrConstraint] of the columns [start_addr] and [end_addr]. *)
Definition constraint_of_row (r : ConstraintRow) : DevAddrConstraint :=
  mkConstraint (field_from_i32 (co_start r)) (field_from_i32 (co_end r)).

Definition org_constraints db (oui : Z) : list ConstraintRow :=
  List.filter (fun r => co_oui r =? oui) (constraint_rows db).

Definition org_delegates db (oui : Z) : list PublicKeyBinary :=
  omap (fun kv => if kv.2 =? oui then Some kv.1 else None) (map_to_list (delegate_rows db)).

(** [GET_ORG_SQL] and [Org::from_row]; [oui] is the column. *)
Definition org_from_row db (oui : Z) (r : OrgRow) : Org :=
  mkOrg (as_u64 oui) (og_owner r) (og_payer r) (og_locked r)
    (Some (org_delegates db oui)) (Some (constraint_of_row <$> org_constraints db oui)).

(** [org::get] *)
Definition get_org (oui : Z) db : option Org := org_from_row db (as_i64 oui) <$> organizations db !! as_i64 oui.

(** [org::list] *)
Definition list_orgs db : list Org :=
  (fun kv => org_from_row db kv.1 kv.2) <$> map_to_list (organizations db).

(** [delegate_keys_cache] *)
Definition delegate_keys_cache db : gset PublicKeyBinary := dom (delegate_rows db).

Definition get_org_netid (oui : Z) db : result NetIdField SqlError :=
  let? r := ok_or (head (org_constraints db (as_i64 oui))) RowNotFound in Ok (field_from_i32 (co_net_id r)).

Definition set_org db (oui : Z) (f : OrgRow -> OrgRow) : config_db json :=
  set_organizations db (alter f (as_i64 oui) (organizations db)).

Definition update_owner (oui : Z) (owner_pubkey : PublicKeyBinary) db : config_db json :=
  set_org db oui (fun r => mkOrgRow owner_pubkey (og_payer r) (og_locked r)).

Definition update_payer (oui : Z) (payer_pubkey : PublicKeyBinary) db : config_db json :=
  set_org db oui (fun r => mkOrgRow (og_owner r) payer_pubkey (og_locked r)).

Definition is_locked (oui : Z) db : result bool SqlError :=
  let? r := ok_or (organizations db !! as_i64 oui) RowNotFound in Ok (og_locked r).

Definition toggle_locked (oui : Z) db : config_db json :=
  set_org db oui (fun r => mkOrgRow (og_owner r) (og_payer r) (negb (og_locked r))).

Definition add_delegate_key (oui : Z) (delegate_pubkey : PublicKeyBinary) db : result (config_db json) SqlError :=
  match delegate_rows db !! delegate_pubkey with
  | Some _ => Err UniqueViolated
  | None => Ok (set_delegate_rows db (<[delegate_pubkey := as_i64 oui]> (delegate_rows db)))
  end.

Definition remove_delegate_key (oui : Z) (delegate_pubkey : PublicKeyBinary) db : config_db json :=
  if decide (delegate_rows db !! delegate_pubkey = Some (as_i64 oui))
  then set_delegate_rows db (delete delegate_pubkey (delegate_rows db)) else db.

(** [insert into organization_delegate_keys ... values ...] of [create_org]. *)
Fixpoint insert_delegates (oui : Z) (keys : list PublicKeyBinary) db : result (config_db json) SqlError :=
  match keys with
  | [] => Ok db
  | k :: rest => let? db := add_delegate_key oui k db in insert_delegates oui rest db
  end.

Definition constraint_row (oui : Z) (net_id : NetIdField) (c : DevAddrConstraint) : ConstraintRow :=
  mkConstraintRow (as_i64 oui) (field_to_i32 net_id) (field_to_i32 (start_addr c)) (field_to_i32 (end_addr c)).

Definition insert_helium_constraints (oui : Z) (net_id : NetIdField) (devaddr_ranges : list DevAddrConstraint) db
  : result (config_db json) SqlError :=
  match devaddr_ranges with
  | [] => Err NoValues
  | _ => Ok (set_constraint_rows db (constraint_rows db ++ (constraint_row oui net_id <$> devaddr_ranges)))
  end.

(** [(oui, start_addr, end_addr) in ...] *)
Definition matches_row (oui : Z) (devaddr_ranges : list DevAddrConstraint) (r : ConstraintRow) : bool :=
  existsb (fun c => (co_oui r =? as_i64 oui) && (co_start r =? field_to_i32 (start_addr c))
                    && (co_end r =? field_to_i32 (end_addr c))) devaddr_ranges.

Definition remove_helium_constraints (oui : Z) (devaddr_ranges : list DevAddrConstraint) db
  : result (config_db json) SqlError :=
  match devaddr_ranges with
  | [] => Err NoValues
  | _ => Ok (set_constraint_rows db (List.filter (fun r => negb (matches_row oui devaddr_ranges r)) (constraint_rows db)))
  end.

Definition check_roamer_constraint_count (net_id : NetIdField) db : Z :=
  Z.of_nat (length (List.filter (fun r => co_net_id r =? field_to_i32 net_id) (constraint_rows db))).

Definition insert_roamer_constraint (oui : Z) (net_id : NetIdField) (devaddr_range : DevAddrConstraint) db
  : config_db json :=
  set_constraint_rows db (constraint_rows db ++ [constraint_row oui net_id devaddr_range]).

(** [create_org]; [serial] is the value the sequence of [oui] gives. *)
Definition create_org (owner payer : PublicKeyBinary) (delegate_keys : list PublicKeyBinary) (net_id : NetIdField)
    (devaddr_ranges : list DevAddrConstraint) (serial : Z) db : result (config_db json * Org) OrgStoreError :=
  let? db :=
    match organizations db !! serial with
    | Some _ => Err SaveOrg
    | None => Ok (set_organizations db (<[serial := mkOrgRow owner payer false]> (organizations db)))
    end in
  let oui := as_u64 serial in
  let? db := map_err (fun _ => SaveDelegates) (insert_delegates oui delegate_keys db) in
  let? db :=
    if is_helium_netid net_id
    then map_err (fun _ => SaveConstraints) (insert_helium_constraints oui net_id devaddr_ranges db)
    else
      let? constraint := ok_or (head devaddr_ranges) SaveConstraints in
      if check_roamer_constraint_count net_id db =? 0
      then Ok (insert_roamer_constraint oui net_id constraint db)
      else Err SaveConstraints in
  let? org := ok_or (get_org oui db) SaveOrg in
  Ok (db, org).

(** The errors of the address store are [sqlx::Error]s. *)
Definition store_error (e : PgStore.sqlx_error) : SqlError :=
  match e with PgStore.UniqueViolation _ => UniqueViolated | PgStore.EmptyValues => NoValues end.

Definition add_constraint_update (oui : Z) (net_id : NetIdField) (added_constraint : DevAddrConstraint) db
  : result (config_db json) OrgStoreError :=
  let? helium_net_id := map_err (fun _ => InvalidUpdate) (helium_netid_try_from net_id) in
  let '(store, r) := checkout_specified_devaddr_constraint (used_devaddrs db) helium_net_id added_constraint in
  let? _ := map_err (fun _ => InvalidUpdate) r in
  map_err FetchOrg (insert_helium_constraints oui net_id [added_constraint] (set_used_devaddrs db store)).

#[local] Instance DevAddrConstraint_eq_dec : EqDecision DevAddrConstraint.
Proof. solve_decision. Defined.

Definition remove_constraint_update (oui : Z) (net_id : NetIdField) (org_constraints : option (list DevAddrConstraint))
    (removed_constraint : DevAddrConstraint) db : result (config_db json) OrgStoreError :=
  let? helium_net_id := map_err (fun _ => InvalidUpdate) (helium_netid_try_from net_id) in
  match org_constraints with
  | None => Err InvalidUpdate
  | Some org_constraints =>
      if bool_decide (removed_constraint ∈ org_constraints) && (1 <? Z.of_nat (length org_constraints)) then
        let remove_range := addrs_between (field_to_u32 (start_addr removed_constraint))
                                          (field_to_u32 (end_addr removed_constraint)) in
        let? store := map_err (fun e => FetchOrg (store_error e))
                        (release_addrs (used_devaddrs db) helium_net_id remove_range) in
        map_err FetchOrg (remove_helium_constraints oui [removed_constraint] (set_used_devaddrs db store))
      else Err InvalidUpdate
  end.

Definition add_devaddr_slab (oui : Z) (net_id : NetIdField) (addr_count : Z) db
  : result (config_db json) OrgStoreError :=
  let? helium_net_id := map_err (fun _ => InvalidUpdate) (helium_netid_try_from net_id) in
  let '(store, r) := checkout_devaddr_constraints (used_devaddrs db) (Z.to_nat addr_count) helium_net_id in
  let? constraints := map_err (fun _ => SaveConstraints) r in
  map_err FetchOrg (insert_helium_constraints oui net_id constraints (set_used_devaddrs db store)).

(** One update of [update_org]; [current] are the constraints read before the first. *)
Definition apply_update (oui : Z) (authorizer : UpdateAuthorizer) (net_id : NetIdField)
    (current : option (list DevAddrConstraint)) (update : option Update) db : result (config_db json) OrgStoreError :=
  let admin := bool_decide (authorizer = Admin) in
  let is_helium_org := is_helium_netid net_id in
  match update with
  | Some (UOwner pubkeybin) => if admin then Ok (update_owner oui pubkeybin db) else Err InvalidUpdate
  | Some (UPayer pubkeybin) => if admin then Ok (update_payer oui pubkeybin db) else Err InvalidUpdate
  | Some (UDevaddrs addr_count) =>
      if admin && is_helium_org then add_devaddr_slab oui net_id addr_count db else Err InvalidUpdate
  | Some (UConstraint action constraint) =>
      if admin && is_helium_org then
        match action, constraint with
        | Add, Some constraint => add_constraint_update oui net_id constraint db
        | Remove, Some constraint => remove_constraint_update oui net_id current constraint db
        | _, None => Err InvalidUpdate
        end
      else Err InvalidUpdate
  | Some (UDelegateKey Add delegate) => map_err FetchOrg (add_delegate_key oui delegate db)
  | Some (UDelegateKey Remove delegate) => Ok (remove_delegate_key oui delegate db)
  | None => Err InvalidUpdate
  end.

Fixpoint apply_updates (oui : Z) (authorizer : UpdateAuthorizer) (net_id : NetIdField)
    (current : option (list DevAddrConstraint)) (updates : list (option Update)) db
  : result (config_db json) OrgStoreError :=
  match updates with
  | [] => Ok db
  | u :: rest => let? db := apply_update oui authorizer net_id current u db in
                 apply_updates oui authorizer net_id current rest db
  end.

(** The cache after a committed update. *)
Definition cache_update (delegate_cache : gset PublicKeyBinary) (update : option Update) : gset PublicKeyBinary :=
  match update with
  | Some (UDelegateKey Add k) => {[k]} ∪ delegate_cache
  | Some (UDelegateKey Remove k) => delegate_cache ∖ {[k]}
  | _ => delegate_cache
  end.

Definition update_org (oui : Z) (authorizer : UpdateAuthorizer) (updates : list (option Update)) db
    (delegate_cache : gset PublicKeyBinary) : result (config_db json * gset PublicKeyBinary * Org) OrgStoreError :=
  let? current_org := ok_or (get_org oui db) OrgNotFound in
  let? net_id := map_err FetchOrg (get_org_netid oui db) in
  let? db := apply_updates oui authorizer net_id (o_constraints current_org) updates db in
  let? updated_org := ok_or (get_org oui db) SaveOrg in
  Ok (db, fold_left cache_update updates delegate_cache, updated_org).

Fixpoint decode_keys `{!Crypto} (keys : list PublicKeyBinary) : result (list string) OrgStoreError :=
  match keys with
  | [] => Ok []
  | k :: rest => let? k := (if key_valid k then Ok k else Err DecodeKey) in
                 let? rest := decode_keys rest in Ok (k :: rest)
  end.

(** The keys of an organization, as [get_org_pubkeys] and [get_org_pubkeys_by_route] collect them. *)
Definition pubkeys_of_org `{!Crypto} (org : Org) : result (list string) OrgStoreError :=
  let? pubkeys := decode_keys [o_owner org; o_payer org] in
  let? delegates := match o_delegate_keys org with Some keys => decode_keys keys | None => Ok [] end in
  Ok (pubkeys ++ delegates).

Definition get_org_pubkeys `{!Crypto} (oui : Z) db : result (list string) OrgStoreError :=
  let? org := ok_or (get_org oui db) OrgNotFound in pubkeys_of_org org.

Definition get_org_pubkeys_by_route `{!Crypto, !Uuids} (route_id : string) db : result (list string) OrgStoreError :=
  let? uuid := ok_or (uuid_parse route_id) RouteIdParse in
  let? route := ok_or (routes db !! uuid) (FetchOrg RowNotFound) in
  let? org := ok_or (organizations db !! rr_oui route) (FetchOrg RowNotFound) in
  pubkeys_of_org (org_from_row db (rr_oui route) org).

Definition get_constraints_by_route `{!Uuids} (route_id : string) db : result (list DevAddrConstraint) OrgStoreError :=
  let? uuid := ok_or (uuid_parse route_id) RouteIdParse in
  Ok (match routes db !! uuid with
      | Some route => constraint_of_row <$> org_constraints db (rr_oui route)
      | None => []
      end).

Definition get_route_ids_by_route `{!Uuids} (route_id : string) db : result (list Uuid) OrgStoreError :=
  let? uuid := ok_or (uuid_parse route_id) RouteIdParse in
  Ok (match routes db !! uuid with
      | Some route =>
          omap (fun kv => if rr_oui kv.2 =? rr_oui route then Some kv.1 else None) (map_to_list (routes db))
      | None => []
      end).
End Orgs.

(** ** Delegate keys *)

Section Delegates.
Context {json : Type}.
Implicit Types (db : config_db json) (rows : gmap PublicKeyBinary Z).

(** What one update does to the table of delegate keys. *)
Definition rows_update (oui : Z) (u : option Update) rows rows' : Prop :=
  match u with
  | Some (UDelegateKey Add k) => rows !! k = None /\ rows' = <[k := as_i64 oui]> rows
  | Some (UDelegateKey Remove k) => rows' = if decide (rows !! k = Some (as_i64 oui)) then delete k rows else rows
  | _ => rows' = rows
  end.

Lemma insert_helium_constraints_ok oui n cs db db' :
  insert_helium_constraints oui n cs db = Ok db' ->
  cs <> [] /\ db' = set_constraint_rows db (constraint_rows db ++ (constraint_row oui n <$> cs)).
Proof. destruct cs; [done|]. cbn [insert_helium_constraints]. by intros [= <-]. Qed.

Lemma add_devaddr_slab_ok oui n k db db' :
  add_devaddr_slab oui n k db = Ok db' ->
  exists h store cs, helium_netid_try_from n = Ok h /\
    checkout_devaddr_constraints (used_devaddrs db) (Z.to_nat k) h = (store, Ok cs) /\ cs <> [] /\
    db' = set_constraint_rows (set_used_devaddrs db store) (constraint_rows db ++ (constraint_row oui n <$> cs)).
Proof.
  unfold add_devaddr_slab. intros (h & Hh%map_err_ok & H)%result_bind_ok.
  destruct (checkout_devaddr_constraints _ _ h) as [store r] eqn:E.
  apply result_bind_ok in H as (cs & ->%map_err_ok & [Hne ->]%map_err_ok%insert_helium_constraints_ok).
  by exists h, store, cs.
Qed.

Lemma add_constraint_ok oui n c db db' :
  add_constraint_update oui n c db = Ok db' ->
  exists h store, helium_netid_try_from n = Ok h /\
    checkout_specified_devaddr_constraint (used_devaddrs db) h c = (store, Ok tt) /\
    db' = set_constraint_rows (set_used_devaddrs db store) (constraint_rows db ++ [constraint_row oui n c]).
Proof.
  unfold add_constraint_update. intros (h & Hh%map_err_ok & H)%result_bind_ok.
  destruct (checkout_specified_devaddr_constraint _ h c) as [store r] eqn:E.
  apply result_bind_ok in H as ([] & ->%map_err_ok & [_ ->]%map_err_ok%insert_helium_constraints_ok).
  by exists h, store.
Qed.

Lemma remove_constraint_ok oui n current c db db' :
  remove_constraint_update oui n current c db = Ok db' ->
  exists h cs store, helium_netid_try_from n = Ok h /\ current = Some cs /\ c ∈ cs /\ 1 < Z.of_nat (length cs) /\
    release_addrs (used_devaddrs db) h (addrs_between (field_to_u32 (start_addr c)) (field_to_u32 (end_addr c))) = Ok store /\
    remove_helium_constraints oui [c] (set_used_devaddrs db store) = Ok db'.
Proof.
  unfold remove_constraint_update. intros (h & Hh%map_err_ok & H)%result_bind_ok.
  destruct current as [cs|]; [|done]. destruct (bool_decide _ && _) eqn:E; [|done].
  apply andb_true_iff in E as [E1%bool_decide_eq_true E2%Z.ltb_lt].
  apply result_bind_ok in H as (store & Hs%map_err_ok & H%map_err_ok). by exists h, cs, store.
Qed.

Lemma apply_update_delegates oui auth n current u db db' :
  apply_update oui auth n current u db = Ok db' -> rows_update oui u (delegate_rows db) (delegate_rows db').
Proof.
  destruct u as [[k|k|k|[] [c|]|[] k]|]; cbn [apply_update]; unfold rows_update; intros H.
  - by destruct (bool_decide _); inversion H.
  - by destruct (bool_decide _); inversion H.
  - destruct (bool_decide _ && _); [|done]. by apply add_devaddr_slab_ok in H as (h & store & cs & _ & _ & _ & ->).
  - destruct (bool_decide _ && _); [|done]. by apply add_constraint_ok in H as (h & store & _ & _ & ->).
  - by destruct (bool_decide _ && _).
  - destruct (bool_decide _ && _); [|done].
    apply remove_constraint_ok in H as (h & cs & store & _ & _ & _ & _ & _ & H). by inversion H.
  - by destruct (bool_decide _ && _).
  - apply map_err_ok in H. unfold add_delegate_key in H. destruct (delegate_rows db !! k); [done|]. by inversion H.
  - inversion H. unfold remove_delegate_key. by case_decide.
  - done.
Qed.

(** The key belongs to another organization and an update removes it. *)
Definition foreign_removed (oui : Z) rows0 (updates : list (option Update)) (k : PublicKeyBinary) : Prop :=
  exists o, rows0 !! k = Some o /\ o <> as_i64 oui /\ Some (UDelegateKey Remove k) ∈ updates.

(** Rows of other organizations stay, and the cache has the other keys of the table. *)
Definition cache_tracks (oui : Z) rows0 (done : list (option Update)) rows (cache : gset PublicKeyBinary) : Prop :=
  (forall k o, o <> as_i64 oui -> rows !! k = Some o <-> rows0 !! k = Some o) /\
  (forall k, k ∈ cache <-> k ∈ dom rows /\ ~ foreign_removed oui rows0 done k).

Lemma foreign_removed_snoc oui rows0 done u k :
  foreign_removed oui rows0 (done ++ [u]) k <->
  foreign_removed oui rows0 done k \/
  exists o, rows0 !! k = Some o /\ o <> as_i64 oui /\ u = Some (UDelegateKey Remove k).
Proof.
  unfold foreign_removed. setoid_rewrite elem_of_app. setoid_rewrite list_elem_of_singleton.
  split; [intros (o & ? & ? & [?|?]); [left|right]; by exists o|].
  intros [(o & ? & ? & ?)|(o & ? & ? & ?)]; exists o; auto.
Qed.

Lemma cache_tracks_step oui rows0 done u rows rows' cache :
  cache_tracks oui rows0 done rows cache -> rows_update oui u rows rows' ->
  cache_tracks oui rows0 (done ++ [u]) rows' (cache_update cache u).
Proof.
  intros [Hr Hc] Hu. unfold rows_update, cache_update in *.
  assert ((forall k, u <> Some (UDelegateKey Remove k)) ->
    forall k, foreign_removed oui rows0 (done ++ [u]) k <-> foreign_removed oui rows0 done k) as Hsame.
  { intros Hne k. rewrite foreign_removed_snoc. split; [|by left]. intros [?|(o & _ & _ & E)]; [done|by apply Hne in E]. }
  destruct u as [[| | | |[] k]|]; try (subst rows'; split; [done|]; intros k; rewrite Hsame by done; apply Hc).
  - destruct Hu as [Hn ->]. split.
    + intros k' o Ho. destruct (decide (k' = k)) as [->|Hk].
      * rewrite lookup_insert_eq, <- (Hr k o Ho), Hn. split; [congruence|done].
      * rewrite lookup_insert_ne by done. by apply Hr.
    + intros k'. rewrite Hsame by done. rewrite elem_of_union, elem_of_singleton, dom_insert, elem_of_union, elem_of_singleton, Hc.
      split; [intros [->|[? ?]]; [split; [by left|]|by split; [right|]]|intros [[?|?] ?]; [by left|right; by split]].
      intros (o & E & Ho & _). apply (Hr k o Ho) in E. congruence.
  - split.
    + intros k' o Ho. subst rows'. case_decide as Hd; [|by apply Hr]. destruct (decide (k' = k)) as [->|Hk].
      * rewrite lookup_delete_eq, <- (Hr k o Ho), Hd. split; [done|congruence].
      * rewrite lookup_delete_ne by done. by apply Hr.
    + intros k'. rewrite elem_of_difference, elem_of_singleton, Hc, foreign_removed_snoc. subst rows'.
      destruct (decide (k' = k)) as [->|Hk].
      * split; [by intros [_ []]|]. intros [Hd Hf]. exfalso. case_decide as E.
        { rewrite dom_delete in Hd. apply elem_of_difference in Hd as [_ Hd]. by apply Hd, elem_of_singleton. }
        apply elem_of_dom in Hd as [o Ho]. apply Hf. right. exists o.
        assert (o <> as_i64 oui) by (intros ->; done). by rewrite <- (Hr k o) by done.
      * assert (k' ∈ dom (if decide (rows !! k = Some (as_i64 oui)) then delete k rows else rows) <-> k' ∈ dom rows) as ->.
        { case_decide; [|done]. rewrite dom_delete, elem_of_difference, elem_of_singleton. tauto. }
        split; [intros [[? Hf] _]; split; [done|]; intros [?|(o & _ & _ & [= ->])]; done|].
        intros [? Hf]. split; [|done]. split; [done|]. intros ?. apply Hf. by left.
Qed.

Lemma apply_updates_tracks oui auth n current rows0 updates done db db' cache :
  apply_updates oui auth n current updates db = Ok db' -> cache_tracks oui rows0 done (delegate_rows db) cache ->
  cache_tracks oui rows0 (done ++ updates) (delegate_rows db') (fold_left cache_update updates cache).
Proof.
  revert done db cache. induction updates as [|u l IH]; cbn [apply_updates fold_left]; intros done db cache H Ht.
  { injection H as <-. by rewrite app_nil_r. }
  apply result_bind_ok in H as (db1 & H1 & H). rewrite (cons_middle u done l), app_assoc.
  apply (IH _ db1); [done|]. eapply cache_tracks_step; [done|]. by apply apply_update_delegates in H1.
Qed.

(** When the cache of delegate keys agrees with the table, then after an
    update of an organization it has exactly the keys of the table except those
    that belong to another organization and that the update asked to remove:
    the table keeps such a key and the cache loses it. *)
Theorem delegate_cache_exact oui auth updates db cache db' cache' org :
  cache = delegate_keys_cache db -> update_org oui auth updates db cache = Ok (db', cache', org) ->
  forall k, k ∈ cache' <->
    k ∈ delegate_keys_cache db' /\
    ~ (exists o, delegate_rows db !! k = Some o /\ o <> as_i64 oui /\ Some (UDelegateKey Remove k) ∈ updates).
Proof.
  intros -> H. unfold update_org in H. apply result_bind_ok in H as (cur & _ & H).
  apply result_bind_ok in H as (n & _ & H). apply result_bind_ok in H as (db1 & H1 & H).
  apply result_bind_ok in H as (o & _ & [= <- <- _]).
  refine (proj2 (apply_updates_tracks oui auth n (o_constraints cur) (delegate_rows db) updates [] db db1 _ H1 _)).
  split; [done|]. intros k. unfold delegate_keys_cache. split; [|by intros [? _]]. intros Hk. split; [done|].
  intros (o' & _ & _ & []%not_elem_of_nil).
Qed.
End Delegates.

(** ** Leased addresses *)

Section Leases.
Context {json : Type}.
Implicit Types db : config_db json.

(** The addresses of a row of constraints. *)
Definition lease (r : ConstraintRow) : list Z := addrs_between (as_u32 (co_start r)) (as_u32 (co_end r)).

Definition helium_rows db (n : HeliumNetId) : list ConstraintRow :=
  List.filter (fun r => co_net_id r =? PgLaws.row_id n) (constraint_rows db).

Definition leased db (n : HeliumNetId) : list Z := flat_map lease (helium_rows db n).

Definition is_i32 (z : Z) : Prop := - 2 ^ 31 <= z < 2 ^ 31.

Definition even_block (r : ConstraintRow) : Prop :=
  as_u32 (co_start r) <= as_u32 (co_end r) /\ as_u32 (co_start r) mod 2 = 0 /\ as_u32 (co_end r) mod 2 = 1.

(** The leased addresses of each Helium NetID are leased once and are those in
    use; a row belongs to an organization, whose rows have one NetID. *)
Record leases_inv db : Prop := mkLeasesInv {
  li_store : store_ok (used_devaddrs db);
  li_pairs n : pair_closed (used (used_devaddrs db) n);
  li_once n : NoDup (leased db n);
  li_used n a : a ∈ leased db n <-> a ∈ used (used_devaddrs db) n;
  li_block n r : r ∈ helium_rows db n -> even_block r;
  li_int r : r ∈ constraint_rows db -> is_i32 (co_net_id r) /\ is_i32 (co_start r) /\ is_i32 (co_end r);
  li_org r : r ∈ constraint_rows db -> is_Some (organizations db !! co_oui r);
  li_netid r r' : r ∈ constraint_rows db -> r' ∈ constraint_rows db -> co_oui r = co_oui r' -> co_net_id r = co_net_id r'
}.

Lemma elem_of_helium_rows db n r : r ∈ helium_rows db n <-> r ∈ constraint_rows db /\ co_net_id r = PgLaws.row_id n.
Proof. unfold helium_rows. by rewrite elem_of_filter_bool, Z.eqb_eq. Qed.

Lemma elem_of_leased db n a : a ∈ leased db n <-> exists r, r ∈ helium_rows db n /\ a ∈ lease r.
Proof.
  unfold leased. rewrite list_elem_of_In, in_flat_map. split.
  - intros (r & H1 & H2). exists r. by rewrite !list_elem_of_In.
  - intros (r & H1 & H2). exists r. by rewrite <- !list_elem_of_In.
Qed.

Lemma helium_netid_try_from_ok n h : helium_netid_try_from n = Ok h -> n = netid_id h.
Proof.
  unfold helium_netid_try_from. repeat case_match; intros [= <-]; cbn; repeat match goal with H : (_ =? _) = true |- _ => apply Z.eqb_eq in H end; done.
Qed.

Lemma is_helium_netid_id n : is_helium_netid n = true <-> exists h, n = netid_id h.
Proof.
  unfold is_helium_netid. cbn [existsb]. rewrite !orb_true_iff, !Z.eqb_eq. split.
  - intros [->|[->|[->|?]]]; [by exists Type0_0x00003c|by exists Type3_0x60002d|by exists Type6_0xc00053|done].
  - intros ([] & ->); cbn; auto.
Qed.

Lemma lease_of_constraint oui n c : is_u32 (start_addr c) -> is_u32 (end_addr c) -> lease (constraint_row oui n c) = covered c.
Proof. intros. unfold lease, covered. cbn. unfold field_to_i32. by rewrite !as_u32_as_i32. Qed.

(** The leases of new rows, seen from any NetID. *)
Lemma new_leases oui h n (cs : list DevAddrConstraint) :
  (forall c, c ∈ cs -> is_u32 (start_addr c) /\ is_u32 (end_addr c)) ->
  flat_map lease (List.filter (fun r => co_net_id r =? PgLaws.row_id n) (constraint_row oui (netid_id h) <$> cs)) =
  if decide (n = h) then flat_map covered cs else [].
Proof.
  induction cs as [|c cs IH]; intros Hu; [by case_decide|]. specialize (IH ltac:(intros; apply Hu; by right)).
  rewrite fmap_cons. cbn [List.filter co_net_id constraint_row]. change (field_to_i32 (netid_id h)) with (PgLaws.row_id h).
  destruct (decide (n = h)) as [->|Hne].
  - rewrite Z.eqb_refl. cbn [flat_map]. rewrite IH. f_equal. destruct (Hu c ltac:(left)). by apply lease_of_constraint.
  - destruct (Z.eqb_spec (PgLaws.row_id h) (PgLaws.row_id n)) as [E|_]; [by apply PgLaws.row_id_inj in E|done].
Qed.

(** Leasing blocks that were free, to an organization without constraints of another NetID. *)
Lemma leases_add db (oui : Z) h (cs : list DevAddrConstraint) store (orgs : gmap Z OrgRow) (ds : gmap PublicKeyBinary Z) :
  leases_inv db -> (forall o, is_Some (organizations db !! o) -> is_Some (orgs !! o)) -> is_Some (orgs !! as_i64 oui) ->
  (forall r, r ∈ constraint_rows db -> co_oui r = as_i64 oui -> co_net_id r = PgLaws.row_id h) ->
  Forall well_formed cs -> NoDup (flat_map covered cs) ->
  (forall a, a ∈ flat_map covered cs -> in_range h a /\ a ∉ used (used_devaddrs db) h) ->
  store_ok store -> pair_closed (used store h) ->
  (forall a, a ∈ used store h <-> a ∈ used (used_devaddrs db) h \/ a ∈ flat_map covered cs) ->
  (forall m, m <> h -> used store m = used (used_devaddrs db) m) ->
  leases_inv (set_constraint_rows (set_used_devaddrs (set_delegate_rows (set_organizations db orgs) ds) store)
    (constraint_rows db ++ (constraint_row oui (netid_id h) <$> cs))).
Proof.
  intros Hi Ho Houi Hown Hwf Hnd Hfree Hok Hp Hu Hm. set (db' := set_constraint_rows _ _).
  assert (forall c, c ∈ cs -> is_u32 (start_addr c) /\ is_u32 (end_addr c)) as Hu32.
  { intros c Hc. rewrite Forall_forall in Hwf. destruct (Hwf c Hc) as [Hlt _].
    assert (forall a, start_addr c <= a <= end_addr c -> is_u32 a) as Hin.
    { intros a Ha. apply (PgLaws.in_range_u32 h), Hfree, list_elem_of_In, in_flat_map. exists c.
      rewrite <- !list_elem_of_In. split; [done|]. by apply elem_of_addrs_between. }
    split; apply Hin; lia. }
  assert (forall n, leased db' n = leased db n ++ (if decide (n = h) then flat_map covered cs else [])) as Hl.
  { intros n. unfold leased, helium_rows. cbn [constraint_rows db' set_constraint_rows].
    rewrite List.filter_app, flat_map_app. f_equal. by apply new_leases. }
  assert (forall r, r ∈ constraint_rows db' <-> r ∈ constraint_rows db \/ exists c, c ∈ cs /\ r = constraint_row oui (netid_id h) c) as Hr.
  { intros r. cbn. rewrite elem_of_app, list_elem_of_fmap. split; (intros [?|(c & ? & ?)]; [by left|right; by exists c]). }
  split.
  - done.
  - intros n. cbn. destruct (decide (n = h)) as [->|Hne]; [done|]. rewrite Hm by done. apply (li_pairs db Hi).
  - intros n. rewrite Hl. case_decide as E; [subst n|rewrite app_nil_r; apply (li_once db Hi)].
    apply NoDup_app. split; [apply (li_once db Hi)|]. split; [|done]. intros a Ha Ha'.
    apply (li_used db Hi) in Ha. by apply Hfree in Ha' as [_ ?].
  - intros n a. rewrite Hl, elem_of_app, (li_used db Hi). cbn [used_devaddrs db' set_constraint_rows set_used_devaddrs].
    case_decide as E; [subst n; by rewrite Hu|]. rewrite Hm by done. split; [intros [?|?%not_elem_of_nil]; done|by left].
  - intros n r [[Hin|(c & Hc & ->)]%Hr Hn]%elem_of_helium_rows.
    + apply (li_block db Hi n). by apply elem_of_helium_rows.
    + unfold even_block. cbn. unfold field_to_i32. destruct (Hu32 c Hc). rewrite !as_u32_as_i32 by done.
      rewrite Forall_forall in Hwf. destruct (Hwf c Hc) as (? & ? & ?). by repeat split; try lia.
  - intros r [Hin|(c & Hc & ->)]%Hr; [by apply (li_int db Hi)|]. cbn. destruct (Hu32 c Hc).
    split; [destruct h; vm_compute; done|]. split; by apply PgLaws.as_i32_range.
  - intros r [Hin|(c & Hc & ->)]%Hr; [by apply Ho, (li_org db Hi)|]. done.
  - intros r r' [Hin|(c & Hc & ->)]%Hr [Hin'|(c' & Hc' & ->)]%Hr E; cbn in *.
    + by apply (li_netid db Hi).
    + by apply Hown.
    + symmetry. by apply Hown.
    + done.
Qed.

Lemma filter_swap {A} (f g : A -> bool) (l : list A) :
  List.filter f (List.filter g l) = List.filter g (List.filter f l).
Proof.
  induction l as [|a l IH]; [done|]. cbn [List.filter].
  destruct (g a) eqn:Eg, (f a) eqn:Ef; cbn [List.filter]; rewrite ?Eg, ?Ef; congruence.
Qed.

Lemma as_u32_u32 z : is_u32 (as_u32 z).
Proof. unfold is_u32, as_u32, wrap. apply Z.mod_pos_bound. lia. Qed.

Lemma matches_row_iff oui r0 r :
  is_i32 (co_start r) -> is_i32 (co_end r) ->
  matches_row oui [constraint_of_row r0] r = true <-> co_oui r = as_i64 oui /\ constraint_of_row r = constraint_of_row r0.
Proof.
  intros Hs He. unfold matches_row. cbn [existsb constraint_of_row start_addr end_addr].
  rewrite orb_false_r, !andb_true_iff, !Z.eqb_eq. unfold field_to_i32, constraint_of_row, field_from_i32. split.
  - intros [[-> ->] ->]. by rewrite !as_u32_as_i32 by apply as_u32_u32.
  - intros [-> [= <- <-]]. by rewrite !PgLaws.as_i32_u32.
Qed.

Lemma lease_of_row r :
  addrs_between (field_to_u32 (start_addr (constraint_of_row r))) (field_to_u32 (end_addr (constraint_of_row r))) = lease r.
Proof.
  unfold lease, field_to_u32. cbn. unfold field_from_i32. by rewrite !(as_u32_small (as_u32 _)) by apply as_u32_u32.
Qed.

(** Releasing a block of the organization and deleting its row. *)
Lemma leases_remove db (oui : Z) h c store db' :
  leases_inv db -> (exists r, r ∈ helium_rows db h /\ co_oui r = as_i64 oui /\ constraint_of_row r = c) ->
  release_addrs (used_devaddrs db) h (addrs_between (field_to_u32 (start_addr c)) (field_to_u32 (end_addr c))) = Ok store ->
  remove_helium_constraints oui [c] (set_used_devaddrs db store) = Ok db' ->
  leases_inv db' /\ organizations db' = organizations db /\
  forall r, r ∈ constraint_rows db -> (r ∈ constraint_rows db' <-> ~ (co_oui r = as_i64 oui /\ constraint_of_row r = c)).
Proof.
  intros Hi (r0 & Hr0 & Ho0 & <-) Hrel [= <-]. pose proof (proj1 (elem_of_helium_rows db h r0) Hr0) as [Hin0 Hn0].
  destruct (li_int db Hi r0 Hin0) as (_ & Hs0 & He0).
  rewrite lease_of_row in Hrel. destruct (li_block db Hi h r0 Hr0) as (Hb1 & Hb2 & Hb3).
  destruct (release_spec (used_devaddrs db) h (lease r0)) as (st & E & Hok & Hu & Hm); [apply (li_store db Hi)| | |].
  { intros E0. assert (as_u32 (co_start r0) ∈ lease r0) as Hs by (apply elem_of_addrs_between; lia). rewrite E0 in Hs. by apply not_elem_of_nil in Hs. }
  { intros a Ha. apply (proj2 (used_ascending (used_devaddrs db) h (li_store db Hi))), (li_used db Hi), elem_of_leased. by exists r0. }
  rewrite E in Hrel. injection Hrel as ->.
  set (removed := matches_row oui [constraint_of_row r0]). set (db' := set_constraint_rows _ _).
  assert (forall r, r ∈ constraint_rows db -> removed r = true <-> co_oui r = as_i64 oui /\ constraint_of_row r = constraint_of_row r0) as Hrem.
  { intros r Hr. destruct (li_int db Hi r Hr) as (_ & Hs & He). by apply matches_row_iff. }
  assert (forall r, r ∈ constraint_rows db' <-> r ∈ constraint_rows db /\ removed r = false) as Hr'.
  { intros r. cbn. by rewrite elem_of_filter_bool, negb_true_iff. }
  assert (forall r, r ∈ constraint_rows db -> removed r = true -> r ∈ helium_rows db h /\ lease r = lease r0) as Hsame.
  { intros r Hr H. apply (Hrem r Hr) in H as [Ho Hc]. split.
    - apply elem_of_helium_rows. split; [done|]. rewrite <- Hn0. apply (li_netid db Hi); [done|done|congruence].
    - unfold lease, constraint_of_row, field_from_i32 in *. by injection Hc as -> ->. }
  assert (forall r a, r ∈ helium_rows db h -> a ∈ lease r -> a ∈ lease r0 -> removed r = true) as Honly.
  { intros r a Hr Ha Ha0. assert (r = r0) as -> by (apply (flat_map_once lease (helium_rows db h) r r0 a); [apply (li_once db Hi h)|done..]). by apply Hrem. }
  assert (forall n, leased db' n = flat_map lease (List.filter (fun r => negb (removed r)) (helium_rows db n))) as Hl.
  { intros n. unfold leased, helium_rows. cbn [constraint_rows db' set_constraint_rows]. by rewrite filter_swap. }
  split; [split|].
  - done.
  - intros n. cbn. destruct (decide (n = h)) as [->|Hne]; [|rewrite Hm by done; apply (li_pairs db Hi)].
    intros a Ha. rewrite !Hu, (li_pairs db Hi h a Ha). unfold lease. rewrite !elem_of_addrs_between.
    set (s := as_u32 (co_start r0)) in *. set (e := as_u32 (co_end r0)) in *. clearbody s e. assert ((s <= a <= e) <-> (s <= a + 1 <= e)) by mlia. tauto.
  - intros n. rewrite Hl. apply flat_map_filter_NoDup, (li_once db Hi).
  - intros n a. rewrite Hl, list_elem_of_In, in_flat_map. setoid_rewrite <- list_elem_of_In.
    cbn [used_devaddrs db' set_constraint_rows set_used_devaddrs].
    assert (a ∈ used store n <-> a ∈ used (used_devaddrs db) n /\ ~ (n = h /\ a ∈ lease r0)) as ->.
    { destruct (decide (n = h)) as [->|Hne]; [rewrite Hu; tauto|]. rewrite Hm by done. tauto. }
    rewrite <- (li_used db Hi), elem_of_leased. split.
    + intros (r & [Hr Hn]%elem_of_filter_bool & Ha). split; [by exists r|]. intros [-> Ha0].
      by rewrite (Honly r a Hr Ha Ha0) in Hn.
    + intros ((r & Hr & Ha) & Hne). exists r. split; [|done]. apply elem_of_filter_bool. split; [done|].
      apply negb_true_iff, not_true_is_false. intros H. apply elem_of_helium_rows in Hr as [Hr Hn].
      destruct (Hsame r Hr H) as [Hh Hle]. apply Hne. rewrite <- Hle. split; [|done].
      apply elem_of_helium_rows in Hh as [_ Hh]. apply PgLaws.row_id_inj. congruence.
  - intros n r [[Hr _]%Hr' Hn]%elem_of_helium_rows. apply (li_block db Hi n). by apply elem_of_helium_rows.
  - intros r [Hr _]%Hr'. by apply (li_int db Hi).
  - intros r [Hr _]%Hr'. by apply (li_org db Hi).
  - intros r r' [Hr _]%Hr' [Hr2 _]%Hr'. by apply (li_netid db Hi).
  - split; [done|]. intros r Hr. rewrite Hr'. rewrite <- (Hrem r Hr). destruct (removed r); split; [by intros [_ ?]|done|done|done].
Qed.

(** An update that keeps to even blocks of the range of the NetID. *)
Definition update_ok (n : NetIdField) (u : option Update) : Prop :=
  match u with
  | Some (UDevaddrs k) => k mod 2 = 0
  | Some (UConstraint Add (Some c)) =>
      forall h, n = netid_id h -> well_formed c /\ in_range h (start_addr c) /\ in_range h (end_addr c)
  | _ => True
  end.

Definition removal (u : option Update) : option DevAddrConstraint :=
  match u with Some (UConstraint Remove (Some c)) => Some c | _ => None end.

(** Between the updates of a request: the organization has one NetID, and the
    constraints read at the start are there unless an update removed them. *)
Record request_inv (oui : Z) (n : NetIdField) (current gone : list DevAddrConstraint) db : Prop := mkRequestInv {
  qi_leases : leases_inv db;
  qi_org : is_Some (organizations db !! as_i64 oui);
  qi_netid r : r ∈ constraint_rows db -> co_oui r = as_i64 oui -> field_from_i32 (W := 6) (co_net_id r) = n;
  qi_current c : c ∈ current -> c ∉ gone -> exists r, r ∈ constraint_rows db /\ co_oui r = as_i64 oui /\ constraint_of_row r = c
}.

(** Only the rows of constraints and the addresses matter. *)
Lemma leases_ext db orgs ds :
  leases_inv db -> (forall o, is_Some (organizations db !! o) -> is_Some (orgs !! o)) ->
  leases_inv (set_delegate_rows (set_organizations db orgs) ds).
Proof.
  intros Hi Ho. split; try apply Hi. intros r Hr. cbn. apply Ho. by apply (li_org db Hi).
Qed.

Lemma request_ext oui n current gone db orgs ds :
  request_inv oui n current gone db -> (forall o, is_Some (organizations db !! o) -> is_Some (orgs !! o)) ->
  request_inv oui n current gone (set_delegate_rows (set_organizations db orgs) ds).
Proof.
  intros [Hi Ho Hn Hc] Hs. split; [by apply leases_ext|by apply Hs|done|done].
Qed.

Lemma set_org_some db oui f o : is_Some (organizations db !! o) -> is_Some (alter f (as_i64 oui) (organizations db) !! o).
Proof. intros H. by rewrite lookup_alter_is_Some. Qed.

(** The rows of a request's organization have the row id of its Helium NetID. *)
Lemma request_rows oui h current gone db r :
  request_inv oui (netid_id h) current gone db -> r ∈ constraint_rows db -> co_oui r = as_i64 oui ->
  co_net_id r = PgLaws.row_id h.
Proof.
  intros Hq Hr Ho. pose proof (qi_netid _ _ _ _ _ Hq r Hr Ho) as E. unfold PgLaws.row_id, field_to_i32.
  rewrite <- E. unfold field_from_i32. symmetry. apply PgLaws.as_i32_u32. by apply (li_int db (qi_leases _ _ _ _ _ Hq)).
Qed.

Lemma request_add oui h current gone db (cs : list DevAddrConstraint) store :
  request_inv oui (netid_id h) current gone db ->
  Forall well_formed cs -> NoDup (flat_map covered cs) ->
  (forall a, a ∈ flat_map covered cs -> in_range h a /\ a ∉ used (used_devaddrs db) h) ->
  store_ok store -> pair_closed (used store h) ->
  (forall a, a ∈ used store h <-> a ∈ used (used_devaddrs db) h \/ a ∈ flat_map covered cs) ->
  (forall m, m <> h -> used store m = used (used_devaddrs db) m) ->
  request_inv oui (netid_id h) current gone
    (set_constraint_rows (set_used_devaddrs db store) (constraint_rows db ++ (constraint_row oui (netid_id h) <$> cs))).
Proof.
  intros Hq Hwf Hnd Hf Hok Hp Hu Hm. split.
  - apply (leases_add db oui h cs store (organizations db) (delegate_rows db)); try done; try apply Hq.
    intros r. by apply (request_rows oui h current gone).
  - apply Hq.
  - cbn. intros r [Hr|Hr]%elem_of_app; [by apply (qi_netid _ _ _ _ _ Hq)|].
    apply list_elem_of_fmap in Hr as (c & -> & _). intros _. cbn. unfold field_to_i32, field_from_i32. destruct h; vm_compute; done.
  - intros c Hc Hg. destruct (qi_current _ _ _ _ _ Hq c Hc Hg) as (r & Hr & Ho). exists r. split; [|done].
    cbn. apply elem_of_app. by left.
Qed.

Lemma checkout_zero (st : gmap Z Z) h : (checkout_devaddr_constraints st 0 h).2 = Err (AddressStoreError PgStore.EmptyValues).
Proof.
  unfold checkout_devaddr_constraints. cbn [get_used_addrs PgStore.pg_store PgStore.pg_get_used_addrs].
  destruct (addr_range h) as [rs re]. unfold plan_claim. done.
Qed.

Lemma request_slab oui h current gone db k db' :
  request_inv oui (netid_id h) current gone db -> k mod 2 = 0 -> add_devaddr_slab oui (netid_id h) k db = Ok db' ->
  request_inv oui (netid_id h) current gone db'.
Proof.
  intros Hq Hk (h' & store & cs & Hh%helium_netid_try_from_ok & E & _ & ->)%add_devaddr_slab_ok.
  assert (h' = h) as -> by (destruct h, h'; (done || (vm_compute in Hh; discriminate))). clear Hh.
  pose proof (qi_leases _ _ _ _ _ Hq) as Hi.
  assert (exists j, Z.to_nat k = (2 * j)%nat) as [j Ej] by (exists (Z.to_nat (k / 2)); mlia). rewrite Ej in E.
  destruct (decide (j = 0)%nat) as [->|Hj]; [pose proof (checkout_zero (used_devaddrs db) h) as E'; rewrite Nat.mul_0_r in E; by rewrite E in E'|].
  destruct (decide (2 * j <= length (free (used_devaddrs db) h))%nat) as [Hlen|Hlen].
  2:{ rewrite checkout_none in E; [done|apply Hi|lia]. }
  destruct (checkout_pairs (used_devaddrs db) h j) as (st & cs' & E' & Hcov & Hwf & Hok & Hp & Hu & Hm);
    [apply Hi|apply (li_pairs db Hi)|lia|done|].
  rewrite E' in E. injection E as <- <-. apply request_add; rewrite ?Hcov; try done.
  - apply StronglySorted_lt_NoDup, StronglySorted_take, free_sorted.
  - apply take_free.
Qed.

Lemma request_constraint oui h current gone db c db' :
  request_inv oui (netid_id h) current gone db -> well_formed c -> in_range h (start_addr c) -> in_range h (end_addr c) ->
  add_constraint_update oui (netid_id h) c db = Ok db' -> request_inv oui (netid_id h) current gone db'.
Proof.
  intros Hq Hwf Hs He (h' & store & Hh%helium_netid_try_from_ok & E & ->)%add_constraint_ok.
  assert (h' = h) as -> by (destruct h, h'; (done || (vm_compute in Hh; discriminate))). clear Hh.
  pose proof (qi_leases _ _ _ _ _ Hq) as Hi. destruct Hwf as (Hlt & Hev & Hodd).
  assert (field_to_u32 (start_addr c) = start_addr c) as Es by (by apply as_u32_small, (PgLaws.in_range_u32 h)).
  assert (field_to_u32 (end_addr c) = end_addr c) as Ee by (by apply as_u32_small, (PgLaws.in_range_u32 h)).
  destruct (checkout_specified (used_devaddrs db) h c) as [H1 H2]; rewrite ?Es, ?Ee; [apply Hi| |lia|].
  { intros a Ha. unfold in_range in *. lia. }
  rewrite Es, Ee, E in *. cbn [fst snd] in *. set (req := addrs_between _ _) in *.
  assert (forall a, a ∈ req -> a ∉ used (used_devaddrs db) h) as Hf.
  { intros a Ha Hu. discriminate (H1 (ex_intro _ a (conj Ha Hu))). }
  destruct (H2 Hf) as (_ & Hok & Hu & Hm).
  apply (request_add oui h current gone db [c] store); [done|by apply Forall_singleton| | |done| | |done]; cbn [flat_map]; rewrite ?app_nil_r;
    change (covered c) with req.
  - apply StronglySorted_lt_NoDup, seqZ_sorted.
  - intros a Ha. split; [|by apply Hf]. unfold req in Ha. apply elem_of_addrs_between in Ha. unfold in_range in *. lia.
  - intros a Ha. rewrite !Hu, (li_pairs db Hi h a Ha). unfold req. rewrite !elem_of_addrs_between.
    assert ((start_addr c <= a <= end_addr c) <-> (start_addr c <= a + 1 <= end_addr c)) by mlia. tauto.
  - done.
Qed.

Lemma request_remove oui h current gone db c db' :
  request_inv oui (netid_id h) current gone db -> c ∉ gone ->
  remove_constraint_update oui (netid_id h) (Some current) c db = Ok db' ->
  request_inv oui (netid_id h) current (c :: gone) db'.
Proof.
  intros Hq Hg (h' & cs & store & Hh%helium_netid_try_from_ok & [= <-] & Hc & _ & Hrel & Hrem)%remove_constraint_ok.
  assert (h' = h) as -> by (destruct h, h'; (done || (vm_compute in Hh; discriminate))). clear Hh.
  destruct (qi_current _ _ _ _ _ Hq c Hc Hg) as (r0 & Hr0 & Ho0 & Ec0).
  destruct (leases_remove db oui h c store db') as (Hi & Eo & Hr); [apply Hq| |done|done|].
  { exists r0. split; [|done]. apply elem_of_helium_rows. split; [done|]. by apply (request_rows oui h current gone db). }
  assert (forall r, r ∈ constraint_rows db' -> r ∈ constraint_rows db) as Hsub.
  { injection Hrem as <-. cbn. by intros r [Hr' _]%elem_of_filter_bool. }
  split; [done|rewrite Eo; apply Hq| |].
  - intros r Hr'. apply (qi_netid _ _ _ _ _ Hq). by apply Hsub.
  - intros c' Hc' [Hne Hg']%not_elem_of_cons. destruct (qi_current _ _ _ _ _ Hq c' Hc' Hg') as (r & Hr' & Ho & Ec).
    exists r. split; [|done]. apply Hr; [done|]. intros [_ Ec']. congruence.
Qed.

(** One update of a request. *)
Lemma apply_update_request oui auth n current gone u db db' :
  request_inv oui n current gone db -> update_ok n u -> (forall c, removal u = Some c -> c ∉ gone) ->
  apply_update oui auth n (Some current) u db = Ok db' ->
  request_inv oui n current (match removal u with Some c => c :: gone | None => gone end) db'.
Proof.
  intros Hq Hu Hg H. destruct u as [[k|k|k|[] [c|]|[] k]|]; cbn [apply_update removal update_ok] in *;
    try (destruct (bool_decide (auth = Admin)); [|done]); cbn [andb] in *;
    try (destruct (is_helium_netid n) eqn:En; [apply is_helium_netid_id in En as [h ->]|done]); try done.
  - injection H as <-. apply (request_ext _ _ _ _ db _ (delegate_rows db) Hq). intros o. apply set_org_some.
  - injection H as <-. apply (request_ext _ _ _ _ db _ (delegate_rows db) Hq). intros o. apply set_org_some.
  - by apply (request_slab oui h current gone db k).
  - destruct (Hu h eq_refl) as (? & ? & ?). by apply (request_constraint oui h current gone db c).
  - apply (request_remove oui h current gone db c); [done|by apply Hg|done].
  - apply map_err_ok in H. unfold add_delegate_key in H. destruct (delegate_rows db !! k); [done|]. injection H as <-.
    by apply (request_ext _ _ _ _ db (organizations db) _ Hq).
  - injection H as <-. unfold remove_delegate_key. case_decide; [|done].
    by apply (request_ext _ _ _ _ db (organizations db) _ Hq).
Qed.

Lemma apply_updates_request oui auth n current gone updates db db' :
  request_inv oui n current gone db -> Forall (update_ok n) updates -> NoDup (omap removal updates) ->
  (forall c, c ∈ omap removal updates -> c ∉ gone) ->
  apply_updates oui auth n (Some current) updates db = Ok db' -> leases_inv db'.
Proof.
  revert gone db. induction updates as [|u l IH]; cbn [apply_updates]; intros gone db Hq Hu Hnd Hg H.
  { injection H as <-. apply Hq. }
  apply Forall_cons in Hu as [Hu Hl]. apply result_bind_ok in H as (db1 & H1 & H).
  change (omap removal (u :: l)) with (match removal u with Some c => c :: omap removal l | None => omap removal l end) in Hnd, Hg.
  assert (forall c, removal u = Some c -> c ∉ gone) as Hgu by (intros c E; apply Hg; rewrite E; left).
  pose proof (apply_update_request oui auth n current gone u db db1 Hq Hu Hgu H1) as Hq1.
  destruct (removal u) as [c|]; [|by apply (IH gone db1)].
  apply NoDup_cons in Hnd as [Hc Hnd]. apply (IH (c :: gone) db1); try done.
  intros c' Hc' [->|Hg']%elem_of_cons; [done|]. apply (Hg c'); [by right|done].
Qed.

(** An update of an organization keeps the leases. *)
Lemma update_org_leases oui auth updates db cache db' cache' org :
  leases_inv db -> (forall n, get_org_netid oui db = Ok n -> Forall (update_ok n) updates) ->
  NoDup (omap removal updates) -> update_org oui auth updates db cache = Ok (db', cache', org) -> leases_inv db'.
Proof.
  intros Hi Hu Hnd H. unfold update_org in H. apply result_bind_ok in H as (cur & Hcur%ok_or_ok & H).
  apply result_bind_ok in H as (n & Hn%map_err_ok & H). apply result_bind_ok in H as (db1 & H1 & H).
  apply result_bind_ok in H as (o & _ & [= <- _ _]).
  unfold get_org in Hcur. destruct (organizations db !! as_i64 oui) as [row|] eqn:Eo; [|done].
  injection Hcur as <-. cbn [o_constraints org_from_row] in H1.
  apply (apply_updates_request oui auth n (constraint_of_row <$> org_constraints db (as_i64 oui)) [] updates db db1); [|by apply Hu|done|by intros c _ ?%not_elem_of_nil|done].
  unfold get_org_netid in Hn. apply result_bind_ok in Hn as (r0 & Hr0%ok_or_ok & [= <-]).
  assert (forall r, r ∈ org_constraints db (as_i64 oui) <-> r ∈ constraint_rows db /\ co_oui r = as_i64 oui) as Hrows.
  { intros r. unfold org_constraints. by rewrite elem_of_filter_bool, Z.eqb_eq. }
  apply head_Some_elem_of, Hrows in Hr0 as [Hr0 Ho0].
  split; [done|by exists row| |].
  - intros r Hr Ho. rewrite (li_netid db Hi r r0); [done|done|done|congruence].
  - intros c (r & -> & Hr)%list_elem_of_fmap _. exists r. apply Hrows in Hr as [? ?]. done.
Qed.

(** The rows a new organization adds. *)
Lemma create_org_ok owner payer keys n cs serial db db' org :
  create_org owner payer keys n cs serial db = Ok (db', org) ->
  organizations db !! serial = None /\
  exists ds cs', (if is_helium_netid n then cs' = cs /\ cs <> [] else exists c, cs' = [c]) /\
    db' = set_constraint_rows (set_delegate_rows (set_organizations db (<[serial := mkOrgRow owner payer false]> (organizations db))) ds)
            (constraint_rows db ++ (constraint_row (as_u64 serial) n <$> cs')).
Proof.
  unfold create_org. intros (db1 & H1 & H)%result_bind_ok. destruct (organizations db !! serial) eqn:E; [done|]. split; [done|].
  injection H1 as <-. apply result_bind_ok in H as (db2 & H2%map_err_ok & H). apply result_bind_ok in H as (db3 & H3 & H).
  apply result_bind_ok in H as (o & _ & [= <- _]). set (db1 := set_organizations db _) in *.
  assert (exists ds, db2 = set_delegate_rows db1 ds) as [ds ->].
  { clear -H2. revert H2. generalize db1. clear db1. induction keys as [|k l IH]; cbn [insert_delegates]; intros db1 H2.
    - injection H2 as <-. exists (delegate_rows db1). by destruct db1.
    - apply result_bind_ok in H2 as (dbk & Hk & H2). apply IH in H2 as [ds ->]. unfold add_delegate_key in Hk.
      destruct (delegate_rows db1 !! k); [done|]. injection Hk as <-. by exists ds. }
  exists ds. destruct (is_helium_netid n).
  - apply map_err_ok, insert_helium_constraints_ok in H3 as [Hne ->]. by exists cs.
  - apply result_bind_ok in H3 as (c & _ & H3). destruct (_ =? 0); [|done]. injection H3 as <-. exists [c]. split; [by exists c|done].
Qed.

(** A new organization on blocks that were checked out for it. *)
Lemma create_helium_leases owner payer keys h k serial db store cs db' org :
  leases_inv db -> k mod 2 = 0 -> - 2 ^ 63 <= serial < 2 ^ 63 ->
  checkout_devaddr_constraints (used_devaddrs db) (Z.to_nat k) h = (store, Ok cs) ->
  create_org owner payer keys (netid_id h) cs serial (set_used_devaddrs db store) = Ok (db', org) -> leases_inv db'.
Proof.
  intros Hi Hk Hs E (Hf & ds & cs' & Hn & ->)%create_org_ok. cbn in Hf.
  rewrite (proj2 (is_helium_netid_id (netid_id h)) ltac:(by exists h)) in Hn. destruct Hn as [-> Hne].
  assert (exists j, Z.to_nat k = (2 * j)%nat) as [j Ej] by (exists (Z.to_nat (k / 2)); mlia). rewrite Ej in E.
  destruct (decide (j = 0)%nat) as [->|Hj]; [pose proof (checkout_zero (used_devaddrs db) h) as E'; rewrite Nat.mul_0_r in E; by rewrite E in E'|].
  destruct (decide (2 * j <= length (free (used_devaddrs db) h))%nat) as [Hlen|Hlen].
  2:{ rewrite checkout_none in E; [done|apply Hi|lia]. }
  destruct (checkout_pairs (used_devaddrs db) h j) as (st & cs' & E' & Hcov & Hwf & Hok & Hp & Hu & Hm);
    [apply Hi|apply (li_pairs db Hi)|lia|done|].
  rewrite E' in E. injection E as <- <-.
  assert (as_i64 (as_u64 serial) = serial) as Es by (unfold as_i64, as_u64, as_signed, wrap; case_match; zbool; mlia).
  apply (leases_add db (as_u64 serial) h cs' st (<[serial := mkOrgRow owner payer false]> (organizations db)) ds);
    rewrite ?Hcov, ?Es; try done.
  - intros o Ho. destruct (decide (o = serial)) as [->|?]; [by rewrite lookup_insert_eq|by rewrite lookup_insert_ne].
  - by rewrite lookup_insert_eq.
  - intros r Hr Ho. destruct (li_org db Hi r Hr) as [? Hr']. congruence.
  - apply StronglySorted_lt_NoDup, StronglySorted_take, free_sorted.
  - apply take_free.
Qed.

Lemma as_i32_i32 z : is_i32 (as_i32 z).
Proof. unfold is_i32, as_i32, as_signed, wrap. case_match; zbool; mlia. Qed.

(** A new organization with a NetID that is not Helium's. *)
Lemma create_roamer_leases owner payer keys n cs serial db db' org :
  leases_inv db -> is_u32 n -> is_helium_netid n = false -> - 2 ^ 63 <= serial < 2 ^ 63 ->
  create_org owner payer keys n cs serial db = Ok (db', org) -> leases_inv db'.
Proof.
  intros Hi Hn Hh Hs (Hf & ds & cs' & Hc & ->)%create_org_ok. rewrite Hh in Hc. destruct Hc as [c ->].
  assert (as_i64 (as_u64 serial) = serial) as Es by (unfold as_i64, as_u64, as_signed, wrap; case_match; zbool; mlia).
  assert (forall h, field_to_i32 n <> PgLaws.row_id h) as Hne.
  { intros h E. unfold field_to_i32, PgLaws.row_id in E. apply (f_equal as_u32) in E. unfold field_to_i32 in E.
    assert (is_u32 (netid_id h)) by (unfold is_u32; destruct h; vm_compute; (split; [discriminate|reflexivity])).
    rewrite !as_u32_as_i32 in E by done. rewrite (proj2 (is_helium_netid_id n)) in Hh; [done|by exists h]. }
  set (row := constraint_row (as_u64 serial) n c). set (db' := set_constraint_rows _ _).
  assert (forall h, helium_rows db' h = helium_rows db h) as Hrows.
  { intros h. unfold helium_rows. cbn [constraint_rows db' set_constraint_rows set_delegate_rows set_organizations].
    rewrite List.filter_app, fmap_cons. cbn [List.filter fmap list_fmap co_net_id constraint_row].
    destruct (Z.eqb_spec (field_to_i32 n) (PgLaws.row_id h)) as [E|_]; [by apply Hne in E|]. apply app_nil_r. }
  assert (forall r, r ∈ constraint_rows db' <-> r ∈ constraint_rows db \/ r = row) as Hr.
  { intros r. cbn. by rewrite elem_of_app, list_elem_of_singleton. }
  assert (forall r, r ∈ constraint_rows db -> co_oui r <> serial) as Hold.
  { intros r Hr' <-. destruct (li_org db Hi r Hr'). congruence. }
  split; [apply Hi|apply Hi|intros h; unfold leased; rewrite Hrows; apply Hi|intros h; unfold leased; rewrite Hrows; apply (li_used db Hi)
    |intros h; rewrite Hrows; apply Hi|..].
  - intros r [Hr'| ->]%Hr; [by apply (li_int db Hi)|]. split; [|split]; apply as_i32_i32.
  - intros r [Hr'| ->]%Hr; cbn [organizations db' set_constraint_rows set_delegate_rows set_organizations].
    + rewrite lookup_insert_ne; [by apply (li_org db Hi)|]. intros E. by apply (Hold r Hr').
    + cbn [co_oui row constraint_row]. rewrite Es. by rewrite lookup_insert_eq.
  - intros r r' [H1| ->]%Hr [H2| ->]%Hr E; [by apply (li_netid db Hi)| | |done]; cbn [co_oui row constraint_row] in E; rewrite Es in E.
    + by apply Hold in E.
    + symmetry in E. by apply Hold in E.
Qed.
End Leases.

(** ** The last constraint *)

Section Floor.
Context {json : Type}.
Implicit Types db : config_db json.

(** A constraint as the table has it: the columns are [i32], the range is not empty. *)
Definition stored_constraint (r : ConstraintRow) : Prop :=
  as_i32 (co_start r) = co_start r /\ as_i32 (co_end r) = co_end r /\ as_u32 (co_start r) <= as_u32 (co_end r).

Definition removals (cs : list DevAddrConstraint) : list (option Update) := (fun c => Some (UConstraint Remove (Some c))) <$> cs.

Lemma release_some (store : gmap Z Z) h s e : s <= e -> exists store', release_addrs store h (addrs_between s e) = Ok store'.
Proof.
  intros H. cbn. unfold addrs_between. assert (seqZ s (e - s + 1) <> []) as Hne.
  { intros E%(f_equal length). rewrite length_seqZ in E. cbn in E. lia. }
  destruct (seqZ s (e - s + 1)); [done|by eexists].
Qed.

Lemma filter_matches oui c cs rows :
  List.filter (fun r => negb (matches_row oui cs r)) (List.filter (fun r => negb (matches_row oui [c] r)) rows) =
  List.filter (fun r => negb (matches_row oui (c :: cs) r)) rows.
Proof.
  induction rows as [|r rows IH]; [done|]. cbn [List.filter].
  assert (matches_row oui (c :: cs) r = matches_row oui [c] r || matches_row oui cs r) as -> by (cbn; by rewrite orb_false_r).
  destruct (matches_row oui [c] r); cbn [negb orb]; [exact IH|]. cbn [List.filter].
  destruct (matches_row oui cs r); cbn [negb]; [exact IH|by rewrite IH].
Qed.

Lemma removals_succeed oui n cs all db : is_helium_netid n = true -> (1 < length all)%nat -> cs ⊆ all ->
  Forall (fun c => field_to_u32 (start_addr c) <= field_to_u32 (end_addr c)) cs ->
  exists store, apply_updates oui Admin n (Some all) (removals cs) db =
    Ok (set_constraint_rows (set_used_devaddrs db store)
          (List.filter (fun r => negb (matches_row oui cs r)) (constraint_rows db))).
Proof.
  intros Hn Hl. revert db. induction cs as [|c cs IH]; intros db Hsub Hall.
  { exists (used_devaddrs db). destruct db as [? ? rows ? ? ? ? ? ?]. unfold set_constraint_rows, set_used_devaddrs. cbn.
    by rewrite forallb_filter_id by (by apply forallb_forall). }
  apply Forall_cons in Hall as [Hc Hall]. assert (exists h, helium_netid_try_from n = Ok h) as [h Hh].
  { unfold is_helium_netid in Hn. cbn in Hn. unfold helium_netid_try_from. repeat (destruct (_ =? _); [by eexists|]). done. }
  destruct (release_some (used_devaddrs db) h _ _ Hc) as [store1 Hs].
  set (db1 := set_constraint_rows (set_used_devaddrs db store1) (List.filter (fun r => negb (matches_row oui [c] r)) (constraint_rows db))).
  destruct (IH db1) as [store2 E]; [by intros x Hx; apply Hsub; right|done|]. exists store2. cbn [removals fmap list_fmap apply_updates].
  assert (apply_update oui Admin n (Some all) (Some (UConstraint Remove (Some c))) db = Ok db1) as ->.
  { cbn [apply_update]. rewrite Hn. unfold remove_constraint_update. rewrite Hh. cbn [map_err result_bind].
    rewrite (bool_decide_true (Admin = Admin)) by done. cbn [andb]. rewrite (bool_decide_true (c ∈ all)) by (apply Hsub; left). rewrite (proj2 (Z.ltb_lt _ _)) by lia. cbn [andb]. by rewrite Hs. }
  cbn [result_bind]. fold (removals cs). rewrite E. unfold db1. destruct db as [? ? rows ? ? ? ? ? ?]. cbn [constraint_rows set_constraint_rows].
  rewrite filter_matches. done.
Qed.

Lemma matches_own oui cs r : stored_constraint r -> co_oui r = as_i64 oui -> constraint_of_row r ∈ cs -> matches_row oui cs r = true.
Proof.
  intros (Hs & He & _) Ho Hin. apply existsb_exists. exists (constraint_of_row r). split; [by apply list_elem_of_In|].
  cbn. unfold field_to_i32, field_from_i32. rewrite !as_i32_of_u32, Hs, He, Ho, !Z.eqb_refl. done.
Qed.

(** The check that an organization keeps a constraint looks at the constraints
    it had before the request.  An administrator's request that removes each of
    two or more constraints is accepted and leaves the organization with none;
    its NetID, which is read from its constraints, is lost with them, and every
    later update of the organization is refused. *)
Theorem constraint_floor_bypassed oui db cache org n :
  get_org oui db = Some org -> get_org_netid oui db = Ok n -> is_helium_netid n = true ->
  Forall stored_constraint (constraint_rows db) -> (1 < length (default [] (o_constraints org)))%nat ->
  exists db' org', update_org oui Admin (removals (default [] (o_constraints org))) db cache = Ok (db', cache, org') /\
    o_constraints org' = Some [] /\
    forall authorizer updates cache', update_org oui authorizer updates db' cache' = Err (FetchOrg RowNotFound).
Proof.
  intros Hg Hn Hh Hst Hl. unfold get_org in Hg. apply fmap_Some in Hg as (row & Hrow & ->). cbn [o_constraints org_from_row default] in *.
  set (cs := constraint_of_row <$> org_constraints db (as_i64 oui)) in *. rewrite Forall_forall in Hst.
  assert (forall r, r ∈ org_constraints db (as_i64 oui) -> stored_constraint r /\ co_oui r = as_i64 oui) as Hrows.
  { intros r Hr. unfold org_constraints in Hr. apply list_elem_of_In, filter_In in Hr as [Hr%list_elem_of_In Ho%Z.eqb_eq]. by split; [apply Hst|]. }
  destruct (removals_succeed oui n cs cs db Hh Hl) as [store Ha]; [done| |].
  { apply Forall_forall. intros c (r & -> & [(_ & _ & Hr) _]%Hrows)%list_elem_of_fmap. cbn. unfold field_to_u32, field_from_i32.
    unfold as_u32, wrap in *. by rewrite !Zmod_mod. }
  set (db' := set_constraint_rows _ _) in Ha.
  assert (org_constraints db' (as_i64 oui) = []) as Hnone.
  { apply elem_of_nil_inv. intros r [[Hr Hm%negb_true_iff]%elem_of_filter_bool Ho%Z.eqb_eq]%elem_of_filter_bool.
    assert (r ∈ org_constraints db (as_i64 oui)) as Hin by (apply elem_of_filter_bool; split; [done|by apply Z.eqb_eq]).
    rewrite (matches_own oui cs r) in Hm; [done|by apply Hrows|done|by apply list_elem_of_fmap_2]. }
  assert (organizations db' !! as_i64 oui = Some row) as Hrow' by done.
  exists db', (org_from_row db' (as_i64 oui) row). split; [|split].
  - unfold update_org, get_org. rewrite Hrow. cbn [fmap option_fmap option_map ok_or result_bind]. rewrite Hn. cbn [map_err result_bind o_constraints org_from_row].
    fold cs. change (id cs) with cs. rewrite Ha. cbn [result_bind]. rewrite Hrow'. cbn [fmap option_fmap option_map ok_or result_bind]. do 3 f_equal.
    clear. induction cs as [|c l IH]; [done|exact IH].
  - cbn [o_constraints org_from_row]. by rewrite Hnone.
  - intros auth us cache'. unfold update_org, get_org, get_org_netid. rewrite Hrow', Hnone. done.
Qed.
End Floor.
