(* ===== verification/ConfigRoutes.v ===== *)
(** * Routes

    [iot_config/src/route.rs] and [db_cleaner.rs]: routes with their servers and
    protocols, the message types they are converted to, and the operations on the
    tables of routes, EUI pairs, device address ranges and session key filters,
    each with the updates it broadcasts to the subscribers of the route stream. *)

From S2P Require Import Prelude Solana FileStoreTypes LoraField HeliumNetids ConfigTables ConfigOrgs.

(** ** Data *)

(** [helium_proto::Region] *)
Class Regions : Type := {
  region : Type;
  region_eq_dec :: EqDecision region;
  region_countable :: Countable region;
  region_enum :: ProtoEnum region;
  Us915 : region;
  UnknownRegion : region
}.

Inductive FlowType : Type := Sync | Async.
Inductive FlowTypeV1 : Type := SyncV1 | AsyncV1.

Record Http : Type := mkHttp {
  h_flow_type : FlowType;
  h_dedupe_timeout : Z;
  h_path : string;
  h_auth_header : string;
  h_receiver_nsid : string
}.

Inductive RouteServerError : Type := NoProtocol | RegionMappingFailure | HttpDetailsFailure.

Section Data.
Context `{!Regions, !ProtoEnum FlowTypeV1}.

Abbreviation GwmpMap := (gmap region Z).

Inductive Protocol : Type := Gwmp (mapping : GwmpMap) | HttpRoaming (http : Http) | PacketRouterP.

Record RouteServer : Type := mkRouteServer { s_host : string; s_port : Z; s_protocol : option Protocol }.

Record Route : Type := mkRoute {
  r_id : string;
  r_net_id : NetIdField;
  r_oui : Z;
  r_server : RouteServer;
  r_max_copies : Z;
  r_active : bool;
  r_locked : bool;
  r_ignore_empty_skf : bool
}.

Definition default_server : RouteServer := mkRouteServer "" 0 None.

Definition route_new (net_id : NetIdField) (oui max_copies : Z) : Route :=
  mkRoute "" net_id oui default_server max_copies true false false.

(** ** Servers *)

Definition protocol_add_mapping (p : Protocol) (map : GwmpMap) : result Protocol RouteServerError :=
  match p with
  | Gwmp mapping => Ok (Gwmp (map ∪ mapping))
  | HttpRoaming _ => Err RegionMappingFailure
  | PacketRouterP => Err RegionMappingFailure
  end.

Definition protocol_http_update (p : Protocol) (http : Http) : result Protocol RouteServerError :=
  match p with
  | HttpRoaming _ => Ok (HttpRoaming http)
  | Gwmp _ => Err HttpDetailsFailure
  | PacketRouterP => Err HttpDetailsFailure
  end.

Definition server_add_mapping (s : RouteServer) (map : GwmpMap) : result RouteServer RouteServerError :=
  match s_protocol s with
  | Some protocol => let? p := protocol_add_mapping protocol map in Ok (mkRouteServer (s_host s) (s_port s) (Some p))
  | None => Err NoProtocol
  end.

Definition server_http_update (s : RouteServer) (http : Http) : result RouteServer RouteServerError :=
  match s_protocol s with
  | Some protocol => let? p := protocol_http_update protocol http in Ok (mkRouteServer (s_host s) (s_port s) (Some p))
  | None => Err NoProtocol
  end.

Definition default_gwmp : Protocol := Gwmp ∅.

Definition make_gwmp (r : region) (port : Z) : result Protocol RouteServerError :=
  protocol_add_mapping default_gwmp {[r := port]}.

(** ** Messages *)

Inductive ProtocolV1 : Type :=
| GwmpV1 (mapping : list (Z * Z))
| HttpRoamingV1 (flow_type dedupe_timeout : Z) (path auth_header receiver_nsid : string)
| PacketRouterV1.

Record ServerV1 : Type := mkServerV1 { sv_host : string; sv_port : Z; sv_protocol : option ProtocolV1 }.

Record RouteV1 : Type := mkRouteV1 {
  rv_id : string;
  rv_net_id : Z;
  rv_oui : Z;
  rv_server : option ServerV1;
  rv_max_copies : Z;
  rv_active : bool;
  rv_locked : bool;
  rv_ignore_empty_skf : bool
}.

Definition flow_type_from_v1 (ft : FlowTypeV1) : FlowType := match ft with SyncV1 => Sync | AsyncV1 => Async end.
Definition flow_type_into_v1 (ft : FlowType) : FlowTypeV1 := match ft with Sync => SyncV1 | Async => AsyncV1 end.

(** [FlowType::from_i32] *)
Definition flow_type_from_i32 (v : Z) : option FlowType := flow_type_from_v1 <$> from_i32 v.

Definition protocol_into_v1 (p : Protocol) : ProtocolV1 :=
  match p with
  | Gwmp mapping => GwmpV1 ((fun kv => (to_i32 kv.1, kv.2)) <$> map_to_list mapping)
  | HttpRoaming http =>
      HttpRoamingV1 (to_i32 (flow_type_into_v1 (h_flow_type http))) (h_dedupe_timeout http) (h_path http)
        (h_auth_header http) (h_receiver_nsid http)
  | PacketRouterP => PacketRouterV1
  end.

Definition protocol_from_v1 (proto : ProtocolV1) : Protocol :=
  match proto with
  | GwmpV1 mapping =>
      Gwmp (fold_left (fun m entry => <[default Us915 (from_i32 entry.1) := entry.2]> m) mapping ∅)
  | HttpRoamingV1 ft dt path auth nsid =>
      HttpRoaming (mkHttp (default Sync (flow_type_from_i32 ft)) dt path auth nsid)
  | PacketRouterV1 => PacketRouterP
  end.

Definition server_into_v1 (s : RouteServer) : ServerV1 :=
  mkServerV1 (s_host s) (s_port s) (protocol_into_v1 <$> s_protocol s).

Definition server_from_v1 (s : ServerV1) : RouteServer :=
  mkRouteServer (sv_host s) (sv_port s) (protocol_from_v1 <$> sv_protocol s).

Definition route_into_v1 (r : Route) : RouteV1 :=
  mkRouteV1 (r_id r) (field_to_u32 (r_net_id r)) (r_oui r) (Some (server_into_v1 (r_server r)))
    (r_max_copies r) (r_active r) (r_locked r) (r_ignore_empty_skf r).

Definition route_from_v1 (r : RouteV1) : Route :=
  mkRoute (rv_id r) (field_from_u32 (rv_net_id r)) (rv_oui r)
    (match rv_server r with Some s => server_from_v1 s | None => default_server end)
    (rv_max_copies r) (rv_active r) (rv_locked r) (rv_ignore_empty_skf r).
End Data.
Arguments Protocol {_}. Arguments RouteServer {_}. Arguments Route {_}.

Record EuiPair : Type := mkEuiPair { eui_route_id : string; app_eui : EuiField; dev_eui : EuiField }.
Record EuiPairV1 : Type := mkEuiPairV1 { ev_route_id : string; ev_app_eui : Z; ev_dev_eui : Z }.
Record DevaddrRangeV1 : Type := mkDevaddrRangeV1 { dv_route_id : string; dv_start_addr : Z; dv_end_addr : Z }.
Record Skf : Type := mkSkf {
  skf_route_id : string;
  skf_devaddr : DevAddrField;
  skf_session_key : string;
  skf_max_copies : Z
}.
Record SkfV1 : Type := mkSkfV1 {
  fv_route_id : string;
  fv_devaddr : Z;
  fv_session_key : string;
  fv_max_copies : Z
}.

Definition eui_into_v1 (e : EuiPair) : EuiPairV1 :=
  mkEuiPairV1 (eui_route_id e) (field_to_u64 (app_eui e)) (field_to_u64 (dev_eui e)).
Definition eui_from_v1 (e : EuiPairV1) : EuiPair :=
  mkEuiPair (ev_route_id e) (field_from_u64 (ev_app_eui e)) (field_from_u64 (ev_dev_eui e)).
Definition range_into_v1 (r : DevAddrRange) : DevaddrRangeV1 :=
  mkDevaddrRangeV1 (range_route_id r) (field_to_u32 (range_start_addr r)) (field_to_u32 (range_end_addr r)).
Definition range_from_v1 (r : DevaddrRangeV1) : DevAddrRange :=
  mkDevAddrRange (dv_route_id r) (field_from_u32 (dv_start_addr r)) (field_from_u32 (dv_end_addr r)).
Definition skf_into_v1 (s : Skf) : SkfV1 :=
  mkSkfV1 (skf_route_id s) (field_to_u32 (skf_devaddr s)) (skf_session_key s) (skf_max_copies s).

(** ** Errors and updates *)

Inductive RouteStorageError : Type :=
| StorageError (e : SqlError)
| UuidParse
| ProtocolSerde
| ServerProtocol.

(** [route_stream_res_v1::Data] *)
Inductive StreamData `{!Regions} : Type :=
| DRoute (r : RouteV1)
| DEui (e : EuiPairV1)
| DRange (r : DevaddrRangeV1)
| DSkf (s : SkfV1).

(** [RouteStreamResV1] *)
Abbreviation RouteStreamRes := (signed (ActionV1 * StreamData)).

(** [json!(&protocol)] and [serde_json::from_value]. *)
Class ProtocolJson `{!Regions} (json : Type) : Type := {
  json_eq_dec :: EqDecision json;
  to_json : Protocol -> json;
  from_json : json -> option Protocol;
  from_to_json p : from_json (to_json p) = Some p
}.

Section Routes.
Context `{!Regions, !ProtoEnum FlowTypeV1, !Uuids, !Crypto} {json : Type} `{!ProtocolJson json, !Encode RouteStreamRes}.
Implicit Types db : config_db json.

(** An update as it is broadcast; none when signing it fails. *)
Definition stream_update (now : Z) (action : ActionV1) (data : StreamData) : option RouteStreamRes :=
  match sign_response (action, data) now with Ok m => Some m | Err _ => None end.

(** The updates up to the first that cannot be signed ([try_for_each]). *)
Fixpoint stream_updates (now : Z) (l : list (ActionV1 * StreamData)) : list RouteStreamRes :=
  match l with
  | [] => []
  | (a, d) :: rest => match stream_update now a d with Some m => m :: stream_updates now rest | None => [] end
  end.

(** [set_updated_at]: [updated_at] changes when the row does. *)
Definition touch_route (now : Z) (old new : RouteRow json) : RouteRow json :=
  if decide (old = new) then old
  else mkRouteRow (rr_oui new) (rr_net_id new) (rr_max_copies new) (rr_host new) (rr_port new) (rr_opts new)
         (rr_active new) (rr_ignore_empty_skf new) (rr_deleted new) now.

(** A row of [routes] joined with its organization. *)
Definition route_of_row db (id : Uuid) (row : RouteRow json) : option Route :=
  org ← organizations db !! rr_oui row;
  protocol ← from_json (rr_opts row);
  Some (mkRoute id (field_from_i32 (rr_net_id row)) (as_u64 (rr_oui row))
          (mkRouteServer (rr_host row) (as_u32 (rr_port row)) (Some protocol))
          (as_u32 (rr_max_copies row)) (rr_active row) (og_locked org) (rr_ignore_empty_skf row)).

Definition get_route (id : string) db : result Route RouteStorageError :=
  let? uuid := ok_or (uuid_parse id) UuidParse in
  let? row := ok_or (row ← routes db !! uuid; if rr_deleted row then None else Some row) (StorageError RowNotFound) in
  let? _ := ok_or (organizations db !! rr_oui row) (StorageError RowNotFound) in
  ok_or (route_of_row db uuid row) ProtocolSerde.

(** [create_route]; [id] is the value of [uuid_generate_v1mc()]. *)
Definition create_route (route : Route) (id : Uuid) (now : Z) db
  : result (config_db json * list RouteStreamRes * Route) RouteStorageError :=
  let? protocol_opts := ok_or (s_protocol (r_server route)) ServerProtocol in
  let row := mkRouteRow (as_i64 (r_oui route)) (field_to_i32 (r_net_id route)) (as_i32 (r_max_copies route))
               (s_host (r_server route)) (as_i32 (s_port (r_server route))) (to_json protocol_opts)
               (r_active route) (r_ignore_empty_skf route) false now in
  let? db :=
    match routes db !! id, organizations db !! rr_oui row with
    | Some _, _ => Err (StorageError UniqueViolated)
    | None, None => Err (StorageError ForeignKeyViolated)
    | None, Some _ => Ok (set_routes db (<[id := row]> (routes db)))
    end in
  let? new_route := get_route id db in
  Ok (db, stream_updates now [(Add, DRoute (route_into_v1 new_route))], new_route).

Definition update_route (route : Route) (now : Z) db
  : result (config_db json * list RouteStreamRes * Route) RouteStorageError :=
  let? protocol_opts := ok_or (s_protocol (r_server route)) ServerProtocol in
  let? uuid := ok_or (uuid_parse (r_id route)) UuidParse in
  let set old := mkRouteRow (rr_oui old) (rr_net_id old) (as_i32 (r_max_copies route)) (s_host (r_server route))
                   (as_i32 (s_port (r_server route))) (to_json protocol_opts) (r_active route)
                   (r_ignore_empty_skf route) (rr_deleted old) (rr_updated_at old) in
  let db := set_routes db (alter (fun old => touch_route now old (set old)) uuid (routes db)) in
  let? updated_route := get_route (r_id route) db in
  Ok (db, stream_updates now [(Add, DRoute (route_into_v1 updated_route))], updated_route).

Definition delete_route (id : string) (now : Z) db : result (config_db json * list RouteStreamRes) RouteStorageError :=
  let? uuid := ok_or (uuid_parse id) UuidParse in
  let? route := get_route id db in
  let set old := mkRouteRow (rr_oui old) (rr_net_id old) (rr_max_copies old) (rr_host old) (rr_port old) (rr_opts old)
                   (rr_active old) (rr_ignore_empty_skf old) true (rr_updated_at old) in
  Ok (set_routes db (alter (fun old => touch_route now old (set old)) uuid (routes db)),
      stream_updates now [(Remove, DRoute (route_into_v1 route))]).

(** ** The tables that belong to routes *)

Section Child.
Context {K V : Type} `{!EqDecision K, !Countable K, !EqDecision V}.
Implicit Types t : gmap (Uuid * K) (tracked V).

(** One row of [insert ... on conflict ... do update set ..., deleted = false]. *)
Definition upsert_row (now : Z) t (kv : (Uuid * K) * V) : gmap (Uuid * K) (tracked V) :=
  match t !! kv.1 with
  | None => <[kv.1 := mkTracked kv.2 false now]> t
  | Some r => if decide (tk_value r = kv.2 /\ tk_deleted r = false) then t else <[kv.1 := mkTracked kv.2 false now]> t
  end.

(** The statement fails as a whole when a route is missing or a row comes twice;
    it returns its rows. *)
Definition upsert_rows (now : Z) (known : gmap Uuid (RouteRow json)) (l : list ((Uuid * K) * V)) t
  : result (gmap (Uuid * K) (tracked V) * list ((Uuid * K) * V)) SqlError :=
  if decide (NoDup l.*1) then
    if forallb (fun kv => bool_decide (is_Some (known !! kv.1.1))) l then Ok (fold_left (upsert_row now) l t, l)
    else Err ForeignKeyViolated
  else Err AffectedTwice.

(** One row of [update ... set deleted = true where ... in ...]. *)
Definition mark_row (now : Z) t (k : Uuid * K) : gmap (Uuid * K) (tracked V) :=
  match t !! k with
  | Some r => if tk_deleted r then t else <[k := mkTracked (tk_value r) true now]> t
  | None => t
  end.

Definition mark_rows (now : Z) (l : list (Uuid * K)) t : gmap (Uuid * K) (tracked V) * list ((Uuid * K) * V) :=
  (fold_left (mark_row now) l t, omap (fun k => (fun r => (k, tk_value r)) <$> t !! k) (remove_dups l)).

(** The rows of a route that are not deleted. *)
Definition live_rows (uuid : Uuid) t : list ((Uuid * K) * V) :=
  omap (fun kr => if bool_decide (kr.1.1 = uuid) && negb (tk_deleted kr.2) then Some (kr.1, tk_value kr.2) else None)
    (map_to_list t).

(** The rows changed since a time whose route is not deleted, with their mark. *)
Definition changed_rows (known : gmap Uuid (RouteRow json)) (since : Z) t : list (((Uuid * K) * V) * bool) :=
  omap (fun kr =>
      match known !! kr.1.1 with
      | Some route => if (since <=? tk_updated_at kr.2) && negb (rr_deleted route)
                      then Some ((kr.1, tk_value kr.2), tk_deleted kr.2) else None
      | None => None
      end) (map_to_list t).

(** [delete from ... where deleted = true and updated_at < $1] *)
Definition purge_rows (timestamp : Z) t : gmap (Uuid * K) (tracked V) :=
  filter (fun kr => ~ (tk_deleted kr.2 = true /\ tk_updated_at kr.2 < timestamp)) t.

(** [on delete cascade] *)
Definition cascade_rows (known : gmap Uuid (RouteRow json)) t : gmap (Uuid * K) (tracked V) :=
  filter (fun kr => is_Some (known !! kr.1.1)) t.
End Child.

(** The values bound for each kind of row and what a returned row is read as. *)
Definition eui_values (e : EuiPair) : result ((Uuid * (Z * Z)) * unit) RouteStorageError :=
  let? uuid := ok_or (uuid_parse (eui_route_id e)) UuidParse in
  Ok ((uuid, (field_to_i64 (app_eui e), field_to_i64 (dev_eui e))), tt).
Definition eui_of_row (kv : (Uuid * (Z * Z)) * unit) : EuiPair :=
  mkEuiPair kv.1.1 (field_from_i64 kv.1.2.1) (field_from_i64 kv.1.2.2).

Definition range_values (r : DevAddrRange) : result ((Uuid * (Z * Z)) * unit) RouteStorageError :=
  let? uuid := ok_or (uuid_parse (range_route_id r)) UuidParse in
  Ok ((uuid, (field_to_i32 (range_start_addr r), field_to_i32 (range_end_addr r))), tt).
Definition range_of_row (kv : (Uuid * (Z * Z)) * unit) : DevAddrRange :=
  mkDevAddrRange kv.1.1 (field_from_i32 kv.1.2.1) (field_from_i32 kv.1.2.2).

Definition skf_values (s : Skf) : result ((Uuid * (Z * string)) * Z) RouteStorageError :=
  let? uuid := ok_or (uuid_parse (skf_route_id s)) UuidParse in
  Ok ((uuid, (field_to_i32 (skf_devaddr s), skf_session_key s)), as_i32 (skf_max_copies s)).
Definition skf_of_row (kv : (Uuid * (Z * string)) * Z) : Skf :=
  mkSkf kv.1.1 (field_from_i32 kv.1.2.1) kv.1.2.2 (as_u32 kv.2).

(** [collect::<Result<Vec<_>, _>>()] *)
Fixpoint collect_ok {A B E} (f : A -> result B E) (l : list A) : result (list B) E :=
  match l with
  | [] => Ok []
  | a :: rest => let? b := f a in let? bs := collect_ok f rest in Ok (b :: bs)
  end.

Definition insert_euis (euis : list EuiPair) (now : Z) db : result (config_db json * list EuiPair) RouteStorageError :=
  match euis with
  | [] => Ok (db, [])
  | _ => let? vals := collect_ok eui_values euis in
         let? tr := map_err StorageError (upsert_rows now (routes db) vals (route_eui_pairs db)) in
         Ok (set_euis db tr.1, eui_of_row <$> tr.2)
  end.

Definition remove_euis (euis : list EuiPair) (now : Z) db : result (config_db json * list EuiPair) RouteStorageError :=
  match euis with
  | [] => Ok (db, [])
  | _ => let? vals := collect_ok eui_values euis in
         let tr := mark_rows now vals.*1 (route_eui_pairs db) in
         Ok (set_euis db tr.1, eui_of_row <$> tr.2)
  end.

Definition update_euis (to_add to_remove : list EuiPair) (now : Z) db
  : result (config_db json * list RouteStreamRes) RouteStorageError :=
  let? added := insert_euis to_add now db in
  let? removed := remove_euis to_remove now added.1 in
  Ok (removed.1, stream_updates now (((fun e => (Add, DEui (eui_into_v1 e))) <$> added.2) ++
                                     ((fun e => (Remove, DEui (eui_into_v1 e))) <$> removed.2))).

Definition insert_devaddr_ranges (ranges : list DevAddrRange) (now : Z) db
  : result (config_db json * list DevAddrRange) RouteStorageError :=
  match ranges with
  | [] => Ok (db, [])
  | _ => let? vals := collect_ok range_values ranges in
         let? tr := map_err StorageError (upsert_rows now (routes db) vals (route_devaddr_ranges db)) in
         Ok (set_ranges db tr.1, range_of_row <$> tr.2)
  end.

Definition remove_devaddr_ranges (ranges : list DevAddrRange) (now : Z) db
  : result (config_db json * list DevAddrRange) RouteStorageError :=
  match ranges with
  | [] => Ok (db, [])
  | _ => let? vals := collect_ok range_values ranges in
         let tr := mark_rows now vals.*1 (route_devaddr_ranges db) in
         Ok (set_ranges db tr.1, range_of_row <$> tr.2)
  end.

Definition update_devaddr_ranges (to_add to_remove : list DevAddrRange) (now : Z) db
  : result (config_db json * list RouteStreamRes) RouteStorageError :=
  let? added := insert_devaddr_ranges to_add now db in
  let? removed := remove_devaddr_ranges to_remove now added.1 in
  Ok (removed.1, stream_updates now (((fun r => (Add, DRange (range_into_v1 r))) <$> added.2) ++
                                     ((fun r => (Remove, DRange (range_into_v1 r))) <$> removed.2))).

Definition insert_skfs (skfs : list Skf) (now : Z) db : result (config_db json * list Skf) RouteStorageError :=
  match skfs with
  | [] => Ok (db, [])
  | _ => let? vals := collect_ok skf_values skfs in
         let? tr := map_err StorageError (upsert_rows now (routes db) vals (route_session_key_filters db)) in
         Ok (set_skfs db tr.1, skf_of_row <$> tr.2)
  end.

Definition remove_skfs (skfs : list Skf) (now : Z) db : result (config_db json * list Skf) RouteStorageError :=
  match skfs with
  | [] => Ok (db, [])
  | _ => let? vals := collect_ok skf_values skfs in
         let tr := mark_rows now vals.*1 (route_session_key_filters db) in
         Ok (set_skfs db tr.1, skf_of_row <$> tr.2)
  end.

(** The removals run first and are broadcast last. *)
Definition update_skfs (to_add to_remove : list Skf) (now : Z) db
  : result (config_db json * list RouteStreamRes) RouteStorageError :=
  let? removed := remove_skfs to_remove now db in
  let? added := insert_skfs to_add now removed.1 in
  Ok (added.1, stream_updates now (((fun s => (Add, DSkf (skf_into_v1 s))) <$> added.2) ++
                                   ((fun s => (Remove, DSkf (skf_into_v1 s))) <$> removed.2))).

(** ** Queries *)

(** Rows whose protocol cannot be read are skipped. *)
Definition list_routes (oui : Z) db : list Route :=
  omap (fun kr => if (rr_oui kr.2 =? as_i64 oui) && negb (rr_deleted kr.2) then route_of_row db kr.1 kr.2 else None)
    (map_to_list (routes db)).

Definition list_euis_for_route (id : string) db : result (list EuiPair) RouteStorageError :=
  let? uuid := ok_or (uuid_parse id) UuidParse in Ok (eui_of_row <$> live_rows uuid (route_eui_pairs db)).

Definition list_devaddr_ranges_for_route (id : string) db : result (list DevAddrRange) RouteStorageError :=
  let? uuid := ok_or (uuid_parse id) UuidParse in Ok (range_of_row <$> live_rows uuid (route_devaddr_ranges db)).

Definition list_skfs_for_route (id : string) db : result (list Skf) RouteStorageError :=
  let? uuid := ok_or (uuid_parse id) UuidParse in Ok (skf_of_row <$> live_rows uuid (route_session_key_filters db)).

Definition list_skfs_for_route_and_devaddr (id : string) (devaddr : DevAddrField) db : result (list Skf) RouteStorageError :=
  let? uuid := ok_or (uuid_parse id) UuidParse in
  Ok (skf_of_row <$> List.filter (fun kv => kv.1.2.1 =? field_to_i32 devaddr) (live_rows uuid (route_session_key_filters db))).

Definition route_stream (since : Z) db : list (Route * bool) :=
  omap (fun kr => if since <=? rr_updated_at kr.2 then (fun r => (r, rr_deleted kr.2)) <$> route_of_row db kr.1 kr.2 else None)
    (map_to_list (routes db)).

Definition eui_stream (since : Z) db : list (EuiPair * bool) :=
  (fun kd => (eui_of_row kd.1, kd.2)) <$> changed_rows (routes db) since (route_eui_pairs db).

Definition devaddr_range_stream (since : Z) db : list (DevAddrRange * bool) :=
  (fun kd => (range_of_row kd.1, kd.2)) <$> changed_rows (routes db) since (route_devaddr_ranges db).

Definition skf_stream (since : Z) db : list (Skf * bool) :=
  (fun kd => (skf_of_row kd.1, kd.2)) <$> changed_rows (routes db) since (route_session_key_filters db).

(** ** [db_cleaner.rs] *)

Definition delete_skfs (timestamp : Z) db : config_db json :=
  set_skfs db (purge_rows timestamp (route_session_key_filters db)).
Definition delete_devaddr_ranges (timestamp : Z) db : config_db json :=
  set_ranges db (purge_rows timestamp (route_devaddr_ranges db)).
Definition delete_euis (timestamp : Z) db : config_db json :=
  set_euis db (purge_rows timestamp (route_eui_pairs db)).

Definition delete_routes (timestamp : Z) db : config_db json :=
  let known := filter (fun kr => ~ (rr_deleted kr.2 = true /\ rr_updated_at kr.2 < timestamp)) (routes db) in
  set_skfs (set_ranges (set_euis (set_routes db known) (cascade_rows known (route_eui_pairs db)))
              (cascade_rows known (route_devaddr_ranges db)))
    (cascade_rows known (route_session_key_filters db)).

(** One tick of [DbCleaner::run]. *)
Definition db_cleaner_tick (now deleted_entry_retention : Z) db : config_db json :=
  let timestamp := now - deleted_entry_retention in
  delete_routes timestamp (delete_euis timestamp (delete_devaddr_ranges timestamp (delete_skfs timestamp db))).
End Routes.
