(* ===== verification/ConfigRouteService.v ===== *)
(** * The route service

    [iot_config/src/route_service.rs]: the handlers of the [Route] service, the
    validator of batched updates and the streaming of the current configuration.
    A handler returns the database it leaves, the updates it hands to the
    broadcast channel and its reply.  The theorems: a row of EUI pairs or device
    address ranges changes only by an update that an administrator or a key of
    the organization that owns the route signed, and a range becomes active only
    inside a constraint of that organization. *)

From S2P Require Import Prelude Solana FileStoreTypes LoraField HeliumNetids ConfigTables ConfigOrgs ConfigRoutes.

Definition UPDATE_BATCH_LIMIT : nat := 5000.
Definition SKF_UPDATE_LIMIT : Z := 100.

(** ** Requests *)

Record RouteReq (A : Type) : Type := mkReq { rq_body : A; rq_signer : string; rq_signature : string }.
Arguments mkReq {A}. Arguments rq_body {A}. Arguments rq_signer {A}. Arguments rq_signature {A}.

(** The bodies of the requests, with the fields the handlers read. *)
Inductive RouteListReq : Type := RouteListReqV1 (oui : Z).
Inductive RouteGetReq : Type := RouteGetReqV1 (id : string).
Inductive RouteCreateReq `{!Regions} : Type := RouteCreateReqV1 (oui : Z) (route : option RouteV1).
Inductive RouteUpdateReq `{!Regions} : Type := RouteUpdateReqV1 (route : option RouteV1).
Inductive RouteDeleteReq : Type := RouteDeleteReqV1 (id : string).
Inductive RouteStreamReq : Type := RouteStreamReqV1 (since : Z).
Inductive RouteGetEuisReq : Type := RouteGetEuisReqV1 (route_id : string).
Inductive RouteGetDevaddrRangesReq : Type := RouteGetDevaddrRangesReqV1 (route_id : string).
Inductive RouteSkfListReq : Type := RouteSkfListReqV1 (route_id : string).
Inductive RouteSkfGetReq : Type := RouteSkfGetReqV1 (route_id : string) (devaddr : Z).
Record RouteSkfUpdateV1 : Type := mkSkfUpdate {
  su_action : ActionV1;
  su_devaddr : Z;
  su_session_key : string;
  su_max_copies : Z
}.
Inductive RouteSkfUpdateReq : Type := RouteSkfUpdateReqV1 (route_id : string) (updates : list RouteSkfUpdateV1).
Inductive RouteUpdateEuisReq : Type := RouteUpdateEuisReqV1 (action : ActionV1) (eui_pair : option EuiPairV1).
Inductive RouteUpdateDevaddrRangesReq : Type :=
  RouteUpdateDevaddrRangesReqV1 (action : ActionV1) (devaddr_range : option DevaddrRangeV1).

(** Signatures of all kinds of requests. *)
Class RouteVerify `{!Regions} : Type := {
  verify_list :: MsgVerify (RouteReq RouteListReq);
  verify_get :: MsgVerify (RouteReq RouteGetReq);
  verify_create :: MsgVerify (RouteReq RouteCreateReq);
  verify_update :: MsgVerify (RouteReq RouteUpdateReq);
  verify_delete :: MsgVerify (RouteReq RouteDeleteReq);
  verify_stream :: MsgVerify (RouteReq RouteStreamReq);
  verify_get_euis :: MsgVerify (RouteReq RouteGetEuisReq);
  verify_get_ranges :: MsgVerify (RouteReq RouteGetDevaddrRangesReq);
  verify_skf_list :: MsgVerify (RouteReq RouteSkfListReq);
  verify_skf_get :: MsgVerify (RouteReq RouteSkfGetReq);
  verify_skf_update :: MsgVerify (RouteReq RouteSkfUpdateReq);
  verify_update_euis :: MsgVerify (RouteReq RouteUpdateEuisReq);
  verify_update_ranges :: MsgVerify (RouteReq RouteUpdateDevaddrRangesReq)
}.

Class RouteEncode `{!Regions} : Type := {
  encode_update :: Encode RouteStreamRes;
  encode_route :: Encode (signed RouteV1);
  encode_routes :: Encode (signed (list RouteV1));
  encode_unit :: Encode (signed unit)
}.

Inductive OrgId : Type := Oui (oui : Z) | RouteId (route_id : string).

(** What a handler leaves behind. *)
Record outcome `{!Regions} (json A : Type) : Type := mkOutcome {
  oc_db : config_db json;
  oc_updates : list (list RouteStreamRes);
  oc_reply : result A Status
}.
Arguments mkOutcome {_ json A}. Arguments oc_db {_ json A}. Arguments oc_updates {_ json A}. Arguments oc_reply {_ json A}.

(** ** The validator *)

Record DevAddrEuiValidator : Type := mkValidator {
  va_route_ids : list string;
  va_constraints : option (list DevAddrConstraint);
  va_signing_keys : list string
}.

Inductive DevAddrEuiValidationError : Type :=
| DevAddrOutOfBounds | NoRouteId | UnauthorizedSignature | InvalidUpdateV.

(** [trait ValidateRouteComponent] *)
Class ValidateRouteComponent (R : Type) : Type := {
  component_route_id : R -> option string;
  component_range : R -> result (option DevAddrRange) unit
}.

#[export] Instance validate_euis : ValidateRouteComponent (RouteReq RouteUpdateEuisReq) := {
  component_route_id r := let '(RouteUpdateEuisReqV1 _ p) := rq_body r in ev_route_id <$> p;
  component_range _ := Ok None
}.

#[export] Instance validate_ranges : ValidateRouteComponent (RouteReq RouteUpdateDevaddrRangesReq) := {
  component_route_id r := let '(RouteUpdateDevaddrRangesReqV1 _ p) := rq_body r in dv_route_id <$> p;
  component_range r := let '(RouteUpdateDevaddrRangesReqV1 _ p) := rq_body r in
                       match p with Some d => Ok (Some (range_from_v1 d)) | None => Err tt end
}.

(** [slice::swap(idx, 0)] *)
Definition swap_front {A} (idx : nat) (l : list A) : list A :=
  match l !! idx, l !! 0%nat with
  | Some a, Some b => <[idx := b]> (<[0%nat := a]> l)
  | _, _ => l
  end.

Fixpoint find_index {A} (f : A -> bool) (l : list A) : option nat :=
  match l with
  | [] => None
  | a :: rest => if f a then Some 0%nat else S <$> find_index f rest
  end.

Section Validate.
Context {R : Type} `{!MsgVerify R, !ValidateRouteComponent R}.

Definition validate_owned_route (update : R) (route_ids : list string) : result R DevAddrEuiValidationError :=
  let? update_id := ok_or (component_route_id update) InvalidUpdateV in
  if bool_decide (update_id ∈ route_ids) then Ok update else Err NoRouteId.

Definition validate_range_bounds (update : R) (constraints : option (list DevAddrConstraint))
  : result R DevAddrEuiValidationError :=
  match constraints with
  | Some constraints =>
      match component_range update with
      | Ok (Some range) => if existsb (fun c => contains_range c range) constraints then Ok update else Err DevAddrOutOfBounds
      | Ok None => Ok update
      | Err _ => Err InvalidUpdateV
      end
  | None => Ok update
  end.

Definition validate_signature (request : R) (signing_keys : list string)
  : list string * result R DevAddrEuiValidationError :=
  match find_index (verify_msg request) signing_keys with
  | Some idx => (swap_front idx signing_keys, Ok request)
  | None => (signing_keys, Err UnauthorizedSignature)
  end.

(** [DevAddrEuiValidator::validate_update] *)
Definition validate_update (v : DevAddrEuiValidator) (request : R) : DevAddrEuiValidator * result R Status :=
  match (let? u := validate_owned_route request (va_route_ids v) in validate_range_bounds u (va_constraints v)) with
  | Err _ => (v, Err InvalidArgument)
  | Ok u =>
      let '(keys, r) := validate_signature u (va_signing_keys v) in
      (mkValidator (va_route_ids v) (va_constraints v) keys, map_err (fun _ => InvalidArgument) r)
  end.
End Validate.

Section Service.
Context `{!Regions, !ProtoEnum FlowTypeV1, !Uuids, !Crypto, !Chrono} {json : Type} `{!ProtocolJson json, !RouteVerify, !RouteEncode}.
Implicit Types db : config_db json.

(** [DevAddrEuiValidator::new] *)
Definition validator_new (route_id : string) (admin_keys : list string) db (check_constraints : bool)
  : result DevAddrEuiValidator OrgStoreError :=
  let? constraints := (if check_constraints then let? c := get_constraints_by_route route_id db in Ok (Some c) else Ok None) in
  let? org_keys := get_org_pubkeys_by_route route_id db in
  let? route_ids := get_route_ids_by_route route_id db in
  Ok (mkValidator route_ids constraints (org_keys ++ admin_keys)).

Definition update_validator (cache : CacheKeys) (route_id : string) (check_constraints : bool) db
  : result DevAddrEuiValidator OrgStoreError :=
  validator_new route_id (get_keys_by_type cache Administrator) db check_constraints.

(** ** Authorization *)

Definition verify_request_signature {R} `{!MsgVerify R} (cache : CacheKeys) (signer : string) (request : R) (id : OrgId) db
  : result unit Status :=
  if verify_signature_with_type cache Administrator signer request then Ok tt else
  let? org_keys := map_err (fun e => match e with RouteIdParse => InvalidArgument | _ => Internal end)
    (match id with Oui oui => get_org_pubkeys oui db | RouteId route_id => get_org_pubkeys_by_route route_id db end) in
  if bool_decide (signer ∈ org_keys) && verify_msg request signer then Ok tt else Err PermissionDenied.

Definition verify_stream_request_signature {R} `{!MsgVerify R} (cache : CacheKeys) (signer : string) (request : R)
  : result unit Status :=
  if verify_signature cache signer request then Ok tt else Err PermissionDenied.

Definition verify_request_signature_or_stream {R} `{!MsgVerify R} (cache : CacheKeys) (signer : string) (request : R)
    (id : OrgId) db : result unit Status :=
  if is_ok (verify_stream_request_signature cache signer request) then Ok tt
  else verify_request_signature cache signer request id db.

(** ** Handlers of routes *)

Definition list_handler (cache : CacheKeys) db (request : RouteReq RouteListReq) (now : Z)
  : result (signed (list RouteV1)) Status :=
  let '(RouteListReqV1 oui) := rq_body request in
  let? signer := verify_public_key (rq_signer request) in
  let? _ := verify_request_signature cache signer request (Oui oui) db in
  sign_response (route_into_v1 <$> list_routes oui db) now.

Definition get_handler (cache : CacheKeys) db (request : RouteReq RouteGetReq) (now : Z) : result (signed RouteV1) Status :=
  let '(RouteGetReqV1 id) := rq_body request in
  let? signer := verify_public_key (rq_signer request) in
  let? _ := verify_request_signature cache signer request (RouteId id) db in
  let? route := map_err (fun _ => Internal) (get_route id db) in
  sign_response (route_into_v1 route) now.

(** [create]; [id] is the identifier the database generates. *)
Definition create_handler (cache : CacheKeys) db (request : RouteReq RouteCreateReq) (id : Uuid) (now : Z)
  : outcome json (signed RouteV1) :=
  let '(RouteCreateReqV1 oui route) := rq_body request in
  match (let? signer := verify_public_key (rq_signer request) in
         let? _ := verify_request_signature cache signer request (Oui oui) db in
         let? route := ok_or route InvalidArgument in
         let route := route_from_v1 route in
         if negb (r_oui route =? oui) then Err InvalidArgument else
         map_err (fun _ => Internal) (create_route route id now db)) with
  | Err e => mkOutcome db [] (Err e)
  | Ok (db', updates, new_route) => mkOutcome db' [updates] (sign_response (route_into_v1 new_route) now)
  end.

Definition update_handler (cache : CacheKeys) db (request : RouteReq RouteUpdateReq) (now : Z) : outcome json (signed RouteV1) :=
  let '(RouteUpdateReqV1 route) := rq_body request in
  match (let? route := ok_or route InvalidArgument in
         let route := route_from_v1 route in
         let? signer := verify_public_key (rq_signer request) in
         let? _ := verify_request_signature cache signer request (RouteId (r_id route)) db in
         map_err (fun _ => Internal) (update_route route now db)) with
  | Err e => mkOutcome db [] (Err e)
  | Ok (db', updates, updated_route) => mkOutcome db' [updates] (sign_response (route_into_v1 updated_route) now)
  end.

Definition delete_handler (cache : CacheKeys) db (request : RouteReq RouteDeleteReq) (now : Z) : outcome json (signed RouteV1) :=
  let '(RouteDeleteReqV1 id) := rq_body request in
  match (let? signer := verify_public_key (rq_signer request) in
         let? _ := verify_request_signature cache signer request (RouteId id) db in
         let? route := map_err (fun _ => Internal) (get_route id db) in
         let? r := map_err (fun _ => Internal) (delete_route id now db) in
         Ok (r, route)) with
  | Err e => mkOutcome db [] (Err e)
  | Ok (db', updates, route) => mkOutcome db' [updates] (sign_response (route_into_v1 route) now)
  end.

(** ** Batched updates *)

Section Batches.
Context {R : Type} `{!MsgVerify R, !ValidateRouteComponent R}.
Variable apply_batch : list R -> config_db json -> result (config_db json * list RouteStreamRes) Status.

(** A full batch: its first invalid update refuses it, otherwise it is applied. *)
Definition flush (batch : list (result R Status)) db : result (config_db json * list RouteStreamRes) Status :=
  let? updates := collect_ok id batch in apply_batch updates db.

(** [try_chunks] and [try_for_each]: every update is validated when it arrives;
    batches that were applied stay when a later one fails. *)
Fixpoint run_batches (v : DevAddrEuiValidator) (incoming : list (result R Status)) (batch : list (result R Status))
    db (tasks : list (list RouteStreamRes)) : config_db json * list (list RouteStreamRes) * result unit Status :=
  match incoming with
  | [] => match batch with
          | [] => (db, tasks, Ok tt)
          | _ => match flush batch db with
                 | Ok (db, updates) => (db, tasks ++ [updates], Ok tt)
                 | Err e => (db, tasks, Err e)
                 end
          end
  | Err _ :: _ => (db, tasks, Err Internal)
  | Ok u :: rest =>
      let '(v, r) := validate_update v u in
      let batch := batch ++ [r] in
      if (length batch =? UPDATE_BATCH_LIMIT)%nat then
        match flush batch db with
        | Ok (db, updates) => run_batches v rest [] db (tasks ++ [updates])
        | Err e => (db, tasks, Err e)
        end
      else run_batches v rest batch db tasks
  end.
End Batches.

(** [partition(|(action, _)| action == &ActionV1::Add)] and the conversion of each half. *)
Definition split_actions {A B} (f : A -> B) (l : list (ActionV1 * A)) : list B * list B :=
  (f ∘ snd <$> List.filter (fun x => bool_decide (x.1 = Add)) l,
   f ∘ snd <$> List.filter (fun x => negb (bool_decide (x.1 = Add))) l).

Definition apply_euis (now : Z) (batch : list (RouteReq RouteUpdateEuisReq)) db
  : result (config_db json * list RouteStreamRes) Status :=
  let? batch := collect_ok (fun u => let '(RouteUpdateEuisReqV1 a p) := rq_body u in
                              match p with Some p => Ok (a, p) | None => Err InvalidArgument end) batch in
  let '(adds_update, removes_update) := split_actions eui_from_v1 batch in
  map_err (fun _ => Internal) (update_euis adds_update removes_update now db).

Definition apply_ranges (now : Z) (batch : list (RouteReq RouteUpdateDevaddrRangesReq)) db
  : result (config_db json * list RouteStreamRes) Status :=
  let? batch := collect_ok (fun u => let '(RouteUpdateDevaddrRangesReqV1 a p) := rq_body u in
                              match p with Some p => Ok (a, p) | None => Err InvalidArgument end) batch in
  let '(adds_update, removes_update) := split_actions range_from_v1 batch in
  map_err (fun _ => Internal) (update_devaddr_ranges adds_update removes_update now db).

(** The validator for the route of the first update. *)
Definition peek_validator {R} (pair_id : R -> option string) (cache : CacheKeys) (incoming : list (result R Status))
    (check_constraints : bool) db : result DevAddrEuiValidator Status :=
  match incoming with
  | Ok u :: _ => let? id := ok_or (pair_id u) InvalidArgument in
                 map_err (fun _ => Internal) (update_validator cache id check_constraints db)
  | _ => Err InvalidArgument
  end.

Definition update_euis_handler (cache : CacheKeys) db (incoming : list (result (RouteReq RouteUpdateEuisReq) Status)) (now : Z)
  : outcome json (signed unit) :=
  match peek_validator component_route_id cache incoming false db with
  | Err e => mkOutcome db [] (Err e)
  | Ok validator =>
      let '(db', tasks, r) := run_batches (apply_euis now) validator incoming [] db [] in
      mkOutcome db' tasks (let? _ := r in sign_response tt now)
  end.

Definition update_devaddr_ranges_handler (cache : CacheKeys) db
    (incoming : list (result (RouteReq RouteUpdateDevaddrRangesReq) Status)) (now : Z) : outcome json (signed unit) :=
  match peek_validator component_route_id cache incoming true db with
  | Err e => mkOutcome db [] (Err e)
  | Ok validator =>
      let '(db', tasks, r) := run_batches (apply_ranges now) validator incoming [] db [] in
      mkOutcome db' tasks (let? _ := r in sign_response tt now)
  end.

(** ** Session key filters *)

Definition validate_skf_devaddrs (route_id : string) (updates : list RouteSkfUpdateV1) db : result unit Status :=
  let? ranges := map_err (fun e => match e with UuidParse => InvalidArgument | _ => Internal end)
                   (list_devaddr_ranges_for_route route_id db) in
  if forallb (fun u => existsb (fun r => contains_addr r (field_from_u32 (su_devaddr u))) ranges) updates
  then Ok tt else Err InvalidArgument.

(** The filters a request adds and those it removes. *)
Definition skf_changes (route_id : string) (updates : list RouteSkfUpdateV1) : list Skf * list Skf :=
  split_actions id ((fun u => (su_action u, mkSkf route_id (field_from_u32 (su_devaddr u)) (su_session_key u)
                                              (su_max_copies u))) <$> updates).

Definition update_skfs_handler (cache : CacheKeys) db (request : RouteReq RouteSkfUpdateReq) (now : Z)
  : outcome json (signed unit) :=
  let '(RouteSkfUpdateReqV1 route_id updates) := rq_body request in
  match (if SKF_UPDATE_LIMIT <? Z.of_nat (length updates) then Err InvalidArgument else
         let? signer := verify_public_key (rq_signer request) in
         let? _ := verify_request_signature cache signer request (RouteId route_id) db in
         let? _ := validate_skf_devaddrs route_id updates db in
         let '(adds_update, removes_update) := skf_changes route_id updates in
         map_err (fun _ => Internal) (update_skfs adds_update removes_update now db)) with
  | Err e => mkOutcome db [] (Err e)
  | Ok (db', task) => mkOutcome db' [task] (sign_response tt now)
  end.

(** ** Listings *)

(** The messages of a listing: its rows, or the error of its identifier. *)
Definition listing {A B} (f : A -> B) (r : result (list A) RouteStorageError) : list (result B Status) :=
  match r with
  | Ok rows => (fun a => Ok (f a)) <$> rows
  | Err UuidParse => [Err InvalidArgument]
  | Err _ => [Err Internal]
  end.

Definition get_euis_handler (cache : CacheKeys) db (request : RouteReq RouteGetEuisReq)
  : result (list (result EuiPairV1 Status)) Status :=
  let '(RouteGetEuisReqV1 route_id) := rq_body request in
  let? signer := verify_public_key (rq_signer request) in
  let? _ := verify_request_signature_or_stream cache signer request (RouteId route_id) db in
  Ok (listing eui_into_v1 (list_euis_for_route route_id db)).

Definition get_devaddr_ranges_handler (cache : CacheKeys) db (request : RouteReq RouteGetDevaddrRangesReq)
  : result (list (result DevaddrRangeV1 Status)) Status :=
  let '(RouteGetDevaddrRangesReqV1 route_id) := rq_body request in
  let? signer := verify_public_key (rq_signer request) in
  let? _ := verify_request_signature_or_stream cache signer request (RouteId route_id) db in
  Ok (listing range_into_v1 (list_devaddr_ranges_for_route route_id db)).

Definition list_skfs_handler (cache : CacheKeys) db (request : RouteReq RouteSkfListReq)
  : result (list (result SkfV1 Status)) Status :=
  let '(RouteSkfListReqV1 route_id) := rq_body request in
  let? signer := verify_public_key (rq_signer request) in
  let? _ := verify_request_signature_or_stream cache signer request (RouteId route_id) db in
  Ok (listing skf_into_v1 (list_skfs_for_route route_id db)).

Definition get_skfs_handler (cache : CacheKeys) db (request : RouteReq RouteSkfGetReq)
  : result (list (result SkfV1 Status)) Status :=
  let '(RouteSkfGetReqV1 route_id devaddr) := rq_body request in
  let? signer := verify_public_key (rq_signer request) in
  let? _ := verify_request_signature cache signer request (RouteId route_id) db in
  Ok (listing skf_into_v1 (list_skfs_for_route_and_devaddr route_id (field_from_u32 devaddr) db)).

(** ** The stream *)

(** A row of the current configuration, signed, or the error that takes its place. *)
Definition existing_update (now : Z) (data : StreamData) (deleted : bool) : result RouteStreamRes Status :=
  ok_or (stream_update now (if deleted then Remove else Add) data) Internal.

Definition stream_existing_routes (since now : Z) db : list (result RouteStreamRes Status) :=
  (fun rd => existing_update now (DRoute (route_into_v1 rd.1)) rd.2) <$> route_stream since db.
Definition stream_existing_euis (since now : Z) db : list (result RouteStreamRes Status) :=
  (fun rd => existing_update now (DEui (eui_into_v1 rd.1)) rd.2) <$> eui_stream since db.
Definition stream_existing_devaddrs (since now : Z) db : list (result RouteStreamRes Status) :=
  (fun rd => existing_update now (DRange (range_into_v1 rd.1)) rd.2) <$> devaddr_range_stream since db.
Definition stream_existing_skfs (since now : Z) db : list (result RouteStreamRes Status) :=
  (fun rd => existing_update now (DSkf (skf_into_v1 rd.1)) rd.2) <$> skf_stream since db.

(** [stream]: whether the client is admitted, and the time it asks for. *)
Definition stream_handler (cache : CacheKeys) (request : RouteReq RouteStreamReq) : result Z Status :=
  let '(RouteStreamReqV1 since) := rq_body request in
  let? signer := verify_public_key (rq_signer request) in
  let? _ := verify_stream_request_signature cache signer request in
  map_err (fun _ => InvalidArgument) (single (as_i64 since * nanos_per_sec) since).
End Service.

(** ** Who may change the rows of a route *)

Lemma find_index_some {A} (f : A -> bool) (l : list A) i :
  find_index f l = Some i -> exists a, l !! i = Some a /\ f a = true.
Proof.
  revert i. induction l as [|a l IH]; cbn [find_index]; [done|]. intros i. destruct (f a) eqn:E.
  - intros [= <-]. by exists a.
  - destruct (find_index f l) as [j|]; [|done]. intros [= <-]. by apply IH.
Qed.

Lemma swap_front_perm {A} i (l : list A) : swap_front i l ≡ₚ l.
Proof.
  unfold swap_front. destruct (l !! i) as [a|] eqn:Ei; [|done]. destruct l as [|b l]; [done|]. cbn [lookup list_lookup].
  destruct i as [|i]; [cbn in Ei; by injection Ei as ->|]. cbn in Ei |- *.
  assert (l ≡ₚ a :: delete i l) as E by (by apply delete_Permutation).
  change (a :: <[i := b]> l ≡ₚ b :: l). rewrite delete_take_drop in E. rewrite (insert_take_drop l i b) by (by eapply lookup_lt_Some).
  etrans; [|apply perm_skip; symmetry; exact E]. rewrite <- Permutation_middle. apply Permutation_swap.
Qed.

Section Validated.
Context {R : Type} `{!MsgVerify R, !ValidateRouteComponent R}.

(** What the validator demands of an update. *)
Definition admissible (v : DevAddrEuiValidator) (u : R) : Prop :=
  (exists id, component_route_id u = Some id /\ id ∈ va_route_ids v) /\
  (forall cs r, va_constraints v = Some cs -> component_range u = Ok (Some r) ->
     exists c, c ∈ cs /\ contains_range c r = true) /\
  (exists key, key ∈ va_signing_keys v /\ verify_msg u key = true).

Definition same_validator (v v' : DevAddrEuiValidator) : Prop :=
  va_route_ids v' = va_route_ids v /\ va_constraints v' = va_constraints v /\ va_signing_keys v' ≡ₚ va_signing_keys v.

Lemma admissible_same v v' u : same_validator v v' -> admissible v' u -> admissible v u.
Proof.
  intros (E1 & E2 & E3) (H1 & H2 & key & H3 & H4). unfold admissible. rewrite <- E1, <- E2. split; [done|]. split; [done|].
  exists key. by rewrite <- E3.
Qed.

Lemma validate_update_spec v u v' r :
  validate_update v u = (v', r) -> same_validator v v' /\ (forall u', r = Ok u' -> u' = u /\ admissible v u).
Proof.
  unfold validate_update. destruct (validate_owned_route u (va_route_ids v)) as [u1|e] eqn:E1; cbn [result_bind].
  2:{ intros [= <- <-]. by split; [split|]. }
  unfold validate_owned_route in E1. apply result_bind_ok in E1 as (id & Hid%ok_or_ok & E1).
  case_bool_decide as Hin; [|done]. injection E1 as <-.
  destruct (validate_range_bounds u (va_constraints v)) as [u1|e] eqn:E2.
  2:{ intros [= <- <-]. by split; [split|]. }
  assert (u1 = u /\ forall cs r, va_constraints v = Some cs -> component_range u = Ok (Some r) ->
     exists c, c ∈ cs /\ contains_range c r = true) as [-> Hb].
  { unfold validate_range_bounds in E2. destruct (va_constraints v) as [cs|]; [|by injection E2 as <-].
    destruct (component_range u) as [[rg|]|]; [|by injection E2 as <-|done].
    destruct (existsb _ cs) eqn:Ex; [|done]. injection E2 as <-. split; [done|].
    intros cs' r' [= <-] [= <-]. apply existsb_exists in Ex as (c & Hc & Hr). exists c. by rewrite list_elem_of_In. }
  unfold validate_signature. destruct (find_index (verify_msg u) (va_signing_keys v)) as [i|] eqn:Ei.
  - intros [= <- <-]. split; [split; [done|]; split; [done|]; apply swap_front_perm|]. intros u' [= <-]. split; [done|].
    split; [by exists id|]. split; [done|]. apply find_index_some in Ei as (key & Hk & Hv). exists key.
    split; [|done]. by apply list_elem_of_lookup_2 in Hk.
  - intros [= <- <-]. by split; [split|].
Qed.
End Validated.

Section Authorized.
Context {RG : Regions} {PE : ProtoEnum FlowTypeV1} {UU : Uuids} {CR : Crypto} {CH : Chrono} {json : Type}.
Context {PJ : ProtocolJson json} {RV : RouteVerify} {RE : RouteEncode}.
Implicit Types db : config_db json.

Lemma collect_ok_spec {A B E} (f : A -> result B E) l bs :
  collect_ok f l = Ok bs <-> Forall2 (fun a b => f a = Ok b) l bs.
Proof.
  revert bs. induction l as [|a l IH]; intros bs; cbn [collect_ok].
  - split; [by intros [= <-]|]. intros Hl. by inversion Hl.
  - rewrite result_bind_ok. setoid_rewrite result_bind_ok. setoid_rewrite IH. split.
    + intros (b & Hb & bs' & Hl & [= <-]). by constructor.
    + intros Hbs. inversion Hbs as [|? b ? bs' Hb Hl]; subst. exists b. split; [done|]. by exists bs'.
Qed.

(** Rule induction over the batches: what every batch of admissible updates of
    the stream preserves holds at the end. *)
Lemma run_batches_ind {R} `{!MsgVerify R, !ValidateRouteComponent R}
    (ap : list R -> config_db json -> result (config_db json * list RouteStreamRes) Status)
    (Q : config_db json -> list (list RouteStreamRes) -> Prop) (I : list (result R Status)) v0 :
  (forall us db1 db2 tasks evs, Forall (fun u => admissible v0 u /\ Ok u ∈ I) us -> Q db1 tasks -> ap us db1 = Ok (db2, evs) ->
     Q db2 (tasks ++ [evs])) ->
  forall incoming v batch db tasks, incoming ⊆ I -> same_validator v0 v ->
    Forall (fun r => forall u, r = Ok u -> admissible v0 u /\ Ok u ∈ I) batch -> Q db tasks ->
    let r := run_batches ap v incoming batch db tasks in Q r.1.1 r.1.2.
Proof.
  intros Hap.
  assert (forall batch db db2 tasks evs, Forall (fun r => forall u, r = Ok u -> admissible v0 u /\ Ok u ∈ I) batch -> Q db tasks ->
    flush ap batch db = Ok (db2, evs) -> Q db2 (tasks ++ [evs])) as Hflush.
  { intros batch db db2 tasks evs Hb HQ Hf. unfold flush in Hf. apply result_bind_ok in Hf as (us & Hus%collect_ok_spec & Hf).
    apply (Hap us db db2 tasks evs); [|done|done]. clear -Hb Hus. induction Hus as [|r u l us E Hl IH]; [constructor|].
    apply Forall_cons in Hb as [Hb Hbs]. constructor; [by apply Hb|by apply IH]. }
  induction incoming as [|[u|e] rest IH]; intros v batch db tasks Hsub Hv Hb HQ; cbn [run_batches].
  - destruct batch as [|r batch]; [done|]. destruct (flush ap (r :: batch) db) as [[db2 evs]|] eqn:E; [|done].
    by apply (Hflush (r :: batch) db db2 tasks evs).
  - destruct (validate_update v u) as [v' r] eqn:Ev. apply validate_update_spec in Ev as [Hv' Hr].
    assert (same_validator v0 v') as Hv0.
    { destruct Hv as (? & ? & ?), Hv' as (? & ? & ?). split; [congruence|]. split; [congruence|]. by etrans. }
    assert (Forall (fun r => forall u, r = Ok u -> admissible v0 u /\ Ok u ∈ I) (batch ++ [r])) as Hb'.
    { apply Forall_app. split; [done|]. apply Forall_singleton. intros u' ->. destruct (Hr u' eq_refl) as [-> Ha].
      split; [by apply (admissible_same v0 v)|]. apply Hsub. left. }
    assert (rest ⊆ I) as Hrest by (intros x Hx; apply Hsub; by right).
    destruct (length (batch ++ [r]) =? UPDATE_BATCH_LIMIT)%nat; [|by apply IH].
    destruct (flush ap (batch ++ [r]) db) as [[db2 evs]|] eqn:E; [|done].
    apply IH; [done|done|constructor|]. by apply (Hflush (batch ++ [r]) db db2 tasks evs).
  - done.
Qed.

(** The rows a statement can change. *)
Lemma upsert_rows_lookup {K V} `{!EqDecision K, !Countable K, !EqDecision V} (now : Z) (known : gmap Uuid (RouteRow json))
    (l : list ((Uuid * K) * V)) t t' rows k :
  upsert_rows now known l t = Ok (t', rows) -> k ∉ l.*1 -> t' !! k = t !! k.
Proof.
  unfold upsert_rows. destruct (decide _) as [_|]; [|done]. destruct (forallb _ l); [|done]. intros [= <- <-].
  revert t. induction l as [|[k' v] l IH]; intros t Hk; [done|]. cbn [fold_left].
  rewrite fmap_cons in Hk. apply not_elem_of_cons in Hk as [Hne Hk]. rewrite IH by done. unfold upsert_row. cbn [fst snd] in *.
  destruct (t !! k') as [r|]; [destruct (decide _)|]; rewrite ?lookup_insert_ne by done; done.
Qed.

Lemma mark_rows_lookup {K V} `{!EqDecision K, !Countable K, !EqDecision V} (now : Z) (l : list (Uuid * K)) (t : gmap (Uuid * K) (tracked V)) (k : Uuid * K) :
  k ∉ l -> (mark_rows now l t).1 !! k = t !! k.
Proof.
  cbn [mark_rows fst]. revert t. induction l as [|k' l IH]; intros t Hk; [done|]. cbn [fold_left].
  apply not_elem_of_cons in Hk as [Hne Hk]. rewrite IH by done. unfold mark_row.
  destruct (t !! k') as [r|]; [destruct (tk_deleted r)|]; rewrite ?lookup_insert_ne by done; done.
Qed.

Lemma collect_ok_elem {A B E} (f : A -> result B E) l bs b : collect_ok f l = Ok bs -> b ∈ bs -> exists a, a ∈ l /\ f a = Ok b.
Proof.
  intros Hl%collect_ok_spec Hb. apply list_elem_of_lookup in Hb as [i Hi].
  destruct (Forall2_lookup_r _ _ _ _ _ Hl Hi) as (a & Ha & Hf). exists a. split; [|done]. by eapply list_elem_of_lookup_2.
Qed.

Section Changes.
Context {K V A : Type} `{!EqDecision K, !Countable K, !EqDecision V}.
Variable f : A -> result ((Uuid * K) * V) RouteStorageError.

Lemma upsert_changes (l : list A) (vals : list ((Uuid * K) * V)) (now : Z) (known : gmap Uuid (RouteRow json)) t t' rows (k : Uuid * K) :
  collect_ok f l = Ok vals -> upsert_rows now known vals t = Ok (t', rows) -> t' !! k <> t !! k ->
  exists a v, a ∈ l /\ f a = Ok (k, v).
Proof.
  intros Hv Ht Hne. destruct (decide (k ∈ vals.*1)) as [Hin|Hni].
  - apply list_elem_of_fmap in Hin as ([k' v] & -> & Hin). destruct (collect_ok_elem _ _ _ _ Hv Hin) as (a & ? & ?). by exists a, v.
  - by rewrite (upsert_rows_lookup _ _ _ _ _ _ _ Ht Hni) in Hne.
Qed.

Lemma mark_changes (l : list A) (vals : list ((Uuid * K) * V)) (now : Z) (t : gmap (Uuid * K) (tracked V)) (k : Uuid * K) :
  collect_ok f l = Ok vals -> (mark_rows now vals.*1 t).1 !! k <> t !! k -> exists a v, a ∈ l /\ f a = Ok (k, v).
Proof.
  intros Hv Hne. destruct (decide (k ∈ vals.*1)) as [Hin|Hni].
  - apply list_elem_of_fmap in Hin as ([k' v] & -> & Hin). destruct (collect_ok_elem _ _ _ _ Hv Hin) as (a & ? & ?). by exists a, v.
  - by rewrite (mark_rows_lookup now vals.*1 t k Hni) in Hne.
Qed.
End Changes.

Lemma update_euis_rows to_add to_remove now db db' evs :
  update_euis to_add to_remove now db = Ok (db', evs) ->
  exists t, db' = set_euis db t /\
    forall k, t !! k <> route_eui_pairs db !! k -> exists e, e ∈ to_add ++ to_remove /\ eui_values e = Ok (k, tt).
Proof.
  unfold update_euis. intros ([db1 l1] & H1 & ([db2 l2] & H2 & [= <- _])%result_bind_ok)%result_bind_ok. cbn [fst] in *.
  assert (exists t, db1 = set_euis db t /\
    forall k, t !! k <> route_eui_pairs db !! k -> exists e, e ∈ to_add /\ eui_values e = Ok (k, tt)) as (t1 & -> & Hk1).
  { destruct to_add as [|e to_add]; [injection H1 as <- _; exists (route_eui_pairs db); by destruct db|].
    cbn [insert_euis] in H1. apply result_bind_ok in H1 as (vals & Hv & ([t rows] & Ht%map_err_ok & [= <- _])%result_bind_ok).
    exists t. split; [done|]. intros k Hne. by destruct (upsert_changes _ _ _ _ _ _ _ _ k Hv Ht Hne) as (a & [] & ? & ?); exists a. }
  assert (exists t, db2 = set_euis db t /\
    forall k, t !! k <> t1 !! k -> exists e, e ∈ to_remove /\ eui_values e = Ok (k, tt)) as (t2 & -> & Hk2).
  { destruct to_remove as [|e to_remove]; [injection H2 as <- _; by exists t1|].
    cbn [remove_euis] in H2. apply result_bind_ok in H2 as (vals & Hv & [= <- _]).
    eexists. split; [done|]. intros k Hne. by destruct (mark_changes _ _ _ now t1 k Hv Hne) as (a & [] & ? & ?); exists a. }
  exists t2. split; [done|]. intros k Hne. setoid_rewrite elem_of_app. destruct (decide (t2 !! k = t1 !! k)) as [E|E].
  - destruct (Hk1 k) as (e & ? & ?); [congruence|]. exists e. auto.
  - destruct (Hk2 k E) as (e & ? & ?). exists e. auto.
Qed.

Lemma update_devaddr_ranges_rows to_add to_remove now db db' evs :
  update_devaddr_ranges to_add to_remove now db = Ok (db', evs) ->
  exists t, db' = set_ranges db t /\
    forall k, t !! k <> route_devaddr_ranges db !! k -> exists e, e ∈ to_add ++ to_remove /\ range_values e = Ok (k, tt).
Proof.
  unfold update_devaddr_ranges. intros ([db1 l1] & H1 & ([db2 l2] & H2 & [= <- _])%result_bind_ok)%result_bind_ok. cbn [fst] in *.
  assert (exists t, db1 = set_ranges db t /\
    forall k, t !! k <> route_devaddr_ranges db !! k -> exists e, e ∈ to_add /\ range_values e = Ok (k, tt)) as (t1 & -> & Hk1).
  { destruct to_add as [|e to_add]; [injection H1 as <- _; exists (route_devaddr_ranges db); by destruct db|].
    cbn [insert_devaddr_ranges] in H1. apply result_bind_ok in H1 as (vals & Hv & ([t rows] & Ht%map_err_ok & [= <- _])%result_bind_ok).
    exists t. split; [done|]. intros k Hne. by destruct (upsert_changes _ _ _ _ _ _ _ _ k Hv Ht Hne) as (a & [] & ? & ?); exists a. }
  assert (exists t, db2 = set_ranges db t /\
    forall k, t !! k <> t1 !! k -> exists e, e ∈ to_remove /\ range_values e = Ok (k, tt)) as (t2 & -> & Hk2).
  { destruct to_remove as [|e to_remove]; [injection H2 as <- _; by exists t1|].
    cbn [remove_devaddr_ranges] in H2. apply result_bind_ok in H2 as (vals & Hv & [= <- _]).
    eexists. split; [done|]. intros k Hne. by destruct (mark_changes _ _ _ now t1 k Hv Hne) as (a & [] & ? & ?); exists a. }
  exists t2. split; [done|]. intros k Hne. setoid_rewrite elem_of_app. destruct (decide (t2 !! k = t1 !! k)) as [E|E].
  - destruct (Hk1 k) as (e & ? & ?); [congruence|]. exists e. auto.
  - destruct (Hk2 k E) as (e & ? & ?). exists e. auto.
Qed.

(** Identifiers in the table are the text of identifiers. *)
Definition ids_printed db : Prop := forall id, is_Some (routes db !! id) -> uuid_parse id = Some id.

(** A key of the organization: owner, payer or delegate. *)
Definition org_key db (oui : Z) (key : string) : Prop :=
  exists org, organizations db !! oui = Some org /\
    (key = og_owner org \/ key = og_payer org \/ delegate_rows db !! key = Some oui).

Lemma decode_keys_ok keys l : decode_keys keys = Ok l -> l = keys.
Proof.
  revert l. induction keys as [|k keys IH]; cbn [decode_keys]; intros l; [by intros [= <-]|].
  intros (k' & Hk & (rest & Hr & [= <-])%result_bind_ok)%result_bind_ok. destruct (key_valid k); [|done].
  injection Hk as <-. by rewrite (IH rest Hr).
Qed.

Lemma elem_of_org_delegates db oui k : k ∈ org_delegates db oui <-> delegate_rows db !! k = Some oui.
Proof.
  unfold org_delegates. rewrite list_elem_of_omap. split.
  - intros ([k' o] & Hk%elem_of_map_to_list & Hf). cbn in Hf. destruct (Z.eqb_spec o oui); [|done]. by simplify_eq/=.
  - intros Hk. exists (k, oui). split; [by apply elem_of_map_to_list|]. cbn. by rewrite Z.eqb_refl.
Qed.

Lemma pubkeys_of_org_keys db oui row l key :
  organizations db !! oui = Some row -> pubkeys_of_org (org_from_row db oui row) = Ok l -> key ∈ l -> org_key db oui key.
Proof.
  intros Ho Hl Hk. unfold pubkeys_of_org in Hl. apply result_bind_ok in Hl as (l1 & Hl1%decode_keys_ok & Hl).
  apply result_bind_ok in Hl as (l2 & Hl2%decode_keys_ok & [= <-]). subst. cbn in Hk. exists row. split; [done|].
  apply elem_of_cons in Hk as [->|Hk]; [by left|]. apply elem_of_cons in Hk as [->|Hk]; [by right; left|].
  right. right. by apply elem_of_org_delegates.
Qed.

(** What a validator knows: it is for one organization. *)
Lemma update_validator_spec cache id check db v :
  update_validator cache id check db = Ok v ->
  exists oui,
    (forall r, r ∈ va_route_ids v -> exists route, routes db !! r = Some route /\ rr_oui route = oui) /\
    (forall cs, va_constraints v = Some cs -> cs = constraint_of_row <$> org_constraints db oui) /\
    (check = true -> is_Some (va_constraints v)) /\
    (forall key, key ∈ va_signing_keys v -> org_key db oui key \/ cache !! key = Some Administrator).
Proof.
  unfold update_validator, validator_new. intros (cs & Hcs & Hv)%result_bind_ok.
  apply result_bind_ok in Hv as (keys & Hkeys & Hv). apply result_bind_ok in Hv as (ids & Hids & [= <-]). cbn.
  unfold get_org_pubkeys_by_route in Hkeys. apply result_bind_ok in Hkeys as (uuid & Hu%ok_or_ok & Hkeys).
  apply result_bind_ok in Hkeys as (route & Hr%ok_or_ok & Hkeys). apply result_bind_ok in Hkeys as (org & Ho%ok_or_ok & Hkeys).
  exists (rr_oui route). unfold get_route_ids_by_route in Hids. rewrite Hu in Hids. cbn [ok_or result_bind] in Hids.
  rewrite Hr in Hids. injection Hids as <-. split.
  { intros r Hr'. apply list_elem_of_omap in Hr' as ([r' row] & Hin%elem_of_map_to_list & Hf). cbn in Hf.
    destruct (Z.eqb_spec (rr_oui row) (rr_oui route)); [|done]. injection Hf as <-. by exists row. }
  unfold get_constraints_by_route in Hcs. rewrite Hu in Hcs. cbn [ok_or result_bind] in Hcs. rewrite Hr in Hcs. split.
  { intros cs' E. destruct check; cbn in Hcs; [|congruence]. rewrite E in Hcs. by injection Hcs as <-. }
  split; [intros ->; cbn in Hcs; by injection Hcs as <-; eexists|].
  intros key [Hk|Hk]%elem_of_app; [left; by eapply pubkeys_of_org_keys|right; by apply elem_of_keys_by_type].
Qed.

Lemma split_actions_elem {A B} (f : A -> B) (l : list (ActionV1 * A)) b :
  b ∈ (split_actions f l).1 ++ (split_actions f l).2 -> exists a p, (a, p) ∈ l /\ b = f p.
Proof.
  cbn. rewrite elem_of_app, !list_elem_of_fmap.
  intros [([a p] & -> & Hp%elem_of_filter_bool)|([a p] & -> & Hp%elem_of_filter_bool)]; exists a, p; by destruct Hp.
Qed.


(** A device address range of a route changes through [update_devaddr_ranges]
    only when an update names it that was signed with a key of the organization
    that owns the route, or of an administrator, and the range lies within a
    constraint of that organization. *)
Theorem range_update_authorized cache db incoming now k :
  ids_printed db ->
  route_devaddr_ranges (oc_db (update_devaddr_ranges_handler cache db incoming now)) !! k <> route_devaddr_ranges db !! k ->
  exists upd action d route key c,
    Ok upd ∈ incoming /\ rq_body upd = RouteUpdateDevaddrRangesReqV1 action (Some d) /\ verify_msg upd key = true /\
    k = (dv_route_id d, (as_i32 (dv_start_addr d), as_i32 (dv_end_addr d))) /\
    routes db !! k.1 = Some route /\ (org_key db (rr_oui route) key \/ cache !! key = Some Administrator) /\
    c ∈ org_constraints db (rr_oui route) /\ contains_range (constraint_of_row c) (range_from_v1 d) = true.
Proof.
  intros Hids. unfold update_devaddr_ranges_handler. destruct (peek_validator _ _ _ _ _) as [v|] eqn:Ev; [|done].
  assert (exists id, update_validator cache id true db = Ok v) as (id & (oui & Hr & Hcs & Hsome & Hk)%update_validator_spec).
  { unfold peek_validator in Ev. destruct incoming as [|[u|] ?]; [done| |done].
    apply result_bind_ok in Ev as (id & _ & Ev%map_err_ok). by exists id. }
  set (Q db' := routes db' = routes db /\ forall k, route_devaddr_ranges db' !! k <> route_devaddr_ranges db !! k ->
    exists upd action d route key c,
    Ok upd ∈ incoming /\ rq_body upd = RouteUpdateDevaddrRangesReqV1 action (Some d) /\ verify_msg upd key = true /\
    k = (dv_route_id d, (as_i32 (dv_start_addr d), as_i32 (dv_end_addr d))) /\
    routes db !! k.1 = Some route /\ (org_key db (rr_oui route) key \/ cache !! key = Some Administrator) /\
    c ∈ org_constraints db (rr_oui route) /\ contains_range (constraint_of_row c) (range_from_v1 d) = true).
  enough (Q (run_batches (apply_ranges now) v incoming [] db []).1.1) as HQ.
  { destruct (run_batches _ _ _ _ _ _) as [[db' tasks] r]. apply HQ. }
  apply (run_batches_ind (apply_ranges now) (fun db' _ => Q db') incoming v); [|done|done|constructor|done].
  intros us db1 db2 tasks evs Hus [HQr HQ] Hap. unfold apply_ranges in Hap. apply result_bind_ok in Hap as (batch & Hb & Hap).
  destruct (split_actions range_from_v1 batch) as [adds removes] eqn:Es. apply map_err_ok, update_devaddr_ranges_rows in Hap as (t & -> & Ht).
  split; [done|]. cbn [route_devaddr_ranges set_ranges]. intros k' Hne.
  destruct (decide (t !! k' = route_devaddr_ranges db1 !! k')) as [E|E]; [apply HQ; congruence|].
  destruct (Ht k' E) as (e & He & Hval).
  destruct (split_actions_elem range_from_v1 batch e) as (a & d & Hp & ->); [by rewrite Es|].
  destruct (collect_ok_elem _ _ _ _ Hb Hp) as (upd & Hu & Hbody). rewrite Forall_forall in Hus.
  destruct (Hus upd Hu) as [((id' & Hid & Hin) & Hbound & key & Hkey & Hver) Hinc].
  destruct (rq_body upd) as [a' d'] eqn:Eb. destruct d' as [d'|]; [|done]. injection Hbody as -> ->.
  cbn in Hid, Hbound. rewrite Eb in Hid, Hbound. injection Hid as <-.
  destruct (Hsome eq_refl) as [cs Ecs]. destruct (Hbound cs (range_from_v1 d) Ecs eq_refl) as (c & Hc & Hcon).
  rewrite (Hcs cs Ecs) in Hc. apply list_elem_of_fmap in Hc as (row & -> & Hrow).
  destruct (Hr _ Hin) as (route & Hroute & Ho). exists upd, a, d, route, key, row. do 3 (split; [done|]).
  unfold range_values in Hval. cbn in Hval. rewrite (Hids (dv_route_id d)) in Hval by (by exists route).
  injection Hval as <-. do 2 (split; [done|]). rewrite Ho. split; [by apply Hk|done].
Qed.

(** ** Routes survive the messages and the table *)

Lemma from_list_entries (l : list (region * Z)) (m : gmap region Z) : NoDup l.*1 ->
  fold_left (fun (m : gmap region Z) entry => <[default Us915 (from_i32 entry.1) := entry.2]> m) ((fun kv : region * Z => (to_i32 kv.1, kv.2)) <$> l) m
  = (list_to_map l : gmap region Z) ∪ m.
Proof.
  revert m. induction l as [|[k p] l IH]; intros m Hn; [cbn; by rewrite (left_id_L ∅ (∪))|]. rewrite fmap_cons. cbn [fold_left fst snd].
  rewrite fmap_cons in Hn. apply NoDup_cons in Hn as [Hk Hn]. rewrite from_to_i32. cbn [default]. rewrite IH by done. cbn [list_to_map foldr fst snd].
  rewrite <- insert_union_l, <- insert_union_r; [done|]. by apply not_elem_of_list_to_map_1.
Qed.

Lemma protocol_v1_roundtrip p : protocol_from_v1 (protocol_into_v1 p) = p.
Proof.
  destruct p as [m|[ft d pa au ns]|]; cbn.
  - f_equal. rewrite from_list_entries by apply NoDup_fst_map_to_list. by rewrite (right_id_L ∅ (∪)), list_to_map_to_list.
  - do 2 f_equal. unfold flow_type_from_i32. rewrite from_to_i32. by destruct ft.
  - done.
Qed.

(** The fields have the widths of their Rust types. *)
Record route_fits (r : Route) : Prop := mkRouteFits {
  rf_net_id : is_u32 (r_net_id r);
  rf_oui : is_u64 (r_oui r);
  rf_max_copies : is_u32 (r_max_copies r);
  rf_port : is_u32 (s_port (r_server r))
}.

Lemma route_v1_roundtrip r : route_fits r -> route_from_v1 (route_into_v1 r) = r.
Proof.
  intros Hf. destruct r as [id n oui [h p pr] mc a l i]. unfold route_from_v1, route_into_v1, server_from_v1, server_into_v1. cbn.
  assert (protocol_from_v1 <$> (protocol_into_v1 <$> pr) = pr) as ->.
  { destruct pr as [pr|]; [|done]. cbn. by rewrite protocol_v1_roundtrip. }
  unfold field_to_u32, field_from_u32. by rewrite as_u32_small by apply Hf.
Qed.

(** A route with the id it was given and the lock of its organization. *)
Definition registered (r : Route) (id : Uuid) (locked : bool) : Route :=
  mkRoute id (r_net_id r) (r_oui r) (r_server r) (r_max_copies r) (r_active r) locked (r_ignore_empty_skf r).

Lemma created_route_get r id now db db' evs r' :
  route_fits r -> uuid_parse id = Some id -> create_route r id now db = Ok (db', evs, r') ->
  get_route id db' = Ok r' /\ exists org, organizations db !! as_i64 (r_oui r) = Some org /\ r' = registered r id (og_locked org).
Proof.
  intros Hf Hp Hc. unfold create_route in Hc. apply result_bind_ok in Hc as (p & Ep%ok_or_ok & Hc).
  apply result_bind_ok in Hc as (db1 & H1 & Hc). apply result_bind_ok in Hc as (r1 & Hg & [= <- _ <-]). split; [done|].
  destruct (routes db !! id); [done|]. cbn [rr_oui] in H1. destruct (organizations db !! as_i64 (r_oui r)) as [org|] eqn:Eo; [|done].
  exists org. split; [done|]. injection H1 as <-. unfold get_route in Hg. rewrite Hp in Hg. cbn in Hg. rewrite lookup_insert_eq in Hg. cbn in Hg.
  rewrite Eo in Hg. cbn in Hg. unfold route_of_row in Hg. cbn in Hg. rewrite Eo in Hg. cbn in Hg. rewrite from_to_json in Hg. injection Hg as <-.
  destruct r as [i n oui [h po pr] mc a l ig]. cbn in *. subst pr. unfold registered. cbn. unfold field_from_i32, field_to_i32.
  rewrite !as_u32_as_i32, as_u64_as_i64 by apply Hf. done.
Qed.

(** A route survives being sent, stored and read back: when [create] answers
    a request that carries the message of a route, its answer and what [get_route]
    reads from the tables afterwards are that route, field by field, with the new
    id and the lock of its organization. *)
Theorem create_handler_roundtrip cache db r oui signer signature id now resp :
  let o := create_handler cache db (mkReq (RouteCreateReqV1 oui (Some (route_into_v1 r))) signer signature) id now in
  route_fits r -> uuid_parse id = Some id -> oc_reply o = Ok resp ->
  exists org, organizations db !! as_i64 oui = Some org /\ oui = r_oui r /\
    get_route id (oc_db o) = Ok (registered r id (og_locked org)) /\ sg_body resp = route_into_v1 (registered r id (og_locked org)).
Proof.
  intros o Hf Hp. unfold o, create_handler. cbn [rq_body]. case_match eqn:E; [|done].
  match goal with x : config_db json * _ * Route |- _ => destruct x as [[db' evs] r'] end. cbn [oc_reply oc_db]. intros Hr.
  apply result_bind_ok in E as (s & _ & E). apply result_bind_ok in E as ([] & _ & E). cbn [ok_or result_bind] in E.
  rewrite route_v1_roundtrip in E by done. destruct (r_oui r =? oui) eqn:Eo; [|done]. apply Z.eqb_eq in Eo as <-.
  apply map_err_ok, created_route_get in E as (Hg & org & Ho & ->); [|done|done]. exists org. do 3 (split; [done|]).
  unfold sign_response in Hr. apply result_bind_ok in Hr as (sig & _ & [= <-]). done.
Qed.
End Authorized.
