(* ===== verification/ConfigOrgService.v ===== *)
(** * The organization service

    [iot_config/src/org_service.rs]: the handlers of the [Org] service.  The
    theorem: from a database without leases no sequence of requests leases an
    address of a Helium NetID twice, while requests keep to even blocks. *)

From S2P Require Import Prelude Solana FileStoreTypes LoraField HeliumNetids ConfigTables ConfigOrgs ConfigRoutes ConfigRouteService.

(** [OrgV1] and the body of [OrgResV1] *)
Record OrgV1 : Type := mkOrgV1 {
  ov_oui : Z;
  ov_owner : string;
  ov_payer : string;
  ov_locked : bool;
  ov_delegate_keys : list string
}.

Record OrgRes : Type := mkOrgRes {
  os_org : OrgV1;
  os_net_id : Z;
  os_devaddr_constraints : list (Z * Z)
}.

Record OrgCreateHeliumReq : Type := OrgCreateHeliumReqV1 {
  oh_owner : string;
  oh_payer : string;
  oh_devaddrs : Z;
  oh_net_id : HeliumNetId;
  oh_delegate_keys : list string
}.

Record OrgCreateRoamerReq : Type := OrgCreateRoamerReqV1 {
  om_owner : string;
  om_payer : string;
  om_net_id : Z;
  om_delegate_keys : list string
}.

Record OrgUpdateReq : Type := OrgUpdateReqV1 { ou_oui : Z; ou_updates : list (option Update) }.
Inductive OrgDisableReq : Type := OrgDisableReqV1 (oui : Z).
Inductive OrgEnableReq : Type := OrgEnableReqV1 (oui : Z).

Class OrgVerify : Type := {
  verify_create_helium :: MsgVerify (RouteReq OrgCreateHeliumReq);
  verify_create_roamer :: MsgVerify (RouteReq OrgCreateRoamerReq);
  verify_org_update :: MsgVerify (RouteReq OrgUpdateReq);
  verify_disable :: MsgVerify (RouteReq OrgDisableReq);
  verify_enable :: MsgVerify (RouteReq OrgEnableReq)
}.

Class OrgEncode : Type := {
  encode_org :: Encode (signed OrgRes);
  encode_orgs :: Encode (signed (list OrgV1));
  encode_oui :: Encode (signed Z)
}.

(** [From<Org> for proto::OrgV1] *)
Definition org_into_v1 (org : Org) : OrgV1 :=
  mkOrgV1 (o_oui org) (o_owner org) (o_payer org) (o_locked org) (default [] (o_delegate_keys org)).

(** [From<DevAddrConstraint> for proto::DevaddrConstraintV1] *)
Definition constraint_into_v1 (c : DevAddrConstraint) : Z * Z := (field_to_u32 (start_addr c), field_to_u32 (end_addr c)).

Definition org_res (org : Org) (net_id : NetIdField) : OrgRes :=
  mkOrgRes (org_into_v1 org) (field_to_u32 net_id) (constraint_into_v1 <$> default [] (o_constraints org)).

Section OrgService.
Context {RG : Regions} {PE : ProtoEnum FlowTypeV1} {UU : Uuids} {CR : Crypto} {json : Type}.
Context {PJ : ProtocolJson json} {RE : RouteEncode} {OV : OrgVerify} {OE : OrgEncode}.
Implicit Types (db : config_db json) (delegates : gset PublicKeyBinary).

(** What a handler leaves: the database, the cache of delegate keys, the updates
    for the route stream and the reply. *)
Record org_outcome (A : Type) : Type := mkOrgOutcome {
  oo_db : config_db json;
  oo_delegates : gset PublicKeyBinary;
  oo_updates : list RouteStreamRes;
  oo_reply : result A Status
}.
Arguments mkOrgOutcome {A}. Arguments oo_db {A}. Arguments oo_delegates {A}. Arguments oo_updates {A}. Arguments oo_reply {A}.

Definition verify_admin_request_signature {R} `{!MsgVerify R} (cache : CacheKeys) (signer : string) (request : R)
  : result unit Status :=
  if verify_signature_with_type cache Administrator signer request then Ok tt else Err PermissionDenied.

Definition verify_update_request_signature (cache : CacheKeys) (signer : string) (request : RouteReq OrgUpdateReq) db
  : result UpdateAuthorizer Status :=
  if verify_signature_with_type cache Administrator signer request then Ok Admin else
  let? org := ok_or (get_org (ou_oui (rq_body request)) db) NotFound in
  if bool_decide (o_owner org = signer) && verify_msg request signer then Ok ByOrg else Err PermissionDenied.

(** [stream_org_routes_enable_disable]: the routes up to the first that cannot be signed. *)
Fixpoint stream_org_routes (now : Z) (rs : list Route) : list RouteStreamRes * result unit Status :=
  match rs with
  | [] => ([], Ok tt)
  | r :: rest =>
      match stream_update now Add (DRoute (route_into_v1 r)) with
      | None => ([], Err Internal)
      | Some m => let '(ms, res) := stream_org_routes now rest in (m :: ms, res)
      end
  end.

Definition list_orgs_handler db (now : Z) : result (signed (list OrgV1)) Status :=
  sign_response (org_into_v1 <$> list_orgs db) now.

Definition get_org_handler db (oui now : Z) : result (signed OrgRes) Status :=
  let? org := ok_or (get_org oui db) NotFound in
  let? net_id := map_err (fun _ => NotFound) (get_org_netid (o_oui org) db) in
  sign_response (org_res org net_id) now.

(** [devaddrs >= 8 && devaddrs % 2 == 0] *)
Definition requested_addrs (devaddrs : Z) : result Z Status :=
  if (8 <=? devaddrs) && (devaddrs mod 2 =? 0) then Ok devaddrs else Err InvalidArgument.

Definition authorize_delegates (org : Org) delegates : gset PublicKeyBinary :=
  list_to_set (default [] (o_delegate_keys org)) ∪ delegates.

(** [create_helium]; [serial] is the next value of the sequence of [oui]. *)
Definition create_helium_handler (cache : CacheKeys) db delegates (request : RouteReq OrgCreateHeliumReq) (serial now : Z)
  : org_outcome (signed OrgRes) :=
  let b := rq_body request in
  match (let? signer := verify_public_key (rq_signer request) in
         let? _ := verify_admin_request_signature cache signer request in
         let? _ := collect_ok verify_public_key (oh_owner b :: oh_payer b :: oh_delegate_keys b) in
         let net_id := oh_net_id b in
         let? addrs := requested_addrs (oh_devaddrs b) in
         let '(store, r) := checkout_devaddr_constraints (used_devaddrs db) (Z.to_nat addrs) net_id in
         let? devaddr_constraints := map_err (fun _ => FailedPrecondition) r in
         map_err (fun _ => Internal)
           (create_org (oh_owner b) (oh_payer b) (oh_delegate_keys b) (netid_id net_id) devaddr_constraints serial
              (set_used_devaddrs db store))) with
  | Err e => mkOrgOutcome db delegates [] (Err e)
  | Ok (db', org) =>
      mkOrgOutcome db' (authorize_delegates org delegates) [] (sign_response (org_res org (netid_id (oh_net_id b))) now)
  end.

Definition create_roamer_handler (cache : CacheKeys) db delegates (request : RouteReq OrgCreateRoamerReq) (serial now : Z)
  : org_outcome (signed OrgRes) :=
  let b := rq_body request in
  let n := net_id (om_net_id b) in
  match (let? signer := verify_public_key (rq_signer request) in
         let? _ := verify_admin_request_signature cache signer request in
         let? _ := collect_ok verify_public_key (om_owner b :: om_payer b :: om_delegate_keys b) in
         let? devaddr_range := map_err (fun _ => InvalidArgument) (full_range n) in
         map_err (fun _ => Internal)
           (create_org (om_owner b) (om_payer b) (om_delegate_keys b) n [devaddr_range] serial db)) with
  | Err e => mkOrgOutcome db delegates [] (Err e)
  | Ok (db', org) => mkOrgOutcome db' (authorize_delegates org delegates) [] (sign_response (org_res org n) now)
  end.

Definition update_org_handler (cache : CacheKeys) db delegates (request : RouteReq OrgUpdateReq) (now : Z)
  : org_outcome (signed OrgRes) :=
  let b := rq_body request in
  match (let? signer := verify_public_key (rq_signer request) in
         let? authorizer := verify_update_request_signature cache signer request db in
         map_err (fun _ => Internal) (update_org (ou_oui b) authorizer (ou_updates b) db delegates)) with
  | Err e => mkOrgOutcome db delegates [] (Err e)
  | Ok (db', delegates', org) =>
      mkOrgOutcome db' delegates' []
        (let? net_id := map_err (fun _ => NotFound) (get_org_netid (o_oui org) db') in sign_response (org_res org net_id) now)
  end.

(** [disable] and [enable]: the organization is locked or unlocked when it is not already. *)
Definition set_locked_handler {R} `{!MsgVerify R} (target : bool) (cache : CacheKeys) db delegates (request : R) (signer : string)
    (oui now : Z) : org_outcome (signed Z) :=
  match (let? signer := verify_public_key signer in
         let? _ := (if verify_signature cache signer request then Ok tt else Err PermissionDenied) in
         map_err (fun _ => Internal) (is_locked oui db)) with
  | Err e => mkOrgOutcome db delegates [] (Err e)
  | Ok locked =>
      if Bool.eqb locked target then mkOrgOutcome db delegates [] (sign_response oui now)
      else
        let db' := toggle_locked oui db in
        let '(ms, r) := stream_org_routes now (list_routes oui db') in
        mkOrgOutcome db' delegates ms (let? _ := r in sign_response oui now)
  end.

Definition disable_handler (cache : CacheKeys) db delegates (request : RouteReq OrgDisableReq) (now : Z) : org_outcome (signed Z) :=
  let '(OrgDisableReqV1 oui) := rq_body request in set_locked_handler true cache db delegates request (rq_signer request) oui now.

Definition enable_handler (cache : CacheKeys) db delegates (request : RouteReq OrgEnableReq) (now : Z) : org_outcome (signed Z) :=
  let '(OrgEnableReqV1 oui) := rq_body request in set_locked_handler false cache db delegates request (rq_signer request) oui now.
End OrgService.
Arguments mkOrgOutcome {_ json A}. Arguments oo_db {_ json A}. Arguments oo_delegates {_ json A}.
Arguments oo_updates {_ json A}. Arguments oo_reply {_ json A}.

(** ** Leases *)

Section Runs.
Context {RG : Regions} {PE : ProtoEnum FlowTypeV1} {UU : Uuids} {CR : Crypto} {json : Type}.
Context {PJ : ProtocolJson json} {RE : RouteEncode} {OV : OrgVerify} {OE : OrgEncode}.
Implicit Types (db : config_db json) (delegates : gset PublicKeyBinary).

Inductive org_request : Type :=
| RqCreateHelium (r : RouteReq OrgCreateHeliumReq) (serial : Z)
| RqCreateRoamer (r : RouteReq OrgCreateRoamerReq) (serial : Z)
| RqUpdate (r : RouteReq OrgUpdateReq)
| RqDisable (r : RouteReq OrgDisableReq)
| RqEnable (r : RouteReq OrgEnableReq).

Definition org_step (cache : CacheKeys) (rq : org_request) (now : Z) db delegates : config_db json * gset PublicKeyBinary :=
  match rq with
  | RqCreateHelium r serial => let o := create_helium_handler cache db delegates r serial now in (oo_db o, oo_delegates o)
  | RqCreateRoamer r serial => let o := create_roamer_handler cache db delegates r serial now in (oo_db o, oo_delegates o)
  | RqUpdate r => let o := update_org_handler cache db delegates r now in (oo_db o, oo_delegates o)
  | RqDisable r => let o := disable_handler cache db delegates r now in (oo_db o, oo_delegates o)
  | RqEnable r => let o := enable_handler cache db delegates r now in (oo_db o, oo_delegates o)
  end.

(** The requests that keep to even blocks: a roamer's NetID is not one of
    Helium's, an update asks for an even number of addresses or an even block of
    the range, and removes no constraint twice. *)
Definition org_request_ok db (rq : org_request) : Prop :=
  match rq with
  | RqCreateHelium _ serial => - 2 ^ 63 <= serial < 2 ^ 63
  | RqCreateRoamer r serial =>
      - 2 ^ 63 <= serial < 2 ^ 63 /\ is_u32 (om_net_id (rq_body r)) /\ is_helium_netid (om_net_id (rq_body r)) = false
  | RqUpdate r =>
      NoDup (omap removal (ou_updates (rq_body r))) /\
      forall n, get_org_netid (ou_oui (rq_body r)) db = Ok n -> Forall (update_ok n) (ou_updates (rq_body r))
  | _ => True
  end.

Definition empty_db : config_db json := mkConfigDb ∅ ∅ [] ∅ ∅ ∅ ∅ ∅ ∅.

Inductive org_reachable : config_db json -> gset PublicKeyBinary -> Prop :=
| org_start : org_reachable empty_db ∅
| org_next cache rq now db delegates :
    org_reachable db delegates -> org_request_ok db rq ->
    org_reachable (org_step cache rq now db delegates).1 (org_step cache rq now db delegates).2.

Lemma empty_leases : leases_inv empty_db.
Proof.
  split.
  - intros d id Hd. cbn in Hd. by rewrite lookup_empty in Hd.
  - intros n a Ha. cbn. rewrite !elem_of_nil. done.
  - intros n. constructor.
  - intros n a. cbn. by rewrite !elem_of_nil.
  - intros n r Hr. cbn in Hr. by apply not_elem_of_nil in Hr.
  - intros r Hr. cbn in Hr. by apply not_elem_of_nil in Hr.
  - intros r Hr. cbn in Hr. by apply not_elem_of_nil in Hr.
  - intros r r' Hr. cbn in Hr. by apply not_elem_of_nil in Hr.
Qed.

Lemma toggle_leases oui db : leases_inv db -> leases_inv (toggle_locked oui db).
Proof.
  intros Hi. apply (leases_ext db _ (delegate_rows db) Hi). intros o. apply set_org_some.
Qed.

Lemma org_step_leases cache rq now db delegates :
  leases_inv db -> org_request_ok db rq -> leases_inv (org_step cache rq now db delegates).1.
Proof.
  intros Hi Hok. destruct rq as [r serial|r serial|r|r|r]; cbn [org_step fst org_request_ok] in *.
  - unfold create_helium_handler. case_match eqn:E; [|done]. case_match; subst. cbn.
    apply result_bind_ok in E as (signer & _ & E). apply result_bind_ok in E as ([] & _ & E).
    apply result_bind_ok in E as (keys & _ & E). apply result_bind_ok in E as (addrs & Ha & E).
    destruct (checkout_devaddr_constraints _ _ _) as [store res] eqn:Ec.
    apply result_bind_ok in E as (cs & ->%map_err_ok & E%map_err_ok).
    eapply create_helium_leases; [done| |done|exact Ec|exact E].
    unfold requested_addrs in Ha. destruct (_ && _) eqn:Eb; [|done]. injection Ha as <-.
    by apply andb_true_iff in Eb as [_ Eb%Z.eqb_eq].
  - destruct Hok as (Hs & Hu & Hh). unfold create_roamer_handler. case_match eqn:E; [|done]. case_match; subst. cbn.
    apply result_bind_ok in E as (signer & _ & E). apply result_bind_ok in E as ([] & _ & E).
    apply result_bind_ok in E as (keys & _ & E). apply result_bind_ok in E as (range & _ & E%map_err_ok).
    by eapply create_roamer_leases.
  - destruct Hok as [Hnd Hu]. unfold update_org_handler. case_match eqn:E; [|done]. do 2 case_match; subst. cbn.
    apply result_bind_ok in E as (signer & _ & E). apply result_bind_ok in E as (auth & _ & E%map_err_ok).
    by eapply update_org_leases.
  - unfold disable_handler, set_locked_handler. case_match. case_match; [|done]. case_match; [done|]. case_match. cbn.
    by apply toggle_leases.
  - unfold enable_handler, set_locked_handler. case_match. case_match; [|done]. case_match; [done|]. case_match. cbn.
    by apply toggle_leases.
Qed.

End Runs.
