(* ===== verification/ConfigStream.v ===== *)
(** * The route stream

    What the subscribers of the route stream of [iot_config] see.  The abstract
    specification is a view: for every route, EUI pair, device address range and
    session key filter, its value or nothing.  The tables have a view, and a
    client has the one that the updates it received build up.  The services are a
    step relation: a request changes the tables and leaves updates to broadcast,
    in tasks of their own, and a task sends its next update.  The theorems: the
    stream refines the tables as long as updates of the same entry are sent in
    the order in which they were committed, also for a client that subscribes
    while requests are being handled; and the ways in which it does not.  The
    channel has a receiver (a task that finds none gives up the rest of its
    updates), and a receiver does not lag behind it. *)

From S2P Require Import Prelude Solana FileStoreTypes LoraField HeliumNetids.
From S2P Require Import ConfigTables ConfigOrgs ConfigRoutes ConfigRouteService ConfigOrgService.

(** ** Views *)

Inductive skey : Type :=
| KRoute (id : Uuid)
| KEui (k : Uuid * (Z * Z))
| KRange (k : Uuid * (Z * Z))
| KSkf (k : Uuid * (Z * string)).

#[export] Instance skey_eq_dec : EqDecision skey.
Proof. solve_decision. Defined.

Section Views.
Context {RG : Regions}.

Inductive sval : Type := VRoute (r : RouteV1) | VPresent | VCopies (n : Z).

Definition data_key (d : StreamData) : skey :=
  match d with
  | DRoute r => KRoute (rv_id r)
  | DEui e => KEui (ev_route_id e, (as_i64 (ev_app_eui e), as_i64 (ev_dev_eui e)))
  | DRange r => KRange (dv_route_id r, (as_i32 (dv_start_addr r), as_i32 (dv_end_addr r)))
  | DSkf s => KSkf (fv_route_id s, (as_i32 (fv_devaddr s), fv_session_key s))
  end.

Definition data_val (d : StreamData) : sval :=
  match d with
  | DRoute r => VRoute r
  | DEui _ | DRange _ => VPresent
  | DSkf s => VCopies (fv_max_copies s)
  end.

Definition view : Type := skey -> option sval.

(** A client adds or removes the entry an update names. *)
Definition receive_one (v : view) (e : ActionV1 * StreamData) : view :=
  fun k => if decide (k = data_key e.2) then (match e.1 with Add => Some (data_val e.2) | Remove => None end) else v k.

Definition receive (l : list (ActionV1 * StreamData)) (v : view) : view := fold_left receive_one l v.

Definition touched (l : list (ActionV1 * StreamData)) (k : skey) : Prop := k ∈ (fun e => data_key e.2) <$> l.

#[global] Instance touched_dec l k : Decision (touched l k).
Proof. unfold touched. apply _. Defined.

Lemma receive_app l1 l2 v : receive (l1 ++ l2) v = receive l2 (receive l1 v).
Proof. apply fold_left_app. Qed.

Lemma touched_app l1 l2 k : touched (l1 ++ l2) k <-> touched l1 k \/ touched l2 k.
Proof. unfold touched. by rewrite fmap_app, elem_of_app. Qed.

Lemma touched_cons e l k : touched (e :: l) k <-> k = data_key e.2 \/ touched l k.
Proof. unfold touched. by rewrite fmap_cons, elem_of_cons. Qed.

Lemma receive_untouched l v k : ~ touched l k -> receive l v k = v k.
Proof.
  revert v. induction l as [|e l IH]; intros v Hn; [done|]. rewrite touched_cons in Hn. cbn [receive fold_left].
  change (receive l (receive_one v e) k = v k). rewrite IH by tauto. unfold receive_one. by rewrite decide_False by tauto.
Qed.

(** The last update of an entry decides, whatever came before. *)
Lemma receive_touched l v v' k : touched l k -> receive l v k = receive l v' k.
Proof.
  revert v v'. induction l as [|e l IH]; intros v v' Ht; [by apply not_elem_of_nil in Ht|].
  change (receive l (receive_one v e) k = receive l (receive_one v' e) k).
  destruct (decide (touched l k)) as [Hl|Hl]; [by apply IH|]. rewrite !receive_untouched by done.
  apply touched_cons in Ht as [->|?]; [|done]. unfold receive_one. by rewrite !decide_True.
Qed.

(** Between two views, the updates of a list account for what changed. *)
Definition tracks (l : list (ActionV1 * StreamData)) (f f' : view) : Prop :=
  forall k, (touched l k /\ forall v, receive l v k = f' k) \/ (~ touched l k /\ f' k = f k).

Lemma tracks_nil f f' : (forall k, f' k = f k) -> tracks [] f f'.
Proof. intros E k. right. split; [by intros ?%not_elem_of_nil|done]. Qed.

Lemma tracks_app l1 l2 f f1 f2 : tracks l1 f f1 -> tracks l2 f1 f2 -> tracks (l1 ++ l2) f f2.
Proof.
  intros H1 H2 k. rewrite touched_app. destruct (H2 k) as [[Ht Hr]|[Ht Hr]].
  - left. split; [by right|]. intros v. by rewrite receive_app.
  - destruct (H1 k) as [[Ht1 Hr1]|[Ht1 Hr1]].
    + left. split; [by left|]. intros v. rewrite receive_app, receive_untouched by done. by rewrite Hr1, Hr.
    + right. split; [tauto|]. congruence.
Qed.

(** Updates of different entries can be sent in either order. *)
Lemma tracks_swap l1 l2 f f1 f2 :
  (forall k, ~ (touched l1 k /\ touched l2 k)) -> tracks l1 f f1 -> tracks l2 f1 f2 -> tracks (l2 ++ l1) f f2.
Proof.
  intros Hd H1 H2 k. rewrite touched_app. destruct (H1 k) as [[Ht1 Hr1]|[Ht1 Hr1]], (H2 k) as [[Ht2 Hr2]|[Ht2 Hr2]].
  - by destruct (Hd k).
  - left. split; [by right|]. intros v. by rewrite receive_app, Hr1, Hr2.
  - left. split; [by left|]. intros v. by rewrite receive_app, receive_untouched, Hr2.
  - right. split; [tauto|]. congruence.
Qed.

Lemma tracks_one a d f f' :
  f' (data_key d) = (match a with Add => Some (data_val d) | Remove => None end) ->
  (forall k, k <> data_key d -> f' k = f k) -> tracks [(a, d)] f f'.
Proof.
  intros He Hne k. rewrite touched_cons. cbn [snd]. destruct (decide (k = data_key d)) as [->|Hk].
  - left. split; [by left|]. intros v. cbn. unfold receive_one. cbn [fst snd]. by rewrite decide_True.
  - right. split; [|by apply Hne]. intros [?|Ht]; [done|by apply not_elem_of_nil in Ht].
Qed.

Lemma receive_removes l v k :
  (forall e, e ∈ l -> e.1 = Remove) -> touched l k -> receive l v k = None.
Proof.
  revert v. induction l as [|e l IH]; intros v Hl Ht; [by apply not_elem_of_nil in Ht|].
  change (receive l (receive_one v e) k = None). destruct (decide (touched l k)) as [Hn|Hn].
  - apply IH; [|done]. intros e' He'. apply Hl. by right.
  - rewrite receive_untouched by done. apply touched_cons in Ht as [->|?]; [|done]. unfold receive_one. rewrite decide_True by done.
    by rewrite (Hl e ltac:(left)).
Qed.
End Views.

(** ** The view of the tables *)

Section Tables.
Context {RG : Regions} {PE : ProtoEnum FlowTypeV1} {json : Type} {PJ : ProtocolJson json}.
Implicit Types db : config_db json.

Definition live_route db (id : Uuid) : option Route :=
  row ← routes db !! id; if rr_deleted row then None else route_of_row db id row.

Definition row_state {K V} `{!EqDecision K, !Countable K} (val : V -> sval) (t : gmap (Uuid * K) (tracked V)) (k : Uuid * K)
  : option sval :=
  row ← t !! k; if tk_deleted row then None else Some (val (tk_value row)).

Definition db_view db : view := fun k =>
  match k with
  | KRoute id => (VRoute ∘ route_into_v1) <$> live_route db id
  | KEui k => row_state (fun _ => VPresent) (route_eui_pairs db) k
  | KRange k => row_state (fun _ => VPresent) (route_devaddr_ranges db) k
  | KSkf k => row_state (fun n => VCopies (as_u32 n)) (route_session_key_filters db) k
  end.

Definition route_alive db (id : Uuid) : Prop := exists row, routes db !! id = Some row /\ rr_deleted row = false.

Definition key_route (k : skey) : option Uuid :=
  match k with KRoute _ => None | KEui k => Some k.1 | KRange k => Some k.1 | KSkf k => Some k.1 end.

(** The entries that count: routes, and what belongs to a route that is not deleted. *)
Definition relevant db (k : skey) : Prop := match key_route k with None => True | Some id => route_alive db id end.
End Tables.

(** ** What the statements on a table broadcast *)

Section ChildTracks.
Context {RG : Regions} {json : Type} {K V : Type} `{!EqDecision K, !Countable K, !EqDecision V}.
Variables (key : Uuid * K -> skey) (val : V -> sval) (msg : (Uuid * K) * V -> StreamData) (valid : Uuid * K -> Prop).
Hypothesis key_dec : forall k, {k0 | k = key k0} + {forall k0, k <> key k0}.
Hypothesis key_inj : forall k k', key k = key k' -> k = k'.
Hypothesis msg_key : forall kv, valid kv.1 -> data_key (msg kv) = key kv.1.
Hypothesis msg_val : forall kv, data_val (msg kv) = val kv.2.
Implicit Types (t : gmap (Uuid * K) (tracked V)) (f : view).

(** The views [f] and [f'] are those of a table before and after. *)
Definition table_views t t' f f' : Prop :=
  (forall k, f (key k) = row_state val t k) /\ (forall k, f' (key k) = row_state val t' k) /\
  (forall k, (forall k0, k <> key k0) -> f' k = f k).

Lemma upsert_row_state now t kv k :
  row_state val (upsert_row now t kv) k = if decide (k = kv.1) then Some (val kv.2) else row_state val t k.
Proof.
  destruct kv as [k' v]. unfold upsert_row, row_state. cbn [fst snd]. destruct (decide (k = k')) as [->|Hne].
  - destruct (t !! k') as [r|] eqn:E; [destruct (decide _) as [[<- Hd]|]|]; rewrite ?lookup_insert_eq; [|done|done].
    rewrite E. cbn. by rewrite Hd.
  - destruct (t !! k') as [r|] eqn:E; [destruct (decide _)|]; rewrite ?lookup_insert_ne by done; done.
Qed.

Lemma upsert_fold_tracks now (l : list ((Uuid * K) * V)) t f f' :
  Forall (fun kv => valid kv.1) l -> table_views t (fold_left (upsert_row now) l t) f f' ->
  tracks ((fun kv => (Add, msg kv)) <$> l) f f'.
Proof.
  revert t f. induction l as [|kv l IH]; intros t f Hv (H1 & H2 & H3).
  { apply tracks_nil. intros k. destruct (key_dec k) as [[k0 ->]|Hk]; [by rewrite H1, H2|by apply H3]. }
  apply Forall_cons in Hv as [Hkv Hv]. cbn [fold_left] in H2. rewrite fmap_cons.
  set (f1 := fun k => match key_dec k with inleft (exist _ k0 _) => row_state val (upsert_row now t kv) k0 | inright _ => f k end).
  assert (forall k0, f1 (key k0) = row_state val (upsert_row now t kv) k0) as Hf1.
  { intros k0. unfold f1. destruct (key_dec (key k0)) as [[k1 E]|Hk]; [by apply key_inj in E as ->|by destruct (Hk k0)]. }
  assert (forall k, (forall k0, k <> key k0) -> f1 k = f k) as Hf1'.
  { intros k Hk. unfold f1. destruct (key_dec k) as [[k1 ->]|_]; [by destruct (Hk k1)|done]. }
  change ((Add, msg kv) :: _) with ([(Add, msg kv)] ++ ((fun kv => (Add, msg kv)) <$> l)). apply (tracks_app _ _ f f1 f').
  - apply tracks_one.
    + rewrite msg_key, Hf1, upsert_row_state, decide_True, msg_val by done. done.
    + intros k Hk. rewrite msg_key in Hk by done. destruct (key_dec k) as [[k0 ->]|Hk']; [|by apply Hf1'].
      rewrite Hf1, upsert_row_state, H1, decide_False; [done|]. by intros ->.
  - apply (IH (upsert_row now t kv)); [done|]. split; [done|]. split; [done|]. intros k Hk. by rewrite H3, Hf1'.
Qed.

Lemma upsert_tracks now (known : gmap Uuid (RouteRow json)) l t t' rows f f' :
  upsert_rows now known l t = Ok (t', rows) -> Forall (fun kv => valid kv.1) l -> table_views t t' f f' ->
  tracks ((fun kv => (Add, msg kv)) <$> rows) f f' /\ (forall kv, kv ∈ rows -> is_Some (known !! kv.1.1)).
Proof.
  unfold upsert_rows. destruct (decide _); [|done]. destruct (forallb _ l) eqn:Ef; [|done]. intros [= <- <-] Hv Ht.
  split; [by eapply upsert_fold_tracks|]. intros kv Hkv. rewrite forallb_forall in Ef.
  apply list_elem_of_In, Ef in Hkv. by apply bool_decide_eq_true in Hkv.
Qed.

Lemma mark_fold_state now (l : list (Uuid * K)) t k :
  row_state val (fold_left (mark_row now) l t) k = if decide (k ∈ l) then None else row_state val t k.
Proof.
  revert t. induction l as [|k' l IH]; intros t; cbn [fold_left]; [by rewrite decide_False by apply not_elem_of_nil|].
  rewrite IH. destruct (decide (k ∈ l)) as [Hl|Hl]; [by rewrite decide_True by (by right)|].
  unfold mark_row, row_state. destruct (decide (k = k')) as [->|Hne].
  - rewrite decide_True by left. destruct (t !! k') as [r|] eqn:E; [destruct (tk_deleted r) eqn:Ed|]; rewrite ?lookup_insert_eq, ?E; cbn; rewrite ?Ed; done.
  - rewrite decide_False by (by intros [?|?]%elem_of_cons).
    destruct (t !! k') as [r|] eqn:E; [destruct (tk_deleted r)|]; rewrite ?lookup_insert_ne by done; done.
Qed.

Lemma mark_tracks now (l : list (Uuid * K)) t f f' :
  Forall valid l -> table_views t (mark_rows now l t).1 f f' ->
  tracks ((fun kv => (Remove, msg kv)) <$> (mark_rows now l t).2) f f' /\
  (forall kv, kv ∈ (mark_rows now l t).2 -> is_Some (t !! kv.1)).
Proof.
  intros Hv (H1 & H2 & H3). cbn [mark_rows fst snd] in *.
  assert (forall kv, kv ∈ omap (fun k => (fun r => (k, tk_value r)) <$> t !! k) (remove_dups l) ->
    kv.1 ∈ l /\ exists r, t !! kv.1 = Some r /\ kv.2 = tk_value r) as Hkv.
  { intros kv (k & Hk & Hr)%list_elem_of_omap. rewrite elem_of_remove_dups in Hk. destruct (t !! k) as [r|] eqn:E; [|done].
    injection Hr as <-. cbn [fst snd]. rewrite E. split; [done|]. by exists r. }
  split; [|intros kv (_ & r & Hr & _)%Hkv; by exists r].
  set (evs := _ <$> _).
  assert (forall k, touched evs (key k) <-> k ∈ l /\ is_Some (t !! k)) as Ht.
  { intros k. unfold touched, evs. rewrite list_elem_of_fmap. setoid_rewrite list_elem_of_fmap. rewrite Forall_forall in Hv. split.
    - intros (e & E & kv & -> & Hin). apply Hkv in Hin as (Hin & r & Hr & _). cbn in E. rewrite msg_key in E by (by apply Hv).
      apply key_inj in E as ->. split; [done|by exists r].
    - intros [Hin [r Hr]]. exists (Remove, msg (k, tk_value r)). cbn. rewrite msg_key by (by apply Hv). split; [done|].
      exists (k, tk_value r). split; [done|]. apply list_elem_of_omap. exists k. rewrite elem_of_remove_dups, Hr. done. }
  intros k. destruct (key_dec k) as [[k0 ->]|Hk].
  - rewrite H1, H2, mark_fold_state. destruct (decide (touched evs (key k0))) as [Htk|Htk].
    + left. split; [done|]. intros v. rewrite decide_True by (by apply Ht). apply receive_removes; [|done].
      intros e (kv & -> & _)%list_elem_of_fmap. done.
    + right. split; [done|]. destruct (decide (k0 ∈ l)) as [Hl|Hl]; [|done]. rewrite Ht in Htk. unfold row_state.
      destruct (t !! k0) as [r|]; [|done]. exfalso. apply Htk. split; [done|by exists r].
  - right. split; [|by apply H3]. intros (e & E & He)%list_elem_of_fmap. apply list_elem_of_fmap in He as (kv & -> & Hin).
    apply Hkv in Hin as [Hin _]. cbn in E. rewrite Forall_forall in Hv. rewrite msg_key in E by (by apply Hv). by apply Hk in E.
Qed.
End ChildTracks.

(** ** The requests *)

Section System.
Context {RG : Regions} {PE : ProtoEnum FlowTypeV1} {UU : Uuids} {CR : Crypto} {CH : Chrono} {json : Type}.
Context {PJ : ProtocolJson json} {RV : RouteVerify} {RE : RouteEncode} {OV : OrgVerify} {OE : OrgEncode}.
Hypothesis sign_total : forall m, is_Some (sign m).
Implicit Types (db : config_db json) (seen : gset Uuid).

Definition eui_valid (k : Uuid * (Z * Z)) : Prop := as_i64 k.2.1 = k.2.1 /\ as_i64 k.2.2 = k.2.2.
Definition range_valid (k : Uuid * (Z * Z)) : Prop := as_i32 k.2.1 = k.2.1 /\ as_i32 k.2.2 = k.2.2.
Definition skf_valid (k : Uuid * (Z * string)) : Prop := as_i32 k.2.1 = k.2.1.

Definition eui_msg (kv : (Uuid * (Z * Z)) * unit) : StreamData := DEui (eui_into_v1 (eui_of_row kv)).
Definition range_msg (kv : (Uuid * (Z * Z)) * unit) : StreamData := DRange (range_into_v1 (range_of_row kv)).
Definition skf_msg (kv : (Uuid * (Z * string)) * Z) : StreamData := DSkf (skf_into_v1 (skf_of_row kv)).

Definition eui_dec (k : skey) : {k0 | k = KEui k0} + {forall k0, k <> KEui k0}.
Proof. destruct k as [| k | |]; (by left; exists k) || by right. Defined.
Definition range_dec (k : skey) : {k0 | k = KRange k0} + {forall k0, k <> KRange k0}.
Proof. destruct k as [| |k|]; (by left; exists k) || by right. Defined.
Definition skf_dec (k : skey) : {k0 | k = KSkf k0} + {forall k0, k <> KSkf k0}.
Proof. destruct k as [| | |k]; (by left; exists k) || by right. Defined.

Lemma eui_msg_key kv : eui_valid kv.1 -> data_key (eui_msg kv) = KEui kv.1.
Proof.
  destruct kv as [[u [a d]] []]. intros [Ha Hd]. cbn in *. unfold field_to_u64, field_from_i64.
  change (as_i64 (as_u64 a)) with (as_signed 64 (wrap 64 a)). change (as_i64 (as_u64 d)) with (as_signed 64 (wrap 64 d)).
  rewrite !as_signed_wrap. unfold as_i64 in *. by rewrite Ha, Hd.
Qed.

Lemma range_msg_key kv : range_valid kv.1 -> data_key (range_msg kv) = KRange kv.1.
Proof.
  destruct kv as [[u [a d]] []]. intros [Ha Hd]. cbn in *. unfold field_to_u32, field_from_i32.
  by rewrite !as_i32_u32_u32, Ha, Hd.
Qed.

Lemma skf_msg_key kv : skf_valid kv.1 -> data_key (skf_msg kv) = KSkf kv.1.
Proof.
  destruct kv as [[u [a d]] n]. unfold skf_valid. intros Ha. cbn in *. unfold field_to_u32, field_from_i32.
  by rewrite as_i32_u32_u32, Ha.
Qed.

Lemma eui_values_valid l vals : collect_ok eui_values l = Ok vals -> Forall (fun kv => eui_valid kv.1) vals.
Proof.
  intros Hv. apply Forall_forall. intros kv Hkv. destruct (collect_ok_elem _ _ _ _ Hv Hkv) as (e & _ & He).
  unfold eui_values in He. apply result_bind_ok in He as (u & _ & [= <-]). split; by apply as_signed_idem.
Qed.

Lemma range_values_valid l vals : collect_ok range_values l = Ok vals -> Forall (fun kv => range_valid kv.1) vals.
Proof.
  intros Hv. apply Forall_forall. intros kv Hkv. destruct (collect_ok_elem _ _ _ _ Hv Hkv) as (e & _ & He).
  unfold range_values in He. apply result_bind_ok in He as (u & _ & [= <-]). split; by apply as_signed_idem.
Qed.

Lemma skf_values_valid l vals : collect_ok skf_values l = Ok vals -> Forall (fun kv => skf_valid kv.1) vals.
Proof.
  intros Hv. apply Forall_forall. intros kv Hkv. destruct (collect_ok_elem _ _ _ _ Hv Hkv) as (e & _ & He).
  unfold skf_values in He. apply result_bind_ok in He as (u & _ & [= <-]). by apply as_signed_idem.
Qed.

Lemma stream_update_body now a d : exists m, stream_update now a d = Some m /\ sg_body m = (a, d).
Proof.
  unfold stream_update, sign_response. destruct (sign_total (encode_to_vec (mkSigned (a, d) (encode_timestamp now) own_key ""))) as [s ->].
  cbn. by eexists.
Qed.

Lemma stream_updates_bodies now l : sg_body <$> stream_updates now l = l.
Proof.
  induction l as [|[a d] l IH]; [done|]. cbn [stream_updates]. destruct (stream_update_body now a d) as (m & -> & E).
  by rewrite fmap_cons, E, IH.
Qed.

Lemma stream_one_body now a d :
  sg_body <$> (match stream_update now a d with Some m => [m] | None => [] end) = [(a, d)].
Proof. exact (stream_updates_bodies now [(a, d)]). Qed.

(** Every row has its route, every route its organization, and the route ids that
    were ever generated are recorded. *)
Record stream_inv db seen : Prop := mkStreamInv {
  si_seen id : is_Some (routes db !! id) -> id ∈ seen;
  si_ids : ids_printed db;
  si_org id row : routes db !! id = Some row -> is_Some (organizations db !! rr_oui row);
  si_eui k : is_Some (route_eui_pairs db !! k) -> is_Some (routes db !! k.1) /\ eui_valid k;
  si_range k : is_Some (route_devaddr_ranges db !! k) -> is_Some (routes db !! k.1) /\ range_valid k;
  si_skf k : is_Some (route_session_key_filters db !! k) -> is_Some (routes db !! k.1) /\ skf_valid k
}.

(** An entry of a route that did not exist yet. *)
Definition new_key db seen (k : skey) : Prop := exists id, key_route k = Some id /\ (id ∉ seen) /\ db_view db k = None.

(** A change of the tables with the updates it leaves: the updates account for
    every entry that counts afterwards; no route comes back. *)
Record change_ok db seen (evs : list (ActionV1 * StreamData)) db' seen' : Prop := mkChangeOk {
  ck_inv : stream_inv db' seen';
  ck_grow : seen ⊆ seen';
  ck_alive id : route_alive db' id -> id ∈ seen -> route_alive db id;
  ck_view k : relevant db' k ->
    (touched evs k /\ forall v, receive evs v k = db_view db' k) \/
    (~ touched evs k /\ (relevant db k \/ new_key db seen k) /\
     db_view db' k = db_view db k);
  ck_routes k id : touched evs k -> key_route k = Some id -> id ∈ seen'
}.

(** A change that leaves the routes alone. *)
Lemma change_rows db seen evs db' :
  stream_inv db seen -> routes db' = routes db -> organizations db' = organizations db -> stream_inv db' seen ->
  tracks evs (db_view db) (db_view db') -> (forall k id, touched evs k -> key_route k = Some id -> id ∈ seen) ->
  change_ok db seen evs db' seen.
Proof.
  intros Hi Er Eo Hi' Ht Hk. split; [done|done| | |done].
  - intros id [row [Hr Hd]] _. rewrite Er in Hr. by exists row.
  - intros k Hrel. assert (relevant db k) as Hrel'.
    { unfold relevant, route_alive in *. destruct (key_route k); [by rewrite <- Er|done]. }
    destruct (Ht k) as [[H1 H2]|[H1 H2]]; [by left|right]. split; [done|]. split; [by left|done].
Qed.

(** *** Rows of routes *)

Section ChildOp.
Context {K V : Type} `{!EqDecision K, !Countable K, !EqDecision V}.
Variables (key : Uuid * K -> skey) (val : V -> sval) (msg : (Uuid * K) * V -> StreamData) (valid : Uuid * K -> Prop).
Variables (get : config_db json -> gmap (Uuid * K) (tracked V)) (set : config_db json -> gmap (Uuid * K) (tracked V) -> config_db json).
Hypothesis key_dec : forall k, {k0 | k = key k0} + {forall k0, k <> key k0}.
Hypothesis key_inj : forall k k', key k = key k' -> k = k'.
Hypothesis key_route_key : forall k, key_route (key k) = Some k.1.
Hypothesis msg_key : forall kv, valid kv.1 -> data_key (msg kv) = key kv.1.
Hypothesis msg_val : forall kv, data_val (msg kv) = val kv.2.
Hypothesis get_view : forall db k, db_view db (key k) = row_state val (get db) k.
Hypothesis set_get : forall db t, get (set db t) = t.
Hypothesis set_view : forall db t k, (forall k0, k <> key k0) -> db_view (set db t) k = db_view db k.
Hypothesis set_inv : forall db seen t, stream_inv db seen -> (forall k, is_Some (t !! k) -> is_Some (routes db !! k.1) /\ valid k) ->
  stream_inv (set db t) seen.
Hypothesis inv_get : forall db seen k, stream_inv db seen -> is_Some (get db !! k) -> is_Some (routes db !! k.1) /\ valid k.

Lemma child_insert db seen (now : Z) (vals : list ((Uuid * K) * V)) t rows :
  stream_inv db seen -> Forall (fun kv => valid kv.1) vals -> upsert_rows now (routes db) vals (get db) = Ok (t, rows) ->
  let evs := (fun kv => (Add, msg kv)) <$> rows in
  stream_inv (set db t) seen /\ tracks evs (db_view db) (db_view (set db t)) /\
  (forall k id, touched evs k -> key_route k = Some id -> id ∈ seen).
Proof.
  intros Hi Hv Hu evs.
  destruct (upsert_tracks key val msg valid key_dec key_inj msg_key msg_val now (routes db) vals (get db) t rows
    (db_view db) (db_view (set db t))) as [Ht Hkn]; [done|done| |].
  { split; [done|]. split; [intros k; by rewrite get_view, set_get|]. intros k Hk. by apply set_view. }
  assert (rows = vals) as ->.
  { unfold upsert_rows in Hu. destruct (decide _); [|done]. destruct (forallb _ vals); [|done]. by injection Hu as _ <-. }
  rewrite Forall_forall in Hv. split; [|split; [done|]].
  - apply set_inv; [done|]. intros k Hk. destruct (decide (k ∈ vals.*1)) as [Hin|Hni].
    + apply list_elem_of_fmap in Hin as (kv & -> & Hin). split; [by apply Hkn|by apply Hv].
    + rewrite (upsert_rows_lookup _ _ _ _ _ _ _ Hu Hni) in Hk. by apply (inv_get db seen).
  - intros k id (e & -> & He)%list_elem_of_fmap. apply list_elem_of_fmap in He as (kv & -> & Hin). cbn [snd].
    rewrite msg_key by (by apply Hv). rewrite key_route_key. intros [= <-]. by apply (si_seen db seen Hi), Hkn.
Qed.

Lemma child_remove db seen (now : Z) (vals : list ((Uuid * K) * V)) :
  stream_inv db seen -> Forall (fun kv => valid kv.1) vals ->
  let tr := mark_rows now vals.*1 (get db) in
  let evs := (fun kv : (Uuid * K) * V => (Remove, msg kv)) <$> tr.2 in
  stream_inv (set db tr.1) seen /\ tracks evs (db_view db) (db_view (set db tr.1)) /\
  (forall k id, touched evs k -> key_route k = Some id -> id ∈ seen).
Proof.
  intros Hi Hv tr evs. assert (Forall valid vals.*1) as Hv' by (by apply Forall_fmap).
  destruct (mark_tracks key val msg valid key_dec key_inj msg_key now vals.*1 (get db)
    (db_view db) (db_view (set db tr.1))) as [Ht Hkn]; [done| |].
  { split; [done|]. split; [intros k; by rewrite get_view, set_get|]. intros k Hk. by apply set_view. }
  assert (forall k, is_Some (tr.1 !! k) -> is_Some (get db !! k)) as Hp.
  { intros k Hk. unfold tr in Hk. cbn [mark_rows fst] in Hk. revert Hk. generalize vals.*1 (get db). clear. intros l t.
    revert t. induction l as [|k' l IH]; intros t; [done|]. cbn [fold_left]. intros Hk%IH. unfold mark_row in Hk.
    destruct (t !! k') as [r|] eqn:E; [|done]. destruct (tk_deleted r); [done|].
    destruct (decide (k' = k)) as [->|Hne]; [by exists r|by rewrite lookup_insert_ne in Hk]. }
  split; [|split; [done|]].
  - apply set_inv; [done|]. intros k Hk%Hp. by apply (inv_get db seen).
  - intros k id (e & -> & He)%list_elem_of_fmap. apply list_elem_of_fmap in He as (kv & -> & Hin). cbn [snd].
    apply Hkn in Hin. destruct (inv_get db seen _ Hi Hin) as [Hr Hval].
    rewrite msg_key by done. rewrite key_route_key. intros [= <-]. by apply (si_seen db seen Hi).
Qed.
End ChildOp.

Lemma eui_set_view db t k : (forall k0, k <> KEui k0) -> db_view (set_euis db t) k = db_view db k.
Proof. intros Hk. destruct k as [?|k|?|?]; [done|by destruct (Hk k)|done|done]. Qed.

Lemma eui_set_inv db seen t :
  stream_inv db seen -> (forall k, is_Some (t !! k) -> is_Some (routes db !! k.1) /\ eui_valid k) -> stream_inv (set_euis db t) seen.
Proof. intros [] Ht. by split. Qed.

Lemma eui_inj k k' : KEui k = KEui k' -> k = k'.
Proof. by intros [= ->]. Qed.

Lemma range_set_view db t k : (forall k0, k <> KRange k0) -> db_view (set_ranges db t) k = db_view db k.
Proof. intros Hk. destruct k as [?|?|k|?]; [done|done|by destruct (Hk k)|done]. Qed.

Lemma range_set_inv db seen t :
  stream_inv db seen -> (forall k, is_Some (t !! k) -> is_Some (routes db !! k.1) /\ range_valid k) -> stream_inv (set_ranges db t) seen.
Proof. intros [] Ht. by split. Qed.

Lemma range_inj k k' : KRange k = KRange k' -> k = k'.
Proof. by intros [= ->]. Qed.

Lemma skf_set_view db t k : (forall k0, k <> KSkf k0) -> db_view (set_skfs db t) k = db_view db k.
Proof. intros Hk. destruct k as [?|?|?|k]; [done|done|done|by destruct (Hk k)]. Qed.

Lemma skf_set_inv db seen t :
  stream_inv db seen -> (forall k, is_Some (t !! k) -> is_Some (routes db !! k.1) /\ skf_valid k) -> stream_inv (set_skfs db t) seen.
Proof. intros [] Ht. by split. Qed.

Lemma skf_inj k k' : KSkf k = KSkf k' -> k = k'.
Proof. by intros [= ->]. Qed.

Lemma eui_insert_step l now db seen db' rows :
  stream_inv db seen -> insert_euis l now db = Ok (db', rows) ->
  let evs := (fun e => (Add, DEui (eui_into_v1 e))) <$> rows in
  routes db' = routes db /\ organizations db' = organizations db /\ stream_inv db' seen /\
  tracks evs (db_view db) (db_view db') /\ (forall k id, touched evs k -> key_route k = Some id -> id ∈ seen).
Proof.
  intros Hi Hl evs. destruct l as [|a l].
  { injection Hl as <- <-. split; [done|]. split; [done|]. split; [done|]. split; [by apply tracks_nil|]. by intros k id ?%not_elem_of_nil. }
  cbn [insert_euis] in Hl. apply result_bind_ok in Hl as (vals & Hv%eui_values_valid & Hl).
  apply result_bind_ok in Hl as ([t rows'] & Ht%map_err_ok & [= <- <-]). unfold evs. rewrite <- list_fmap_compose.
  split; [done|]. split; [done|].
  exact (child_insert KEui (fun _ => VPresent) eui_msg eui_valid route_eui_pairs set_euis eui_dec eui_inj (fun _ => eq_refl) eui_msg_key (fun _ => eq_refl) (fun _ _ => eq_refl) (fun _ _ => eq_refl) eui_set_view eui_set_inv (fun db seen k Hi => si_eui db seen Hi k) db seen now vals t rows' Hi Hv Ht).
Qed.

Lemma eui_remove_step l now db seen db' rows :
  stream_inv db seen -> remove_euis l now db = Ok (db', rows) ->
  let evs := (fun e => (Remove, DEui (eui_into_v1 e))) <$> rows in
  routes db' = routes db /\ organizations db' = organizations db /\ stream_inv db' seen /\
  tracks evs (db_view db) (db_view db') /\ (forall k id, touched evs k -> key_route k = Some id -> id ∈ seen).
Proof.
  intros Hi Hl evs. destruct l as [|a l].
  { injection Hl as <- <-. split; [done|]. split; [done|]. split; [done|]. split; [by apply tracks_nil|]. by intros k id ?%not_elem_of_nil. }
  cbn [remove_euis] in Hl. apply result_bind_ok in Hl as (vals & Hv%eui_values_valid & [= <- <-]). unfold evs. rewrite <- list_fmap_compose.
  split; [done|]. split; [done|].
  exact (child_remove KEui (fun _ => VPresent) eui_msg eui_valid route_eui_pairs set_euis eui_dec eui_inj (fun _ => eq_refl) eui_msg_key (fun _ _ => eq_refl) (fun _ _ => eq_refl) eui_set_view eui_set_inv (fun db seen k Hi => si_eui db seen Hi k) db seen now vals Hi Hv).
Qed.

Lemma range_insert_step l now db seen db' rows :
  stream_inv db seen -> insert_devaddr_ranges l now db = Ok (db', rows) ->
  let evs := (fun e => (Add, DRange (range_into_v1 e))) <$> rows in
  routes db' = routes db /\ organizations db' = organizations db /\ stream_inv db' seen /\
  tracks evs (db_view db) (db_view db') /\ (forall k id, touched evs k -> key_route k = Some id -> id ∈ seen).
Proof.
  intros Hi Hl evs. destruct l as [|a l].
  { injection Hl as <- <-. split; [done|]. split; [done|]. split; [done|]. split; [by apply tracks_nil|]. by intros k id ?%not_elem_of_nil. }
  cbn [insert_devaddr_ranges] in Hl. apply result_bind_ok in Hl as (vals & Hv%range_values_valid & Hl).
  apply result_bind_ok in Hl as ([t rows'] & Ht%map_err_ok & [= <- <-]). unfold evs. rewrite <- list_fmap_compose.
  split; [done|]. split; [done|].
  exact (child_insert KRange (fun _ => VPresent) range_msg range_valid route_devaddr_ranges set_ranges range_dec range_inj (fun _ => eq_refl) range_msg_key (fun _ => eq_refl) (fun _ _ => eq_refl) (fun _ _ => eq_refl) range_set_view range_set_inv (fun db seen k Hi => si_range db seen Hi k) db seen now vals t rows' Hi Hv Ht).
Qed.

Lemma range_remove_step l now db seen db' rows :
  stream_inv db seen -> remove_devaddr_ranges l now db = Ok (db', rows) ->
  let evs := (fun e => (Remove, DRange (range_into_v1 e))) <$> rows in
  routes db' = routes db /\ organizations db' = organizations db /\ stream_inv db' seen /\
  tracks evs (db_view db) (db_view db') /\ (forall k id, touched evs k -> key_route k = Some id -> id ∈ seen).
Proof.
  intros Hi Hl evs. destruct l as [|a l].
  { injection Hl as <- <-. split; [done|]. split; [done|]. split; [done|]. split; [by apply tracks_nil|]. by intros k id ?%not_elem_of_nil. }
  cbn [remove_devaddr_ranges] in Hl. apply result_bind_ok in Hl as (vals & Hv%range_values_valid & [= <- <-]). unfold evs. rewrite <- list_fmap_compose.
  split; [done|]. split; [done|].
  exact (child_remove KRange (fun _ => VPresent) range_msg range_valid route_devaddr_ranges set_ranges range_dec range_inj (fun _ => eq_refl) range_msg_key (fun _ _ => eq_refl) (fun _ _ => eq_refl) range_set_view range_set_inv (fun db seen k Hi => si_range db seen Hi k) db seen now vals Hi Hv).
Qed.

Lemma skf_insert_step l now db seen db' rows :
  stream_inv db seen -> insert_skfs l now db = Ok (db', rows) ->
  let evs := (fun e => (Add, DSkf (skf_into_v1 e))) <$> rows in
  routes db' = routes db /\ organizations db' = organizations db /\ stream_inv db' seen /\
  tracks evs (db_view db) (db_view db') /\ (forall k id, touched evs k -> key_route k = Some id -> id ∈ seen).
Proof.
  intros Hi Hl evs. destruct l as [|a l].
  { injection Hl as <- <-. split; [done|]. split; [done|]. split; [done|]. split; [by apply tracks_nil|]. by intros k id ?%not_elem_of_nil. }
  cbn [insert_skfs] in Hl. apply result_bind_ok in Hl as (vals & Hv%skf_values_valid & Hl).
  apply result_bind_ok in Hl as ([t rows'] & Ht%map_err_ok & [= <- <-]). unfold evs. rewrite <- list_fmap_compose.
  split; [done|]. split; [done|].
  exact (child_insert KSkf (fun n => VCopies (as_u32 n)) skf_msg skf_valid route_session_key_filters set_skfs skf_dec skf_inj (fun _ => eq_refl) skf_msg_key (fun _ => eq_refl) (fun _ _ => eq_refl) (fun _ _ => eq_refl) skf_set_view skf_set_inv (fun db seen k Hi => si_skf db seen Hi k) db seen now vals t rows' Hi Hv Ht).
Qed.

Lemma skf_remove_step l now db seen db' rows :
  stream_inv db seen -> remove_skfs l now db = Ok (db', rows) ->
  let evs := (fun e => (Remove, DSkf (skf_into_v1 e))) <$> rows in
  routes db' = routes db /\ organizations db' = organizations db /\ stream_inv db' seen /\
  tracks evs (db_view db) (db_view db') /\ (forall k id, touched evs k -> key_route k = Some id -> id ∈ seen).
Proof.
  intros Hi Hl evs. destruct l as [|a l].
  { injection Hl as <- <-. split; [done|]. split; [done|]. split; [done|]. split; [by apply tracks_nil|]. by intros k id ?%not_elem_of_nil. }
  cbn [remove_skfs] in Hl. apply result_bind_ok in Hl as (vals & Hv%skf_values_valid & [= <- <-]). unfold evs. rewrite <- list_fmap_compose.
  split; [done|]. split; [done|].
  exact (child_remove KSkf (fun n => VCopies (as_u32 n)) skf_msg skf_valid route_session_key_filters set_skfs skf_dec skf_inj (fun _ => eq_refl) skf_msg_key (fun _ _ => eq_refl) (fun _ _ => eq_refl) skf_set_view skf_set_inv (fun db seen k Hi => si_skf db seen Hi k) db seen now vals Hi Hv).
Qed.

Lemma two_steps db seen evs1 db1 evs2 db2 :
  stream_inv db seen ->
  routes db1 = routes db /\ organizations db1 = organizations db /\ stream_inv db1 seen /\
    tracks evs1 (db_view db) (db_view db1) /\ (forall k id, touched evs1 k -> key_route k = Some id -> id ∈ seen) ->
  routes db2 = routes db1 /\ organizations db2 = organizations db1 /\ stream_inv db2 seen /\
    tracks evs2 (db_view db1) (db_view db2) /\ (forall k id, touched evs2 k -> key_route k = Some id -> id ∈ seen) ->
  change_ok db seen (evs1 ++ evs2) db2 seen /\
  ((forall k, ~ (touched evs1 k /\ touched evs2 k)) -> change_ok db seen (evs2 ++ evs1) db2 seen).
Proof.
  intros Hi (E1 & O1 & I1 & T1 & S1) (E2 & O2 & I2 & T2 & S2). split.
  - apply change_rows; [done|congruence|congruence|done|by eapply tracks_app|].
    intros k id [?|?]%touched_app; [by apply S1|by apply S2].
  - intros Hd. apply change_rows; [done|congruence|congruence|done|by eapply tracks_swap|].
    intros k id [?|?]%touched_app; [by apply S2|by apply S1].
Qed.

Lemma update_euis_change adds removes now db seen db' evs :
  stream_inv db seen -> update_euis adds removes now db = Ok (db', evs) -> change_ok db seen (sg_body <$> evs) db' seen.
Proof.
  intros Hi Hu. unfold update_euis in Hu. apply result_bind_ok in Hu as ([db1 l1] & H1 & Hu).
  apply result_bind_ok in Hu as ([db2 l2] & H2 & [= <- <-]). cbn [fst snd] in *. rewrite stream_updates_bodies.
  pose proof (eui_insert_step _ _ _ _ _ _ Hi H1) as S1. cbv zeta in S1.
  apply (two_steps db seen _ db1 _ db2 Hi S1). apply (eui_remove_step removes now); [apply S1|done].
Qed.

Lemma update_ranges_change adds removes now db seen db' evs :
  stream_inv db seen -> update_devaddr_ranges adds removes now db = Ok (db', evs) -> change_ok db seen (sg_body <$> evs) db' seen.
Proof.
  intros Hi Hu. unfold update_devaddr_ranges in Hu. apply result_bind_ok in Hu as ([db1 l1] & H1 & Hu).
  apply result_bind_ok in Hu as ([db2 l2] & H2 & [= <- <-]). cbn [fst snd] in *. rewrite stream_updates_bodies.
  pose proof (range_insert_step _ _ _ _ _ _ Hi H1) as S1. cbv zeta in S1.
  apply (two_steps db seen _ db1 _ db2 Hi S1). apply (range_remove_step removes now); [apply S1|done].
Qed.

(** The session key filters a request adds and those it removes are different. *)
Definition skf_disjoint (adds removes : list Skf) : Prop :=
  forall a r ka kr va vr, a ∈ adds -> r ∈ removes -> skf_values a = Ok (ka, va) -> skf_values r = Ok (kr, vr) -> ka <> kr.

Lemma skf_insert_touched l now db db' rows k :
  insert_skfs l now db = Ok (db', rows) -> touched ((fun e => (Add, DSkf (skf_into_v1 e))) <$> rows) k ->
  exists a k0 v, a ∈ l /\ skf_values a = Ok (k0, v) /\ k = KSkf k0.
Proof.
  intros Hl Ht. destruct l as [|a l]; [injection Hl as <- <-; by apply not_elem_of_nil in Ht|].
  cbn [insert_skfs] in Hl. apply result_bind_ok in Hl as (vals & Hc & Hl). pose proof (skf_values_valid _ _ Hc) as Hv.
  apply result_bind_ok in Hl as ([t rows'] & Hu%map_err_ok & [= <- <-]).
  apply list_elem_of_fmap in Ht as (e & -> & He). apply list_elem_of_fmap in He as (s & -> & Hs).
  apply list_elem_of_fmap in Hs as ([k0 v] & -> & Hin).
  assert (rows' = vals) as ->.
  { unfold upsert_rows in Hu. destruct (decide _); [|done]. destruct (forallb _ vals); [|done]. by injection Hu as _ <-. }
  destruct (collect_ok_elem _ _ _ _ Hc Hin) as (x & Hx & Ex). exists x, k0, v. split; [done|]. split; [done|].
  apply (skf_msg_key (k0, v)). rewrite Forall_forall in Hv. by apply (Hv (k0, v)).
Qed.

Lemma skf_remove_touched l now db db' rows k :
  remove_skfs l now db = Ok (db', rows) -> touched ((fun e => (Remove, DSkf (skf_into_v1 e))) <$> rows) k ->
  exists a k0 v, a ∈ l /\ skf_values a = Ok (k0, v) /\ k = KSkf k0.
Proof.
  intros Hl Ht. destruct l as [|a l]; [injection Hl as <- <-; by apply not_elem_of_nil in Ht|].
  cbn [remove_skfs] in Hl. apply result_bind_ok in Hl as (vals & Hc & [= <- <-]). pose proof (skf_values_valid _ _ Hc) as Hv.
  apply list_elem_of_fmap in Ht as (e & -> & He). apply list_elem_of_fmap in He as (s & -> & Hs).
  apply list_elem_of_fmap in Hs as ([k0 v] & -> & Hin). cbn [mark_rows snd] in Hin.
  apply list_elem_of_omap in Hin as (k1 & Hk1 & E). rewrite elem_of_remove_dups in Hk1.
  destruct (route_session_key_filters db !! k1); [|done]. injection E as -> _.
  apply list_elem_of_fmap in Hk1 as ([k2 v2] & -> & Hin).
  destruct (collect_ok_elem _ _ _ _ Hc Hin) as (x & Hx & Ex). exists x, k2, v2. split; [done|]. split; [done|].
  apply (skf_msg_key (k2, v)). rewrite Forall_forall in Hv. by apply (Hv (k2, v2)).
Qed.

Lemma update_skfs_change adds removes now db seen db' evs :
  stream_inv db seen -> skf_disjoint adds removes -> update_skfs adds removes now db = Ok (db', evs) ->
  change_ok db seen (sg_body <$> evs) db' seen.
Proof.
  intros Hi Hd Hu. unfold update_skfs in Hu. apply result_bind_ok in Hu as ([db1 l1] & H1 & Hu).
  apply result_bind_ok in Hu as ([db2 l2] & H2 & [= <- <-]). cbn [fst snd] in *. rewrite stream_updates_bodies.
  pose proof (skf_remove_step _ _ _ _ _ _ Hi H1) as S1. cbv zeta in S1.
  apply (two_steps db seen _ db1 _ db2 Hi S1); [apply (skf_insert_step adds now); [apply S1|done]|].
  intros k [Ht1 Ht2]. destruct (skf_remove_touched _ _ _ _ _ _ H1 Ht1) as (r & kr & vr & Hr & Er & ->).
  destruct (skf_insert_touched _ _ _ _ _ _ H2 Ht2) as (a & ka & va & Ha & Ea & [= <-]). by apply (Hd a r kr kr va vr).
Qed.

(** *** Routes *)

Lemma get_route_ok id db r :
  get_route id db = Ok r ->
  exists uuid row, uuid_parse id = Some uuid /\ routes db !! uuid = Some row /\ rr_deleted row = false /\
    route_of_row db uuid row = Some r /\ r_id r = uuid.
Proof.
  unfold get_route. intros (uuid & Hu%ok_or_ok & Hg)%result_bind_ok. apply result_bind_ok in Hg as (row & Hr%ok_or_ok & Hg).
  apply result_bind_ok in Hg as (org & Ho%ok_or_ok & Hg%ok_or_ok). exists uuid, row.
  destruct (routes db !! uuid) as [row'|] eqn:E; [|done]. cbn in Hr. destruct (rr_deleted row') eqn:Ed; [done|].
  injection Hr as ->. do 3 (split; [done|]). split; [done|]. unfold route_of_row in Hg. rewrite Ho in Hg. cbn in Hg.
  destruct (from_json (rr_opts row)); [|done]. by injection Hg as <-.
Qed.

Lemma route_view db db' (id : Uuid) :
  organizations db' = organizations db -> (forall id', id' <> id -> routes db' !! id' = routes db !! id') ->
  route_eui_pairs db' = route_eui_pairs db -> route_devaddr_ranges db' = route_devaddr_ranges db ->
  route_session_key_filters db' = route_session_key_filters db -> forall k, k <> KRoute id -> db_view db' k = db_view db k.
Proof.
  intros Eo Er Ee Eg Es [id'|k|k|k] Hne; cbn [db_view]; rewrite ?Ee, ?Eg, ?Es; try done.
  unfold live_route, route_of_row. rewrite Er by congruence. by rewrite Eo.
Qed.

(** Entries of a route that is not in the table have no row. *)
Lemma no_rows db seen k id : stream_inv db seen -> key_route k = Some id -> routes db !! id = None -> db_view db k = None.
Proof.
  intros Hi Hk Hn. destruct k as [?|k|k|k]; [done|..]; injection Hk as <-; cbn [db_view]; unfold row_state.
  - destruct (route_eui_pairs db !! k) eqn:E; [|done]. destruct (si_eui db seen Hi k) as [[? H] _]; [by eexists|congruence].
  - destruct (route_devaddr_ranges db !! k) eqn:E; [|done]. destruct (si_range db seen Hi k) as [[? H] _]; [by eexists|congruence].
  - destruct (route_session_key_filters db !! k) eqn:E; [|done]. destruct (si_skf db seen Hi k) as [[? H] _]; [by eexists|congruence].
Qed.

Lemma create_route_change route id now db seen db' evs r :
  stream_inv db seen -> id ∉ seen -> uuid_parse id = Some id -> create_route route id now db = Ok (db', evs, r) ->
  change_ok db seen (sg_body <$> evs) db' ({[id]} ∪ seen).
Proof.
  intros Hi Hid Hp Hc. unfold create_route in Hc. apply result_bind_ok in Hc as (opts & _ & Hc).
  set (row := mkRouteRow _ _ _ _ _ _ _ _ _ _) in Hc. apply result_bind_ok in Hc as (db1 & H1 & Hc).
  apply result_bind_ok in Hc as (r' & Hg & [= <- <- <-]). rewrite stream_one_body.
  destruct (routes db !! id) eqn:Er; [done|]. destruct (organizations db !! rr_oui row) as [org|] eqn:Eo; [|done].
  injection H1 as <-. set (db1 := set_routes db _) in *.
  apply get_route_ok in Hg as (uuid & row' & Hu & Hr & Hd & Hrow & Hid'). assert (uuid = id) as -> by congruence.
  assert (row' = row) as -> by (cbn in Hr; rewrite lookup_insert_eq in Hr; by injection Hr).
  assert (forall id', is_Some (routes db !! id') -> is_Some (routes db1 !! id')) as Hkeep.
  { intros id' Hs. cbn. destruct (decide (id' = id)) as [->|?]; [by rewrite lookup_insert_eq|by rewrite lookup_insert_ne]. }
  assert (forall k, k <> KRoute id -> db_view db1 k = db_view db k) as Hv.
  { apply route_view; try done. intros id' Hne. cbn. by rewrite lookup_insert_ne. }
  split.
  - split.
    + intros id' Hs. cbn in Hs. apply elem_of_union. destruct (decide (id' = id)) as [->|Hne]; [left; by apply elem_of_singleton|right].
      rewrite lookup_insert_ne in Hs by done. by apply (si_seen db seen Hi).
    + intros id' Hs. destruct (decide (id' = id)) as [->|Hne]; [done|]. cbn in Hs. rewrite lookup_insert_ne in Hs by done.
      by apply (si_ids db seen Hi).
    + intros id' row' Hs. cbn in Hs |- *. apply lookup_insert_Some in Hs as [[<- <-]|[_ Hs]]; [by exists org|by apply (si_org db seen Hi id')].
    + intros k Hs. destruct (si_eui db seen Hi k Hs). split; [by apply Hkeep|done].
    + intros k Hs. destruct (si_range db seen Hi k Hs). split; [by apply Hkeep|done].
    + intros k Hs. destruct (si_skf db seen Hi k Hs). split; [by apply Hkeep|done].
  - apply union_subseteq_r.
  - intros id' (row' & Hr' & Hd') Hs. exists row'. split; [|done]. cbn in Hr'. rewrite lookup_insert_ne in Hr'; [done|]. by intros ->.
  - intros k Hrel. destruct (decide (k = KRoute id)) as [->|Hne].
    + left. rewrite touched_cons. split; [left; cbn; congruence|]. intros v. cbn. unfold receive_one. cbn [fst snd data_key route_into_v1 rv_id].
      rewrite decide_True by congruence. unfold live_route. cbn. rewrite lookup_insert_eq. cbn [mbind option_bind]. rewrite Hd.
      change (route_of_row _ id row) with (route_of_row db1 id row). by rewrite Hrow.
    + right. split; [rewrite touched_cons; cbn; intros [?|?%not_elem_of_nil]; [congruence|done]|]. split; [|by apply Hv].
      unfold relevant in Hrel |- *. destruct (key_route k) as [id'|] eqn:Ek; [|by left].
      destruct (decide (id' = id)) as [->|Hne']; [right; exists id; split; [done|]; split; [done|]; by apply (no_rows db seen k id)|].
      left. destruct Hrel as (row' & Hr' & Hd'). cbn in Hr'. rewrite lookup_insert_ne in Hr' by done. by exists row'.
  - intros k id' Ht Hk. rewrite touched_cons in Ht. cbn in Ht. destruct Ht as [->|Ht]; [done|by apply not_elem_of_nil in Ht].
Qed.

(** A change of one route in place, which may delete it but not bring it back. *)
Lemma alter_route_change db seen (id : Uuid) (f : RouteRow json -> RouteRow json) a (d : RouteV1) :
  stream_inv db seen -> (forall row, rr_oui (f row) = rr_oui row) -> (forall row, rr_deleted (f row) = false -> rr_deleted row = false) ->
  rv_id d = id ->
  let db' := set_routes db (alter f id (routes db)) in
  db_view db' (KRoute id) = (match a with Add => Some (VRoute d) | Remove => None end) ->
  change_ok db seen [(a, DRoute d)] db' seen.
Proof.
  intros Hi Ho Hd Hid db' Hv.
  assert (forall id', is_Some (routes db' !! id') <-> is_Some (routes db !! id')) as Hs by (intros id'; apply lookup_alter_is_Some).
  assert (forall id', route_alive db' id' -> route_alive db id') as Ha.
  { intros id' (row & Hr & Hdel). cbn in Hr. destruct (decide (id' = id)) as [->|Hne].
    - rewrite lookup_alter_eq in Hr. destruct (routes db !! id) as [row'|] eqn:E; [|done]. injection Hr as <-. exists row'. auto.
    - rewrite lookup_alter_ne in Hr by done. by exists row. }
  split; [|done|by intros id' ? _; apply Ha| |].
  - split.
    + intros id' H. by apply (si_seen db seen Hi), Hs.
    + intros id' H. by apply (si_ids db seen Hi), Hs.
    + intros id' row Hr. cbn in Hr |- *. destruct (decide (id' = id)) as [->|Hne].
      * rewrite lookup_alter_eq in Hr. destruct (routes db !! id) as [row'|] eqn:E; [|done]. injection Hr as <-. rewrite Ho.
        by apply (si_org db seen Hi id).
      * rewrite lookup_alter_ne in Hr by done. by apply (si_org db seen Hi id').
    + intros k H. destruct (si_eui db seen Hi k H). split; [by apply Hs|done].
    + intros k H. destruct (si_range db seen Hi k H). split; [by apply Hs|done].
    + intros k H. destruct (si_skf db seen Hi k H). split; [by apply Hs|done].
  - assert (tracks [(a, DRoute d)] (db_view db) (db_view db')) as Ht.
    { apply tracks_one; cbn [data_key data_val]; rewrite Hid; [done|]. apply route_view; try done. intros id' Hne. cbn. by rewrite lookup_alter_ne. }
    intros k Hrel. destruct (Ht k) as [?|[? ?]]; [by left|right]. split; [done|]. split; [left|done].
    unfold relevant in *. destruct (key_route k); [by apply Ha|done].
  - intros k id' Ht Hk. rewrite touched_cons in Ht. cbn in Ht. destruct Ht as [->|Ht]; [done|by apply not_elem_of_nil in Ht].
Qed.

Lemma touch_route_fields now (old new : RouteRow json) :
  rr_oui (touch_route now old new) = rr_oui new /\ rr_deleted (touch_route now old new) = rr_deleted new.
Proof. unfold touch_route. by destruct (decide (old = new)) as [->|]. Qed.

Lemma update_route_change route now db seen db' evs r :
  stream_inv db seen -> update_route route now db = Ok (db', evs, r) -> change_ok db seen (sg_body <$> evs) db' seen.
Proof.
  intros Hi Hc. unfold update_route in Hc. apply result_bind_ok in Hc as (opts & _ & Hc).
  apply result_bind_ok in Hc as (uuid & Hu%ok_or_ok & Hc). apply result_bind_ok in Hc as (r' & Hg & [= <- <- <-]).
  rewrite stream_one_body. apply get_route_ok in Hg as (uuid' & row' & Hu' & Hr & Hd & Hrow & Hid').
  assert (uuid' = uuid) as -> by congruence.
  apply alter_route_change; [done| | |done|].
  - intros row. by rewrite (proj1 (touch_route_fields _ _ _)).
  - intros row. by rewrite (proj2 (touch_route_fields _ _ _)).
  - cbn [db_view]. unfold live_route. rewrite Hr. cbn [mbind option_bind]. by rewrite Hd, Hrow.
Qed.

Lemma delete_route_change id now db seen db' evs :
  stream_inv db seen -> delete_route id now db = Ok (db', evs) -> change_ok db seen (sg_body <$> evs) db' seen.
Proof.
  intros Hi Hc. unfold delete_route in Hc. apply result_bind_ok in Hc as (uuid & Hu%ok_or_ok & Hc).
  apply result_bind_ok in Hc as (r & Hg & [= <- <-]). rewrite stream_one_body.
  apply get_route_ok in Hg as (uuid' & row & Hu' & Hr & Hd & Hrow & Hid'). assert (uuid' = uuid) as -> by congruence.
  apply alter_route_change; [done| | |done|].
  - intros row'. by rewrite (proj1 (touch_route_fields _ _ _)).
  - intros row'. by rewrite (proj2 (touch_route_fields _ _ _)).
  - cbn [db_view]. unfold live_route. cbn. rewrite lookup_alter_eq, Hr. cbn. by rewrite (proj2 (touch_route_fields _ _ _)).
Qed.

(** *** Organizations and the cleaner *)

Lemma receive_adds (l : list (ActionV1 * StreamData)) v k x :
  (forall e, e ∈ l -> e.1 = Add /\ (data_key e.2 = k -> data_val e.2 = x)) -> touched l k -> receive l v k = Some x.
Proof.
  revert v. induction l as [|e l IH]; intros v Hl Ht; [by apply not_elem_of_nil in Ht|].
  change (receive l (receive_one v e) k = Some x). destruct (decide (touched l k)) as [Hn|Hn].
  - apply IH; [|done]. intros e' He'. apply Hl. by right.
  - rewrite receive_untouched by done. apply touched_cons in Ht as [->|?]; [|done]. unfold receive_one. rewrite decide_True by done.
    destruct (Hl e ltac:(left)) as [-> Hx]. by rewrite Hx.
Qed.

Lemma stream_org_routes_bodies now rs :
  (sg_body <$> (stream_org_routes now rs).1) = (fun r => (Add, DRoute (route_into_v1 r))) <$> rs.
Proof.
  induction rs as [|r rs IH]; [done|]. cbn [stream_org_routes].
  destruct (stream_update_body now Add (DRoute (route_into_v1 r))) as (m & -> & E).
  destruct (stream_org_routes now rs) as [ms res]. cbn in *. by rewrite E, IH.
Qed.

(** The organizations may change, not their locks. *)
Definition same_locks db db' : Prop :=
  forall o row, organizations db !! o = Some row -> exists row', organizations db' !! o = Some row' /\ og_locked row' = og_locked row.

Lemma orgs_change db seen db' :
  stream_inv db seen -> same_locks db db' -> routes db' = routes db -> route_eui_pairs db' = route_eui_pairs db ->
  route_devaddr_ranges db' = route_devaddr_ranges db -> route_session_key_filters db' = route_session_key_filters db ->
  change_ok db seen [] db' seen.
Proof.
  intros Hi Hl Er Ee Eg Es.
  assert (forall k, db_view db' k = db_view db k) as Hv.
  { intros [id|k|k|k]; cbn [db_view]; rewrite ?Ee, ?Eg, ?Es; try done. unfold live_route. rewrite Er.
    destruct (routes db !! id) as [row|] eqn:E; [|done]. cbn. destruct (rr_deleted row); [done|]. unfold route_of_row.
    destruct (si_org db seen Hi id row E) as [org Ho]. destruct (Hl _ _ Ho) as (org' & Ho' & El). rewrite Ho, Ho'. cbn.
    destruct (from_json (rr_opts row)); [|done]. cbn. by rewrite El. }
  split; [|done| | |by intros k id ?%not_elem_of_nil].
  - split.
    + rewrite Er. apply (si_seen db seen Hi).
    + intros id Hs. rewrite Er in Hs. by apply (si_ids db seen Hi).
    + rewrite Er. intros id row Hr. destruct (si_org db seen Hi id row Hr) as [org Ho]. destruct (Hl _ _ Ho) as (org' & Ho' & _). by exists org'.
    + rewrite Er, Ee. apply (si_eui db seen Hi).
    + rewrite Er, Eg. apply (si_range db seen Hi).
    + rewrite Er, Es. apply (si_skf db seen Hi).
  - intros id (row & Hr & Hd) _. rewrite Er in Hr. by exists row.
  - intros k Hrel. right. split; [by intros ?%not_elem_of_nil|]. split; [|done]. left.
    unfold relevant, route_alive in *. destruct (key_route k); [by rewrite <- Er|done].
Qed.

Lemma lock_change oui db seen :
  stream_inv db seen -> let db' := toggle_locked oui db in
  change_ok db seen ((fun r => (Add, DRoute (route_into_v1 r))) <$> list_routes oui db') db' seen.
Proof.
  intros Hi db'. set (evs := _ <$> _).
  assert (forall o, o <> as_i64 oui -> organizations db' !! o = organizations db !! o) as Ho.
  { intros o Hne. cbn. by rewrite lookup_alter_ne. }
  assert (forall e, e ∈ evs -> exists id row r, e = (Add, DRoute (route_into_v1 r)) /\ routes db !! id = Some row /\ r_id r = id /\
    rr_oui row = as_i64 oui /\ live_route db' id = Some r) as He.
  { intros e (r & -> & Hr)%list_elem_of_fmap. apply list_elem_of_omap in Hr as ([id row] & Hin%elem_of_map_to_list & Hf). cbn in Hf.
    destruct (Z.eqb_spec (rr_oui row) (as_i64 oui)); [|done]. destruct (rr_deleted row) eqn:Ed; [done|]. cbn in Hf.
    exists id, row, r. split; [done|]. split; [done|]. split; [|split; [done|]].
    - unfold route_of_row in Hf. destruct (organizations db' !! _); [|done]. cbn in Hf. destruct (from_json _); [|done]. by injection Hf as <-.
    - unfold live_route. cbn in Hin |- *. rewrite Hin. cbn. by rewrite Ed. }
  assert (forall id, (exists r, live_route db' id = Some r /\ touched evs (KRoute id)) \/
    (~ touched evs (KRoute id) /\ live_route db' id = live_route db id)) as Hid.
  { intros id. destruct (decide (touched evs (KRoute id))) as [Ht|Ht].
    - left. apply list_elem_of_fmap in Ht as (e & E & Hin). destruct (He e Hin) as (id' & row & r & -> & _ & Hr & _ & Hl).
      cbn in E. injection E as ->. rewrite Hr. exists r. split; [done|]. apply list_elem_of_fmap. exists (Add, DRoute (route_into_v1 r)). cbn. by rewrite Hr.
    - right. split; [done|]. unfold live_route. cbn. destruct (routes db !! id) as [row|] eqn:E; [|done]. cbn.
      destruct (rr_deleted row) eqn:Ed; [done|]. destruct (decide (rr_oui row = as_i64 oui)) as [Eo|Eo].
      + destruct (route_of_row db' id row) as [r|] eqn:Er.
        * exfalso. apply Ht. apply list_elem_of_fmap. exists (Add, DRoute (route_into_v1 r)). cbn. split.
          { unfold route_of_row in Er. destruct (organizations db' !! _); [|done]. cbn in Er. destruct (from_json _); [|done]. by injection Er as <-. }
          apply list_elem_of_fmap. exists r. split; [done|]. apply list_elem_of_omap. exists (id, row). split; [by apply elem_of_map_to_list|].
          cbn. by rewrite Eo, Z.eqb_refl, Ed.
        * unfold route_of_row in *. destruct (si_org db seen Hi id row E) as [org Horg]. rewrite Horg. cbn.
          cbn in Er. rewrite Eo, lookup_alter_eq, <- Eo, Horg in Er. cbn in Er. by destruct (from_json (rr_opts row)).
      + unfold route_of_row. by rewrite Ho. }
  split; [|done|by intros id (row & Hr & Hd) _; exists row| |].
  - split; try apply Hi. intros id row Hr. cbn. rewrite lookup_alter_is_Some. by apply (si_org db seen Hi id).
  - intros k Hrel. destruct k as [id|k|k|k].
    + cbn [db_view]. destruct (Hid id) as [(r & Hr & Ht)|[Ht E]].
      * left. split; [done|]. intros v. rewrite Hr. apply receive_adds; [|done]. intros e Hin.
        destruct (He e Hin) as (id' & row & r' & -> & _ & Hid' & _ & Hl). split; [done|]. cbn. intros [= E]. congruence.
      * right. split; [done|]. split; [by left|]. by rewrite E.
    + right. split; [intros (e & E & Hin)%list_elem_of_fmap; by destruct (He e Hin) as (? & ? & ? & -> & _)|]. split; [by left|done].
    + right. split; [intros (e & E & Hin)%list_elem_of_fmap; by destruct (He e Hin) as (? & ? & ? & -> & _)|]. split; [by left|done].
    + right. split; [intros (e & E & Hin)%list_elem_of_fmap; by destruct (He e Hin) as (? & ? & ? & -> & _)|]. split; [by left|done].
  - intros k id (e & -> & Hin)%list_elem_of_fmap. by destruct (He e Hin) as (? & ? & ? & -> & _).
Qed.

(** Purging removes rows marked as deleted. *)
Lemma purge_state {K V} `{!EqDecision K, !Countable K} (val : V -> sval) (ts : Z) (t : gmap (Uuid * K) (tracked V)) (k : Uuid * K) :
  row_state val (purge_rows ts t) k = row_state val t k.
Proof.
  unfold row_state, purge_rows. destruct (t !! k) as [r|] eqn:E.
  - destruct (decide (tk_deleted r = true /\ tk_updated_at r < ts)) as [Hd|Hd].
    + rewrite (map_lookup_filter_None_2 _ t k); [cbn; by rewrite (proj1 Hd)|]. right. intros r' E'. rewrite E in E'. injection E' as <-. cbn. tauto.
    + by rewrite (map_lookup_filter_Some_2 _ t k r).
  - by rewrite (map_lookup_filter_None_2 _ t k) by (by left).
Qed.

Lemma cascade_state {K V} `{!EqDecision K, !Countable K} (val : V -> sval) (known : gmap Uuid (RouteRow json))
    (t : gmap (Uuid * K) (tracked V)) (k : Uuid * K) :
  is_Some (known !! k.1) -> row_state val (cascade_rows known t) k = row_state val t k.
Proof.
  intros Hk. unfold row_state, cascade_rows. destruct (t !! k) as [r|] eqn:E.
  - by rewrite (map_lookup_filter_Some_2 _ t k r).
  - by rewrite (map_lookup_filter_None_2 _ t k) by (by left).
Qed.

Lemma purge_is_Some {K V} `{!EqDecision K, !Countable K} (ts : Z) (t : gmap (Uuid * K) (tracked V)) (k : Uuid * K) :
  is_Some (purge_rows ts t !! k) -> is_Some (t !! k).
Proof. intros [a [Ha _]%map_lookup_filter_Some]. by exists a. Qed.

Lemma clean_change now retention db seen : stream_inv db seen -> change_ok db seen [] (db_cleaner_tick now retention db) seen.
Proof.
  intros Hi. set (ts := now - retention). set (db' := db_cleaner_tick now retention db).
  set (known := filter (fun kr : Uuid * RouteRow json => ~ (rr_deleted kr.2 = true /\ rr_updated_at kr.2 < ts)) (routes db)).
  assert (routes db' = known) as Er by done.
  assert (forall id row, routes db' !! id = Some row -> routes db !! id = Some row) as Hsub.
  { intros id row Hr. rewrite Er in Hr. by apply map_lookup_filter_Some in Hr as [? _]. }
  assert (forall id, route_alive db id <-> route_alive db' id) as Ha.
  { intros id. split; [|intros (row & Hr%Hsub & Hd); by exists row]. intros (row & Hr & Hd). exists row. split; [|done]. rewrite Er.
    apply map_lookup_filter_Some_2; [done|]. cbn. rewrite Hd. by intros [? _]. }
  split; [|done|by intros id ? _; apply Ha| |by intros k id ?%not_elem_of_nil].
  - split.
    + intros id [row Hr%Hsub]. apply (si_seen db seen Hi). by exists row.
    + intros id [row Hr%Hsub]. apply (si_ids db seen Hi). by exists row.
    + intros id row Hr%Hsub. by apply (si_org db seen Hi id).
    + intros k [r [Hr Hk]%map_lookup_filter_Some]. split; [done|]. apply (si_eui db seen Hi). apply (purge_is_Some ts). by exists r.
    + intros k [r [Hr Hk]%map_lookup_filter_Some]. split; [done|]. apply (si_range db seen Hi). apply (purge_is_Some ts). by exists r.
    + intros k [r [Hr Hk]%map_lookup_filter_Some]. split; [done|]. apply (si_skf db seen Hi). apply (purge_is_Some ts). by exists r.
  - intros k Hrel. right. split; [by intros ?%not_elem_of_nil|]. split.
    { left. unfold relevant in *. destruct (key_route k); [by apply Ha|done]. }
    destruct k as [id|k|k|k]; cbn [db_view]; unfold relevant in Hrel; cbn in Hrel.
    + unfold live_route. rewrite Er. unfold known. destruct (routes db !! id) as [row|] eqn:E.
      * destruct (decide (rr_deleted row = true /\ rr_updated_at row < ts)) as [Hd|Hd].
        -- rewrite (map_lookup_filter_None_2 _ (routes db) id); [cbn; by rewrite (proj1 Hd)|]. right. intros r' E'. rewrite E in E'. injection E' as <-. cbn. tauto.
        -- by rewrite (map_lookup_filter_Some_2 _ (routes db) id row).
      * by rewrite (map_lookup_filter_None_2 _ (routes db) id) by (by left).
    + destruct Hrel as (row & Hr & _). etrans; [apply (cascade_state _ known); by exists row|]. apply purge_state.
    + destruct Hrel as (row & Hr & _). etrans; [apply (cascade_state _ known); by exists row|]. apply purge_state.
    + destruct Hrel as (row & Hr & _). etrans; [apply (cascade_state _ known); by exists row|]. apply purge_state.
Qed.

(** ** The system *)

Lemma change_same db seen seen' : stream_inv db seen -> seen ⊆ seen' -> change_ok db seen [] db seen'.
Proof.
  intros Hi Hs. split; [|done|done| |by intros k id ?%not_elem_of_nil].
  - split; try apply Hi. intros id H. by apply Hs, (si_seen db seen Hi).
  - intros k Hrel. right. split; [by intros ?%not_elem_of_nil|]. split; [by left|done].
Qed.

Lemma change_trans db seen e1 db1 seen1 e2 db2 seen2 :
  stream_inv db seen -> change_ok db seen e1 db1 seen1 -> change_ok db1 seen1 e2 db2 seen2 ->
  change_ok db seen (e1 ++ e2) db2 seen2.
Proof.
  intros Hi C1 C2. split.
  - apply C2.
  - etrans; [apply C1|apply C2].
  - intros id Ha Hs. apply (ck_alive _ _ _ _ _ C1); [|done]. apply (ck_alive _ _ _ _ _ C2); [done|]. by apply (ck_grow _ _ _ _ _ C1).
  - intros k Hrel. rewrite touched_app. destruct (ck_view _ _ _ _ _ C2 k Hrel) as [[Ht Hr]|(Ht & [Hrel1|Hn] & Hr)].
    + left. split; [by right|]. intros v. by rewrite receive_app.
    + destruct (ck_view _ _ _ _ _ C1 k Hrel1) as [[Ht1 Hr1]|(Ht1 & Hd & Hr1)].
      * left. split; [by left|]. intros v. rewrite receive_app, receive_untouched by done. by rewrite Hr1, Hr.
      * right. split; [tauto|]. split; [done|congruence].
    + destruct Hn as (id & Hk & Hns & Hv). assert (~ touched e1 k) as Ht1.
      { intros Ht1. by apply Hns, (ck_routes _ _ _ _ _ C1 k). }
      assert (id ∉ seen) as Hns0 by (intros H; by apply Hns, (ck_grow _ _ _ _ _ C1)).
      assert (db_view db k = None) as Hv0.
      { apply (no_rows db seen k id Hi Hk). destruct (routes db !! id) eqn:E; [|done]. exfalso. apply Hns0, (si_seen db seen Hi). by eexists. }
      right. split; [tauto|]. split; [right; by exists id|congruence].
  - intros k id [Ht|Ht]%touched_app Hk; [|by apply (ck_routes _ _ _ _ _ C2 k)].
    by apply (ck_grow _ _ _ _ _ C2), (ck_routes _ _ _ _ _ C1 k).
Qed.

(** A request, or a tick of the cleaner: the tables it leaves, the route ids
    generated so far, and the tasks that will broadcast its updates. *)
Inductive change db seen : config_db json -> gset Uuid -> list (list RouteStreamRes) -> Prop :=
| by_create cache rq id now : id ∉ seen -> uuid_parse id = Some id ->
    let o := create_handler cache db rq id now in change db seen (oc_db o) ({[id]} ∪ seen) (oc_updates o)
| by_update cache rq now :
    let o := update_handler cache db rq now in change db seen (oc_db o) seen (oc_updates o)
| by_delete cache rq now :
    let o := delete_handler cache db rq now in change db seen (oc_db o) seen (oc_updates o)
| by_euis cache incoming now :
    let o := update_euis_handler cache db incoming now in change db seen (oc_db o) seen (oc_updates o)
| by_ranges cache incoming now :
    let o := update_devaddr_ranges_handler cache db incoming now in change db seen (oc_db o) seen (oc_updates o)
| by_skfs cache route_id updates signer signature now :
    skf_disjoint (skf_changes route_id updates).1 (skf_changes route_id updates).2 ->
    let o := update_skfs_handler cache db (mkReq (RouteSkfUpdateReqV1 route_id updates) signer signature) now in
    change db seen (oc_db o) seen (oc_updates o)
| by_org cache rq delegates now :
    match rq with RqDisable _ | RqEnable _ => False | _ => True end ->
    change db seen (org_step cache rq now db delegates).1 seen []
| by_disable cache rq delegates now :
    let o := disable_handler cache db delegates rq now in change db seen (oo_db o) seen [oo_updates o]
| by_enable cache rq delegates now :
    let o := enable_handler cache db delegates rq now in change db seen (oo_db o) seen [oo_updates o]
| by_cleaner now retention : change db seen (db_cleaner_tick now retention db) seen [].

Lemma fmap_concat_app {A B} (f : A -> B) (l1 l2 : list (list A)) : f <$> concat (l1 ++ l2) = (f <$> concat l1) ++ (f <$> concat l2).
Proof. by rewrite concat_app, fmap_app. Qed.

Lemma batches_change {R} `{!MsgVerify R, !ValidateRouteComponent R}
    (ap : list R -> config_db json -> result (config_db json * list RouteStreamRes) Status) v incoming db seen :
  stream_inv db seen ->
  (forall us db1 db2 evs, stream_inv db1 seen -> ap us db1 = Ok (db2, evs) -> change_ok db1 seen (sg_body <$> evs) db2 seen) ->
  let r := run_batches ap v incoming [] db [] in change_ok db seen (sg_body <$> concat r.1.2) r.1.1 seen.
Proof.
  intros Hi Hap. cbv zeta.
  apply (run_batches_ind ap (fun db' tasks => change_ok db seen (sg_body <$> concat tasks) db' seen) incoming v); [|done|done|constructor|].
  - intros us db1 db2 tasks evs _ Hc Ha. rewrite fmap_concat_app. cbn [concat]. rewrite app_nil_r.
    eapply change_trans; [done|done|]. apply (Hap us); [apply Hc|done].
  - by apply change_same.
Qed.

Lemma create_org_keeps owner payer keys n cs serial db db' org :
  create_org owner payer keys n cs serial db = Ok (db', org) ->
  same_locks db db' /\ routes db' = routes db /\ route_eui_pairs db' = route_eui_pairs db /\
  route_devaddr_ranges db' = route_devaddr_ranges db /\ route_session_key_filters db' = route_session_key_filters db.
Proof.
  intros (Hn & ds & cs' & _ & ->)%create_org_ok. split; [|done]. intros o row Ho. exists row. cbn.
  rewrite lookup_insert_ne; [done|]. intros ->. congruence.
Qed.

Lemma apply_update_keeps oui auth n current u db db' :
  apply_update oui auth n current u db = Ok db' ->
  same_locks db db' /\ routes db' = routes db /\ route_eui_pairs db' = route_eui_pairs db /\
  route_devaddr_ranges db' = route_devaddr_ranges db /\ route_session_key_filters db' = route_session_key_filters db.
Proof.
  assert (same_locks db db) as Hrefl by (intros o row Ho; by exists row).
  assert (forall f, (forall r, og_locked (f r) = og_locked r) -> same_locks db (set_org db oui f)) as Hset.
  { intros f Hf o row Ho. cbn. destruct (decide (o = as_i64 oui)) as [->|Hne].
    - exists (f row). by rewrite lookup_alter_eq, Ho.
    - exists row. by rewrite lookup_alter_ne. }
  destruct u as [[k|k|k|[] [c|]|[] k]|]; cbn [apply_update]; intros H.
  - destruct (bool_decide _); [|done]. injection H as <-. split; [by apply Hset|done].
  - destruct (bool_decide _); [|done]. injection H as <-. split; [by apply Hset|done].
  - destruct (bool_decide _ && _); [|done]. by apply add_devaddr_slab_ok in H as (h & store & cs & _ & _ & _ & ->).
  - destruct (bool_decide _ && _); [|done]. by apply add_constraint_ok in H as (h & store & _ & _ & ->).
  - by destruct (bool_decide _ && _).
  - destruct (bool_decide _ && _); [|done].
    apply remove_constraint_ok in H as (h & cs & store & _ & _ & _ & _ & _ & [= <-]). done.
  - by destruct (bool_decide _ && _).
  - apply map_err_ok in H. unfold add_delegate_key in H. destruct (delegate_rows db !! k); [done|]. by injection H as <-.
  - injection H as <-. unfold remove_delegate_key. by case_decide.
  - done.
Qed.

Lemma apply_updates_keeps oui auth n current us db db' :
  apply_updates oui auth n current us db = Ok db' ->
  same_locks db db' /\ routes db' = routes db /\ route_eui_pairs db' = route_eui_pairs db /\
  route_devaddr_ranges db' = route_devaddr_ranges db /\ route_session_key_filters db' = route_session_key_filters db.
Proof.
  revert db. induction us as [|u us IH]; cbn [apply_updates]; intros db H.
  { injection H as <-. split; [|done]. intros o row Ho. by exists row. }
  apply result_bind_ok in H as (db1 & (L1 & E1 & E2 & E3 & E4)%apply_update_keeps & (L2 & F1 & F2 & F3 & F4)%IH).
  split; [|by repeat split; congruence]. intros o row Ho. destruct (L1 o row Ho) as (row1 & H1 & El1).
  destruct (L2 o row1 H1) as (row2 & H2 & El2). exists row2. split; [done|congruence].
Qed.

Definition task_bodies (tasks : list (list RouteStreamRes)) : list (ActionV1 * StreamData) := sg_body <$> concat tasks.

Lemma task_bodies_one (t : list RouteStreamRes) : task_bodies [t] = sg_body <$> t.
Proof. unfold task_bodies. cbn [concat]. by rewrite app_nil_r. Qed.

Lemma route_changes cache db seen now : stream_inv db seen ->
  (forall rq, let o := update_handler cache db rq now in change_ok db seen (task_bodies (oc_updates o)) (oc_db o) seen) /\
  (forall rq, let o := delete_handler cache db rq now in change_ok db seen (task_bodies (oc_updates o)) (oc_db o) seen).
Proof.
  intros Hi. pose proof (change_same db seen seen Hi ltac:(done)) as Hsame. split; intros rq; cbv zeta.
  - unfold update_handler. case_match. case_match eqn:E; [|done]. do 2 case_match; subst. cbn [oc_updates oc_db]. rewrite task_bodies_one.
    apply result_bind_ok in E as (v1 & _ & E). apply result_bind_ok in E as (signer & _ & E).
    apply result_bind_ok in E as ([] & _ & E%map_err_ok). by eapply update_route_change.
  - unfold delete_handler. case_match. case_match eqn:E; [|done]. do 2 case_match; subst. cbn [oc_updates oc_db]. rewrite task_bodies_one.
    apply result_bind_ok in E as (signer & _ & E). apply result_bind_ok in E as ([] & _ & E).
    apply result_bind_ok in E as (rt & _ & E). apply result_bind_ok in E as (res & E%map_err_ok & [= -> _]).
    by eapply delete_route_change.
Qed.

Lemma create_change cache rq id now db seen : stream_inv db seen -> id ∉ seen -> uuid_parse id = Some id ->
  let o := create_handler cache db rq id now in change_ok db seen (task_bodies (oc_updates o)) (oc_db o) ({[id]} ∪ seen).
Proof.
  intros Hi Hid Hp. cbv zeta. unfold create_handler. case_match. case_match eqn:E; [|apply change_same; [done|set_solver]].
  do 2 case_match; subst. cbn [oc_updates oc_db]. rewrite task_bodies_one.
  apply result_bind_ok in E as (signer & _ & E). apply result_bind_ok in E as ([] & _ & E).
  apply result_bind_ok in E as (rt & _ & E). destruct (negb _); [done|]. apply map_err_ok in E. by eapply create_route_change.
Qed.

Lemma row_changes cache db seen now : stream_inv db seen ->
  (forall incoming, let o := update_euis_handler cache db incoming now in
     change_ok db seen (task_bodies (oc_updates o)) (oc_db o) seen) /\
  (forall incoming, let o := update_devaddr_ranges_handler cache db incoming now in
     change_ok db seen (task_bodies (oc_updates o)) (oc_db o) seen).
Proof.
  intros Hi. pose proof (change_same db seen seen Hi ltac:(done)) as Hsame. split; intros incoming; cbv zeta.
  - unfold update_euis_handler. case_match; [|done].
    match goal with v : DevAddrEuiValidator |- _ => pose proof (batches_change (apply_euis now) v incoming db seen Hi) as Hb end.
    destruct (run_batches _ _ _ _ _ _) as [[db' tasks] r]. apply Hb. intros us db1 db2 evs Hi1 Ha. unfold apply_euis in Ha.
    apply result_bind_ok in Ha as (ps & _ & Ha). case_match. apply map_err_ok in Ha. by eapply update_euis_change.
  - unfold update_devaddr_ranges_handler. case_match; [|done].
    match goal with v : DevAddrEuiValidator |- _ => pose proof (batches_change (apply_ranges now) v incoming db seen Hi) as Hb end.
    destruct (run_batches _ _ _ _ _ _) as [[db' tasks] r]. apply Hb. intros us db1 db2 evs Hi1 Ha. unfold apply_ranges in Ha.
    apply result_bind_ok in Ha as (ps & _ & Ha). case_match. apply map_err_ok in Ha. by eapply update_ranges_change.
Qed.

Lemma skfs_change cache db seen route_id updates signer signature now : stream_inv db seen ->
  skf_disjoint (skf_changes route_id updates).1 (skf_changes route_id updates).2 ->
  let o := update_skfs_handler cache db (mkReq (RouteSkfUpdateReqV1 route_id updates) signer signature) now in
  change_ok db seen (task_bodies (oc_updates o)) (oc_db o) seen.
Proof.
  intros Hi Hd. cbv zeta. unfold update_skfs_handler. cbn [rq_body].
  destruct (SKF_UPDATE_LIMIT <? _); [by apply change_same|].
  case_match eqn:E; [|by apply change_same].
  match goal with x : config_db json * list RouteStreamRes |- _ => destruct x as [db' task] end.
  cbn [oc_updates oc_db]. rewrite task_bodies_one.
  apply result_bind_ok in E as (s & _ & E). apply result_bind_ok in E as ([] & _ & E).
  apply result_bind_ok in E as ([] & _ & E). destruct (skf_changes route_id updates). apply map_err_ok in E. by eapply update_skfs_change.
Qed.

Lemma locked_change {R} `{!MsgVerify R} target cache db seen delegates (request : R) signer oui now : stream_inv db seen ->
  let o := set_locked_handler target cache db delegates request signer oui now in
  change_ok db seen (task_bodies [oo_updates o]) (oo_db o) seen.
Proof.
  intros Hi. cbv zeta. rewrite task_bodies_one. unfold set_locked_handler. case_match; [|by apply change_same].
  case_match; [by apply change_same|]. pose proof (stream_org_routes_bodies now (list_routes oui (toggle_locked oui db))) as Hb.
  destruct (stream_org_routes _ _) as [ms r]. cbn [oo_updates oo_db fst] in *. rewrite Hb. by apply lock_change.
Qed.

Lemma org_requests_change cache rq delegates now db seen : stream_inv db seen ->
  match rq with RqDisable _ | RqEnable _ => False | _ => True end ->
  change_ok db seen [] (org_step cache rq now db delegates).1 seen.
Proof.
  intros Hi Hrq. pose proof (change_same db seen seen Hi ltac:(done)) as Hsame.
  destruct rq as [r serial|r serial|r|r|r]; try done; cbn [org_step fst].
  - unfold create_helium_handler. case_match eqn:E; [|done]. case_match; subst. cbn [oo_db].
    apply result_bind_ok in E as (signer & _ & E). apply result_bind_ok in E as ([] & _ & E).
    apply result_bind_ok in E as (keys & _ & E). apply result_bind_ok in E as (addrs & _ & E).
    destruct (checkout_devaddr_constraints _ _ _) as [store res].
    apply result_bind_ok in E as (cs & _ & (L & E1 & E2 & E3 & E4)%map_err_ok%create_org_keeps). by apply orgs_change.
  - unfold create_roamer_handler. case_match eqn:E; [|done]. case_match; subst. cbn [oo_db].
    apply result_bind_ok in E as (signer & _ & E). apply result_bind_ok in E as ([] & _ & E).
    apply result_bind_ok in E as (keys & _ & E).
    apply result_bind_ok in E as (range & _ & (L & E1 & E2 & E3 & E4)%map_err_ok%create_org_keeps). by apply orgs_change.
  - unfold update_org_handler. case_match eqn:E; [|done]. do 2 case_match; subst. cbn [oo_db].
    apply result_bind_ok in E as (signer & _ & E). apply result_bind_ok in E as (auth & _ & E%map_err_ok).
    unfold update_org in E. apply result_bind_ok in E as (cur & _ & E). apply result_bind_ok in E as (n & _ & E).
    apply result_bind_ok in E as (db1 & (L & E1 & E2 & E3 & E4)%apply_updates_keeps & E).
    apply result_bind_ok in E as (org & _ & [= <- _ _]). by apply orgs_change.
Qed.

Lemma change_sound db seen db' seen' tasks :
  stream_inv db seen -> change db seen db' seen' tasks -> change_ok db seen (task_bodies tasks) db' seen'.
Proof.
  intros Hi Hc. destruct Hc.
  - by apply create_change.
  - by apply route_changes.
  - by apply route_changes.
  - by apply row_changes.
  - by apply row_changes.
  - by apply skfs_change.
  - by apply org_requests_change.
  - subst o. unfold disable_handler. case_match. by apply locked_change.
  - subst o. unfold enable_handler. case_match. by apply locked_change.
  - by apply clean_change.
Qed.

(** ** Subscribers from the start *)

Record stream_sys : Type := mkSys {
  ss_db : config_db json; ss_seen : gset Uuid;
  ss_tasks : list (list RouteStreamRes);  (** what the broadcast tasks have still to send *)
  ss_log : list RouteStreamRes            (** what went out on the channel *)
}.

Definition sent (s : stream_sys) : list (ActionV1 * StreamData) := sg_body <$> ss_log s.
Definition pending (s : stream_sys) : list (ActionV1 * StreamData) := task_bodies (ss_tasks s).

(** A request changes the tables and leaves its tasks; a task sends its next
    update.  When [fifo], not before an earlier task's update of the same entry. *)
Inductive step (fifo : bool) (s : stream_sys) : stream_sys -> Prop :=
| step_change db' seen' tasks : change (ss_db s) (ss_seen s) db' seen' tasks ->
    step fifo s (mkSys db' seen' (ss_tasks s ++ tasks) (ss_log s))
| step_send before m rest after : ss_tasks s = before ++ (m :: rest) :: after ->
    (fifo = true -> ~ touched (task_bodies before) (data_key (sg_body m).2)) ->
    step fifo s (mkSys (ss_db s) (ss_seen s) (before ++ rest :: after) (ss_log s ++ [m])).

Definition started db seen : stream_sys := mkSys db seen [] [].

(** The messages [w] bring a client that began with [v] up to the tables. *)
Definition client_ok (v : view) (w : list (ActionV1 * StreamData)) db seen : Prop :=
  (forall k, relevant db k -> receive w v k = db_view db k) /\
  (forall k id, key_route k = Some id -> id ∉ seen -> receive w v k = None).

Lemma client_change v w db seen evs db' seen' :
  client_ok v w db seen -> change_ok db seen evs db' seen' -> client_ok v (w ++ evs) db' seen'.
Proof.
  intros [Hr Hn] C. split.
  - intros k Hk. rewrite receive_app. destruct (ck_view _ _ _ _ _ C k Hk) as [[_ Hrec]|(Ht & [Hrel|(id & Hid & Hns & Hv)] & Hv')].
    + apply Hrec.
    + rewrite receive_untouched by done. by rewrite Hr, Hv'.
    + rewrite receive_untouched by done. by rewrite (Hn k id), Hv', Hv.
  - intros k id Hk Hid. rewrite receive_app, receive_untouched.
    + apply (Hn k id Hk). intros H. by apply Hid, (ck_grow _ _ _ _ _ C).
    + intros Ht. by apply Hid, (ck_routes _ _ _ _ _ C k).
Qed.

Lemma receive_ext l v v' k : v k = v' k -> receive l v k = receive l v' k.
Proof. intros E. destruct (decide (touched l k)); [by apply receive_touched|by rewrite !receive_untouched]. Qed.

(** An update can be sent before those of other entries. *)
Lemma receive_early l e l' v k : ~ touched l (data_key e.2) -> receive (l ++ e :: l') v k = receive (e :: l ++ l') v k.
Proof.
  intros Hn. change (e :: l') with ([e] ++ l'). change (e :: l ++ l') with ([e] ++ (l ++ l')). rewrite !receive_app.
  apply receive_ext. destruct (decide (touched l k)) as [Ht|Ht].
  - rewrite (receive_untouched [e]); [by apply receive_touched|].
    intros [->|[]%not_elem_of_nil]%touched_cons. done.
  - rewrite (receive_untouched l _ k Ht). apply receive_ext. by rewrite receive_untouched.
Qed.

Lemma task_bodies_app t1 t2 : task_bodies (t1 ++ t2) = task_bodies t1 ++ task_bodies t2.
Proof. apply fmap_concat_app. Qed.
Lemma task_bodies_cons (t : list RouteStreamRes) ts : task_bodies (t :: ts) = (sg_body <$> t) ++ task_bodies ts.
Proof. unfold task_bodies. cbn [concat]. apply fmap_app. Qed.

Definition sys_ok v (s : stream_sys) : Prop :=
  stream_inv (ss_db s) (ss_seen s) /\ client_ok v (sent s ++ pending s) (ss_db s) (ss_seen s).

Lemma step_sys_ok v s s' : sys_ok v s -> step true s s' -> sys_ok v s'.
Proof.
  intros [Hi Hc] Hs. destruct Hs as [db' seen' tasks Hch|before m rest after Et Hf].
  - apply (change_sound _ _ _ _ _ Hi) in Hch. split; [apply Hch|]. unfold sent, pending. cbn [ss_db ss_seen ss_tasks ss_log].
    rewrite task_bodies_app, app_assoc. by eapply client_change.
  - split; [done|]. specialize (Hf eq_refl).
    assert (forall k, receive (sent s ++ pending s) v k =
      receive ((sg_body <$> ss_log s ++ [m]) ++ task_bodies (before ++ rest :: after)) v k) as E.
    { intros k. unfold sent, pending. rewrite Et, fmap_app, !task_bodies_app, !task_bodies_cons, fmap_cons, <- app_assoc.
      rewrite !(receive_app (sg_body <$> ss_log s)). cbn [app fmap list_fmap]. by rewrite receive_early. }
    unfold sent, pending. cbn [ss_db ss_seen ss_tasks ss_log]. split; [intros k Hk|intros k id Hk Hid]; rewrite <- E; [by apply Hc|by apply (proj2 Hc k id)].
Qed.

Lemma started_ok db seen : stream_inv db seen -> sys_ok (db_view db) (started db seen).
Proof.
  intros Hi. split; [done|]. split; [done|]. intros k id Hk Hid. cbn. apply (no_rows db seen k id Hi Hk).
  destruct (routes db !! id) eqn:E; [|done]. exfalso. apply Hid, (si_seen db seen Hi). by eexists.
Qed.

Lemma run_sys_ok v s s' : sys_ok v s -> rtc (step true) s s' -> sys_ok v s'.
Proof. intros Hs Hr. induction Hr as [|s s1 s' Hst Hr IH]; [done|]. apply IH. by eapply step_sys_ok. Qed.

(** ** Late subscribers *)

Definition effect (e : ActionV1 * StreamData) : option sval := match e.1 with Add => Some (data_val e.2) | Remove => None end.

Lemma receive_decides l v k x :
  (forall e, e ∈ l -> data_key e.2 = k -> effect e = x) -> touched l k -> receive l v k = x.
Proof.
  revert v. induction l as [|e l IH]; intros v Hl Ht; [by apply not_elem_of_nil in Ht|].
  change (receive l (receive_one v e) k = x). destruct (decide (touched l k)) as [Hn|Hn].
  - apply IH; [|done]. intros e' He'. apply Hl. by right.
  - rewrite receive_untouched by done. apply touched_cons in Ht as [->|?]; [|done]. unfold receive_one. rewrite decide_True by done.
    apply (Hl e); [left|done].
Qed.

Lemma touched_elem l k : touched l k <-> exists e, e ∈ l /\ data_key e.2 = k.
Proof. unfold touched. rewrite list_elem_of_fmap. split; intros (e & H1 & H2); exists e; split; congruence. Qed.

Definition received (l : list (result RouteStreamRes Status)) : list (ActionV1 * StreamData) :=
  omap (fun r => match r with Ok m => Some (sg_body m) | Err _ => None end) l.

Lemma received_existing {A} (now : Z) (f : A -> StreamData) (l : list (A * bool)) :
  received ((fun rd : A * bool => existing_update now (f rd.1) rd.2) <$> l) =
  (fun rd : A * bool => (if rd.2 then Remove else Add, f rd.1)) <$> l.
Proof.
  unfold received. induction l as [|[a d] l IH]; [done|]. rewrite !fmap_cons. cbn [omap list_omap fst snd]. unfold existing_update at 1.
  destruct (stream_update_body now (if d then Remove else Add) (f a)) as (m & -> & E). cbn [ok_or]. rewrite E. f_equal. apply IH.
Qed.

(** No row is older than the time a client asks for. *)
Definition all_since (since : Z) db : Prop :=
  map_Forall (fun _ row => since <= rr_updated_at row) (routes db) /\
  map_Forall (fun _ row => since <= tk_updated_at row) (route_eui_pairs db) /\
  map_Forall (fun _ row => since <= tk_updated_at row) (route_devaddr_ranges db) /\
  map_Forall (fun _ row => since <= tk_updated_at row) (route_session_key_filters db).

Section Snapshot.
Context {K V : Type} `{!EqDecision K, !Countable K}.
Context (key : Uuid * K -> skey) (val : V -> sval) (mk : (Uuid * K) * V -> StreamData).
Context (t : gmap (Uuid * K) (tracked V)) (db : config_db json) (since : Z).
Hypothesis key_inj : forall k k', key k = key k' -> k = k'.
Hypothesis mk_ok : forall (k : Uuid * K) (row : tracked V), t !! k = Some row ->
  data_key (mk (k, tk_value row)) = key k /\ data_val (mk (k, tk_value row)) = val (tk_value row).
Hypothesis t_since : map_Forall (fun _ row => since <= tk_updated_at row) t.

Definition row_messages : list (ActionV1 * StreamData) :=
  (fun kd : ((Uuid * K) * V) * bool => (if kd.2 then Remove else Add, mk kd.1)) <$> changed_rows (routes db) since t.

Lemma row_messages_elem e : e ∈ row_messages <-> exists (k : Uuid * K) (row : tracked V),
  t !! k = Some row /\ route_alive db k.1 /\ e = (if tk_deleted row then Remove else Add, mk (k, tk_value row)).
Proof.
  unfold row_messages. rewrite list_elem_of_fmap. split.
  - intros (kd & -> & H). unfold changed_rows in H. apply list_elem_of_omap in H as ([k row] & H%elem_of_map_to_list & E). cbn [fst snd] in E.
    destruct (routes db !! k.1) as [rt|] eqn:Er; [|done]. destruct (_ && _) eqn:Eb; [|done]. injection E as <-.
    apply andb_true_iff in Eb as [_ Eb%negb_true_iff]. exists k, row. split; [done|]. split; [by exists rt|done].
  - intros (k & row & H & (rt & Hrt & Hd) & ->). exists ((k, tk_value row), tk_deleted row). split; [done|]. unfold changed_rows.
    apply list_elem_of_omap. exists (k, row). split; [by apply elem_of_map_to_list|]. cbn [fst snd]. rewrite Hrt, Hd.
    specialize (t_since k row H). cbn in t_since. by rewrite (proj2 (Z.leb_le _ _) t_since).
Qed.

Lemma row_messages_key e : e ∈ row_messages -> exists k : Uuid * K, data_key e.2 = key k /\ route_alive db k.1.
Proof. intros (k & row & H & Ha & ->)%row_messages_elem. exists k. by split; [apply mk_ok|]. Qed.

(** The rows a client is sent first bring it up to the table they are read from. *)
Lemma row_messages_view (v : view) (k : Uuid * K) :
  v (key k) = None -> receive row_messages v (key k) = if decide (touched row_messages (key k)) then row_state val t k else None.
Proof.
  intros Hv. case_decide as Ht; [|by rewrite receive_untouched]. apply receive_decides; [|done].
  intros e (k' & row & H & _ & ->)%row_messages_elem Hk. destruct (mk_ok k' row H) as [E1 E2]. cbn [snd] in Hk.
  assert (k' = k) as -> by (apply key_inj; congruence). unfold effect, row_state. rewrite H. cbn.
  destruct (tk_deleted row); [done|]. by rewrite E2.
Qed.

Lemma row_messages_alive (v : view) (k : Uuid * K) :
  v (key k) = None -> route_alive db k.1 -> receive row_messages v (key k) = row_state val t k.
Proof.
  intros Hv Ha. rewrite row_messages_view by done. case_decide as Ht; [done|]. unfold row_state.
  destruct (t !! k) as [row|] eqn:E; [|done]. exfalso. apply Ht, touched_elem.
  eexists. split; [apply row_messages_elem; by exists k, row|]. cbn [snd]. by apply mk_ok.
Qed.
End Snapshot.

Definition nothing : view := fun _ => None.

Definition eui_messages since now db := received (stream_existing_euis since now db).
Definition range_messages since now db := received (stream_existing_devaddrs since now db).
Definition skf_messages since now db := received (stream_existing_skfs since now db).
Definition route_messages since now db := received (stream_existing_routes since now db).

Lemma row_messages_eq {K V A} `{!EqDecision K, !Countable K} (mk : (Uuid * K) * V -> StreamData) (of_row : (Uuid * K) * V -> A)
    (data : A -> StreamData) (t : gmap (Uuid * K) (tracked V)) db since now :
  (forall kv, data (of_row kv) = mk kv) ->
  received ((fun rd : A * bool => existing_update now (data rd.1) rd.2) <$>
    ((fun kd : ((Uuid * K) * V) * bool => (of_row kd.1, kd.2)) <$> changed_rows (routes db) since t)) = row_messages mk t db since.
Proof.
  intros E. rewrite received_existing. unfold row_messages. rewrite <- list_fmap_compose. apply list_fmap_ext.
  intros i [kv d] _. cbn. by rewrite E.
Qed.

(** What a client is sent of one table: the entries are of that table and of
    routes that are not deleted, and they bring the client up to it. *)
Definition brings (key : skey -> Prop) (l : list (ActionV1 * StreamData)) db : Prop :=
  (forall k, touched l k -> key k /\ relevant db k) /\
  (forall k, key k -> relevant db k -> receive l nothing k = db_view db k).

Lemma euis_brought since now db seen : stream_inv db seen -> all_since since db ->
  brings (fun k => exists k0, k = KEui k0) (eui_messages since now db) db.
Proof.
  intros Hi (_ & Hs & _). unfold eui_messages, stream_existing_euis, eui_stream.
  rewrite (row_messages_eq eui_msg eui_of_row (fun e => DEui (eui_into_v1 e))) by done.
  assert (forall (k : Uuid * (Z * Z)) (row : tracked unit), route_eui_pairs db !! k = Some row ->
    data_key (eui_msg (k, tk_value row)) = KEui k /\ data_val (eui_msg (k, tk_value row)) = VPresent) as Hm.
  { intros k row H. split; [|done]. apply eui_msg_key. cbn [fst]. destruct (si_eui db seen Hi k); [by eexists|done]. }
  split.
  - intros k (e & He & <-)%touched_elem. destruct (row_messages_key KEui (fun _ => VPresent) _ _ _ _ Hm Hs e He) as (k0 & -> & Ha).
    split; [by exists k0|done].
  - intros k [k0 ->] Hk. by apply (row_messages_alive KEui (fun _ => VPresent) _ _ _ _ eui_inj Hm Hs).
Qed.

Lemma ranges_brought since now db seen : stream_inv db seen -> all_since since db ->
  brings (fun k => exists k0, k = KRange k0) (range_messages since now db) db.
Proof.
  intros Hi (_ & _ & Hs & _). unfold range_messages, stream_existing_devaddrs, devaddr_range_stream.
  rewrite (row_messages_eq range_msg range_of_row (fun e => DRange (range_into_v1 e))) by done.
  assert (forall (k : Uuid * (Z * Z)) (row : tracked unit), route_devaddr_ranges db !! k = Some row ->
    data_key (range_msg (k, tk_value row)) = KRange k /\ data_val (range_msg (k, tk_value row)) = VPresent) as Hm.
  { intros k row H. split; [|done]. apply range_msg_key. cbn [fst]. destruct (si_range db seen Hi k); [by eexists|done]. }
  split.
  - intros k (e & He & <-)%touched_elem. destruct (row_messages_key KRange (fun _ => VPresent) _ _ _ _ Hm Hs e He) as (k0 & -> & Ha).
    split; [by exists k0|done].
  - intros k [k0 ->] Hk. by apply (row_messages_alive KRange (fun _ => VPresent) _ _ _ _ range_inj Hm Hs).
Qed.

Lemma skfs_brought since now db seen : stream_inv db seen -> all_since since db ->
  brings (fun k => exists k0, k = KSkf k0) (skf_messages since now db) db.
Proof.
  intros Hi (_ & _ & _ & Hs). unfold skf_messages, stream_existing_skfs, skf_stream.
  rewrite (row_messages_eq skf_msg skf_of_row (fun e => DSkf (skf_into_v1 e))) by done.
  assert (forall (k : Uuid * (Z * string)) (row : tracked Z), route_session_key_filters db !! k = Some row ->
    data_key (skf_msg (k, tk_value row)) = KSkf k /\ data_val (skf_msg (k, tk_value row)) = VCopies (as_u32 (tk_value row))) as Hm.
  { intros k row H. split; [|done]. apply skf_msg_key. cbn [fst]. destruct (si_skf db seen Hi k); [by eexists|done]. }
  split.
  - intros k (e & He & <-)%touched_elem.
    destruct (row_messages_key KSkf (fun n => VCopies (as_u32 n)) _ _ _ _ Hm Hs e He) as (k0 & -> & Ha). split; [by exists k0|done].
  - intros k [k0 ->] Hk. by apply (row_messages_alive KSkf (fun n => VCopies (as_u32 n)) _ _ _ _ skf_inj Hm Hs).
Qed.

Lemma route_of_row_id db id row r : route_of_row db id row = Some r -> r_id r = id.
Proof.
  unfold route_of_row. destruct (organizations db !! rr_oui row); [|done]. cbn. destruct (from_json (rr_opts row)); [|done].
  by intros [= <-].
Qed.

Lemma routes_brought since now db : all_since since db ->
  brings (fun k => exists id, k = KRoute id) (route_messages since now db) db.
Proof.
  intros [Hs _]. unfold route_messages, stream_existing_routes. rewrite (received_existing now (fun r => DRoute (route_into_v1 r))).
  assert (forall rd, rd ∈ route_stream since db <-> exists id row r, routes db !! id = Some row /\ route_of_row db id row = Some r /\
    rd = (r, rr_deleted row) /\ r_id r = id) as He.
  { intros rd. unfold route_stream. rewrite list_elem_of_omap. split.
    - intros ([id row] & H%elem_of_map_to_list & E). cbn [fst snd] in E. destruct (_ <=? _); [|done].
      apply fmap_Some in E as (r & Hr & ->). exists id, row, r. repeat (split; [done|]). by eapply route_of_row_id.
    - intros (id & row & r & H & Hr & -> & _). exists (id, row). split; [by apply elem_of_map_to_list|]. cbn [fst snd].
      specialize (Hs id row H). cbn in Hs. by rewrite (proj2 (Z.leb_le _ _) Hs), Hr. }
  split.
  - intros k ([a d] & ([r b] & [= -> ->] & _)%list_elem_of_fmap & <-)%touched_elem. split; [by eexists|done].
  - intros k [id ->] _. destruct (decide (touched ((fun rd : Route * bool => (if rd.2 then Remove else Add, DRoute (route_into_v1 rd.1)))
      <$> route_stream since db) (KRoute id))) as [Ht|Ht].
    + apply receive_decides; [|done]. intros e (rd & -> & (id' & row & r & H & Hr & -> & Hid)%He)%list_elem_of_fmap Hk.
      cbn in Hk. assert (id' = id) as -> by (injection Hk; congruence). cbn [db_view]. unfold live_route. rewrite H. cbn.
      destruct (rr_deleted row); [done|]. by rewrite Hr.
    + rewrite receive_untouched by done. cbn [db_view nothing]. unfold live_route. destruct (routes db !! id) as [row|] eqn:E; [|done]. cbn.
      destruct (rr_deleted row); [done|]. destruct (route_of_row db id row) as [r|] eqn:Er; [|done]. exfalso. apply Ht, touched_elem.
      exists ((if rr_deleted row then Remove else Add, DRoute (route_into_v1 r))).
      assert (r_id r = id) as Hid by by eapply route_of_row_id. split; [|cbn; by rewrite Hid].
      apply list_elem_of_fmap. exists (r, rr_deleted row). split; [done|]. apply He. by exists id, row, r.
Qed.

(** [stream]: the four tables, read one after the other. *)
Definition snapshot since now db1 db2 db3 db4 : list (ActionV1 * StreamData) :=
  route_messages since now db1 ++ eui_messages since now db2 ++ range_messages since now db3 ++ skf_messages since now db4.

Lemma receive_part p l q k : ~ touched p k -> ~ touched q k -> receive (p ++ l ++ q) nothing k = receive l nothing k.
Proof. intros Hp Hq. rewrite !receive_app, (receive_untouched q) by done. apply receive_ext. by rewrite receive_untouched. Qed.

Lemma snapshot_reads since now v s1 s2 s3 s4 k :
  Forall (sys_ok v) [s1; s2; s3; s4] -> Forall (fun s => all_since since (ss_db s)) [s1; s2; s3; s4] ->
  exists s, s ∈ [s1; s2; s3; s4] /\ forall r, r = receive (snapshot since now (ss_db s1) (ss_db s2) (ss_db s3) (ss_db s4)) nothing k ->
    (relevant (ss_db s) k -> r = db_view (ss_db s) k) /\ (~ relevant (ss_db s) k -> r = None).
Proof.
  intros Hok Hall. rewrite !Forall_cons in Hok, Hall. destruct Hok as ([O1 _] & [O2 _] & [O3 _] & [O4 _] & _).
  destruct Hall as (A1 & A2 & A3 & A4 & _).
  pose proof (routes_brought since now _ A1) as [T1 R1]. pose proof (euis_brought since now _ _ O2 A2) as [T2 R2].
  pose proof (ranges_brought since now _ _ O3 A3) as [T3 R3]. pose proof (skfs_brought since now _ _ O4 A4) as [T4 R4].
  unfold snapshot. set (p1 := route_messages _ _ _) in *. set (p2 := eui_messages _ _ _) in *.
  set (p3 := range_messages _ _ _) in *. set (p4 := skf_messages _ _ _) in *.
  assert (forall l db (key : skey -> Prop), (forall k, touched l k -> key k /\ relevant db k) -> ~ relevant db k -> receive l nothing k = None) as Hn.
  { intros l db key Ht Hr. rewrite receive_untouched; [done|]. by intros [_ ?]%Ht. }
  destruct k as [id|k0|k0|k0].
  - exists s1. split; [rewrite !elem_of_cons; tauto|]. intros r ->. rewrite receive_app, (receive_untouched (p2 ++ _)).
    + split; [apply R1; by eexists|by apply (Hn _ _ _ T1)].
    + rewrite !touched_app. by intros [[[] _]%T2|[[[] _]%T3|[[] _]%T4]].
  - exists s2. split; [rewrite !elem_of_cons; tauto|]. intros r ->. rewrite (receive_part p1 p2); [|by intros [[] _]%T1|].
    + split; [apply R2; by eexists|by apply (Hn _ _ _ T2)].
    + rewrite !touched_app. by intros [[[] _]%T3|[[] _]%T4].
  - exists s3. split; [rewrite !elem_of_cons; tauto|]. intros r ->. rewrite (app_assoc p1), (receive_part (p1 ++ p2) p3); [| |by intros [[] _]%T4].
    + split; [apply R3; by eexists|by apply (Hn _ _ _ T3)].
    + rewrite !touched_app. by intros [[[] _]%T1|[[] _]%T2].
  - exists s4. split; [rewrite !elem_of_cons; tauto|]. intros r ->. rewrite (app_assoc p2), (app_assoc p1), receive_app, (receive_ext p4 _ nothing).
    + split; [apply R4; by eexists|by apply (Hn _ _ _ T4)].
    + apply receive_untouched. rewrite !touched_app. by intros [[[] _]%T1|[[[] _]%T2|[[] _]%T3]].
Qed.

(** What was pending is sent later, or is still pending. *)
Lemma run_sent fifo s s' : rtc (step fifo) s s' ->
  exists l, sent s' = sent s ++ l /\ forall e, e ∈ pending s -> e ∈ l ++ pending s'.
Proof.
  intros Hr. induction Hr as [s|s s1 s' Hst Hr (l & El & Hl)]; [exists []; by rewrite app_nil_r|].
  destruct Hst as [db' seen' tasks Hch|before m rest after Et Hf].
  - exists l. split; [done|]. intros e He. apply Hl. unfold pending. cbn [ss_tasks]. rewrite task_bodies_app. apply elem_of_app. by left.
  - exists (sg_body m :: l). split.
    + rewrite El. unfold sent. cbn [ss_log]. rewrite fmap_app, <- app_assoc. done.
    + intros e He. unfold pending in He, Hl. cbn [ss_tasks] in Hl. rewrite Et in He. revert He.
      rewrite task_bodies_app, task_bodies_cons, fmap_cons, !elem_of_app, elem_of_cons. cbn [app]. rewrite elem_of_cons.
      specialize (Hl e). rewrite task_bodies_app, task_bodies_cons, !elem_of_app in Hl. tauto.
Qed.

Lemma run_alive v s s' : sys_ok v s -> rtc (step true) s s' ->
  ss_seen s ⊆ ss_seen s' /\ forall id, route_alive (ss_db s') id -> id ∈ ss_seen s -> route_alive (ss_db s) id.
Proof.
  intros Hs Hr. induction Hr as [s|s s1 s' Hst Hr IH]; [done|].
  destruct (IH (step_sys_ok v s s1 Hs Hst)) as [Hsub Ha].
  destruct Hst as [db' seen' tasks Hch|before m rest after Et Hf]; [|done]. apply (change_sound _ _ _ _ _ (proj1 Hs)) in Hch.
  cbn [ss_db ss_seen] in *. pose proof (ck_grow _ _ _ _ _ Hch) as Hg. split; [by etrans|].
  intros id Hid Hin. apply (ck_alive _ _ _ _ _ Hch); [|done]. apply Ha; [done|by apply Hg].
Qed.

(** A subscriber that follows the run, or one that starts from the tables at a
    state of it, agrees with the tables at the end on an entry that nothing sent
    in between mentions. *)
Lemma unmentioned_entry v s s' l k :
  sys_ok v s -> rtc (step true) s s' -> sent s' = sent s ++ l -> pending s' = [] -> ~ touched l k -> relevant (ss_db s') k ->
  (relevant (ss_db s) k /\ db_view (ss_db s) k = db_view (ss_db s') k) \/ (~ relevant (ss_db s) k /\ db_view (ss_db s') k = None).
Proof.
  intros Hs Hr El Hp Ht Hk. pose proof (run_sys_ok v s s' Hs Hr) as [_ [Hc' _]]. pose proof Hs as [Hi [Hc Hn]].
  destruct (run_alive v s s' Hs Hr) as [_ Ha]. destruct (run_sent true s s' Hr) as (l' & El' & Hl).
  assert (l' = l) as -> by (apply (app_inv_head (sent s)); congruence).
  assert (~ touched (pending s) k) as Htp.
  { intros (e & He & Ek)%touched_elem. apply Ht, touched_elem. exists e. split; [|done]. specialize (Hl e He). by rewrite Hp, app_nil_r in Hl. }
  assert (receive (sent s ++ pending s) v k = db_view (ss_db s') k) as E.
  { rewrite <- (Hc' k Hk), El, Hp, app_nil_r, !receive_app.
    by rewrite (receive_untouched (pending s)), (receive_untouched l) by done. }
  destruct (key_route k) as [id|] eqn:Ek.
  - destruct (decide (id ∈ ss_seen s)) as [Hid|Hid].
    + left. unfold relevant in Hk |- *. rewrite Ek in *. split; [by apply Ha|]. rewrite <- E. symmetry. apply Hc. unfold relevant. rewrite Ek. by apply Ha.
    + right. split; [|by rewrite <- E; apply (Hn k id)]. unfold relevant. rewrite Ek. intros (row & Hrow & _). apply Hid, (si_seen _ _ Hi). by eexists.
  - left. unfold relevant in *. rewrite Ek in *. split; [done|]. rewrite <- E. symmetry. apply Hc. unfold relevant. by rewrite Ek.
Qed.

(** C8: The stream refines the tables.  From any tables that satisfy the
    invariant, through requests, cleaner runs and broadcast tasks in any
    interleaving that keeps the updates of one entry in order, the updates sent
    and those still pending turn the view of the first tables into that of the
    last, for every route and for everything that belongs to a route that is not
    deleted; when nothing is pending the updates sent do. *)
Theorem stream_refines_tables db0 seen0 s k :
  stream_inv db0 seen0 -> rtc (step true) (started db0 seen0) s -> relevant (ss_db s) k ->
  receive (sent s ++ pending s) (db_view db0) k = db_view (ss_db s) k /\
  (pending s = [] -> receive (sent s) (db_view db0) k = db_view (ss_db s) k).
Proof.
  intros Hi Hr Hk. destruct (run_sys_ok _ _ _ (started_ok db0 seen0 Hi) Hr) as [_ [Hc _]]. split; [by apply Hc|].
  intros Hp. specialize (Hc k Hk). by rewrite Hp, app_nil_r in Hc.
Qed.


(** ** Where the stream and the tables part *)

Lemma receive_all_add l v k : (forall e, e ∈ l -> e.1 = Add) -> touched l k -> is_Some (receive l v k).
Proof.
  revert v. induction l as [|e l IH]; intros v Hl Ht; [by apply not_elem_of_nil in Ht|].
  change (is_Some (receive l (receive_one v e) k)). destruct (decide (touched l k)) as [Hn|Hn].
  - apply IH; [|done]. intros e' He'. apply Hl. by right.
  - rewrite receive_untouched by done. apply touched_cons in Ht as [->|?]; [|done]. unfold receive_one. rewrite decide_True by done.
    rewrite (Hl e); [by eexists|left].
Qed.

Lemma collect_ok_in {A B E} (f : A -> result B E) l bs a b : collect_ok f l = Ok bs -> a ∈ l -> f a = Ok b -> b ∈ bs.
Proof.
  intros Hl%collect_ok_spec Ha Hb. apply list_elem_of_lookup in Ha as (i & Hi).
  destruct (Forall2_lookup_l _ _ _ _ _ Hl Hi) as (b' & Hb' & E'). assert (b' = b) as -> by congruence. by eapply list_elem_of_lookup_2.
Qed.

Lemma skf_insert_touches l now db db' rows a k v :
  insert_skfs l now db = Ok (db', rows) -> a ∈ l -> skf_values a = Ok (k, v) ->
  touched ((fun e => (Add, DSkf (skf_into_v1 e))) <$> rows) (KSkf k).
Proof.
  intros Hl Ha Ev. destruct l as [|x l]; [by apply not_elem_of_nil in Ha|]. cbn [insert_skfs] in Hl.
  apply result_bind_ok in Hl as (vals & Hc & Hl). pose proof (skf_values_valid _ _ Hc) as Hv.
  apply result_bind_ok in Hl as ([t rows'] & Hu%map_err_ok & [= <- <-]).
  assert (rows' = vals) as ->.
  { unfold upsert_rows in Hu. destruct (decide _); [|done]. destruct (forallb _ vals); [|done]. by injection Hu as _ <-. }
  pose proof (collect_ok_in _ _ _ _ _ Hc Ha Ev) as Hin. rewrite Forall_forall in Hv.
  apply touched_elem. exists (Add, skf_msg (k, v)). split; [|by apply (skf_msg_key (k, v)), (Hv (k, v))].
  apply list_elem_of_fmap. exists (skf_of_row (k, v)). split; [done|]. cbn [snd]. by apply list_elem_of_fmap_2.
Qed.

Lemma skf_remove_touches l now db db' rows r k v :
  remove_skfs l now db = Ok (db', rows) -> r ∈ l -> skf_values r = Ok (k, v) -> is_Some (route_session_key_filters db !! k) ->
  touched ((fun e => (Remove, DSkf (skf_into_v1 e))) <$> rows) (KSkf k).
Proof.
  intros Hl Hr Ev [row Hrow]. destruct l as [|x l]; [by apply not_elem_of_nil in Hr|]. cbn [remove_skfs] in Hl.
  apply result_bind_ok in Hl as (vals & Hc & [= <- <-]). pose proof (skf_values_valid _ _ Hc) as Hv. rewrite Forall_forall in Hv.
  pose proof (collect_ok_in _ _ _ _ _ Hc Hr Ev) as Hin.
  apply touched_elem. exists (Remove, skf_msg (k, tk_value row)). split; [|apply (skf_msg_key (k, tk_value row)), (Hv (k, v) Hin)].
  apply list_elem_of_fmap. exists (skf_of_row (k, tk_value row)). split; [done|]. apply list_elem_of_fmap_2. cbn [mark_rows snd].
  apply list_elem_of_omap. exists k. rewrite elem_of_remove_dups. split; [|by rewrite Hrow].
  apply list_elem_of_fmap. by exists (k, v).
Qed.

(** A session key filter that a request both removes and adds, and that had a
    row before, is in the table afterwards, since the removals run first, but not
    in the view of any client that applied the updates of the request: the
    removals are broadcast last. *)
Theorem skf_readded_lost adds removes now db seen db' evs a r k va vr :
  stream_inv db seen -> update_skfs adds removes now db = Ok (db', evs) -> a ∈ adds -> r ∈ removes ->
  skf_values a = Ok (k, va) -> skf_values r = Ok (k, vr) -> is_Some (route_session_key_filters db !! k) ->
  is_Some (db_view db' (KSkf k)) /\ forall v, receive (sg_body <$> evs) v (KSkf k) = None.
Proof.
  intros Hi Hu Ha Hr Eva Evr Hk. unfold update_skfs in Hu. apply result_bind_ok in Hu as ([db1 l1] & H1 & Hu).
  apply result_bind_ok in Hu as ([db2 l2] & H2 & [= <- <-]). cbn [fst snd] in *. rewrite stream_updates_bodies.
  pose proof (skf_insert_touches _ _ _ _ _ _ _ _ H2 Ha Eva) as Ta. pose proof (skf_remove_touches _ _ _ _ _ _ _ _ H1 Hr Evr Hk) as Tr.
  destruct (skf_remove_step _ _ _ _ _ _ Hi H1) as (_ & _ & Hi1 & _).
  destruct (skf_insert_step _ _ _ _ _ _ Hi1 H2) as (_ & _ & _ & Tk & _). split.
  - destruct (Tk (KSkf k)) as [[_ E]|[? _]]; [|done]. rewrite <- (E nothing). apply receive_all_add; [|exact Ta].
    by intros e (x & -> & _)%list_elem_of_fmap.
  - intros v. rewrite receive_app. apply receive_decides; [|exact Tr]. by intros e (x & -> & _)%list_elem_of_fmap _.
Qed.

(** Locking or unlocking an organization changes its routes and is broadcast,
    but leaves the time of their last change alone: a client that was away and
    asks for what changed since it left is sent nothing about them. *)
Theorem lock_change_not_replayed oui db id row r since now :
  routes db !! id = Some row -> rr_oui row = as_i64 oui -> live_route db id = Some r -> rr_updated_at row < since ->
  (exists r', live_route (toggle_locked oui db) id = Some r' /\ r_locked r' = negb (r_locked r)) /\
  ~ touched (route_messages since now (toggle_locked oui db)) (KRoute id).
Proof.
  intros Hr Ho Hl Ht. split.
  - unfold live_route in *. change (routes (toggle_locked oui db)) with (routes db). rewrite Hr in *. cbn in *.
    destruct (rr_deleted row); [done|]. unfold route_of_row in *. cbn. rewrite Ho in *. rewrite lookup_alter_eq.
    destruct (organizations db !! as_i64 oui) as [org|]; [|done]. cbn in *. destruct (from_json (rr_opts row)); [|done].
    injection Hl as <-. by eexists.
  - unfold route_messages, stream_existing_routes. rewrite (received_existing now (fun r => DRoute (route_into_v1 r))).
    intros (e & (rd & -> & Hrd)%list_elem_of_fmap & Hk)%touched_elem. unfold route_stream in Hrd.
    apply list_elem_of_omap in Hrd as ([id' row'] & Hin%elem_of_map_to_list & E). cbn [fst snd] in E.
    destruct (since <=? rr_updated_at row') eqn:Es; [|done]. apply fmap_Some in E as (r' & E%route_of_row_id & ->).
    cbn in Hk. assert (id' = id) as -> by (injection Hk; congruence). change (routes (toggle_locked oui db)) with (routes db) in Hin.
    assert (row' = row) as -> by congruence. apply Z.leb_le in Es. lia.
Qed.
End System.
