(* ===== verification/ConfigExamples.v ===== *)
(** * Runs of the configuration service

    Concrete instances of what the services take from elsewhere (keys,
    signatures, encodings, identifiers) and small runs on them: the hypotheses of
    the theorems hold there, and two broadcast tasks can overtake each other. *)

From S2P Require Import Prelude Solana FileStoreTypes LoraField HeliumNetids.
From S2P Require Import ConfigTables ConfigOrgs ConfigRoutes ConfigRouteService ConfigOrgService ConfigStream.

(** ** Instances *)

#[local] Program Instance two_regions : Regions := {
  region := bool; Us915 := true; UnknownRegion := false;
  region_enum := {| to_i32 b := if b then 0 else 1; from_i32 z := if z =? 0 then Some true else if z =? 1 then Some false else None |}
}.
Next Obligation. by intros []. Qed.

#[local] Program Instance flow_types : ProtoEnum FlowTypeV1 := {|
  to_i32 ft := match ft with SyncV1 => 0 | AsyncV1 => 1 end;
  from_i32 z := if z =? 0 then Some SyncV1 else if z =? 1 then Some AsyncV1 else None
|}.
Next Obligation. by intros []. Qed.

(** Identifiers are texts that are not empty. *)
#[local] Program Instance texts : Uuids := { uuid_parse s := if String.eqb s "" then None else Some s }.
Next Obligation. intros s u. cbn. destruct (String.eqb s "") eqn:E; [done|]. intros [= <-]. by rewrite E. Qed.

#[local] Instance keys : Crypto := { key_valid k := negb (String.eqb k ""); own_key := "server"; sign m := Some m }.

(** A signature names its key. *)
#[local] Instance signed_by {R} : MsgVerify (RouteReq R) := { verify_msg r k := String.eqb (rq_signature r) k }.
#[local] Instance encoded {M} : Encode M := { encode_to_vec _ := "message"%string }.
#[local] Instance route_verify : RouteVerify := {}.
#[local] Instance route_encode : RouteEncode := {}.
#[local] Instance org_verify : OrgVerify := {}.
#[local] Instance org_encode : OrgEncode := {}.

#[local] Instance http_eq_dec : EqDecision Http.
Proof. unfold EqDecision, Decision. repeat decide equality. Defined.
#[local] Instance protocol_eq_dec : EqDecision Protocol.
Proof. solve_decision. Defined.
#[local] Program Instance protocol_json : ProtocolJson Protocol := { to_json p := p; from_json p := Some p }.
Next Obligation. done. Qed.

Lemma keys_sign m : is_Some (sign m).
Proof. by eexists. Qed.

(** ** Tables *)

(** Two organizations; the first leases sixteen addresses in two blocks. *)
Definition two_orgs : config_db Protocol :=
  mkConfigDb (<[1 := mkOrgRow "owner" "payer" false]> {[2 := mkOrgRow "other" "payer" false]})
    (<["delegate" := 1]> {["stranger" := 2]})
    [mkConstraintRow 1 60 2013265920 2013265927; mkConstraintRow 1 60 2013265936 2013265943] ∅ ∅ ∅ ∅ ∅ ∅.

Definition http_route : Route :=
  mkRoute "" (net_id 60) 1 (mkRouteServer "lns.example" 443 (Some (HttpRoaming (mkHttp Async 250 "/" "" "")))) 5 true false false.

Definition create_req : RouteReq RouteCreateReq := mkReq (RouteCreateReqV1 1 (Some (route_into_v1 http_route))) "owner" "owner".
Definition eui_req (action : ActionV1) : RouteReq RouteUpdateEuisReq :=
  mkReq (RouteUpdateEuisReqV1 action (Some (mkEuiPairV1 "route" 7 9))) "delegate" "delegate".
Definition range_req : RouteReq RouteUpdateDevaddrRangesReq :=
  mkReq (RouteUpdateDevaddrRangesReqV1 Add (Some (mkDevaddrRangeV1 "route" 2013265936 2013265939))) "owner" "owner".

Definition with_route : config_db Protocol := oc_db (create_handler ∅ two_orgs create_req "route" 1000).

(** ** Witnesses *)

Lemma delegate_cache_exact_witness :
  exists db' cache' org, update_org 1 ByOrg [Some (UDelegateKey Remove "stranger")] two_orgs (delegate_keys_cache two_orgs) = Ok (db', cache', org) /\
    ("stranger" ∉ cache') /\ "stranger" ∈ delegate_keys_cache db'.
Proof.
  assert (match update_org 1 ByOrg [Some (UDelegateKey Remove "stranger")] two_orgs (delegate_keys_cache two_orgs) with
          | Ok (db', _, _) => delegate_rows db' !! "stranger"%string = Some 2 | Err _ => False end) as Hd by (vm_compute; reflexivity).
  destruct (update_org 1 ByOrg [Some (UDelegateKey Remove "stranger")] two_orgs (delegate_keys_cache two_orgs)) as [[[db' cache'] org]|e] eqn:E;
    [|destruct Hd].
  exists db', cache', org. split; [exact eq_refl|]. split; [|apply elem_of_dom; exists 2; exact Hd].
  pose proof (delegate_cache_exact _ _ _ _ _ _ _ _ eq_refl E "stranger"%string) as Hx.
  intros [_ H]%Hx. apply H. exists 2. split; [vm_compute; reflexivity|]. split; [vm_compute; discriminate|]. left.
Defined.

Lemma with_route_ids : ids_printed with_route.
Proof.
  assert (exists row, routes with_route = {["route" := row]}) as [row E] by (vm_compute; eexists; reflexivity).
  intros id [row' H]. rewrite E in H. by apply lookup_singleton_Some in H as [<- _].
Qed.


Lemma range_update_authorized_witness :
  let k := ("route"%string, (2013265936, 2013265939)) in
  route_devaddr_ranges (oc_db (update_devaddr_ranges_handler ∅ with_route [Ok range_req] 2000)) !! k <> route_devaddr_ranges with_route !! k /\
  exists upd key route c, Ok upd ∈ [Ok (E := Status) range_req] /\ verify_msg upd key = true /\
    routes with_route !! "route"%string = Some route /\ c ∈ org_constraints with_route (rr_oui route).
Proof.
  intros k. assert (route_devaddr_ranges (oc_db (update_devaddr_ranges_handler ∅ with_route [Ok range_req] 2000)) !! k
    <> route_devaddr_ranges with_route !! k) as Hk by (vm_compute; discriminate).
  split; [exact Hk|].
  destruct (range_update_authorized _ _ _ _ _ with_route_ids Hk) as (upd & action & p & route & key & c & H1 & _ & H2 & _ & H3 & _ & H4 & _).
  exists upd, key, route, c. exact (conj H1 (conj H2 (conj H3 H4))).
Defined.

Lemma create_handler_roundtrip_witness :
  exists resp org, oc_reply (create_handler ∅ two_orgs create_req "route" 1000) = Ok resp /\
    organizations two_orgs !! 1 = Some org /\ sg_body resp = route_into_v1 (registered http_route "route" (og_locked org)).
Proof.
  destruct (oc_reply (create_handler ∅ two_orgs create_req "route" 1000)) as [resp|e] eqn:E; [|vm_compute in E; discriminate].
  assert (route_fits http_route) as Hf by (split; vm_compute; split; congruence).
  assert (uuid_parse "route" = Some "route"%string) as Hp by (vm_compute; reflexivity).
  destruct (create_handler_roundtrip ∅ two_orgs http_route 1 "owner" "owner" "route" 1000 resp Hf Hp E) as (org & H1 & _ & _ & H2).
  exists resp, org. exact (conj eq_refl (conj H1 H2)).
Defined.

Lemma constraint_floor_bypassed_witness :
  exists org db' org', get_org 1 two_orgs = Some org /\
    update_org 1 Admin (removals (default [] (o_constraints org))) two_orgs ∅ = Ok (db', ∅, org') /\ o_constraints org' = Some [].
Proof.
  destruct (get_org 1 two_orgs) as [org|] eqn:E; [|vm_compute in E; discriminate]. exists org.
  destruct (constraint_floor_bypassed 1 two_orgs ∅ org 60 E) as (db' & org' & H1 & H2 & _); [vm_compute; reflexivity|vm_compute; reflexivity| | |by exists db', org'].
  - repeat constructor; vm_compute; congruence.
  - vm_compute in E. injection E as <-. vm_compute. lia.
Defined.


(** ** Runs of the stream *)

Abbreviation sys := (stream_sys (json := Protocol)).

(** Task [i] sends its next update. *)
Definition send (i : nat) (s : sys) : sys :=
  match ss_tasks s !! i with
  | Some (m :: rest) => mkSys (ss_db s) (ss_seen s) (take i (ss_tasks s) ++ rest :: drop (S i) (ss_tasks s)) (ss_log s ++ [m])
  | _ => s
  end.

Lemma send_run fifo i (s : sys) : (fifo = true -> task_bodies (take i (ss_tasks s)) = []) -> rtc (step fifo) s (send i s).
Proof.
  intros Hf. unfold send. destruct (ss_tasks s !! i) as [[|m rest]|] eqn:E; [done| |done]. apply rtc_once, step_send.
  - by rewrite (take_drop_middle _ _ _ E).
  - intros Hfifo. rewrite (Hf Hfifo). by intros ?%not_elem_of_nil.
Qed.

Definition created : sys :=
  let o := create_handler ∅ two_orgs create_req "route" 1000 in mkSys (oc_db o) ({["route"%string]} ∪ ∅) ([] ++ oc_updates o) [].

Definition change_pair (action : ActionV1) (now : Z) (s : sys) : sys :=
  let o := update_euis_handler ∅ (ss_db s) [Ok (eui_req action)] now in
  mkSys (oc_db o) (ss_seen s) (ss_tasks s ++ oc_updates o) (ss_log s).

Lemma created_run fifo : rtc (step fifo) (started two_orgs ∅) created.
Proof.
  apply rtc_once. refine (step_change fifo (started two_orgs ∅) _ _ _ _). apply (by_create _ _ ∅ create_req "route" 1000); [done|].
  vm_compute. reflexivity.
Qed.

Lemma change_pair_run fifo action now (s : sys) : rtc (step fifo) s (change_pair action now s).
Proof. apply rtc_once. refine (step_change fifo s _ _ _ _). apply (by_euis _ _ ∅ [Ok (eui_req action)] now). Qed.

Lemma two_orgs_inv : stream_inv two_orgs ∅.
Proof. split; [intros id|intros id|intros id row|intros k|intros k|intros k]; cbn; rewrite lookup_empty; first [by intros [? [=]]|by intros [=]]. Qed.

Definition the_pair : skey := KEui ("route"%string, (7, 9)).
Definition announced : sys := send 0 created.
Definition pair_added : sys := change_pair Add 2000 announced.
Definition pair_sent : sys := send 1 pair_added.

Lemma announced_run fifo : rtc (step fifo) (started two_orgs ∅) announced.
Proof. etrans; [apply created_run|]. by apply send_run. Qed.
Lemma pair_sent_run : rtc (step true) pair_added pair_sent.
Proof. apply send_run. intros _. vm_compute. reflexivity. Qed.

Lemma stream_refines_tables_witness :
  rtc (step true) (started two_orgs ∅) pair_sent /\ pending pair_sent = [] /\
  receive (sent pair_sent) (db_view two_orgs) the_pair = db_view (ss_db pair_sent) the_pair /\
  db_view (ss_db pair_sent) the_pair = Some VPresent.
Proof.
  assert (rtc (step true) (started two_orgs ∅) pair_sent) as Hr.
  { etrans; [apply announced_run|]. etrans; [apply change_pair_run|apply pair_sent_run]. }
  assert (pending pair_sent = []) as Hp by (vm_compute; reflexivity).
  assert (relevant (ss_db pair_sent) the_pair) as Hk by (eexists; split; [vm_compute; reflexivity|reflexivity]).
  split; [exact Hr|]. split; [exact Hp|].
  split; [exact (proj2 (stream_refines_tables keys_sign _ _ _ _ two_orgs_inv Hr Hk) Hp)|vm_compute; reflexivity].
Defined.


(** ** A race *)

Definition pair_removed : sys := change_pair Remove 3000 pair_added.
Definition overtaken : sys := send 1 (send 2 pair_removed).

(** The tasks that broadcast the updates of two requests run on their own.  A
    pair is added to a route and then removed by a second request; when the
    second task sends first, the clients that follow the stream end up with the
    pair although the table has it removed and nothing is left to send. *)
Theorem broadcast_race :
  rtc (step false) (started two_orgs ∅) overtaken /\ pending overtaken = [] /\ relevant (ss_db overtaken) the_pair /\
  receive (sent overtaken) (db_view two_orgs) the_pair = Some VPresent /\ db_view (ss_db overtaken) the_pair = None.
Proof.
  split; [|split; [vm_compute; reflexivity|split; [|split; vm_compute; reflexivity]]].
  - etrans; [apply announced_run|]. etrans; [apply change_pair_run|]. etrans; [apply change_pair_run|].
    etrans; by apply send_run.
  - eexists. split; [vm_compute; reflexivity|reflexivity].
Qed.

(** ** A filter in both lists, and a lock *)

Definition with_filter : config_db Protocol :=
  set_skfs with_route {[("route"%string, (2013265936, "key"%string)) := mkTracked 3 false 2000]}.

Definition the_filter (copies : Z) : Skf := mkSkf "route" (devaddr 2013265936) "key" copies.

Lemma with_filter_inv : stream_inv with_filter ({["route"%string]} ∪ ∅).
Proof.
  assert (stream_inv with_route ({["route"%string]} ∪ ∅)) as Hi.
  { exact (proj1 (run_sys_ok keys_sign _ _ _ (started_ok _ _ two_orgs_inv) (created_run true))). }
  unfold with_filter. destruct Hi as [H1 H2 H3 H4 H5 H6]. split; cbn; try done.
  intros k [row [<- _]%lookup_singleton_Some]. split; [|vm_compute; reflexivity]. eexists. vm_compute. reflexivity.
Qed.

Lemma skf_readded_lost_witness :
  exists db' evs, update_skfs [the_filter 5] [the_filter 3] 3000 with_filter = Ok (db', evs) /\
    is_Some (db_view db' (KSkf ("route"%string, (2013265936, "key"%string)))) /\
    receive (sg_body <$> evs) (db_view with_filter) (KSkf ("route"%string, (2013265936, "key"%string))) = None.
Proof.
  destruct (update_skfs [the_filter 5] [the_filter 3] 3000 with_filter) as [[db' evs]|e] eqn:E; [|vm_compute in E; discriminate].
  exists db', evs. split; [exact eq_refl|].
  destruct (skf_readded_lost (RE := route_encode) keys_sign [the_filter 5] [the_filter 3] 3000 with_filter _ db' evs (the_filter 5) (the_filter 3)
    ("route"%string, (2013265936, "key"%string)) 5 3 with_filter_inv E) as [H1 H2];
    [left|left|vm_compute; reflexivity|vm_compute; reflexivity|eexists; vm_compute; reflexivity|].
  split; [exact H1|exact (H2 _)].
Defined.

Lemma lock_change_not_replayed_witness :
  exists r, live_route with_route "route" = Some r /\
    (exists r', live_route (toggle_locked 1 with_route) "route" = Some r' /\ r_locked r' = negb (r_locked r)) /\
    ~ touched (route_messages 1500 2000 (toggle_locked 1 with_route)) (KRoute "route").
Proof.
  destruct (routes with_route !! "route"%string) as [row|] eqn:Er; [|vm_compute in Er; discriminate].
  destruct (live_route with_route "route") as [r|] eqn:El; [|vm_compute in El; discriminate]. exists r. split; [exact eq_refl|].
  assert (rr_oui row = as_i64 1 /\ rr_updated_at row < 1500) as [Ho Ht] by (vm_compute in Er; injection Er as <-; split; vm_compute; reflexivity).
  exact (lock_change_not_replayed keys_sign 1 with_route "route" row r 1500 2000 Er Ho El Ht).
Defined.
