(* ===== verification/ConfigAdmin.v ===== *)
(** * The administration service of the configuration

    [iot_config/src/admin_service.rs] with the rest of [admin.rs], and
    [region_map.rs]: the handlers that add and remove keys and load regions, and the
    two caches that the other services read, of the keys and of the regions.  The
    theorems: the regions in memory are those that a restart would read from the
    table; keys come only from administrators; and a removed key stays authorized
    until a restart.

    The hex tree, the cells, gzip and the messages are parameters. *)

From S2P Require Import Prelude FileStoreTypes ConfigTables ConfigRoutes ConfigRouteService ConfigOrgService.

Open Scope Z_scope.
Open Scope oracle_scope.

(** ** Parameters *)

(** [HexTreeMap<Region, EqCompactor>] of [hextree] and its cells. *)
Class HexTrees (R : Type) : Type := {
  hextree : Type;
  cell : Type;
  cell_from_raw : Z -> option cell;
  tree_new : hextree;
  tree_insert : cell -> R -> hextree -> hextree;
  tree_get : cell -> hextree -> option R
}.

(** [Display] and [FromStr] of a region, and [BlockchainRegionParamsV1] with its
    encoding; reading back what was written gives the value. *)
Class RegionTexts `{!Regions} : Type := {
  RegionParams : Type;
  empty_params : RegionParams;
  region_text : region -> string;
  region_from_str : string -> option region;
  region_from_text r : region_from_str (region_text r) = Some r;
  encode_params : RegionParams -> string;
  decode_params : string -> option RegionParams;
  decode_encode_params p : decode_params (encode_params p) = Some p
}.

(** [libflate]'s decoder, read to its end. *)
Class GzipDecoder : Type := { gzip_decode : string -> option string }.

(** The collation of the text column that rows are ordered by. *)
Class Collation : Type := {
  text_leb : string -> string -> bool;
  text_leb_total a b : text_leb a b = false -> text_leb b a = true;
  text_leb_trans a b c : text_leb a b = true -> text_leb b c = true -> text_leb a c = true;
  text_leb_antisym a b : text_leb a b = true -> text_leb b a = true -> a = b
}.

(** ** [region_map.rs] *)

Section RegionMaps.
Context {RG : Regions} {HT : HexTrees region} {RT : RegionTexts} {GZ : GzipDecoder} {CO : Collation}.

(** A row of [regions] under its primary key, the text of the region. *)
Record HexRegion : Type := mkHexRegion {
  hr_params : string;
  hr_indexes : option string
}.

Abbreviation regions_table := (gmap string HexRegion).

Record RegionMap : Type := mkRegionMap {
  region_hextree : hextree;
  params_map : gmap region RegionParams
}.

Definition get_region (m : RegionMap) (location : cell) : option region := tree_get location (region_hextree m).
Definition get_params (m : RegionMap) (r : region) : option RegionParams := params_map m !! r.
Definition insert_params (r : region) (params : RegionParams) (m : RegionMap) : RegionMap :=
  mkRegionMap (region_hextree m) (<[r := params]> (params_map m)).
Definition replace_tree (t : hextree) (m : RegionMap) : RegionMap := mkRegionMap t (params_map m).

Inductive RegionError : Type := UnknownRegionText | GzipError | MalformedIndices | ParamsError.

(** [u64::from_le_bytes] of a chunk of eight bytes; the second component is what
    follows the chunk. *)
Fixpoint le_chunk (n : nat) (s : string) : Z * string :=
  match n, s with
  | S n, String c s => let '(z, rest) := le_chunk n s in (Z.of_N (Ascii.N_of_ascii c) + 256 * z, rest)
  | _, _ => (0, s)
  end.

(** The cells of the chunks of a list of raw indices, inserted in turn; [n] chunks. *)
Fixpoint insert_cells (n : nat) (r : region) (raw : string) (tree : hextree) : result hextree RegionError :=
  match n with
  | O => Ok tree
  | S n =>
      let '(h3_idx, rest) := le_chunk 8 raw in
      let? c := ok_or (cell_from_raw h3_idx) MalformedIndices in
      insert_cells n r rest (tree_insert c r tree)
  end.

(** The body of the loop for a row that has indices. *)
Definition insert_region (text indexes : string) (tree : hextree) : result hextree RegionError :=
  let? r := ok_or (region_from_str text) UnknownRegionText in
  let? raw := ok_or (gzip_decode indexes) GzipError in
  if Nat.eqb (Nat.modulo (String.length raw) 8) 0
  then insert_cells (Nat.div (String.length raw) 8) r raw tree
  else Err MalformedIndices.

Fixpoint insert_regions (rows : list (string * HexRegion)) (tree : hextree) : result hextree RegionError :=
  match rows with
  | [] => Ok tree
  | (text, row) :: rest =>
      match hr_indexes row with
      | Some indexes => let? tree := insert_region text indexes tree in insert_regions rest tree
      | None => insert_regions rest tree
      end
  end.

(** [select * from regions order by region desc] *)
Definition rows_desc (db : regions_table) : list (string * HexRegion) :=
  sort_by (fun a b => text_leb b.1 a.1) (map_to_list db).

Definition build_region_tree (db : regions_table) : result hextree RegionError := insert_regions (rows_desc db) tree_new.

Fixpoint collect_params (rows : list (string * HexRegion)) (m : gmap region RegionParams)
    : result (gmap region RegionParams) RegionError :=
  match rows with
  | [] => Ok m
  | (text, row) :: rest =>
      let? r := ok_or (region_from_str text) UnknownRegionText in
      let? params := ok_or (decode_params (hr_params row)) ParamsError in
      collect_params rest (<[r := params]> m)
  end.

(** The rows come in no particular order. *)
Definition build_params_map (db : regions_table) : result (gmap region RegionParams) RegionError :=
  let? m := collect_params (map_to_list db) ∅ in Ok (<[UnknownRegion := empty_params]> m).

Definition region_map_new (db : regions_table) : result RegionMap RegionError :=
  let? tree := build_region_tree db in
  let? params := build_params_map db in
  Ok (mkRegionMap tree params).

(** The upsert of [update_region]. *)
Definition upsert_region (r : region) (params : RegionParams) (indexes : option string) (db : regions_table) : regions_table :=
  <[region_text r :=
      mkHexRegion (encode_params params)
        (match indexes with
         | Some i => Some i
         | None => match db !! region_text r with Some row => hr_indexes row | None => None end
         end)]> db.

(** The table after the transaction, which is rolled back when the tree cannot be
    built, and the new tree. *)
Definition update_region (r : region) (params : RegionParams) (indexes : option string) (db : regions_table)
    : regions_table * result (option hextree) RegionError :=
  let db' := upsert_region r params indexes db in
  match indexes with
  | Some _ =>
      match build_region_tree db' with
      | Ok tree => (db', Ok (Some tree))
      | Err e => (db, Err e)
      end
  | None => (db', Ok None)
  end.

(** *** A region map is a function of the table *)

(** The part of a row that the tree depends on. *)
Definition indexed (row : string * HexRegion) : option (string * string) :=
  match hr_indexes row.2 with Some i => Some (row.1, i) | None => None end.

Fixpoint insert_indexed (rows : list (string * string)) (tree : hextree) : result hextree RegionError :=
  match rows with
  | [] => Ok tree
  | (text, indexes) :: rest => let? tree := insert_region text indexes tree in insert_indexed rest tree
  end.

Lemma insert_regions_indexed rows : forall tree, insert_regions rows tree = insert_indexed (omap indexed rows) tree.
Proof.
  induction rows as [|[text row] rows IH]; intros tree; [done|]. cbn. unfold indexed. cbn.
  destruct (hr_indexes row) as [i|]; cbn; [|done]. destruct (insert_region text i tree); cbn; [done|done].
Qed.

Abbreviation desc := (fun a b : string * string => text_leb b.1 a.1 = true).

Lemma omap_indexed_sorted l :
  StronglySorted (fun a b : string * HexRegion => text_leb b.1 a.1 = true) l -> StronglySorted desc (omap indexed l).
Proof.
  induction 1 as [|[t row] l Hl IH Hf]; [constructor|]. cbn. unfold indexed at 1. cbn.
  destruct (hr_indexes row) as [i|]; [|done]. constructor; [done|].
  rewrite Forall_forall in Hf. apply Forall_forall. intros [t' i'] Hin. apply list_elem_of_omap in Hin as ([t2 row2] & Hin & E).
  unfold indexed in E. cbn in E. destruct (hr_indexes row2); [|done]. injection E as <- <-. by apply (Hf _ Hin).
Qed.

(** Two descending lists with the same rows and no text twice are equal. *)
Lemma desc_unique (l1 l2 : list (string * string)) :
  StronglySorted desc l1 -> StronglySorted desc l2 -> NoDup l1.*1 -> l1 ≡ₚ l2 -> l1 = l2.
Proof.
  revert l2. induction l1 as [|a l1 IH]; intros l2 H1 H2 Hnd Hp.
  - by apply Permutation_nil in Hp as ->.
  - destruct l2 as [|b l2]; [by apply Permutation_sym, Permutation_nil in Hp|].
    inversion_clear H1 as [|? ? Hl1 Ha]. inversion_clear H2 as [|? ? Hl2 Hb].
    rewrite Forall_forall in Ha, Hb.
    assert (a = b) as ->.
    { assert (b ∈ a :: l1) as Hba by (rewrite Hp; set_solver). assert (a ∈ b :: l2) as Hab by (rewrite <- Hp; set_solver).
      apply elem_of_cons in Hba as [?|Hba]; [done|]. apply elem_of_cons in Hab as [?|Hab]; [done|].
      exfalso. apply NoDup_cons in Hnd as [Hn _]. apply Hn. apply list_elem_of_fmap. exists b. split; [|done].
      apply text_leb_antisym; [by apply Hb|by apply Ha]. }
    f_equal. apply IH; [done|done|by apply NoDup_cons in Hnd as [_ ?]|]. by apply Permutation_cons_inv in Hp.
Qed.

Lemma indexed_elem db text i : (text, i) ∈ omap indexed (rows_desc db) <-> exists row, db !! text = Some row /\ hr_indexes row = Some i.
Proof.
  rewrite list_elem_of_omap. unfold rows_desc. split.
  - intros ([t row] & Hin & E). rewrite sort_by_perm, elem_of_map_to_list in Hin. unfold indexed in E. cbn in E.
    destruct (hr_indexes row) as [j|] eqn:Ej; [|done]. injection E as <- <-. eauto.
  - intros (row & Hl & E). exists (text, row). rewrite sort_by_perm, elem_of_map_to_list. split; [done|].
    unfold indexed. cbn. by rewrite E.
Qed.

Lemma indexed_nodup db : NoDup (omap indexed (rows_desc db)).*1.
Proof.
  assert (forall l, NoDup l.*1 -> NoDup (omap indexed l).*1) as H.
  { induction l as [|[t row] l IH]; [done|]. cbn. intros [Hn Hd]%NoDup_cons. unfold indexed at 1. cbn.
    destruct (hr_indexes row) as [i|]; [|by apply IH]. cbn. apply NoDup_cons. split; [|by apply IH].
    intros ([t' i'] & E & Hin)%list_elem_of_fmap. apply Hn. apply list_elem_of_omap in Hin as ([t2 row2] & Hin & E2).
    unfold indexed in E2. cbn in E, E2. destruct (hr_indexes row2); [|done]. injection E2 as <- _. subst t2.
    apply list_elem_of_fmap. by exists (t, row2). }
  apply H. unfold rows_desc. rewrite sort_by_perm. apply NoDup_fst_map_to_list.
Qed.

(** Tables with the same indices give the same tree. *)
Lemma tree_same_indexes db db' :
  (forall text, (db !! text) ≫= hr_indexes = (db' !! text) ≫= hr_indexes) -> build_region_tree db = build_region_tree db'.
Proof.
  intros H. unfold build_region_tree. rewrite !insert_regions_indexed. f_equal.
  assert (forall d, StronglySorted desc (omap indexed (rows_desc d))) as Hs.
  { intros d. apply omap_indexed_sorted, sort_by_sorted.
    - intros a b. apply text_leb_total.
    - intros a b c Hab Hbc. by eapply text_leb_trans. }
  apply desc_unique; [done..|apply indexed_nodup|]. apply NoDup_Permutation; [eapply NoDup_fmap_1, indexed_nodup..|].
  assert (forall d text i, (text, i) ∈ omap indexed (rows_desc d) <-> (d !! text) ≫= hr_indexes = Some i) as He.
  { intros d text i. rewrite indexed_elem. destruct (d !! text) as [row|]; cbn; split; [by intros (? & [= <-] & ?)|eauto| |done].
    by intros (? & ? & _). }
  intros [text i]. by rewrite !He, H.
Qed.

(** *** The parameters *)

(** Rows are under the text of their region, as [update_region] writes them. *)
Definition canonical (db : regions_table) : Prop := forall text, is_Some (db !! text) -> exists r, text = region_text r.

Lemma region_text_inj r r' : region_text r = region_text r' -> r = r'.
Proof. intros E. pose proof (region_from_text r) as H. rewrite E, region_from_text in H. by injection H. Qed.

(** What the rows say about a region. *)
Definition row_params (db : regions_table) (r : region) : option RegionParams :=
  row ← db !! region_text r; decode_params (hr_params row).

Lemma collect_params_spec rows : forall m m',
  NoDup rows.*1 -> (forall t, t ∈ rows.*1 -> exists r, t = region_text r) -> collect_params rows m = Ok m' ->
  (forall t row, (t, row) ∈ rows -> is_Some (decode_params (hr_params row))) /\
  forall r, m' !! r = match (list_to_map rows : regions_table) !! region_text r with
                      | Some row => decode_params (hr_params row)
                      | None => m !! r
                      end.
Proof.
  induction rows as [|[t row] rows IH]; intros m m' Hnd Hc; cbn.
  - intros [= <-]. split; [set_solver|]. intros r. by rewrite lookup_empty.
  - apply NoDup_cons in Hnd as [Hn Hnd]. destruct (Hc t) as [r0 ->]; [cbn; set_solver|].
    rewrite region_from_text. cbn. destruct (decode_params (hr_params row)) as [params|] eqn:Ep; cbn; [|done].
    intros H. destruct (IH _ _ Hnd ltac:(intros; apply Hc; cbn; set_solver) H) as [Hd Hl]. split.
    + intros t2 row2 [E|Hin]%elem_of_cons; [injection E as -> ->; by eauto|by eapply Hd].
    + intros r. rewrite Hl. destruct (decide (r = r0)) as [->|Hne].
      * rewrite lookup_insert_eq, (proj1 (not_elem_of_list_to_map _ _) Hn), lookup_insert_eq. done.
      * assert (region_text r0 <> region_text r) as Ht by (intros E%region_text_inj; by subst).
        rewrite (lookup_insert_ne _ _ _ _ Ht). by rewrite (lookup_insert_ne m) by done.
Qed.

Lemma collect_params_total rows : forall m,
  (forall t row, (t, row) ∈ rows -> (exists r, t = region_text r) /\ is_Some (decode_params (hr_params row))) ->
  exists m', collect_params rows m = Ok m'.
Proof.
  induction rows as [|[t row] rows IH]; intros m H; cbn; [by eauto|].
  destruct (H t row) as [[r ->] [params Ep]]; [set_solver|]. rewrite region_from_text, Ep. cbn. apply IH.
  intros t2 row2 Hin. apply H. set_solver.
Qed.

Lemma build_params_ok db m : canonical db ->
  build_params_map db = Ok m <->
  (forall t row, db !! t = Some row -> is_Some (decode_params (hr_params row))) /\
  forall r, m !! r = if decide (r = UnknownRegion) then Some empty_params else row_params db r.
Proof.
  intros Hc. unfold build_params_map.
  assert (forall m0, collect_params (map_to_list db) ∅ = Ok m0 ->
    (forall t row, db !! t = Some row -> is_Some (decode_params (hr_params row))) /\ forall r, m0 !! r = row_params db r) as Hs.
  { intros m0 E. apply collect_params_spec in E as [Hd Hl]; [|apply NoDup_fst_map_to_list|].
    - split; [intros t row H; apply (Hd t row); by apply elem_of_map_to_list|].
      intros r. rewrite Hl, list_to_map_to_list. unfold row_params. by destruct (db !! region_text r).
    - intros t ([t' row] & -> & Hin)%list_elem_of_fmap. apply Hc. apply elem_of_map_to_list in Hin. cbn. eauto. }
  split.
  - destruct (collect_params _ _) as [m0|] eqn:E; cbn; [|done]. intros [= <-]. destruct (Hs m0 eq_refl) as [Hd Hl].
    split; [done|]. intros r. case_decide as Hr; [subst r; by rewrite lookup_insert_eq|]. by rewrite lookup_insert_ne, Hl by done.
  - intros [Hd Hl]. destruct (collect_params_total (map_to_list db) ∅) as [m0 E].
    { intros t row Hin%elem_of_map_to_list. split; [apply Hc; eauto|by eapply Hd]. }
    rewrite E. cbn. f_equal. apply map_eq. intros r. rewrite Hl. case_decide as Hr; [subst r; by rewrite lookup_insert_eq|].
    rewrite lookup_insert_ne by done. by apply Hs.
Qed.

(** *** Loading a region keeps the map in step with the table *)

Lemma upsert_canonical r params idx db : canonical db -> canonical (upsert_region r params idx db).
Proof.
  intros Hc text. unfold upsert_region. destruct (decide (text = region_text r)) as [->|Hne]; [by eauto|].
  rewrite lookup_insert_ne by done. apply Hc.
Qed.

Lemma upsert_params r params idx db m : canonical db -> r <> UnknownRegion ->
  build_params_map db = Ok m -> build_params_map (upsert_region r params idx db) = Ok (<[r := params]> m).
Proof.
  intros Hc Hr Hm. apply build_params_ok in Hm as [Hd Hl]; [|done]. apply build_params_ok; [by apply upsert_canonical|].
  unfold upsert_region, row_params. split.
  - intros t row. rewrite lookup_insert_Some. intros [[<- <-]|[_ H]]; [cbn; rewrite decode_encode_params; by eauto|by eapply Hd].
  - intros r'. destruct (decide (r' = r)) as [->|Hne].
    + rewrite !lookup_insert_eq, decide_False by done. cbn. by rewrite decode_encode_params.
    + rewrite lookup_insert_ne, Hl by done. rewrite lookup_insert_ne; [done|]. intros E. by apply Hne, symmetry, region_text_inj.
Qed.

Lemma upsert_tree_none r params db : build_region_tree (upsert_region r params None db) = build_region_tree db.
Proof.
  apply tree_same_indexes. intros text. unfold upsert_region. destruct (decide (text = region_text r)) as [->|Hne].
  - rewrite lookup_insert_eq. cbn. by destruct (db !! region_text r).
  - by rewrite lookup_insert_ne.
Qed.

Lemma region_map_new_ok db m :
  region_map_new db = Ok m <-> build_region_tree db = Ok (region_hextree m) /\ build_params_map db = Ok (params_map m).
Proof.
  unfold region_map_new. destruct m as [tree params]. cbn.
  destruct (build_region_tree db) as [t|]; cbn; [|by split; [|intros []]].
  destruct (build_params_map db) as [ps|]; cbn; [|by split; [|intros []]].
  split; [intros H; split; congruence|]. intros [[= ->] [= ->]]. done.
Qed.

Lemma update_region_map r params idx db db' updated m :
  canonical db -> r <> UnknownRegion -> region_map_new db = Ok m -> update_region r params idx db = (db', Ok updated) ->
  canonical db' /\
  region_map_new db' = Ok (match updated with
                           | Some tree => replace_tree tree (insert_params r params m)
                           | None => insert_params r params m
                           end).
Proof.
  intros Hc Hr [Ht Hp]%region_map_new_ok. unfold update_region. cbv zeta. destruct idx as [i|].
  - destruct (build_region_tree (upsert_region r params (Some i) db)) as [tree|] eqn:Et; [|done]. intros [= <- <-]. split; [by apply upsert_canonical|].
    apply region_map_new_ok. cbn. split; [done|by apply upsert_params].
  - intros [= <- <-]. split; [by apply upsert_canonical|]. apply region_map_new_ok. cbn.
    split; [by rewrite upsert_tree_none|by apply upsert_params].
Qed.
End RegionMaps.

(** ** [admin_service.rs] *)

Inductive KeyTypeV1 : Type := AdministratorV1 | PacketRouterV1 | OracleV1.

Definition key_type_from_proto (kt : KeyTypeV1) : KeyType :=
  match kt with
  | AdministratorV1 => Administrator
  | PacketRouterV1 => PacketRouter
  | OracleV1 => Oracle
  end.

Inductive AdminAddKeyReq : Type := AdminAddKeyReqV1 (pubkey : string) (key_type : Z).
Inductive AdminRemoveKeyReq : Type := AdminRemoveKeyReqV1 (pubkey : string).
Record AdminLoadRegionReq `{!Regions, !RegionTexts} : Type := AdminLoadRegionReqV1 {
  lr_region : Z;
  lr_params : option RegionParams;
  lr_hex_indexes : string
}.
Inductive RegionParamsReq : Type := RegionParamsReqV1 (region : Z).

Class AdminVerify `{!Regions, !RegionTexts} : Type := {
  verify_add_key :: MsgVerify (RouteReq AdminAddKeyReq);
  verify_remove_key :: MsgVerify (RouteReq AdminRemoveKeyReq);
  verify_load_region :: MsgVerify (RouteReq AdminLoadRegionReq);
  verify_region_params :: MsgVerify (RouteReq RegionParamsReq)
}.

(** A value of a row that a query returns; a parenthesized list of columns is one
    composite value, in a column named row. *)
Inductive sql_value : Type := VText (s : string) | VKeyType (t : KeyType) | VRecord (fields : list sql_value).
Definition sql_row : Type := list (string * sql_value).
Definition returning_record (fields : list sql_value) : sql_row := [("row"%string, VRecord fields)].

(** [Row::get] panics for a column that the row does not have. *)
Definition row_get (name : string) (row : sql_row) : option sql_value :=
  snd <$> find (fun c => String.eqb c.1 name) row.

(** How a handler ends: with a reply or by a panic. *)
Inductive ended (A : Type) : Type := Replied (r : result A Status) | Panicked.
Arguments Replied {A}. Arguments Panicked {A}.

Section AdminService.
Context {RG : Regions} {HT : HexTrees region} {RT : RegionTexts} {GZ : GzipDecoder} {CO : Collation}.
Context {CR : Crypto} {json : Type} {AV : AdminVerify} {KT : ProtoEnum KeyTypeV1}.
Context {EU : Encode (signed unit)} {EP : Encode (signed (Z * option RegionParams))}.
(** The variants that the getters of [AdminAddKeyReqV1] and [RegionParamsReqV1]
    give for a number that is no variant. *)
Context {key_type_default : KeyTypeV1} {region_default : region}.
Implicit Types db : config_db json.

(** The tables and the two watch channels. *)
Record AdminService : Type := mkAdmin {
  as_db : config_db json;
  as_regions : gmap string HexRegion;
  as_auth_cache : CacheKeys;
  as_region_map : RegionMap
}.

(** [admin::remove_key]: the statement has run when its row is read; [None] is the
    panic. *)
Definition remove_key (pubkey : string) db : config_db json * option (option (sql_value * sql_value)) :=
  match admin_keys db !! pubkey with
  | None => (db, Some None)
  | Some key_type =>
      let row := returning_record [VText pubkey; VKeyType key_type] in
      (set_admin_keys db (delete pubkey (admin_keys db)),
       pk ← row_get "pubkey" row; kt ← row_get "key_type" row; Some (Some (pk, kt)))
  end.

Definition add_key (s : AdminService) (now : Z) (request : RouteReq AdminAddKeyReq) : AdminService * ended (signed unit) :=
  let '(AdminAddKeyReqV1 req_pubkey req_key_type) := rq_body request in
  match (let? signer := verify_public_key (rq_signer request) in
         let? _ := verify_admin_request_signature (as_auth_cache s) signer request in
         map_err (fun _ => InvalidArgument) (verify_public_key req_pubkey)) with
  | Err e => (s, Replied (Err e))
  | Ok pubkey =>
      let key_type := key_type_from_proto (default key_type_default (from_i32 req_key_type)) in
      match insert_key req_pubkey key_type (as_db s) with
      | Err _ => (s, Replied (Err Internal))
      | Ok db' =>
          match as_auth_cache s !! pubkey with
          | None => (mkAdmin db' (as_regions s) (<[pubkey := key_type]> (as_auth_cache s)) (as_region_map s),
                     Replied (sign_response tt now))
          | Some _ => (mkAdmin db' (as_regions s) (as_auth_cache s) (as_region_map s), Replied (Err Internal))
          end
      end
  end.

(** [remove_key] of the service; a key is removed from the cache by its bytes. *)
Definition remove_key_handler (s : AdminService) (now : Z) (request : RouteReq AdminRemoveKeyReq)
    : AdminService * ended (signed unit) :=
  let '(AdminRemoveKeyReqV1 pubkey) := rq_body request in
  match (let? signer := verify_public_key (rq_signer request) in
         verify_admin_request_signature (as_auth_cache s) signer request) with
  | Err e => (s, Replied (Err e))
  | Ok _ =>
      match remove_key pubkey (as_db s) with
      | (db', None) => (mkAdmin db' (as_regions s) (as_auth_cache s) (as_region_map s), Panicked)
      | (db', Some (Some (VText pk, _))) =>
          (mkAdmin db' (as_regions s) (delete pk (as_auth_cache s)) (as_region_map s), Replied (sign_response tt now))
      | (db', Some (Some _)) => (mkAdmin db' (as_regions s) (as_auth_cache s) (as_region_map s), Panicked)
      | (db', Some None) =>
          (mkAdmin db' (as_regions s) (as_auth_cache s) (as_region_map s), Replied (sign_response tt now))
      end
  end.

Definition load_region (s : AdminService) (now : Z) (request : RouteReq AdminLoadRegionReq)
    : AdminService * ended (signed unit) :=
  let req := rq_body request in
  match (let? signer := verify_public_key (rq_signer request) in
         let? _ := verify_admin_request_signature (as_auth_cache s) signer request in
         let? r := ok_or (from_i32 (lr_region req)) InvalidArgument in
         if decide (r = UnknownRegion) then Err InvalidArgument else
         let? params := ok_or (lr_params req) InvalidArgument in
         Ok (r, params)) with
  | Err e => (s, Replied (Err e))
  | Ok (r, params) =>
      let idz := if String.eqb (lr_hex_indexes req) "" then None else Some (lr_hex_indexes req) in
      match update_region r params idz (as_regions s) with
      | (regions', Err _) => (mkAdmin (as_db s) regions' (as_auth_cache s) (as_region_map s), Replied (Err Internal))
      | (regions', Ok updated) =>
          let m := insert_params r params (as_region_map s) in
          let m := match updated with Some tree => replace_tree tree m | None => m end in
          (mkAdmin (as_db s) regions' (as_auth_cache s) m, Replied (sign_response tt now))
      end
  end.

Definition region_params (s : AdminService) (now : Z) (request : RouteReq RegionParamsReq)
    : result (signed (Z * option RegionParams)) Status :=
  let '(RegionParamsReqV1 req_region) := rq_body request in
  let? signer := verify_public_key (rq_signer request) in
  let? _ := (if verify_signature (as_auth_cache s) signer request then Ok tt else Err PermissionDenied) in
  sign_response (req_region, get_params (as_region_map s) (default region_default (from_i32 req_region))) now.

(** The requests that change the state, each with the time of its reply. *)
Inductive admin_req : Type :=
| AddKey (now : Z) (request : RouteReq AdminAddKeyReq)
| RemoveKey (now : Z) (request : RouteReq AdminRemoveKeyReq)
| LoadRegion (now : Z) (request : RouteReq AdminLoadRegionReq).

Definition admin_handle (s : AdminService) (r : admin_req) : AdminService * ended (signed unit) :=
  match r with
  | AddKey now request => add_key s now request
  | RemoveKey now request => remove_key_handler s now request
  | LoadRegion now request => load_region s now request
  end.

Definition admin_run (s : AdminService) (rs : list admin_req) : AdminService := foldl (fun s r => (admin_handle s r).1) s rs.

(** The start of the service: both caches are read from the tables. *)
Definition admin_new (config_admin_key : string) db (regions : gmap string HexRegion) : result AdminService RegionError :=
  let? m := region_map_new regions in
  Ok (mkAdmin db regions (auth_cache_new config_admin_key db) m).

(** *** Regions *)

Lemma load_region_map s now request : canonical (as_regions s) -> region_map_new (as_regions s) = Ok (as_region_map s) ->
  let s' := (load_region s now request).1 in
  canonical (as_regions s') /\ region_map_new (as_regions s') = Ok (as_region_map s').
Proof.
  intros Hc Hm. unfold load_region. destruct (let? _ := _ in _) as [[r params]|e] eqn:Ev; [|done].
  assert (r <> UnknownRegion) as Hr.
  { revert Ev. destruct (verify_public_key _); cbn; [|done]. destruct (verify_admin_request_signature _ _ _); cbn; [|done].
    destruct (from_i32 _) as [r'|]; cbn; [|done]. case_decide; [done|]. destruct (lr_params _); cbn; [|done]. by intros [= <- <-]. }
  set (idz := if String.eqb _ _ then _ else _). clearbody idz.
  destruct (update_region r params idz (as_regions s)) as [regions' [updated|e]] eqn:Eu; cbn.
  - by apply (update_region_map _ _ _ _ _ _ _ Hc Hr Hm Eu).
  - revert Eu. unfold update_region. destruct idz; [|done]. destruct (build_region_tree _); [done|]. by intros [= <- _].
Qed.

Lemma admin_handle_map s r : canonical (as_regions s) -> region_map_new (as_regions s) = Ok (as_region_map s) ->
  let s' := (admin_handle s r).1 in
  canonical (as_regions s') /\ region_map_new (as_regions s') = Ok (as_region_map s').
Proof.
  intros Hc Hm. destruct r as [now [[pk kt] sg sig]|now [[pk] sg sig]|now request]; cbn.
  - unfold add_key. cbn. destruct (let? _ := _ in _); [|done]. destruct (insert_key _ _ _); [|done].
    by destruct (as_auth_cache s !! _).
  - unfold remove_key_handler. cbn. destruct (let? _ := _ in _); [|done].
    by destruct (remove_key _ _) as [db' [[[[] ?]|]|]].
  - by apply load_region_map.
Qed.

(** C30: after any sequence of requests the regions that the service answers from
    are those it would read from the table if it started now: loading a region
    updates the parameters and the tree exactly as a rebuild from all rows does, and
    a load whose indices are malformed changes neither. *)
Theorem region_map_agrees config_key db regions s rs :
  canonical regions -> admin_new config_key db regions = Ok s ->
  region_map_new (as_regions (admin_run s rs)) = Ok (as_region_map (admin_run s rs)).
Proof.
  intros Hc. unfold admin_new. destruct (region_map_new regions) as [m|] eqn:Em; [|done]. intros [= <-].
  set (s0 := mkAdmin _ _ _ _). assert (canonical (as_regions s0)) as H1 by done.
  assert (region_map_new (as_regions s0) = Ok (as_region_map s0)) as H2 by done. clearbody s0. clear Hc Em.
  revert s0 H1 H2. induction rs as [|r rs IH]; intros s0 H1 H2; [done|].
  destruct (admin_handle_map s0 r H1 H2) as [H3 H4]. by apply (IH _ H3 H4).
Qed.

(** *** Keys *)

(** The key and its type that an administrator of [cache] asks to add. *)
Definition asked (cache : CacheKeys) (r : admin_req) : option (string * KeyType) :=
  match r with
  | AddKey _ request =>
      let '(AdminAddKeyReqV1 pubkey key_type) := rq_body request in
      if bool_decide (cache !! rq_signer request = Some Administrator) && verify_msg request (rq_signer request)
      then Some (pubkey, key_type_from_proto (default key_type_default (from_i32 key_type))) else None
  | _ => None
  end.

Lemma verify_public_key_same bytes pk : verify_public_key bytes = Ok pk -> pk = bytes.
Proof. unfold verify_public_key. destruct (key_valid bytes); [by intros [= <-]|done]. Qed.

(** Rows are deleted only on request, and the cache only grows. *)
Lemma add_key_cases s now request s' res : add_key s now request = (s', res) ->
  s' = s \/
  exists pk t db', asked (as_auth_cache s) (AddKey now request) = Some (pk, t) /\ insert_key pk t (as_db s) = Ok db' /\
    s' = mkAdmin db' (as_regions s) (match as_auth_cache s !! pk with None => <[pk := t]> (as_auth_cache s) | Some _ => as_auth_cache s end)
           (as_region_map s).
Proof.
  destruct request as [[pk kt] sg sig]. unfold add_key, asked. cbn.
  destruct (verify_public_key sg) as [signer|] eqn:Es; cbn; [|intros [= <- _]; by left].
  apply verify_public_key_same in Es as ->. unfold verify_admin_request_signature, verify_signature_with_type.
  destruct (bool_decide _ && _); cbn; [|intros [= <- _]; by left].
  destruct (verify_public_key pk) as [pk'|] eqn:Ek; cbn; [|intros [= <- _]; by left].
  apply verify_public_key_same in Ek as ->.
  destruct (insert_key _ _ _) as [db'|] eqn:Ei; [|intros [= <- _]; by left].
  intros H. right. exists pk, (key_type_from_proto (default key_type_default (from_i32 kt))), db'.
  split; [done|]. split; [done|]. by destruct (as_auth_cache s !! pk); injection H as <- _.
Qed.

Lemma remove_key_panics pubkey db key_type : admin_keys db !! pubkey = Some key_type ->
  remove_key pubkey db = (set_admin_keys db (delete pubkey (admin_keys db)), None).
Proof. intros H. unfold remove_key. by rewrite H. Qed.

Lemma remove_key_cache s now request : as_auth_cache (remove_key_handler s now request).1 = as_auth_cache s.
Proof.
  destruct request as [[pk] sg sig]. unfold remove_key_handler. cbn. destruct (let? _ := _ in _); [|done].
  destruct (admin_keys (as_db s) !! pk) as [t|] eqn:E; [by rewrite (remove_key_panics _ _ _ E)|].
  unfold remove_key. by rewrite E.
Qed.

Lemma load_region_keys s now request :
  as_auth_cache (load_region s now request).1 = as_auth_cache s /\ as_db (load_region s now request).1 = as_db s.
Proof.
  unfold load_region. destruct (let? _ := _ in _) as [[r params]|]; [|done]. by destruct (update_region _ _ _ _) as [? []].
Qed.

Lemma handle_cache_cases s r :
  as_auth_cache (admin_handle s r).1 = as_auth_cache s \/
  exists pk t, asked (as_auth_cache s) r = Some (pk, t) /\ as_auth_cache s !! pk = None /\
    as_auth_cache (admin_handle s r).1 = <[pk := t]> (as_auth_cache s).
Proof.
  destruct r as [now request|now request|now request]; cbn -[asked].
  - destruct (add_key s now request) as [s' res] eqn:E. apply add_key_cases in E as [->|(pk & t & db' & Ha & _ & ->)]; [by left|].
    cbn -[asked]. destruct (as_auth_cache s !! pk) eqn:Ec; [by left|]. right. by exists pk, t.
  - left. apply remove_key_cache.
  - left. apply load_region_keys.
Qed.

(** The cache only grows, whatever is asked. *)
Lemma admin_run_grows rs : forall s, as_auth_cache s ⊆ as_auth_cache (admin_run s rs).
Proof.
  induction rs as [|r rs IH]; intros s; [done|]. cbn. etransitivity; [|apply IH].
  destruct (handle_cache_cases s r) as [->|(pk & t & _ & Hn & ->)]; [done|]. by apply insert_subseteq.
Qed.

(** C35: a key is authorized only if it was when the service started, or an
    administrator who was authorized at the time asked for it with that type in a
    request they signed; and no request, not even its removal, takes an authorized
    key back before the service starts again. *)
Theorem authorized_keys s rs k t :
  as_auth_cache (admin_run s rs) !! k = Some t <->
  as_auth_cache s !! k = Some t \/
  exists rs1 r rs2, rs = rs1 ++ r :: rs2 /\ as_auth_cache (admin_run s rs1) !! k = None /\
    asked (as_auth_cache (admin_run s rs1)) r = Some (k, t) /\
    as_auth_cache (admin_run s (rs1 ++ [r])) !! k = Some t.
Proof.
  assert (forall s rs rs', admin_run s (rs ++ rs') = admin_run (admin_run s rs) rs') as Happ.
  { intros s0 l l'. apply foldl_app. }
  split.
  - induction rs as [|r rs IH] using rev_ind; [by left|]. intros H. rewrite Happ in H. cbn in H.
    destruct (handle_cache_cases (admin_run s rs) r) as [E|(pk & t' & Ha & Hn & E)]; rewrite E in H.
    + destruct (IH H) as [?|(l1 & x & l2 & -> & Hx)]; [by left|]. right. exists l1, x, (l2 ++ [r]).
      split; [|done]. by rewrite <- app_assoc.
    + apply lookup_insert_Some in H as [[-> ->]|[_ H]].
      * right. exists rs, r, []. split; [done|]. split; [done|]. split; [done|]. rewrite Happ. cbn. rewrite E. apply lookup_insert_eq.
      * destruct (IH H) as [?|(l1 & x & l2 & -> & Hx)]; [by left|]. right. exists l1, x, (l2 ++ [r]).
        split; [|done]. by rewrite <- app_assoc.
  - intros [H|(l1 & x & l2 & -> & _ & _ & H)]; [by eapply lookup_weaken, admin_run_grows|].
    rewrite (app_assoc l1 [x] l2 : l1 ++ x :: l2 = _), Happ. by eapply lookup_weaken, admin_run_grows.
Qed.

(** The removal of a stored key by an administrator ends in a panic after the row
    is deleted: the key stays authorized while the service runs, and asking to add
    it again is refused although its row is stored. *)
Theorem removed_key_stays s now request pubkey key_type rs :
  rq_body request = AdminRemoveKeyReqV1 pubkey -> key_valid (rq_signer request) = true ->
  verify_signature_with_type (as_auth_cache s) Administrator (rq_signer request) request = true ->
  admin_keys (as_db s) !! pubkey = Some key_type -> is_Some (as_auth_cache s !! pubkey) ->
  let '(s', res) := remove_key_handler s now request in
  res = Panicked /\ admin_keys (as_db s') !! pubkey = None /\
  as_auth_cache (admin_run s' rs) !! pubkey = as_auth_cache s !! pubkey.
Proof.
  intros Hb Hk Hv Hrow [t Hc]. pose proof (remove_key_cache s now request) as Hcache.
  destruct request as [body sg sig]. cbn in Hb, Hk, Hv, Hcache. subst body. unfold remove_key_handler in *. cbn in *.
  unfold verify_public_key in *. rewrite Hk in *. cbn in *. unfold verify_admin_request_signature in *. rewrite Hv in *. cbn in *.
  rewrite (remove_key_panics _ _ _ Hrow) in *. cbn. split; [done|]. split; [apply lookup_delete_eq|].
  rewrite Hc. eapply lookup_weaken, admin_run_grows. done.
Qed.
End AdminService.

(** ** Two loads *)

Lemma string_leb_trans a : forall b c, String.leb a b = true -> String.leb b c = true -> String.leb a c = true.
Proof.
  unfold String.leb. induction a as [|x a IH]; intros [|y b] [|z c]; cbn; try done. unfold Ascii.compare.
  destruct (N.compare_spec (Ascii.N_of_ascii x) (Ascii.N_of_ascii y)) as [Ex|Ex|]; [| |done];
    (destruct (N.compare_spec (Ascii.N_of_ascii y) (Ascii.N_of_ascii z)) as [Ey|Ey|]; [| |done]).
  - rewrite Ex, Ey, N.compare_refl. apply IH.
  - by rewrite (proj2 (N.compare_lt_iff _ _)) by lia.
  - by rewrite (proj2 (N.compare_lt_iff _ _)) by lia.
  - by rewrite (proj2 (N.compare_lt_iff _ _)) by lia.
Qed.

Module ExampleAdmin.
#[local] Program Instance enum_bool : ProtoEnum bool := {| to_i32 b := if b then 1 else 0; from_i32 z := Some (z =? 1) |}.
Next Obligation. by intros []. Qed.
#[local] Instance regions : Regions := { region := bool; Us915 := true; UnknownRegion := false }.

(** A tree is the list of its cells, the last inserted first. *)
#[local] Instance trees : HexTrees region := {
  hextree := list (Z * region);
  cell := Z;
  cell_from_raw z := if z <? 2 ^ 63 then Some z else None;
  tree_new := [];
  tree_insert c r t := (c, r) :: t;
  tree_get c t := snd <$> find (fun e => e.1 =? c) t
}.
#[local] Program Instance texts : RegionTexts := {
  RegionParams := string;
  empty_params := "";
  region_text r := if r then "US915" else "UNKNOWN";
  region_from_str s := if String.eqb s "US915" then Some true else if String.eqb s "UNKNOWN" then Some false else None;
  encode_params p := p;
  decode_params s := Some s
}.
Next Obligation. by intros []. Qed.
Next Obligation. done. Qed.
#[local] Instance stored : GzipDecoder := { gzip_decode s := Some s }.
#[local] Program Instance bytewise : Collation := { text_leb := String.leb }.
Next Obligation. intros a b H. destruct (String.leb_total a b); congruence. Qed.
Next Obligation. intros a b c. apply string_leb_trans. Qed.
Next Obligation. intros a b. apply String.leb_antisym. Qed.
#[local] Instance admin_keys_of : Crypto := { key_valid k := negb (String.eqb k ""); own_key := "server"; sign m := Some m }.
#[local] Instance signed_by {R} : MsgVerify (RouteReq R) := { verify_msg r k := String.eqb (rq_signature r) k }.
#[local] Instance encoded {M} : Encode M := { encode_to_vec _ := "message"%string }.
#[local] Instance verified : AdminVerify := {}.
#[local] Program Instance key_types : ProtoEnum KeyTypeV1 := {|
  to_i32 t := match t with AdministratorV1 => 0 | PacketRouterV1 => 1 | OracleV1 => 2 end;
  from_i32 z := if z =? 0 then Some AdministratorV1 else if z =? 1 then Some PacketRouterV1 else if z =? 2 then Some OracleV1 else None
|}.
Next Obligation. by intros []. Qed.

Definition db0 : config_db unit := mkConfigDb ∅ ∅ [] ∅ ∅ ∅ ∅ ∅ ∅.
Definition rows0 : gmap string HexRegion := {["UNKNOWN"%string := mkHexRegion "p0" None]}.
Definition start : AdminService (json := unit) :=
  mkAdmin db0 rows0 {["admin"%string := Administrator]} (mkRegionMap [] {[false := ""%string]}).

(** A load with one cell, and one whose indices are cut short. *)
Definition load (params indexes : string) : admin_req :=
  LoadRegion 5 (mkReq (AdminLoadRegionReqV1 _ _ 1 (Some params) indexes) "admin" "admin").
Definition loads : list admin_req := [load "p1" "abcdefg0"; load "p2" "abc"; load "p3" ""].

Lemma started : admin_new "admin" db0 rows0 = Ok start.
Proof. reflexivity. Qed.

Lemma rows0_canonical : canonical rows0.
Proof. intros text [row H]. unfold rows0 in H. apply lookup_singleton_Some in H as [<- _]. by exists false. Qed.

(** The second load is refused and the third keeps the tree of the first. *)
Lemma loads_end :
  params_map (as_region_map (admin_run (key_type_default := AdministratorV1) start loads)) !! true = Some "p3"%string /\
  length (region_hextree (as_region_map (admin_run (key_type_default := AdministratorV1) start loads))) = 1%nat.
Proof. split; vm_compute; reflexivity. Qed.

Lemma region_map_agrees_witness :
  region_map_new (as_regions (admin_run (key_type_default := AdministratorV1) start loads)) =
  Ok (as_region_map (admin_run (key_type_default := AdministratorV1) start loads)).
Proof. exact (region_map_agrees "admin" db0 rows0 start loads rows0_canonical started). Defined.
End ExampleAdmin.
