(* ===== verification/FileNames.v ===== *)
(** * File names and listings

    [file_store/src/file_info.rs] and the listing of [file_store/src/file_store.rs]:
    the types of files and their names, the regular expression that reads a name
    back, and the files of a bucket between two times.  The object store is a
    parameter with the documented behaviour of its listing.  Times are in
    nanoseconds, text is ASCII. *)

From S2P Require Import Prelude Solana Text FileStoreTypes.
From Stdlib Require Import Ascii.

Open Scope Z_scope.
Open Scope oracle_scope.

(** ** File types *)

Inductive FileType : Type :=
| CbrsHeartbeat | CellSpeedtest | Entropy | SubnetworkRewards | CbrsHeartbeatIngestReport
| CellSpeedtestIngestReport | EntropyReport | IotBeaconIngestReport | IotWitnessIngestReport | IotPocFile
| IotInvalidBeaconReport | IotInvalidWitnessReport | SpeedtestAvg | ValidatedHeartbeat | SignedPocReceiptTxn
| RadioRewardShareFile | RewardManifestFile | IotPacketReport | IotValidPacketFile | InvalidPacketFile
| NonRewardablePacket | IotRewardShareFile | DataTransferSessionIngestReport
| InvalidDataTransferSessionIngestReport | ValidDataTransferSession | PriceReportFile | MobileRewardShareFile
| SubscriberLocationReq | SubscriberLocationIngestReport | VerifiedSubscriberLocationIngestReport | MapperMsg
| CoverageObjectFile | CoverageObjectIngestReport | SeniorityUpdateFile | VerifiedSpeedtest | WifiHeartbeatFile
| WifiHeartbeatIngestReport.

(** [Display for FileType]; [to_str] is the same table. *)
Definition file_type_str (t : FileType) : string :=
  match t with
  | SubscriberLocationReq => "subscriber_location_req"
  | SubscriberLocationIngestReport => "subscriber_location_report"
  | VerifiedSubscriberLocationIngestReport => "verified_subscriber_location_report"
  | CbrsHeartbeat => "cbrs_heartbeat"
  | WifiHeartbeatFile => "wifi_heartbeat"
  | CellSpeedtest => "cell_speedtest"
  | VerifiedSpeedtest => "verified_speedtest"
  | CbrsHeartbeatIngestReport => "heartbeat_report"
  | WifiHeartbeatIngestReport => "wifi_heartbeat_report"
  | CellSpeedtestIngestReport => "speedtest_report"
  | Entropy => "entropy"
  | SubnetworkRewards => "subnetwork_rewards"
  | EntropyReport => "entropy_report"
  | IotBeaconIngestReport => "iot_beacon_ingest_report"
  | IotWitnessIngestReport => "iot_witness_ingest_report"
  | IotPocFile => "iot_poc"
  | IotInvalidBeaconReport => "iot_invalid_beacon"
  | IotInvalidWitnessReport => "iot_invalid_witness"
  | SpeedtestAvg => "speedtest_avg"
  | ValidatedHeartbeat => "validated_heartbeat"
  | SignedPocReceiptTxn => "signed_poc_receipt_txn"
  | RadioRewardShareFile => "radio_reward_share"
  | RewardManifestFile => "reward_manifest"
  | IotPacketReport => "packetreport"
  | IotValidPacketFile => "iot_valid_packet"
  | InvalidPacketFile => "invalid_packet"
  | NonRewardablePacket => "non_rewardable_packet"
  | IotRewardShareFile => "iot_reward_share"
  | DataTransferSessionIngestReport => "data_transfer_session_ingest_report"
  | InvalidDataTransferSessionIngestReport => "invalid_data_transfer_session_ingest_report"
  | ValidDataTransferSession => "valid_data_transfer_session"
  | PriceReportFile => "price_report"
  | MobileRewardShareFile => "mobile_reward_share"
  | MapperMsg => "mapper_msg"
  | CoverageObjectFile => "coverage_object"
  | CoverageObjectIngestReport => "coverage_object_ingest_report"
  | SeniorityUpdateFile => "seniority_update"
  end.

(** The arms of [FileType::from_str], in their order. *)
Definition file_types : list FileType :=
  [SubscriberLocationReq; SubscriberLocationIngestReport; VerifiedSubscriberLocationIngestReport; CbrsHeartbeat;
   WifiHeartbeatFile; CellSpeedtest; VerifiedSpeedtest; CbrsHeartbeatIngestReport; WifiHeartbeatIngestReport;
   CellSpeedtestIngestReport; Entropy; SubnetworkRewards; EntropyReport; IotBeaconIngestReport;
   IotWitnessIngestReport; IotPocFile; IotInvalidBeaconReport; IotInvalidWitnessReport; SpeedtestAvg;
   ValidatedHeartbeat; SignedPocReceiptTxn; RadioRewardShareFile; RewardManifestFile; IotPacketReport;
   IotValidPacketFile; InvalidPacketFile; NonRewardablePacket; IotRewardShareFile; DataTransferSessionIngestReport;
   InvalidDataTransferSessionIngestReport; ValidDataTransferSession; PriceReportFile; MobileRewardShareFile; MapperMsg;
   CoverageObjectFile; CoverageObjectIngestReport; SeniorityUpdateFile].

(** [FileType::from_str]: the first arm that matches; [None] is [InvalidInput]. *)
Definition file_type_from_str (s : string) : option FileType := find (fun t => String.eqb s (file_type_str t)) file_types.

(** ** The regular expression [([a-z,_]+).(\d+)(.gz)?] *)

Definition prefix_char (c : ascii) : bool :=
  let n := Z.of_N (N_of_ascii c) in ((97 <=? n) && (n <=? 122)) || (n =? 44) || (n =? 95).
Definition digit (c : ascii) : bool := match digit_val c with Some _ => true | None => false end.
Definition newline : ascii := ascii_of_N 10.

Fixpoint take_while {A} (p : A -> bool) (l : list A) : list A :=
  match l with
  | [] => []
  | a :: rest => if p a then a :: take_while p rest else []
  end.

(** The match that gives [n] characters to the first group, or fewer when that fails. *)
Fixpoint match_len (n : nat) (l : list ascii) : option (list ascii * list ascii) :=
  match n with
  | O => None
  | S m =>
      match drop n l with
      | c :: rest =>
          match take_while digit rest with
          | [] => match_len m l
          | digits => if bool_decide (c = newline) then match_len m l else Some (take n l, digits)
          end
      | [] => match_len m l
      end
  end.

(** The first group is greedy. *)
Definition match_here (l : list ascii) : option (list ascii * list ascii) :=
  match_len (length (take_while prefix_char l)) l.

(** [RE.captures]: the leftmost match; the groups one and two. *)
Fixpoint captures (l : list ascii) : option (list ascii * list ascii) :=
  match match_here l with
  | Some groups => Some groups
  | None => match l with [] => None | _ :: rest => captures rest end
  end.

(** ** [FileInfo] *)

Record FileInfo : Type := mkFileInfo { fi_key : string; fi_prefix : string; fi_timestamp : Z; fi_size : Z }.

#[global] Instance FileInfo_eq_dec : EqDecision FileInfo.
Proof. solve_decision. Defined.

Section Info.
Context `{!Chrono}.

(** [FileInfo::from_str] *)
Definition file_info_from_str (s : string) : result FileInfo FsError :=
  let? cap := ok_or (captures (String.list_ascii_of_string s)) (Decode (FileInfoDecode "failed to decode file info")) in
  let? v := ok_or (u64_parse (String.string_of_list_ascii cap.2)) (Decode (FileInfoDecode "failed to decode timestamp")) in
  let? timestamp := to_timestamp_millis v in
  Ok (mkFileInfo s (String.string_of_list_ascii cap.1) timestamp 0).

(** [format!("{}.{}.gz", prefix, time.timestamp_millis())] *)
Definition file_key (prefix : string) (t : Z) : string :=
  prefix +:+ "." +:+ i64_to_string (t / nanos_per_milli) +:+ ".gz".

(** [From<(String, DateTime<Utc>)>]; that of a [FileType] goes through its name. *)
Definition file_info_of (prefix : string) (t : Z) : FileInfo := mkFileInfo (file_key prefix t) prefix t 0.

(** [FileInfo::matches] *)
Definition file_info_matches (s : string) : bool :=
  match captures (String.list_ascii_of_string s) with Some _ => true | None => false end.

(** An object of the store: its key and its size. *)
Record Object : Type := mkObject { ob_key : option string; ob_size : Z }.

(** [TryFrom<&Object>] *)
Definition file_info_of_object (o : Object) : result FileInfo FsError :=
  let? key := ok_or (ob_key o) (not_found "no file name found") in
  let? info := file_info_from_str key in
  Ok (mkFileInfo (fi_key info) (fi_prefix info) (fi_timestamp info) (ob_size o)).
End Info.

(** ** Listing *)

(** The objects a listing is asked for. *)
Definition listed (prefix : string) (start_after : option string) (o : string * Z) : bool :=
  String.prefix prefix o.1 && match start_after with Some s => String.ltb s o.1 | None => true end.

(** [list_objects_v2]: the pages of a listing, or an error in place of a page,
    which ends it.  When no page fails, the pages together are the objects of the
    bucket whose key has the prefix and comes after [start_after], in the order
    of their keys. *)
Class ObjectStore (B : Type) : Type := {
  objects : B -> list (string * Z);
  list_pages : B -> string -> option string -> list (result (list Object) unit);
  objects_sorted b : StronglySorted (fun x y => String.ltb x.1 y.1 = true) (objects b);
  list_pages_spec b prefix start_after :
    Forall (fun r => exists os, r = Ok os) (list_pages b prefix start_after) ->
    concat (omap (fun r => match r with Ok os => Some os | Err _ => None end) (list_pages b prefix start_after)) =
    (fun o => mkObject (Some o.1) o.2) <$>
      List.filter (listed prefix start_after) (objects b)
}.

Section Listing.
Context `{!Chrono} {B : Type} `{!ObjectStore B}.

(** The objects of a page: those whose name matches, within the times.  [None] is
    the panic of [unwrap] on a name whose time cannot be read. *)
Fixpoint page_files (after before : option Z) (os : list Object) : option (list FileInfo) :=
  match os with
  | [] => Some []
  | o :: rest =>
      if file_info_matches (default "" (ob_key o)) then
        match file_info_of_object o with
        | Err _ => None
        | Ok info =>
            files ← page_files after before rest;
            Some (if match after with Some v => v <? fi_timestamp info | None => true end &&
                     match before with Some v => fi_timestamp info <=? v | None => true end
                  then info :: files else files)
        end
      else page_files after before rest
  end.

(** [list] and [list_all]: the files of every page, or the first error. *)
Fixpoint collect_pages (after before : option Z) (pages : list (result (list Object) unit))
  : option (result (list FileInfo) unit) :=
  match pages with
  | [] => Some (Ok [])
  | Err e :: _ => Some (Err e)
  | Ok os :: rest =>
      files ← page_files after before os;
      more ← collect_pages after before rest;
      Some (let? more := more in Ok (files ++ more))
  end.

Definition list_all (b : B) (prefix : string) (after before : option Z) : option (result (list FileInfo) unit) :=
  collect_pages after before (list_pages b prefix (file_key prefix <$> after)).
End Listing.

(** ** Names of types *)

Lemma file_type_roundtrip t : file_type_from_str (file_type_str t) = Some t.
Proof. by destruct t. Qed.

Lemma file_type_str_chars t :
  Forall (fun c => prefix_char c = true) (String.list_ascii_of_string (file_type_str t)) /\ file_type_str t <> "".
Proof. destruct t; split; try done; cbn; repeat constructor. Qed.

(** ** What the expression matches *)

Lemma take_while_app {A} (p : A -> bool) l1 a l2 :
  Forall (fun x => p x = true) l1 -> p a = false -> take_while p (l1 ++ a :: l2) = l1.
Proof.
  intros Hl Ha. induction Hl as [|x l1 Hx Hl IH]; cbn [app take_while]; [by rewrite Ha|]. by rewrite Hx, IH.
Qed.

(** What [take_while] takes, and where it stops. *)
Lemma take_while_spec {A} (p : A -> bool) l : exists rest,
  l = take_while p l ++ rest /\ Forall (fun x => p x = true) (take_while p l) /\
  match rest with [] => True | a :: _ => p a = false end.
Proof.
  induction l as [|a l (rest & E & Hf & Hr)]; [by exists []|]. cbn [take_while]. destruct (p a) eqn:Ea.
  - exists rest. cbn. rewrite <- E. split; [done|]. split; [by constructor|done].
  - by exists (a :: l).
Qed.

Lemma take_while_max {A} (p : A -> bool) l l1 l2 :
  l = l1 ++ l2 -> Forall (fun x => p x = true) l1 -> (length l1 <= length (take_while p l))%nat.
Proof.
  intros -> Hf. induction Hf as [|x l1 Hx Hf IH]; cbn [app length]; [lia|]. cbn [take_while]. rewrite Hx. cbn [length]. lia.
Qed.

(** The reference: the first group, any character but a newline, and the digits
    up to the first character that is none. *)
Definition re_match (l p d : list ascii) : Prop :=
  exists c rest, l = p ++ c :: d ++ rest /\ p <> [] /\ Forall (fun x => prefix_char x = true) p /\ c <> newline /\
    d <> [] /\ d = take_while digit (d ++ rest).

(** A match of the reference that gives the first group all it can. *)
Definition re_greedy (l p d : list ascii) : Prop :=
  re_match l p d /\ forall p' d', re_match l p' d' -> (length p' <= length p)%nat.

Lemma re_match_det l p p' d d' : re_match l p d -> re_match l p' d' -> length p = length p' -> p = p' /\ d = d'.
Proof.
  intros (c & rest & -> & _ & _ & _ & _ & Hd) (c' & rest' & E & _ & _ & _ & _ & Hd') Hl.
  apply app_inj_1 in E as [-> E]; [|done]. injection E as <- E. split; [done|]. by rewrite Hd, Hd', E.
Qed.

Lemma match_len_sound n l p d : (n <= length (take_while prefix_char l))%nat ->
  match_len n l = Some (p, d) -> re_match l p d /\ forall p' d', re_match l p' d' -> (length p' <= n)%nat -> (length p' <= length p)%nat.
Proof.
  intros Hn. destruct (take_while_spec prefix_char l) as (rest0 & E0 & Hf0 & _).
  assert (Hsome : forall m c r, (0 < m <= length (take_while prefix_char l))%nat -> drop m l = c :: r -> c <> newline ->
    take_while digit r <> [] -> re_match l (take m l) (take_while digit r)).
  { intros m c r Hm Ed Hc Hne. destruct (take_while_spec digit r) as (r2 & Er & _ & _). exists c, r2.
    split; [by rewrite <- Er, <- Ed, take_drop|]. split; [|split; [|split; [done|split; [done|by rewrite <- Er]]]].
    - intros E. apply (f_equal length) in E. rewrite length_take, E0, length_app in E. cbn in E. lia.
    - rewrite E0, take_app_le by lia. by apply Forall_take. }
  induction n as [|n IH]; [done|]. cbn [match_len]. specialize (IH ltac:(lia)).
  assert (Hskip : (forall p' d', re_match l p' d' -> length p' <> S n) ->
    (match_len n l = Some (p, d) -> re_match l p d /\ forall p' d', re_match l p' d' -> (length p' <= S n)%nat -> (length p' <= length p)%nat)).
  { intros Hno E. destruct (IH E) as [Hm Hmax]. split; [done|]. intros p' d' Hp' Hle. apply (Hmax p' d' Hp').
    pose proof (Hno p' d' Hp'). lia. }
  assert (Hlen : forall p' d', re_match l p' d' -> length p' = S n -> exists c r, drop (S n) l = c :: r /\ c <> newline /\ take_while digit r <> []).
  { intros p' d' (c & r & -> & _ & _ & Hc & Hd & Ed) Hl. exists c, (d' ++ r). rewrite <- Hl, drop_app_length. by rewrite <- Ed. }
  destruct (drop (S n) l) as [|c r] eqn:Ed.
  { apply Hskip. intros p' d' Hp' Hl. destruct (Hlen p' d' Hp' Hl) as (? & ? & ? & _). congruence. }
  destruct (take_while digit r) as [|x xs] eqn:Ex.
  { apply Hskip. intros p' d' Hp' Hl. destruct (Hlen p' d' Hp' Hl) as (? & ? & E & _ & Hne). injection E as <- <-. by rewrite Ex in Hne. }
  destruct (bool_decide (c = newline)) eqn:Ec.
  { apply Hskip. apply bool_decide_eq_true in Ec. intros p' d' Hp' Hl. destruct (Hlen p' d' Hp' Hl) as (? & ? & E & Hc & _). congruence. }
  apply bool_decide_eq_false in Ec. intros [= <- <-]. rewrite <- Ex. split; [apply (Hsome (S n) c r); [lia|done|done|by rewrite Ex]|].
  intros p' d' _ Hle. rewrite length_take_le; [lia|]. rewrite E0, length_app. lia.
Qed.

Lemma match_len_complete n l p d : re_match l p d -> (length p <= n)%nat -> is_Some (match_len n l).
Proof.
  intros Hm. pose proof Hm as (c & rest & El & Hp & _ & Hc & Hd & Ed). induction n as [|n IH]; intros Hn.
  { destruct p; [done|cbn in Hn; lia]. }
  cbn [match_len]. destruct (decide (length p = S n)) as [Hl|Hl].
  - rewrite <- Hl. rewrite El at 1. rewrite drop_app_length, <- Ed. destruct d as [|x d]; [done|].
    rewrite bool_decide_false by done. by eexists.
  - destruct (drop (S n) l) as [|c' r]; [apply IH; lia|]. destruct (take_while digit r); [apply IH; lia|].
    destruct (bool_decide _); [apply IH; lia|by eexists].
Qed.

Lemma match_here_spec l p d : match_here l = Some (p, d) <-> re_greedy l p d.
Proof.
  assert (forall p' d', re_match l p' d' -> (length p' <= length (take_while prefix_char l))%nat) as Hmax.
  { intros p' d' (c & rest & -> & _ & Hf & _). by eapply take_while_max. }
  unfold match_here. split.
  - intros E. destruct (match_len_sound _ _ _ _ (Nat.le_refl _) E) as [Hm Hg]. split; [done|]. intros p' d' Hp'.
    apply (Hg p' d' Hp'). by apply (Hmax p' d').
  - intros [Hm Hg]. destruct (match_len_complete _ _ _ _ Hm (Hmax _ _ Hm)) as [[p' d'] E]. rewrite E.
    destruct (match_len_sound _ _ _ _ (Nat.le_refl _) E) as [Hm' Hg'].
    destruct (re_match_det l p' p d' d Hm' Hm) as [-> ->]; [|done].
    pose proof (Hg p' d' Hm'). pose proof (Hg' p d Hm (Hmax _ _ Hm)). lia.
Qed.

Lemma match_here_none l : match_here l = None <-> forall p d, ~ re_match l p d.
Proof.
  split.
  - intros E p d Hm. assert (length p <= length (take_while prefix_char l))%nat as Hle.
    { destruct Hm as (c & rest & -> & _ & Hf & _). by eapply take_while_max. }
    destruct (match_len_complete _ _ _ _ Hm Hle) as [? E']. unfold match_here in E. congruence.
  - intros Hn. destruct (match_here l) as [[p d]|] eqn:E; [|done]. apply match_here_spec in E as [Hm _]. by apply Hn in Hm.
Qed.

Lemma captures_spec l p d :
  captures l = Some (p, d) <->
  exists before after, l = before ++ after /\ re_greedy after p d /\
    forall b a, l = b ++ a -> (length b < length before)%nat -> forall p' d', ~ re_match a p' d'.
Proof.
  split.
  - revert p d. induction l as [|c l IH]; intros p d E; cbn [captures] in E.
    { destruct (match_here []) as [[p' d']|] eqn:Em; [|done]. injection E as -> ->. exists [], []. split; [done|].
      split; [by apply match_here_spec|]. intros b a _ Hb. cbn in Hb. lia. }
    destruct (match_here (c :: l)) as [[p' d']|] eqn:Em.
    { injection E as -> ->. exists [], (c :: l). split; [done|]. split; [by apply match_here_spec|]. intros b a _ Hb. cbn in Hb. lia. }
    destruct (IH p d E) as (before & after & -> & Hg & Hno). exists (c :: before), after. split; [done|]. split; [done|].
    intros b a El Hb p' d'. destruct b as [|c' b].
    + cbn in El. subst a. by apply match_here_none.
    + injection El as <- El. apply (Hno b a El). cbn in Hb. lia.
  - intros (before & after & -> & Hg & Hno). induction before as [|c before IH]; cbn [app].
    + destruct after; cbn [captures]; by rewrite (proj2 (match_here_spec _ p d) Hg).
    + cbn [captures]. rewrite (proj2 (match_here_none (c :: before ++ after))).
      * apply IH. intros b a E Hb. apply (Hno (c :: b) a); [cbn; by rewrite E|cbn; lia].
      * apply (Hno [] (c :: before ++ after)); [done|cbn; lia].
Qed.

(** The search for the leftmost match with a greedy first group, as the
    backtracking loop does it, is the reference: the groups are those of a match
    at the first place where there is one, and there no match has a longer
    first group. *)
Theorem captures_leftmost_greedy l p d :
  captures l = Some (p, d) <->
  exists before after, l = before ++ after /\ re_greedy after p d /\
    forall b a, l = b ++ a -> (length b < length before)%nat -> forall p' d', ~ re_match a p' d'.
Proof. apply captures_spec. Qed.

(** ** Names round trip *)

Lemma append_cons c s t : String c s +:+ t = String c (s +:+ t).
Proof. done. Qed.

Lemma list_ascii_app s1 s2 : String.list_ascii_of_string (s1 +:+ s2) = String.list_ascii_of_string s1 ++ String.list_ascii_of_string s2.
Proof. induction s1 as [|c s1 IH]; [done|]. cbn. by rewrite <- IH. Qed.

Lemma print_digits_chars fuel n acc : 0 <= n ->
  exists l : list ascii, String.list_ascii_of_string (print_digits fuel n acc) = l ++ String.list_ascii_of_string acc /\
    Forall (fun c => digit c = true) l.
Proof.
  revert n acc. induction fuel as [|fuel IH]; intros n acc Hn; cbn [print_digits]; [by exists []|].
  assert (forall d, 0 <= d < 10 -> digit (digit_char d) = true) as Hd.
  { intros d H. unfold digit. by rewrite digit_val_char. }
  destruct (Z.ltb_spec n 10) as [Hlt|Hge].
  - exists [digit_char n]. split; [done|]. constructor; [apply Hd; lia|constructor].
  - destruct (IH (n / 10) (String (digit_char (n mod 10)) acc)) as (l & E & Hl); [apply Z.div_pos; lia|].
    exists (l ++ [digit_char (n mod 10)]). rewrite E. split; [by rewrite <- app_assoc|].
    apply Forall_app. split; [done|]. constructor; [apply Hd, Z.mod_pos_bound; lia|constructor].
Qed.

Lemma u64_to_string_chars n : is_u64 n ->
  Forall (fun c => digit c = true) (String.list_ascii_of_string (u64_to_string n)) /\ String.list_ascii_of_string (u64_to_string n) <> [].
Proof.
  intros [H0 H1]. destruct (print_digits_chars 20 n "" H0) as (l & E & Hl).
  change (String.list_ascii_of_string "") with (@nil ascii) in E. rewrite app_nil_r in E.
  unfold u64_to_string. destruct (print_digits_head 20 n "") as (d & rest & Eh & _); [lia|split; [lia|cbn; lia]|].
  split; [by rewrite E|]. by rewrite Eh.
Qed.

Definition prefix_ok (prefix : string) : Prop :=
  prefix <> "" /\ Forall (fun c => prefix_char c = true) (String.list_ascii_of_string prefix).

Lemma captures_file_key prefix n : prefix_ok prefix -> is_u64 n ->
  captures (String.list_ascii_of_string (prefix +:+ "." +:+ u64_to_string n +:+ ".gz")) =
  Some (String.list_ascii_of_string prefix, String.list_ascii_of_string (u64_to_string n)).
Proof.
  intros [Hne Hf] Hn. destruct (u64_to_string_chars n Hn) as [Hd Hd0]. rewrite !list_ascii_app.
  set (p := String.list_ascii_of_string prefix) in *. set (d := String.list_ascii_of_string (u64_to_string n)) in *.
  assert (p <> []) as Hp by (subst p; by destruct prefix). apply captures_spec.
  set (l := p ++ _). exists [], l. split; [done|]. split; [|intros b a _ Hb; cbn in Hb; lia]. split.
  - exists "."%char, (String.list_ascii_of_string ".gz"). do 5 (split; [done|]). symmetry. by apply take_while_app.
  - intros p' d' (c & rest & E & _ & Hf' & _). pose proof (take_while_max _ _ _ _ E Hf') as Hle.
    unfold l in Hle. cbn [String.list_ascii_of_string app] in Hle. by rewrite take_while_app in Hle.
Qed.

Lemma time_ms t : time_i64 t -> is_u64 (t / nanos_per_milli) /\ 0 <= t / nanos_per_milli < 2 ^ 63.
Proof. intros Ht. destruct (time_i64_div t nanos_per_milli Ht) as [H _]; [done|]. unfold is_u64. lia. Qed.

Lemma file_key_u64 prefix t : time_i64 t -> file_key prefix t = prefix +:+ "." +:+ u64_to_string (t / nanos_per_milli) +:+ ".gz".
Proof.
  intros Ht. destruct (time_ms t Ht) as [_ H]. unfold file_key, i64_to_string. by rewrite (proj2 (Z.ltb_ge _ 0)) by lia.
Qed.

(** The time of a file name, in whole milliseconds. *)
Definition whole_millis (t : Z) : Z := t / nanos_per_milli * nanos_per_milli.

Lemma file_key_roundtrip `{!Chrono} prefix t : prefix_ok prefix -> time_i64 t ->
  file_info_from_str (file_key prefix t) = Ok (mkFileInfo (file_key prefix t) prefix (whole_millis t) 0).
Proof.
  intros Hp Ht. destruct (time_ms t Ht) as [Hu Hr]. unfold file_info_from_str. rewrite (file_key_u64 prefix t Ht) at 1.
  rewrite captures_file_key by done. cbn [ok_or result_bind fst snd]. rewrite !String.string_of_list_ascii_of_string, u64_parse_print by done.
  cbn [ok_or result_bind]. pose proof (timestamp_millis_roundtrip t Ht) as E. unfold encode_timestamp_millis in E.
  rewrite as_u64_small in E by done. by rewrite E.
Qed.

(** A file name says what is in the file and when it was begun: reading back
    the name that is made of a type and a time gives the name of the type, which
    is the type's, and the time in whole milliseconds. *)
Theorem file_name_roundtrip `{!Chrono} ty t : time_i64 t ->
  let info := file_info_of (file_type_str ty) t in
  file_info_from_str (fi_key info) = Ok (mkFileInfo (fi_key info) (fi_prefix info) (whole_millis t) 0) /\
  file_type_from_str (fi_prefix info) = Some ty.
Proof.
  intros Ht. cbn. split; [|apply file_type_roundtrip]. apply file_key_roundtrip; [|done].
  destruct (file_type_str_chars ty) as [Hf Hne]. by split.
Qed.

Lemma file_name_roundtrip_witness :
  file_info_from_str "iot_poc.1658832527866.gz" = Ok (mkFileInfo "iot_poc.1658832527866.gz" "iot_poc" 1658832527866000000 0).
Proof. exact (proj1 (file_name_roundtrip IotPocFile 1658832527866000123 ltac:(unfold time_i64; lia))). Defined.

(** ** The order of names *)

(** The number a text of digits is, after [acc]. *)
Fixpoint digits_value (acc : Z) (s : string) : Z :=
  match s with
  | EmptyString => acc
  | String c s => digits_value (acc * 10 + default 0 (digit_val c)) s
  end.

Definition all_digits (s : string) : Prop := Forall (fun c => digit c = true) (String.list_ascii_of_string s).

Lemma digit_val_bounds c : digit c = true -> exists d, digit_val c = Some d /\ 0 <= d < 10 /\ N_of_ascii c = Z.to_N (48 + d).
Proof.
  unfold digit, digit_val. destruct (_ && _) eqn:E; [|done]. apply andb_true_iff in E as [E1%Z.leb_le E2%Z.leb_le].
  intros _. eexists. split; [done|]. split; [lia|]. lia.
Qed.

Lemma digits_value_lt s1 s2 a1 a2 :
  all_digits s1 -> all_digits s2 -> String.length s1 = String.length s2 -> a1 < a2 -> digits_value a1 s1 < digits_value a2 s2.
Proof.
  revert s2 a1 a2. induction s1 as [|c1 s1 IH]; intros [|c2 s2] a1 a2 H1 H2 Hl Ha; try done. cbn [digits_value].
  apply Forall_cons in H1 as [Hc1 H1]. apply Forall_cons in H2 as [Hc2 H2].
  destruct (digit_val_bounds c1 Hc1) as (d1 & E1 & B1 & _). destruct (digit_val_bounds c2 Hc2) as (d2 & E2 & B2 & _).
  rewrite E1, E2. cbn [default]. apply IH; [done|done|by injection Hl|cbn; lia].
Qed.

Lemma string_compare_refl s : String.compare s s = Eq.
Proof. induction s as [|c s IH]; [done|]. cbn [String.compare]. unfold Ascii.compare. by rewrite N.compare_refl. Qed.

(** Numerals of the same length are ordered as texts the way they are as numbers. *)
Lemma compare_digits s1 s2 t acc :
  all_digits s1 -> all_digits s2 -> String.length s1 = String.length s2 ->
  String.compare (s1 +:+ t) (s2 +:+ t) = (digits_value acc s1 ?= digits_value acc s2).
Proof.
  revert s2 acc. induction s1 as [|c1 s1 IH]; intros [|c2 s2] acc H1 H2 Hl; try done.
  { cbn. rewrite Z.compare_refl. apply string_compare_refl. }
  pose proof H1 as [Hc1 H1']%Forall_cons. pose proof H2 as [Hc2 H2']%Forall_cons.
  destruct (digit_val_bounds c1 Hc1) as (d1 & E1 & B1 & N1). destruct (digit_val_bounds c2 Hc2) as (d2 & E2 & B2 & N2).
  rewrite !append_cons. cbn [String.compare digits_value]. unfold Ascii.compare. rewrite N1, N2, E1, E2. cbn [default].
  destruct (Z.lt_trichotomy d1 d2) as [Hlt|[<-|Hgt]].
  - rewrite (proj2 (N.compare_lt_iff _ _)) by lia. symmetry. apply Z.compare_lt_iff, digits_value_lt; [done|done|by injection Hl|cbn; lia].
  - rewrite N.compare_refl. apply IH; [done|done|by injection Hl].
  - rewrite (proj2 (N.compare_gt_iff _ _)) by lia. symmetry. apply Z.compare_gt_iff, digits_value_lt; [done|done|by injection Hl|cbn; lia].
Qed.

Lemma print_digits_length fuel k n acc : (k < fuel)%nat -> 10 ^ Z.of_nat k <= n < 10 ^ Z.of_nat (S k) ->
  String.length (print_digits fuel n acc) = (S k + String.length acc)%nat.
Proof.
  revert fuel n acc. induction k as [|k IH]; intros [|fuel] n acc Hf Hn; try lia; cbn [print_digits].
  - rewrite (proj2 (Z.ltb_lt n 10)) by (cbn in Hn; lia). done.
  - rewrite !Nat2Z.inj_succ, !Z.pow_succ_r in Hn by lia. pose proof (Z.pow_pos_nonneg 10 (Z.of_nat k) ltac:(lia) ltac:(lia)).
    rewrite (proj2 (Z.ltb_ge n 10)) by lia. rewrite IH; [cbn; lia|lia|]. rewrite Nat2Z.inj_succ, Z.pow_succ_r by lia.
    split; [apply Z.div_le_lower_bound; lia|apply Z.div_lt_upper_bound; lia].
Qed.

Lemma parse_digits_value max acc s v : parse_digits max acc s = Some v -> digits_value acc s = v.
Proof.
  revert acc. induction s as [|c s IH]; intros acc; cbn [parse_digits digits_value]; [by intros [= <-]|].
  destruct (digit_val c); [|done]. destruct (_ <=? max); [|done]. apply IH.
Qed.

Lemma u64_to_string_value n : is_u64 n -> digits_value 0 (u64_to_string n) = n.
Proof.
  intros [H0 H1]. apply (parse_digits_value (2 ^ 64 - 1)). unfold u64_to_string. rewrite parse_print_digits; [done|split; [lia|cbn; lia]|lia|lia].
Qed.

(** The milliseconds of the years 2001 to 2286 have thirteen digits. *)
Definition millis_13 (ms : Z) : Prop := 10 ^ 12 <= ms < 10 ^ 13.

Lemma compare_app p a b : String.compare (p +:+ a) (p +:+ b) = String.compare a b.
Proof.
  induction p as [|c p IH]; [done|]. rewrite !append_cons. cbn [String.compare]. unfold Ascii.compare. by rewrite N.compare_refl.
Qed.

Lemma file_key_order prefix t1 t2 :
  time_i64 t1 -> time_i64 t2 -> millis_13 (t1 / nanos_per_milli) -> millis_13 (t2 / nanos_per_milli) ->
  String.ltb (file_key prefix t1) (file_key prefix t2) = (t1 / nanos_per_milli <? t2 / nanos_per_milli).
Proof.
  intros H1 H2 M1 M2. destruct (time_ms t1 H1) as [U1 _]. destruct (time_ms t2 H2) as [U2 _]. unfold String.ltb.
  rewrite !file_key_u64, !compare_app by done.
  rewrite (compare_digits _ _ ".gz" 0); [|by apply u64_to_string_chars|by apply u64_to_string_chars|].
  - rewrite !u64_to_string_value by done. done.
  - unfold u64_to_string, millis_13 in *. by rewrite !(print_digits_length 20 12) by (cbn; lia).
Qed.

(** ** What a listing returns *)

Section ListingSpec.
Context `{!Chrono} {B : Type} `{!ObjectStore B}.
Implicit Types (b : B) (prefix : string).

(** Every object with the prefix is named after it and a time of thirteen digits. *)
Definition well_named b prefix : Prop :=
  forall o, o ∈ objects b -> String.prefix prefix o.1 = true ->
    exists t, o.1 = file_key prefix t /\ time_i64 t /\ millis_13 (t / nanos_per_milli).

(** The file of an object. *)
Definition object_file prefix (o : string * Z) : FileInfo :=
  match file_info_from_str o.1 with Ok info => mkFileInfo o.1 (fi_prefix info) (fi_timestamp info) o.2 | Err _ => mkFileInfo o.1 prefix 0 o.2 end.

Definition in_window (after before : Z) (f : FileInfo) : bool := (after <? fi_timestamp f) && (fi_timestamp f <=? before).

Lemma object_file_key prefix t size : prefix_ok prefix -> time_i64 t ->
  object_file prefix (file_key prefix t, size) = mkFileInfo (file_key prefix t) prefix (whole_millis t) size.
Proof. intros Hp Ht. unfold object_file. cbn [fst]. by rewrite file_key_roundtrip. Qed.

Lemma page_files_named prefix after before (os : list (string * Z)) : prefix_ok prefix ->
  Forall (fun o => exists t, o.1 = file_key prefix t /\ time_i64 t) os ->
  page_files (Some after) (Some before) ((fun o => mkObject (Some o.1) o.2) <$> os) =
  Some (List.filter (in_window after before) (object_file prefix <$> os)).
Proof.
  intros Hp Hos. induction Hos as [|[key size] os (t & Ek & Ht) Hos IH]; [done|]. cbn [fst] in Ek. subst key.
  rewrite !fmap_cons. cbn [page_files ob_key fst snd]. unfold file_info_matches. cbn [default].
  rewrite (file_key_u64 prefix t Ht) at 1. destruct (time_ms t Ht) as [Hu _]. change (id ?x) with x.
  rewrite captures_file_key by done. unfold file_info_of_object. cbn [ob_key ok_or result_bind].
  rewrite file_key_roundtrip by done. cbn [result_bind fi_key fi_prefix fi_timestamp ob_size]. rewrite IH.
  cbn [mbind option_bind List.filter]. rewrite object_file_key by done. unfold in_window. cbn [fi_timestamp]. by destruct (_ && _).
Qed.

Lemma page_files_app after before os1 os2 : page_files after before (os1 ++ os2) =
  f1 ← page_files after before os1; f2 ← page_files after before os2; Some (f1 ++ f2).
Proof.
  induction os1 as [|o os1 IH]; cbn [app page_files]; [by destruct (page_files after before os2)|].
  destruct (file_info_matches _); [|done]. destruct (file_info_of_object o) as [info|]; [|done]. rewrite IH.
  destruct (page_files after before os1) as [f1|]; [|done]. cbn. destruct (page_files after before os2) as [f2|]; [|done]. cbn.
  by destruct (_ && _).
Qed.

Lemma collect_pages_concat after before pages files :
  Forall (fun r => exists os, r = Ok os) pages ->
  page_files after before (concat (omap (fun r => match r with Ok os => Some os | Err _ => None end) pages)) = Some files ->
  collect_pages after before pages = Some (Ok files).
Proof.
  intros Hp. revert files. induction Hp as [|r pages [os ->] Hp IH]; intros files; cbn [omap list_omap concat collect_pages]; [by intros [= <-]|].
  rewrite page_files_app. destruct (page_files after before os) as [f1|]; [|done]. cbn [mbind option_bind].
  destruct (page_files after before (concat _)) as [f2|] eqn:E; [|done]. cbn [mbind option_bind]. intros [= <-].
  rewrite (IH f2) by done. done.
Qed.

Lemma filter_filter_weaker {A} (f g h : A -> bool) (l : list A) : (forall a, a ∈ l -> f a = true -> g a = h a && g a) ->
  List.filter g (List.filter (fun a => f a && h a) l) = List.filter g (List.filter f l).
Proof.
  induction l as [|a l IH]; intros Hw; [done|]. cbn [List.filter].
  assert (List.filter g (List.filter (fun a => f a && h a) l) = List.filter g (List.filter f l)) as IH'
    by (apply IH; intros x Hx; apply Hw; by right).
  specialize (Hw a ltac:(left)). destruct (f a); cbn [andb List.filter]; [|exact IH'].
  destruct (h a); cbn [List.filter]; [by rewrite IH'|]. rewrite (Hw eq_refl). exact IH'.
Qed.

Lemma filter_fmap {A C} (f : A -> C) (p : C -> bool) (l : list A) : List.filter p (f <$> l) = f <$> List.filter (fun a => p (f a)) l.
Proof. induction l as [|a l IH]; [done|]. rewrite fmap_cons. cbn [List.filter]. destruct (p (f a)); [|done]. by rewrite fmap_cons, IH. Qed.

(** The files of a bucket with a prefix, in the order of their names. *)
Definition visible b prefix : list FileInfo :=
  object_file prefix <$> List.filter (fun o => String.prefix prefix o.1) (objects b).

Lemma list_all_window b prefix after before :
  prefix_ok prefix -> well_named b prefix -> time_i64 after -> millis_13 (after / nanos_per_milli) ->
  Forall (fun r => exists os, r = Ok os) (list_pages b prefix (Some (file_key prefix after))) ->
  list_all b prefix (Some after) (Some before) =
  Some (Ok (List.filter (in_window after before) (visible b prefix))).
Proof.
  intros Hp Hw Ha H13 Hpages. unfold list_all. cbn [fmap option_fmap option_map]. apply collect_pages_concat; [done|].
  rewrite list_pages_spec by done. rewrite (page_files_named prefix); [|done|].
  - f_equal. unfold visible. rewrite !filter_fmap. f_equal. apply filter_filter_weaker. intros o Ho Hpre.
    destruct (Hw o Ho Hpre) as (t & Ek & Ht & Hm). destruct o as [key size]. cbn [fst] in *. subst key.
    rewrite object_file_key by done. unfold in_window. cbn [fi_timestamp]. rewrite file_key_order by done.
    destruct (after <? whole_millis t) eqn:E; [|by rewrite andb_false_r]. cbn [andb]. apply Z.ltb_lt in E.
    rewrite (proj2 (Z.ltb_lt _ _)); [done|]. unfold whole_millis, nanos_per_milli in *.
    pose proof (Z.div_mod after 1000000 ltac:(lia)). pose proof (Z.mod_pos_bound after 1000000 ltac:(lia)). lia.
  - apply Forall_forall. intros o Ho. apply elem_of_filter_bool in Ho as [Ho Hc]. apply andb_true_iff in Hc as [Hpre _].
    destruct (Hw o Ho Hpre) as (t & Ek & Ht & _). by exists t.
Qed.

(** A listing between two times is exact.  Although the store is asked for the
    keys that come after a text, and the prefix is compared as a text, the files
    returned are those of the bucket with the prefix whose time is after the one
    and not after the other, in the order of the store, as long as no page fails
    and the names have times of thirteen digits. *)
Theorem list_all_exact b prefix after before :
  prefix_ok prefix -> well_named b prefix -> time_i64 after -> millis_13 (after / nanos_per_milli) ->
  Forall (fun r => exists os, r = Ok os) (list_pages b prefix (Some (file_key prefix after))) ->
  list_all b prefix (Some after) (Some before) =
  Some (Ok (List.filter (in_window after before) (visible b prefix))).
Proof. apply list_all_window. Qed.
End ListingSpec.

(** ** A store in memory *)

Fixpoint keys_sorted (l : list (string * Z)) : bool :=
  match l with
  | [] => true
  | o :: rest => forallb (fun o' => String.ltb o.1 o'.1) rest && keys_sorted rest
  end.

Definition sorted_bucket : Type := { l : list (string * Z) | keys_sorted l = true }.

Lemma keys_sorted_spec l : keys_sorted l = true -> StronglySorted (fun x y => String.ltb x.1 y.1 = true) l.
Proof.
  induction l as [|o l IH]; intros H; [constructor|]. apply andb_true_iff in H as [Hf Hl]. constructor; [by apply IH|].
  apply Forall_forall. intros x Hx. rewrite forallb_forall in Hf. by apply Hf, list_elem_of_In.
Qed.

#[global] Program Instance memory_store : ObjectStore sorted_bucket := {
  objects b := proj1_sig b;
  list_pages b prefix start_after :=
    [Ok ((fun o => mkObject (Some o.1) o.2) <$> List.filter (listed prefix start_after) (proj1_sig b))]
}.
Next Obligation. intros [l H]. by apply keys_sorted_spec. Qed.
Next Obligation. intros b prefix start_after _. apply app_nil_r. Qed.

Definition two_poc_files : sorted_bucket :=
  exist _ [("entropy_report.1658832500000.gz", 10); ("iot_poc.1658832527866.gz", 20); ("iot_poc.1658834120042.gz", 30)] eq_refl.

Lemma list_all_exact_witness :
  list_all two_poc_files "iot_poc" (Some 1658832527866000000) (Some 1658834120042000000) =
  Some (Ok [mkFileInfo "iot_poc.1658834120042.gz" "iot_poc" 1658834120042000000 30]).
Proof.
  rewrite (list_all_exact two_poc_files "iot_poc" 1658832527866000000 1658834120042000000).
  - vm_compute. reflexivity.
  - split; [discriminate|]. repeat constructor.
  - intros o Ho Hp. cbn in Ho. repeat (apply elem_of_cons in Ho as [->|Ho]); [discriminate| | |by apply not_elem_of_nil in Ho].
    + exists 1658832527866000000. split; [vm_compute; reflexivity|]. unfold time_i64, millis_13. vm_compute. intuition congruence.
    + exists 1658834120042000000. split; [vm_compute; reflexivity|]. unfold time_i64, millis_13. vm_compute. intuition congruence.
  - unfold time_i64. lia.
  - unfold millis_13. vm_compute. intuition congruence.
  - repeat constructor. by eexists.
Defined.

(** The prefix of a listing is that of the name, not the type: a listing of
    [entropy] files has the [entropy_report] files of the bucket too. *)
Example list_all_longer_type :
  list_all two_poc_files (file_type_str Entropy) (Some 1000000000000000000) (Some 2000000000000000000) =
  Some (Ok [mkFileInfo "entropy_report.1658832500000.gz" "entropy_report" 1658832500000000000 10]).
Proof. vm_compute. reflexivity. Qed.

(** A name whose digits are not a time makes the listing panic. *)
Example list_all_panics :
  let b : sorted_bucket := exist _ [("iot_poc.99999999999999999999.gz", 1)] eq_refl in
  list_all b "iot_poc" None None = None.
Proof. vm_compute. reflexivity. Qed.
