(* ===== verification/FileSink.v ===== *)
(** * File sinks and uploads

    [file_store/src/file_sink.rs] and [file_store/src/file_upload.rs]: messages are
    appended to a file in a temporary directory, the file is closed when it grows
    large or old, and committing moves the closed files to the target directory
    and hands them to the uploader, which stores them in the bucket and removes
    them.  The two directories are maps from names to files, a file is the list of
    the frames written to it; every operation on the file system takes its
    outcome from a list of faults.  Gzip and the frame codec are in
    [FilePipeline]. *)

From S2P Require Import Prelude Solana Text FileStoreTypes FileNames.

Open Scope Z_scope.
Open Scope oracle_scope.

(** ** State *)

Definition DEFAULT_SINK_ROLL_MINS : Z := 3.
Definition SINK_CHECK_MILLIS : Z := 60000.
Definition MAX_FRAME_LENGTH : Z := 15000000.

Record file : Type := mkFile { f_frames : list string; f_closed : bool }.

(** [FileSinkBuilder]; [b_uploads]: an uploader was given. *)
Record FileSinkBuilder : Type := mkBuilder {
  b_prefix : string;
  b_max_size : Z;
  b_roll_time : Z;
  b_uploads : bool;
  b_auto_commit : bool
}.

Definition builder_new (prefix : string) : FileSinkBuilder :=
  mkBuilder prefix 50000000 (DEFAULT_SINK_ROLL_MINS * 60 * nanos_per_sec) false true.

Record ActiveSink : Type := mkActive { a_name : string; a_size : Z; a_time : Z }.

Record FileSink : Type := mkSink {
  k_tmp : gmap string file;
  k_target : gmap string file;
  k_staged : list string;
  k_active : option ActiveSink;
  k_uploads : list string;    (** paths sent to the uploader *)
  k_faults : list bool        (** the outcomes of the next operations: whether each fails *)
}.

Definition set_tmp (s : FileSink) t := mkSink t (k_target s) (k_staged s) (k_active s) (k_uploads s) (k_faults s).
Definition set_staged (s : FileSink) l := mkSink (k_tmp s) (k_target s) l (k_active s) (k_uploads s) (k_faults s).
Definition set_active (s : FileSink) a := mkSink (k_tmp s) (k_target s) (k_staged s) a (k_uploads s) (k_faults s).
Definition set_uploads (s : FileSink) l := mkSink (k_tmp s) (k_target s) (k_staged s) (k_active s) l (k_faults s).

(** Errors; [WriteAfterClose] is the panic of a compressor that is written to
    after its shutdown. *)
Inductive SinkError : Type := SinkIo | SinkChannel | FrameTooLarge | SinkNotAvailable | WriteAfterClose.

(** Whether the next operation fails. *)
Definition io (s : FileSink) : FileSink * bool :=
  match k_faults s with
  | [] => (s, false)
  | b :: rest => (mkSink (k_tmp s) (k_target s) (k_staged s) (k_active s) (k_uploads s) rest, b)
  end.

Section Sink.
Variable cfg : FileSinkBuilder.
Implicit Types s : FileSink.

Definition close_file (f : file) : file := mkFile (f_frames f) true.

(** [ActiveSink::shutdown] *)
Definition shutdown_active s (a : ActiveSink) : FileSink * result unit SinkError :=
  let '(s, fail) := io s in
  if fail then (s, Err SinkIo) else (set_tmp s (alter close_file (a_name a) (k_tmp s)), Ok tt).

Definition maybe_close_active_sink s : FileSink * result unit SinkError :=
  match k_active s with
  | Some a =>
      let '(s, r) := shutdown_active s a in
      match r with Err e => (s, Err e) | Ok _ => (set_active s None, Ok tt) end
  | None => (s, Ok tt)
  end.

(** [new_sink]: the file is opened for writing and created, not truncated; what
    was in a file of the same name is overwritten. *)
Definition new_sink s (now : Z) : FileSink * result unit SinkError :=
  let filename := file_key (b_prefix cfg) now in
  let '(s, fail) := io s in
  if fail then (s, Err SinkIo)
  else (mkSink (<[filename := mkFile [] false]> (k_tmp s)) (k_target s) (k_staged s ++ [filename])
          (Some (mkActive filename 0 now)) (k_uploads s) (k_faults s), Ok tt).

(** [deposit_sink] *)
Definition deposit_sink s (name : string) : FileSink * result unit SinkError :=
  match k_tmp s !! name with
  | None => (s, Ok tt)
  | Some f =>
      let '(s, fail) := io s in
      if fail then (s, Err SinkIo) else
      let s := mkSink (delete name (k_tmp s)) (<[name := f]> (k_target s)) (k_staged s) (k_active s) (k_uploads s) (k_faults s) in
      if b_uploads cfg then
        let '(s, fail) := io s in
        if fail then (s, Err SinkChannel) else (set_uploads s (k_uploads s ++ [name]), Ok tt)
      else (s, Ok tt)
  end.

Fixpoint deposit_all s (staged_files manifest : list string) : FileSink * result (list string) SinkError :=
  match staged_files with
  | [] => (s, Ok manifest)
  | f :: rest =>
      let '(s, r) := deposit_sink s f in
      match r with Err e => (s, Err e) | Ok _ => deposit_all s rest (manifest ++ [f]) end
  end.

Definition commit s : FileSink * result (list string) SinkError :=
  let '(s, r) := maybe_close_active_sink s in
  match r with
  | Err e => (s, Err e)
  | Ok _ => deposit_all (set_staged s []) (k_staged s) []
  end.

(** [fs::remove_file] of a staged file *)
Fixpoint remove_all s (staged_files manifest : list string) : FileSink * result (list string) SinkError :=
  match staged_files with
  | [] => (s, Ok manifest)
  | f :: rest =>
      let '(s, fail) := io s in
      if fail then (s, Err SinkIo) else
      match k_tmp s !! f with
      | None => (s, Err SinkIo)
      | Some _ => remove_all (set_tmp s (delete f (k_tmp s))) rest (manifest ++ [f])
      end
  end.

Definition rollback s : FileSink * result (list string) SinkError :=
  let '(s, r) := maybe_close_active_sink s in
  match r with
  | Err e => (s, Err e)
  | Ok _ => remove_all (set_staged s []) (k_staged s) []
  end.

Definition maybe_roll s (now : Z) : FileSink * result unit SinkError :=
  match k_active s with
  | Some a =>
      if a_time a + b_roll_time cfg <=? now then
        if b_auto_commit cfg then let '(s, r) := commit s in (s, let? _ := r in Ok tt)
        else maybe_close_active_sink s
      else (s, Ok tt)
  | None => (s, Ok tt)
  end.

(** The part of [write] that makes room: a sink that would get too large is closed
    and replaced; without a sink there is a new one. *)
Definition make_room s (now buf_len : Z) : FileSink * result unit SinkError :=
  match k_active s with
  | Some a =>
      if b_max_size cfg <=? a_size a + buf_len then
        let '(s, r) := shutdown_active s a in
        match r with
        | Err e => (s, Err e)
        | Ok _ =>
            if b_auto_commit cfg then
              let '(s, r) := commit s in
              match r with Err e => (s, Err e) | Ok _ => new_sink s now end
            else new_sink s now
        end
      else (s, Ok tt)
  | None => new_sink s now
  end.

(** [transport.send] *)
Definition send_frame s (a : ActiveSink) (buf : string) : FileSink * result unit SinkError :=
  let len := Z.of_nat (String.length buf) in
  let '(s, fail) := io s in
  if fail then (s, Err SinkIo)
  else if MAX_FRAME_LENGTH <? len then (s, Err FrameTooLarge)
  else match k_tmp s !! a_name a with
       | Some f =>
           if f_closed f then (s, Err WriteAfterClose)
           else (set_active (set_tmp s (<[a_name a := mkFile (f_frames f ++ [buf]) false]> (k_tmp s)))
                   (Some (mkActive (a_name a) (a_size a + len) (a_time a))), Ok tt)
       | None => (s, Err SinkIo)
       end.

Definition write s (now : Z) (buf : string) : FileSink * result unit SinkError :=
  let '(s, r) := make_room s now (Z.of_nat (String.length buf)) in
  match r with
  | Err e => (s, Err e)
  | Ok _ => match k_active s with
            | Some a => send_frame s a buf
            | None => (s, Err SinkNotAvailable)
            end
  end.

(** ** [init] and [run] *)

(** [entry.file_name().starts_with(&self.prefix)] *)
Definition own_files (d : gmap string file) : list string := List.filter (String.prefix (b_prefix cfg)) (map_to_list d).*1.

Fixpoint notify_all s (names : list string) : FileSink * result unit SinkError :=
  match names with
  | [] => (s, Ok tt)
  | n :: rest =>
      let '(s, fail) := io s in
      if fail then (s, Err SinkChannel) else notify_all (set_uploads s (k_uploads s ++ [n])) rest
  end.

(** What a previous run left in the temporary directory is deposited, or removed
    when it takes a commit; errors are ignored. *)
Fixpoint recover s (names : list string) : FileSink :=
  match names with
  | [] => s
  | n :: rest =>
      if b_auto_commit cfg then recover (deposit_sink s n).1 rest
      else let '(s, fail) := io s in
           recover (if fail then s else set_tmp s (delete n (k_tmp s))) rest
  end.

(** [create] and [init]: a sink over the directories as they are. *)
Definition init (tmp target : gmap string file) (faults : list bool) : FileSink * result unit SinkError :=
  let s := mkSink tmp target [] None [] faults in
  let '(s, r) := if b_uploads cfg then notify_all s (own_files target) else (s, Ok tt) in
  match r with
  | Err e => (s, Err e)
  | Ok _ => (recover s (own_files (k_tmp s)), Ok tt)
  end.

Inductive Message : Type := Data (bytes : string) | Commit | Rollback | Tick.

Inductive Reply : Type := OnWrite (r : result unit SinkError) | OnManifest (r : result (list string) SinkError) | OnTick (r : result unit SinkError).

(** One turn of the loop of [run]. *)
Definition handle s (now : Z) (msg : Message) : FileSink * Reply :=
  match msg with
  | Data bytes => let '(s, r) := write s now bytes in (s, OnWrite r)
  | Commit => let '(s, r) := commit s in (s, OnManifest r)
  | Rollback => let '(s, r) := rollback s in (s, OnManifest r)
  | Tick => let '(s, r) := maybe_roll s now in (s, OnTick r)
  end.

(** The end of [run]; an error of the shutdown is ignored. *)
Definition stop s : FileSink :=
  match k_active s with
  | Some a => set_active (shutdown_active s a).1 None
  | None => s
  end.
End Sink.

(** ** [FileUploadServer] *)

Definition MAX_RETRIES : Z := 5.

(** [while retry <= MAX_RETRIES]: whether a [put] succeeded, [puts retry] being the
    outcome of the attempt; [None] when the loop has not ended. *)
Fixpoint put_loop (fuel : nat) (retry : Z) (puts : Z -> bool) : option bool :=
  match fuel with
  | O => None
  | S fuel =>
      if retry <=? MAX_RETRIES
      then if puts retry then Some true else put_loop fuel (retry + 1) puts
      else Some false
  end.

(** A file of the channel is stored and removed; [puts] are the outcomes of
    [put], [removed] is that of [remove_file]. *)
Definition upload (puts : Z -> bool) (removed : bool) (name : string) (target bucket : gmap string file)
  : gmap string file * gmap string file :=
  match target !! name with
  | None => (target, bucket)
  | Some f =>
      if default false (put_loop 7 0 puts)
      then (if removed then delete name target else target, <[name := f]> bucket)
      else (target, bucket)
  end.

(** C39: the uploader gives a file up: whatever the outcomes, the loop ends after at
    most six attempts, with success exactly when one of the first six succeeds. *)
Theorem put_loop_ends puts : exists r, (forall fuel, (7 <= fuel)%nat -> put_loop fuel 0 puts = Some r) /\
  (r = true <-> exists k, 0 <= k <= MAX_RETRIES /\ puts k = true).
Proof.
  assert (forall n retry, 0 <= retry -> retry + Z.of_nat n = 6 -> exists r, (forall fuel, (S n <= fuel)%nat -> put_loop fuel retry puts = Some r) /\
    (r = true <-> exists k, retry <= k <= MAX_RETRIES /\ puts k = true)) as Hgen.
  { unfold MAX_RETRIES. induction n as [|n IH]; intros retry H0 Hsum.
    - exists false. split; [|split; [done|intros (k & Hk & _); lia]]. intros [|fuel] Hf; [lia|]. cbn. unfold MAX_RETRIES.
      by rewrite (proj2 (Z.leb_gt _ _)) by lia.
    - destruct (puts retry) eqn:Ep.
      + exists true. split; [|split; [intros _; exists retry; split; [lia|done]|done]]. intros [|fuel] Hf; [lia|]. cbn. unfold MAX_RETRIES.
        rewrite (proj2 (Z.leb_le _ _)) by lia. by rewrite Ep.
      + destruct (IH (retry + 1)) as (r & Hr & Hiff); [lia|lia|]. exists r. split.
        * intros [|fuel] Hf; [lia|]. cbn. unfold MAX_RETRIES. rewrite (proj2 (Z.leb_le _ _)), Ep by lia. apply Hr. lia.
        * rewrite Hiff. split; intros (k & Hk & Hp); exists k; (split; [|done]); [lia|].
          destruct (Z.eq_dec k retry) as [->|?]; [congruence|lia]. }
  exact (Hgen 6%nat 0 ltac:(lia) eq_refl).
Qed.

(** ** What is stored

    The frames of the files of the bucket and of the two directories. *)

Definition stored (bucket : gmap string file) (s : FileSink) : gmap string (list string) :=
  f_frames <$> (bucket ∪ (k_target s ∪ k_tmp s)).

(** A name is in one of the directories; what is already in the bucket and not yet
    removed is the same file; the active file is there; every file is closed,
    except one that is open. *)
Record sink_inv (bucket : gmap string file) (open : option string) (s : FileSink) : Prop := mkSinkInv {
  iv_tmp_target n : is_Some (k_tmp s !! n) -> k_target s !! n = None;
  iv_tmp_bucket n : is_Some (k_tmp s !! n) -> bucket !! n = None;
  iv_same n f g : k_target s !! n = Some f -> bucket !! n = Some g -> f = g;
  iv_active a : k_active s = Some a -> is_Some (k_tmp s !! a_name a);
  iv_target n f : k_target s !! n = Some f -> f_closed f = true;
  iv_bucket n f : bucket !! n = Some f -> f_closed f = true;
  iv_tmp n f : k_tmp s !! n = Some f -> open <> Some n -> f_closed f = true
}.

Definition open_name (s : FileSink) : option string := a_name <$> k_active s.

(** Two sinks with the same directories and the same active file. *)
Definition same_files (s s' : FileSink) : Prop :=
  k_tmp s' = k_tmp s /\ k_target s' = k_target s /\ k_active s' = k_active s.

Section Conserve.
Variable cfg : FileSinkBuilder.
Implicit Types (s : FileSink) (bucket : gmap string file).

Lemma io_same s s' b : io s = (s', b) -> same_files s s' /\ k_staged s' = k_staged s /\ k_uploads s' = k_uploads s.
Proof. unfold io. destruct (k_faults s); by intros [= <- <-]. Qed.

Lemma same_files_inv bucket o s s' : same_files s s' -> sink_inv bucket o s -> sink_inv bucket o s'.
Proof. intros (E1 & E2 & E3) [H1 H2 H3 H4 H5 H6 H7]. by split; rewrite ?E1, ?E2, ?E3. Qed.

Lemma same_files_stored bucket s s' : same_files s s' -> stored bucket s' = stored bucket s.
Proof. intros (E1 & E2 & _). unfold stored. by rewrite E1, E2. Qed.

Lemma stored_lookup bucket s n : stored bucket s !! n =
  f_frames <$> match bucket !! n with Some f => Some f | None => match k_target s !! n with Some f => Some f | None => k_tmp s !! n end end.
Proof.
  unfold stored. rewrite lookup_fmap, !lookup_union. f_equal.
  destruct (bucket !! n), (k_target s !! n), (k_tmp s !! n); done.
Qed.

(** Closing the file leaves everything stored; nothing is open afterwards. *)
Lemma shutdown_ok bucket s a s' r : sink_inv bucket (open_name s) s -> k_active s = Some a -> shutdown_active s a = (s', r) ->
  stored bucket s' = stored bucket s /\ k_active s' = k_active s /\ k_staged s' = k_staged s /\ k_uploads s' = k_uploads s /\
  (forall n, is_Some (k_tmp s' !! n) <-> is_Some (k_tmp s !! n)) /\ k_target s' = k_target s /\
  sink_inv bucket (open_name s') s' /\ (r = Ok tt -> sink_inv bucket None s').
Proof.
  intros Hi Ha E. unfold shutdown_active in E. destruct (io s) as [s1 fail] eqn:Eio. destruct (io_same _ _ _ Eio) as (Hs & Est & Eup).
  pose proof (same_files_inv _ _ _ _ Hs Hi) as Hi1. pose proof (same_files_stored bucket _ _ Hs) as Hst1. destruct Hs as (E1 & E2 & E3).
  assert (open_name s = Some (a_name a)) as Eo by (unfold open_name; by rewrite Ha).
  destruct fail; injection E as <- <-.
  { do 4 (split; [done|]). split; [by rewrite E1|]. split; [done|]. split; [|done]. unfold open_name. by rewrite E3. }
  assert (forall n, k_tmp (set_tmp s1 (alter close_file (a_name a) (k_tmp s1))) !! n =
    if decide (n = a_name a) then close_file <$> k_tmp s1 !! n else k_tmp s1 !! n) as Ht.
  { intros n. cbn. case_decide as Hn; [by rewrite Hn, lookup_alter_eq|by rewrite lookup_alter_ne]. }
  assert (forall n, is_Some (k_tmp (set_tmp s1 (alter close_file (a_name a) (k_tmp s1))) !! n) <-> is_Some (k_tmp s1 !! n)) as Hd.
  { intros n. rewrite Ht. case_decide; [by rewrite fmap_is_Some|done]. }
  assert (forall o, o = None \/ o = Some (a_name a) -> sink_inv bucket o (set_tmp s1 (alter close_file (a_name a) (k_tmp s1)))) as Hinv.
  { intros o Ho. split.
    - intros n Hn%Hd. by apply (iv_tmp_target _ _ _ Hi1).
    - intros n Hn%Hd. by apply (iv_tmp_bucket _ _ _ Hi1).
    - apply (iv_same _ _ _ Hi1).
    - intros a' Ha'. apply Hd. by apply (iv_active _ _ _ Hi1).
    - apply (iv_target _ _ _ Hi1).
    - apply (iv_bucket _ _ _ Hi1).
    - intros n f. rewrite Ht. case_decide as Hn; [by intros (g & _ & ->)%fmap_Some|]. intros Hf _.
      apply (iv_tmp _ _ _ Hi1 n f Hf). rewrite Eo. congruence. }
  split.
  { rewrite <- Hst1. apply map_eq. intros n. rewrite !stored_lookup, Ht. cbn [k_target set_tmp]. case_decide; [|done].
    destruct (bucket !! n), (k_target s1 !! n), (k_tmp s1 !! n); done. }
  split; [done|]. split; [done|]. split; [done|]. split; [by intros n; rewrite Hd, E1|]. split; [done|].
  split; [|intros _; apply Hinv; by left]. apply Hinv. right. unfold open_name. cbn. by rewrite E3, Ha.
Qed.

Lemma maybe_close_ok bucket s s' r : sink_inv bucket (open_name s) s -> maybe_close_active_sink s = (s', r) ->
  stored bucket s' = stored bucket s /\ k_staged s' = k_staged s /\ k_uploads s' = k_uploads s /\
  (forall n, is_Some (k_tmp s' !! n) <-> is_Some (k_tmp s !! n)) /\ k_target s' = k_target s /\
  sink_inv bucket (open_name s') s' /\ (r = Ok tt -> k_active s' = None).
Proof.
  intros Hi E. unfold maybe_close_active_sink in E. destruct (k_active s) as [a|] eqn:Ea; [|by injection E as <- <-].
  destruct (shutdown_active s a) as [s1 r1] eqn:E1. destruct (shutdown_ok _ _ _ _ _ Hi Ea E1) as (H1 & H2 & H3 & H4 & H5 & H6 & H7 & H8).
  destruct r1 as [[]|e]; injection E as <- <-; [|done]. do 5 (split; [done|]). split; [|done].
  destruct (H8 eq_refl) as [I1 I2 I3 I4 I5 I6 I7]. by split.
Qed.

(** Moving a file leaves everything stored. *)
Lemma deposit_sink_ok bucket s n s' r : sink_inv bucket None s -> k_active s = None -> deposit_sink cfg s n = (s', r) ->
  stored bucket s' = stored bucket s /\ sink_inv bucket None s' /\ k_active s' = None.
Proof.
  intros Hi Ha E. unfold deposit_sink in E. destruct (k_tmp s !! n) as [f|] eqn:Ef; [|by injection E as <- <-].
  destruct (io s) as [s1 fail] eqn:Eio. destruct (io_same _ _ _ Eio) as (Hs & _ & _).
  pose proof (same_files_inv _ _ _ _ Hs Hi) as Hi1. rewrite <- (same_files_stored bucket _ _ Hs). destruct Hs as (E1 & E2 & E3).
  destruct fail; [injection E as <- <-; split; [done|]; split; [done|congruence]|]. set (s2 := mkSink _ _ _ _ _ _) in E.
  rewrite <- E1 in Ef.
  assert (stored bucket s2 = stored bucket s1 /\ sink_inv bucket None s2 /\ k_active s2 = None) as (H1 & H2 & H3).
  { assert (k_target s1 !! n = None) as Hnt by (by apply (iv_tmp_target _ _ _ Hi1); eexists).
    assert (bucket !! n = None) as Hnb by (by apply (iv_tmp_bucket _ _ _ Hi1); eexists).
    split; [|split; [|cbn; congruence]].
    - apply map_eq. intros m. rewrite !stored_lookup. cbn [k_tmp k_target s2]. destruct (decide (m = n)) as [->|Hne].
      + by rewrite Hnb, lookup_insert_eq, Hnt, Ef.
      + by rewrite lookup_insert_ne, lookup_delete_ne.
    - split; cbn [k_tmp k_target k_active s2].
      + intros m [g Hg]. destruct (decide (m = n)) as [->|Hne]; [by rewrite lookup_delete_eq in Hg|].
        rewrite lookup_delete_ne in Hg by done. rewrite lookup_insert_ne by done. by apply (iv_tmp_target _ _ _ Hi1); eexists.
      + intros m [g Hg]. apply lookup_delete_Some in Hg as [_ Hg]. by apply (iv_tmp_bucket _ _ _ Hi1); eexists.
      + intros m g h. destruct (decide (m = n)) as [->|Hne]; [by rewrite Hnb|]. rewrite lookup_insert_ne by done. apply (iv_same _ _ _ Hi1).
      + rewrite E3, Ha. done.
      + intros m g. destruct (decide (m = n)) as [->|Hne].
        * rewrite lookup_insert_eq. intros [= <-]. by apply (iv_tmp _ _ _ Hi1 n f).
        * rewrite lookup_insert_ne by done. apply (iv_target _ _ _ Hi1).
      + apply (iv_bucket _ _ _ Hi1).
      + intros m g [_ Hg]%lookup_delete_Some _. by apply (iv_tmp _ _ _ Hi1 m g). }
  destruct (b_uploads cfg); [|by injection E as <- <-]. destruct (io s2) as [s3 fail] eqn:Eio2.
  destruct (io_same _ _ _ Eio2) as (Hs2 & _ & _). pose proof (same_files_inv _ _ _ _ Hs2 H2) as Hi2.
  pose proof (same_files_stored bucket _ _ Hs2) as Hst2. destruct Hs2 as (_ & _ & Ea2).
  destruct fail; injection E as <- <-.
  - split; [congruence|]. split; [done|congruence].
  - split; [by rewrite <- H1, <- Hst2|]. split; [|cbn; congruence]. destruct Hi2. by split.
Qed.

Lemma deposit_all_ok bucket l m s s' r : sink_inv bucket None s -> k_active s = None -> deposit_all cfg s l m = (s', r) ->
  stored bucket s' = stored bucket s /\ sink_inv bucket None s' /\ k_active s' = None.
Proof.
  revert m s. induction l as [|n l IH]; intros m s Hi Ha E; cbn [deposit_all] in E; [by injection E as <- <-|].
  destruct (deposit_sink cfg s n) as [s1 r1] eqn:E1. destruct (deposit_sink_ok _ _ _ _ _ Hi Ha E1) as (H1 & H2 & H3).
  destruct r1 as [[]|e]; [|by injection E as <- <-]. destruct (IH _ _ H2 H3 E) as (G1 & G2 & G3). by rewrite G1.
Qed.

Lemma commit_ok bucket s s' r : sink_inv bucket (open_name s) s -> commit cfg s = (s', r) ->
  stored bucket s' = stored bucket s /\ sink_inv bucket (open_name s') s' /\ (forall l, r = Ok l -> k_active s' = None).
Proof.
  intros Hi E. unfold commit in E. destruct (maybe_close_active_sink s) as [s1 r1] eqn:E1.
  destruct (maybe_close_ok _ _ _ _ Hi E1) as (H1 & _ & _ & _ & _ & H6 & H7). destruct r1 as [[]|e]; [|by injection E as <- <-].
  specialize (H7 eq_refl). unfold open_name in H6. rewrite H7 in H6.
  destruct (deposit_all_ok bucket _ _ (set_staged s1 []) _ _ ltac:(by destruct H6; split) H7 E) as (G1 & G2 & G3).
  split; [by rewrite G1, <- H1|]. split; [|done]. unfold open_name. by rewrite G3.
Qed.

(** A new file: everything stored stays, when its name is new. *)
Lemma new_sink_ok bucket s now s' r : sink_inv bucket None s -> stored bucket s !! file_key (b_prefix cfg) now = None ->
  new_sink cfg s now = (s', r) ->
  match r with
  | Ok _ => stored bucket s' = <[file_key (b_prefix cfg) now := []]> (stored bucket s) /\ sink_inv bucket (open_name s') s' /\
      k_active s' = Some (mkActive (file_key (b_prefix cfg) now) 0 now) /\
      k_tmp s' !! file_key (b_prefix cfg) now = Some (mkFile [] false)
  | Err _ => stored bucket s' = stored bucket s /\ same_files s s'
  end.
Proof.
  intros Hi Hf E. unfold new_sink in E. set (n := file_key (b_prefix cfg) now) in *. destruct (io s) as [s1 fail] eqn:Eio.
  destruct (io_same _ _ _ Eio) as (Hs & _ & _). pose proof (same_files_inv _ _ _ _ Hs Hi) as Hi1.
  pose proof (same_files_stored bucket _ _ Hs) as Hst.
  destruct fail; injection E as <- <-; [by split|]. rewrite <- Hst in *. clear Hst. rewrite stored_lookup in Hf.
  assert (bucket !! n = None /\ k_target s1 !! n = None) as [Hb Ht].
  { destruct (bucket !! n), (k_target s1 !! n); by split. }
  assert (forall m, <[n := mkFile [] false]> (k_tmp s1) !! m = if decide (m = n) then Some (mkFile [] false) else k_tmp s1 !! m) as Hl.
  { intros m. case_decide as Hm; [by rewrite Hm, lookup_insert_eq|by rewrite lookup_insert_ne]. }
  split; [|split; [|split; [done|cbn; by rewrite lookup_insert_eq]]].
  - apply map_eq. intros m. rewrite stored_lookup. cbn [k_tmp k_target]. rewrite Hl. case_decide as Hm.
    + by rewrite Hm, lookup_insert_eq, Hb, Ht.
    + by rewrite lookup_insert_ne, stored_lookup.
  - split; cbn [k_tmp k_target k_active].
    + intros m. rewrite Hl. case_decide as Hm; [by rewrite Hm|]. apply (iv_tmp_target _ _ _ Hi1).
    + intros m. rewrite Hl. case_decide as Hm; [by rewrite Hm|]. apply (iv_tmp_bucket _ _ _ Hi1).
    + apply (iv_same _ _ _ Hi1).
    + intros a [= <-]. cbn [a_name]. rewrite lookup_insert_eq. by eexists.
    + apply (iv_target _ _ _ Hi1).
    + apply (iv_bucket _ _ _ Hi1).
    + intros m f. rewrite Hl. case_decide as Hm; [|intros Hg _; by apply (iv_tmp _ _ _ Hi1 m f)]. intros _ Hne. by subst m.
Qed.

(** Whether a write of [len] bytes opens a new file. *)
Definition opens s (len : Z) : bool :=
  match k_active s with Some a => b_max_size cfg <=? a_size a + len | None => true end.

(** The name of the file it would open is new. *)
Definition fresh_name bucket s (now : Z) : Prop := stored bucket s !! file_key (b_prefix cfg) now = None.

(** Everything stored stays; there may be a new file with nothing in it. *)
Definition stores_same (m m' : gmap string (list string)) : Prop :=
  m' = m \/ exists n, m !! n = None /\ m' = <[n := []]> m.

Lemma make_room_ok bucket s now len s' r : sink_inv bucket (open_name s) s -> (opens s len = true -> fresh_name bucket s now) ->
  make_room cfg s now len = (s', r) ->
  stores_same (stored bucket s) (stored bucket s') /\ sink_inv bucket (open_name s') s' /\
  (r = Ok tt -> exists a, k_active s' = Some a).
Proof.
  intros Hi Hf E. unfold make_room, opens in *.
  assert (forall s1 s', sink_inv bucket None s1 -> stored bucket s1 = stored bucket s -> fresh_name bucket s now ->
    new_sink cfg s1 now = (s', r) ->
    stores_same (stored bucket s) (stored bucket s') /\ sink_inv bucket (open_name s') s' /\ (r = Ok tt -> exists a, k_active s' = Some a)) as Hnew.
  { intros s1 s2 Hi1 Hst Hfr En. unfold fresh_name in Hfr. rewrite <- Hst in Hfr. pose proof (new_sink_ok _ _ _ _ _ Hi1 Hfr En) as Hok.
    destruct r as [[]|e].
    - destruct Hok as (H1 & H2 & H3 & _). rewrite Hst in H1, Hfr. split; [right; by eexists|]. split; [done|]. intros _. by eexists.
    - destruct Hok as [H1 H2]. split; [left; congruence|]. split; [|done]. pose proof (same_files_inv _ _ _ _ H2 Hi1) as [I1 I2 I3 I4 I5 I6 I7].
      split; try done. intros n f Hn _. by apply (I7 n f). }
  destruct (k_active s) as [a|] eqn:Ea.
  2:{ assert (open_name s = None) as Eo by (unfold open_name; by rewrite Ea). rewrite Eo in Hi. apply (Hnew s); [done|done|by apply Hf|done]. }
  destruct (_ <=? _); [|injection E as <- <-; split; [by left|]; split; [done|]; by eexists].
  destruct (shutdown_active s a) as [s1 r1] eqn:E1. destruct (shutdown_ok _ _ _ _ _ Hi Ea E1) as (H1 & H2 & _ & _ & _ & _ & H7 & H8).
  destruct r1 as [[]|e]; [|injection E as <- <-; split; [left; by rewrite H1|by split]].
  destruct (b_auto_commit cfg).
  - destruct (commit cfg s1) as [s2 r2] eqn:E2. destruct (commit_ok _ _ _ _ H7 E2) as (G1 & G2 & G3).
    destruct r2 as [l|e]; [|injection E as <- <-; split; [left; congruence|by split]].
    apply (Hnew s2); [|congruence|by apply Hf|done]. unfold open_name in G2. by rewrite (G3 l eq_refl) in G2.
  - apply (Hnew s1); [by apply H8|done|by apply Hf|done].
Qed.

Lemma send_frame_ok bucket s a buf s' r : sink_inv bucket (open_name s) s -> k_active s = Some a -> send_frame s a buf = (s', r) ->
  sink_inv bucket (open_name s') s' /\
  match r with
  | Ok _ => exists l, stored bucket s !! a_name a = Some l /\ stored bucket s' = <[a_name a := l ++ [buf]]> (stored bucket s)
  | Err _ => stored bucket s' = stored bucket s
  end.
Proof.
  intros Hi Ha E. unfold send_frame in E. destruct (io s) as [s1 fail] eqn:Eio. destruct (io_same _ _ _ Eio) as (Hs & _ & _).
  pose proof (same_files_inv _ _ _ _ Hs Hi) as Hi1. rewrite <- (same_files_stored bucket _ _ Hs).
  assert (open_name s1 = open_name s) as Eo by (unfold open_name; by rewrite (proj2 (proj2 Hs))).
  assert (k_active s1 = Some a) as Ha1 by (rewrite <- Ha; apply Hs). rewrite <- Eo in Hi1. clear Hs Eo Hi.
  destruct fail; [by injection E as <- <-|]. destruct (_ <? _); [by injection E as <- <-|].
  destruct (k_tmp s1 !! a_name a) as [f|] eqn:Ef; [|by injection E as <- <-]. destruct (f_closed f); [by injection E as <- <-|].
  injection E as <- <-. pose proof (iv_tmp_target _ _ _ Hi1 (a_name a) ltac:(by eexists)) as Ht.
  pose proof (iv_tmp_bucket _ _ _ Hi1 (a_name a) ltac:(by eexists)) as Hb. split.
  - assert (forall m, is_Some (<[a_name a := mkFile (f_frames f ++ [buf]) false]> (k_tmp s1) !! m) -> is_Some (k_tmp s1 !! m)) as Hl.
    { intros m. destruct (decide (m = a_name a)) as [->|Hm]; [by rewrite Ef|by rewrite lookup_insert_ne]. }
    split; cbn [k_tmp k_target k_active set_active set_tmp].
    + intros m Hm%Hl. by apply (iv_tmp_target _ _ _ Hi1).
    + intros m Hm%Hl. by apply (iv_tmp_bucket _ _ _ Hi1).
    + apply (iv_same _ _ _ Hi1).
    + intros a' [= <-]. cbn [a_name]. rewrite lookup_insert_eq. by eexists.
    + apply (iv_target _ _ _ Hi1).
    + apply (iv_bucket _ _ _ Hi1).
    + intros m g. unfold open_name. cbn. destruct (decide (m = a_name a)) as [->|Hm]; [by intros _|]. rewrite lookup_insert_ne by done.
      intros Hg _. apply (iv_tmp _ _ _ Hi1 m g Hg). unfold open_name. rewrite Ha1. cbn. congruence.
  - exists (f_frames f). rewrite stored_lookup, Hb, Ht, Ef. split; [done|]. apply map_eq. intros m. rewrite stored_lookup.
    cbn [k_tmp k_target set_active set_tmp]. destruct (decide (m = a_name a)) as [->|Hm].
    + by rewrite Hb, Ht, !lookup_insert_eq.
    + by rewrite !lookup_insert_ne, stored_lookup.
Qed.
End Conserve.

(** ** Nothing is lost and nothing is stored twice *)

(** All frames, file by file. *)
Definition messages (m : gmap string (list string)) : list string := concat (map_to_list m).*2.

Lemma messages_new m n l : m !! n = None -> messages (<[n := l]> m) ≡ₚ l ++ messages m.
Proof. intros Hn. unfold messages. by rewrite map_to_list_insert by done. Qed.

Lemma messages_append m n l x : m !! n = Some l -> messages (<[n := l ++ [x]]> m) ≡ₚ messages m ++ [x].
Proof.
  intros Hn. rewrite <- (insert_delete_id m n l) at 2 by done. rewrite <- insert_delete_eq.
  rewrite !messages_new by apply lookup_delete_eq. rewrite <- !app_assoc. apply Permutation_app_head, Permutation_app_comm.
Qed.

Lemma stores_same_messages m m' : stores_same m m' -> messages m' ≡ₚ messages m.
Proof. intros [->|(n & Hn & ->)]; [done|]. by rewrite messages_new. Qed.

(** The messages whose write was answered without an error. *)
Definition acked (msg : Message) (reply : Reply) : list string :=
  match msg, reply with Data bytes, OnWrite (Ok _) => [bytes] | _, _ => [] end.

Section Runs.
Variable cfg : FileSinkBuilder.
Implicit Types (s : FileSink) (bucket : gmap string file).

Lemma write_ok bucket s now buf s' r : sink_inv bucket (open_name s) s ->
  (opens cfg s (Z.of_nat (String.length buf)) = true -> fresh_name cfg bucket s now) -> write cfg s now buf = (s', r) ->
  sink_inv bucket (open_name s') s' /\
  messages (stored bucket s') ≡ₚ messages (stored bucket s) ++ match r with Ok _ => [buf] | Err _ => [] end.
Proof.
  intros Hi Hf E. unfold write in E. destruct (make_room _ _ _ _) as [s1 r1] eqn:E1.
  destruct (make_room_ok _ _ _ _ _ _ _ Hi Hf E1) as (H1 & H2 & H3). apply stores_same_messages in H1.
  destruct r1 as [[]|e]; [|injection E as <- <-; by rewrite app_nil_r].
  destruct (H3 eq_refl) as [a Ha]. rewrite Ha in E. destruct (send_frame_ok _ _ _ _ _ _ H2 Ha E) as (G1 & G2). split; [done|].
  destruct r as [[]|e]; [|by rewrite G2, app_nil_r]. destruct G2 as (l & Hl & ->). by rewrite (messages_append _ _ _ _ Hl), H1.
Qed.

Lemma maybe_roll_ok bucket s now s' r : sink_inv bucket (open_name s) s -> maybe_roll cfg s now = (s', r) ->
  sink_inv bucket (open_name s') s' /\ stored bucket s' = stored bucket s.
Proof.
  intros Hi E. unfold maybe_roll in E. destruct (k_active s) as [a|] eqn:Ea; [|by injection E as <- <-].
  destruct (_ <=? _); [|by injection E as <- <-]. destruct (b_auto_commit cfg).
  - destruct (commit cfg s) as [s1 r1] eqn:E1. destruct (commit_ok _ _ _ _ _ Hi E1) as (H1 & H2 & _). by injection E as <- _.
  - by destruct (maybe_close_ok _ _ _ _ Hi E) as (H1 & _ & _ & _ & _ & H2 & _).
Qed.

Lemma handle_ok bucket s now msg s' reply : sink_inv bucket (open_name s) s ->
  (forall bytes, msg = Data bytes -> opens cfg s (Z.of_nat (String.length bytes)) = true -> fresh_name cfg bucket s now) ->
  msg <> Rollback -> handle cfg s now msg = (s', reply) ->
  sink_inv bucket (open_name s') s' /\ messages (stored bucket s') ≡ₚ messages (stored bucket s) ++ acked msg reply.
Proof.
  intros Hi Hf Hnr E. destruct msg as [bytes| | |]; cbn [handle] in E; [| |done|].
  - destruct (write _ _ _ _) as [s1 r] eqn:E1. injection E as <- <-. apply (write_ok bucket s now bytes s1 r Hi); [by apply Hf|done].
  - destruct (commit cfg s) as [s1 r] eqn:E1. injection E as <- <-. destruct (commit_ok _ _ _ _ _ Hi E1) as (-> & H2 & _).
    by rewrite app_nil_r.
  - destruct (maybe_roll _ _ _) as [s1 r] eqn:E1. injection E as <- <-. destruct (maybe_roll_ok _ _ _ _ _ Hi E1) as [H1 ->].
    by rewrite app_nil_r.
Qed.

Lemma recover_ok bucket l s : b_auto_commit cfg = true -> sink_inv bucket None s -> k_active s = None ->
  stored bucket (recover cfg s l) = stored bucket s /\ sink_inv bucket None (recover cfg s l) /\ k_active (recover cfg s l) = None.
Proof.
  intros Hauto. revert s. induction l as [|n l IH]; intros s Hi Ha; cbn [recover]; [done|]. rewrite Hauto.
  destruct (deposit_sink cfg s n) as [s1 r] eqn:E. destruct (deposit_sink_ok _ _ _ _ _ _ Hi Ha E) as (H1 & H2 & H3).
  cbn [fst]. destruct (IH s1 H2 H3) as (G1 & G2 & G3). by rewrite G1.
Qed.

Lemma notify_all_ok l s s' r : notify_all s l = (s', r) -> same_files s s'.
Proof.
  revert s. induction l as [|n l IH]; intros s E; cbn [notify_all] in E; [by injection E as <- <-|].
  destruct (io s) as [s1 fail] eqn:Eio. destruct (io_same _ _ _ Eio) as ((E1 & E2 & E3) & _ & _).
  destruct fail; [injection E as <- <-; by repeat split|]. destruct (IH _ E) as (F1 & F2 & F3). cbn in F1, F2, F3.
  by repeat split; congruence.
Qed.

Lemma init_ok bucket tmp target faults s' r : b_auto_commit cfg = true ->
  sink_inv bucket None (mkSink tmp target [] None [] faults) -> init cfg tmp target faults = (s', r) ->
  stored bucket s' = stored bucket (mkSink tmp target [] None [] faults) /\ sink_inv bucket (open_name s') s'.
Proof.
  intros Hauto Hi E. unfold init in E. set (s0 := mkSink tmp target [] None [] faults) in *.
  destruct (if b_uploads cfg then _ else _) as [s1 r1] eqn:E1.
  assert (same_files s0 s1) as Hs. { destruct (b_uploads cfg); [by eapply notify_all_ok|by injection E1 as <- <-]. }
  pose proof (same_files_inv _ _ _ _ Hs Hi) as Hi1. rewrite <- (same_files_stored bucket _ _ Hs).
  assert (k_active s1 = None) as Ha by apply Hs. destruct r1 as [[]|e]; injection E as <- <-.
  - destruct (recover_ok bucket (own_files cfg (k_tmp s1)) s1 Hauto Hi1 Ha) as (G1 & G2 & G3). split; [done|]. unfold open_name. by rewrite G3.
  - split; [done|]. unfold open_name. by rewrite Ha.
Qed.

Lemma stop_ok bucket s : sink_inv bucket (open_name s) s ->
  (forall a, k_active s = Some a -> (shutdown_active s a).2 = Ok tt) ->
  stored bucket (stop s) = stored bucket s /\ sink_inv bucket None (stop s).
Proof.
  intros Hi Hok. unfold stop. destruct (k_active s) as [a|] eqn:Ea; [|unfold open_name in Hi; by rewrite Ea in Hi].
  destruct (shutdown_active s a) as [s1 r] eqn:E. specialize (Hok a eq_refl). rewrite E in Hok. cbn in Hok.
  destruct (shutdown_ok _ _ _ _ _ Hi Ea E) as (H1 & _ & _ & _ & _ & _ & _ & H8). split; [done|].
  destruct (H8 Hok) as [I1 I2 I3 I4 I5 I6 I7]. by split.
Qed.

Lemma upload_ok bucket s puts removed name target' bucket' uploads : sink_inv bucket (open_name s) s ->
  upload puts removed name (k_target s) bucket = (target', bucket') ->
  let s' := mkSink (k_tmp s) target' (k_staged s) (k_active s) uploads (k_faults s) in
  stored bucket' s' = stored bucket s /\ sink_inv bucket' (open_name s') s'.
Proof.
  intros Hi E. cbv zeta. unfold upload in E. destruct Hi as [I1 I2 I3 I4 I5 I6 I7].
  assert (sink_inv bucket (open_name s) (mkSink (k_tmp s) (k_target s) (k_staged s) (k_active s) uploads (k_faults s))) as Hsame by by split.
  destruct (k_target s !! name) as [f|] eqn:Ef; [|by injection E as <- <-]. destruct (default false _); [|by injection E as <- <-].
  assert (k_tmp s !! name = None) as Hnt.
  { destruct (k_tmp s !! name) eqn:Et; [|done]. specialize (I1 name ltac:(by eexists)). congruence. }
  assert (forall m g, target' !! m = Some g -> k_target s !! m = Some g) as Ht'.
  { intros m g. destruct removed; injection E as <- _; [by intros [_ ?]%lookup_delete_Some|done]. }
  assert (forall m, m <> name -> target' !! m = k_target s !! m) as Htne.
  { intros m Hm. destruct removed; injection E as <- _; [by rewrite lookup_delete_ne|done]. }
  assert (bucket' = <[name := f]> bucket) as -> by (destruct removed; by injection E). split.
  - apply map_eq. intros m. rewrite !stored_lookup. cbn [k_tmp k_target]. destruct (decide (m = name)) as [->|Hm].
    + rewrite lookup_insert_eq, Ef. destruct (bucket !! name) as [g|] eqn:Eg; [|done]. by rewrite (I3 name f g Ef Eg).
    + by rewrite lookup_insert_ne, Htne.
  - split; cbn [k_tmp k_target k_active].
    + intros m Hm. destruct (target' !! m) eqn:Et; [|done]. apply Ht' in Et. specialize (I1 m Hm). congruence.
    + intros m Hm. destruct (decide (m = name)) as [->|Hne]; [|rewrite lookup_insert_ne by done; by apply I2]. rewrite Hnt in Hm. by destruct Hm.
    + intros m g h Hg%Ht' Hh. destruct (decide (m = name)) as [->|Hne].
      * rewrite lookup_insert_eq in Hh. congruence.
      * rewrite lookup_insert_ne in Hh by done. by apply (I3 m).
    + done.
    + intros m g Hg%Ht'. by apply (I5 m).
    + intros m g. destruct (decide (m = name)) as [->|Hne]; [rewrite lookup_insert_eq; intros [= <-]; by apply (I5 name)|].
      rewrite lookup_insert_ne by done. apply I6.
    + done.
Qed.
End Runs.

(** ** A sink with its uploader

    The sink, the bucket, and whether [run] is running. An error of the rollover
    timer ends [run]. A stop is graceful when the open file is closed. *)

Record Pipe : Type := mkPipe { p_sink : FileSink; p_bucket : gmap string file; p_running : bool }.

Definition runs_on (reply : Reply) : bool := match reply with OnTick (Err _) => false | _ => true end.

Inductive pipe_step (cfg : FileSinkBuilder) : Pipe -> list string -> Pipe -> Prop :=
| pipe_handle s bucket now msg s' reply :
    msg <> Rollback ->
    (forall bytes, msg = Data bytes -> opens cfg s (Z.of_nat (String.length bytes)) = true -> fresh_name cfg bucket s now) ->
    handle cfg s now msg = (s', reply) ->
    pipe_step cfg (mkPipe s bucket true) (acked msg reply) (mkPipe s' bucket (runs_on reply))
| pipe_upload s bucket running puts removed name rest target' bucket' :
    k_uploads s ≡ₚ name :: rest ->
    upload puts removed name (k_target s) bucket = (target', bucket') ->
    pipe_step cfg (mkPipe s bucket running) []
      (mkPipe (mkSink (k_tmp s) target' (k_staged s) (k_active s) rest (k_faults s)) bucket' running)
| pipe_stop s bucket :
    (forall a, k_active s = Some a -> (shutdown_active s a).2 = Ok tt) ->
    pipe_step cfg (mkPipe s bucket true) [] (mkPipe (stop s) bucket false)
| pipe_start s bucket faults s' r :
    k_active s = None ->
    init cfg (k_tmp s) (k_target s) faults = (s', r) ->
    pipe_step cfg (mkPipe s bucket false) [] (mkPipe s' bucket (match r with Ok _ => true | Err _ => false end)).

Inductive pipe_run (cfg : FileSinkBuilder) : Pipe -> list string -> Pipe -> Prop :=
| pipe_done p : pipe_run cfg p [] p
| pipe_more p a1 p1 a2 p2 : pipe_step cfg p a1 p1 -> pipe_run cfg p1 a2 p2 -> pipe_run cfg p (a1 ++ a2) p2.

Definition pipe_inv (p : Pipe) : Prop := sink_inv (p_bucket p) (open_name (p_sink p)) (p_sink p).

Definition pipe_messages (p : Pipe) : list string := messages (stored (p_bucket p) (p_sink p)).

Lemma pipe_step_ok cfg p acks p' : b_auto_commit cfg = true -> pipe_inv p -> pipe_step cfg p acks p' ->
  pipe_inv p' /\ pipe_messages p' ≡ₚ pipe_messages p ++ acks.
Proof.
  intros Hauto Hi Hs. unfold pipe_inv, pipe_messages in *. destruct Hs as [s bucket now msg s' reply Hm Hf E|s bucket run puts rem n rest t' b' Hn E|s bucket Hok|s bucket faults s' r Ha E]; cbn [p_sink p_bucket] in *.
  - by eapply handle_ok.
  - destruct (upload_ok bucket s puts rem n t' b' rest Hi E) as [-> H]. by rewrite app_nil_r.
  - destruct (stop_ok bucket s Hi Hok) as [-> H]. rewrite app_nil_r. split; [|done].
    unfold stop, open_name in *. by destruct (k_active s) as [a|] eqn:Ea; cbn in *; rewrite ?Ea.
  - assert (sink_inv bucket None (mkSink (k_tmp s) (k_target s) [] None [] faults)) as Hi0.
    { unfold open_name in Hi. rewrite Ha in Hi. destruct Hi as [I1 I2 I3 I4 I5 I6 I7]. by split. }
    destruct (init_ok cfg bucket _ _ _ _ _ Hauto Hi0 E) as [-> H]. by rewrite app_nil_r.
Qed.

