(* ===== verification/FileLog.v ===== *)
(** * A sink is a log with a commit

    The abstract specification of [file_store/src/file_sink.rs]: a log of
    committed and pending messages, which the sink of [FileSink] implements. *)

From S2P Require Import Prelude Solana Text FileStoreTypes FileNames FileSink.

Open Scope Z_scope.
Open Scope oracle_scope.

(** ** The log

    Without failing operations a sink is a log of committed and pending messages.
    [Rollback] forgets the pending ones. A sink that commits by itself may do so
    before a write and when the timer ticks. *)

Record Log : Type := mkLog { l_committed : list string; l_pending : list string }.

Definition log_commit (l : Log) : Log := mkLog (l_committed l ++ l_pending l) [].

Inductive log_step (auto : bool) : Log -> Message -> bool -> Log -> Prop :=
| log_write l bytes : Z.of_nat (String.length bytes) <= MAX_FRAME_LENGTH ->
    log_step auto l (Data bytes) true (mkLog (l_committed l) (l_pending l ++ [bytes]))
| log_write_rolled l bytes : auto = true -> Z.of_nat (String.length bytes) <= MAX_FRAME_LENGTH ->
    log_step auto l (Data bytes) true (mkLog (l_committed l ++ l_pending l) [bytes])
| log_refuse l bytes : MAX_FRAME_LENGTH < Z.of_nat (String.length bytes) -> log_step auto l (Data bytes) false l
| log_refuse_rolled l bytes : auto = true -> MAX_FRAME_LENGTH < Z.of_nat (String.length bytes) ->
    log_step auto l (Data bytes) false (log_commit l)
| log_do_commit l : log_step auto l Commit true (log_commit l)
| log_rollback l : log_step auto l Rollback true (mkLog (l_committed l) [])
| log_tick l : log_step auto l Tick true l
| log_tick_rolled l : auto = true -> log_step auto l Tick true (log_commit l).

Definition reply_ok (reply : Reply) : bool :=
  match reply with OnWrite (Ok _) | OnManifest (Ok _) | OnTick (Ok _) => true | _ => false end.

(** The frames of a file of a directory. *)
Definition frames_in (d : gmap string file) (n : string) : list string := default [] (f_frames <$> d !! n).

Definition in_files (d : gmap string file) (names : list string) : list string := concat (frames_in d <$> names).

Definition committed (bucket : gmap string file) (s : FileSink) : list string :=
  messages (f_frames <$> (bucket ∪ k_target s)).

(** The staged files are those of the temporary directory and hold, in order, the
    pending messages; the active file is the last of them. *)
Record log_rel (bucket : gmap string file) (s : FileSink) (l : Log) : Prop := mkLogRel {
  lr_inv : sink_inv bucket (open_name s) s;
  lr_faults : k_faults s = [];
  lr_nodup : NoDup (k_staged s);
  lr_tmp n : is_Some (k_tmp s !! n) <-> n ∈ k_staged s;
  lr_active a : k_active s = Some a -> exists rest, k_staged s = rest ++ [a_name a];
  lr_pending : in_files (k_tmp s) (k_staged s) = l_pending l;
  lr_committed : committed bucket s ≡ₚ l_committed l
}.

(** The active file takes frames. *)
Definition writable (s : FileSink) : Prop :=
  forall a, k_active s = Some a -> exists fs, k_tmp s !! a_name a = Some (mkFile fs false).

Section Refine.
Variable cfg : FileSinkBuilder.
Implicit Types (s : FileSink) (bucket : gmap string file).

Lemma io_ok s : k_faults s = [] -> io s = (s, false).
Proof. unfold io. by intros ->. Qed.

Lemma in_files_ext d d' names : (forall n, n ∈ names -> frames_in d' n = frames_in d n) -> in_files d' names = in_files d names.
Proof. intros H. unfold in_files. f_equal. apply list_fmap_ext. intros i n Hn. by eapply H, list_elem_of_lookup_2. Qed.

Lemma in_files_app d l1 l2 : in_files d (l1 ++ l2) = in_files d l1 ++ in_files d l2.
Proof. unfold in_files. by rewrite fmap_app, concat_app. Qed.

Lemma frames_in_close d n m : frames_in (alter close_file n d) m = frames_in d m.
Proof.
  unfold frames_in. destruct (decide (m = n)) as [->|Hm]; [|by rewrite lookup_alter_ne].
  rewrite lookup_alter_eq. by destruct (d !! n).
Qed.

(** Closing the active file, once or again, changes nothing in the log. *)
Lemma shutdown_log bucket s a l : log_rel bucket s l -> k_active s = Some a -> exists s1,
  shutdown_active s a = (s1, Ok tt) /\ log_rel bucket s1 l /\ k_active s1 = Some a /\ sink_inv bucket None s1 /\
  k_staged s1 = k_staged s /\ stored bucket s1 = stored bucket s.
Proof.
  intros [Hi Hf Hnd Ht Hac Hp Hc] Ha. destruct (shutdown_active s a) as [s1 r] eqn:E.
  destruct (shutdown_ok _ _ _ _ _ Hi Ha E) as (H1 & H2 & H3 & H4 & H5 & H6 & H7 & H8).
  unfold shutdown_active in E. rewrite io_ok in E by done. injection E as <- <-. eexists. split; [done|]. cbn in H2.
  split; [|split; [done|split; [by apply H8|by split]]]. split; try done.
  - intros n. by rewrite H5.
  - cbn. rewrite <- Hp. apply in_files_ext. intros n _. apply frames_in_close.
Qed.

Lemma close_log bucket s l : log_rel bucket s l -> exists s1,
  maybe_close_active_sink s = (s1, Ok tt) /\ log_rel bucket s1 l /\ k_active s1 = None /\ k_staged s1 = k_staged s /\
  stored bucket s1 = stored bucket s.
Proof.
  intros Hr. unfold maybe_close_active_sink. destruct (k_active s) as [a|] eqn:Ea; [|by exists s].
  destruct (shutdown_log _ _ _ _ Hr Ea) as (s1 & -> & [Hi Hf Hnd Ht Hac Hp Hc] & H3 & [I1 I2 I3 I4 I5 I6 I7] & H5 & H6). eexists.
  split; [done|]. split; [by split|done].
Qed.

Lemma committed_insert bucket s s' n f : k_target s' = <[n := f]> (k_target s) -> bucket !! n = None -> k_target s !! n = None ->
  committed bucket s' ≡ₚ f_frames f ++ committed bucket s.
Proof.
  intros E Hb Ht. unfold committed. rewrite E, <- insert_union_r by done. rewrite fmap_insert, messages_new; [done|].
  by rewrite lookup_fmap, lookup_union, Hb, Ht.
Qed.

(** Depositing staged files: their messages are committed. *)
Lemma deposit_all_log bucket names m s : k_faults s = [] -> sink_inv bucket None s -> k_active s = None -> NoDup names ->
  (forall n, n ∈ names -> is_Some (k_tmp s !! n)) -> exists s',
  deposit_all cfg s names m = (s', Ok (m ++ names)) /\ k_faults s' = [] /\ k_staged s' = k_staged s /\
  (forall n, k_tmp s' !! n = if decide (n ∈ names) then None else k_tmp s !! n) /\
  (forall n, k_target s' !! n = if decide (n ∈ names) then k_tmp s !! n else k_target s !! n) /\
  committed bucket s' ≡ₚ committed bucket s ++ in_files (k_tmp s) names.
Proof.
  revert m s. induction names as [|n names IH]; intros m s Hf Hi Ha Hnd Hin; cbn [deposit_all].
  { exists s. rewrite !app_nil_r. done. }
  apply NoDup_cons in Hnd as [Hn Hnd]. destruct (Hin n ltac:(by left)) as [f Hfn].
  destruct (deposit_sink cfg s n) as [s1 r1] eqn:E1. destruct (deposit_sink_ok _ _ _ _ _ _ Hi Ha E1) as (_ & H2 & H3).
  assert (r1 = Ok tt /\ k_faults s1 = [] /\ k_staged s1 = k_staged s /\ k_tmp s1 = delete n (k_tmp s) /\ k_target s1 = <[n := f]> (k_target s))
    as (-> & Hf1 & Hs1 & Ht1 & Hg1).
  { unfold deposit_sink in E1. rewrite Hfn, io_ok in E1 by done. rewrite io_ok in E1 by done. by destruct (b_uploads cfg); injection E1 as <- <-. }
  assert (forall k, k ∈ names -> k_tmp s1 !! k = k_tmp s !! k) as Hk.
  { intros k Hk. rewrite Ht1, lookup_delete_ne; [done|]. by intros ->. }
  destruct (IH (m ++ [n]) s1 Hf1 H2 H3 Hnd) as (s' & E & G1 & G2 & G3 & G4 & G5).
  { intros k Hk'. rewrite Hk by done. by apply Hin; right. }
  exists s'. rewrite E, <- app_assoc. split; [done|]. split; [done|]. split; [congruence|]. split; [|split].
  - intros k. rewrite G3, Ht1. destruct (decide (k = n)) as [->|Hkn]; [rewrite lookup_delete_eq|rewrite lookup_delete_ne by done]; repeat case_decide; set_solver.
  - intros k. rewrite G4, Hg1. destruct (decide (k = n)) as [->|Hkn].
    + rewrite decide_False, lookup_insert_eq by done. by rewrite decide_True by left.
    + rewrite lookup_insert_ne by done. repeat case_decide; [by apply Hk|set_solver|set_solver|done].
  - pose proof (iv_tmp_bucket _ _ _ Hi n ltac:(by eexists)). pose proof (iv_tmp_target _ _ _ Hi n ltac:(by eexists)).
    rewrite G5, (committed_insert bucket s s1 n f) by done. rewrite (in_files_ext (k_tmp s) (k_tmp s1)) by (intros k Hk'; unfold frames_in; by rewrite Hk).
    unfold in_files at 2. cbn. unfold frames_in at 1. rewrite Hfn. cbn.
    by rewrite (Permutation_app_comm (f_frames f)), <- app_assoc.
Qed.

Lemma closed_inv bucket s l : log_rel bucket s l -> k_active s = None -> sink_inv bucket None s.
Proof. intros Hr Ha. pose proof (lr_inv _ _ _ Hr) as Hi. unfold open_name in Hi. by rewrite Ha in Hi. Qed.

Lemma commit_log bucket s l : log_rel bucket s l -> exists s',
  commit cfg s = (s', Ok (k_staged s)) /\ log_rel bucket s' (log_commit l) /\ k_active s' = None /\
  in_files (k_target s') (k_staged s) = l_pending l.
Proof.
  intros Hr. unfold commit. destruct (close_log _ _ _ Hr) as (s1 & -> & Hr1 & Ha1 & Hs1 & _).
  pose proof (closed_inv _ _ _ Hr1 Ha1) as Hi1. destruct Hr1 as [_ Hf Hnd Ht Hac Hp Hc]. rewrite Hs1 in *.
  destruct (deposit_all_log bucket (k_staged s) [] (set_staged s1 [])) as (s' & E & G1 & G2 & G3 & G4 & G5); [done|by destruct Hi1|done|done| |].
  { intros n Hn. by apply Ht. }
  destruct (deposit_all_ok cfg bucket _ _ (set_staged s1 []) _ _ ltac:(by destruct Hi1) Ha1 E) as (_ & I & Ha').
  exists s'. split; [exact E|]. cbn in G2, G3, G4, G5. split; [|split; [done|]].
  - split; rewrite ?G2, ?Ha'; try done.
    + unfold open_name. by rewrite Ha'.
    + apply NoDup_nil_2.
    + intros n. rewrite G3. split; [|set_solver]. case_decide as Hn; [by intros []|]. by rewrite Ht.
    + unfold log_commit. cbn. change (committed bucket (set_staged s1 [])) with (committed bucket s1) in G5. by rewrite G5, Hc, Hp.
  - rewrite <- Hp. apply in_files_ext. intros n Hn. unfold frames_in. by rewrite G4, decide_True.
Qed.

Lemma remove_all_log names m s : k_faults s = [] -> NoDup names -> (forall n, n ∈ names -> is_Some (k_tmp s !! n)) -> exists tmp',
  remove_all s names m = (set_tmp s tmp', Ok (m ++ names)) /\ (forall n, tmp' !! n = if decide (n ∈ names) then None else k_tmp s !! n).
Proof.
  revert m s. induction names as [|n names IH]; intros m s Hf Hnd Hin; cbn [remove_all].
  { exists (k_tmp s). rewrite app_nil_r. by destruct s. }
  apply NoDup_cons in Hnd as [Hn Hnd]. destruct (Hin n ltac:(by left)) as [f Hfn]. rewrite io_ok, Hfn by done.
  destruct (IH (m ++ [n]) (set_tmp s (delete n (k_tmp s)))) as (tmp' & E & G); [done|done| |].
  { intros k Hk. cbn. rewrite lookup_delete_ne; [by apply Hin; right|]. by intros ->. }
  exists tmp'. rewrite E, <- app_assoc. split; [done|]. intros k. rewrite G. cbn.
  destruct (decide (k = n)) as [->|Hkn]; [rewrite lookup_delete_eq|rewrite lookup_delete_ne by done]; repeat case_decide; set_solver.
Qed.

Lemma rollback_log bucket s l : log_rel bucket s l -> exists s',
  rollback s = (s', Ok (k_staged s)) /\ log_rel bucket s' (mkLog (l_committed l) []) /\ k_active s' = None.
Proof.
  intros Hr. unfold rollback. destruct (close_log _ _ _ Hr) as (s1 & -> & Hr1 & Ha1 & Hs1 & _).
  pose proof (closed_inv _ _ _ Hr1 Ha1) as [I1 I2 I3 I4 I5 I6 I7]. destruct Hr1 as [_ Hf Hnd Ht Hac Hp Hc]. rewrite Hs1 in *.
  destruct (remove_all_log (k_staged s) [] (set_staged s1 [])) as (tmp' & E & G); [done|done| |].
  { intros n Hn. by apply Ht. }
  cbn in G. assert (forall n, tmp' !! n = None) as Hnone.
  { intros n. rewrite G. case_decide as Hn; [done|]. apply eq_None_not_Some. by rewrite Ht. }
  rewrite E. eexists. split; [done|]. split; [|done]. split; try done; cbn.
  - split; cbn; try done; [intros n [? Hn]; by rewrite Hnone in Hn..|by rewrite Ha1|intros n f Hn; by rewrite Hnone in Hn].
  - apply NoDup_nil_2.
  - intros n. rewrite Hnone. split; [by intros []|set_solver].
  - by rewrite Ha1.
Qed.

Lemma new_sink_log bucket s now l : log_rel bucket s l -> sink_inv bucket None s -> fresh_name cfg bucket s now -> exists s' a,
  new_sink cfg s now = (s', Ok tt) /\ log_rel bucket s' l /\ k_active s' = Some a /\ writable s'.
Proof.
  intros [_ Hf Hnd Ht Hac Hp Hc] Hi Hfr. destruct (new_sink cfg s now) as [s' r] eqn:E.
  pose proof (new_sink_ok cfg bucket s now s' r Hi Hfr E) as H. unfold new_sink in E. rewrite io_ok in E by done. injection E as <- <-.
  destruct H as (_ & H2 & _ & H4). set (n := file_key _ _) in *.
  assert (k_tmp s !! n = None) as Hn.
  { unfold fresh_name in Hfr. rewrite stored_lookup in Hfr. fold n in Hfr. by destruct (bucket !! n), (k_target s !! n), (k_tmp s !! n). }
  assert (n ∉ k_staged s) as Hns. { rewrite <- Ht, Hn. by intros []. }
  eexists _, _. split; [done|]. split; [|split; [done|]].
  - split; try done; cbn [k_tmp k_staged k_active set_active set_tmp l_pending].
    + apply NoDup_app. split; [done|]. split; [set_solver|apply NoDup_singleton].
    + intros k. rewrite elem_of_app, list_elem_of_singleton, <- Ht. destruct (decide (k = n)) as [->|Hk].
      * rewrite lookup_insert_eq. split; [by right|by eexists].
      * rewrite lookup_insert_ne by done. split; [by left|by intros [?|?]].
    + intros a [= <-]. by eexists.
    + rewrite in_files_app, <- Hp. unfold in_files at 2. cbn. unfold frames_in at 1. rewrite lookup_insert_eq. cbn. rewrite app_nil_r.
      apply in_files_ext. intros k Hk. unfold frames_in. rewrite lookup_insert_ne; [done|]. by intros <-.
  - intros a [= <-]. cbn [a_name]. by eexists.
Qed.

Lemma send_frame_log bucket s a buf l : log_rel bucket s l -> k_active s = Some a -> writable s ->
  Z.of_nat (String.length buf) <= MAX_FRAME_LENGTH -> exists s',
  send_frame s a buf = (s', Ok tt) /\ log_rel bucket s' (mkLog (l_committed l) (l_pending l ++ [buf])) /\ writable s'.
Proof.
  intros [Hi Hf Hnd Ht Hac Hp Hc] Ha Hw Hlen. destruct (send_frame s a buf) as [s' r] eqn:E.
  destruct (send_frame_ok bucket s a buf s' r Hi Ha E) as [H1 _]. destruct (Hw a Ha) as [fs Hfs]. destruct (Hac a Ha) as [rest Hst].
  unfold send_frame in E. rewrite io_ok, Hfs in E by done. destruct (Z.ltb_spec MAX_FRAME_LENGTH (Z.of_nat (String.length buf))); [lia|]. cbn in E.
  injection E as <- <-. eexists. split; [done|]. split.
  - split; try done; cbn [k_tmp k_staged k_active set_active set_tmp l_pending].
    + intros n. rewrite <- Ht. destruct (decide (n = a_name a)) as [->|Hn]; [|by rewrite lookup_insert_ne].
      rewrite lookup_insert_eq, Hfs. split; by eexists.
    + intros a' [= <-]. by exists rest.
    + rewrite <- Hp, Hst, !in_files_app, <- app_assoc. rewrite Hst in Hnd. apply NoDup_app in Hnd as (_ & Hnd & _). f_equal.
      * apply in_files_ext. intros n Hn. unfold frames_in. rewrite lookup_insert_ne; [done|]. intros <-. by apply (Hnd _ Hn); left.
      * unfold in_files. cbn. unfold frames_in. by rewrite lookup_insert_eq, Hfs, !app_nil_r.
  - intros a' [= <-]. cbn. rewrite lookup_insert_eq. by eexists.
Qed.

Lemma make_room_log bucket s now len l : log_rel bucket s l -> writable s -> (opens cfg s len = true -> fresh_name cfg bucket s now) ->
  exists s' a l', make_room cfg s now len = (s', Ok tt) /\ log_rel bucket s' l' /\ k_active s' = Some a /\ writable s' /\
    (l' = l \/ b_auto_commit cfg = true /\ l' = log_commit l).
Proof.
  intros Hr Hw Hf. unfold make_room, opens in *. destruct (k_active s) as [a|] eqn:Ea.
  2:{ destruct (new_sink_log bucket s now l Hr (closed_inv _ _ _ Hr Ea) (Hf eq_refl)) as (s' & a & E & H1 & H2 & H3).
      exists s', a, l. split_and!; try done. by left. }
  destruct (_ <=? _); [|exists s, a, l; split_and!; try done; by left].
  destruct (shutdown_log _ _ _ _ Hr Ea) as (s1 & -> & Hr1 & Ha1 & Hi1 & _ & Hst). specialize (Hf eq_refl).
  unfold fresh_name in Hf. rewrite <- Hst in Hf. destruct (b_auto_commit cfg) eqn:Hauto.
  - destruct (commit_log _ _ _ Hr1) as (s2 & E2 & Hr2 & Ha2 & _). destruct (commit_ok cfg bucket s1 _ _ (lr_inv _ _ _ Hr1) E2) as (Hst2 & _).
    rewrite E2. unfold fresh_name in *. rewrite <- Hst2 in Hf.
    destruct (new_sink_log bucket s2 now _ Hr2 (closed_inv _ _ _ Hr2 Ha2) Hf) as (s' & a' & E & H1 & H2 & H3).
    exists s', a', (log_commit l). split_and!; try done. by right.
  - destruct (new_sink_log bucket s1 now l Hr1 Hi1 Hf) as (s' & a' & E & H1 & H2 & H3). exists s', a', l. split_and!; try done. by left.
Qed.

Lemma write_log bucket s now bytes l : log_rel bucket s l -> writable s ->
  (opens cfg s (Z.of_nat (String.length bytes)) = true -> fresh_name cfg bucket s now) ->
  exists s' r l', write cfg s now bytes = (s', r) /\ log_step (b_auto_commit cfg) l (Data bytes) (reply_ok (OnWrite r)) l' /\
    log_rel bucket s' l' /\ writable s'.
Proof.
  intros Hr Hw Hf. unfold write. destruct (make_room_log bucket s now _ l Hr Hw Hf) as (s1 & a & l1 & -> & Hr1 & Ha & Hw1 & Hl). rewrite Ha.
  destruct (Z.le_gt_cases (Z.of_nat (String.length bytes)) MAX_FRAME_LENGTH) as [Hlen|Hlen].
  - destruct (send_frame_log bucket s1 a bytes l1 Hr1 Ha Hw1 Hlen) as (s' & E & Hr' & Hw'). exists s', (Ok tt), (mkLog (l_committed l1) (l_pending l1 ++ [bytes])).
    split; [done|]. split; [|done]. destruct Hl as [->|[Hauto ->]]; [by apply log_write|by apply log_write_rolled].
  - exists s1, (Err FrameTooLarge), l1. unfold send_frame. rewrite io_ok by apply Hr1.
    destruct (Z.ltb_spec MAX_FRAME_LENGTH (Z.of_nat (String.length bytes))); [|lia]. split; [done|]. split; [|done].
    destruct Hl as [->|[Hauto ->]]; [by apply log_refuse|by apply log_refuse_rolled].
Qed.

Lemma no_active_writable s : k_active s = None -> writable s.
Proof. intros Ha a. by rewrite Ha. Qed.

Lemma maybe_roll_log bucket s now l : log_rel bucket s l -> writable s ->
  exists s' l', maybe_roll cfg s now = (s', Ok tt) /\ log_step (b_auto_commit cfg) l Tick true l' /\ log_rel bucket s' l' /\ writable s'.
Proof.
  intros Hr Hw. unfold maybe_roll. destruct (k_active s) as [a|] eqn:Ea; [|exists s, l; split_and!; try done; apply log_tick].
  destruct (_ <=? _); [|exists s, l; split_and!; try done; apply log_tick]. destruct (b_auto_commit cfg).
  - destruct (commit_log _ _ _ Hr) as (s' & -> & Hr' & Ha' & _). exists s', (log_commit l). split_and!; try done; [by apply log_tick_rolled|by apply no_active_writable].
  - destruct (close_log _ _ _ Hr) as (s' & -> & Hr' & Ha' & _). exists s', l. split_and!; try done; [apply log_tick|by apply no_active_writable].
Qed.

Lemma handle_log bucket s now msg l : log_rel bucket s l -> writable s ->
  (forall bytes, msg = Data bytes -> opens cfg s (Z.of_nat (String.length bytes)) = true -> fresh_name cfg bucket s now) ->
  exists s' reply l', handle cfg s now msg = (s', reply) /\ log_step (b_auto_commit cfg) l msg (reply_ok reply) l' /\
    log_rel bucket s' l' /\ writable s'.
Proof.
  intros Hr Hw Hf. destruct msg as [bytes| | |]; cbn [handle].
  - destruct (write_log bucket s now bytes l Hr Hw (Hf bytes eq_refl)) as (s' & r & l' & -> & H). by eexists _, _, _.
  - destruct (commit_log _ _ _ Hr) as (s' & -> & Hr' & Ha' & _). eexists _, _, _. split; [done|]. split; [apply log_do_commit|].
    split; [done|by apply no_active_writable].
  - destruct (rollback_log _ _ _ Hr) as (s' & -> & Hr' & Ha'). eexists _, _, _. split; [done|]. split; [apply log_rollback|].
    split; [done|by apply no_active_writable].
  - destruct (maybe_roll_log bucket s now l Hr Hw) as (s' & l' & -> & H). by eexists _, _, _.
Qed.

(** An upload moves a committed file. *)
Lemma upload_log bucket s puts removed name target' bucket' uploads l : log_rel bucket s l -> writable s ->
  upload puts removed name (k_target s) bucket = (target', bucket') ->
  let s' := mkSink (k_tmp s) target' (k_staged s) (k_active s) uploads (k_faults s) in log_rel bucket' s' l /\ writable s'.
Proof.
  intros [Hi Hf Hnd Ht Hac Hp Hc] Hw E. cbv zeta. destruct (upload_ok bucket s puts removed name target' bucket' uploads Hi E) as [_ H].
  split; [|done]. split; try done. rewrite <- Hc. unfold committed. cbn [k_target].
  assert (bucket' ∪ target' = bucket ∪ k_target s) as ->; [|done]. apply map_eq. intros n.
  rewrite !lookup_union. unfold upload in E. destruct (k_target s !! name) as [f|] eqn:En; [|by injection E as <- <-].
  destruct (default false _); [|by injection E as <- <-]. assert (bucket' = <[name := f]> bucket) as -> by (by destruct removed; injection E).
  destruct (decide (n = name)) as [->|Hn].
  - rewrite lookup_insert_eq, En. destruct (bucket !! name) as [g|] eqn:Eg.
    + rewrite (iv_same _ _ _ Hi name f g En Eg). by destruct (target' !! name).
    + by destruct (target' !! name).
  - rewrite lookup_insert_ne by done. f_equal. destruct removed; injection E as <-; [by rewrite lookup_delete_ne|done].
Qed.
End Refine.

(** ** Runs

    A run of a sink and its uploader in which no operation fails, with the
    messages it handled and whether each was answered without an error. *)
Inductive sink_run (cfg : FileSinkBuilder) : gmap string file -> FileSink -> list (Message * bool) -> gmap string file -> FileSink -> Prop :=
| sink_done bucket s : sink_run cfg bucket s [] bucket s
| sink_handles bucket s now msg s1 reply trace bucket2 s2 :
    (forall bytes, msg = Data bytes -> opens cfg s (Z.of_nat (String.length bytes)) = true -> fresh_name cfg bucket s now) ->
    handle cfg s now msg = (s1, reply) -> sink_run cfg bucket s1 trace bucket2 s2 ->
    sink_run cfg bucket s ((msg, reply_ok reply) :: trace) bucket2 s2
| sink_uploads bucket s puts removed name rest target1 bucket1 trace bucket2 s2 :
    k_uploads s ≡ₚ name :: rest -> upload puts removed name (k_target s) bucket = (target1, bucket1) ->
    sink_run cfg bucket1 (mkSink (k_tmp s) target1 (k_staged s) (k_active s) rest (k_faults s)) trace bucket2 s2 ->
    sink_run cfg bucket s trace bucket2 s2.

Inductive log_run (auto : bool) : Log -> list (Message * bool) -> Log -> Prop :=
| log_end l : log_run auto l [] l
| log_next l msg ok l1 trace l2 : log_step auto l msg ok l1 -> log_run auto l1 trace l2 -> log_run auto l ((msg, ok) :: trace) l2.


(** ** Concrete runs *)

Definition entropy_sink : FileSinkBuilder := mkBuilder "entropy" 50000000 (DEFAULT_SINK_ROLL_MINS * 60 * nanos_per_sec) true true.

Definition an_instant : Z := 1700000000123 * 1000000.

Definition entropy_file : string := "entropy.1700000000123.gz".

Lemma an_instant_key : file_key "entropy" an_instant = entropy_file.
Proof. vm_compute. reflexivity. Qed.

Definition one_open : FileSink :=
  mkSink {[ entropy_file := mkFile ["first"] false ]} ∅ [entropy_file] (Some (mkActive entropy_file 5 an_instant)) [] [].

Definition one_deposited : FileSink := mkSink ∅ {[ entropy_file := mkFile ["first"] true ]} [] None [entropy_file] [].

Lemma writes_first : handle entropy_sink (mkSink ∅ ∅ [] None [] []) an_instant (Data "first") = (one_open, OnWrite (Ok tt)).
Proof. vm_compute. reflexivity. Qed.

Lemma commits_first : handle entropy_sink one_open an_instant Commit = (one_deposited, OnManifest (Ok [entropy_file])).
Proof. vm_compute. reflexivity. Qed.

Lemma uploads_first : upload (Z.eqb 1) true entropy_file (k_target one_deposited) ∅ = (∅, {[ entropy_file := mkFile ["first"] true ]}).
Proof. vm_compute. reflexivity. Qed.



(** ** Names by the millisecond *)

Fixpoint handle_all (cfg : FileSinkBuilder) (s : FileSink) (now : Z) (msgs : list Message) : FileSink * list bool :=
  match msgs with
  | [] => (s, [])
  | m :: rest => let '(s1, reply) := handle cfg s now m in let '(s2, oks) := handle_all cfg s1 now rest in (s2, reply_ok reply :: oks)
  end.

(** a name is the prefix and the millisecond and nothing checks that it is
    new: of two commits in one millisecond the second file replaces the first,
    and its messages are lost although every answer was that they were stored. *)
Theorem same_millisecond_lost cfg now first second :
  Z.of_nat (String.length first) <= MAX_FRAME_LENGTH -> Z.of_nat (String.length second) <= MAX_FRAME_LENGTH ->
  exists s, handle_all cfg (mkSink ∅ ∅ [] None [] []) now [Data first; Commit; Data second; Commit] = (s, [true; true; true; true]) /\
    k_tmp s = ∅ /\ k_staged s = [] /\ committed ∅ s = [second].
Proof.
  intros H1 H2. set (n := file_key (b_prefix cfg) now). set (up := if b_uploads cfg then [n] else []).
  assert (forall msg target uploads, Z.of_nat (String.length msg) <= MAX_FRAME_LENGTH ->
    handle_all cfg (mkSink ∅ target [] None uploads []) now [Data msg; Commit] =
      (mkSink ∅ (<[n := mkFile [msg] true]> target) [] None (uploads ++ up) [], [true; true])) as Hone.
  { intros msg target uploads Hlen. cbn -[Z.ltb MAX_FRAME_LENGTH file_key Z.of_nat]. fold n. rewrite lookup_insert_eq.
    destruct (Z.ltb_spec MAX_FRAME_LENGTH (Z.of_nat (String.length msg))); [lia|]. cbn -[file_key]. rewrite insert_insert_eq.
    unfold commit, maybe_close_active_sink, shutdown_active. cbn -[file_key]. unfold deposit_sink. cbn -[file_key]. fold n.
    rewrite lookup_alter_eq, lookup_insert_eq. cbn -[file_key].
    assert (delete n (alter close_file n (<[n := mkFile [msg] false]> ∅)) = (∅ : gmap string file)) as ->.
    { apply map_eq. intros m. destruct (decide (m = n)) as [->|Hm]; [by rewrite lookup_delete_eq|].
      by rewrite lookup_delete_ne, lookup_alter_ne, lookup_insert_ne by done. }
    unfold up. destruct (b_uploads cfg); cbn; by rewrite ?app_nil_r. }
  pose proof (Hone first ∅ [] H1) as E1. pose proof (Hone second (<[n := mkFile [first] true]> ∅) ([] ++ up) H2) as E2.
  exists (mkSink ∅ (<[n := mkFile [second] true]> ∅) [] None (([] ++ up) ++ up) []). rewrite insert_insert_eq in E2.
  split; [|split; [done|split; [done|]]].
  - cbn [handle_all] in *. destruct (handle cfg _ now (Data first)) as [s1 r1]. destruct (handle cfg s1 now Commit) as [s2 r2].
    injection E1 as -> -> ->. destruct (handle cfg _ now (Data second)) as [s3 r3]. destruct (handle cfg s3 now Commit) as [s4 r4].
    by injection E2 as -> -> ->.
  - unfold committed. cbn [k_target]. rewrite map_empty_union, fmap_insert, fmap_empty. unfold messages. by rewrite insert_empty, map_to_list_singleton.
Qed.

Lemma same_millisecond_lost_witness :
  exists s, handle_all entropy_sink (mkSink ∅ ∅ [] None [] []) an_instant [Data "first"; Commit; Data "second"; Commit] = (s, [true; true; true; true]) /\
    k_tmp s = ∅ /\ k_staged s = [] /\ committed ∅ s = ["second"].
Proof. apply (same_millisecond_lost entropy_sink an_instant "first" "second"); vm_compute; discriminate. Defined.
