(* ===== verification/FilePipeline.v ===== *)
(** * From a sink to a reader

    What a sink writes and [FileStore::stream_file] reads:
    [file_store/src/file_store.rs] ([stream_source]) and [parse_file] of
    [file_store/src/file_info_poller.rs].  The frame codec and gzip are libraries;
    the writer's codec has the limit of [file_sink.rs], the reader's has the
    default of the library. *)

From Stdlib Require Import Ascii.
From S2P Require Import Prelude Solana Text FileStoreTypes FileNames FileSink.

Open Scope Z_scope.
Open Scope oracle_scope.

(** ** The libraries *)

Notation bytes := (list ascii).

(** [LengthDelimitedCodec]: encoding refuses a frame over the limit.  Reading gives
    the frames one after the other; the head of a frame over the limit is an
    error, after which the stream ends. *)
Class LengthDelimitedCodec : Type := {
  ld_encode : Z -> bytes -> option bytes;
  ld_decode : Z -> bytes -> list (result bytes unit);
  ld_encode_limit limit f : ld_encode limit f = None <-> limit < Z.of_nat (length f);
  ld_decode_nil limit : ld_decode limit [] = [];
  ld_decode_frame limit limit' f e rest : limit < 2 ^ 32 -> ld_encode limit f = Some e -> Z.of_nat (length f) <= limit' ->
    ld_decode limit' (e ++ rest) = Ok f :: ld_decode limit' rest;
  ld_decode_over limit limit' f e rest : limit < 2 ^ 32 -> ld_encode limit f = Some e -> limit' < Z.of_nat (length f) ->
    ld_decode limit' (e ++ rest) = [Err tt]
}.

(** [GzipEncoder] and [GzipDecoder] *)
Class Gzip : Type := {
  gzip : bytes -> bytes;
  gunzip : bytes -> option bytes;
  gunzip_gzip s : gunzip (gzip s) = Some s
}.

(** The default of [LengthDelimitedCodec::new]: 8 MiB. *)
Definition DEFAULT_FRAME_LENGTH : Z := 8 * 1024 * 1024.

Section Pipeline.
Context {codec : LengthDelimitedCodec} {gz : Gzip}.

(** The bytes of the frames a sink has sent, with the codec of [new_transport]. *)
Fixpoint transport (frames : list string) : option bytes :=
  match frames with
  | [] => Some []
  | f :: rest =>
      e ← ld_encode MAX_FRAME_LENGTH (String.list_ascii_of_string f);
      more ← transport rest;
      Some (e ++ more)
  end.

Definition file_bytes (f : file) : option bytes := gzip <$> transport (f_frames f).

(** [stream_source] *)
Definition stream_source (stream : bytes) : list (result bytes unit) :=
  match gunzip stream with
  | Some s => ld_decode DEFAULT_FRAME_LENGTH s
  | None => [Err tt]
  end.

(** [parse_file]: the items that are errors and the messages that do not decode
    are left out. *)
Definition parse_file {T} (decode : bytes -> result T unit) (stream : bytes) : list T :=
  omap (fun msg => match decode msg with Ok t => Some t | Err _ => None end)
    (omap (fun r => match r with Ok msg => Some msg | Err _ => None end) (stream_source stream)).

Definition frame_ok (limit : Z) (f : string) : Prop := Z.of_nat (String.length f) <= limit.

Lemma list_ascii_length s : length (String.list_ascii_of_string s) = String.length s.
Proof. induction s as [|c s IH]; [done|]. cbn. by rewrite IH. Qed.

(** What a sink accepts can be written. *)
Lemma transport_ok frames : Forall (frame_ok MAX_FRAME_LENGTH) frames -> exists s, transport frames = Some s.
Proof.
  induction 1 as [|f frames Hf Hfs [s IH]]; cbn [transport]; [by eexists|].
  destruct (ld_encode MAX_FRAME_LENGTH (String.list_ascii_of_string f)) as [e|] eqn:E; [cbn; rewrite IH; by eexists|].
  apply ld_encode_limit in E. rewrite list_ascii_length in E. unfold frame_ok in Hf. lia.
Qed.

Lemma transport_app l1 l2 s : transport (l1 ++ l2) = Some s -> exists s1 s2, transport l1 = Some s1 /\ transport l2 = Some s2 /\ s = s1 ++ s2.
Proof.
  revert s. induction l1 as [|f l1 IH]; intros s; cbn [app transport]; [intros H; by exists [], s|].
  destruct (ld_encode _ _) as [e|]; [|done]. cbn. destruct (transport (l1 ++ l2)) as [m|]; [|done]. intros [= <-].
  destruct (IH m eq_refl) as (s1 & s2 & -> & H2 & ->). exists (e ++ s1), s2. by rewrite app_assoc.
Qed.

Lemma decode_transport frames s rest : Forall (frame_ok DEFAULT_FRAME_LENGTH) frames -> transport frames = Some s ->
  ld_decode DEFAULT_FRAME_LENGTH (s ++ rest) = (Ok ∘ String.list_ascii_of_string <$> frames) ++ ld_decode DEFAULT_FRAME_LENGTH rest.
Proof.
  intros Hf. revert s. induction Hf as [|f frames Hf Hfs IH]; intros s; cbn [transport]; [by intros [= <-]|].
  destruct (ld_encode _ _) as [e|] eqn:E; [|done]. cbn. destruct (transport frames) as [m|]; [|done]. intros [= <-].
  rewrite <- app_assoc, (ld_decode_frame MAX_FRAME_LENGTH DEFAULT_FRAME_LENGTH (String.list_ascii_of_string f) e); [|done|done|by rewrite list_ascii_length].
  by rewrite (IH m eq_refl).
Qed.

Lemma omap_ok {A} (l : list A) : omap (fun r => match r with Ok msg => Some msg | Err _ => None end) ((Ok <$> l) : list (result A unit)) = l.
Proof. induction l as [|a l IH]; [done|]. cbn. by rewrite <- IH at 2. Qed.


(** the reader's limit is below the writer's: a message of more than 8 MiB that a
    sink has accepted ends the file for its readers.  Of what is written the
    messages before it are processed, it and those after it are not, and the
    reader takes the file for read to its end. *)
Theorem large_frame_ends_file {T} (decode : bytes -> result T unit) before large later :
  Forall (frame_ok DEFAULT_FRAME_LENGTH) before -> DEFAULT_FRAME_LENGTH < Z.of_nat (String.length large) ->
  Forall (frame_ok MAX_FRAME_LENGTH) (before ++ large :: later) ->
  exists s, file_bytes (mkFile (before ++ large :: later) true) = Some s /\
    parse_file decode s = omap (fun msg => match decode msg with Ok t => Some t | Err _ => None end) (String.list_ascii_of_string <$> before).
Proof.
  intros Hb Hl Hall. destruct (transport_ok _ Hall) as [s Es]. exists (gzip s). unfold file_bytes. cbn [f_frames]. rewrite Es. split; [done|].
  destruct (transport_app _ _ _ Es) as (s1 & s2 & E1 & E2 & ->). unfold parse_file, stream_source. rewrite gunzip_gzip. f_equal.
  rewrite (decode_transport before) by done. cbn [transport] in E2. destruct (ld_encode _ _) as [e|] eqn:E; [|done]. cbn in E2.
  destruct (transport later) as [m|]; [|done]. injection E2 as <-. rewrite (ld_decode_over MAX_FRAME_LENGTH DEFAULT_FRAME_LENGTH (String.list_ascii_of_string large) e); [|done|done|by rewrite list_ascii_length].
  rewrite list_fmap_compose, omap_app. cbn. by rewrite omap_ok, app_nil_r.
Qed.
End Pipeline.

(** ** The codec, byte by byte

    A head of four bytes, the most significant first. *)

Definition byte_of (n : Z) : ascii := ascii_of_N (Z.to_N (n mod 256)).

Definition byte_val (c : ascii) : Z := Z.of_N (N_of_ascii c).

Lemma byte_val_of n : byte_val (byte_of n) = n mod 256.
Proof.
  unfold byte_val, byte_of. pose proof (Z.mod_pos_bound n 256 ltac:(lia)). rewrite N_ascii_embedding by lia. lia.
Qed.

Definition head_bytes (n : Z) : bytes := [byte_of (n / 2 ^ 24); byte_of (n / 2 ^ 16); byte_of (n / 2 ^ 8); byte_of n].

Definition head_val (a b c d : ascii) : Z := byte_val a * 2 ^ 24 + byte_val b * 2 ^ 16 + byte_val c * 2 ^ 8 + byte_val d.

Lemma head_val_bytes n : 0 <= n < 2 ^ 32 -> head_val (byte_of (n / 2 ^ 24)) (byte_of (n / 2 ^ 16)) (byte_of (n / 2 ^ 8)) (byte_of n) = n.
Proof.
  intros Hn. unfold head_val. rewrite !byte_val_of. change (2 ^ 24) with 16777216. change (2 ^ 16) with 65536. change (2 ^ 8) with 256.
  change (2 ^ 32) with 4294967296 in Hn. Z.div_mod_to_equations. lia.
Qed.

(** Every frame takes at least the four bytes of its head. *)
Fixpoint decode_frames (fuel : nat) (limit : Z) (s : bytes) : list (result bytes unit) :=
  match fuel, s with
  | O, _ | _, [] => []
  | S fuel, a :: b :: c :: d :: rest =>
      let n := head_val a b c d in
      if limit <? n then [Err tt]
      else if Z.of_nat (length rest) <? n then [Err tt]
      else Ok (take (Z.to_nat n) rest) :: decode_frames fuel limit (drop (Z.to_nat n) rest)
  | _, _ => [Err tt]
  end.

Lemma decode_frames_fuel fuel fuel' limit s : (length s <= fuel)%nat -> (length s <= fuel')%nat -> decode_frames fuel limit s = decode_frames fuel' limit s.
Proof.
  revert fuel' s. induction fuel as [|fuel IH]; intros [|fuel'] s H1 H2; try done; [destruct s; [done|cbn in *; lia]..|].
  destruct s as [|a [|b [|c [|d rest]]]]; try done. cbn [decode_frames]. destruct (_ <? _); [done|]. destruct (_ <? _); [done|]. f_equal.
  cbn in H1, H2. apply IH; rewrite length_drop; lia.
Qed.

Definition encode_frame (limit : Z) (f : bytes) : option bytes :=
  if limit <? Z.of_nat (length f) then None else Some (head_bytes (Z.of_nat (length f)) ++ f).

Lemma encode_frame_ok limit f e : limit < 2 ^ 32 -> encode_frame limit f = Some e ->
  e = head_bytes (Z.of_nat (length f)) ++ f /\ 0 <= Z.of_nat (length f) < 2 ^ 32.
Proof. intros Hl. unfold encode_frame. destruct (Z.ltb_spec limit (Z.of_nat (length f))); [done|]. intros [= <-]. split; [done|lia]. Qed.

Lemma decode_head limit n rest : 0 <= n < 2 ^ 32 ->
  decode_frames (length (head_bytes n ++ rest)) limit (head_bytes n ++ rest) =
  if limit <? n then [Err tt] else if Z.of_nat (length rest) <? n then [Err tt]
  else Ok (take (Z.to_nat n) rest) :: decode_frames (length (drop (Z.to_nat n) rest)) limit (drop (Z.to_nat n) rest).
Proof.
  intros Hn. rewrite (decode_frames_fuel _ (S (3 + length rest))) by (cbn; lia). assert (length rest <= 3 + length rest)%nat as Hf by lia.
  revert Hf. generalize (3 + length rest)%nat as fuel. intros fuel Hf. unfold head_bytes. cbn [app decode_frames]. rewrite head_val_bytes by done.
  destruct (_ <? _); [done|]. destruct (_ <? _); [done|]. f_equal. apply decode_frames_fuel; [rewrite length_drop; lia|done].
Qed.

#[global] Program Instance big_endian_codec : LengthDelimitedCodec := {
  ld_encode := encode_frame;
  ld_decode limit s := decode_frames (length s) limit s
}.
Next Obligation. intros limit f. unfold encode_frame. destruct (Z.ltb_spec limit (Z.of_nat (length f))); split; try done; lia. Qed.
Next Obligation. done. Qed.
Next Obligation.
  intros limit limit' f e rest Hl E Hf. destruct (encode_frame_ok _ _ _ Hl E) as [-> Hn]. rewrite <- app_assoc, decode_head by done.
  rewrite (proj2 (Z.ltb_ge _ _)) by lia. rewrite (proj2 (Z.ltb_ge _ _)) by (rewrite length_app; lia).
  by rewrite Nat2Z.id, take_app_length, drop_app_length.
Qed.
Next Obligation.
  intros limit limit' f e rest Hl E Hf. destruct (encode_frame_ok _ _ _ Hl E) as [-> Hn]. rewrite <- app_assoc, decode_head by done.
  by rewrite (proj2 (Z.ltb_lt _ _)) by lia.
Qed.

(** Stored without compression. *)
#[global] Program Instance stored_gzip : Gzip := { gzip s := s; gunzip s := Some s }.
Next Obligation. done. Qed.


(** A message of 8 MiB and a byte. *)
Definition large_message : string := String.string_of_list_ascii (replicate (Z.to_nat (DEFAULT_FRAME_LENGTH + 1)) "a"%char).

Lemma large_message_length : Z.of_nat (String.length large_message) = DEFAULT_FRAME_LENGTH + 1.
Proof.
  unfold large_message. rewrite <- list_ascii_length, String.list_ascii_of_string_of_list_ascii, length_replicate. apply Z2Nat.id. done.
Qed.

Lemma large_frame_ends_file_witness :
  exists s, file_bytes (mkFile (["first"] ++ large_message :: ["last"]) true) = Some s /\
    parse_file (fun msg => Ok msg) s = omap (fun msg => match (Ok msg : result bytes unit) with Ok t => Some t | Err _ => None end) (String.list_ascii_of_string <$> ["first"]).
Proof.
  apply (large_frame_ends_file (fun msg => Ok msg) ["first"] large_message ["last"]).
  - repeat constructor. unfold frame_ok. vm_compute. discriminate.
  - rewrite large_message_length. reflexivity.
  - constructor; [unfold frame_ok; vm_compute; discriminate|]. constructor; [unfold frame_ok; rewrite large_message_length; discriminate|].
    repeat constructor; unfold frame_ok; vm_compute; discriminate.
Defined.
