(* ===== verification/FilePoller.v ===== *)
(** * The poller of files

    [file_store/src/file_info_poller.rs]: the files of a type are listed from a
    little before the last one seen, those not yet processed are queued, and one
    after the other goes through a channel to a consumer, which records the file
    in the transaction that has its effects.  A file whose listing is late, a
    restart and the periodic clean-up of the records are steps of the system. *)

From stdpp Require Import sorting.
From S2P Require Import Prelude Solana Text FileStoreTypes FileNames.

Open Scope Z_scope.
Open Scope oracle_scope.

(** ** The table [files_processed]

    The primary key is the name; the process is a column added later. *)

Record Row : Type := mkRow { w_process : string; w_type : string; w_timestamp : Z; w_processed_at : Z }.

Abbreviation files_processed := (gmap string Row).

Definition minutes (n : Z) : Z := n * 60 * nanos_per_sec.

(** The rows of a process and a type. *)
Definition rows_of (process file_type : string) (rows : files_processed) : list (string * Row) :=
  List.filter (fun r => String.eqb (w_process r.2) process && String.eqb (w_type r.2) file_type) (map_to_list rows).

Definition max_opt (o : option Z) (t : Z) : option Z := Some (match o with Some m => Z.max m t | None => t end).

(** [SELECT MAX(file_timestamp)] *)
Definition latest_timestamp (rows : files_processed) (process file_type : string) : option Z :=
  fold_left max_opt (w_timestamp ∘ snd <$> rows_of process file_type rows) None.

Definition exists_ (rows : files_processed) (process : string) (f : FileInfo) : bool :=
  match rows !! fi_key f with Some r => String.eqb (w_process r) process | None => false end.

(** [record]: the insert fails when the name is there. *)
Definition record (rows : files_processed) (process : string) (f : FileInfo) (now : Z) : result files_processed unit :=
  match rows !! fi_key f with
  | Some _ => Err tt
  | None => Ok (<[fi_key f := mkRow process (fi_prefix f) (fi_timestamp f) now]> rows)
  end.

Definition newer (a b : string * Row) : Prop := w_timestamp b.2 <= w_timestamp a.2.

#[global] Instance newer_dec a b : Decision (newer a b).
Proof. unfold newer. apply _. Defined.

(** [ORDER BY file_timestamp DESC OFFSET 100] *)
Definition old_rows (rows : files_processed) (process file_type : string) : list (string * Row) :=
  drop 100 (merge_sort newer (rows_of process file_type rows)).

Definition clean_rows (rows : files_processed) (process file_type : string) : files_processed :=
  foldr (fun r m => delete r.1 m) rows (old_rows rows process file_type).

(** ** The poller *)

Inductive LookbackBehavior : Type := StartAfter (start_after : Z) | MaxLookback (max_lookback : Z).

Record FileInfoPollerConfig : Type := mkPollerConfig {
  pc_prefix : string;
  pc_lookback : LookbackBehavior;
  pc_offset : Z;
  pc_queue_size : nat;
  pc_process_name : string
}.

(** The defaults of the builder. *)
Definition poller_config (prefix : string) (lookback : LookbackBehavior) : FileInfoPollerConfig :=
  mkPollerConfig prefix lookback (minutes 10) 5 "default".

Definition CACHE_TTL : Z := minutes (3 * 60).

(** [FileInfoPollerServer]; [v_held] is the file that [get_next_file] has taken from
    the queue while the channel has no room for it. *)
Record FileInfoPollerServer : Type := mkPoller {
  v_queue : list FileInfo;
  v_held : option FileInfo;
  v_latest : option Z;
  v_cache : gmap string Z      (** until when a name is cached *)
}.

Section Poller.
Context {chrono : Chrono} {B : Type} {store : ObjectStore B}.
Variable cfg : FileInfoPollerConfig.

(** [create] *)
Definition create (rows : files_processed) : FileInfoPollerServer :=
  mkPoller [] None (latest_timestamp rows (pc_process_name cfg) (pc_prefix cfg)) ∅.

Definition after (latest : option Z) (now : Z) : Z :=
  let latest_offset := (fun lt => lt - pc_offset cfg) <$> latest in
  match pc_lookback cfg with
  | StartAfter start_after => default start_after latest_offset
  | MaxLookback max_lookback =>
      let max_ts := now - max_lookback in
      default max_ts ((fun lt => Z.max lt max_ts) <$> latest_offset)
  end.

Definition cached (cache : gmap string Z) (now : Z) (key : string) : bool :=
  match cache !! key with Some until => now <? until | None => false end.

Definition is_already_processed (v : FileInfoPollerServer) (rows : files_processed) (now : Z) (f : FileInfo) : bool :=
  cached (v_cache v) now (fi_key f) || exists_ rows (pc_process_name cfg) f.

(** The loop over the listed files. *)
Fixpoint enqueue (v : FileInfoPollerServer) (rows : files_processed) (now : Z) (files : list FileInfo) : FileInfoPollerServer :=
  match files with
  | [] => v
  | f :: rest =>
      enqueue (if is_already_processed v rows now f then v
               else mkPoller (v_queue v ++ [f]) (v_held v) (Some (fi_timestamp f)) (v_cache v)) rows now rest
  end.

(** A listing of [get_next_file]; [None] is a panic. *)
Definition poll (v : FileInfoPollerServer) (rows : files_processed) (b : B) (now : Z) : option (result FileInfoPollerServer unit) :=
  match list_all b (pc_prefix cfg) (Some (after (v_latest v) now)) (Some now) with
  | None => None
  | Some r => Some (let? files := r in Ok (enqueue v rows now files))
  end.

(** [pop_front] *)
Definition pop (v : FileInfoPollerServer) : option FileInfoPollerServer :=
  match v_held v, v_queue v with
  | None, f :: rest => Some (mkPoller rest (Some f) (v_latest v) (v_cache v))
  | _, _ => None
  end.

(** A permit of the channel: the file is read, sent and cached. *)
Definition deliver (v : FileInfoPollerServer) (channel : list FileInfo) (now : Z) : option (FileInfoPollerServer * list FileInfo) :=
  match v_held v with
  | Some f =>
      if (length channel <? pc_queue_size cfg)%nat
      then Some (mkPoller (v_queue v) None (v_latest v) (<[fi_key f := now + CACHE_TTL]> (v_cache v)), channel ++ [f])
      else None
  | None => None
  end.

(** The timer of the clean-up: the branch of [select] that waits for a file and a
    permit is dropped, with the file it holds. *)
Definition clean_tick (v : FileInfoPollerServer) (rows : files_processed) : FileInfoPollerServer * files_processed :=
  (mkPoller (v_queue v) None (v_latest v) (v_cache v), clean_rows rows (pc_process_name cfg) (pc_prefix cfg)).

(** ** The system

    The poller, the files in the channel, the table, the bucket, the clock, and
    the files whose effects were committed, in the order of the commits. *)

Record System : Type := mkSystem {
  y_poller : FileInfoPollerServer;
  y_channel : list FileInfo;
  y_rows : files_processed;
  y_bucket : B;
  y_clock : Z;
  y_done : list FileInfo
}.

(** The consumer takes a file: its effects and its record are one transaction. *)
Definition consume (y : System) (now : Z) : option System :=
  match y_channel y with
  | [] => None
  | f :: rest =>
      match record (y_rows y) (pc_process_name cfg) f now with
      | Err _ => None
      | Ok rows => Some (mkSystem (y_poller y) rest rows (y_bucket y) now (y_done y ++ [f]))
      end
  end.

(** Restarting: what was queued, held or in the channel is gone. *)
Definition restart (y : System) (now : Z) : System :=
  mkSystem (create (y_rows y)) [] (y_rows y) (y_bucket y) now (y_done y).
End Poller.

Arguments mkSystem {B}.
Arguments y_poller {B}.
Arguments y_channel {B}.
Arguments y_rows {B}.
Arguments y_bucket {B}.
Arguments y_clock {B}.
Arguments y_done {B}.

(** ** Steps *)

Section Steps.
Context {chrono : Chrono} {B : Type} {store : ObjectStore B}.
Variable cfg : FileInfoPollerConfig.
Implicit Types (y : @System B) (f q : FileInfo) (v : FileInfoPollerServer).

Definition files y : list FileInfo := visible (y_bucket y) (pc_prefix cfg).

(** Before this time files are not asked for. *)
Definition lookback_floor (now : Z) : Z := match pc_lookback cfg with StartAfter t => t | MaxLookback d => now - d end.

(** The records of files less than two offsets before the last one are at most
    the hundred that a clean-up keeps. *)
Definition few_recent (rows : files_processed) : Prop :=
  forall m, latest_timestamp rows (pc_process_name cfg) (pc_prefix cfg) = Some m ->
  (length (List.filter (fun r => m - 2 * pc_offset cfg <? w_timestamp r.2)%Z (rows_of (pc_process_name cfg) (pc_prefix cfg) rows)) <= 100)%nat.

Inductive step : @System B -> @System B -> Prop :=
| step_upload y b f now : y_clock y <= now -> well_named b (pc_prefix cfg) -> visible b (pc_prefix cfg) ≡ₚ f :: files y ->
    (forall q, q ∈ files y -> fi_timestamp q < fi_timestamp f + pc_offset cfg) ->
    step y (mkSystem (y_poller y) (y_channel y) (y_rows y) b now (y_done y))
| step_poll y v now : y_clock y <= now -> v_queue (y_poller y) = [] -> v_held (y_poller y) = None ->
    time_i64 (after cfg (v_latest (y_poller y)) now) -> millis_13 (after cfg (v_latest (y_poller y)) now / nanos_per_milli) ->
    poll cfg (y_poller y) (y_rows y) (y_bucket y) now = Some (Ok v) ->
    step y (mkSystem v (y_channel y) (y_rows y) (y_bucket y) now (y_done y))
| step_pop y v : pop (y_poller y) = Some v -> step y (mkSystem v (y_channel y) (y_rows y) (y_bucket y) (y_clock y) (y_done y))
| step_deliver y v channel now : y_clock y <= now -> deliver cfg (y_poller y) (y_channel y) now = Some (v, channel) ->
    step y (mkSystem v channel (y_rows y) (y_bucket y) now (y_done y))
| step_consume y y' now : y_clock y <= now -> consume cfg y now = Some y' -> step y y'
| step_tick y now : y_clock y <= now -> v_held (y_poller y) = None -> few_recent (y_rows y) ->
    step y (mkSystem (clean_tick cfg (y_poller y) (y_rows y)).1 (y_channel y) (clean_tick cfg (y_poller y) (y_rows y)).2 (y_bucket y) now (y_done y))
| step_restart y now : y_clock y <= now -> step y (restart cfg y now).

(** Committed, in the channel, held and queued. *)
Definition seen y : list FileInfo := y_done y ++ y_channel y ++ option_list (v_held (y_poller y)) ++ v_queue (y_poller y).

(** A record of this process and type, of a file that was processed. *)
Definition record_of (done_ : list FileInfo) (k : string) (r : Row) : Prop :=
  w_process r = pc_process_name cfg /\ w_type r = pc_prefix cfg /\ exists p, p ∈ done_ /\ fi_key p = k /\ fi_timestamp p = w_timestamp r.

(** [pv_order]: whatever was taken up before a file, or while the file was not, is
    less than the offset ahead of it. *)
Record poller_inv y : Prop := mkPollerInv {
  pv_named : well_named (y_bucket y) (pc_prefix cfg);
  pv_seen f : f ∈ seen y -> f ∈ files y;
  pv_latest t : v_latest (y_poller y) = Some t -> exists q, q ∈ seen y /\ fi_timestamp q = t;
  pv_order f l1 l2 q : f ∈ files y -> lookback_floor (y_clock y) < fi_timestamp f -> seen y = l1 ++ l2 -> f ∉ l1 -> q ∈ l1 ->
    fi_timestamp q < fi_timestamp f + pc_offset cfg;
  pv_rows k r : y_rows y !! k = Some r -> record_of (y_done y) k r;
  pv_cache k t : v_cache (y_poller y) !! k = Some t -> exists p, p ∈ y_done y ++ y_channel y /\ fi_key p = k
}.

(** *** The table *)

Lemma fold_max_some o l : exists m, fold_left max_opt l (Some o) = Some m /\ o <= m /\ (forall t, t ∈ l -> t <= m) /\ (m = o \/ m ∈ l).
Proof.
  revert o. induction l as [|x l IH]; intros o; cbn [fold_left].
  { exists o. split; [done|]. split; [lia|]. split; [set_solver|by left]. }
  destruct (IH (Z.max o x)) as (m & E & H1 & H2 & H3). exists m. split; [done|]. split; [lia|]. split.
  - intros t [->|Ht]%elem_of_cons; [lia|by apply H2].
  - destruct H3 as [->|H3]; [|right; by right]. destruct (Z.max_spec o x) as [[_ ->]|[_ ->]]; [right; by left|by left].
Qed.

Lemma rows_of_elem process ty rows k r : (k, r) ∈ rows_of process ty rows <-> rows !! k = Some r /\ w_process r = process /\ w_type r = ty.
Proof.
  unfold rows_of. rewrite elem_of_filter_bool, elem_of_map_to_list. cbn. by rewrite andb_true_iff, !String.eqb_eq.
Qed.

Lemma latest_timestamp_spec rows process ty m : latest_timestamp rows process ty = Some m ->
  (exists k r, (k, r) ∈ rows_of process ty rows /\ w_timestamp r = m) /\ forall k r, (k, r) ∈ rows_of process ty rows -> w_timestamp r <= m.
Proof.
  unfold latest_timestamp. destruct (rows_of process ty rows) as [|[k0 r0] l]; [done|]. rewrite fmap_cons. cbn [fold_left].
  change (max_opt None ((w_timestamp ∘ snd) (k0, r0))) with (Some (w_timestamp r0)).
  destruct (fold_max_some (w_timestamp r0) (w_timestamp ∘ snd <$> l)) as (m' & -> & H1 & H2 & H3). intros [= ->]. split.
  - destruct H3 as [->|([k r] & -> & Hr)%list_elem_of_fmap]; [exists k0, r0; split; [by left|done]|exists k, r; split; [by right|done]].
  - intros k r [[= -> ->]|Hr]%elem_of_cons; [done|]. apply H2. apply list_elem_of_fmap. by exists (k, r).
Qed.

Lemma latest_timestamp_none rows process ty : latest_timestamp rows process ty = None -> rows_of process ty rows = [].
Proof.
  unfold latest_timestamp. destruct (rows_of process ty rows) as [|[k0 r0] l]; [done|]. rewrite fmap_cons. cbn [fold_left].
  change (max_opt None ((w_timestamp ∘ snd) (k0, r0))) with (Some (w_timestamp r0)).
  destruct (fold_max_some (w_timestamp r0) (w_timestamp ∘ snd <$> l)) as (m' & -> & _). done.
Qed.

Lemma foldr_delete_lookup (l : list (string * Row)) (rows : files_processed) k r : foldr (fun r m => delete r.1 m) rows l !! k = Some r -> rows !! k = Some r /\ k ∉ l.*1.
Proof.
  induction l as [|[k' r'] l IH]; cbn; [intros H; split; [done|set_solver]|]. intros [Hne H]%lookup_delete_Some.
  destruct (IH H) as [H1 H2]. split; [done|]. set_solver.
Qed.

Lemma clean_rows_sub (rows : files_processed) process ty k r : clean_rows rows process ty !! k = Some r -> rows !! k = Some r.
Proof. intros H. by apply foldr_delete_lookup in H as [? _]. Qed.

(** *** The files of the bucket *)

Lemma visible_key b f : prefix_ok (pc_prefix cfg) -> well_named b (pc_prefix cfg) -> f ∈ visible b (pc_prefix cfg) ->
  exists t size, (file_key (pc_prefix cfg) t, size) ∈ objects b /\ f = mkFileInfo (file_key (pc_prefix cfg) t) (pc_prefix cfg) (whole_millis t) size /\
    time_i64 t /\ millis_13 (t / nanos_per_milli).
Proof.
  intros Hp Hn Hf. unfold visible in Hf. apply list_elem_of_fmap in Hf as ([k size] & -> & Ho). apply elem_of_filter_bool in Ho as [Ho Hpre].
  destruct (Hn _ Ho Hpre) as (t & Ek & Ht & Hm). cbn [fst] in Ek. subst k. exists t, size. by rewrite object_file_key.
Qed.

Lemma sorted_app_lt {A} (R : A -> A -> Prop) l1 l2 x z : StronglySorted R (l1 ++ l2) -> x ∈ l1 -> z ∈ l2 -> R x z.
Proof.
  induction l1 as [|a l1 IH]; cbn; intros Hs Hx Hz; [set_solver|]. apply StronglySorted_inv in Hs as [Hs Ha].
  apply elem_of_cons in Hx as [->|Hx]; [|by apply IH]. rewrite Forall_forall in Ha. apply Ha. set_solver.
Qed.

(** The files of a listing are in the order of their times, and a name is there
    once. *)
Definition before_or_same (f g : FileInfo) : Prop := fi_timestamp f <= fi_timestamp g /\ fi_key f <> fi_key g.

Lemma filter_sorted {A} (R : A -> A -> Prop) (p : A -> bool) l : StronglySorted R l -> StronglySorted R (List.filter p l).
Proof.
  induction 1 as [|a l Hs IH Ha]; cbn; [constructor|]. destruct (p a); [|done]. constructor; [done|].
  apply Forall_forall. intros x Hx. apply elem_of_filter_bool in Hx as [Hx _]. rewrite Forall_forall in Ha. by apply Ha.
Qed.

Lemma visible_sorted b : prefix_ok (pc_prefix cfg) -> well_named b (pc_prefix cfg) -> StronglySorted before_or_same (visible b (pc_prefix cfg)).
Proof.
  intros Hp Hn. unfold visible. pose proof (filter_sorted _ (fun o => String.prefix (pc_prefix cfg) o.1) _ (objects_sorted b)) as Hs.
  assert (forall o, o ∈ List.filter (fun o => String.prefix (pc_prefix cfg) o.1) (objects b) -> exists t, o.1 = file_key (pc_prefix cfg) t /\ time_i64 t /\ millis_13 (t / nanos_per_milli)) as Hin.
  { intros o Ho. apply elem_of_filter_bool in Ho as [Ho Hpre]. by apply Hn. }
  induction Hs as [|[k size] l Hs IH Ha]; [constructor|]. rewrite fmap_cons. constructor; [apply IH; set_solver|].
  apply Forall_forall. intros f Hf. apply list_elem_of_fmap in Hf as ([k' size'] & -> & Ho). rewrite Forall_forall in Ha.
  specialize (Ha _ Ho). cbn in Ha. destruct (Hin (k, size) ltac:(by left)) as (t & Ek & Ht & Hm). destruct (Hin (k', size') ltac:(by right)) as (t' & Ek' & Ht' & Hm').
  cbn in Ek, Ek'. subst k k'. rewrite !object_file_key by done. pose proof Ha as Ha'. rewrite file_key_order in Ha by done. apply Z.ltb_lt in Ha.
  split; cbn; [unfold whole_millis, nanos_per_milli in *; lia|]. intros E. rewrite E in Ha'. unfold String.ltb in Ha'. by rewrite string_compare_refl in Ha'.
Qed.

Lemma sorted_key_inj (l : list FileInfo) f g : StronglySorted before_or_same l -> f ∈ l -> g ∈ l -> fi_key f = fi_key g -> f = g.
Proof.
  induction 1 as [|a l Hs IH Ha]; intros Hf Hg E; [set_solver|]. rewrite Forall_forall in Ha.
  apply elem_of_cons in Hf as [->|Hf], Hg as [->|Hg]; [done| | |by apply IH].
  - by destruct (Ha _ Hg).
  - by destruct (Ha _ Hf) as [_ []].
Qed.

Lemma collect_pages_all_ok lo hi pages fs : collect_pages lo hi pages = Some (Ok fs) -> Forall (fun r => exists os, r = Ok os) pages.
Proof.
  revert fs. induction pages as [|[os|e] pages IH]; intros fs; cbn [collect_pages]; [constructor| |done].
  destruct (page_files lo hi os); [|done]. cbn. destruct (collect_pages lo hi pages) as [[more|e]|]; [|done|done]. intros _.
  constructor; [by eexists|by eapply IH].
Qed.

Lemma list_all_ok b lo hi fs : prefix_ok (pc_prefix cfg) -> well_named b (pc_prefix cfg) -> time_i64 lo -> millis_13 (lo / nanos_per_milli) ->
  list_all b (pc_prefix cfg) (Some lo) (Some hi) = Some (Ok fs) -> fs = List.filter (in_window lo hi) (visible b (pc_prefix cfg)).
Proof.
  intros Hp Hn Ht Hm E. pose proof E as E'. unfold list_all in E'. apply collect_pages_all_ok in E'. cbn in E'.
  rewrite list_all_window in E by done. by injection E.
Qed.

(** *** A poll *)

Definition unprocessed v (rows : files_processed) (now : Z) f : bool := negb (is_already_processed cfg v rows now f).

Lemma enqueue_spec v rows now fs : enqueue cfg v rows now fs =
  mkPoller (v_queue v ++ List.filter (unprocessed v rows now) fs) (v_held v)
    (match last (List.filter (unprocessed v rows now) fs) with Some f => Some (fi_timestamp f) | None => v_latest v end) (v_cache v).
Proof.
  revert v. induction fs as [|f fs IH]; intros v; cbn [enqueue List.filter]; [rewrite app_nil_r; by destruct v|]. rewrite IH. clear IH.
  assert (unprocessed v rows now f = negb (is_already_processed cfg v rows now f)) as -> by done.
  destruct (is_already_processed cfg v rows now f) eqn:E; cbn [negb]; [done|].
  change (unprocessed (mkPoller (v_queue v ++ [f]) (v_held v) (Some (fi_timestamp f)) (v_cache v))) with (unprocessed v).
  cbn [v_queue v_held v_latest v_cache].
  rewrite <- app_assoc. f_equal. rewrite last_cons. by destruct (last _).
Qed.

(** *** The invariant *)

Hypothesis prefix_good : prefix_ok (pc_prefix cfg).
Hypothesis offset_pos : 0 < pc_offset cfg.

Lemma floor_mono t1 t2 : t1 <= t2 -> lookback_floor t1 <= lookback_floor t2.
Proof. unfold lookback_floor. destruct (pc_lookback cfg); lia. Qed.

(** A step that only moves files from one place to the next. *)
Lemma inv_move y y' : poller_inv y -> y_clock y <= y_clock y' -> y_bucket y' = y_bucket y -> seen y' = seen y ->
  v_latest (y_poller y') = v_latest (y_poller y) ->
  (forall k r, y_rows y' !! k = Some r -> record_of (y_done y') k r) ->
  (forall k t, v_cache (y_poller y') !! k = Some t -> exists p, p ∈ y_done y' ++ y_channel y' /\ fi_key p = k) -> poller_inv y'.
Proof.
  intros [H1 H2 H3 H4 H5 H6] Hc Hb Hs Hl Hr Hk. pose proof (floor_mono _ _ Hc).
  split; unfold files in *; rewrite ?Hb, ?Hs, ?Hl; try done. intros f l1 l2 q Hf Hfl. apply H4; [done|lia].
Qed.

(** A file that was not taken up and is late enough is in the window. *)
Lemma after_covers y f now : poller_inv y -> y_clock y <= now -> f ∈ files y -> lookback_floor now < fi_timestamp f -> f ∉ seen y ->
  after cfg (v_latest (y_poller y)) now < fi_timestamp f.
Proof.
  intros [H1 H2 H3 H4 H5 H6] Hc Hf Hfl Hn. pose proof (floor_mono _ _ Hc) as Hm.
  assert (forall t, v_latest (y_poller y) = Some t -> t - pc_offset cfg < fi_timestamp f) as Hlt.
  { intros t Ht. destruct (H3 t Ht) as (q & Hq & <-). pose proof (H4 f (seen y) [] q Hf ltac:(lia) ltac:(by rewrite app_nil_r) Hn Hq). lia. }
  unfold after, lookback_floor in *. destruct (v_latest (y_poller y)) as [t|]; cbn; [specialize (Hlt t eq_refl)|]; destruct (pc_lookback cfg); cbn in *; lia.
Qed.

(** A file that was not taken up is not taken for processed. *)
Lemma unseen_unprocessed y f now : poller_inv y -> f ∈ files y -> f ∉ y_done y ++ y_channel y -> unprocessed (y_poller y) (y_rows y) now f = true.
Proof.
  intros [H1 H2 H3 H4 H5 H6] Hf Hn. unfold unprocessed. apply negb_true_iff. unfold is_already_processed.
  assert (forall p, p ∈ y_done y ++ y_channel y -> fi_key p <> fi_key f) as Hk.
  { intros p Hp E. assert (p = f) as ->; [|done]. apply (sorted_key_inj (files y)); [by apply visible_sorted| |done|done].
    apply H2. unfold seen. rewrite app_assoc. set_solver. }
  apply orb_false_iff. split.
  - unfold cached. destruct (v_cache (y_poller y) !! fi_key f) eqn:E; [|done]. destruct (H6 _ _ E) as (p & Hp & Ek). by apply Hk in Hp.
  - unfold exists_. destruct (y_rows y !! fi_key f) eqn:E; [|done]. destruct (H5 _ _ E) as (_ & _ & p & Hp & Ek & _). exfalso. apply (Hk p); [set_solver|done].
Qed.

Lemma poll_queue y v now : poller_inv y -> v_queue (y_poller y) = [] -> v_held (y_poller y) = None ->
  time_i64 (after cfg (v_latest (y_poller y)) now) -> millis_13 (after cfg (v_latest (y_poller y)) now / nanos_per_milli) ->
  poll cfg (y_poller y) (y_rows y) (y_bucket y) now = Some (Ok v) ->
  let new := List.filter (unprocessed (y_poller y) (y_rows y) now) (List.filter (in_window (after cfg (v_latest (y_poller y)) now) now) (files y)) in
  v = mkPoller new None (match last new with Some f => Some (fi_timestamp f) | None => v_latest (y_poller y) end) (v_cache (y_poller y)).
Proof.
  intros Hi Hq Hh Ht Hm E. cbv zeta. unfold poll in E. destruct (list_all _ _ _ _) as [[fs|e]|] eqn:El; [|done|done]. cbn in E. injection E as <-.
  apply list_all_ok in El; [|done|apply Hi|done|done]. subst fs. rewrite enqueue_spec, Hq, Hh. done.
Qed.

Lemma inv_poll y v now : poller_inv y -> y_clock y <= now -> v_queue (y_poller y) = [] -> v_held (y_poller y) = None ->
  time_i64 (after cfg (v_latest (y_poller y)) now) -> millis_13 (after cfg (v_latest (y_poller y)) now / nanos_per_milli) ->
  poll cfg (y_poller y) (y_rows y) (y_bucket y) now = Some (Ok v) ->
  poller_inv (mkSystem v (y_channel y) (y_rows y) (y_bucket y) now (y_done y)).
Proof.
  intros Hi Hc Hq Hh Ht Hm E. apply poll_queue in E; [|done..]. cbv zeta in E. set (lo := after _ _ _) in *. set (new := List.filter _ (List.filter _ _)) in *.
  assert (seen y = y_done y ++ y_channel y) as Hs by (unfold seen; by rewrite Hh, Hq, !app_nil_r).
  assert (seen (mkSystem v (y_channel y) (y_rows y) (y_bucket y) now (y_done y)) = seen y ++ new) as Hs'.
  { rewrite Hs, E. unfold seen. cbn. by rewrite app_assoc. }
  assert (forall f, f ∈ new -> f ∈ files y) as Hnew. { intros f Hf. unfold new in Hf. rewrite !elem_of_filter_bool in Hf. tauto. }
  pose proof Hi as [H1 H2 H3 H4 H5 H6]. pose proof (floor_mono _ _ Hc) as Hfl. split; rewrite ?Hs'; cbn [y_poller y_channel y_rows y_bucket y_clock y_done]; try done.
  - intros f [Hf|Hf]%elem_of_app; [by apply H2|by apply Hnew].
  - intros t. rewrite E. cbn [v_latest]. destruct (last new) as [q|] eqn:El.
    + intros [= <-]. exists q. split; [|done]. apply elem_of_app. right. apply last_Some in El as [l' ->]. set_solver.
    + intros Hl. destruct (H3 t Hl) as (q & Hq' & Eq). exists q. set_solver.
  - intros f l1 l2 q Hf Hff Happ Hn Hq'. apply app_eq_inv in Happ as [(k & Hk1 & Hk2)|(k & -> & Hk2)]; [by apply (H4 f l1 k); try lia|].
    apply not_elem_of_app in Hn as [Hn Hnk]. apply elem_of_app in Hq' as [Hq'|Hq']; [by apply (H4 f (seen y) []); rewrite ?app_nil_r; try lia|].
    destruct (Z.le_gt_cases (fi_timestamp f) now) as [Hle|Hgt].
    + assert (f ∈ new) as Hfn.
      { unfold new. rewrite !elem_of_filter_bool. split_and!; [done| |apply unseen_unprocessed; [done|done|by rewrite <- Hs]].
        unfold in_window. rewrite andb_true_iff, Z.ltb_lt, Z.leb_le. split; [|done]. apply after_covers; try done. }
      rewrite Hk2 in Hfn. apply elem_of_app in Hfn as [?|Hfn]; [done|].
      assert (StronglySorted before_or_same new) as Hsort by (by apply filter_sorted, filter_sorted, visible_sorted).
      rewrite Hk2 in Hsort. destruct (sorted_app_lt _ _ _ _ _ Hsort Hq' Hfn). lia.
    + assert (q ∈ new) as Hqn by (rewrite Hk2; set_solver). unfold new in Hqn. rewrite !elem_of_filter_bool in Hqn. destruct Hqn as [[_ Hw] _].
      unfold in_window in Hw. apply andb_true_iff in Hw as [_ Hw%Z.leb_le]. lia.
  - rewrite E. done.
Qed.

Lemma inv_upload y b f now : poller_inv y -> y_clock y <= now -> well_named b (pc_prefix cfg) -> visible b (pc_prefix cfg) ≡ₚ f :: files y ->
  (forall q, q ∈ files y -> fi_timestamp q < fi_timestamp f + pc_offset cfg) ->
  poller_inv (mkSystem (y_poller y) (y_channel y) (y_rows y) b now (y_done y)).
Proof.
  intros [H1 H2 H3 H4 H5 H6] Hc Hn Hv Hlate. pose proof (floor_mono _ _ Hc).
  set (y' := mkSystem _ _ _ _ _ _). change (seen y) with (seen y') in *.
  assert (forall g, g ∈ files y' <-> g = f \/ g ∈ files y) as Hg. { intros g. unfold files at 1. cbn. by rewrite Hv, elem_of_cons. }
  split; try done.
  - intros g Hs. rewrite Hg. right. by apply H2.
  - intros g l1 l2 q Hgf Hfl Hs Hnot Hq. apply Hg in Hgf as [->|Hgf].
    + apply Hlate, H2. rewrite Hs. set_solver.
    + apply (H4 g l1 l2); [done|cbn in Hfl; lia|done|done|done].
Qed.

Lemma poller_inv_restart y now : poller_inv y -> y_clock y <= now -> poller_inv (restart cfg y now).
Proof.
  intros [H1 H2 H3 H4 H5 H6] Hc. pose proof (floor_mono _ _ Hc). unfold restart.
  assert (seen (mkSystem (create cfg (y_rows y)) [] (y_rows y) (y_bucket y) now (y_done y)) = y_done y) as Hs by (unfold seen; cbn; by rewrite !app_nil_r).
  split; rewrite ?Hs; cbn [y_poller y_channel y_rows y_bucket y_clock y_done]; try done.
  - intros f Hf. apply H2. unfold seen. set_solver.
  - cbn. intros t Ht. apply latest_timestamp_spec in Ht as [(k & r & Hr & <-) _]. apply rows_of_elem in Hr as [Hr _].
    destruct (H5 _ _ Hr) as (_ & _ & p & Hp & _ & Ep). by exists p.
  - intros f l1 l2 q Hf Hfl Hd Hn Hq. apply (H4 f l1 (l2 ++ y_channel y ++ option_list (v_held (y_poller y)) ++ v_queue (y_poller y))); [done|lia| |done|done].
    unfold seen. by rewrite Hd, <- app_assoc.
Qed.

Lemma record_of_app l l' k r : record_of l k r -> record_of (l ++ l') k r.
Proof. intros (H1 & H2 & p & Hp & H). split; [done|]. split; [done|]. exists p. split; [|done]. apply elem_of_app. by left. Qed.

Lemma step_inv y y' : poller_inv y -> step y y' -> poller_inv y'.
Proof.
  intros Hi Hs. destruct Hs as [y b f now Hc Hn Hv Hl|y v now Hc Hq Hh Ht Hm E|y v E|y v ch now Hc E|y y' now Hc E|y now Hc Hh Hf|y now Hc].
  - by apply (inv_upload _ _ f).
  - by apply inv_poll.
  - unfold pop in E. destruct (v_held (y_poller y)) eqn:Eh; [done|]. destruct (v_queue (y_poller y)) as [|f rest] eqn:Eq; [done|]. injection E as <-.
    apply (inv_move y); try done; [unfold seen; cbn; by rewrite Eh, Eq| |]; apply Hi.
  - unfold deliver in E. destruct (v_held (y_poller y)) as [f|] eqn:Eh; [|done]. destruct (_ <? _)%nat; [|done]. injection E as <- <-.
    apply (inv_move y); try done; [unfold seen; cbn; by rewrite Eh, <- !app_assoc|apply Hi|]. cbn.
    intros k t [(<- & _)|(_ & Hk)]%lookup_insert_Some; [exists f; set_solver|]. destruct (pv_cache _ Hi k t Hk) as (p & Hp & Ep). exists p. set_solver.
  - unfold consume in E. destruct (y_channel y) as [|f rest] eqn:Ech; [done|]. destruct (record _ _ _ _) as [rows|] eqn:Er; [|done]. injection E as <-.
    apply (inv_move y); try done; cbn.
    + unfold seen. cbn. by rewrite Ech, <- !app_assoc.
    + unfold record in Er. destruct (y_rows y !! fi_key f); [done|]. injection Er as <-.
      intros k r [(<- & <-)|(_ & Hk)]%lookup_insert_Some; [|by apply (record_of_app _ [f]), (pv_rows _ Hi)].
      assert (f ∈ files y) as Hf by (apply (pv_seen _ Hi); unfold seen; rewrite Ech; set_solver).
      destruct (visible_key _ _ prefix_good (pv_named _ Hi) Hf) as (t & size & _ & -> & _). split; [done|]. split; [done|]. eexists. split; [|done]. set_solver.
    + intros k t Hk. destruct (pv_cache _ Hi k t Hk) as (p & Hp & Ep). exists p. rewrite Ech in Hp. set_solver.
  - apply (inv_move y); try done; cbn.
    + unfold seen. cbn. by rewrite Hh.
    + intros k r Hk%clean_rows_sub. by apply (pv_rows _ Hi).
    + apply (pv_cache _ Hi).
  - by apply poller_inv_restart.
Qed.

Lemma steps_inv y y' : poller_inv y -> rtc step y y' -> poller_inv y'.
Proof. intros Hi Hs. induction Hs as [y|y y1 y' H1 Hs IH]; [done|]. by apply IH, (step_inv y). Qed.

(** *** Everything is processed *)

(** One file after the other goes through the channel. *)
Lemma drain_queue queue latest cache rows b now done_ : (0 < pc_queue_size cfg)%nat ->
  StronglySorted before_or_same queue -> (forall f, f ∈ queue -> rows !! fi_key f = None) -> exists v rows',
  rtc step (mkSystem (mkPoller queue None latest cache) [] rows b now done_) (mkSystem v [] rows' b now (done_ ++ queue)).
Proof.
  intros Hsize. revert latest cache rows done_. induction queue as [|f queue IH]; intros latest cache rows done_ Hs Hrows.
  { eexists _, _. rewrite app_nil_r. apply rtc_refl. }
  apply StronglySorted_inv in Hs as [Hs Hf]. rewrite Forall_forall in Hf.
  destruct (IH latest (<[fi_key f := now + CACHE_TTL]> cache) (<[fi_key f := mkRow (pc_process_name cfg) (fi_prefix f) (fi_timestamp f) now]> rows) (done_ ++ [f]) Hs) as (v & rows' & Hrun).
  { intros g Hg. rewrite lookup_insert_ne; [by apply Hrows; right|]. by apply Hf. }
  exists v, rows'. rewrite <- app_assoc in Hrun.
  eapply rtc_l; [by apply (step_pop _ (mkPoller queue (Some f) latest cache))|].
  eapply rtc_l; [apply (step_deliver _ (mkPoller queue None latest (<[fi_key f := now + CACHE_TTL]> cache)) [f] now); [done|]|].
  { unfold deliver. cbn [y_poller y_channel v_held length]. by rewrite (proj2 (Nat.ltb_lt _ _) Hsize). }
  eapply rtc_l; [eapply (step_consume _ _ now); [done|]|exact Hrun].
  unfold consume, record. cbn. by rewrite (Hrows f) by left.
Qed.

(** The system when it is first started. *)
Definition initial (b : B) (now : Z) : @System B := mkSystem (create cfg ∅) [] ∅ b now [].

Lemma initial_inv b now : well_named b (pc_prefix cfg) -> poller_inv (initial b now).
Proof.
  intros Hn. split; try done.
  - intros f Hf. unfold seen in Hf. cbn in Hf. set_solver.
  - intros f l1 l2 q _ _ Hs _ Hq. unfold seen in Hs. cbn in Hs. symmetry in Hs. apply app_nil in Hs as [-> ->]. set_solver.
Qed.

Lemma poll_succeeds v rows b now : let lo := after cfg (v_latest v) now in
  well_named b (pc_prefix cfg) -> time_i64 lo -> millis_13 (lo / nanos_per_milli) ->
  Forall (fun r => exists os, r = Ok os) (list_pages b (pc_prefix cfg) (Some (file_key (pc_prefix cfg) lo))) ->
  exists v', poll cfg v rows b now = Some (Ok v').
Proof. intros lo Hn Ht Hm Hp. unfold poll. rewrite list_all_window by done. by eexists. Qed.

Lemma drains y now : poller_inv y -> y_clock y <= now -> (0 < pc_queue_size cfg)%nat ->
  let lo := after cfg (latest_timestamp (y_rows y) (pc_process_name cfg) (pc_prefix cfg)) now in
  time_i64 lo -> millis_13 (lo / nanos_per_milli) ->
  Forall (fun r => exists os, r = Ok os) (list_pages (y_bucket y) (pc_prefix cfg) (Some (file_key (pc_prefix cfg) lo))) ->
  exists y', rtc step y y' /\ y_bucket y' = y_bucket y /\
    forall f, f ∈ files y -> lookback_floor now < fi_timestamp f <= now -> f ∈ y_done y'.
Proof.
  intros Hi Hc Hsize lo Ht Hm Hp. pose proof (poller_inv_restart y now Hi Hc) as Hi0. set (y0 := restart cfg y now) in *.
  destruct (poll_succeeds (y_poller y0) (y_rows y) (y_bucket y) now (pv_named _ Hi) Ht Hm Hp) as [v Ev].
  pose proof (poll_queue y0 v now Hi0 eq_refl eq_refl Ht Hm Ev) as Hv. cbv zeta in Hv.
  set (new := List.filter _ (List.filter _ _)) in Hv.
  assert (seen y0 = y_done y) as Hs by (unfold seen; cbn; by rewrite !app_nil_r).
  destruct (drain_queue new (match last new with Some f => Some (fi_timestamp f) | None => v_latest (y_poller y0) end) (v_cache (y_poller y0))
    (y_rows y) (y_bucket y) now (y_done y) Hsize) as (v' & rows' & Hrun).
  { apply filter_sorted, filter_sorted, visible_sorted; [done|apply Hi]. }
  { intros f Hf. unfold new in Hf. rewrite !elem_of_filter_bool in Hf. destruct Hf as [_ Hu]. unfold unprocessed, is_already_processed in Hu.
    apply negb_true_iff, orb_false_iff in Hu as [_ Hu]. unfold exists_ in Hu.
    change (y_rows y0) with (y_rows y) in Hu. destruct (y_rows y !! fi_key f) as [r|] eqn:Er; [|done].
    destruct (pv_rows _ Hi _ _ Er) as (Ep & _). by rewrite Ep, String.eqb_refl in Hu. }
  exists (mkSystem v' [] rows' (y_bucket y) now (y_done y ++ new)). split; [|split; [done|]].
  - eapply rtc_l; [by apply (step_restart _ now)|]. eapply rtc_l; [by apply (step_poll y0 v now)|]. rewrite Hv. exact Hrun.
  - intros f Hf [Hfl Hle]. cbn. apply elem_of_app. destruct (decide (f ∈ y_done y)) as [?|Hn]; [by left|right].
    unfold new. rewrite !elem_of_filter_bool. split_and!; [done| |].
    + unfold in_window. rewrite andb_true_iff, Z.ltb_lt, Z.leb_le. split; [|done]. apply after_covers; try done. by rewrite Hs.
    + apply unseen_unprocessed; [done|done|]. cbn. by rewrite app_nil_r.
Qed.


(** *** Nothing is processed twice *)

Lemma latest_ge (rows : files_processed) k r : rows !! k = Some r -> w_process r = pc_process_name cfg -> w_type r = pc_prefix cfg ->
  exists m, latest_timestamp rows (pc_process_name cfg) (pc_prefix cfg) = Some m /\ w_timestamp r <= m.
Proof.
  intros Hk Hp Ht. assert ((k, r) ∈ rows_of (pc_process_name cfg) (pc_prefix cfg) rows) as Hr by (by apply rows_of_elem).
  destruct (latest_timestamp rows _ _) as [m|] eqn:E.
  - exists m. split; [done|]. apply latest_timestamp_spec in E as [_ E]. by apply (E k).
  - apply latest_timestamp_none in E. rewrite E in Hr. set_solver.
Qed.

Lemma newer_sorted (l : list (string * Row)) : StronglySorted newer (merge_sort newer l).
Proof.
  apply StronglySorted_merge_sort; unfold newer; [intros ???; lia|]. intros a b. lia.
Qed.

(** What comes after the first hundred is old, when there are few recent rows. *)
Lemma old_rows_old (rows : files_processed) m k r :
  latest_timestamp rows (pc_process_name cfg) (pc_prefix cfg) = Some m -> few_recent rows ->
  (k, r) ∈ old_rows rows (pc_process_name cfg) (pc_prefix cfg) -> w_timestamp r + 2 * pc_offset cfg <= m.
Proof.
  intros Hm Hfew Hold. specialize (Hfew m Hm). unfold old_rows in Hold. set (l := merge_sort newer _) in Hold.
  assert (l ≡ₚ rows_of (pc_process_name cfg) (pc_prefix cfg) rows) as Hperm by apply merge_sort_Permutation.
  pose proof (newer_sorted (rows_of (pc_process_name cfg) (pc_prefix cfg) rows)) as Hs. fold l in Hs.
  set (p := fun r : string * Row => m - 2 * pc_offset cfg <? w_timestamp r.2) in Hfew.
  destruct (Z.le_gt_cases (w_timestamp r + 2 * pc_offset cfg) m) as [?|Hgt]; [done|]. exfalso.
  assert (length (List.filter p l) <= 100)%nat as Hlen by (by rewrite (Permutation_length (filter_perm p _ _ Hperm))).
  rewrite <- (take_drop 100 l) in Hs, Hlen. rewrite List.filter_app, length_app in Hlen.
  assert (length (take 100 l) = 100)%nat as Ht.
  { rewrite length_take. apply list_elem_of_lookup in Hold as [i Hi]. apply lookup_lt_Some in Hi. rewrite length_drop in Hi. lia. }
  assert (List.filter p (take 100 l) = take 100 l) as Hall.
  { apply forallb_filter_id. apply forallb_forall. intros x Hx. apply Z.ltb_lt. apply list_elem_of_In in Hx.
    pose proof (sorted_app_lt _ _ _ _ _ Hs Hx Hold) as Hn. unfold newer in Hn. cbn in Hn. lia. }
  rewrite Hall, Ht in Hlen. assert ((k, r) ∈ List.filter p (drop 100 l)) as Hin.
  { apply elem_of_filter_bool. split; [done|]. apply Z.ltb_lt. cbn. lia. }
  destruct (List.filter p (drop 100 l)); [set_solver|]. cbn in Hlen. lia.
Qed.

Lemma foldr_delete_none (l : list (string * Row)) (rows : files_processed) k r : rows !! k = Some r ->
  foldr (fun r m => delete r.1 m) rows l !! k = None -> exists r', (k, r') ∈ l.
Proof.
  induction l as [|[k' r'] l IH]; cbn; intros Hr Hn; [congruence|]. destruct (decide (k' = k)) as [->|Hne]; [exists r'; set_solver|].
  rewrite lookup_delete_ne in Hn by done. destruct (IH Hr Hn) as [r'' H]. exists r''. set_solver.
Qed.

Lemma old_rows_sub (rows : files_processed) k r : (k, r) ∈ old_rows rows (pc_process_name cfg) (pc_prefix cfg) -> rows !! k = Some r.
Proof.
  intros Ho. unfold old_rows in Ho. set (l := merge_sort newer _) in Ho.
  assert ((k, r) ∈ l) as Hl by (rewrite <- (take_drop 100 l); apply elem_of_app; by right).
  unfold l in Hl. rewrite merge_sort_Permutation in Hl. by apply rows_of_elem in Hl as [? _].
Qed.

Lemma clean_removed (rows : files_processed) m k r :
  latest_timestamp rows (pc_process_name cfg) (pc_prefix cfg) = Some m -> few_recent rows -> rows !! k = Some r ->
  clean_rows rows (pc_process_name cfg) (pc_prefix cfg) !! k = None -> w_timestamp r + 2 * pc_offset cfg <= m.
Proof.
  intros Hm Hfew Hr Hn. destruct (foldr_delete_none _ _ _ _ Hr Hn) as [r' Hold]. pose proof (old_rows_sub _ _ _ Hold) as Hr'.
  rewrite Hr in Hr'. injection Hr' as <-. by apply (old_rows_old rows m k).
Qed.

Lemma clean_latest (rows : files_processed) m :
  latest_timestamp rows (pc_process_name cfg) (pc_prefix cfg) = Some m -> few_recent rows ->
  latest_timestamp (clean_rows rows (pc_process_name cfg) (pc_prefix cfg)) (pc_process_name cfg) (pc_prefix cfg) = Some m.
Proof.
  intros Hm Hfew. pose proof (latest_timestamp_spec _ _ _ _ Hm) as [(k & r & Hr & Hrm) Hmax]. apply rows_of_elem in Hr as (Hr & Hp & Ht).
  destruct (clean_rows rows (pc_process_name cfg) (pc_prefix cfg) !! k) as [r'|] eqn:E.
  - pose proof (clean_rows_sub _ _ _ _ _ E). simplify_eq. destruct (latest_ge _ _ _ E Hp Ht) as (m' & Em' & Hle). rewrite Em'. f_equal.
    apply latest_timestamp_spec in Em' as [(k2 & r2 & Hr2 & <-) _]. apply rows_of_elem in Hr2 as (Hr2%clean_rows_sub & Hp2 & Ht2).
    pose proof (Hmax k2 r2 ltac:(by apply rows_of_elem)). lia.
  - pose proof (clean_removed _ _ _ _ Hm Hfew Hr E). lia.
Qed.

(** The files in the channel are still cached, and where the poller starts at a
    time no file is earlier. *)
Definition timely y : Prop :=
  (forall f, f ∈ y_channel y -> cached (v_cache (y_poller y)) (y_clock y) (fi_key f) = true) /\
  match pc_lookback cfg with StartAfter t => forall f, f ∈ files y -> t < fi_timestamp f | MaxLookback _ => True end.

Definition last_row y : option Z := latest_timestamp (y_rows y) (pc_process_name cfg) (pc_prefix cfg).

Record once_inv y : Prop := mkOnceInv {
  ov_inv : poller_inv y;
  ov_nodup : NoDup (seen y);
  ov_done p : p ∈ y_done y -> exists m, last_row y = Some m /\ fi_timestamp p <= m /\
    (is_Some (y_rows y !! fi_key p) \/ fi_timestamp p + 2 * pc_offset cfg <= m);
  ov_latest t p : v_latest (y_poller y) = Some t -> p ∈ seen y -> fi_timestamp p < t + pc_offset cfg;
  ov_none : v_latest (y_poller y) = None -> seen y = []
}.

Lemma after_ge y f now : after cfg (v_latest (y_poller y)) now < fi_timestamp f -> forall t, v_latest (y_poller y) = Some t -> t - pc_offset cfg < fi_timestamp f.
Proof. unfold after. intros H t Ht. rewrite Ht in H. cbn in H. destruct (pc_lookback cfg); cbn in H; lia. Qed.

Lemma after_floor y f now : timely y -> f ∈ files y -> after cfg (v_latest (y_poller y)) now < fi_timestamp f -> lookback_floor now < fi_timestamp f.
Proof.
  unfold after, lookback_floor. intros [_ Ht] Hf H. destruct (pc_lookback cfg); [by apply Ht|]. destruct (v_latest (y_poller y)); cbn in H; lia.
Qed.

(** What a poll queues is new. *)
Lemma poll_fresh y f now : once_inv y -> (forall g, g ∈ y_channel y -> cached (v_cache (y_poller y)) now (fi_key g) = true) ->
  after cfg (v_latest (y_poller y)) now < fi_timestamp f -> unprocessed (y_poller y) (y_rows y) now f = true -> f ∉ y_done y ++ y_channel y.
Proof.
  intros [Hi Hnd Hd Hl Hno] Hch Haft Hu. unfold unprocessed, is_already_processed in Hu. apply negb_true_iff, orb_false_iff in Hu as [Hu1 Hu2].
  intros [Hf|Hf]%elem_of_app; [|by rewrite (Hch f Hf) in Hu1].
  destruct (Hd f Hf) as (m & Em & Hle & [[r Hr]|Hold]).
  - unfold exists_ in Hu2. rewrite Hr in Hu2. destruct (pv_rows _ Hi _ _ Hr) as (Ep & _). by rewrite Ep, String.eqb_refl in Hu2.
  - unfold last_row in Em. apply latest_timestamp_spec in Em as [(k & r & Hr & <-) _]. apply rows_of_elem in Hr as [Hr _].
    destruct (pv_rows _ Hi _ _ Hr) as (_ & _ & p & Hp & _ & Ep). assert (p ∈ seen y) as Hps by (unfold seen; set_solver).
    destruct (v_latest (y_poller y)) as [t|] eqn:Et; [|rewrite (Hno eq_refl) in Hps; set_solver].
    pose proof (Hl t p eq_refl Hps). pose proof (after_ge y f now ltac:(by rewrite Et) t Et). lia.
Qed.

Lemma sorted_nodup (l : list FileInfo) : StronglySorted before_or_same l -> NoDup l.
Proof.
  induction 1 as [|a l Hs IH Ha]; constructor; [|done]. intros Hin. rewrite Forall_forall in Ha. by destruct (Ha _ Hin) as [_ []].
Qed.

Lemma sorted_last (l : list FileInfo) f q : StronglySorted before_or_same l -> last l = Some q -> f ∈ l -> fi_timestamp f <= fi_timestamp q.
Proof.
  intros Hs Hq Hf. apply last_Some in Hq as [l' ->]. apply elem_of_app in Hf as [Hf|Hf]; [|apply list_elem_of_singleton in Hf; by subst].
  by destruct (sorted_app_lt _ _ _ f q Hs Hf ltac:(by left)).
Qed.

Lemma once_poll y v now : once_inv y -> y_clock y <= now -> v_queue (y_poller y) = [] -> v_held (y_poller y) = None ->
  time_i64 (after cfg (v_latest (y_poller y)) now) -> millis_13 (after cfg (v_latest (y_poller y)) now / nanos_per_milli) ->
  poll cfg (y_poller y) (y_rows y) (y_bucket y) now = Some (Ok v) ->
  timely (mkSystem v (y_channel y) (y_rows y) (y_bucket y) now (y_done y)) ->
  once_inv (mkSystem v (y_channel y) (y_rows y) (y_bucket y) now (y_done y)).
Proof.
  intros Ho Hc Hq Hh Ht Hm E Htm. pose proof Ho as [Hi Hnd Hd Hl Hno].
  pose proof (inv_poll y v now Hi Hc Hq Hh Ht Hm E) as Hi'. apply poll_queue in E; [|done..]. cbv zeta in E. set (new := List.filter _ (List.filter _ _)) in *.
  assert (seen y = y_done y ++ y_channel y) as Hs by (unfold seen; by rewrite Hh, Hq, !app_nil_r). destruct Htm as [Hch Hst]. cbn in Hch. rewrite E in Hch. cbn in Hch.
  assert (seen (mkSystem v (y_channel y) (y_rows y) (y_bucket y) now (y_done y)) = seen y ++ new) as Hs'.
  { rewrite Hs, E. unfold seen. cbn. by rewrite app_assoc. }
  assert (StronglySorted before_or_same new) as Hsort by (apply filter_sorted, filter_sorted, visible_sorted; [done|apply Hi]).
  assert (forall f, f ∈ new -> f ∈ files y /\ f ∉ seen y /\ after cfg (v_latest (y_poller y)) now < fi_timestamp f /\ lookback_floor now < fi_timestamp f) as Hnew.
  { intros f Hf. unfold new in Hf. rewrite !elem_of_filter_bool in Hf. destruct Hf as [[Hf Hw] Hu].
    unfold in_window in Hw. apply andb_true_iff in Hw as [Hw%Z.ltb_lt _]. split; [done|]. split; [rewrite Hs; by apply (poll_fresh y f now)|]. split; [done|].
    unfold after, lookback_floor in *. destruct (pc_lookback cfg); [by apply Hst|]. destruct (v_latest (y_poller y)); cbn in Hw; lia. }
  split; [done|rewrite Hs'|exact Hd|rewrite Hs'; intros t p|rewrite Hs'].
  - apply NoDup_app. split; [done|]. split; [|by apply sorted_nodup]. intros f Hf Hfn. by destruct (Hnew f Hfn) as (_ & ? & _).
  - rewrite E. cbn. intros Hlt Hp. destruct (last new) as [q|] eqn:El.
    + injection Hlt as <-. apply elem_of_app in Hp as [Hp|Hp]; [|pose proof (sorted_last _ _ _ Hsort El Hp); lia].
      assert (q ∈ new) as Hqn by (apply last_Some in El as [l' ->]; set_solver). destruct (Hnew q Hqn) as (Hqf & Hqs & _ & Hqfl).
      pose proof (floor_mono _ _ Hc). apply (pv_order _ Hi q (seen y) [] p Hqf); [lia|by rewrite app_nil_r|done|done].
    + apply last_None in El. rewrite El, app_nil_r in Hp. by apply Hl.
  - rewrite E. cbn. destruct (last new) as [q|] eqn:El; [done|]. apply last_None in El. intros Hn. by rewrite El, (Hno Hn).
Qed.

(** A step that only moves files. *)
Lemma once_move y y' : once_inv y -> poller_inv y' -> seen y' = seen y -> v_latest (y_poller y') = v_latest (y_poller y) ->
  (forall p, p ∈ y_done y' -> exists m, last_row y' = Some m /\ fi_timestamp p <= m /\
    (is_Some (y_rows y' !! fi_key p) \/ fi_timestamp p + 2 * pc_offset cfg <= m)) -> once_inv y'.
Proof. intros [Hi Hnd Hd Hl Hno] Hi' Hs Hlt Hd'. by split; rewrite ?Hs, ?Hlt. Qed.

Lemma once_consume y y' now : once_inv y -> poller_inv y' -> consume cfg y now = Some y' -> once_inv y'.
Proof.
  intros Ho Hi' E. pose proof Ho as [Hi Hnd Hd Hl Hno]. unfold consume in E. destruct (y_channel y) as [|f rest] eqn:Ech; [done|].
  destruct (record _ _ _ _) as [rows|] eqn:Er; [|done]. injection E as <-. unfold record in Er. destruct (y_rows y !! fi_key f) eqn:Ef; [done|]. injection Er as <-.
  assert (f ∈ files y) as Hf by (apply (pv_seen _ Hi); unfold seen; rewrite Ech; set_solver).
  destruct (visible_key _ _ prefix_good (pv_named _ Hi) Hf) as (t & size & _ & Ekey & _).
  set (row := mkRow _ _ _ _) in *. set (rows := <[fi_key f := row]> (y_rows y)) in *.
  assert (forall k r, rows !! k = Some r -> exists m, latest_timestamp rows (pc_process_name cfg) (pc_prefix cfg) = Some m /\ w_timestamp r <= m) as Hge.
  { intros k r Hr. destruct (pv_rows _ Hi' k r Hr) as (Hp & Ht & _). by apply (latest_ge rows k). }
  destruct (Hge (fi_key f) row) as (m & Em & Hm); [by unfold rows; rewrite lookup_insert_eq|].
  apply (once_move y); [done|done|unfold seen; cbn; by rewrite Ech, <- !app_assoc|done|]. cbn [y_done y_rows]. unfold last_row. cbn [y_rows].
  intros p [Hp|Hp%list_elem_of_singleton]%elem_of_app.
  - destruct (Hd p Hp) as (m0 & Em0 & Hle & Hor). exists m. split; [done|].
    assert (m0 <= m) as Hmm.
    { apply latest_timestamp_spec in Em0 as [(k & r & Hr & <-) _]. apply rows_of_elem in Hr as [Hr _].
      destruct (Hge k r) as (m' & Em' & ?); [|congruence]. unfold rows. rewrite lookup_insert_ne; [done|]. congruence. }
    split; [lia|]. destruct Hor as [Hs|?]; [left|right; lia]. unfold rows. destruct (decide (fi_key p = fi_key f)) as [->|Hne]; [rewrite lookup_insert_eq; by eexists|].
    by rewrite lookup_insert_ne.
  - subst p. exists m. split; [done|]. split; [done|]. left. unfold rows. rewrite lookup_insert_eq. by eexists.
Qed.

Lemma once_tick y now : once_inv y -> few_recent (y_rows y) ->
  let y' := mkSystem (clean_tick cfg (y_poller y) (y_rows y)).1 (y_channel y) (clean_tick cfg (y_poller y) (y_rows y)).2 (y_bucket y) now (y_done y) in
  poller_inv y' -> v_held (y_poller y) = None -> once_inv y'.
Proof.
  intros Ho Hfew y' Hi' Hh. pose proof Ho as [Hi Hnd Hd Hl Hno]. apply (once_move y); [done|done|unfold seen; cbn; by rewrite Hh|done|].
  cbn. intros p Hp. destruct (Hd p Hp) as (m & Em & Hle & Hor). exists m. unfold last_row. cbn. split; [by apply clean_latest|]. split; [done|].
  destruct Hor as [[r Hr]|?]; [|by right]. destruct (clean_rows (y_rows y) (pc_process_name cfg) (pc_prefix cfg) !! fi_key p) eqn:Ec; [left; by eexists|right].
  pose proof (clean_removed _ _ _ _ Em Hfew Hr Ec). destruct (pv_rows _ Hi _ _ Hr) as (_ & _ & p' & Hp' & Ek & Et).
  assert (p' = p) as ->; [|lia]. apply (sorted_key_inj (files y)); [apply visible_sorted; [done|apply Hi]| | |done]; apply (pv_seen _ Hi); unfold seen; set_solver.
Qed.

Lemma once_step y y' : once_inv y -> step y y' -> timely y' -> once_inv y'.
Proof.
  intros Ho Hs Htm. pose proof (step_inv y y' (ov_inv _ Ho) Hs) as Hi'. pose proof Ho as [Hi Hnd Hd Hl Hno].
  destruct Hs as [y b f now Hc Hn Hv Hlate|y v now Hc Hq Hh Ht Hm E|y v E|y v ch now Hc E|y y' now Hc E|y now Hc Hh Hf|y now Hc].
  - by apply (once_move y).
  - by apply once_poll.
  - unfold pop in E. destruct (v_held (y_poller y)) eqn:Eh; [done|]. destruct (v_queue (y_poller y)) as [|f rest] eqn:Eq; [done|]. injection E as <-.
    apply (once_move y); try done. unfold seen. cbn. by rewrite Eh, Eq.
  - unfold deliver in E. destruct (v_held (y_poller y)) as [f|] eqn:Eh; [|done]. destruct (_ <? _)%nat; [|done]. injection E as <- <-.
    apply (once_move y); try done. unfold seen. cbn. by rewrite Eh, <- !app_assoc.
  - by apply (once_consume y y' now).
  - by apply once_tick.
  - assert (seen (restart cfg y now) = y_done y) as Hs by (unfold seen, restart; cbn; by rewrite !app_nil_r).
    split; [done|rewrite Hs|exact Hd|rewrite Hs; cbn; intros t p Et Hp|rewrite Hs; cbn; intros Et].
    + unfold seen in Hnd. by apply NoDup_app in Hnd as [? _].
    + destruct (Hd p Hp) as (m & Em & Hle & _). unfold last_row in Em. rewrite Et in Em. injection Em as <-. lia.
    + destruct (y_done y) as [|p l] eqn:Ed; [done|]. destruct (Hd p ltac:(by left)) as (m & Em & _). unfold last_row in Em. congruence.
Qed.

End Steps.

(** ** Concrete systems *)

Section Runs.
Context {chrono : Chrono} {B : Type} {store : ObjectStore B}.
Variable cfg : FileInfoPollerConfig.

Definition do_poll (y : @System B) (now : Z) : option (@System B) :=
  match poll cfg (y_poller y) (y_rows y) (y_bucket y) now with
  | Some (Ok v) => Some (mkSystem v (y_channel y) (y_rows y) (y_bucket y) now (y_done y))
  | _ => None
  end.

Definition do_pop (y : @System B) : option (@System B) :=
  v ← pop (y_poller y); Some (mkSystem v (y_channel y) (y_rows y) (y_bucket y) (y_clock y) (y_done y)).

Definition do_deliver (y : @System B) (now : Z) : option (@System B) :=
  vc ← deliver cfg (y_poller y) (y_channel y) now;
  Some (mkSystem (fst vc) (snd vc) (y_rows y) (y_bucket y) now (y_done y)).

Definition do_tick (y : @System B) (now : Z) : @System B :=
  mkSystem (clean_tick cfg (y_poller y) (y_rows y)).1 (y_channel y) (clean_tick cfg (y_poller y) (y_rows y)).2 (y_bucket y) now (y_done y).

Fixpoint times {A} (n : nat) (f : A -> option A) (a : A) : option A :=
  match n with O => Some a | S n => a' ← f a; times n f a' end.

(** A file from the queue to the channel. *)
Definition hand_over (now : Z) (y : @System B) : option (@System B) := y ← do_pop y; do_deliver y now.

(** A file from the queue through the channel to its record. *)
Definition serve (now : Z) (y : @System B) : option (@System B) := y ← hand_over now y; consume cfg y now.
End Runs.

Definition poc_instant : Z := 1658832000000 * 1000000.

Definition poc_poller : FileInfoPollerConfig := poller_config "iot_poc" (StartAfter (poc_instant - 1)).

(** Seven files, a quarter of an hour apart. *)
Definition quarter_hours : sorted_bucket :=
  exist _ [("iot_poc.1658832000000.gz", 1); ("iot_poc.1658832900000.gz", 2); ("iot_poc.1658833800000.gz", 3); ("iot_poc.1658834700000.gz", 4);
           ("iot_poc.1658835600000.gz", 5); ("iot_poc.1658836500000.gz", 6); ("iot_poc.1658837400000.gz", 7)] eq_refl.

Definition two_hours_later : Z := poc_instant + minutes 120.

(** The seven files are listed; the channel takes five and the sixth is held when
    the clean-up is due; then the consumer goes on. *)
Definition with_clean_up : option (@System sorted_bucket) :=
  y ← do_poll poc_poller (initial poc_poller quarter_hours poc_instant) two_hours_later;
  y ← times 5 (hand_over poc_poller two_hours_later) y;
  y ← do_pop y;
  let y := do_tick poc_poller y two_hours_later in
  y ← times 5 (fun y => consume poc_poller y two_hours_later) y;
  serve poc_poller two_hours_later y.

(** The names of the files processed, of those another listing queues, and of
    those that are queued by the first listing after a restart. *)
Definition outcome (y : @System sorted_bucket) : option (list string * list string * list string) :=
  y1 ← do_poll poc_poller y (two_hours_later + minutes 1);
  y2 ← do_poll poc_poller (restart poc_poller y two_hours_later) (two_hours_later + minutes 1);
  Some (fi_key <$> y_done y, fi_key <$> v_queue (y_poller y1), fi_key <$> v_queue (y_poller y2)).

(** the clean-up timer drops the file that waits for room in the channel: with
    more than an offset to the next file it is neither listed again nor found
    after a restart, and its contents are never processed. *)
Theorem clean_up_skips_file :
  (y ← with_clean_up; outcome y) =
  Some (["iot_poc.1658832000000.gz"; "iot_poc.1658832900000.gz"; "iot_poc.1658833800000.gz"; "iot_poc.1658834700000.gz";
         "iot_poc.1658835600000.gz"; "iot_poc.1658837400000.gz"], [], []).
Proof. vm_compute. reflexivity. Qed.

(** Two files, one on either side of the start. *)
Definition around_start : sorted_bucket :=
  exist _ [("iot_poc.1658831940000.gz", 1); ("iot_poc.1658832120000.gz", 2)] eq_refl.

(** the start of the look-back is not kept: it is used only until the first
    file, then the offset reaches back behind it, and a file older than the
    start is queued. *)
Theorem start_after_not_kept :
  (y1 ← do_poll poc_poller (initial poc_poller around_start two_hours_later) two_hours_later;
   y2 ← serve poc_poller two_hours_later y1;
   y3 ← do_poll poc_poller y2 two_hours_later;
   Some (pc_lookback poc_poller, fi_timestamp <$> v_queue (y_poller y1), fi_timestamp <$> v_queue (y_poller y3))) =
  Some (StartAfter (poc_instant - 1), [poc_instant + minutes 2], [poc_instant - minutes 1]).
Proof. vm_compute. reflexivity. Qed.

Lemma around_start_named : well_named around_start "iot_poc".
Proof.
  intros o Ho _. cbn in Ho. repeat (apply elem_of_cons in Ho as [->|Ho]); [| |by apply not_elem_of_nil in Ho].
  - exists (poc_instant - minutes 1). split; [vm_compute; reflexivity|]. unfold time_i64, millis_13. vm_compute. intuition congruence.
  - exists (poc_instant + minutes 2). split; [vm_compute; reflexivity|]. unfold time_i64, millis_13. vm_compute. intuition congruence.
Qed.

Lemma iot_poc_prefix : prefix_ok "iot_poc".
Proof. split; [discriminate|]. repeat constructor. Qed.


(** A poller that looks back a day. *)
Definition day_poller : FileInfoPollerConfig := poller_config "iot_poc" (MaxLookback (minutes 1440)).

