(* ===== verification/IotDensity.v ===== *)
(** * Transmit scaling

    [iot_verifier/src/hex_density.rs], [iot_verifier/src/tx_scaler.rs],
    [iot_verifier/src/gateway_updater.rs] and the table [last_beacon]: the active
    gateways are counted in hexagons, the counts are rolled up resolution by
    resolution with a limit that depends on the neighbours, and the product of
    the clipped shares is the scale of a hexagon.  The geometry of [h3o] is a
    parameter.  The maps of the source have no order, so the orders in which their
    keys come are arguments. *)

From Stdlib Require Import QArith Qabs Qround Lqa.
From S2P Require Import Prelude Solana Text FileStoreTypes Decimal IotReports DenyList IotPoc IotReportTable IotRunner.

Open Scope Z_scope.
Open Scope oracle_scope.

(** ** [h3o]

    Cells with their resolution, index, parents and neighbours.  A parent is at the
    resolution asked for, a neighbour at that of the cell. *)
Class HexGrid (Cell : Type) `{Countable Cell} : Type := {
  hx_try_from : Z -> option Cell;
  hx_index : Cell -> Z;
  hx_res : Cell -> Z;
  hx_parent : Cell -> Z -> option Cell;
  grid_disk : Cell -> list Cell;        (* [grid_disk(1)] *)
  hx_parent_res c r p : hx_parent c r = Some p -> hx_res p = r;
  grid_disk_res c x : x ∈ grid_disk c -> hx_res x = hx_res c;
  hx_index_try_from i c : hx_try_from i = Some c -> hx_index c = i
}.

(** ** Configuration *)

Record HexResConfig : Type := mkHexRes { hr_neighbors : Z; hr_target : Z; hr_max : Z }.

Definition MAX_RES : Z := 11.
Definition USED_RES : list Z := [10; 9; 8; 7; 6; 5; 4].
Definition SCALING_RES : list Z := [13; 12; 11; 10; 9; 8; 7; 6; 5; 4].

(** [HIP104_RES_CONFIG]; a resolution that is not there is a panic, and none is
    asked for. *)
Definition HIP104_RES_CONFIG (res : Z) : HexResConfig :=
  if res =? 4 then mkHexRes 2 500 1000
  else if res =? 5 then mkHexRes 4 100 200
  else if res =? 6 then mkHexRes 4 25 50
  else if res =? 7 then mkHexRes 4 5 10
  else mkHexRes 2 1 1.

Definition get_res_tgt (res : Z) : Z := hr_target (HIP104_RES_CONFIG res).

Definition limit (res occupied_count : Z) : Z :=
  let res_config := HIP104_RES_CONFIG res in
  let occupied_neighbor_diff := saturating_sub occupied_count (hr_neighbors res_config) in
  let max := Z.max (occupied_neighbor_diff + 1) 1 in
  Z.min (hr_max res_config) (hr_target res_config * max).

Section Density.
Context {Cell : Type} `{Countable Cell} {grid : HexGrid Cell} {dec : Type} {D : Decimal dec}.
Implicit Types (u c : gmap Cell Z) (cell : Cell).

Record GlobalHexMap : Type := mkGlobal {
  clipped_hexes : gmap Cell Z;
  unclipped_hexes : gmap Cell Z;
  asserted_hexes : list Cell
}.

Definition global_new : GlobalHexMap := mkGlobal ∅ ∅ [].

(** [.entry(k).and_modify(|count| *count += n).or_insert(n)] *)
Definition add_count (k : Cell) (n : Z) (m : gmap Cell Z) : gmap Cell Z :=
  <[k := match m !! k with Some count => count + n | None => n end]> m.

Definition increment_unclipped (g : GlobalHexMap) (index : Z) : GlobalHexMap :=
  match hx_try_from index with
  | Some cell =>
      match hx_parent cell MAX_RES with
      | Some parent =>
          mkGlobal (add_count parent 1 (clipped_hexes g)) (add_count parent 1 (unclipped_hexes g)) (asserted_hexes g ++ [cell])
      | None => g
      end
  | None => g
  end.

Definition rollup_child_count (u c : gmap Cell Z) (cell parent : Cell) : gmap Cell Z * gmap Cell Z :=
  let cell_count := default 0 (c !! cell) in
  (add_count parent cell_count u, add_count parent cell_count c).

Definition occupied_count (cell_map : gmap Cell Z) (hex : Cell) (density_tgt : Z) : Z :=
  fold_left (fun count cell =>
    match cell_map !! cell with
    | Some population => if density_tgt <=? population then count + 1 else count
    | None => count
    end) (grid_disk hex) 0.

(** [.unique()]: the first of equal elements. *)
Fixpoint unique (l : list Cell) : list Cell :=
  match l with
  | [] => []
  | x :: rest => x :: List.filter (fun y => negb (bool_decide (y = x))) (unique rest)
  end.

(** The first half of a resolution: the counts of the cells go to their parents,
    which are the cells of the resolution. *)
Fixpoint rollup (res : Z) (u c : gmap Cell Z) (cells : list Cell) : gmap Cell Z * gmap Cell Z * list Cell :=
  match cells with
  | [] => (u, c, [])
  | cell :: rest =>
      match hx_parent cell res with
      | Some parent =>
          let '(u, c) := rollup_child_count u c cell parent in
          let '(u, c, parents) := rollup res u c rest in (u, c, parent :: parents)
      | None => rollup res u c rest
      end
  end.

(** The second half: one cell after the other is clipped. *)
Definition clip_cell (res : Z) (u c : gmap Cell Z) (parent_cell : Cell) : gmap Cell Z :=
  match u !! parent_cell with
  | Some count => <[parent_cell := Z.min (limit res (occupied_count c parent_cell (get_res_tgt res))) count]> c
  | None => c
  end.

Definition reduce_res (acc : gmap Cell Z * gmap Cell Z * list Cell) (res : Z) : gmap Cell Z * gmap Cell Z * list Cell :=
  let '(u, c, hexes_at_res) := acc in
  let '(u, c, parents) := rollup res u c hexes_at_res in
  let hexes_at_res := unique parents in
  (u, fold_left (clip_cell res u) hexes_at_res c, hexes_at_res).

Definition reduce_hex_res (u c : gmap Cell Z) (hex_list : list Cell) : gmap Cell Z * gmap Cell Z :=
  (fold_left reduce_res USED_RES (u, c, hex_list)).1.

(** [reduce_global], [keys] being the keys of the unclipped map in some order. *)
Definition reduce_global (g : GlobalHexMap) (keys : list Cell) : GlobalHexMap :=
  let '(u, c) := reduce_hex_res (unclipped_hexes g) (clipped_hexes g) keys in
  mkGlobal c u (asserted_hexes g).

Definition scale_step (g : GlobalHexMap) (hex : Cell) (scale : dec) (res : Z) : dec :=
  match hx_parent hex res with
  | None => scale
  | Some parent =>
      match unclipped_hexes g !! parent, clipped_hexes g !! parent with
      | Some unclipped, Some clipped =>
          (scale * (dec_new (as_i64 clipped) SCALING_PRECISION / dec_new (as_i64 unclipped) SCALING_PRECISION))%dec
      | _, _ => scale
      end
  end.

Definition hex_scale (g : GlobalHexMap) (hex : Cell) : dec :=
  round_dp SCALING_PRECISION MidpointNearestEven (fold_left (scale_step g hex) SCALING_RES (dec_new 10 1)).

Definition compute_hex_density_map (g : GlobalHexMap) : gmap Z dec :=
  fold_left (fun m hex => <[hx_index hex := hex_scale g hex]> m) (asserted_hexes g) ∅.
End Density.

(** ** Order does not matter *)

Lemma fold_left_permutation {A S} (P : A -> Prop) (f : S -> A -> S) (l l' : list A) s :
  (forall s a b, P a -> P b -> f (f s a) b = f (f s b) a) -> Forall P l -> l ≡ₚ l' -> fold_left f l s = fold_left f l' s.
Proof.
  intros Hc HP Hp. revert s HP. induction Hp as [|x l l' Hp IH|x z l|l1 l2 l3 H1 IH1 H2 IH2]; intros s HP; cbn [fold_left]; [done| | |].
  - apply Forall_cons in HP as [_ HP]. by apply IH.
  - apply Forall_cons in HP as [Hx HP]. apply Forall_cons in HP as [Hz _]. by rewrite Hc.
  - rewrite IH1 by done. apply IH2. by rewrite <- H1.
Qed.

Section Order.
Context {Cell : Type} `{Countable Cell} {grid : HexGrid Cell}.
Implicit Types (u c m : gmap Cell Z) (cell : Cell).

Lemma add_count_lookup k n m x : add_count k n m !! x = if decide (x = k) then Some (default 0 (m !! k) + n) else m !! x.
Proof.
  unfold add_count. case_decide as Hx; [subst; rewrite lookup_insert_eq|by rewrite lookup_insert_ne]. by destruct (m !! k).
Qed.

Lemma add_count_comm k1 n1 k2 n2 m : add_count k1 n1 (add_count k2 n2 m) = add_count k2 n2 (add_count k1 n1 m).
Proof.
  apply map_eq. intros x. rewrite !add_count_lookup. repeat case_decide; subst; try done; cbn; f_equal; lia.
Qed.

Definition rollup_step (res : Z) (uc : gmap Cell Z * gmap Cell Z) cell : gmap Cell Z * gmap Cell Z :=
  match hx_parent cell res with Some parent => rollup_child_count uc.1 uc.2 cell parent | None => uc end.

Lemma rollup_fold res u c cells : rollup res u c cells =
  (fold_left (rollup_step res) cells (u, c), omap (fun cell => hx_parent cell res) cells).
Proof.
  revert u c. induction cells as [|cell cells IH]; intros u c; [done|]. cbn [rollup fold_left omap list_omap].
  assert (rollup_step res (u, c) cell = match hx_parent cell res with Some parent => rollup_child_count u c cell parent | None => (u, c) end) as -> by done.
  destruct (hx_parent cell res) as [p|]; [|apply IH]. destruct (rollup_child_count u c cell p) as [u1 c1]. rewrite IH. by destruct (fold_left _ _ _).
Qed.

Lemma rollup_step_comm res uc a b : hx_res a <> res -> hx_res b <> res ->
  rollup_step res (rollup_step res uc a) b = rollup_step res (rollup_step res uc b) a.
Proof.
  intros Ha Hb. unfold rollup_step. destruct (hx_parent a res) as [p|] eqn:Ep, (hx_parent b res) as [q|] eqn:Eq; try done.
  apply hx_parent_res in Ep, Eq. unfold rollup_child_count. cbn [fst snd].
  rewrite !add_count_lookup, !decide_False by congruence. f_equal; apply add_count_comm.
Qed.

(** ** Clipping *)

Definition populated (tgt : Z) m cell : bool := match m !! cell with Some population => tgt <=? population | None => false end.

Lemma occupied_ext tgt m m' hex : (forall x, x ∈ grid_disk hex -> populated tgt m x = populated tgt m' x) ->
  occupied_count m hex tgt = occupied_count m' hex tgt.
Proof.
  unfold occupied_count. generalize 0 as n. induction (grid_disk hex) as [|x l IH]; intros n Hx; [done|]. cbn [fold_left].
  assert ((match m !! x with Some population => if tgt <=? population then n + 1 else n | None => n end) =
          (match m' !! x with Some population => if tgt <=? population then n + 1 else n | None => n end)) as ->.
  { specialize (Hx x ltac:(by left)). unfold populated in Hx. destruct (m !! x), (m' !! x); [by rewrite Hx|by rewrite Hx|by rewrite <- Hx|done]. }
  apply IH. intros y Hy. apply Hx. by right.
Qed.

Lemma limit_target res n : get_res_tgt res <= limit res n.
Proof.
  unfold limit, get_res_tgt, HIP104_RES_CONFIG. repeat (destruct (res =? _); [cbn; lia|]). cbn. lia.
Qed.

Lemma limit_pos res n : 1 <= limit res n.
Proof.
  pose proof (limit_target res n). unfold get_res_tgt, HIP104_RES_CONFIG in *. repeat (destruct (res =? _); [cbn in *; lia|]). cbn in *. lia.
Qed.

(** All cells at once, on the unclipped counts. *)
Definition clip_at_once (res : Z) u c (cells : list Cell) : gmap Cell Z :=
  foldr (fun p m => match u !! p with
                    | Some count => <[p := Z.min (limit res (occupied_count u p (get_res_tgt res))) count]> m
                    | None => m
                    end) c cells.

Lemma clip_at_once_lookup res u c cells x : clip_at_once res u c cells !! x =
  match u !! x with
  | Some count => if decide (x ∈ cells) then Some (Z.min (limit res (occupied_count u x (get_res_tgt res))) count) else c !! x
  | None => c !! x
  end.
Proof.
  induction cells as [|p cells IH]; cbn [clip_at_once foldr]; [by destruct (u !! x)|]. fold (clip_at_once res u c cells).
  destruct (decide (x = p)) as [->|Hx].
  - destruct (u !! p) as [n|] eqn:E; [|done]. rewrite lookup_insert_eq. by rewrite decide_True by left.
  - destruct (u !! p) as [n|] eqn:E; [rewrite lookup_insert_ne by done|]; rewrite IH; (destruct (u !! x); [|done]); repeat case_decide; set_solver.
Qed.

(** A count at its limit is as populated as it was. *)
Lemma clip_populated res n count : (get_res_tgt res <=? Z.min (limit res n) count) = (get_res_tgt res <=? count).
Proof. pose proof (limit_target res n). destruct (Z.leb_spec (get_res_tgt res) count), (Z.leb_spec (get_res_tgt res) (Z.min (limit res n) count)); lia. Qed.

(** Clipping one after the other, in any order, is clipping all at once. *)
Lemma clip_cells_at_once res u c cells : NoDup cells -> (forall p x, p ∈ cells -> x ∈ grid_disk p -> c !! x = u !! x) ->
  fold_left (clip_cell res u) cells c = clip_at_once res u c cells.
Proof.
  intros _ Hag. set (occ := fun p => occupied_count u p (get_res_tgt res)).
  assert (forall l done_ m, (forall p, p ∈ l -> p ∈ cells) ->
    (forall x, m !! x = clip_at_once res u c done_ !! x) -> forall x, fold_left (clip_cell res u) l m !! x = clip_at_once res u c (l ++ done_) !! x) as Hgen.
  { induction l as [|p l IH]; intros done_ m Hl Hm x; cbn [fold_left app]; [apply Hm|].
    rewrite (IH (p :: done_)); [|intros q Hq; apply Hl; by right|].
    { rewrite !clip_at_once_lookup. destruct (u !! x); [|done]. repeat case_decide; set_solver. }
    intros z. unfold clip_cell. assert (occupied_count m p (get_res_tgt res) = occ p) as ->.
    { apply occupied_ext. intros y Hy. unfold populated. rewrite Hm, clip_at_once_lookup.
      rewrite (Hag p y (Hl p ltac:(by left)) Hy). destruct (u !! y) as [k|]; [|done]. case_decide; [apply clip_populated|done]. }
    rewrite clip_at_once_lookup. destruct (u !! p) as [k|] eqn:Ep.
    - destruct (decide (z = p)) as [->|Hz].
      + rewrite lookup_insert_eq, Ep. by rewrite decide_True by left.
      + rewrite lookup_insert_ne by done. rewrite Hm, clip_at_once_lookup. destruct (u !! z); [|done]. repeat case_decide; set_solver.
    - rewrite Hm, clip_at_once_lookup. destruct (u !! z) eqn:Ez; [|done]. repeat case_decide; set_solver. }
  apply map_eq. intros x. rewrite (Hgen cells [] c); [by rewrite app_nil_r|done|done].
Qed.

Lemma clip_at_once_ext res u c l l' : (forall x, x ∈ l <-> x ∈ l') -> clip_at_once res u c l = clip_at_once res u c l'.
Proof.
  intros Hl. apply map_eq. intros x. rewrite !clip_at_once_lookup. destruct (u !! x); [|done]. repeat case_decide; naive_solver.
Qed.

(** ** Resolution by resolution *)

Lemma elem_of_unique (l : list Cell) x : x ∈ unique l <-> x ∈ l.
Proof.
  induction l as [|a l IH]; cbn [unique]; [done|]. rewrite !elem_of_cons, elem_of_filter_bool, IH, negb_true_iff, bool_decide_eq_false.
  destruct (decide (x = a)); naive_solver.
Qed.

Lemma NoDup_unique (l : list Cell) : NoDup (unique l).
Proof.
  induction l as [|a l IH]; cbn [unique]; constructor.
  - rewrite elem_of_filter_bool, negb_true_iff, bool_decide_eq_false. naive_solver.
  - apply NoDup_ListNoDup, List.NoDup_filter. by apply NoDup_ListNoDup.
Qed.

Lemma unique_permutation (l l' : list Cell) : l ≡ₚ l' -> unique l ≡ₚ unique l'.
Proof. intros Hl. apply NoDup_Permutation; [apply NoDup_unique..|]. intros x. by rewrite !elem_of_unique, Hl. Qed.

(** At a resolution the counts of both maps agree, below it there are none. *)
Definition fresh_below (r : Z) u c : Prop := forall x, hx_res x < r -> u !! x = None /\ c !! x = None.

Record level_inv (r : Z) (acc : gmap Cell Z * gmap Cell Z * list Cell) : Prop := mkLevelInv {
  li_cells x : x ∈ acc.2 -> hx_res x = r;
  li_nodup : NoDup acc.2;
  li_fresh : fresh_below r acc.1.1 acc.1.2
}.

Lemma rollup_other res cells uc x : hx_res x <> res ->
  (fold_left (rollup_step res) cells uc).1 !! x = uc.1 !! x /\ (fold_left (rollup_step res) cells uc).2 !! x = uc.2 !! x.
Proof.
  intros Hx. revert uc. induction cells as [|cell cells IH]; intros uc; cbn [fold_left]; [done|]. rewrite !(proj1 (IH _)), !(proj2 (IH _)).
  unfold rollup_step. destruct (hx_parent cell res) as [p|] eqn:Ep; [|done]. apply hx_parent_res in Ep. cbn. rewrite !add_count_lookup, !decide_False by congruence. done.
Qed.

Lemma rollup_agree res cells uc x : (forall x, hx_res x = res -> uc.1 !! x = uc.2 !! x) -> hx_res x = res ->
  (fold_left (rollup_step res) cells uc).1 !! x = (fold_left (rollup_step res) cells uc).2 !! x.
Proof.
  intros Hag Hx. revert uc Hag. induction cells as [|cell cells IH]; intros uc Hag; cbn [fold_left]; [by apply Hag|]. apply IH. intros z Hz.
  unfold rollup_step. destruct (hx_parent cell res) as [p|] eqn:Ep; [|by apply Hag]. cbn. rewrite !add_count_lookup.
  case_decide; [|by apply Hag]. subst z. by rewrite (Hag p Hz).
Qed.

(** The reference for a resolution. *)
Definition level_at_once (acc : gmap Cell Z * gmap Cell Z * list Cell) (res : Z) : gmap Cell Z * gmap Cell Z * list Cell :=
  let '(u, c, cells) := acc in
  let uc := fold_left (rollup_step res) cells (u, c) in
  let parents := unique (omap (fun cell => hx_parent cell res) cells) in
  (uc.1, clip_at_once res uc.1 uc.2 parents, parents).

Definition reduce_reference u c (cells : list Cell) : gmap Cell Z * gmap Cell Z := (fold_left level_at_once USED_RES (u, c, cells)).1.

Lemma parents_res res cells x : x ∈ unique (omap (fun cell => hx_parent cell res) cells) -> hx_res x = res.
Proof. rewrite elem_of_unique, list_elem_of_omap. intros (cell & _ & Ep). by apply hx_parent_res in Ep. Qed.

Lemma reduce_res_level r res acc cells' : res < r -> level_inv r acc -> acc.2 ≡ₚ cells' ->
  (reduce_res acc res).1 = (level_at_once (acc.1, cells') res).1 /\ (reduce_res acc res).2 ≡ₚ (level_at_once (acc.1, cells') res).2 /\
  level_inv res (reduce_res acc res).
Proof.
  destruct acc as [[u c] cells]. cbn [fst snd]. intros Hr [Hc Hnd Hfr] Hp. cbn in Hc, Hnd, Hfr. unfold reduce_res, level_at_once. rewrite rollup_fold.
  assert (fold_left (rollup_step res) cells (u, c) = fold_left (rollup_step res) cells' (u, c)) as Huc.
  { apply (fold_left_permutation (fun x => hx_res x <> res)); [intros s a b; apply rollup_step_comm| |done].
    apply Forall_forall. intros x Hx. rewrite (Hc x Hx). lia. }
  rewrite <- Huc. set (uc := fold_left (rollup_step res) cells (u, c)). destruct uc as [u1 c1] eqn:Euc. unfold uc in Euc. clear uc. cbn [fst snd].
  set (par := unique (omap _ cells)). assert (unique (omap (fun cell => hx_parent cell res) cells') ≡ₚ par) as Hpar.
  { apply unique_permutation. by rewrite Hp. }
  assert (forall x, hx_res x = res -> u1 !! x = c1 !! x) as Hag.
  { intros x Hx. pose proof (rollup_agree res cells (u, c) x) as Hra. rewrite Euc in Hra. apply Hra; [|done].
    intros z Hz. cbn. destruct (Hfr z ltac:(lia)) as [E1 E2]. by rewrite E1, E2. }
  rewrite clip_cells_at_once; [|apply NoDup_unique|].
  - rewrite (clip_at_once_ext res u1 c1 par (unique (omap (fun cell => hx_parent cell res) cells'))) by (intros x; by rewrite Hpar).
    split; [done|]. split; [done|]. split; cbn; [apply parents_res|apply NoDup_unique|].
    intros x Hx. pose proof (rollup_other res cells (u, c) x ltac:(lia)) as [E1 E2]. rewrite Euc in E1, E2. cbn in E1, E2.
    destruct (Hfr x ltac:(lia)) as [F1 F2]. rewrite clip_at_once_lookup, E1, E2, F1. done.
  - intros p x Hpp Hx. symmetry. apply Hag. rewrite (grid_disk_res p x Hx). by apply (parents_res res cells).
Qed.

Lemma reduce_order_spec u c cells cells' : cells ≡ₚ cells' -> NoDup cells -> (forall x, x ∈ cells -> hx_res x = MAX_RES) -> fresh_below MAX_RES u c ->
  reduce_hex_res u c cells = reduce_reference u c cells'.
Proof.
  intros Hp Hnd Hres Hfr. unfold reduce_hex_res, reduce_reference.
  assert (forall l r uc cells cells', StronglySorted Z.gt (r :: l) -> level_inv r (uc, cells) -> cells ≡ₚ cells' ->
    (fold_left reduce_res l (uc, cells)).1 = (fold_left level_at_once l (uc, cells')).1) as Hgen.
  { clear. intros l. induction l as [|res l IH]; intros r uc cells cells' Hs Hi Hp; [done|]. cbn [fold_left].
    apply StronglySorted_inv in Hs as [Hs Hr]. apply Forall_cons in Hr as [Hr _].
    destruct (reduce_res_level r res (uc, cells) cells' ltac:(lia) Hi Hp) as (E1 & E2 & E3). cbn [fst] in E1, E2.
    destruct (reduce_res (uc, cells) res) as [uc1 l1]. destruct (level_at_once (uc, cells') res) as [uc2 l2]. cbn [fst snd] in E1, E2. subst uc2.
    by apply (IH res). }
  apply (Hgen USED_RES MAX_RES); [|by split|done]. repeat constructor.
Qed.

(** C24: the order of the hash maps does not matter.  Although a cell is clipped on
    counts that the cells before it have already been clipped in, the result is
    that of clipping all cells of a resolution at once on the unclipped counts,
    whatever the order of the cells. *)
Theorem reduce_order_free u c cells cells' : cells ≡ₚ cells' -> NoDup cells -> (forall x, x ∈ cells -> hx_res x = MAX_RES) -> fresh_below MAX_RES u c ->
  reduce_hex_res u c cells = reduce_reference u c cells'.
Proof. apply reduce_order_spec. Qed.
End Order.

(** ** Counts *)

Section Counts.
Context {Cell : Type} `{Countable Cell} {grid : HexGrid Cell}.
Implicit Types (u c m : gmap Cell Z) (cell : Cell).

(** What is counted at a resolution. *)
Definition at_res (r : Z) (kv : Cell * Z) : Z := if hx_res kv.1 =? r then kv.2 else 0.

Definition total (r : Z) m : Z := sumZ (at_res r) (map_to_list m).

Definition count m cell : Z := default 0 (m !! cell).

Lemma add_count_total r k n m : hx_res k = r -> total r (add_count k n m) = total r m + n.
Proof.
  intros Hk. unfold total, add_count. rewrite sumZ_insert. unfold at_res. cbn [fst snd]. rewrite Hk, Z.eqb_refl.
  destruct (m !! k); cbn; rewrite ?Hk, ?Z.eqb_refl; lia.
Qed.

Lemma sum_le_total r m (cells : list Cell) : NoDup cells -> (forall x, x ∈ cells -> hx_res x = r) -> (forall x n, m !! x = Some n -> 0 <= n) ->
  sumZ (count m) cells <= total r m.
Proof.
  intros Hnd Hr Hm.
  assert (sumZ (count m) cells = sumZ (at_res r) (omap (fun x => (fun n => (x, n)) <$> m !! x) cells)) as ->.
  { clear Hnd. induction cells as [|x cells IH]; [done|]. rewrite sumZ_cons, IH by (intros y Hy; apply Hr; by right). cbn [omap list_omap].
    unfold count at 1. destruct (m !! x) as [n|]; cbn [fmap option_fmap option_map default]; [|lia]. rewrite sumZ_cons. unfold at_res at 2. cbn [fst snd].
    by rewrite (Hr x), Z.eqb_refl by left. }
  set (l := omap _ cells). assert (l ⊆+ map_to_list m) as Hsub.
  { apply NoDup_submseteq.
    - unfold l. clear -Hnd. induction Hnd as [|x cells Hx Hnd IH]; cbn [omap list_omap]; [apply NoDup_nil_2|].
      destruct (m !! x) as [n|] eqn:E; cbn; [|done]. constructor; [|done]. rewrite list_elem_of_omap. intros (y & Hy & Ey).
      destruct (m !! y); [|done]. injection Ey as -> ->. done.
    - intros [x n] Hx. unfold l in Hx. apply list_elem_of_omap in Hx as (y & _ & Ey). apply elem_of_map_to_list.
      destruct (m !! y) as [k|] eqn:E; [|done]. injection Ey as -> ->. done. }
  apply submseteq_Permutation in Hsub as [rest Hperm]. unfold total. rewrite (sumZ_permutation _ _ _ Hperm), sumZ_app.
  assert (0 <= sumZ (at_res r) rest); [|lia]. apply sumZ_nonneg. intros [x n] Hx. unfold at_res. cbn.
  destruct (_ =? _); [|done]. apply (Hm x). apply elem_of_map_to_list. rewrite Hperm. set_solver.
Qed.

(** The counts of a state: positive, clipped below unclipped, at most [N]; the cells
    of the resolution have together at most [N]. *)
Record counts_ok (N : Z) (acc : gmap Cell Z * gmap Cell Z * list Cell) : Prop := mkCountsOk {
  ct_unclipped x k : acc.1.1 !! x = Some k -> 1 <= k <= N;
  ct_clipped x n : acc.1.2 !! x = Some n -> 1 <= n /\ exists k, acc.1.1 !! x = Some k /\ n <= k;
  ct_cells x : x ∈ acc.2 -> is_Some (acc.1.2 !! x);
  ct_sum : sumZ (count acc.1.2) acc.2 <= N
}.

(** What the parents get from the cells. *)
Definition given (res : Z) c cell : Z := match hx_parent cell res with Some _ => count c cell | None => 0 end.

Lemma rollup_total res cells u c : (forall x, x ∈ cells -> hx_res x <> res) ->
  total res (fold_left (rollup_step res) cells (u, c)).1 = total res u + sumZ (given res c) cells.
Proof.
  revert u c. induction cells as [|cell cells IH]; intros u c Hr; [cbn; lia|]. cbn [fold_left]. rewrite sumZ_cons. unfold given at 1, rollup_step at 2. cbn [fst snd].
  destruct (hx_parent cell res) as [p|] eqn:Ep; [|rewrite IH by (intros x Hx; apply Hr; by right); lia].
  apply hx_parent_res in Ep. unfold rollup_child_count. rewrite IH by (intros x Hx; apply Hr; by right).
  rewrite add_count_total by done. unfold count at 1. assert (sumZ (given res (add_count p (default 0 (c !! cell)) c)) cells = sumZ (given res c) cells) as ->; [|lia].
  apply sumZ_ext. intros x Hx. unfold given, count. destruct (hx_parent x res); [|done]. rewrite add_count_lookup, decide_False; [done|].
  intros ->. by apply (Hr p); [right|].
Qed.

Lemma rollup_positive res cells u c : (forall x, x ∈ cells -> hx_res x <> res /\ exists n, c !! x = Some n /\ 1 <= n) ->
  (forall x k, u !! x = Some k -> 1 <= k) -> forall x k, (fold_left (rollup_step res) cells (u, c)).1 !! x = Some k -> 1 <= k.
Proof.
  revert u c. induction cells as [|cell cells IH]; intros u c Hc Hu; [done|]. cbn [fold_left]. unfold rollup_step at 2. cbn [fst snd].
  destruct (hx_parent cell res) as [p|] eqn:Ep; [|apply IH; [intros x Hx; apply Hc; by right|done]].
  apply hx_parent_res in Ep. destruct (Hc cell ltac:(by left)) as (_ & n & En & Hn). unfold rollup_child_count. rewrite En. cbn [default]. apply IH.
  - intros x Hx. destruct (Hc x ltac:(by right)) as (Hx1 & k & Ek & Hk). split; [done|]. exists k. rewrite add_count_lookup, decide_False by congruence. done.
  - intros x k. rewrite add_count_lookup. case_decide; [|apply Hu]. intros [= <-]. destruct (u !! p) as [k'|] eqn:E; cbn; [|unfold id; lia]. specialize (Hu p k' E). unfold id. lia.
Qed.

Lemma rollup_keys res cells uc x : is_Some ((fold_left (rollup_step res) cells uc).1 !! x) <->
  is_Some (uc.1 !! x) \/ exists cell, cell ∈ cells /\ hx_parent cell res = Some x.
Proof.
  revert uc. induction cells as [|cell cells IH]; intros uc; cbn [fold_left]; [split; [by left|intros [?|(cell & Hc & _)]; [done|set_solver]]|].
  rewrite IH. unfold rollup_step. destruct (hx_parent cell res) as [p|] eqn:Ep; cbn.
  - rewrite add_count_lookup. case_decide as Hx; [subst x|].
    + split; [intros _; right; exists cell; set_solver|intros _; left; by eexists].
    + split; [intros [?|(c' & Hc & E)]; [by left|right; exists c'; set_solver]|].
      intros [?|(c' & [->|Hc]%elem_of_cons & E)]; [by left|congruence|right; by exists c'].
  - split; [intros [?|(c' & Hc & E)]; [by left|right; exists c'; set_solver]|].
    intros [?|(c' & [->|Hc]%elem_of_cons & E)]; [by left|congruence|right; by exists c'].
Qed.

Lemma sum_pointwise {A} (f g : A -> Z) (l : list A) : (forall a, a ∈ l -> f a <= g a) -> sumZ f l <= sumZ g l.
Proof.
  induction l as [|a l IH]; intros Hfg; [done|]. rewrite !sumZ_cons. pose proof (Hfg a ltac:(by left)).
  assert (sumZ f l <= sumZ g l); [|lia]. apply IH. intros b Hb. apply Hfg. by right.
Qed.

Lemma total_fresh res u : (forall x, hx_res x = res -> u !! x = None) -> total res u = 0.
Proof.
  intros Hu. unfold total. transitivity (sumZ (fun _ : Cell * Z => 0) (map_to_list u)).
  - apply sumZ_ext. intros [x k] Hx%elem_of_map_to_list. unfold at_res. cbn. destruct (Z.eqb_spec (hx_res x) res); [|done].
    by rewrite Hu in Hx.
  - induction (map_to_list u) as [|kv l IH]; [done|]. rewrite sumZ_cons. lia.
Qed.

(** The counts after the first half of a resolution. *)
Lemma rollup_counts N r res u c cells : res < r -> level_inv r (u, c, cells) -> counts_ok N (u, c, cells) ->
  let uc := fold_left (rollup_step res) cells (u, c) in
  total res uc.1 <= N /\ forall x k, uc.1 !! x = Some k -> 1 <= k <= N.
Proof.
  intros Hr [Hc Hnd Hfr] [U C K S] uc. cbn [fst snd] in *.
  assert (forall x, x ∈ cells -> hx_res x <> res) as Hne by (intros x Hx; rewrite (Hc x Hx); lia).
  assert (forall x k, uc.1 !! x = Some k -> 1 <= k) as Hpos.
  { apply rollup_positive; [|intros x k Hk; by apply (U x k)]. intros x Hx. split; [by apply Hne|]. destruct (K x Hx) as [n Hn]. exists n. by destruct (C x n Hn). }
  assert (total res uc.1 <= N) as Htot.
  { unfold uc. rewrite rollup_total by done. rewrite (total_fresh res u) by (intros x Hx; destruct (Hfr x ltac:(lia)); done).
    assert (sumZ (given res c) cells <= sumZ (count c) cells); [|lia]. apply sum_pointwise. intros x Hx. unfold given.
    destruct (hx_parent x res); [done|]. unfold count. destruct (K x Hx) as [n Hn]. rewrite Hn. cbn. destruct (C x n Hn). unfold id. lia. }
  split; [done|]. intros x k Hk. split; [by apply (Hpos x)|]. destruct (decide (hx_res x = res)) as [Hx|Hx].
  - assert (at_res res (x, k) <= total res uc.1) as Hle.
    { apply sumZ_map_elem; [|done]. intros z k' Hz. unfold at_res. cbn. destruct (_ =? _); [|done]. pose proof (Hpos z k' Hz). lia. }
    unfold at_res in Hle. cbn in Hle. rewrite Hx, Z.eqb_refl in Hle. lia.
  - destruct (rollup_other res cells (u, c) x Hx) as [E _]. fold uc in E. rewrite E in Hk. by apply (U x k).
Qed.

Lemma reduce_res_counts N r res acc : res < r -> level_inv r acc -> counts_ok N acc -> counts_ok N (reduce_res acc res).
Proof.
  intros Hr Hi Hct. destruct (reduce_res_level r res acc acc.2 Hr Hi ltac:(done)) as (E1 & E2 & _).
  destruct acc as [[u c] cells]. destruct (rollup_counts N r res u c cells Hr Hi Hct) as [Htot Hb]. destruct Hi as [Hc Hnd Hfr], Hct as [U C K S]. cbn [fst snd] in *.
  destruct (reduce_res (u, c, cells) res) as [uc' cells2]. unfold level_at_once in E1, E2. cbn [fst snd] in E1, E2. subst uc'.
  set (uc := fold_left (rollup_step res) cells (u, c)) in *. set (par := unique _) in *.
  assert (forall x, x ∈ par -> exists k, uc.1 !! x = Some k /\ clip_at_once res uc.1 uc.2 par !! x =
    Some (Z.min (limit res (occupied_count uc.1 x (get_res_tgt res))) k)) as Hin.
  { intros x Hx. assert (is_Some (uc.1 !! x)) as [k Hk].
    { apply rollup_keys. right. unfold par in Hx. by rewrite elem_of_unique, list_elem_of_omap in Hx. }
    exists k. split; [done|]. by rewrite clip_at_once_lookup, Hk, decide_True. }
  split; cbn [fst snd].
  - exact Hb.
  - intros x n Hn. destruct (decide (x ∈ par)) as [Hx|Hx].
    + destruct (Hin x Hx) as (k & Hk & E). rewrite E in Hn. injection Hn as <-. pose proof (limit_pos res (occupied_count uc.1 x (get_res_tgt res))).
      pose proof (Hb x k Hk). split; [lia|]. exists k. split; [done|lia].
    + assert (uc.2 !! x = Some n) as Hn'.
      { rewrite clip_at_once_lookup in Hn. destruct (uc.1 !! x); [|done]. by rewrite decide_False in Hn. }
      destruct (decide (hx_res x = res)) as [Hxr|Hxr].
      * assert (uc.1 !! x = Some n) as Hn1.
        { rewrite <- Hn'. apply rollup_agree; [|done]. intros z Hz. cbn. destruct (Hfr z ltac:(lia)). congruence. }
        pose proof (Hb x n Hn1). split; [lia|]. exists n. split; [done|lia].
      * destruct (rollup_other res cells (u, c) x Hxr) as [F1 F2]. fold uc in F1, F2. rewrite F2 in Hn'. rewrite F1. by apply C.
  - intros x Hx. rewrite E2 in Hx. destruct (Hin x Hx) as (k & _ & E). rewrite E. by eexists.
  - rewrite (sumZ_permutation _ _ _ E2). apply Z.le_trans with (sumZ (count uc.1) par).
    + apply sum_pointwise. intros x Hx. unfold count. destruct (Hin x Hx) as (k & Hk & E). rewrite E, Hk. cbn. unfold id. lia.
    + transitivity (total res uc.1); [|done]. apply sum_le_total; [apply NoDup_unique|apply parents_res|].
      intros x n Hn. pose proof (Hb x n Hn). lia.
Qed.

Lemma reduce_counts N l r acc : StronglySorted Z.gt (r :: l) -> level_inv r acc -> counts_ok N acc -> counts_ok N (fold_left reduce_res l acc).
Proof.
  revert r acc. induction l as [|res l IH]; intros r acc Hs Hi Hct; [done|]. cbn [fold_left].
  apply StronglySorted_inv in Hs as [Hs Hr]. apply Forall_cons in Hr as [Hr _].
  destruct (reduce_res_level r res acc acc.2 ltac:(lia) Hi ltac:(done)) as (_ & _ & Hi').
  apply (IH res); [done|done|]. apply (reduce_res_counts N r); [lia|done|done].
Qed.

(** The maps before they are reduced. *)
Record asserted_ok (g : @GlobalHexMap Cell _ _) : Prop := mkAsserted {
  as_same : clipped_hexes g = unclipped_hexes g;
  as_res x : is_Some (unclipped_hexes g !! x) -> hx_res x = MAX_RES;
  as_pos x n : unclipped_hexes g !! x = Some n -> 1 <= n;
  as_total : total MAX_RES (unclipped_hexes g) = Z.of_nat (length (asserted_hexes g))
}.

Lemma global_new_ok : asserted_ok global_new.
Proof. split; try done; cbn; intros x; rewrite lookup_empty; by intros []. Qed.

Lemma increment_ok g index : asserted_ok g -> asserted_ok (increment_unclipped g index).
Proof.
  intros [H1 H2 H3 H4]. unfold increment_unclipped. destruct (hx_try_from index) as [cell|]; [|done].
  destruct (hx_parent cell MAX_RES) as [p|] eqn:Ep; [|done]. apply hx_parent_res in Ep. split; cbn [clipped_hexes unclipped_hexes asserted_hexes].
  - by rewrite H1.
  - intros x. rewrite add_count_lookup. case_decide; [by subst|apply H2].
  - intros x n. rewrite add_count_lookup. case_decide; [|apply H3]. intros [= <-]. destruct (unclipped_hexes g !! p) as [k|] eqn:E; cbn; unfold id; [|lia].
    specialize (H3 p k E). lia.
  - rewrite add_count_total, H4, length_app by done. cbn. lia.
Qed.

Lemma asserted_counts g keys : asserted_ok g -> keys ≡ₚ (map_to_list (unclipped_hexes g)).*1 ->
  level_inv MAX_RES (unclipped_hexes g, clipped_hexes g, keys) /\
  counts_ok (Z.of_nat (length (asserted_hexes g))) (unclipped_hexes g, clipped_hexes g, keys).
Proof.
  intros [H1 H2 H3 H4] Hk. rewrite H1. set (u := unclipped_hexes g) in *.
  assert (forall x, x ∈ keys <-> is_Some (u !! x)) as Hin.
  { intros x. rewrite Hk, list_elem_of_fmap. split; [intros ([y n] & -> & Hy%elem_of_map_to_list); by eexists|].
    intros [n Hn]. exists (x, n). by rewrite elem_of_map_to_list. }
  assert (NoDup keys) as Hnd by (rewrite Hk; apply NoDup_fst_map_to_list).
  assert (forall x n, u !! x = Some n -> 1 <= n <= Z.of_nat (length (asserted_hexes g))) as Hb.
  { intros x n Hn. split; [by apply (H3 x)|]. rewrite <- H4. assert (at_res MAX_RES (x, n) <= total MAX_RES u) as Hle.
    { apply sumZ_map_elem; [|done]. intros z k Hz. unfold at_res. cbn. destruct (_ =? _); [|done]. pose proof (H3 z k Hz). lia. }
    unfold at_res in Hle. cbn [fst snd] in Hle. by rewrite (H2 x), Z.eqb_refl in Hle by by eexists. }
  split; [split; cbn [fst snd]|split; cbn [fst snd]].
  - intros x Hx. by apply H2, Hin.
  - done.
  - intros x Hx. assert (u !! x = None) as E; [|by rewrite E]. apply eq_None_not_Some. intros Hs. apply H2 in Hs. lia.
  - done.
  - intros x n Hn. pose proof (Hb x n Hn). split; [lia|]. exists n. split; [done|lia].
  - intros x Hx. by apply Hin.
  - rewrite <- H4. apply sum_le_total; [done|intros x Hx; by apply H2, Hin|]. intros x n Hn. pose proof (Hb x n Hn). lia.
Qed.

(** Reducing: no count is zero or above the number of gateways, and a clipped count
    is at most the unclipped one. *)
Lemma reduce_global_ok g keys : asserted_ok g -> keys ≡ₚ (map_to_list (unclipped_hexes g)).*1 ->
  forall p k n, unclipped_hexes (reduce_global g keys) !! p = Some k -> clipped_hexes (reduce_global g keys) !! p = Some n ->
  1 <= n <= k /\ k <= Z.of_nat (length (asserted_hexes g)).
Proof.
  intros Hg Hk p k n. destruct (asserted_counts g keys Hg Hk) as [Hi Hct].
  pose proof (reduce_counts _ USED_RES MAX_RES _ ltac:(repeat constructor) Hi Hct) as [U C _ _]. unfold reduce_global, reduce_hex_res.
  destruct (fold_left reduce_res USED_RES _) as [[u c] l]. cbn [fst snd clipped_hexes unclipped_hexes] in *. intros Hu Hc.
  destruct (C p n Hc) as (H1 & k' & Hk' & H2). rewrite Hu in Hk'. injection Hk' as <-. pose proof (U p k Hu). lia.
Qed.
End Counts.

(** ** Scales *)

Section Scales.
Context {Cell : Type} `{Countable Cell} {grid : HexGrid Cell} {dec : Type} {D : Decimal dec} {DL : DecimalLaws dec}.

Lemma rounding_unit (r : Q -> Q) q : rounding r -> (0 <= q <= 1)%Q -> (0 <= r q <= 1)%Q.
Proof.
  intros Hr [H0 H1]. split; [by apply (rnd_nonneg r Hr)|].
  pose proof (rnd_int r Hr 1 ltac:(done)) as E. change (inject_Z 1) with 1%Q in E. rewrite <- E. by apply (rnd_mono r Hr).
Qed.

Lemma unit_below_max q : (0 <= q <= 1)%Q -> (Qabs q <= dec_max)%Q.
Proof. intros [H0 H1]. rewrite Qabs_pos by done. apply Qle_trans with (1 := H1). by vm_compute. Qed.

(** A share of two counts. *)
Lemma share_unit n k : 1 <= n <= k -> k < 2 ^ 63 ->
  (0 <= dval (ddiv (dec_new (as_i64 n) SCALING_PRECISION) (dec_new (as_i64 k) SCALING_PRECISION) : dec) <= 1)%Q.
Proof.
  intros Hn Hk. rewrite !as_i64_small by lia. set (a := dec_new n _). set (b := dec_new k _).
  assert (dval a == inject_Z n / pow10 4)%Q as Ea by (apply dec_new_val; [lia|unfold SCALING_PRECISION; lia]).
  assert (dval b == inject_Z k / pow10 4)%Q as Eb by (apply dec_new_val; [lia|unfold SCALING_PRECISION; lia]).
  assert (0 < inject_Z n)%Q as Hn0 by (change 0%Q with (inject_Z 0); rewrite <- Zlt_Qlt; lia).
  assert (inject_Z n <= inject_Z k)%Q as Hnk by (rewrite <- Zle_Qle; lia).
  pose proof (pow10_pos 4) as Hp. assert (dval a / dval b == inject_Z n / inject_Z k)%Q as Eq by (rewrite Ea, Eb; field; split; lra).
  assert (0 <= inject_Z n / inject_Z k <= 1)%Q as Hu.
  { split; [apply Qle_shift_div_l; lra|apply Qle_shift_div_r; lra]. }
  assert (~ dval b == 0)%Q as Hb. { rewrite Eb. intros E0. assert (inject_Z k == 0)%Q; [|lra]. rewrite <- (Qmult_0_l (pow10 4)), <- E0. field. lra. }
  rewrite ddiv_val; [|done|rewrite Eq; by apply unit_below_max]. apply rounding_unit; [apply div_rounding|by rewrite Eq].
Qed.

Lemma dmul_unit (a b : dec) : (0 <= dval a <= 1)%Q -> (0 <= dval b <= 1)%Q -> (0 <= dval (dmul a b) <= 1)%Q.
Proof.
  intros [A0 A1] [B0 B1]. assert (0 <= dval a * dval b <= 1)%Q as Hu.
  { split; [by apply Qmult_le_0_compat|]. apply Qle_trans with (1 * dval b)%Q; [by apply Qmult_le_compat_r|lra]. }
  rewrite dmul_val by by apply unit_below_max. by apply rounding_unit; [apply mul_rounding|].
Qed.

Lemma round_unit (a : dec) : (0 <= dval a <= 1)%Q -> scale_row_ok (round_dp SCALING_PRECISION MidpointNearestEven a).
Proof.
  intros [A0 A1]. unfold scale_row_ok. pose proof (round_dp_val SCALING_PRECISION MidpointNearestEven a) as E. split.
  - eexists. rewrite E. apply Qeq_refl.
  - rewrite E. split; [by apply round_q_nonneg|]. unfold round_q, SCALING_PRECISION. apply Qle_shift_div_r; [apply pow10_pos|]. rewrite Qmult_1_l.
    change (pow10 4) with (inject_Z 10000). rewrite <- Zle_Qle. pose proof (round_int_nearest (dval a * inject_Z 10000)) as Hn.
    apply Qabs_Qle_condition in Hn as [_ Hn]. assert (dval a * inject_Z 10000 <= inject_Z 10000)%Q as Hle.
    { rewrite <- (Qmult_1_l (inject_Z 10000)) at 2. apply Qmult_le_compat_r; [done|discriminate]. }
    assert (inject_Z (round_int MidpointNearestEven (dval a * inject_Z 10000)) < inject_Z 10001)%Q as Hlt.
    { change (inject_Z 10001) with (10001 # 1)%Q. change (inject_Z 10000) with (10000 # 1)%Q in *. lra. }
    rewrite <- Zlt_Qlt in Hlt. lia.
Qed.

Lemma scale_steps_unit (g : GlobalHexMap) hex l (scale : dec) :
  (forall p k n, unclipped_hexes g !! p = Some k -> clipped_hexes g !! p = Some n -> 1 <= n <= k /\ k < 2 ^ 63) ->
  (0 <= dval scale <= 1)%Q -> (0 <= dval (fold_left (scale_step g hex) l scale) <= 1)%Q.
Proof.
  intros Hg. revert scale. induction l as [|res l IH]; intros scale Hs; [done|]. cbn [fold_left]. apply IH. unfold scale_step.
  destruct (hx_parent hex res) as [p|]; [|done]. destruct (unclipped_hexes g !! p) as [k|] eqn:Ek; [|done].
  destruct (clipped_hexes g !! p) as [n|] eqn:En; [|done]. destruct (Hg p k n Ek En). apply dmul_unit; [done|]. by apply share_unit.
Qed.

Lemma hex_scale_ok g keys hex : asserted_ok g -> keys ≡ₚ (map_to_list (unclipped_hexes g)).*1 -> Z.of_nat (length (asserted_hexes g)) < 2 ^ 63 ->
  scale_row_ok (hex_scale (dec := dec) (reduce_global g keys) hex).
Proof.
  intros Hg Hk Hn. apply round_unit, scale_steps_unit.
  - intros p k n Hu Hc. destruct (reduce_global_ok g keys Hg Hk p k n Hu Hc). lia.
  - rewrite (dec_new_val (dec := dec) 10 1) by lia. by vm_compute.
Qed.

(** ** The map of scales *)

Definition indexed (hexes : list Cell) : Prop := forall c, c ∈ hexes -> hx_try_from (hx_index c) = Some c.

Lemma compute_lookup (g : GlobalHexMap) i d : indexed (asserted_hexes g) ->
  compute_hex_density_map (dec := dec) g !! i = Some d <-> exists hex, hex ∈ asserted_hexes g /\ hx_index hex = i /\ d = hex_scale g hex.
Proof.
  unfold compute_hex_density_map. intros Hix. assert (forall l (m : gmap Z dec), (forall c, c ∈ l -> c ∈ asserted_hexes g) ->
    (forall i d, m !! i = Some d -> exists hex, hex ∈ asserted_hexes g /\ hx_index hex = i /\ d = hex_scale g hex) ->
    fold_left (fun m hex => <[hx_index hex := hex_scale g hex]> m) l m !! i = Some d <->
    m !! i = Some d \/ exists hex, hex ∈ l /\ hx_index hex = i /\ d = hex_scale g hex) as Hgen.
  { induction l as [|hex l IH]; intros m Hl Hm; cbn [fold_left]; [split; [by left|intros [?|(h & Hh & _)]; [done|set_solver]]|].
    rewrite IH; [|intros c Hc; apply Hl; by right|].
    - destruct (decide (hx_index hex = i)) as [Hi|Hi].
      + rewrite Hi, lookup_insert_eq. split; [intros [[= <-]|(h & Hh & E)]; right; [exists hex; set_solver|exists h; set_solver]|].
        intros [E|(h & [->|Hh]%elem_of_cons & E1 & E2)]; [|by left; rewrite E2|right; by exists h].
        destruct (Hm i d E) as (h & Hh & Ei & Ed). left. f_equal. rewrite Ed. f_equal.
        pose proof (Hix h Hh) as X1. pose proof (Hix hex (Hl hex ltac:(by left))) as X2. congruence.
      + rewrite lookup_insert_ne by done. split; [intros [?|(h & Hh & E)]; [by left|right; exists h; set_solver]|].
        intros [?|(h & [->|Hh]%elem_of_cons & E1 & E2)]; [by left|done|right; by exists h].
    - intros j e [(<- & <-)|(_ & Hj)]%lookup_insert_Some; [|by apply Hm]. exists hex. split; [apply Hl; by left|done]. }
  rewrite (Hgen (asserted_hexes g) ∅); [|done|intros j e; by rewrite lookup_empty]. rewrite lookup_empty. naive_solver.
Qed.
End Scales.

(** ** [tx_scaler::Server] and [GatewayUpdater] *)

(** In minutes. *)
Definition HIP_17_INTERACTIVITY_LIMIT : Z := 3600.

Definition gateways_recent_activity (last_beacons : gmap string Z) (now : Z) : gmap string Z :=
  get_all_since last_beacons (now - HIP_17_INTERACTIVITY_LIMIT * 60 * nanos_per_sec).

Section Server.
Context {PT : ProtoTypes} {Cell : Type} `{Countable Cell} {grid : HexGrid Cell} {dec : Type} {D : Decimal dec}.
Implicit Types (gateways : gmap PublicKeyBinary GatewayInfo) (g : @GlobalHexMap Cell _ _).

(** The loop over the active gateways. *)
Definition count_gateway gateways (g : GlobalHexMap) (k : string) : GlobalHexMap :=
  match gateways !! k with
  | Some gateway_info =>
      match gi_metadata gateway_info with
      | Some metadata => increment_unclipped g (gm_location metadata)
      | None => g
      end
  | None => g
  end.

(** [refresh_scaling_map]; [active] are the keys of the active gateways and
    [keys_of] the keys of a map, in the orders they happen to come in. *)
Definition refresh_scaling_map gateways (active : list string) (keys_of : gmap Cell Z -> list Cell) : gmap Z dec :=
  let global_map := fold_left (count_gateway gateways) active global_new in
  compute_hex_density_map (reduce_global global_map (keys_of (unclipped_hexes global_map))).

Definition refresh_gateways (stream : list GatewayInfo) : gmap PublicKeyBinary GatewayInfo :=
  fold_left (fun m info => <[gi_address info := info]> m) stream ∅.

(** [handle_refresh_tick]: the map the readers see; an error of the service ends the
    task. *)
Definition handle_refresh_tick (current : gmap PublicKeyBinary GatewayInfo) (stream : result (list GatewayInfo) unit)
  : result (gmap PublicKeyBinary GatewayInfo) unit :=
  let? infos := stream in
  let updated := refresh_gateways infos in
  Ok (if (0 <? size updated)%nat then updated else current).

Lemma refresh_gateways_last (stream : list GatewayInfo) k :
  refresh_gateways stream !! k = last (List.filter (fun info => bool_decide (gi_address info = k)) stream).
Proof.
  unfold refresh_gateways. induction stream as [|info stream IH] using rev_ind; [done|].
  rewrite fold_left_app, List.filter_app. cbn [fold_left List.filter]. case_bool_decide as Hk.
  - by rewrite Hk, lookup_insert_eq, last_snoc.
  - by rewrite lookup_insert_ne, app_nil_r by done.
Qed.

(** *** Order *)

(** The same counts, the hexagons in another order. *)
Definition same_counts (g g' : @GlobalHexMap Cell _ _) : Prop :=
  clipped_hexes g = clipped_hexes g' /\ unclipped_hexes g = unclipped_hexes g' /\ asserted_hexes g ≡ₚ asserted_hexes g'.

Lemma count_gateway_same gateways g g' k : same_counts g g' -> same_counts (count_gateway gateways g k) (count_gateway gateways g' k).
Proof.
  intros Hs. unfold count_gateway. destruct (gateways !! k) as [i|]; [|done]. destruct (gi_metadata i) as [md|]; [|done].
  unfold increment_unclipped. destruct (hx_try_from (gm_location md)) as [c|]; [|done]. destruct (hx_parent c MAX_RES) as [p|]; [|done].
  destruct Hs as (E1 & E2 & E3). split; cbn; [by rewrite E1|]. split; [by rewrite E2|by rewrite E3].
Qed.

Lemma count_gateway_comm gateways g a b :
  same_counts (count_gateway gateways (count_gateway gateways g a) b) (count_gateway gateways (count_gateway gateways g b) a).
Proof.
  assert (forall g i j, same_counts (increment_unclipped (increment_unclipped g i) j) (increment_unclipped (increment_unclipped g j) i)) as Hinc.
  { intros g0 i j. unfold increment_unclipped. destruct (hx_try_from i) as [c|], (hx_try_from j) as [d|]; try done.
    - destruct (hx_parent c MAX_RES) as [p|], (hx_parent d MAX_RES) as [q|]; try done. split; cbn; [apply add_count_comm|]. split; [apply add_count_comm|].
      rewrite <- !app_assoc. apply Permutation_app_head, Permutation_swap. }
  unfold count_gateway. destruct (gateways !! a) as [i|], (gateways !! b) as [j|]; try done.
  destruct (gi_metadata i) as [mi|], (gi_metadata j) as [mj|]; first [apply Hinc|done].
Qed.

Lemma count_gateways_order gateways l l' g g' : l ≡ₚ l' -> same_counts g g' ->
  same_counts (fold_left (count_gateway gateways) l g) (fold_left (count_gateway gateways) l' g').
Proof.
  assert (forall l g g', same_counts g g' -> same_counts (fold_left (count_gateway gateways) l g) (fold_left (count_gateway gateways) l g')) as Hsame.
  { induction l0 as [|k l0 IH]; intros g0 g0' Hs; [done|]. cbn. by apply IH, count_gateway_same. }
  assert (forall g1 g2 g3, same_counts g1 g2 -> same_counts g2 g3 -> same_counts g1 g3) as Htrans.
  { intros g1 g2 g3 (E1 & E2 & E3) (F1 & F2 & F3). split; [congruence|]. split; [congruence|]. by rewrite E3. }
  intros Hp. revert g g'. induction Hp as [|k l l' Hp IH|a b l|l1 l2 l3 H1 IH1 H2 IH2]; intros g g' Hs; cbn [fold_left].
  - done.
  - by apply IH, count_gateway_same.
  - apply Hsame. eapply Htrans; [apply count_gateway_comm|]. by apply count_gateway_same, count_gateway_same.
  - eapply Htrans; [apply IH1, Hs|]. apply IH2. by split.
Qed.

Lemma count_gateways_ok gateways l g : asserted_ok g -> asserted_ok (fold_left (count_gateway gateways) l g).
Proof.
  revert g. induction l as [|k l IH]; intros g Hg; [done|]. cbn. apply IH. unfold count_gateway.
  destruct (gateways !! k) as [i|]; [|done]. destruct (gi_metadata i); [|done]. by apply increment_ok.
Qed.

Lemma count_gateways_indexed gateways l g : indexed (asserted_hexes g) -> indexed (asserted_hexes (fold_left (count_gateway gateways) l g)).
Proof.
  revert g. induction l as [|k l IH]; intros g Hg; [done|]. cbn. apply IH. unfold count_gateway.
  destruct (gateways !! k) as [i|]; [|done]. destruct (gi_metadata i) as [md|]; [|done]. unfold increment_unclipped.
  destruct (hx_try_from (gm_location md)) as [c|] eqn:Ec; [|done]. destruct (hx_parent c MAX_RES); [|done]. cbn.
  intros x [Hx|Hx%list_elem_of_singleton]%elem_of_app; [by apply Hg|]. subst x. by rewrite (hx_index_try_from _ _ Ec).
Qed.

Lemma asserted_length gateways l g :
  (length (asserted_hexes (fold_left (count_gateway gateways) l g)) <= length (asserted_hexes g) + length l)%nat.
Proof.
  revert g. induction l as [|k l IH]; intros g; cbn [fold_left length]; [lia|]. specialize (IH (count_gateway gateways g k)).
  assert (length (asserted_hexes (count_gateway gateways g k)) <= S (length (asserted_hexes g)))%nat; [|lia].
  unfold count_gateway. destruct (gateways !! k) as [i|]; [|lia]. destruct (gi_metadata i) as [md|]; [|lia]. unfold increment_unclipped.
  destruct (hx_try_from _); [|lia]. destruct (hx_parent _ _); [|lia]. cbn. rewrite length_app. cbn. lia.
Qed.

(** *** The theorems *)

(** The keys of a map, in some order. *)
Definition keys_of_map (keys_of : gmap Cell Z -> list Cell) : Prop := forall m, keys_of m ≡ₚ (map_to_list m).*1.

Lemma reduce_global_same g g' k k' : asserted_ok g -> same_counts g g' -> k ≡ₚ (map_to_list (unclipped_hexes g)).*1 -> k' ≡ₚ k ->
  same_counts (reduce_global g k) (reduce_global g' k').
Proof.
  intros Hg (E1 & E2 & E3) Hk Hk'. unfold reduce_global. rewrite <- E1, <- E2.
  destruct (asserted_counts g k Hg Hk) as [[Hc Hnd Hfr] _]. cbn in Hc, Hnd, Hfr.
  assert (reduce_hex_res (unclipped_hexes g) (clipped_hexes g) k = reduce_hex_res (unclipped_hexes g) (clipped_hexes g) k') as Heq.
  { rewrite (reduce_order_spec _ _ k k) by done. symmetry. apply reduce_order_spec; [by rewrite Hk'|by rewrite Hk'|intros x Hx; apply Hc; by rewrite <- Hk'|done]. }
  rewrite Heq. destruct (reduce_hex_res _ _ k') as [u c]. by split.
Qed.

(** the scales do not depend on the order in which the hash maps give the
    active gateways and the hexagons. *)
Theorem scaling_map_deterministic gateways active active' keys_of keys_of' :
  active ≡ₚ active' -> keys_of_map keys_of -> keys_of_map keys_of' ->
  refresh_scaling_map gateways active keys_of = refresh_scaling_map gateways active' keys_of'.
Proof.
  intros Ha Hk Hk'. unfold keys_of_map in *. unfold refresh_scaling_map. set (g := fold_left _ active global_new). set (g' := fold_left _ active' global_new).
  assert (same_counts g g') as Hs by (by apply count_gateways_order).
  assert (asserted_ok g) as Hg by apply count_gateways_ok, global_new_ok.
  assert (indexed (asserted_hexes g)) as Hix by (apply count_gateways_indexed; intros c Hc; set_solver).
  assert (same_counts (reduce_global g (keys_of (unclipped_hexes g))) (reduce_global g' (keys_of' (unclipped_hexes g')))) as (E1 & E2 & E3).
  { apply reduce_global_same; [done|done|apply Hk|]. destruct Hs as (_ & <- & _). by rewrite Hk, Hk'. }
  set (r := reduce_global g _) in *. set (r' := reduce_global g' _) in *.
  assert (asserted_hexes r = asserted_hexes g) as Ear by (unfold r, reduce_global; by destruct (reduce_hex_res _ _ _)).
  assert (forall hex, hex_scale (dec := dec) r hex = hex_scale r' hex) as Hsc.
  { intros hex. unfold hex_scale. f_equal. assert (forall s res, scale_step (dec := dec) r hex s res = scale_step r' hex s res) as Hst.
    { intros s res. unfold scale_step. by rewrite E1, E2. }
    generalize (dec_new (dec := dec) 10 1). induction SCALING_RES as [|res l IH]; intros s; [done|]. cbn. by rewrite Hst. }
  apply map_eq. intros i. apply option_eq. intros d. rewrite (compute_lookup r i d) by (by rewrite Ear).
  rewrite (compute_lookup r' i d) by (intros c Hc; apply Hix; rewrite <- Ear; by rewrite E3).
  split; intros (hex & Hh & Ei & ->); exists hex; (split; [|by rewrite Hsc]); [by rewrite <- E3|by rewrite E3].
Qed.

(** C22: the scales are rows the share table takes: every scale is between zero and
    one with four decimals, and no division by zero happens on the way. *)
Theorem scaling_map_ok {DL : DecimalLaws dec} gateways active keys_of :
  keys_of_map keys_of -> Z.of_nat (length active) < 2 ^ 63 ->
  density_ok (refresh_scaling_map gateways active keys_of) /\
  let g := fold_left (count_gateway gateways) active global_new in
  forall p k, unclipped_hexes (reduce_global g (keys_of (unclipped_hexes g))) !! p = Some k -> 0 < k.
Proof.
  intros Hk Hn. set (g := fold_left (count_gateway gateways) active global_new).
  assert (asserted_ok g) as Hg by apply count_gateways_ok, global_new_ok. split.
  - intros i d Hd. unfold refresh_scaling_map in Hd. fold g in Hd. set (r := reduce_global g _) in Hd.
    assert (asserted_hexes r = asserted_hexes g) as Ear by (unfold r, reduce_global; by destruct (reduce_hex_res _ _ _)).
    apply compute_lookup in Hd as (hex & _ & _ & ->); [|rewrite Ear; apply count_gateways_indexed; intros c Hc; set_solver].
    apply hex_scale_ok; [done|apply Hk|]. pose proof (asserted_length gateways active global_new). cbn in *. fold g in H0. lia.
  - cbv zeta. intros p k Hu. destruct (asserted_counts g _ Hg (Hk _)) as [Hi Hct].
    pose proof (reduce_counts _ USED_RES MAX_RES _ ltac:(repeat constructor) Hi Hct) as [U _ _ _]. unfold reduce_global, reduce_hex_res in Hu.
    destruct (fold_left reduce_res USED_RES _) as [[u c] l]. cbn in *. pose proof (U p k Hu). lia.
Qed.
End Server.

(** ** A grid of intervals

    A cell is a resolution and a number; its parent covers seven cells, its
    neighbours are the cells beside it. *)

Definition line_parent (c : Z * Z) (r : Z) : option (Z * Z) := if r <=? c.1 then Some (r, c.2 / 7 ^ (c.1 - r)) else None.

#[global] Program Instance line_grid : HexGrid (Z * Z) := {
  hx_try_from i := Some (12, i);
  hx_index c := c.2;
  hx_res c := c.1;
  hx_parent := line_parent;
  grid_disk c := [c; (c.1, c.2 - 1); (c.1, c.2 + 1)]
}.
Next Obligation. intros c r p. unfold line_parent. destruct (_ <=? _); [|done]. by intros [= <-]. Qed.
Next Obligation. intros c x Hx. set_solver. Qed.
Next Obligation. by intros i c [= <-]. Qed.

(** Three gateways, two of them in one hexagon. *)
Definition located (k : string) (location : Z) : GatewayInfo (PT := ExampleProto.proto) :=
  mkGatewayInfo k (Some (mkMetadata location 3 12 0)) true.

Definition three_gateways : gmap string (GatewayInfo (PT := ExampleProto.proto)) :=
  {["a" := located "a" 700; "b" := located "b" 700; "c" := located "c" 9000]}.

Definition some_keys (m : gmap (Z * Z) Z) : list (Z * Z) := (map_to_list m).*1.

Definition other_keys (m : gmap (Z * Z) Z) : list (Z * Z) := reverse (map_to_list m).*1.

Lemma some_keys_of : keys_of_map some_keys.
Proof. intros m. reflexivity. Qed.

Lemma other_keys_of : keys_of_map other_keys.
Proof. intros m. apply reverse_Permutation. Qed.

Lemma scaling_map_deterministic_witness :
  refresh_scaling_map (dec := Q) three_gateways ["a"; "b"; "c"] some_keys = refresh_scaling_map three_gateways ["c"; "a"; "b"] other_keys.
Proof.
  apply (scaling_map_deterministic three_gateways ["a"; "b"; "c"] ["c"; "a"; "b"] some_keys other_keys);
    [|exact some_keys_of|exact other_keys_of]. apply (Permutation_app_comm ["a"; "b"] ["c"]).
Defined.

Lemma scaling_map_ok_witness : density_ok (refresh_scaling_map (dec := Q) three_gateways ["a"; "b"; "c"] some_keys).
Proof. exact (proj1 (scaling_map_ok three_gateways ["a"; "b"; "c"] some_keys some_keys_of ltac:(reflexivity))). Defined.

(** The scales of the two hexagons. *)
Example three_gateways_scales :
  refresh_scaling_map (dec := Q) three_gateways ["a"; "b"; "c"] some_keys !! 700 = Some (1 # 2)%Q /\
  refresh_scaling_map (dec := Q) three_gateways ["a"; "b"; "c"] some_keys !! 9000 = Some 1%Q.
Proof. vm_compute. split; reflexivity. Qed.

Lemma reduce_order_free_witness :
  reduce_hex_res {[ (11, 100) := 2; (11, 1285) := 1 ]} {[ (11, 100) := 2; (11, 1285) := 1 ]} [(11, 100); (11, 1285)] =
  reduce_reference {[ (11, 100) := 2; (11, 1285) := 1 ]} {[ (11, 100) := 2; (11, 1285) := 1 ]} [(11, 1285); (11, 100)].
Proof.
  apply (reduce_order_free {[ (11, 100) := 2; (11, 1285) := 1 ]} {[ (11, 100) := 2; (11, 1285) := 1 ]} [(11, 100); (11, 1285)] [(11, 1285); (11, 100)]).
  - apply Permutation_swap.
  - apply NoDup_cons. split; [set_solver|]. apply NoDup_singleton.
  - intros x Hx. set_solver.
  - intros x Hx. unfold MAX_RES in Hx.
    rewrite lookup_insert_ne, lookup_singleton_ne; [done| |]; intros <-; cbn in Hx; lia.
Defined.
