(* ===== verification/IotPackets.v ===== *)
(** * Packet loader, entropy loader and purger of the IoT verifier

    [iot_verifier/src/packet_loader.rs], [entropy_loader.rs] and [purger.rs]: the
    packets of a file become data credit shares, or a line in the file of packets
    that earn nothing; entropy is stored by its hash; reports that nobody verified
    in time are written out as stale and removed.  A file is one transaction, which
    starts by recording the file (see [FilePoller]).  A write to a sink can fail. *)

From S2P Require Import Prelude Solana Text FileStoreTypes FileNames FilePoller Decimal IotReports DenyList.
From S2P Require Import IotRewards IotShareTables IotPoc IotReportTable IotRunner.

Open Scope Z_scope.
Open Scope oracle_scope.

(** ** Packets *)

Inductive NonRewardablePacketReason := GatewayNotFoundForPacket.

(** The message [NonRewardablePacket]. *)
Record NonRewardablePacket : Type := mkNonRewardable {
  nr_packet : option ValidPacketProto;
  nr_reason : NonRewardablePacketReason;
  nr_timestamp : Z
}.

Section Packets.
Context {dec : Type} {DE : Decimal dec} {PT : ProtoTypes} {CH : Chrono} {HB : Blake3}.
Variable gateways : gmap PublicKeyBinary GatewayInfo.

(** [share_from_packet], at the time [now]. *)
Definition share_from_packet (now : Z) (packet : IotValidPacket) : GatewayDCShare dec :=
  mkDCShare (ivp_gateway packet) (ivp_packet_timestamp packet) (dec_new (as_i64 (ivp_num_dcs packet)) 0) (packet_id now packet).

(** The step of the fold over a file: the transaction, or the error that ends it,
    and the lines written to the sink, which an error does not take back. *)
Definition handle_packet (write_ok : NonRewardablePacket -> bool) (acc : result (share_tables dec) unit * list NonRewardablePacket)
    (tp : Z * IotValidPacket) : result (share_tables dec) unit * list NonRewardablePacket :=
  match acc.1 with
  | Err _ => acc
  | Ok db =>
      let valid_packet := valid_packet_into tp.2 in
      let reward_share := share_from_packet tp.1 tp.2 in
      match resolve_gateway_info gateways (ds_hotspot_key reward_share) with
      | Ok _ => (Ok (dc_share_save db reward_share).1, acc.2)
      | Err _ =>
          let line := mkNonRewardable (Some valid_packet) GatewayNotFoundForPacket (as_u64 (tp.1 / nanos_per_milli)) in
          if write_ok line then (Ok db, acc.2 ++ [line]) else (Err tt, acc.2)
      end
  end.

(** [handle_packet_file]: the packets come with the times at which they are
    handled.  On an error nothing of the transaction stays. *)
Definition handle_packet_file (write_ok : NonRewardablePacket -> bool) (process : string) (file : FileInfo) (now : Z)
    (packets : list (Z * IotValidPacket)) (rows : files_processed) (db : share_tables dec)
  : result (files_processed * share_tables dec) unit * list NonRewardablePacket :=
  match record rows process file now with
  | Err e => (Err e, [])
  | Ok rows =>
      let r := fold_left (handle_packet write_ok) packets (Ok db, []) in
      (let? db := r.1 in Ok (rows, db), r.2)
  end.
End Packets.

(** ** Entropy *)

Section EntropyLoad.
Context {HB : Blake3}.

Definition handle_entropy_report (process : string) (file : FileInfo) (now : Z) (reports : list EntropyReport)
    (rows : files_processed) (t : entropies) : result (files_processed * entropies) unit :=
  let? rows := record rows process file now in
  Ok (rows, fold_left (fun t r => entropy_insert_into t now (blake3 (er_data r)) (er_data r) (er_timestamp r) (as_i32 (er_version r))) reports t).
End EntropyLoad.

(** ** Purger *)

Definition BEACON_STALE_PERIOD : Z := 45 * 60 * nanos_per_sec.
Definition WITNESS_STALE_PERIOD : Z := 45 * 60 * nanos_per_sec.
Definition ENTROPY_STALE_PERIOD : Z := 60 * 60 * nanos_per_sec.

Record Purger : Type := mkPurger {
  base_stale_period : Z;
  beacon_stale_period : Z;
  witness_stale_period : Z;
  entropy_stale_period : Z
}.

Section Purge.
Context {PT : ProtoTypes} {CH : Chrono} {HB : Blake3} {CO : IngestCodec}.

(** The tables and the two sinks. *)
Record purge_state : Type := mkPurge {
  pg_reports : poc_reports;
  pg_entropy : entropies;
  pg_beacon_sink : list IotInvalidBeaconReport;
  pg_witness_sink : list IotInvalidWitnessReport
}.

(** Which writes and commits succeed. *)
Record purge_env : Type := mkPurgeEnv {
  beacon_write_ok : IotInvalidBeaconReport -> bool;
  witness_write_ok : IotInvalidWitnessReport -> bool;
  beacon_commit_ok : bool;
  witness_commit_ok : bool
}.

Definition stale_beacon (b : IotBeaconIngestReport) : IotInvalidBeaconReport :=
  mkInvalidBeacon (bi_received_timestamp b) Stale None (bi_report b) None 0 0.

Definition stale_witness (w : IotWitnessIngestReport) : IotInvalidWitnessReport :=
  mkInvalidWitness (wi_received_timestamp w) Stale None (wi_report w) SideWitness.

(** An error leaves the row where it is and is only logged. *)
Definition handle_purged_beacon (env : purge_env) (acc : poc_reports * list IotInvalidBeaconReport) (r : Report)
  : poc_reports * list IotInvalidBeaconReport :=
  match decode_beacon (rep_report_data r) with
  | Err _ => acc
  | Ok b =>
      if beacon_write_ok env (stale_beacon b)
      then (delete_report acc.1 (beacon_ingest_id b), acc.2 ++ [stale_beacon b])
      else acc
  end.

Definition handle_purged_witness (env : purge_env) (acc : poc_reports * list IotInvalidWitnessReport) (r : Report)
  : poc_reports * list IotInvalidWitnessReport :=
  match decode_witness (rep_report_data r) with
  | Err _ => acc
  | Ok w =>
      if witness_write_ok env (stale_witness w)
      then (delete_report acc.1 (witness_ingest_id w), acc.2 ++ [stale_witness w])
      else acc
  end.

(** [handle_db_tick]: the deletes of each kind are a transaction, committed after
    its sink. *)
Definition handle_db_tick (self : Purger) (env : purge_env) (now : Z) (st : purge_state) : purge_state * result unit unit :=
  let beacons := get_stale_beacons (pg_reports st) now (base_stale_period self + beacon_stale_period self) in
  let '(t, bs) := fold_left (handle_purged_beacon env) beacons (pg_reports st, pg_beacon_sink st) in
  if negb (beacon_commit_ok env) then (mkPurge (pg_reports st) (pg_entropy st) bs (pg_witness_sink st), Err tt)
  else
    let witnesses := get_stale_witnesses t now (base_stale_period self + witness_stale_period self) in
    let '(t', ws) := fold_left (handle_purged_witness env) witnesses (t, pg_witness_sink st) in
    if negb (witness_commit_ok env) then (mkPurge t (pg_entropy st) bs ws, Err tt)
    else (mkPurge t' (entropy_purge (pg_entropy st) now (base_stale_period self + entropy_stale_period self)) bs ws, Ok tt).
End Purge.

(** ** What a packet file leaves *)

Section PacketSpec.
Context {dec : Type} {DE : Decimal dec} {PT : ProtoTypes} {CH : Chrono} {HB : Blake3}.
Variables (gateways : gmap PublicKeyBinary GatewayInfo) (write_ok : NonRewardablePacket -> bool).

Definition known (tp : Z * IotValidPacket) : bool := bool_decide (is_Some (gateways !! ivp_gateway tp.2)).

Definition share_of (tp : Z * IotValidPacket) : GatewayDCShare dec := share_from_packet tp.1 tp.2.

Definition line_of (tp : Z * IotValidPacket) : NonRewardablePacket :=
  mkNonRewardable (Some (valid_packet_into tp.2)) GatewayNotFoundForPacket (as_u64 (tp.1 / nanos_per_milli)).

Definition keyed (l : list (GatewayDCShare dec)) : list (string * GatewayDCShare dec) := (fun s => (ds_id s, s)) <$> l.

Lemma keyed_ids l : (keyed l).*1 = ds_id <$> l.
Proof. unfold keyed. by rewrite <- list_fmap_compose. Qed.

Lemma handle_packet_known db lines tp : known tp = true ->
  handle_packet gateways write_ok (Ok db, lines) tp = (Ok (dc_share_save db (share_of tp)).1, lines).
Proof.
  intros Hk. apply bool_decide_eq_true in Hk as [i Hi]. unfold handle_packet, resolve_gateway_info. cbn [fst snd ds_hotspot_key share_from_packet].
  by rewrite Hi.
Qed.

Lemma handle_packet_unknown db lines tp : known tp = false ->
  handle_packet (dec := dec) gateways write_ok (Ok db, lines) tp = if write_ok (line_of tp) then (Ok db, lines ++ [line_of tp]) else (Err tt, lines).
Proof.
  intros Hk. apply bool_decide_eq_false in Hk. unfold handle_packet, resolve_gateway_info. cbn [fst snd ds_hotspot_key share_from_packet].
  destruct (gateways !! ivp_gateway tp.2); [|done]. by destruct Hk.
Qed.

Lemma handle_packets_err lines packets : fold_left (handle_packet (dec := dec) gateways write_ok) packets (Err tt, lines) = (Err tt, lines).
Proof. induction packets; [done|]. by cbn. Qed.

(** The ids of a run of packets are new and different. *)
Definition fresh_ids (db : share_tables dec) (shares : list (GatewayDCShare dec)) : Prop :=
  NoDup (ds_id <$> shares) /\ forall s, s ∈ shares -> gateway_dc_shares db !! ds_id s = None.

Lemma handle_packets_spec packets : forall db lines,
  fresh_ids db (share_of <$> List.filter known packets) -> (forall tp, tp ∈ packets -> known tp = false -> write_ok (line_of tp) = true) ->
  fold_left (handle_packet gateways write_ok) packets (Ok db, lines) =
  (Ok (mkShareTables (gateway_shares db) (list_to_map (keyed (share_of <$> List.filter known packets)) ∪ gateway_dc_shares db)),
   lines ++ (line_of <$> List.filter (fun tp => negb (known tp)) packets)).
Proof.
  induction packets as [|tp packets IH]; intros db lines [Hn Hf] Hw.
  { cbn. rewrite app_nil_r, map_empty_union. by destruct db. }
  cbn [fold_left List.filter] in *. destruct (known tp) eqn:Hk; cbn [negb fmap list_fmap keyed list_to_map foldr] in *.
  - apply NoDup_cons in Hn as [Hni Hn]. rewrite handle_packet_known by done.
    assert ((dc_share_save db (share_of tp)).1 = mkShareTables (gateway_shares db) (<[ds_id (share_of tp) := share_of tp]> (gateway_dc_shares db))) as ->.
    { unfold dc_share_save. cbn [fst]. rewrite Hf by left. done. }
    rewrite IH; [| |intros tp' ?; apply Hw; by right].
    + cbn [gateway_shares gateway_dc_shares]. do 3 f_equal. rewrite <- insert_union_r, insert_union_l; [done|].
      apply not_elem_of_list_to_map. rewrite keyed_ids. exact Hni.
    + split; [done|]. intros s Hs. cbn [gateway_dc_shares]. rewrite lookup_insert_ne; [apply Hf; by right|]. intros E. apply Hni. rewrite E. by apply list_elem_of_fmap_2.
  - rewrite handle_packet_unknown, Hw by (done || by left). rewrite IH; [|by split|intros tp' ?; apply Hw; by right].
    by rewrite <- app_assoc.
Qed.

(** every packet of a file is accounted for once.  When the file is new, its
    ids are new and the sink accepts the lines, the table gains exactly one share
    for each packet of a known gateway, with the packet's gateway, time and data
    credits; each other packet is a line of the sink, in order; and the file is
    recorded.  A file that was recorded before changes nothing. *)
Theorem packet_file_accounted process file now packets rows db :
  fresh_ids db (share_of <$> List.filter known packets) -> (forall tp, tp ∈ packets -> known tp = false -> write_ok (line_of tp) = true) ->
  handle_packet_file gateways write_ok process file now packets rows db =
  match rows !! fi_key file with
  | Some _ => (Err tt, [])
  | None =>
      (Ok (<[fi_key file := mkRow process (fi_prefix file) (fi_timestamp file) now]> rows,
           mkShareTables (gateway_shares db) (list_to_map (keyed (share_of <$> List.filter known packets)) ∪ gateway_dc_shares db)),
       line_of <$> List.filter (fun tp => negb (known tp)) packets)
  end.
Proof.
  intros Hf Hw. unfold handle_packet_file, record. destruct (rows !! fi_key file); [done|]. by rewrite handle_packets_spec.
Qed.
End PacketSpec.

(** ** What a purge leaves *)

(** Rows that satisfy a test, as a map. *)
Lemma filter_rows (p : Report -> bool) (t : gmap string Report) : List.filter p (rows t) ≡ₚ rows (filter (fun kv => p kv.2 = true) t).
Proof. apply map_rows_filter. Qed.

(** The step of both loops: the row that a line was written for is deleted. *)
Definition purge_step {A} (line : Report -> option A) (key : Report -> string) (acc : gmap string Report * list A) (r : Report)
  : gmap string Report * list A :=
  match line r with Some x => (delete (key r) acc.1, acc.2 ++ [x]) | None => acc end.

Lemma purge_fold {A} (line : Report -> option A) key l : forall (t : gmap string Report) s,
  fold_left (purge_step line key) l (t, s) =
  (filter (fun kv => Forall (fun r => line r = None \/ key r <> kv.1) l) t, s ++ omap line l).
Proof.
  induction l as [|r l IH]; intros t s; cbn [fold_left omap list_omap].
  { rewrite app_nil_r. f_equal. symmetry. apply map_filter_id. intros. apply Forall_nil_2. }
  unfold purge_step at 2. destruct (line r) as [x|] eqn:E; cbn [fst snd]; rewrite IH.
  - rewrite <- app_assoc. cbn. f_equal. apply map_eq. intros i. rewrite !map_lookup_filter. destruct (decide (key r = i)) as [<-|Hne].
    + rewrite lookup_delete_eq. cbn. destruct (t !! key r); [|done]. cbn. rewrite option_guard_False; [done|]. rewrite Forall_cons, E. naive_solver.
    + rewrite lookup_delete_ne by done. destruct (t !! i); [|done]. cbn. apply option_guard_iff. rewrite Forall_cons. cbn. naive_solver.
  - f_equal. apply map_filter_ext. intros i r' _. rewrite Forall_cons. naive_solver.
Qed.

Lemma elem_of_report_rows (t : gmap string Report) r : r ∈ rows t <-> exists id, t !! id = Some r.
Proof.
  unfold rows. rewrite list_elem_of_fmap. split; [intros ([i r'] & -> & Hi)|intros [i Hi]].
  - exists i. by apply elem_of_map_to_list.
  - exists (i, r). split; [done|]. by apply elem_of_map_to_list.
Qed.

(** One of the loops, over the stale rows of a table. *)
Definition purged {A} (stale : Report -> bool) (line : Report -> option A) (r : Report) : bool := stale r && bool_decide (is_Some (line r)).

Lemma purge_stage {A} (stale : Report -> bool) (line : Report -> option A) key (t : gmap string Report) s :
  (forall id r, t !! id = Some r -> stale r = true -> is_Some (line r) -> key r = id) ->
  fold_left (purge_step line key) (List.filter stale (rows t)) (t, s) =
  (filter (fun kv => purged stale line kv.2 = false) t, s ++ omap line (List.filter stale (rows t))).
Proof.
  intros Hkey. rewrite purge_fold. f_equal. apply map_filter_ext. intros i r Hi. cbn [fst snd]. unfold purged. split.
  - intros Hall. destruct (stale r) eqn:Es; [|done]. apply bool_decide_eq_false. intros Hl.
    rewrite Forall_forall in Hall. destruct (Hall r) as [E|E].
    + apply elem_of_filter_bool. split; [|done]. apply elem_of_report_rows. by exists i.
    + rewrite E in Hl. by destruct Hl.
    + by apply E, Hkey.
  - intros Hp. apply Forall_forall. intros r' Hr'. apply elem_of_filter_bool in Hr' as [Hr' Es]. apply elem_of_report_rows in Hr' as [j Hj].
    destruct (line r') as [x|] eqn:El; [|by left]. right. intros <-. assert (key r' = j) as Ek by (apply Hkey; [done|done|by exists x]).
    rewrite Ek in Hi. rewrite Hj in Hi. injection Hi as <-. by rewrite Es, El in Hp.
Qed.

Lemma omap_purged {A} (stale : Report -> bool) (line : Report -> option A) (t : gmap string Report) :
  omap line (List.filter stale (rows t)) ≡ₚ omap line (rows (filter (fun kv => purged stale line kv.2 = true) t)).
Proof.
  rewrite <- filter_rows. assert (forall l, omap line (List.filter stale l) = omap line (List.filter (purged stale line) l)) as ->; [|done].
  induction l as [|r l IH]; [done|]. cbn [List.filter]. unfold purged at 1. destruct (stale r); [|exact IH]. cbn [andb omap list_omap].
  destruct (line r) as [x|] eqn:E; [cbn; rewrite E; by f_equal|exact IH].
Qed.

Section PurgeSpec.
Context {PT : ProtoTypes} {CH : Chrono} {HB : Blake3} {CO : IngestCodec}.
Variables (self : Purger) (env : purge_env).

(** Rows are stored under the id of the report they hold. *)
Definition rows_named (t : gmap string Report) : Prop := forall id r, t !! id = Some r ->
  (is_beacon r = true -> forall b, decode_beacon (rep_report_data r) = Ok b -> beacon_ingest_id b = id) /\
  (is_witness r = true -> forall w, decode_witness (rep_report_data r) = Ok w -> witness_ingest_id w = id).

Definition beacon_line (r : Report) : option IotInvalidBeaconReport :=
  match decode_beacon (rep_report_data r) with Ok b => if beacon_write_ok env (stale_beacon b) then Some (stale_beacon b) else None | Err _ => None end.

Definition witness_line (r : Report) : option IotInvalidWitnessReport :=
  match decode_witness (rep_report_data r) with Ok w => if witness_write_ok env (stale_witness w) then Some (stale_witness w) else None | Err _ => None end.

Definition beacon_key (r : Report) : string := match decode_beacon (rep_report_data r) with Ok b => beacon_ingest_id b | Err _ => "" end.
Definition witness_key (r : Report) : string := match decode_witness (rep_report_data r) with Ok w => witness_ingest_id w | Err _ => "" end.

Definition beacon_stale (now : Z) (r : Report) : bool :=
  is_beacon r && has_status Ready r && (rep_created_at r <? now - (base_stale_period self + beacon_stale_period self)).

Definition witness_stale (now : Z) (r : Report) : bool :=
  is_witness r && has_status Ready r && (rep_created_at r <? now - (base_stale_period self + witness_stale_period self)).

Lemma fold_left_steps {A C} (f g : A -> C -> A) l : (forall a c, f a c = g a c) -> forall a, fold_left f l a = fold_left g l a.
Proof. intros E. induction l as [|c l IH]; intros a; [done|]. cbn. by rewrite E. Qed.

Lemma purge_beacons now (t : gmap string Report) s : rows_named t ->
  fold_left (handle_purged_beacon env) (get_stale_beacons t now (base_stale_period self + beacon_stale_period self)) (t, s) =
  (filter (fun kv => purged (beacon_stale now) beacon_line kv.2 = false) t, s ++ omap beacon_line (List.filter (beacon_stale now) (rows t))).
Proof.
  intros Hn. rewrite (fold_left_steps _ (purge_step beacon_line beacon_key)).
  - apply (purge_stage (beacon_stale now)). intros id r Hr Hs Hl. unfold beacon_stale in Hs. destruct (Hn id r Hr) as [Hb _].
    unfold beacon_key. unfold beacon_line in Hl. destruct (decode_beacon (rep_report_data r)) as [b|]; [|by destruct Hl].
    apply Hb; [|done]. by destruct (is_beacon r).
  - intros acc r. unfold handle_purged_beacon, purge_step, beacon_line, beacon_key, delete_report. destruct (decode_beacon _) as [b|]; [|done].
    by destruct (beacon_write_ok env (stale_beacon b)).
Qed.

Lemma purge_witnesses now (t : gmap string Report) s : rows_named t ->
  fold_left (handle_purged_witness env) (get_stale_witnesses t now (base_stale_period self + witness_stale_period self)) (t, s) =
  (filter (fun kv => purged (witness_stale now) witness_line kv.2 = false) t, s ++ omap witness_line (List.filter (witness_stale now) (rows t))).
Proof.
  intros Hn. rewrite (fold_left_steps _ (purge_step witness_line witness_key)).
  - apply (purge_stage (witness_stale now)). intros id r Hr Hs Hl. unfold witness_stale in Hs. destruct (Hn id r Hr) as [_ Hw].
    unfold witness_key. unfold witness_line in Hl. destruct (decode_witness (rep_report_data r)) as [w|]; [|by destruct Hl].
    apply Hw; [|done]. by destruct (is_witness r).
  - intros acc r. unfold handle_purged_witness, purge_step, witness_line, witness_key, delete_report. destruct (decode_witness _) as [w|]; [|done].
    by destruct (witness_write_ok env (stale_witness w)).
Qed.

Lemma rows_named_sub (t t' : gmap string Report) : t' ⊆ t -> rows_named t -> rows_named t'.
Proof. intros Hs Hn id r Hr. by apply Hn, (lookup_weaken t' t). Qed.

(** A beacon is not a witness. *)
Lemma stale_kinds now r : beacon_stale now r = true -> witness_stale now r = false.
Proof. unfold beacon_stale, witness_stale, is_beacon, is_witness. by destruct (rep_report_type r). Qed.

(** What happens to a row in one of the loops. *)
Lemma purged_row {A} (stale : Report -> bool) (line : Report -> option A) (t : gmap string Report) id r : t !! id = Some r ->
  filter (fun kv : string * Report => purged stale line kv.2 = false) t !! id = Some r \/
  filter (fun kv : string * Report => purged stale line kv.2 = false) t !! id = None /\ stale r = true /\
    exists x, line r = Some x /\ x ∈ omap line (List.filter stale (rows t)).
Proof.
  intros Hr. destruct (purged stale line r) eqn:E; [right|left; by apply map_lookup_filter_Some].
  split; [apply map_lookup_filter_None; right; intros r' E'; rewrite Hr in E'; injection E' as <-; cbn; congruence|].
  unfold purged in E. apply andb_true_iff in E as [Es El]. split; [done|]. apply bool_decide_eq_true in El as [x Hx]. exists x. split; [done|].
  apply list_elem_of_omap. exists r. split; [|done]. apply elem_of_filter_bool. split; [|done]. apply elem_of_report_rows. by exists id.
Qed.

(** The stale witnesses are not among the beacons that were removed. *)
Lemma witness_rows now (t : gmap string Report) :
  filter (fun kv : string * Report => purged (witness_stale now) witness_line kv.2 = true)
    (filter (fun kv : string * Report => purged (beacon_stale now) beacon_line kv.2 = false) t) =
  filter (fun kv : string * Report => purged (witness_stale now) witness_line kv.2 = true) t.
Proof.
  rewrite map_filter_filter. apply map_filter_ext. intros i r _. cbn [snd]. split; [naive_solver|]. intros Hw. split; [done|].
  unfold purged in *. destruct (beacon_stale now r) eqn:E; [|done]. by rewrite (stale_kinds now r E) in Hw.
Qed.

End PurgeSpec.

(** ** Two packets and a stale beacon *)

Section Examples.
Import ExampleProto ExampleRunner.

Definition packet (gateway hash : string) : IotValidPacket := mkIotValidPacket 24 gateway hash 2 5000000.

Lemma packet_file_accounted_witness :
  exists db, handle_packet_file (dec := Q) (re_gateway_cache env) (fun _ => true) "p" (mkFileInfo "f" "iot_valid_packet" 7 1) 9
    [(1, packet "g1" "h1"); (2, packet "g3" "h2"); (3, packet "g1" "h3")] ∅ (mkShareTables ∅ ∅) =
    (Ok (<["f" := mkRow "p" "iot_valid_packet" 7 9]> ∅, db), [line_of (2, packet "g3" "h2")]) /\ size (gateway_dc_shares db) = 2%nat.
Proof.
  eexists. split; [rewrite packet_file_accounted|].
  - reflexivity.
  - split; [|done]. vm_compute. repeat constructor; set_solver.
  - done.
  - vm_compute. reflexivity.
Defined.

Definition stale_table : gmap string Report := {[rep_id row1 := row1]}.

Lemma stale_table_named : rows_named stale_table.
Proof.
  intros id r Hr. unfold stale_table in Hr. apply lookup_singleton_Some in Hr as [<- <-]. split; [|done]. intros _ b Hb. vm_compute in Hb. injection Hb as <-. by vm_compute.
Qed.

Definition purger : Purger := mkPurger (secs 60) BEACON_STALE_PERIOD WITNESS_STALE_PERIOD ENTROPY_STALE_PERIOD.

End Examples.
