(* ===== verification/IotLoader.v ===== *)
(** * Report loader of the IoT verifier

    [iot_verifier/src/loader.rs]: beacons and witnesses are read from the ingest
    files of a sliding window into the report table.  Hashing and the xor filter
    are parameters.  Files and chunks that the source reads concurrently are read
    in the order of the listing. *)

From S2P Require Import Prelude Solana Text FileStoreTypes FileNames FilePoller Decimal IotReports DenyList.
From S2P Require Import IotRewards IotShareTables IotPoc IotReportTable IotRunner IotPackets.

Open Scope Z_scope.
Open Scope oracle_scope.

(** [XxHash64] of a packet, and [Xor16]: a filter contains what it was made from,
    and may contain more. *)
Class PacketFilter : Type := {
  xx_hash64 : string -> Z;
  Xor16 : Type;
  xor16_from : list Z -> Xor16;
  xor16_contains : Xor16 -> Z -> bool;
  xor16_from_contains l k : k ∈ l -> xor16_contains (xor16_from l) k = true
}.

Definition REPORTS_META_NAME : string := "report".

Record Loader : Type := mkLoader {
  ld_window_width : Z;
  ld_ingestor_rollup_time : Z;
  ld_max_lookback_age : Z
}.

(** [Vec::dedup]: of equal elements in a row the first stays. *)
Fixpoint dedup (l : list Z) : list Z :=
  match l with
  | [] => []
  | x :: rest => match dedup rest with
                 | y :: ys => if x =? y then y :: ys else x :: y :: ys
                 | [] => [x]
                 end
  end.

Section Load.
Context {PT : ProtoTypes} {CH : Chrono} {HB : Blake3} {CO : IngestCodec} {PF : PacketFilter}
  {B : Type} {store : ObjectStore B}.
Variable self : Loader.
(** The files of the store, the messages of a file, and the known gateways. *)
Variables (bucket : B) (stream_file : FileInfo -> result (list (result string unit)) unit)
  (gateways : gmap PublicKeyBinary GatewayInfo).

Definition filter_key_hash (data : string) : Z := xx_hash64 data.

Definition verify_witness_packet_data (packet : string) (filter : Xor16) : bool := xor16_contains filter (filter_key_hash packet).

Definition check_unknown_gw (pub_key : PublicKeyBinary) : bool := negb (is_ok (resolve_gateway_info gateways pub_key)).

Definition beacon_bindings (beacon : IotBeaconIngestReport) (buf : string) : InsertBindings :=
  mkBindings (beacon_ingest_id beacon) (br_remote_entropy (bi_report beacon)) (br_data (bi_report beacon)) buf
    (bi_received_timestamp beacon) IotRewards.Beacon Pending.

Definition witness_bindings (witness : IotWitnessIngestReport) (buf : string) : InsertBindings :=
  mkBindings (witness_ingest_id witness) "" (wr_data (wi_report witness)) buf (wi_received_timestamp witness) IotRewards.Witness Ready.

(** [handle_report]: what is to be inserted, and the hash for the filter; [None] for
    a report that is dropped or an error, which is only logged. *)
Definition handle_report (file_type buf : string) (xor_data : bool) (xor_filter : option Xor16) : option (InsertBindings * list Z) :=
  match file_type_from_str file_type with
  | Some FileNames.IotBeaconIngestReport =>
      match decode_beacon buf with
      | Ok beacon =>
          if check_unknown_gw (br_pub_key (bi_report beacon)) then None
          else Some (beacon_bindings beacon buf, if xor_data then [filter_key_hash (br_data (bi_report beacon))] else [])
      | Err _ => None
      end
  | Some FileNames.IotWitnessIngestReport =>
      match decode_witness buf with
      | Ok witness =>
          match xor_filter with
          | Some filter =>
              if verify_witness_packet_data (wr_data (wi_report witness)) filter
              then if check_unknown_gw (wr_pub_key (wi_report witness)) then None else Some (witness_bindings witness buf, [])
              else None
          | None => None
          end
      | Err _ => None
      end
  | _ => None
  end.

(** The reports of a chunk of messages. *)
Definition handle_chunk (file_type : string) (xor_data : bool) (xor_filter : option Xor16) (msgs : list (result string unit))
  : list (InsertBindings * list Z) :=
  omap (fun msg => match msg with Ok buf => handle_report file_type buf xor_data xor_filter | Err _ => None end) msgs.

(** [chunks(600)] *)
Fixpoint chunks {A} (fuel n : nat) (l : list A) : list (list A) :=
  match fuel, l with
  | O, _ | _, [] => []
  | S fuel, _ => take n l :: chunks fuel n (drop n l)
  end.

(** [process_file]: the inserts of a file are one transaction. *)
Definition process_file (t : poc_reports) (now : Z) (xor_data : bool) (xor_filter : option Xor16) (info : FileInfo)
  : result (poc_reports * list Z) unit :=
  let? msgs := stream_file info in
  Ok (fold_left (fun acc chunk =>
        let found := handle_chunk (fi_prefix info) xor_data xor_filter chunk in
        (bulk_insert acc.1 now found.*1, acc.2 ++ concat found.*2)) (chunks (length msgs) 600 msgs) (t, [])).

(** [process_events]: a file that fails is passed over. *)
Definition process_events (t : poc_reports) (now : Z) (file_type : FileType) (after before : Z) (xor_data : bool) (xor_filter : option Xor16)
  : option (result (poc_reports * list Z) unit) :=
  match list_all bucket (file_type_str file_type) (Some after) (Some before) with
  | None => None
  | Some (Err e) => Some (Err e)
  | Some (Ok infos) =>
      Some (Ok (fold_left (fun acc info =>
        match process_file acc.1 now xor_data xor_filter info with
        | Ok r => (r.1, acc.2 ++ r.2)
        | Err _ => acc
        end) infos (t, [])))
  end.

(** [process_window]: an error of either listing is only logged. *)
Definition process_window (t : poc_reports) (now after before : Z) : option poc_reports :=
  beacons ← process_events t now FileNames.IotBeaconIngestReport after before true None;
  let '(t, xor_data) := match beacons with Ok r => r | Err _ => (t, []) end in
  let beacon_packet_data := dedup (sort_by_key id xor_data) in
  let filter := xor16_from beacon_packet_data in
  match beacon_packet_data with
  | [] => Some t
  | _ =>
      let margin := ld_ingestor_rollup_time self + 120 * nanos_per_sec in
      witnesses ← process_events t now FileNames.IotWitnessIngestReport (after - margin) (before + margin) false (Some filter);
      Some (match witnesses with Ok r => r.1 | Err _ => t end)
  end.

(** The window of a tick. *)
Definition window (meta : meta_table) (now : Z) : result (option (Z * Z)) MetaError :=
  let window_default_lookback := now - ld_window_width self * 4 in
  let window_max_lookback := now - ld_max_lookback_age self in
  let? last := meta_last_timestamp meta REPORTS_META_NAME in
  let after := Z.max (default window_default_lookback last) window_max_lookback in
  let before_max := after + ld_window_width self in
  let before := Z.min (now - ld_window_width self * 3) before_max in
  Ok (if before - after <? ld_window_width self then None else Some (after, before)).

(** [handle_report_tick]; [None] is a panic of the listing. *)
Definition handle_report_tick (t : poc_reports) (meta : meta_table) (now : Z) : option (result (poc_reports * meta_table) MetaError) :=
  match window meta now with
  | Err e => Some (Err e)
  | Ok None => Some (Ok (t, meta))
  | Ok (Some (after, before)) =>
      t ← process_window t now after before;
      Some (Ok (pending_beacons_to_ready t now, meta_update_last_timestamp meta REPORTS_META_NAME (Some before)))
  end.
End Load.

(** ** Bulk inserts *)

Lemma bulk_insert_app t now l l' : bulk_insert t now (l ++ l') = bulk_insert (bulk_insert t now l) now l'.
Proof. apply fold_left_app. Qed.

Lemma insert_report_keeps t now b id r : t !! id = Some r -> insert_report t now b !! id = Some r.
Proof. intros Hr. unfold insert_report. destruct (t !! ins_id b) eqn:E; [done|]. rewrite lookup_insert_ne; [done|]. congruence. Qed.

Lemma bulk_insert_keeps t now l id r : t !! id = Some r -> bulk_insert t now l !! id = Some r.
Proof. revert t. induction l as [|b l IH]; intros t Hr; [done|]. by apply IH, insert_report_keeps. Qed.

Definition report_of (now : Z) (b : InsertBindings) : Report :=
  mkReport (ins_id b) (ins_remote_entropy b) (ins_packet_data b) (ins_buf b) (ins_report_type b) (ins_status b) 0 (ins_received_ts b) now now.

Lemma bulk_insert_has t now l b : b ∈ l -> is_Some (bulk_insert t now l !! ins_id b).
Proof.
  intros Hb. apply list_elem_of_split in Hb as (l1 & l2 & ->). rewrite bulk_insert_app. cbn. set (t1 := bulk_insert t now l1).
  assert (exists r, insert_report t1 now b !! ins_id b = Some r) as [r Hr].
  { unfold insert_report. destruct (t1 !! ins_id b) as [r|] eqn:E; [by exists r|]. rewrite lookup_insert_eq. by eexists. }
  exists r. by apply bulk_insert_keeps.
Qed.

Lemma bulk_insert_new t now l id r : bulk_insert t now l !! id = Some r -> t !! id = Some r \/ exists b, b ∈ l /\ id = ins_id b /\ r = report_of now b.
Proof.
  revert t. induction l as [|b l IH]; intros t Hr; [by left|]. cbn in Hr. destruct (IH _ Hr) as [H1|(b' & Hb & E)]; [|right; exists b'; set_solver].
  unfold insert_report in H1. destruct (t !! ins_id b) eqn:E; [by left|]. apply lookup_insert_Some in H1 as [[<- <-]|[_ H1]]; [|by left].
  right. exists b. split; [by left|done].
Qed.

Lemma chunks_concat {A} fuel (l : list A) : (length l <= fuel)%nat -> concat (chunks fuel 600 l) = l.
Proof.
  revert l. induction fuel as [|fuel IH]; intros [|a l] Hl; try done; [cbn in Hl; lia|]. cbn [chunks concat]. rewrite IH; [apply take_drop|].
  rewrite length_drop. cbn in *. lia.
Qed.

Section LoadSpec.
Context {PT : ProtoTypes} {CH : Chrono} {HB : Blake3} {CO : IngestCodec} {PF : PacketFilter}
  {B : Type} {store : ObjectStore B}.
Variable self : Loader.
Variables (bucket : B) (stream_file : FileInfo -> result (list (result string unit)) unit)
  (gateways : gmap PublicKeyBinary GatewayInfo).

(** What is found in a file, and in the files of a window. *)
Definition found_in (xor_data : bool) (xor_filter : option Xor16) (info : FileInfo) : list (InsertBindings * list Z) :=
  match stream_file info with Ok msgs => handle_chunk gateways (fi_prefix info) xor_data xor_filter msgs | Err _ => [] end.

Definition all_found xor_data xor_filter (infos : list FileInfo) : list (InsertBindings * list Z) := concat (found_in xor_data xor_filter <$> infos).

Lemma handle_chunk_app ty x f l l' : handle_chunk gateways ty x f (l ++ l') = handle_chunk gateways ty x f l ++ handle_chunk gateways ty x f l'.
Proof. apply omap_app. Qed.

Lemma process_file_spec t now x f info :
  process_file stream_file gateways t now x f info =
  match stream_file info with Ok _ => Ok (bulk_insert t now (found_in x f info).*1, concat (found_in x f info).*2) | Err e => Err e end.
Proof.
  unfold process_file, found_in. destruct (stream_file info) as [msgs|e]; [|done]. cbn [result_bind]. f_equal.
  assert (forall cs t acc, fold_left (fun acc chunk => let found := handle_chunk gateways (fi_prefix info) x f chunk in
    (bulk_insert acc.1 now found.*1, acc.2 ++ concat found.*2)) cs (t, acc) =
    (bulk_insert t now (handle_chunk gateways (fi_prefix info) x f (concat cs)).*1, acc ++ concat (handle_chunk gateways (fi_prefix info) x f (concat cs)).*2)) as Hgen.
  { induction cs as [|c cs IH]; intros t0 acc; cbn [fold_left concat]; [cbn; by rewrite app_nil_r|]. rewrite IH. cbn [fst snd].
    by rewrite handle_chunk_app, !fmap_app, bulk_insert_app, concat_app, app_assoc. }
  rewrite Hgen, chunks_concat by done. done.
Qed.

Lemma process_events_spec t now ty after before x f infos :
  list_all bucket (file_type_str ty) (Some after) (Some before) = Some (Ok infos) ->
  process_events bucket stream_file gateways t now ty after before x f =
  Some (Ok (bulk_insert t now (all_found x f infos).*1, concat (all_found x f infos).*2)).
Proof.
  intros E. unfold process_events. rewrite E. do 2 f_equal. unfold all_found.
  assert (forall infos t acc, fold_left (fun acc info => match process_file stream_file gateways acc.1 now x f info with Ok r => (r.1, acc.2 ++ r.2) | Err _ => acc end) infos (t, acc) =
    (bulk_insert t now (concat (found_in x f <$> infos)).*1, acc ++ concat (concat (found_in x f <$> infos)).*2)) as Hgen.
  { induction infos0 as [|i infos0 IH]; intros t0 acc; cbn [fold_left]; [cbn; by rewrite app_nil_r|]. rewrite fmap_cons. cbn [concat fst snd]. rewrite process_file_spec.
    destruct (stream_file i) as [msgs|e] eqn:Es.
    - rewrite IH. cbn [fst snd]. by rewrite !fmap_app, bulk_insert_app, concat_app, app_assoc.
    - rewrite IH. assert (found_in x f i = []) as -> by (unfold found_in; by rewrite Es). done. }
  by rewrite Hgen.
Qed.

(** ** What a window loads *)

(** A message of a readable file of the window. *)
Definition message_in (ty : FileType) (lo hi : Z) (buf : string) : Prop :=
  exists info msgs, info ∈ visible bucket (file_type_str ty) /\ in_window lo hi info = true /\ stream_file info = Ok msgs /\ Ok buf ∈ msgs.

Definition beacon_in (lo hi : Z) (buf : string) (b : IotBeaconIngestReport) : Prop :=
  message_in FileNames.IotBeaconIngestReport lo hi buf /\ decode_beacon buf = Ok b /\ is_Some (gateways !! br_pub_key (bi_report b)).

Definition witness_in (lo hi : Z) (buf : string) (w : IotWitnessIngestReport) : Prop :=
  message_in FileNames.IotWitnessIngestReport lo hi buf /\ decode_witness buf = Ok w /\ is_Some (gateways !! wr_pub_key (wi_report w)).

(** The listing of a type works. *)
Definition listing_ok (ty : FileType) (lo : Z) : Prop :=
  well_named bucket (file_type_str ty) /\ time_i64 lo /\ millis_13 (lo / nanos_per_milli) /\
  Forall (fun r => exists os, r = Ok os) (list_pages bucket (file_type_str ty) (Some (file_key (file_type_str ty) lo))).

Lemma type_prefix_ok ty : prefix_ok (file_type_str ty).
Proof. destruct (file_type_str_chars ty) as [H1 H2]. by split. Qed.

Lemma listing_files ty lo hi : listing_ok ty lo ->
  list_all bucket (file_type_str ty) (Some lo) (Some hi) = Some (Ok (List.filter (in_window lo hi) (visible bucket (file_type_str ty)))).
Proof. intros (H1 & H2 & H3 & H4). by apply list_all_window; [apply type_prefix_ok|..]. Qed.

Lemma visible_type ty info : well_named bucket (file_type_str ty) -> info ∈ visible bucket (file_type_str ty) -> fi_prefix info = file_type_str ty.
Proof.
  intros Hn Hi. destruct (visible_key (poller_config (file_type_str ty) (MaxLookback 0)) bucket info (type_prefix_ok ty) Hn Hi) as (t & size & _ & -> & _). done.
Qed.

Lemma known_gateway k : check_unknown_gw gateways k = false <-> is_Some (gateways !! k).
Proof. unfold check_unknown_gw, resolve_gateway_info. destruct (gateways !! k); cbn; split; try done; by intros []. Qed.

Lemma elem_of_found ty lo hi x f y : well_named bucket (file_type_str ty) ->
  y ∈ all_found x f (List.filter (in_window lo hi) (visible bucket (file_type_str ty))) <->
  exists buf, message_in ty lo hi buf /\ handle_report gateways (file_type_str ty) buf x f = Some y.
Proof.
  intros Hn. unfold all_found. rewrite list_elem_of_In, in_concat. setoid_rewrite <- list_elem_of_In. split.
  - intros (l & (info & -> & Hi)%list_elem_of_fmap & Hy). apply elem_of_filter_bool in Hi as [Hi Hw]. unfold found_in in Hy.
    destruct (stream_file info) as [msgs|] eqn:Es; [|set_solver]. apply list_elem_of_omap in Hy as ([buf|] & Hb & Hy); [|done].
    rewrite (visible_type ty info Hn Hi) in Hy. exists buf. split; [by exists info, msgs|done].
  - intros (buf & (info & msgs & Hi & Hw & Es & Hb) & Hy). exists (found_in x f info). split.
    + apply list_elem_of_fmap. exists info. split; [done|]. by apply elem_of_filter_bool.
    + unfold found_in. rewrite Es. apply list_elem_of_omap. exists (Ok buf). by rewrite (visible_type ty info Hn Hi).
Qed.

Lemma handle_beacon buf y : handle_report gateways (file_type_str FileNames.IotBeaconIngestReport) buf true None = Some y <->
  exists b, decode_beacon buf = Ok b /\ is_Some (gateways !! br_pub_key (bi_report b)) /\ y = (beacon_bindings b buf, [filter_key_hash (br_data (bi_report b))]).
Proof.
  unfold handle_report. rewrite file_type_roundtrip. destruct (decode_beacon buf) as [b|e]; [|split; [done|by intros (? & ? & _)]].
  destruct (check_unknown_gw gateways (br_pub_key (bi_report b))) eqn:E.
  - split; [done|]. intros (b' & [= <-] & Hk & _). apply known_gateway in Hk. congruence.
  - apply known_gateway in E. split; [intros [= <-]; by exists b|]. by intros (b' & [= <-] & _ & ->).
Qed.

Lemma handle_witness buf f y : handle_report gateways (file_type_str FileNames.IotWitnessIngestReport) buf false (Some f) = Some y <->
  exists w, decode_witness buf = Ok w /\ is_Some (gateways !! wr_pub_key (wi_report w)) /\ verify_witness_packet_data (wr_data (wi_report w)) f = true /\
    y = (witness_bindings w buf, []).
Proof.
  unfold handle_report. rewrite file_type_roundtrip. destruct (decode_witness buf) as [w|e]; [|split; [done|by intros (? & ? & _)]].
  destruct (verify_witness_packet_data _ f) eqn:Ev; [|split; [done|intros (w' & [= <-] & _ & ? & _); congruence]].
  destruct (check_unknown_gw gateways (wr_pub_key (wi_report w))) eqn:E.
  - split; [done|]. intros (w' & [= <-] & Hk & _). apply known_gateway in Hk. congruence.
  - apply known_gateway in E. split; [intros [= <-]; by exists w|]. by intros (w' & [= <-] & _ & _ & ->).
Qed.

Lemma elem_of_dedup l k : k ∈ dedup l <-> k ∈ l.
Proof.
  induction l as [|x l IH]; [done|]. cbn [dedup]. rewrite elem_of_cons. destruct (dedup l) as [|y ys] eqn:E.
  - rewrite list_elem_of_singleton, <- IH. set_solver.
  - destruct (Z.eqb_spec x y) as [->|Hne]; rewrite <- IH; set_solver.
Qed.

Definition margin : Z := ld_ingestor_rollup_time self + 120 * nanos_per_sec.

(** What the beacons of a window leave: their rows and the hashes of their packets. *)
Lemma beacons_found t now lo hi : listing_ok FileNames.IotBeaconIngestReport lo -> exists l hashes,
  process_events bucket stream_file gateways t now FileNames.IotBeaconIngestReport lo hi true None = Some (Ok (bulk_insert t now l, hashes)) /\
  (forall x, x ∈ l <-> exists buf b, beacon_in lo hi buf b /\ x = beacon_bindings b buf) /\
  (forall k, k ∈ hashes <-> exists buf b, beacon_in lo hi buf b /\ k = filter_key_hash (br_data (bi_report b))).
Proof.
  intros Hl. pose proof Hl as [Hn _]. rewrite (process_events_spec t now _ lo hi true None _ (listing_files _ lo hi Hl)).
  set (found := all_found _ _ _). exists found.*1, (concat found.*2). split; [done|].
  assert (forall y, y ∈ found <-> exists buf b, beacon_in lo hi buf b /\ y = (beacon_bindings b buf, [filter_key_hash (br_data (bi_report b))])) as Hy.
  { intros y. unfold found. rewrite elem_of_found by done. setoid_rewrite handle_beacon. unfold beacon_in. split.
    - intros (buf & Hm & b & Hd & Hk & ->). by exists buf, b.
    - intros (buf & b & (Hm & Hd & Hk) & ->). exists buf. split; [done|]. by exists b. }
  split.
  - intros x. rewrite list_elem_of_fmap. split; [intros (y & -> & (buf & b & Hb & ->)%Hy); by exists buf, b|].
    intros (buf & b & Hb & ->). eexists. split; [|apply Hy; by exists buf, b]. done.
  - intros k. rewrite list_elem_of_In, in_concat. setoid_rewrite <- list_elem_of_In. split.
    + intros (l & (y & -> & (buf & b & Hb & ->)%Hy)%list_elem_of_fmap & Hk). exists buf, b. cbn in Hk. set_solver.
    + intros (buf & b & Hb & ->). eexists. split; [apply list_elem_of_fmap; eexists; split; [|apply Hy; by exists buf, b]; done|]. cbn. set_solver.
Qed.

Lemma witnesses_found t now lo hi f : listing_ok FileNames.IotWitnessIngestReport lo -> exists l hashes,
  process_events bucket stream_file gateways t now FileNames.IotWitnessIngestReport lo hi false (Some f) = Some (Ok (bulk_insert t now l, hashes)) /\
  (forall x, x ∈ l <-> exists buf w, witness_in lo hi buf w /\ verify_witness_packet_data (wr_data (wi_report w)) f = true /\ x = witness_bindings w buf).
Proof.
  intros Hl. pose proof Hl as [Hn _]. rewrite (process_events_spec t now _ lo hi false (Some f) _ (listing_files _ lo hi Hl)).
  set (found := all_found _ _ _). exists found.*1, (concat found.*2). split; [done|]. intros x. rewrite list_elem_of_fmap. unfold found.
  setoid_rewrite elem_of_found; [|done]. setoid_rewrite handle_witness. unfold witness_in. split.
  - intros (y & -> & buf & Hm & w & Hd & Hk & Hv & ->). by exists buf, w.
  - intros (buf & w & (Hm & Hd & Hk) & Hv & ->). eexists. split; [|exists buf; split; [done|by exists w]]. done.
Qed.

(** What a window loads.  The rows of the table stay; every beacon of a known
    gateway in a readable file of the window is in the table afterwards; so is
    every witness of a known gateway, in the wider window, of the packet of such a
    beacon; and every new row is one of these, of a known gateway, with the state
    it starts in. *)
Lemma window_loads t now lo hi :
  listing_ok FileNames.IotBeaconIngestReport lo -> listing_ok FileNames.IotWitnessIngestReport (lo - margin) -> exists t',
  process_window self bucket stream_file gateways t now lo hi = Some t' /\
  (forall id r, t !! id = Some r -> t' !! id = Some r) /\
  (forall buf b, beacon_in lo hi buf b -> is_Some (t' !! beacon_ingest_id b)) /\
  (forall buf b buf' w, beacon_in lo hi buf b -> witness_in (lo - margin) (hi + margin) buf' w -> wr_data (wi_report w) = br_data (bi_report b) ->
    is_Some (t' !! witness_ingest_id w)) /\
  (forall id r, t' !! id = Some r -> t !! id = Some r \/
    (exists buf b, beacon_in lo hi buf b /\ id = beacon_ingest_id b /\ r = report_of now (beacon_bindings b buf)) \/
    (exists buf w, witness_in (lo - margin) (hi + margin) buf w /\ id = witness_ingest_id w /\ r = report_of now (witness_bindings w buf))).
Proof.
  intros Hb Hw. unfold process_window. destruct (beacons_found t now lo hi Hb) as (l & hashes & -> & Hl & Hh). cbn [mbind option_bind]. cbv zeta. fold margin.
  set (data := dedup (sort_by_key id hashes)). assert (forall k, k ∈ data <-> k ∈ hashes) as Hd.
  { intros k. unfold data. rewrite elem_of_dedup. by rewrite (sort_by_key_perm id hashes). }
  assert (forall buf b, beacon_in lo hi buf b -> is_Some (bulk_insert t now l !! beacon_ingest_id b)) as Hbi.
  { intros buf b Hbb. apply (bulk_insert_has t now l (beacon_bindings b buf)), Hl. by exists buf, b. }
  assert (forall id r, bulk_insert t now l !! id = Some r -> t !! id = Some r \/
    exists buf b, beacon_in lo hi buf b /\ id = beacon_ingest_id b /\ r = report_of now (beacon_bindings b buf)) as Hbn.
  { intros id r Hr. apply bulk_insert_new in Hr as [?|(x & (buf & b & Hbb & ->)%Hl & -> & ->)]; [by left|right; by exists buf, b]. }
  destruct data as [|k0 ks] eqn:Ed.
  - eexists. split; [done|]. split; [intros id r; apply bulk_insert_keeps|]. split; [done|]. split.
    + intros buf b buf' w Hbb _ _. exfalso. assert (filter_key_hash (br_data (bi_report b)) ∈ @nil Z) as Hn; [|set_solver]. apply Hd, Hh. by exists buf, b.
    + intros id r Hr. destruct (Hbn id r Hr); [by left|right; by left].
  - destruct (witnesses_found (bulk_insert t now l) now (lo - margin) (hi + margin) (xor16_from (k0 :: ks)) Hw) as (l' & hs & -> & Hl').
    cbn [mbind option_bind fst]. eexists. split; [done|]. split; [intros id r Hr; by apply bulk_insert_keeps, bulk_insert_keeps|]. split; [|split].
    + intros buf b Hbb. destruct (Hbi buf b Hbb) as [r Hr]. exists r. by apply bulk_insert_keeps.
    + intros buf b buf' w Hbb Hww Heq. apply (bulk_insert_has _ now l' (witness_bindings w buf')), Hl'. exists buf', w. split; [done|]. split; [|done].
      apply xor16_from_contains, Hd, Hh. exists buf, b. split; [done|]. by rewrite Heq.
    + intros id r Hr. apply bulk_insert_new in Hr as [Hr|(x & (buf & w & Hww & _ & ->)%Hl' & -> & ->)]; [|right; right; by exists buf, w].
      destruct (Hbn id r Hr); [by left|right; by left].
Qed.
End LoadSpec.

(** ** The rows are those the runner expects *)

Section LoadRows.
Context {PT : ProtoTypes} {CH : Chrono} {HB : Blake3} {CO : IngestCodec} {PF : PacketFilter}
  {B : Type} {store : ObjectStore B}.
Variable self : Loader.
Variables (stream_file : FileInfo -> result (list (result string unit)) unit)
  (gateways : gmap PublicKeyBinary GatewayInfo).

(** A property of the rows that the loader's inserts have and that does not depend
    on the status. *)
Definition loaded_rows (P : string -> Report -> Prop) : Prop :=
  (forall ty buf x f y now, handle_report gateways ty buf x f = Some y -> P (ins_id y.1) (report_of now y.1)) /\
  (forall id r now, P id r -> P id (set_status Ready now r)).

Definition all_rows (P : string -> Report -> Prop) (t : gmap string Report) : Prop := forall id r, t !! id = Some r -> P id r.

Lemma process_events_rows P bucket (t : gmap string Report) now ty lo hi x f r : loaded_rows P -> all_rows P t ->
  process_events bucket stream_file gateways t now ty lo hi x f = Some (Ok r) -> all_rows P r.1.
Proof.
  intros [HP _] Ht E. destruct (list_all bucket (file_type_str ty) (Some lo) (Some hi)) as [[infos|]|] eqn:El.
  - rewrite (process_events_spec bucket stream_file gateways t now ty lo hi x f infos El) in E. injection E as <-. cbn [fst].
    intros id row Hr. apply bulk_insert_new in Hr as [Hr|(b & Hb & -> & ->)]; [by apply Ht|].
    apply list_elem_of_fmap in Hb as (y & -> & Hy). unfold all_found in Hy. rewrite list_elem_of_In, in_concat in Hy.
    destruct Hy as (l & Hl & Hy). apply list_elem_of_In, list_elem_of_fmap in Hl as (info & -> & _). apply list_elem_of_In in Hy. unfold found_in in Hy.
    destruct (stream_file info); [|set_solver]. apply list_elem_of_omap in Hy as ([buf|] & _ & Hy); [|done]. by eapply HP.
  - unfold process_events in E. by rewrite El in E.
  - unfold process_events in E. by rewrite El in E.
Qed.

Lemma tick_rows P bucket (t : gmap string Report) meta now t' meta' : loaded_rows P -> all_rows P t ->
  handle_report_tick self bucket stream_file gateways t meta now = Some (Ok (t', meta')) -> all_rows P t'.
Proof.
  intros HP Ht E. unfold handle_report_tick in E. destruct (window self meta now) as [[[lo hi]|]|]; [|by injection E as <- <-|done].
  destruct (process_window self bucket stream_file gateways t now lo hi) as [t1|] eqn:Ew; [|done]. injection E as <- _.
  assert (all_rows P t1) as Ht1.
  { unfold process_window in Ew. destruct (process_events _ _ _ t now FileNames.IotBeaconIngestReport lo hi true None) as [r|] eqn:Eb; [|done].
    cbn [mbind option_bind] in Ew. assert (all_rows P (match r with Ok r => r | Err _ => (t, []) end).1) as Hr.
    { destruct r as [r|]; [|done]. by eapply process_events_rows. }
    destruct (match r with Ok r => r | Err _ => (t, []) end) as [t2 xs]. cbn in Hr. cbv zeta in Ew. destruct (dedup _) as [|k ks]; [by injection Ew as <-|].
    destruct (process_events _ _ _ t2 now FileNames.IotWitnessIngestReport _ _ false _) as [r2|] eqn:Ew2; [|done]. cbn [mbind option_bind] in Ew. injection Ew as <-.
    destruct r2 as [r2|]; [|done]. by eapply process_events_rows. }
  intros id r. unfold pending_beacons_to_ready, update_where. rewrite lookup_fmap. destruct (t1 !! id) as [r1|] eqn:E1; [|done]. cbn.
  intros [= <-]. destruct (_ && _); [|by apply Ht1]. by apply HP, Ht1.
Qed.

Lemma handle_report_cases ty buf x f y : handle_report gateways ty buf x f = Some y ->
  (exists b, decode_beacon buf = Ok b /\ y.1 = beacon_bindings b buf) \/ (exists w, decode_witness buf = Ok w /\ y.1 = witness_bindings w buf).
Proof.
  unfold handle_report. destruct (file_type_from_str ty) as [[]|]; try done.
  - destruct (decode_beacon buf) as [b|]; [|done]. destruct (check_unknown_gw _ _); [done|]. intros [= <-]. left. by exists b.
  - destruct (decode_witness buf) as [w|]; [|done]. destruct f; [|done]. destruct (verify_witness_packet_data _ _); [|done].
    destruct (check_unknown_gw _ _); [done|]. intros [= <-]. right. by exists w.
Qed.

(** the loader keeps what the runner and the purger rely on: rows are stored
    under the id of the report they hold, with the packet of the beacon. *)
Theorem loader_rows_ok bucket (t : gmap string Report) meta now t' meta' : table_ok t -> rows_named t ->
  handle_report_tick self bucket stream_file gateways t meta now = Some (Ok (t', meta')) -> table_ok t' /\ rows_named t'.
Proof.
  intros Ht Hn E. split; eapply (tick_rows _ bucket); try exact E; try done; (split; [|done]); intros ty buf x f y now' Hy;
    apply handle_report_cases in Hy as [(b & Eb & ->)|(w & Ew & ->)]; split; try done.
  - intros _ b' Hb'. cbn in Hb'. rewrite Eb in Hb'. by injection Hb' as <-.
  - intros _ b' Hb'. cbn in Hb'. rewrite Eb in Hb'. by injection Hb' as <-.
  - intros _ w' Hw'. cbn in Hw'. rewrite Ew in Hw'. by injection Hw' as <-.
Qed.

(** ** The windows *)

Lemma window_width meta now lo hi : window self meta now = Ok (Some (lo, hi)) ->
  hi = lo + ld_window_width self /\ hi <= now - ld_window_width self * 3 /\ now - ld_max_lookback_age self <= lo /\
  exists last, meta_last_timestamp meta REPORTS_META_NAME = Ok last /\
    lo = Z.max (default (now - ld_window_width self * 4) last) (now - ld_max_lookback_age self).
Proof.
  unfold window. destruct (meta_last_timestamp meta REPORTS_META_NAME) as [last|]; [|done]. cbn [result_bind].
  set (a := Z.max _ _). destruct (Z.ltb_spec (Z.min (now - ld_window_width self * 3) (a + ld_window_width self) - a) (ld_window_width self)); [done|].
  intros [= <- <-]. split; [lia|]. split; [lia|]. split; [unfold a; lia|]. by exists last.
Qed.

(** The windows of a run of ticks. *)
Fixpoint windows (meta : meta_table) (nows : list Z) : list (Z * Z) :=
  match nows with
  | [] => []
  | now :: rest =>
      match window self meta now with
      | Ok (Some w) => w :: windows (meta_update_last_timestamp meta REPORTS_META_NAME (Some w.2)) rest
      | _ => windows meta rest
      end
  end.

(** No tick is so late that the start of its window is cut off. *)
Fixpoint keeps_up (meta : meta_table) (nows : list Z) : Prop :=
  match nows with
  | [] => True
  | now :: rest =>
      match meta_last_timestamp meta REPORTS_META_NAME with
      | Ok (Some last) => now - ld_max_lookback_age self <= last
      | _ => True
      end /\
      match window self meta now with
      | Ok (Some w) => time_i64 w.2 /\ keeps_up (meta_update_last_timestamp meta REPORTS_META_NAME (Some w.2)) rest
      | _ => keeps_up meta rest
      end
  end.

(** The end of the last window. *)
Definition span_end (start : Z) (ws : list (Z * Z)) : Z := match last ws with Some w => w.2 | None => start end.

Lemma span_end_cons s w ws : span_end s (w :: ws) = span_end w.2 ws.
Proof. unfold span_end. rewrite last_cons. by destruct (last ws). Qed.

Lemma trunc_le_whole ts b : ts mod nanos_per_milli = 0 -> ts <= trunc_millis b <-> ts <= b.
Proof.
  intros Hm. unfold trunc_millis, nanos_per_milli in *. pose proof (Z.div_mod ts 1000000 ltac:(lia)). pose proof (Z.div_mod b 1000000 ltac:(lia)).
  pose proof (Z.mod_pos_bound b 1000000 ltac:(lia)). nia.
Qed.

Lemma span_end_trunc ts b ws : ts mod nanos_per_milli = 0 -> ts <= span_end b ws -> ts <= span_end (trunc_millis b) ws.
Proof. intros Hm. unfold span_end. destruct (last ws); [done|]. intros H. by apply trunc_le_whole. Qed.

(** ** Runs of ticks *)

(** The ticks of a run, each with the files that are in the store then. *)
Fixpoint load_run (t : poc_reports) (meta : meta_table) (ticks : list (Z * B)) : option (result (poc_reports * meta_table) MetaError) :=
  match ticks with
  | [] => Some (Ok (t, meta))
  | (now, bucket) :: rest =>
      match handle_report_tick self bucket stream_file gateways t meta now with
      | Some (Ok (t, meta)) => load_run t meta rest
      | r => r
      end
  end.

(** The listings of every tick work. *)
Fixpoint listings_ok (meta : meta_table) (ticks : list (Z * B)) : Prop :=
  match ticks with
  | [] => True
  | (now, bucket) :: rest =>
      match window self meta now with
      | Ok (Some w) =>
          listing_ok bucket FileNames.IotBeaconIngestReport w.1 /\
          listing_ok bucket FileNames.IotWitnessIngestReport (w.1 - margin self) /\
          listings_ok (meta_update_last_timestamp meta REPORTS_META_NAME (Some w.2)) rest
      | _ => listings_ok meta rest
      end
  end.

Lemma ready_keeps t now id : is_Some (t !! id) -> is_Some (pending_beacons_to_ready t now !! id).
Proof. unfold pending_beacons_to_ready, update_where. rewrite lookup_fmap. intros [r ->]. by eexists. Qed.

(** A run keeps the rows. *)
Lemma load_run_keeps ticks : forall t meta t' meta' id, listings_ok meta ticks -> load_run t meta ticks = Some (Ok (t', meta')) ->
  is_Some (t !! id) -> is_Some (t' !! id).
Proof.
  induction ticks as [|[now bucket] ticks IH]; intros t meta t' meta' id Hl Hr Hi; cbn [load_run listings_ok] in *; [by injection Hr as <- <-|].
  unfold handle_report_tick in Hr. destruct (window self meta now) as [[[lo hi]|]|]; [|by eapply IH|done].
  destruct Hl as (Hb & Hw & Hl). destruct (window_loads self bucket stream_file gateways t now lo hi Hb Hw) as (t1 & E & Hk & _).
  rewrite E in Hr. cbn [mbind option_bind] in Hr. eapply IH; [exact Hl|exact Hr|]. apply ready_keeps. destruct Hi as [r Hi]. exists r. by apply Hk.
Qed.

(** What the ticks of a run have found, of a file that was in the store in time. *)
Lemma load_run_window ticks : forall t meta t' meta' s info, load_run t meta ticks = Some (Ok (t', meta')) -> listings_ok meta ticks ->
  keeps_up meta ticks.*1 -> meta_last_timestamp meta REPORTS_META_NAME = Ok (Some s) -> fi_timestamp info mod nanos_per_milli = 0 ->
  s < fi_timestamp info <= span_end s (windows meta ticks.*1) ->
  exists t0 now bucket lo hi t1 meta1 rest, (now, bucket) ∈ ticks /\ lo < fi_timestamp info <= hi /\ hi <= now - ld_window_width self * 3 /\
    listing_ok bucket FileNames.IotBeaconIngestReport lo /\ listing_ok bucket FileNames.IotWitnessIngestReport (lo - margin self) /\
    process_window self bucket stream_file gateways t0 now lo hi = Some t1 /\ listings_ok meta1 rest /\
    load_run (pending_beacons_to_ready t1 now) meta1 rest = Some (Ok (t', meta')).
Proof.
  induction ticks as [|[now bucket] ticks IH]; intros t meta t' meta' s info Hr Hl Hk Hs Hm Hb; [cbn in Hb; lia|].
  cbn [load_run listings_ok] in *. rewrite fmap_cons in Hk, Hb. cbn [windows keeps_up fst] in *. rewrite Hs in Hk. unfold handle_report_tick in Hr.
  destruct Hk as [Hage Hk]. destruct (window self meta now) as [[[lo hi]|]|] eqn:Ew; [| |done].
  - destruct Hl as (Hlb & Hlw & Hl), Hk as [Hi Hk]. cbn [fst snd] in *. rewrite span_end_cons in Hb. cbn [snd] in Hb.
    apply window_width in Ew as (-> & Hnow & _ & last & E & ->). rewrite Hs in E. injection E as <-.
    replace (Z.max (default (now - ld_window_width self * 4) (Some s)) (now - ld_max_lookback_age self)) with s in * by (cbn; lia).
    destruct (process_window self bucket stream_file gateways t now s (s + ld_window_width self)) as [t1|] eqn:Ep; [|done]. cbn [mbind option_bind] in Hr.
    destruct (Z.le_gt_cases (fi_timestamp info) (s + ld_window_width self)) as [Hle|Hgt].
    + exists t, now, bucket, s, (s + ld_window_width self), t1. do 2 eexists. split; [by left|]. split; [lia|]. split; [done|]. split; [done|]. split; [done|]. split; [done|]. split; [exact Hl|exact Hr].
    + edestruct IH as (t0 & now' & bk & lo & hi & r); [exact Hr|exact Hl|exact Hk|by apply meta_last_update|exact Hm|..].
      { split; [|apply span_end_trunc; [exact Hm|apply Hb]]. destruct (Z.lt_ge_cases (trunc_millis (s + ld_window_width self)) (fi_timestamp info)) as [|H]; [done|].
        pose proof (proj1 (trunc_le_whole _ _ Hm) H). lia. }
      exists t0, now', bk, lo, hi. destruct r as (t2 & meta1 & rest & Hin & r). exists t2, meta1, rest. split; [by right|done].
  - edestruct IH as (t0 & now' & bk & lo & hi & t1 & meta1 & rest & Hin & r); [exact Hr|exact Hl|exact Hk|exact Hs|exact Hm|exact Hb|].
    exists t0, now', bk, lo, hi, t1, meta1, rest. split; [by right|done].
Qed.

(** A file of a type that is in the store three window widths after its time. *)
Definition in_store_in_time (ty : FileType) (ticks : list (Z * B)) (info : FileInfo) : Prop :=
  forall now bucket, (now, bucket) ∈ ticks -> fi_timestamp info + ld_window_width self * 3 <= now -> info ∈ visible bucket (file_type_str ty).

End LoadRows.

(** ** A beacon and its witness in two files *)

(** A filter that keeps its hashes. *)
#[global] Program Instance list_filter : PacketFilter := {
  xx_hash64 s := Z.of_nat (String.length s);
  Xor16 := list Z;
  xor16_from l := l;
  xor16_contains l k := existsb (Z.eqb k) l
}.
Next Obligation. intros l k Hk. apply existsb_exists. exists k. split; [by apply list_elem_of_In|apply Z.eqb_refl]. Qed.

Module ExampleLoader.
Import ExampleProto ExampleRunner.

Definition two_report_files : sorted_bucket :=
  exist _ [("iot_beacon_ingest_report.1658832527866.gz", 10); ("iot_witness_ingest_report.1658832530000.gz", 20)] eq_refl.

Definition loader : Loader := mkLoader (secs 60) (secs 300) (secs 3600).

Definition contents (info : FileInfo) : result (list (result string unit)) unit :=
  Ok (if String.eqb (fi_prefix info) "iot_beacon_ingest_report" then [Ok "b1"; Err tt; Ok "b2"] else [Ok "w"]).

Definition stored : meta_table := {["report" := Some "1658832500000"]}.
Definition ticks : list (Z * sorted_bucket) := [(1658832600000000000, two_report_files); (1658832800000000000, two_report_files)].

Lemma listing_beacons lo : time_i64 lo -> millis_13 (lo / nanos_per_milli) -> listing_ok two_report_files FileNames.IotBeaconIngestReport lo.
Proof.
  intros H1 H2. split; [|split; [done|split; [done|repeat constructor; by eexists]]].
  intros o Ho Hp. cbn in Ho. repeat (apply elem_of_cons in Ho as [->|Ho]); [|discriminate|by apply not_elem_of_nil in Ho].
  exists 1658832527866000000. split; [vm_compute; reflexivity|]. unfold time_i64, millis_13. vm_compute. intuition congruence.
Qed.

Lemma listing_witnesses lo : time_i64 lo -> millis_13 (lo / nanos_per_milli) -> listing_ok two_report_files FileNames.IotWitnessIngestReport lo.
Proof.
  intros H1 H2. split; [|split; [done|split; [done|repeat constructor; by eexists]]].
  intros o Ho Hp. cbn in Ho. repeat (apply elem_of_cons in Ho as [->|Ho]); [discriminate| |by apply not_elem_of_nil in Ho].
  exists 1658832530000000000. split; [vm_compute; reflexivity|]. unfold time_i64, millis_13. vm_compute. intuition congruence.
Qed.

Lemma first_window : window loader stored 1658832600000000000 = Ok None.
Proof. vm_compute. reflexivity. Qed.

Lemma second_window : window loader stored 1658832800000000000 = Ok (Some (1658832500000000000, 1658832560000000000)).
Proof. vm_compute. reflexivity. Qed.

Lemma ticks_listed : listings_ok loader stored ticks.
Proof.
  unfold ticks. cbn [listings_ok]. rewrite first_window, second_window. cbn [fst snd]. split; [|split; [|done]].
  - apply listing_beacons; unfold time_i64, millis_13; vm_compute; intuition congruence.
  - apply listing_witnesses; unfold time_i64, millis_13; vm_compute; intuition congruence.
Qed.

Lemma ticks_keep_up : keeps_up loader stored ticks.*1.
Proof.
  change ticks.*1 with [1658832600000000000; 1658832800000000000]. cbn [keeps_up]. rewrite first_window, second_window. cbn [snd].
  repeat split; vm_compute; congruence.
Qed.

Lemma run_succeeds : match load_run loader contents (re_gateway_cache env) ∅ stored ticks with Some (Ok _) => true | _ => false end = true.
Proof. vm_compute. reflexivity. Qed.

Lemma tick_succeeds :
  match handle_report_tick loader two_report_files contents (re_gateway_cache env) ∅ stored 1658832800000000000 with
  | Some (Ok (t, _)) => (size t =? 3)%nat
  | _ => false
  end = true.
Proof. vm_compute. reflexivity. Qed.

Lemma beacon_known : match decode_beacon "b1" with Ok b => bool_decide (is_Some (re_gateway_cache env !! br_pub_key (bi_report b))) | Err _ => false end = true.
Proof. vm_compute. reflexivity. Qed.
End ExampleLoader.

Section LoaderWitnesses.
Import ExampleProto ExampleRunner ExampleLoader.


Lemma loader_rows_ok_witness : exists t' meta',
  handle_report_tick loader two_report_files contents (re_gateway_cache env) ∅ stored 1658832800000000000 = Some (Ok (t', meta')) /\
  size t' = 3%nat /\ table_ok t' /\ rows_named t'.
Proof.
  pose proof tick_succeeds as Hrun.
  destruct (handle_report_tick loader two_report_files contents (re_gateway_cache env) ∅ stored 1658832800000000000) as [[[t' meta']|]|] eqn:E; [|discriminate..].
  exists t', meta'. split; [done|]. split; [by apply Nat.eqb_eq|].
  refine (loader_rows_ok loader contents (re_gateway_cache env) two_report_files ∅ stored _ _ _ _ _ E).
  - intros id r Hr. by rewrite lookup_empty in Hr.
  - intros id r Hr. by rewrite lookup_empty in Hr.
Defined.
End LoaderWitnesses.
