(* ===== verification/MobileSessions.v ===== *)
(** * Data transfer sessions of the mobile packet verifier

    [file_store/src/mobile_session.rs] and [mobile_packet_verifier]: the reports of
    transferred data and their messages; [accumulate.rs], which checks the reports
    of a file and adds them up per gateway and payer; [event_ids.rs], which keeps
    reports from counting twice; [burner.rs], which burns the data credits of a
    payer and writes the sessions they paid for; [daemon.rs], which interleaves the
    two.  The configuration service, the clock and the chain are parameters. *)

From S2P Require Import Prelude Solana FileStoreTypes FileNames FilePoller PacketBalances.

Open Scope Z_scope.
Open Scope oracle_scope.

(** ** Reports *)

Inductive DataTransferIngestReportStatus :=
| DtValid | DtDuplicate | DtInvalidGatewayKey | DtInvalidRoutingKey | DtCancelled.

#[global] Instance DtStatus_eq_dec : EqDecision DataTransferIngestReportStatus.
Proof. solve_decision. Defined.

Section Reports.
(** [DataTransferRadioAccessTechnology] of the protocol, with its default. *)
Context {RAT : Type} {rat_enum : ProtoEnum RAT} {rat_default : RAT} {status_enum : ProtoEnum DataTransferIngestReportStatus}
  {chrono : Chrono}.

Record DataTransferEvent : Type := mkEvent {
  ev_pub_key : PublicKeyBinary;
  ev_upload_bytes : Z;
  ev_download_bytes : Z;
  ev_radio_access_technology : RAT;
  ev_event_id : string;
  ev_payer : PublicKeyBinary;
  ev_timestamp : Z;
  ev_signature : string
}.

Record DataTransferSessionReq : Type := mkSessionReq {
  sq_data_transfer_usage : DataTransferEvent;
  sq_rewardable_bytes : Z;
  sq_pub_key : PublicKeyBinary;
  sq_signature : string
}.

Record DataTransferSessionIngestReport : Type := mkSessionIngest {
  si_received_timestamp : Z;
  si_report : DataTransferSessionReq
}.

Record InvalidDataTransferIngestReport : Type := mkInvalidTransfer {
  it_report : DataTransferSessionIngestReport;
  it_reason : DataTransferIngestReportStatus;
  it_timestamp : Z
}.

(** The messages. *)
Record DataTransferEventProto : Type := mkEventProto {
  evp_pub_key : string;
  evp_upload_bytes : Z;
  evp_download_bytes : Z;
  evp_radio_access_technology : Z;
  evp_event_id : string;
  evp_payer : string;
  evp_timestamp : Z;
  evp_signature : string
}.

Record DataTransferSessionReqV1 : Type := mkSessionReqV1 {
  sqp_data_transfer_usage : option DataTransferEventProto;
  sqp_rewardable_bytes : Z;
  sqp_pub_key : string;
  sqp_signature : string
}.

Record DataTransferSessionIngestReportV1 : Type := mkSessionIngestV1 {
  sip_received_timestamp : Z;
  sip_report : option DataTransferSessionReqV1
}.

Record InvalidDataTransferIngestReportV1 : Type := mkInvalidTransferV1 {
  itp_report : option DataTransferSessionIngestReportV1;
  itp_reason : Z;
  itp_timestamp : Z
}.

(** An unknown technology is the default one. *)
Definition event_try_from (v : DataTransferEventProto) : result DataTransferEvent FsError :=
  let? timestamp := to_timestamp (evp_timestamp v) in
  let radio_access_technology := default rat_default (from_i32 (evp_radio_access_technology v)) in
  Ok (mkEvent (evp_pub_key v) (evp_upload_bytes v) (evp_download_bytes v) radio_access_technology (evp_event_id v)
        (evp_payer v) timestamp (evp_signature v)).

Definition event_into (v : DataTransferEvent) : DataTransferEventProto :=
  mkEventProto (ev_pub_key v) (ev_upload_bytes v) (ev_download_bytes v) (to_i32 (ev_radio_access_technology v)) (ev_event_id v)
    (ev_payer v) (encode_timestamp (ev_timestamp v)) (ev_signature v).

Definition session_req_try_from (v : DataTransferSessionReqV1) : result DataTransferSessionReq FsError :=
  let? usage := ok_or (sqp_data_transfer_usage v) (not_found "data transfer usage") in
  let? usage := event_try_from usage in
  Ok (mkSessionReq usage (sqp_rewardable_bytes v) (sqp_pub_key v) (sqp_signature v)).

Definition session_req_into (v : DataTransferSessionReq) : DataTransferSessionReqV1 :=
  mkSessionReqV1 (Some (event_into (sq_data_transfer_usage v))) (sq_rewardable_bytes v) (sq_pub_key v) (sq_signature v).

Definition session_ingest_try_from (v : DataTransferSessionIngestReportV1) : result DataTransferSessionIngestReport FsError :=
  let? received_timestamp := to_timestamp_millis (sip_received_timestamp v) in
  let? report := ok_or (sip_report v) (not_found "data transfer session report") in
  let? report := session_req_try_from report in
  Ok (mkSessionIngest received_timestamp report).

Definition session_ingest_into (v : DataTransferSessionIngestReport) : DataTransferSessionIngestReportV1 :=
  mkSessionIngestV1 (encode_timestamp_millis (si_received_timestamp v)) (Some (session_req_into (si_report v))).

Definition invalid_transfer_try_from (v : InvalidDataTransferIngestReportV1) : result InvalidDataTransferIngestReport FsError :=
  let? reason := ok_or (from_i32 (itp_reason v)) (unsupported_status_reason "invalid_data_transfer_session_reason" (itp_reason v)) in
  let? timestamp := to_timestamp_millis (itp_timestamp v) in
  let? report := ok_or (itp_report v) (not_found "data transfer session ingest report") in
  let? report := session_ingest_try_from report in
  Ok (mkInvalidTransfer report reason timestamp).

Definition invalid_transfer_into (v : InvalidDataTransferIngestReport) : InvalidDataTransferIngestReportV1 :=
  mkInvalidTransferV1 (Some (session_ingest_into (it_report v))) (to_i32 (it_reason v)) (encode_timestamp_millis (it_timestamp v)).
End Reports.
Arguments DataTransferEvent : clear implicits.
Arguments DataTransferSessionReq : clear implicits.
Arguments DataTransferSessionIngestReport : clear implicits.
Arguments InvalidDataTransferIngestReport : clear implicits.

(** What the verifier writes about an invalid report is decoded as it was, up to
    whole milliseconds, and whole seconds for the event. *)
Section Roundtrip.
Context {RAT : Type} {rat_enum : ProtoEnum RAT} {rat_default : RAT} {status_enum : ProtoEnum DataTransferIngestReportStatus}
  {chrono : Chrono}.

Definition whole_event (v : DataTransferEvent RAT) : DataTransferEvent RAT :=
  mkEvent (ev_pub_key v) (ev_upload_bytes v) (ev_download_bytes v) (ev_radio_access_technology v) (ev_event_id v) (ev_payer v)
    (ev_timestamp v / nanos_per_sec * nanos_per_sec) (ev_signature v).

Definition whole_session (v : DataTransferSessionIngestReport RAT) : DataTransferSessionIngestReport RAT :=
  let r := si_report v in
  mkSessionIngest (si_received_timestamp v / nanos_per_milli * nanos_per_milli)
    (mkSessionReq (whole_event (sq_data_transfer_usage r)) (sq_rewardable_bytes r) (sq_pub_key r) (sq_signature r)).

Lemma session_ingest_roundtrip v : time_i64 (si_received_timestamp v) -> time_i64 (ev_timestamp (sq_data_transfer_usage (si_report v))) ->
  session_ingest_try_from (rat_default := rat_default) (session_ingest_into v) = Ok (whole_session v).
Proof.
  intros Ht He. unfold session_ingest_try_from, session_ingest_into. cbn. rewrite timestamp_millis_roundtrip by done. cbn.
  unfold session_req_try_from, event_try_from. cbn. rewrite timestamp_roundtrip by done. cbn. by rewrite from_to_i32.
Qed.

Theorem invalid_transfer_roundtrip v : time_i64 (it_timestamp v) -> time_i64 (si_received_timestamp (it_report v)) ->
  time_i64 (ev_timestamp (sq_data_transfer_usage (si_report (it_report v)))) ->
  invalid_transfer_try_from (rat_default := rat_default) (invalid_transfer_into v) =
  Ok (mkInvalidTransfer (whole_session (it_report v)) (it_reason v) (it_timestamp v / nanos_per_milli * nanos_per_milli)).
Proof.
  intros Ht Hr He. unfold invalid_transfer_try_from, invalid_transfer_into. cbn [itp_reason itp_timestamp itp_report]. rewrite from_to_i32.
  cbn [ok_or result_bind]. rewrite timestamp_millis_roundtrip by done. cbn [ok_or result_bind]. by rewrite session_ingest_roundtrip.
Qed.
End Roundtrip.

(** ** Tables *)

(** Table [data_transfer_sessions], with primary key [(pub_key, payer)]. *)
Record DataTransferSession : Type := mkSession {
  ds_pub_key : PublicKeyBinary;
  ds_payer : PublicKeyBinary;
  ds_uploaded_bytes : Z;
  ds_downloaded_bytes : Z;
  ds_rewardable_bytes : Z;
  ds_first_timestamp : Z;
  ds_last_timestamp : Z
}.

Abbreviation data_transfer_sessions := (gmap (PublicKeyBinary * PublicKeyBinary) DataTransferSession).
Abbreviation event_ids := (gmap string Z).

(** [event_ids::is_duplicate]: the insert that finds the id changes no row. *)
Definition is_duplicate (ids : event_ids) (event_id : string) (received_timestamp : Z) : event_ids * bool :=
  match ids !! event_id with
  | Some _ => (ids, true)
  | None => (<[event_id := received_timestamp]> ids, false)
  end.

(** [event_ids::purge] *)
Definition event_ids_purge (ids : event_ids) (now max_age : Z) : event_ids :=
  filter (fun kv => now - max_age <= kv.2) ids.

(** ** Accumulation *)

Section Accumulate.
Context {RAT GI : Type}.
(** The answers of the configuration service, and the time. *)
Record config_env : Type := mkConfigEnv {
  resolve_gateway : PublicKeyBinary -> result (option GI) unit;
  verify_authorized_key : PublicKeyBinary -> result bool unit;
  invalid_write_ok : InvalidDataTransferIngestReport RAT -> bool;
  env_now : Z
}.
Variable env : config_env.

Definition verify_gateway (public_key : PublicKeyBinary) : bool :=
  match resolve_gateway env public_key with Ok res => bool_decide (is_Some res) | Err _ => false end.

Definition verify_known_routing_key (public_key : PublicKeyBinary) : bool :=
  match verify_authorized_key env public_key with Ok res => res | Err _ => false end.

(** [verify_report]: the id is recorded before the other checks. *)
Definition verify_session_report (ids : event_ids) (report : DataTransferSessionIngestReport RAT) : event_ids * DataTransferIngestReportStatus :=
  let usage := sq_data_transfer_usage (si_report report) in
  let '(ids, duplicate) := is_duplicate ids (ev_event_id usage) (si_received_timestamp report) in
  (ids,
   if duplicate then DtDuplicate
   else if negb (verify_gateway (ev_pub_key usage)) then DtInvalidGatewayKey
   else if negb (verify_known_routing_key (sq_pub_key (si_report report))) then DtInvalidRoutingKey
   else DtValid).

(** The upsert of a session. *)
Definition upsert_session (t : data_transfer_sessions) (report : DataTransferSessionIngestReport RAT) (curr_file_ts : Z)
  : result data_transfer_sessions sqlx_error :=
  let event := sq_data_transfer_usage (si_report report) in
  let key := (ev_pub_key event, ev_payer event) in
  let up := as_i64 (ev_upload_bytes event) in
  let down := as_i64 (ev_download_bytes event) in
  let rewardable := as_i64 (sq_rewardable_bytes (si_report report)) in
  match t !! key with
  | None => Ok (<[key := mkSession key.1 key.2 up down rewardable curr_file_ts curr_file_ts]> t)
  | Some s =>
      let? up := bigint (ds_uploaded_bytes s + up) in
      let? down := bigint (ds_downloaded_bytes s + down) in
      let? rewardable := bigint (ds_rewardable_bytes s + rewardable) in
      Ok (<[key := mkSession (ds_pub_key s) (ds_payer s) up down rewardable (ds_first_timestamp s)
                     (Z.max (ds_last_timestamp s) curr_file_ts)]> t)
  end.

(** The lines of the sink stay when the transaction is rolled back. *)
Definition write_invalid_report (reason : DataTransferIngestReportStatus) (report : DataTransferSessionIngestReport RAT)
    (lines : list (InvalidDataTransferIngestReport RAT)) : list (InvalidDataTransferIngestReport RAT) * bool :=
  let line := mkInvalidTransfer report reason (env_now env) in
  if invalid_write_ok env line then (lines ++ [line], true) else (lines, false).

Fixpoint accumulate_sessions (curr_file_ts : Z) (reports : list (DataTransferSessionIngestReport RAT))
    (t : data_transfer_sessions) (ids : event_ids) (lines : list (InvalidDataTransferIngestReport RAT))
  : result (data_transfer_sessions * event_ids) unit * list (InvalidDataTransferIngestReport RAT) :=
  match reports with
  | [] => (Ok (t, ids), lines)
  | report :: rest =>
      if sq_rewardable_bytes (si_report report) =? 0 then
        let '(lines, ok) := write_invalid_report DtCancelled report lines in
        if ok then accumulate_sessions curr_file_ts rest t ids lines else (Err tt, lines)
      else
        let '(ids, report_validity) := verify_session_report ids report in
        match report_validity with
        | DtValid =>
            match upsert_session t report curr_file_ts with
            | Ok t => accumulate_sessions curr_file_ts rest t ids lines
            | Err _ => (Err tt, lines)
            end
        | _ =>
            let '(lines, ok) := write_invalid_report report_validity report lines in
            if ok then accumulate_sessions curr_file_ts rest t ids lines else (Err tt, lines)
        end
  end.
End Accumulate.
Arguments config_env : clear implicits.

(** ** Burning *)

Definition BYTES_PER_DC : Z := 20000.

Definition bytes_to_dc (bytes : Z) : Z :=
  let bytes := Z.max bytes BYTES_PER_DC in
  u64_add bytes (BYTES_PER_DC - 1) / BYTES_PER_DC.

Record PayerTotals : Type := mkTotals { total_dcs : Z; pt_sessions : list DataTransferSession }.

Definition push_sess (self : PayerTotals) (sess : DataTransferSession) : PayerTotals :=
  mkTotals (u64_add (total_dcs self) (bytes_to_dc (as_u64 (ds_rewardable_bytes sess)))) (pt_sessions self ++ [sess]).

(** The message [ValidDataTransferSession]. *)
Record ValidSessionProto : Type := mkValidSession {
  vs_pub_key : string;
  vs_payer : string;
  vs_upload_bytes : Z;
  vs_download_bytes : Z;
  vs_rewardable_bytes : Z;
  vs_num_dcs : Z;
  vs_first_timestamp : Z;
  vs_last_timestamp : Z
}.

Definition valid_session (session : DataTransferSession) : ValidSessionProto :=
  mkValidSession (ds_pub_key session) (ds_payer session) (as_u64 (ds_uploaded_bytes session)) (as_u64 (ds_downloaded_bytes session))
    (as_u64 (ds_rewardable_bytes session)) (bytes_to_dc (as_u64 (ds_rewardable_bytes session)))
    (encode_timestamp_millis (ds_first_timestamp session)) (encode_timestamp_millis (ds_last_timestamp session)).

Definition payer_totals (sessions : list DataTransferSession) : gmap PublicKeyBinary PayerTotals :=
  group_rows ds_payer (fun o s => push_sess (default (mkTotals 0 []) o) s) sessions.

Section Burn.
Context {N E T : Type} {solana : SolanaNetwork N E T}.
Variable write_ok : ValidSessionProto -> bool.

(** The table, the chain and the sink. *)
Record burn_state : Type := mkBurnState {
  bs_sessions : data_transfer_sessions;
  bs_net : N;
  bs_valid : list ValidSessionProto
}.

Definition burn_data_credits (n : N) (payer : PublicKeyBinary) (amount : Z) : N * result unit E :=
  match make_burn_transaction n payer amount with
  | (n, Ok txn) => submit_transaction n txn
  | (n, Err e) => (n, Err e)
  end.

(** The loop that writes the sessions of a payer. *)
Fixpoint write_sessions (sink : list ValidSessionProto) (sessions : list DataTransferSession) : list ValidSessionProto * bool :=
  match sessions with
  | [] => (sink, true)
  | s :: rest => if write_ok (valid_session s) then write_sessions (sink ++ [valid_session s]) rest else (sink, false)
  end.

Inductive burn_error : Type := BurnFileStore | BurnSolana (e : E).

(** The pass over a payer; a payer who cannot pay, or whose burn fails, is passed
    over. *)
Definition burn_payer (st : burn_state) (payer : PublicKeyBinary) (totals : PayerTotals) : burn_state * result unit burn_error :=
  match payer_balance (bs_net st) payer with
  | Err e => (st, Err (BurnSolana e))
  | Ok balance =>
      if balance <? total_dcs totals then (st, Ok tt)
      else
        let '(n, r) := burn_data_credits (bs_net st) payer (total_dcs totals) in
        match r with
        | Err _ => (mkBurnState (bs_sessions st) n (bs_valid st), Ok tt)
        | Ok _ =>
            let t := filter (fun kv => ds_payer kv.2 <> payer) (bs_sessions st) in
            let '(sink, ok) := write_sessions (bs_valid st) (pt_sessions totals) in
            (mkBurnState t n sink, if ok then Ok tt else Err BurnFileStore)
        end
  end.

Fixpoint burn_payers (totals : list (PublicKeyBinary * PayerTotals)) (st : burn_state) : burn_state * result unit burn_error :=
  match totals with
  | [] => (st, Ok tt)
  | (payer, t) :: rest =>
      match burn_payer st payer t with
      | (st, Ok _) => burn_payers rest st
      | r => r
      end
  end.

(** [burn], [order] being the order in which the map of totals is walked. *)
Definition burn_sessions (order : gmap PublicKeyBinary PayerTotals -> list (PublicKeyBinary * PayerTotals)) (st : burn_state)
  : burn_state * result unit burn_error :=
  burn_payers (order (payer_totals (map_to_list (bs_sessions st)).*2)) st.
End Burn.
Arguments burn_state : clear implicits.

(** ** The daemon *)

Section Daemon.
Context {RAT GI N E T : Type} {solana : SolanaNetwork N E T}.

Record daemon : Type := mkDaemon {
  dm_burner : burn_state N;
  dm_event_ids : event_ids;
  dm_files : files_processed;
  dm_invalid : list (InvalidDataTransferIngestReport RAT)
}.

(** A file of the poller: one transaction. *)
Definition handle_session_file (env : config_env RAT GI) (process : string) (file : FileInfo) (now : Z)
    (reports : list (DataTransferSessionIngestReport RAT)) (x : daemon) : daemon * result unit unit :=
  match record (dm_files x) process file now with
  | Err _ => (x, Err tt)
  | Ok files =>
      match accumulate_sessions env (fi_timestamp file) reports (bs_sessions (dm_burner x)) (dm_event_ids x) (dm_invalid x) with
      | (Ok (t, ids), lines) =>
          (mkDaemon (mkBurnState t (bs_net (dm_burner x)) (bs_valid (dm_burner x))) ids files lines, Ok tt)
      | (Err _, lines) => (mkDaemon (dm_burner x) (dm_event_ids x) (dm_files x) lines, Err tt)
      end
  end.

(** The timer of the burner. *)
Definition handle_burn (write_ok : ValidSessionProto -> bool) order (x : daemon) : daemon * result unit (burn_error (E := E)) :=
  let '(b, r) := burn_sessions write_ok order (dm_burner x) in (mkDaemon b (dm_event_ids x) (dm_files x) (dm_invalid x), r).

(** The timer of the purger. *)
Definition handle_purge (now max_age : Z) (x : daemon) : daemon :=
  mkDaemon (dm_burner x) (event_ids_purge (dm_event_ids x) now max_age) (dm_files x) (dm_invalid x).
End Daemon.
Arguments daemon : clear implicits.

(** ** What accumulation adds *)

(** The three counts of a session. *)
Inductive byte_count := Uploaded | Downloaded | Rewardable.

Definition session_bytes (d : byte_count) (s : DataTransferSession) : Z :=
  match d with Uploaded => ds_uploaded_bytes s | Downloaded => ds_downloaded_bytes s | Rewardable => ds_rewardable_bytes s end.

Definition session_key (s : DataTransferSession) : PublicKeyBinary * PublicKeyBinary := (ds_pub_key s, ds_payer s).

Definition rows_keyed (t : data_transfer_sessions) : Prop := forall k s, t !! k = Some s -> session_key s = k.

Definition table_bytes (d : byte_count) (t : data_transfer_sessions) k : Z := from_option (session_bytes d) 0 (t !! k).

Section AccumulateSpec.
Context {RAT GI : Type}.
Implicit Types (r : DataTransferSessionIngestReport RAT) (t : data_transfer_sessions) (ids : event_ids).

Definition report_event r : DataTransferEvent RAT := sq_data_transfer_usage (si_report r).
Definition report_key r : PublicKeyBinary * PublicKeyBinary := (ev_pub_key (report_event r), ev_payer (report_event r)).

(** The bytes as the table has them. *)
Definition report_bytes (d : byte_count) r : Z :=
  match d with
  | Uploaded => as_i64 (ev_upload_bytes (report_event r))
  | Downloaded => as_i64 (ev_download_bytes (report_event r))
  | Rewardable => as_i64 (sq_rewardable_bytes (si_report r))
  end.

Definition bytes_for (d : byte_count) k r : Z := if bool_decide (report_key r = k) then report_bytes d r else 0.

(** The reports of a file that count. *)
Fixpoint valid_reports (env : config_env RAT GI) ids (reports : list (DataTransferSessionIngestReport RAT)) : list (DataTransferSessionIngestReport RAT) :=
  match reports with
  | [] => []
  | r :: rest =>
      if sq_rewardable_bytes (si_report r) =? 0 then valid_reports env ids rest
      else
        let '(ids, v) := verify_session_report env ids r in
        if bool_decide (v = DtValid) then r :: valid_reports env ids rest else valid_reports env ids rest
  end.

Lemma bigint_eq z z' : bigint z = Ok z' -> z' = z.
Proof. unfold bigint. destruct (_ && _); [by intros [= <-]|done]. Qed.

Lemma upsert_session_spec t r ts t' : rows_keyed t -> upsert_session t r ts = Ok t' ->
  rows_keyed t' /\ forall d k, table_bytes d t' k = table_bytes d t k + bytes_for d k r.
Proof.
  intros Hk E. unfold upsert_session in E. fold (report_event r) in E. fold (report_key r) in E. unfold table_bytes, bytes_for.
  assert (forall s, session_key s = report_key r -> (forall d, session_bytes d s = table_bytes d t (report_key r) + report_bytes d r) -> t' = <[report_key r := s]> t ->
    rows_keyed t' /\ forall d k, from_option (session_bytes d) 0 (t' !! k) = from_option (session_bytes d) 0 (t !! k) + (if bool_decide (report_key r = k) then report_bytes d r else 0)) as Hgen.
  { intros s Hs Hb ->. split.
    - intros k s' H. apply lookup_insert_Some in H as [[<- <-]|[_ H]]; [done|by apply Hk].
    - intros d k. case_bool_decide as Ek; [subst k; rewrite lookup_insert_eq; apply Hb|]. rewrite lookup_insert_ne by done. lia. }
  destruct (t !! report_key r) as [s|] eqn:Es.
  - destruct (bigint (ds_uploaded_bytes s + _)) as [u|] eqn:E1; [|done]. destruct (bigint (ds_downloaded_bytes s + _)) as [dn|] eqn:E2; [|done].
    destruct (bigint (ds_rewardable_bytes s + _)) as [rw|] eqn:E3; [|done]. cbn [result_bind] in E. injection E as <-.
    apply bigint_eq in E1 as ->, E2 as ->, E3 as ->. refine (Hgen _ _ _ eq_refl).
    + exact (Hk _ s Es).
    + intros []; unfold table_bytes; rewrite Es; cbn; lia.
  - injection E as <-. refine (Hgen _ _ _ eq_refl); [done|]. intros []; unfold table_bytes; rewrite Es; cbn; lia.
Qed.

Lemma accumulate_spec env ts reports : forall t ids lines t' ids' lines', rows_keyed t ->
  accumulate_sessions env ts reports t ids lines = (Ok (t', ids'), lines') ->
  rows_keyed t' /\ forall d k, table_bytes d t' k = table_bytes d t k + sumZ (bytes_for d k) (valid_reports env ids reports).
Proof.
  induction reports as [|r reports IH]; intros t ids lines t' ids' lines' Hk; cbn [accumulate_sessions valid_reports].
  { intros [= <- <- <-]. split; [done|]. intros d k. cbn. lia. }
  destruct (_ =? 0).
  { destruct (write_invalid_report env DtCancelled r lines) as [lines1 []]; [|done]. by apply IH. }
  destruct (verify_session_report env ids r) as [ids1 v]. case_bool_decide as Ev.
  - subst v. destruct (upsert_session t r ts) as [t1|] eqn:Ea; [|done]. intros E. apply upsert_session_spec in Ea as [Hk1 Hb]; [|done].
    destruct (IH _ _ _ _ _ _ Hk1 E) as [Hk' Hb']. split; [done|]. intros d k. rewrite Hb', Hb, sumZ_cons. lia.
  - destruct v; [done|..]; (destruct (write_invalid_report _ _ _ _) as [lines1 []]; [by apply IH|done]).
Qed.

(** ** Reports count once *)

(** An accepted report is remembered, unless it is older than what was purged. *)
Definition remembered (purged : Z) ids r : Prop :=
  ids !! ev_event_id (report_event r) = Some (si_received_timestamp r) \/ si_received_timestamp r < purged.

Definition counted_again (purged : Z) r r' : Prop :=
  ev_event_id (report_event r) = ev_event_id (report_event r') -> si_received_timestamp r < purged.

Record once (purged : Z) ids (accepted : list (DataTransferSessionIngestReport RAT)) : Prop := mkOnce {
  on_remembered : Forall (remembered purged ids) accepted;
  on_pairs : StronglySorted (counted_again purged) accepted
}.

Lemma once_weaken purged purged' ids accepted : purged <= purged' -> once purged ids accepted -> once purged' ids accepted.
Proof.
  intros Hp [Hr Hs]. split.
  - eapply Forall_impl; [exact Hr|]. intros r [H|H]; [by left|right; lia].
  - clear Hr. induction Hs as [|r l Hl IH Hr]; constructor; [done|]. eapply Forall_impl; [exact Hr|]. intros r' H E. specialize (H E). lia.
Qed.

(** An id that is taken leaves the reports remembered. *)
Lemma once_insert purged ids accepted id ts : ids !! id = None -> once purged ids accepted -> once purged (<[id := ts]> ids) accepted.
Proof.
  intros Hid [Hr Hs]. split; [|done]. eapply Forall_impl; [exact Hr|]. intros r [H|H]; [left|by right].
  rewrite lookup_insert_ne; [done|]. congruence.
Qed.

Lemma StronglySorted_snoc {A} (R : A -> A -> Prop) l a : StronglySorted R l -> Forall (fun x => R x a) l -> StronglySorted R (l ++ [a]).
Proof.
  induction 1 as [|b l Hl IH Hb]; intros Ha; [repeat constructor|]. apply Forall_cons in Ha as [Hba Ha]. cbn. constructor; [by apply IH|].
  apply Forall_app. split; [done|]. by repeat constructor.
Qed.

Lemma once_accept purged ids accepted r : ids !! ev_event_id (report_event r) = None -> once purged ids accepted ->
  once purged (<[ev_event_id (report_event r) := si_received_timestamp r]> ids) (accepted ++ [r]).
Proof.
  intros Hid Ho. pose proof (once_insert _ _ _ _ (si_received_timestamp r) Hid Ho) as [Hr' _]. destruct Ho as [Hr Hs]. split.
  - apply Forall_app. split; [done|]. apply Forall_singleton. left. apply lookup_insert_eq.
  - apply StronglySorted_snoc; [done|]. eapply Forall_impl; [exact Hr|]. intros r0 [H|H] E; [|done]. rewrite E in H. congruence.
Qed.

Lemma accumulate_once env ts purged reports : forall t ids lines t' ids' lines' accepted,
  once purged ids accepted -> accumulate_sessions env ts reports t ids lines = (Ok (t', ids'), lines') ->
  once purged ids' (accepted ++ valid_reports env ids reports).
Proof.
  induction reports as [|r reports IH]; intros t ids lines t' ids' lines' accepted Ho; cbn [accumulate_sessions valid_reports].
  { intros [= <- <- <-]. by rewrite app_nil_r. }
  destruct (_ =? 0).
  { destruct (write_invalid_report env DtCancelled r lines) as [lines1 []]; [|done]. by apply IH. }
  unfold verify_session_report. fold (report_event r). unfold is_duplicate. destruct (ids !! ev_event_id (report_event r)) as [ts0|] eqn:Hid.
  { rewrite bool_decide_eq_false_2 by done. destruct (write_invalid_report _ _ _ _) as [lines1 []]; [|done]. by apply IH. }
  destruct (if negb _ then _ else _); cbn [bool_decide]; try (case_bool_decide; [done|]).
  2-5: destruct (write_invalid_report _ _ _ _) as [lines1 []]; [|done]; by apply IH, once_insert.
  rewrite bool_decide_eq_true_2 by done. destruct (upsert_session t r ts) as [t1|]; [|done]. intros E.
  replace (accepted ++ r :: _) with ((accepted ++ [r]) ++ valid_reports env (<[ev_event_id (report_event r) := si_received_timestamp r]> ids) reports)
    by by rewrite <- app_assoc.
  eapply IH; [by apply once_accept|exact E].
Qed.

Lemma once_purge purged ids accepted now max_age : once purged ids accepted ->
  once (Z.max purged (now - max_age)) (event_ids_purge ids now max_age) accepted.
Proof.
  intros Ho. destruct (once_weaken purged (Z.max purged (now - max_age)) ids accepted ltac:(lia) Ho) as [Hr Hs]. split; [|done].
  eapply Forall_impl; [exact Hr|]. intros r [H|H]; [|by right]. destruct (Z.lt_ge_cases (si_received_timestamp r) (now - max_age)); [right; lia|left].
  by apply map_lookup_filter_Some.
Qed.
End AccumulateSpec.
