(* ===== verification/MobileDaemon.v ===== *)
(** * What the mobile packet verifier conserves

    The files, burns and purges of the daemon of [mobile_packet_verifier] in any
    order: the bytes of accepted reports are in the table or were paid for, payers
    paid on the chain for every session that was written, and a report counts
    once. *)

From S2P Require Import Prelude Solana FileStoreTypes FileNames FilePoller PacketBalances MobileSessions.

Open Scope Z_scope.
Open Scope oracle_scope.

(** ** Totals *)

(** A credit for every started 20 kB, and at least one. *)
Lemma bytes_to_dc_spec b : 0 <= b < 2 ^ 63 -> bytes_to_dc b = Z.max 1 ((b + 19999) / 20000).
Proof.
  intros Hb. unfold bytes_to_dc, BYTES_PER_DC. rewrite u64_add_small by lia. destruct (Z.max_spec b 20000) as [[H ->]|[H ->]].
  - change ((20000 + (20000 - 1)) / 20000) with 1. assert ((b + 19999) / 20000 < 2) by (apply Z.div_lt_upper_bound; lia). lia.
  - replace (b + (20000 - 1)) with (b + 19999) by lia. assert (1 <= (b + 19999) / 20000) by (apply Z.div_le_lower_bound; lia). lia.
Qed.

Lemma bytes_to_dc_nonneg b : 0 <= bytes_to_dc b.
Proof. unfold bytes_to_dc, BYTES_PER_DC, u64_add, wrap. apply Z.div_pos; [|lia]. apply Z.mod_pos_bound. lia. Qed.

(** What a session costs. *)
Definition session_dc (s : DataTransferSession) : Z := bytes_to_dc (as_u64 (ds_rewardable_bytes s)).

Definition pays (p : PublicKeyBinary) (s : DataTransferSession) : bool := String.eqb (ds_payer s) p.

Lemma payer_totals_lookup l p :
  payer_totals l !! p =
  match List.filter (pays p) l with
  | [] => None
  | ss => Some (mkTotals (fold_left (fun a s => u64_add a (session_dc s)) ss 0) ss)
  end.
Proof.
  unfold payer_totals, group_rows. induction l as [|s l IH] using rev_ind; [done|]. rewrite fold_left_app, List.filter_app. cbn [fold_left List.filter]. unfold pays at 2.
  set (m := fold_left _ l ∅) in *. destruct (String.eqb_spec (ds_payer s) p) as [<-|Hne].
  - rewrite lookup_insert_eq, IH. unfold push_sess. destruct (List.filter (pays (ds_payer s)) l) as [|s0 ss]; [done|].
    cbn [default app]. f_equal. unfold session_dc at 3. change (s0 :: ss ++ [s]) with ((s0 :: ss) ++ [s]). by rewrite fold_left_app.
  - rewrite lookup_insert_ne by done. by rewrite IH, app_nil_r.
Qed.

(** The credits of a payer's sessions are in range. *)
Definition totals_fit (t : data_transfer_sessions) : Prop :=
  forall p, sumZ session_dc (List.filter (pays p) (map_to_list t).*2) < 2 ^ 64.

Lemma payer_totals_fit (t : data_transfer_sessions) p tot : totals_fit t -> payer_totals (map_to_list t).*2 !! p = Some tot ->
  pt_sessions tot = List.filter (pays p) (map_to_list t).*2 /\ total_dcs tot = sumZ session_dc (pt_sessions tot).
Proof.
  intros Hf. rewrite payer_totals_lookup. specialize (Hf p). destruct (List.filter (pays p) _) as [|s ss] eqn:E; [done|]. intros [= <-].
  split; [done|]. cbn [total_dcs pt_sessions]. apply (fold_u64_add session_dc (s :: ss) 0); [lia| |lia]. intros. apply bytes_to_dc_nonneg.
Qed.

(** ** The rows that a burn removes *)

Definition removed (t t' : data_transfer_sessions) : list DataTransferSession := (map_to_list (t ∖ t')).*2.

Lemma removed_none (t : data_transfer_sessions) : removed t t = [].
Proof. unfold removed. by rewrite map_difference_diag. Qed.

Lemma removed_trans (t t1 t2 : data_transfer_sessions) : t1 ⊆ t -> t2 ⊆ t1 -> removed t t2 ≡ₚ removed t t1 ++ removed t1 t2.
Proof.
  intros H1 H2. unfold removed. rewrite <- fmap_app. apply fmap_Permutation, NoDup_Permutation; [apply NoDup_map_to_list| |].
  - apply NoDup_app. split; [apply NoDup_map_to_list|]. split; [|apply NoDup_map_to_list].
    intros [i s] Hs Hs'. apply elem_of_map_to_list, lookup_difference_Some in Hs as [_ Hs].
    apply elem_of_map_to_list, lookup_difference_Some in Hs' as [Hs' _]. congruence.
  - intros [i s]. rewrite elem_of_app, !elem_of_map_to_list, !lookup_difference_Some. split.
    + intros [Hs Hn]. destruct (t1 !! i) as [s1|] eqn:E1; [|by left]. right. rewrite (lookup_weaken _ _ _ _ E1 H1) in Hs. by injection Hs as <-.
    + intros [[Hs Hn]|[Hs Hn]]; [|split; [by apply (lookup_weaken t1)|done]]. split; [done|].
      destruct (t2 !! i) as [s2|] eqn:E2; [|done]. by rewrite (lookup_weaken _ _ _ _ E2 H2) in Hn.
Qed.

(** The rows of a payer. *)
Lemma removed_payer (t : data_transfer_sessions) p :
  removed t (filter (fun kv => ds_payer kv.2 <> p) t) ≡ₚ List.filter (pays p) (map_to_list t).*2.
Proof.
  unfold removed. rewrite map_rows_filter. apply fmap_Permutation, Permutation_refl'. f_equal. apply map_eq. intros i.
  apply option_eq. intros s. rewrite lookup_difference_Some, map_lookup_filter_None, map_lookup_filter_Some. cbn. unfold pays. rewrite String.eqb_eq.
  split; intros [Hs Hp]; (split; [done|]).
  - destruct Hp as [Hn|Hp]; [congruence|]. apply dec_stable. by apply Hp.
  - right. intros s' Hs'. rewrite Hs in Hs'. injection Hs' as <-. by intros H.
Qed.

(** What a payer's rows are, does not depend on the rows of others. *)
Lemma payer_rows_same (t t' : data_transfer_sessions) p : (forall k s, ds_payer s = p -> t' !! k = Some s <-> t !! k = Some s) ->
  List.filter (pays p) (map_to_list t').*2 ≡ₚ List.filter (pays p) (map_to_list t).*2.
Proof.
  intros H. rewrite !map_rows_filter. apply Permutation_refl'. do 2 f_equal. apply map_eq. intros i. apply option_eq. intros s.
  rewrite !map_lookup_filter_Some. cbn. unfold pays. split; intros [H1 H2]; (split; [|done]); apply String.eqb_eq in H2; by apply (H i s).
Qed.

(** ** A burn *)

Section BurnSpec.
Context {N E T : Type} {solana : SolanaNetwork N E T} {laws : SolanaLaws N E T}.
Variable write_ok : ValidSessionProto -> bool.
Implicit Types st : burn_state N.

Lemma burn_data_credits_spec n p a n' r : net_ok n -> 0 <= a -> burn_data_credits n p a = (n', r) ->
  net_ok n' /\ (forall q, q <> p -> chain_balance n' q = chain_balance n q) /\ chain_balance n' p <= chain_balance n p /\
  (r = Ok tt -> chain_balance n' p = chain_balance n p - a).
Proof.
  intros Hn Ha. unfold burn_data_credits. destruct (make_burn_transaction n p a) as [n1 [txn|e]] eqn:Em.
  - destruct (make_same _ _ _ _ _ Hn Em) as (Hn1 & Hb & _). destruct (make_spec _ _ _ _ _ Hn Em) as (<- & <- & Hx). intros Es.
    destruct (submit_spec _ _ _ _ Hn1 Hx Es) as (Hn' & Hok & _ & Hq & Hp). split; [done|]. split; [intros q Hne; by rewrite Hq, Hb|].
    rewrite Hb in Hp. split; [destruct (executed n' _); lia|]. intros ->. rewrite Hok in Hp by done. lia.
  - destruct (make_same _ _ _ _ _ Hn Em) as (Hn1 & Hb & _). intros [= <- <-]. split; [done|]. split; [done|]. split; [by rewrite Hb|done].
Qed.

Lemma write_sessions_spec ss : forall sink sink' ok, write_sessions write_ok sink ss = (sink', ok) ->
  exists w, sink' = sink ++ w /\ w ⊆+ (valid_session <$> ss) /\ (ok = true -> w = valid_session <$> ss).
Proof.
  induction ss as [|s ss IH]; intros sink sink' ok; cbn [write_sessions].
  { intros [= <- <-]. exists []. by rewrite app_nil_r. }
  destruct (write_ok (valid_session s)).
  - intros Hw. destruct (IH _ _ _ Hw) as (w & -> & Hs & He). exists (valid_session s :: w). rewrite <- app_assoc. split; [done|]. rewrite fmap_cons.
    split; [by apply submseteq_skip|]. intros Hok. by rewrite He.
  - intros [= <- <-]. exists []. rewrite app_nil_r. split; [done|]. split; [apply submseteq_nil_l|done].
Qed.

(** What a burn, or a part of it, does. *)
Record burned_ok st st' (r : result unit (burn_error (E := E))) : Prop := mkBurnedOk {
  bo_sub : bs_sessions st' ⊆ bs_sessions st;
  bo_net : net_ok (bs_net st) -> net_ok (bs_net st');
  bo_chain p : net_ok (bs_net st) ->
    chain_balance (bs_net st') p + sumZ session_dc (List.filter (pays p) (removed (bs_sessions st) (bs_sessions st'))) <= chain_balance (bs_net st) p;
  bo_sink : exists w, bs_valid st' = bs_valid st ++ w /\ w ⊆+ (valid_session <$> removed (bs_sessions st) (bs_sessions st')) /\
    (r <> Err BurnFileStore -> w ≡ₚ valid_session <$> removed (bs_sessions st) (bs_sessions st'))
}.

Lemma burned_ok_refl st n r : (net_ok (bs_net st) -> net_ok n /\ forall p, chain_balance n p <= chain_balance (bs_net st) p) ->
  burned_ok st (mkBurnState (bs_sessions st) n (bs_valid st)) r.
Proof.
  intros Hn. split; cbn [bs_sessions bs_net bs_valid]; rewrite ?removed_none; [done|by intros; apply Hn|intros p Hok; cbn; destruct (Hn Hok) as [_ H]; specialize (H p); lia|].
  exists []. by rewrite app_nil_r.
Qed.

Lemma burned_ok_trans st st1 st2 r1 r : burned_ok st st1 r1 -> r1 <> Err BurnFileStore -> burned_ok st1 st2 r -> burned_ok st st2 r.
Proof.
  intros [S1 N1 C1 (w1 & E1 & W1 & P1)] Hr [S2 N2 C2 (w2 & E2 & W2 & P2)]. pose proof (removed_trans _ _ _ S1 S2) as Hp. split.
  - by etrans.
  - intros H. by apply N2, N1.
  - intros p H. rewrite (sumZ_permutation _ _ _ (filter_perm (pays p) _ _ Hp)), List.filter_app, sumZ_app. specialize (C1 p H). specialize (C2 p (N1 H)). lia.
  - exists (w1 ++ w2). rewrite E2, E1, app_assoc. split; [done|]. rewrite Hp, fmap_app. split; [by apply submseteq_app|].
    intros Hr2. rewrite P1 by done. by rewrite P2.
Qed.

(** The totals of a payer are those of its rows. *)
Definition totals_of st (pt : PublicKeyBinary * PayerTotals) : Prop :=
  pt_sessions pt.2 ≡ₚ List.filter (pays pt.1) (map_to_list (bs_sessions st)).*2 /\ total_dcs pt.2 = sumZ session_dc (pt_sessions pt.2).

Lemma filter_pays p (l : list DataTransferSession) : List.filter (pays p) (List.filter (pays p) l) = List.filter (pays p) l.
Proof. induction l as [|s l IH]; [done|]. cbn. destruct (pays p s) eqn:Ep; [cbn; rewrite Ep; by f_equal|done]. Qed.

Lemma filter_pays_other p q (l : list DataTransferSession) : q <> p -> List.filter (pays q) (List.filter (pays p) l) = [].
Proof.
  intros Hne. induction l as [|s l IH]; [done|]. cbn. destruct (pays p s) eqn:Ep; [|done]. cbn. unfold pays in *. apply String.eqb_eq in Ep.
  destruct (String.eqb_spec (ds_payer s) q); [congruence|done].
Qed.

Lemma burn_payer_spec st pt st' r : totals_of st pt -> burn_payer write_ok st pt.1 pt.2 = (st', r) ->
  burned_ok st st' r /\ forall k s, ds_payer s <> pt.1 -> bs_sessions st' !! k = Some s <-> bs_sessions st !! k = Some s.
Proof.
  destruct pt as [p tot]. cbn [fst snd]. intros [Hss Htot]. cbn [fst snd] in Hss, Htot. unfold burn_payer.
  assert (0 <= total_dcs tot) as H0 by (rewrite Htot; apply sumZ_nonneg; intros; apply bytes_to_dc_nonneg).
  destruct (payer_balance (bs_net st) p) as [balance|e].
  2:{ intros [= <- <-]. split; [|done]. destruct st as [t n sink]. apply (burned_ok_refl (mkBurnState t n sink) n). intros H. by split. }
  destruct (balance <? total_dcs tot).
  { intros [= <- <-]. split; [|done]. destruct st as [t n sink]. apply (burned_ok_refl (mkBurnState t n sink) n). intros H. by split. }
  destruct (burn_data_credits (bs_net st) p (total_dcs tot)) as [n rb] eqn:Eb. destruct rb as [[]|e].
  - destruct (write_sessions write_ok (bs_valid st) (pt_sessions tot)) as [sink ok] eqn:Ew. intros [= <- <-]. cbn [bs_sessions]. split.
    + pose proof (removed_payer (bs_sessions st) p) as Hrm. rewrite <- Hss in Hrm. split; cbn [bs_sessions bs_net bs_valid].
      * apply map_filter_subseteq.
      * intros Hn. by destruct (burn_data_credits_spec _ _ _ _ _ Hn H0 Eb).
      * intros q Hn. destruct (burn_data_credits_spec _ _ _ _ _ Hn H0 Eb) as (_ & Hq & _ & Hp).
        rewrite (sumZ_permutation _ _ _ (filter_perm (pays q) _ _ Hrm)), (sumZ_permutation _ _ _ (filter_perm (pays q) _ _ Hss)).
        destruct (decide (q = p)) as [->|Hne].
        -- rewrite filter_pays, <- (sumZ_permutation _ _ _ Hss), <- Htot, Hp by done. lia.
        -- rewrite filter_pays_other, Hq by done. cbn. lia.
      * destruct (write_sessions_spec _ _ _ _ Ew) as (w & -> & Hs & He). exists w. split; [done|]. rewrite Hrm. split; [done|].
        intros Hr. destruct ok; [by rewrite He|done].
    + intros k s Hne. rewrite map_lookup_filter_Some. naive_solver.
  - intros [= <- <-]. split; [|done]. apply burned_ok_refl. intros Hn. destruct (burn_data_credits_spec _ _ _ _ _ Hn H0 Eb) as (Hn' & Hq & Hp & _).
    split; [done|]. intros q. destruct (decide (q = p)) as [->|Hne]; [done|]. by rewrite Hq.
Qed.

Lemma burn_payers_spec l : forall st st' r, NoDup l.*1 -> Forall (totals_of st) l -> burn_payers write_ok l st = (st', r) -> burned_ok st st' r.
Proof.
  induction l as [|[p tot] l IH]; intros st st' r Hn Hl; cbn [burn_payers].
  { intros [= <- <-]. destruct st as [t n sink]. apply (burned_ok_refl (mkBurnState t n sink) n). intros H. by split. }
  apply Forall_cons in Hl as [Hp Hl]. rewrite fmap_cons in Hn. apply NoDup_cons in Hn as [Hni Hn].
  destruct (burn_payer write_ok st p tot) as [st1 r1] eqn:E1. destruct (burn_payer_spec st (p, tot) st1 r1 Hp E1) as [H1 Hsame].
  destruct r1 as [[]|e].
  - intros Hrun. eapply burned_ok_trans; [exact H1|done|]. eapply IH; [done| |exact Hrun]. apply Forall_forall. intros [q tq] Hq.
    rewrite Forall_forall in Hl. destruct (Hl _ Hq) as [Hss Htot]. split; [|done]. cbn [fst snd] in *. rewrite Hss. symmetry. apply payer_rows_same.
    intros k s Hs. apply Hsame. cbn. intros Ep. apply Hni, list_elem_of_fmap. exists (q, tq). split; [|done]. cbn. congruence.
  - intros [= <- <-]. exact H1.
Qed.

Lemma burn_spec order st st' r : (forall m, order m ≡ₚ map_to_list m) -> totals_fit (bs_sessions st) ->
  burn_sessions write_ok order st = (st', r) -> burned_ok st st' r.
Proof.
  intros Ho Hf. unfold burn_sessions. apply burn_payers_spec.
  - rewrite (fmap_Permutation fst _ _ (Ho _)). apply NoDup_fst_map_to_list.
  - apply Forall_forall. intros [p tot] Hp. rewrite (Ho _) in Hp. apply elem_of_map_to_list in Hp.
    destruct (payer_totals_fit _ _ _ Hf Hp) as [Hs Ht]. split; cbn [fst snd]; [by rewrite Hs|done].
Qed.
End BurnSpec.

(** ** Runs of the daemon *)

Section System.
Context {RAT GI N E T : Type} {solana : SolanaNetwork N E T} {laws : SolanaLaws N E T}.

(** A daemon with its past: the reports that were accepted, the sessions that were
    paid for, how far the event ids were purged, and whether the sink ever failed. *)
Record history : Type := mkHistory {
  hi_daemon : daemon RAT N;
  hi_accepted : list (DataTransferSessionIngestReport RAT);
  hi_paid : list DataTransferSession;
  hi_purged : Z;
  hi_lost : bool
}.

Inductive daemon_step : history -> history -> Prop :=
| step_session_file x (env : config_env RAT GI) process file now reports x' r :
    handle_session_file env process file now reports (hi_daemon x) = (x', r) ->
    daemon_step x (mkHistory x' (hi_accepted x ++ if is_ok r then valid_reports env (dm_event_ids (hi_daemon x)) reports else [])
                     (hi_paid x) (hi_purged x) (hi_lost x))
| step_burn x write_ok order x' r :
    (forall m, order m ≡ₚ map_to_list m) -> totals_fit (bs_sessions (dm_burner (hi_daemon x))) ->
    handle_burn write_ok order (hi_daemon x) = (x', r) ->
    daemon_step x (mkHistory x' (hi_accepted x)
                     (hi_paid x ++ removed (bs_sessions (dm_burner (hi_daemon x))) (bs_sessions (dm_burner x')))
                     (hi_purged x) (hi_lost x || match r with Err BurnFileStore => true | _ => false end))
| step_event_purge x now max_age :
    daemon_step x (mkHistory (handle_purge now max_age (hi_daemon x)) (hi_accepted x) (hi_paid x)
                     (Z.max (hi_purged x) (now - max_age)) (hi_lost x)).

(** The bytes of paid sessions of a gateway and payer. *)
Definition paid_bytes (d : byte_count) k (s : DataTransferSession) : Z := if bool_decide (session_key s = k) then session_bytes d s else 0.

Record conserved (n0 : N) (x : history) : Prop := mkConserved {
  co_keyed : rows_keyed (bs_sessions (dm_burner (hi_daemon x)));
  co_bytes d k : sumZ (bytes_for d k) (hi_accepted x) = table_bytes d (bs_sessions (dm_burner (hi_daemon x))) k + sumZ (paid_bytes d k) (hi_paid x);
  co_net : net_ok (bs_net (dm_burner (hi_daemon x)));
  co_chain p : chain_balance (bs_net (dm_burner (hi_daemon x))) p + sumZ session_dc (List.filter (pays p) (hi_paid x)) <= chain_balance n0 p;
  co_sink : bs_valid (dm_burner (hi_daemon x)) ⊆+ (valid_session <$> hi_paid x);
  co_written : hi_lost x = false -> bs_valid (dm_burner (hi_daemon x)) ≡ₚ valid_session <$> hi_paid x;
  co_once : once (hi_purged x) (dm_event_ids (hi_daemon x)) (hi_accepted x)
}.

(** The bytes of the rows that are gone. *)
Lemma removed_bytes (d : byte_count) (k : PublicKeyBinary * PublicKeyBinary) (t t' : data_transfer_sessions) : rows_keyed t -> t' ⊆ t ->
  table_bytes d t k = table_bytes d t' k + sumZ (paid_bytes d k) (removed t t').
Proof.
  intros Hk Hs. unfold removed. rewrite sumZ_fmap.
  assert (forall m : data_transfer_sessions, rows_keyed m -> sumZ (fun kv => paid_bytes d k kv.2) (map_to_list m) = table_bytes d m k) as Hm.
  { intros m. unfold table_bytes. induction m as [|i s m Hi IH] using map_ind; intros Hm; [by rewrite map_to_list_empty, lookup_empty|].
    rewrite (sumZ_permutation _ _ _ (map_to_list_insert m i s Hi)), sumZ_cons, IH.
    - unfold paid_bytes at 1. cbn [snd]. rewrite (Hm i s) by apply lookup_insert_eq. case_bool_decide as Ei.
      + subst i. rewrite lookup_insert_eq, Hi. cbn. lia.
      + by rewrite lookup_insert_ne.
    - intros i' s' H. apply Hm. rewrite lookup_insert_ne; [done|]. congruence. }
  rewrite Hm.
  - unfold table_bytes. rewrite lookup_difference. destruct (t' !! k) as [s|] eqn:Ek; cbn; [rewrite (lookup_weaken _ _ _ _ Ek Hs); cbn; lia|lia].
  - intros i s H. apply lookup_difference_Some in H as [H _]. by apply Hk.
Qed.

Lemma conserved_file n0 x (env : config_env RAT GI) process file now reports x' r : conserved n0 x ->
  handle_session_file env process file now reports (hi_daemon x) = (x', r) ->
  conserved n0 (mkHistory x' (hi_accepted x ++ if is_ok r then valid_reports env (dm_event_ids (hi_daemon x)) reports else [])
    (hi_paid x) (hi_purged x) (hi_lost x)).
Proof.
  intros [Hk Hb Hn Hc Hs Hw Ho]. unfold handle_session_file. destruct (record _ _ _ _) as [files|].
  2:{ intros [= <- <-]. cbn [is_ok]. split; cbn [hi_daemon hi_accepted hi_paid hi_purged hi_lost]; rewrite ?app_nil_r; done. }
  destruct (accumulate_sessions _ _ _ _ _ _) as [[[t ids]|] lines] eqn:Ea.
  2:{ intros [= <- <-]. cbn [is_ok]. split; cbn [hi_daemon hi_accepted hi_paid hi_purged hi_lost dm_burner dm_event_ids]; rewrite ?app_nil_r; done. }
  intros [= <- <-]. destruct (accumulate_spec env _ _ _ _ _ _ _ _ Hk Ea) as [Hk' Hb'].
  split; cbn [is_ok hi_daemon hi_accepted hi_paid hi_purged hi_lost dm_burner dm_event_ids bs_sessions bs_net bs_valid]; try done.
  - intros d k. rewrite sumZ_app, Hb', Hb. lia.
  - by eapply accumulate_once.
Qed.

Lemma conserved_burn n0 x write_ok order x' r : conserved n0 x ->
  (forall m, order m ≡ₚ map_to_list m) -> totals_fit (bs_sessions (dm_burner (hi_daemon x))) ->
  handle_burn write_ok order (hi_daemon x) = (x', r) ->
  conserved n0 (mkHistory x' (hi_accepted x) (hi_paid x ++ removed (bs_sessions (dm_burner (hi_daemon x))) (bs_sessions (dm_burner x')))
    (hi_purged x) (hi_lost x || match r with Err BurnFileStore => true | _ => false end)).
Proof.
  intros [Hk Hb Hn Hc Hs Hw Ho] Hord Hf. unfold handle_burn. destruct (burn_sessions write_ok order (dm_burner (hi_daemon x))) as [b rb] eqn:Eb.
  intros [= <- <-]. destruct (burn_spec write_ok order _ _ _ Hord Hf Eb) as [Hsub Hnet Hch (w & Ev & Hw1 & Hw2)].
  split; cbn [hi_daemon hi_accepted hi_paid hi_purged hi_lost dm_burner dm_event_ids].
  - intros k s H. apply Hk. by apply (lookup_weaken (bs_sessions b)).
  - intros d k. rewrite Hb, sumZ_app, (removed_bytes d k _ _ Hk Hsub). lia.
  - by apply Hnet.
  - intros p. rewrite List.filter_app, sumZ_app. specialize (Hch p Hn). specialize (Hc p). lia.
  - rewrite Ev, fmap_app. by apply submseteq_app.
  - intros [Hl1 Hl2]%orb_false_iff. rewrite Ev, fmap_app, Hw by done. rewrite Hw2; [done|]. by intros ->.
  - done.
Qed.

Lemma conserved_step n0 x x' : conserved n0 x -> daemon_step x x' -> conserved n0 x'.
Proof.
  intros Hc Hstep. revert Hc. destruct Hstep as [x0 env process file now reports x1 r E1|x0 write_ok order x1 r Ho Hf E1|x0 now max_age]; intros Hc.
  - by apply (conserved_file n0 x0 env process file now).
  - by apply (conserved_burn n0 x0 write_ok order).
  - destruct Hc as [Hk Hb Hn Hch Hs Hw Hon]. split; cbn [hi_daemon hi_accepted hi_paid hi_purged hi_lost handle_purge dm_burner dm_event_ids]; try done.
    by apply once_purge.
Qed.

(** A daemon that starts with empty tables. *)
Definition history_init (n0 : N) : history := mkHistory (mkDaemon (mkBurnState ∅ n0 []) ∅ ∅ []) [] [] 0 false.

Lemma conserved_reachable n0 x : net_ok n0 -> rtc daemon_step (history_init n0) x -> conserved n0 x.
Proof.
  intros Hn H. remember (history_init n0) as x0 eqn:E0. assert (conserved n0 x0) as Hc.
  { subst x0. split; cbn; try done; [lia|]. split; constructor. }
  clear E0. induction H as [x|x y z Hxy _ IH]; [done|]. by apply IH, (conserved_step _ x).
Qed.

(** C7: what the verifier of data transfers conserves.  Through files, burns and
    purges in any order, with failing services, sinks and submissions: for every
    gateway and payer the bytes of the accepted reports are in the table or in
    sessions that were paid for; a payer has paid on the chain at least the credits
    of its paid sessions; and what is written are paid sessions, each once, all of
    them unless a write failed. *)
Theorem sessions_conserved n0 x : net_ok n0 -> rtc daemon_step (history_init n0) x ->
  let b := dm_burner (hi_daemon x) in
  (forall d k, sumZ (bytes_for d k) (hi_accepted x) = table_bytes d (bs_sessions b) k + sumZ (paid_bytes d k) (hi_paid x)) /\
  (forall p, chain_balance (bs_net b) p + sumZ session_dc (List.filter (pays p) (hi_paid x)) <= chain_balance n0 p) /\
  bs_valid b ⊆+ (valid_session <$> hi_paid x) /\
  (hi_lost x = false -> bs_valid b ≡ₚ valid_session <$> hi_paid x).
Proof. intros Hn H. destruct (conserved_reachable n0 x Hn H) as [_ Hb _ Hc Hs Hw _]. done. Qed.

End System.

(** ** A report, a burn and the report again *)

Module ExampleSessions.
Import ExampleChain.

Definition report (received : Z) : DataTransferSessionIngestReport unit :=
  mkSessionIngest received (mkSessionReq (mkEvent "g" 30000 12000 tt "e1" "p" 5 "sig") 42000 "router" "sig").

Definition env : config_env unit unit := mkConfigEnv (fun _ => Ok (Some tt)) (fun _ => Ok true) (fun _ => true) 0.
Definition file (name : string) : FileInfo := mkFileInfo name "data_transfer_session_ingest_report" 7 1.
Definition n0 : chain := mkChain {["p" := 10]} ∅ 0.

Abbreviation history := (MobileDaemon.history (RAT := unit) (N := chain)).

Definition after_file (name : string) (received : Z) (x : history) : history :=
  let '(x', r) := handle_session_file env "p" (file name) 9 [report received; report received] (hi_daemon x) in
  mkHistory x' (hi_accepted x ++ if is_ok r then valid_reports env (dm_event_ids (hi_daemon x)) [report received; report received] else [])
    (hi_paid x) (hi_purged x) (hi_lost x).

Definition after_burn (x : history) : history :=
  let '(x', r) := handle_burn (E := unit) (fun _ => true) map_to_list (hi_daemon x) in
  mkHistory x' (hi_accepted x) (hi_paid x ++ removed (bs_sessions (dm_burner (hi_daemon x))) (bs_sessions (dm_burner x')))
    (hi_purged x) (hi_lost x || match r with Err BurnFileStore => true | _ => false end).

Definition after_purge (x : history) : history :=
  mkHistory (handle_purge 100 10 (hi_daemon x)) (hi_accepted x) (hi_paid x) (Z.max (hi_purged x) (100 - 10)) (hi_lost x).

Definition last_state : history := after_file "f2" 60 (after_purge (after_burn (after_file "f1" 50 (history_init n0)))).

Lemma step_file_ok name received x : daemon_step (GI := unit) x (after_file name received x).
Proof.
  unfold after_file. destruct (handle_session_file _ _ _ _ _ _) as [x' r] eqn:E. by eapply step_session_file.
Qed.

Lemma step_burn_ok x : totals_fit (bs_sessions (dm_burner (hi_daemon x))) -> daemon_step (GI := unit) x (after_burn x).
Proof. intros Hf. unfold after_burn. destruct (handle_burn _ _ _) as [x' r] eqn:E. by eapply step_burn. Qed.

Lemma first_table : (map_to_list (bs_sessions (dm_burner (hi_daemon (after_file "f1" 50 (history_init n0)))))).*2 = [mkSession "g" "p" 30000 12000 42000 7 7].
Proof. vm_compute. reflexivity. Qed.

Lemma step_purge_ok x : daemon_step (GI := unit) x (after_purge x).
Proof. apply step_event_purge. Qed.

Lemma last_reachable : rtc (daemon_step (GI := unit)) (history_init n0) last_state.
Proof.
  apply (rtc_l _ _ _ _ (step_file_ok "f1" 50 _)). refine (rtc_l _ _ _ _ (step_burn_ok _ _) _).
  { intros p. rewrite first_table. cbn [List.filter]. destruct (pays p _); vm_compute; reflexivity. }
  apply (rtc_l _ _ _ _ (step_purge_ok _)). apply rtc_once, step_file_ok.
Qed.

Lemma net_ok_n0 : net_ok (E := unit) (T := MockTransaction) n0.
Proof. intros s Hs. cbn in Hs. set_solver. Qed.

Lemma last_lost : hi_lost last_state = false.
Proof. vm_compute. reflexivity. Qed.

Lemma last_accepted : hi_accepted last_state = [report 50; report 60].
Proof. vm_compute. reflexivity. Qed.

Lemma last_valid : bs_valid (dm_burner (hi_daemon last_state)) = [mkValidSession "g" "p" 30000 12000 42000 3 0 0].
Proof. vm_compute. reflexivity. Qed.
End ExampleSessions.

Section SessionWitnesses.
Import ExampleChain ExampleSessions.

Lemma sessions_conserved_witness :
  bs_valid (dm_burner (hi_daemon last_state)) ≡ₚ valid_session <$> hi_paid last_state /\
  bs_valid (dm_burner (hi_daemon last_state)) = [mkValidSession "g" "p" 30000 12000 42000 3 0 0].
Proof.
  split; [|exact last_valid]. exact (proj2 (proj2 (proj2 (sessions_conserved n0 last_state net_ok_n0 last_reachable))) last_lost).
Defined.

End SessionWitnesses.
