(* ===== verification/RewardIndex.v ===== *)
(** * Reward index

    [reward_index/src/indexer.rs] and [reward_index.rs], and
    [file_store/src/reward_manifest.rs]: for every manifest that a rewarder wrote,
    the indexer reads the reward files it names, adds up the shares per reward key
    and adds the sums to the table of rewards.  A manifest file is one transaction
    (see [FilePoller]).  The encodings of messages, keys and names are parameters. *)

From S2P Require Import Prelude Solana FileStoreTypes FileNames FilePoller Decimal Scheduler PacketBalances.
From S2P Require Import MobileCoverage MobileRewards IotRewards IotShareTables.

Open Scope Z_scope.
Open Scope oracle_scope.

(** ** Manifests *)

Record RewardManifest : Type := mkManifest {
  written_files : list string;
  start_timestamp : Z;
  end_timestamp : Z
}.

(** [Utc.timestamp_opt(v as i64, 0).single()] *)
Definition seconds_of {chrono : Chrono} (v : Z) : result Z FsError := single (as_i64 v * nanos_per_sec) v.

(** The message is what the rewarder writes. *)
Definition manifest_try_from {chrono : Chrono} (value : IotRewards.RewardManifest) : result RewardManifest FsError :=
  let? start := seconds_of (rm_start_timestamp value) in
  let? end_ := seconds_of (rm_end_timestamp value) in
  Ok (mkManifest (rm_written_files value) start end_).

(** ** The table *)

Inductive RewardType :=
| MobileGateway | IotGateway | IotOperational | MobileSubscriber | MobileServiceProvider | MobileUnallocated | IotUnallocated.

#[global] Instance RewardType_eq_dec : EqDecision RewardType.
Proof. solve_decision. Defined.

#[global] Instance RewardType_countable : Countable RewardType.
Proof.
  refine (inj_countable'
    (fun t => match t with MobileGateway => 0 | IotGateway => 1 | IotOperational => 2 | MobileSubscriber => 3 | MobileServiceProvider => 4
              | MobileUnallocated => 5 | IotUnallocated => 6 end)
    (fun n => match n with 0 => MobileGateway | 1 => IotGateway | 2 => IotOperational | 3 => MobileSubscriber | 4 => MobileServiceProvider
              | 5 => MobileUnallocated | _ => IotUnallocated end) _).
  by intros [].
Defined.

(** A [RewardKey] is an address and a type. *)
Definition RewardKey : Type := (string * RewardType)%type.

Record IndexRow : Type := mkIndexRow { ix_rewards : Z; ix_last_reward : Z; ix_reward_type : RewardType }.

Abbreviation reward_index := (gmap string IndexRow).

(** [reward_index::insert]: the type of a row that is there stays. *)
Definition index_insert (t : reward_index) (address : string) (amount : Z) (reward_type : RewardType) (timestamp : Z)
  : result reward_index sqlx_error :=
  if amount =? 0 then Ok t
  else
    match t !! address with
    | None => Ok (<[address := mkIndexRow (as_i64 amount) timestamp reward_type]> t)
    | Some row =>
        let? rewards := bigint (ix_rewards row + as_i64 amount) in
        Ok (<[address := mkIndexRow rewards timestamp (ix_reward_type row)]> t)
    end.

(** ** The indexer *)

Inductive Mode := ModeIot | ModeMobile.

(** The messages of reward files, with an optional reward; keys and names as text. *)
Class ShareCodec : Type := {
  decode_iot_share : string -> option (option IotRewards.Reward);
  decode_mobile_share : string -> option (option MobileReward);
  key_string : PublicKeyBinary -> string;
  bs58_string : string -> string;
  service_provider_name : Z -> option string
}.

Section Indexer.
Context {codec : ShareCodec} {chrono : Chrono}.

Record Indexer : Type := mkIndexer { ix_mode : Mode; op_fund_key : string; unallocated_reward_key : string }.

Variable self : Indexer.

Definition iot_key (r : IotRewards.Reward) : RewardKey * Z :=
  match r with
  | RGateway g => ((key_string (gr_hotspot_key g), IotGateway), u64_add (u64_add (witness_amount g) (beacon_amount g)) (dc_transfer_amount g))
  | ROperational amount => ((op_fund_key self, IotOperational), amount)
  | RUnallocated _ amount => ((unallocated_reward_key self, IotUnallocated), amount)
  end.

Definition mobile_key (r : MobileReward) : result (RewardKey * Z) unit :=
  match r with
  | MRadio r => Ok ((key_string (rr_hotspot_key r), MobileGateway), rr_poc_reward r)
  | MGateway hotspot_key dc_transfer_reward _ _ => Ok ((key_string hotspot_key, MobileGateway), dc_transfer_reward)
  | MSubscriber subscriber_id amount => Ok ((bs58_string subscriber_id, MobileSubscriber), amount)
  | MServiceProvider id amount =>
      let? name := ok_or (service_provider_name id) tt in Ok ((name, MobileServiceProvider), amount)
  | MUnallocated _ amount => Ok ((unallocated_reward_key self, MobileUnallocated), amount)
  end.

(** [extract_reward_share] *)
Definition extract_reward_share (msg : string) : result (RewardKey * Z) unit :=
  match ix_mode self with
  | ModeMobile =>
      let? share := ok_or (decode_mobile_share msg) tt in
      let? reward := ok_or share tt in mobile_key reward
  | ModeIot =>
      let? share := ok_or (decode_iot_share msg) tt in
      let? reward := ok_or share tt in Ok (iot_key reward)
  end.

(** What the store has under a key: the messages of the file. *)
Variable read_file : string -> result (list (result string unit)) unit.

(** [?] over a sequence: the first error ends it. *)
Fixpoint try_map {A C} (f : A -> result C unit) (l : list A) : result (list C) unit :=
  match l with
  | [] => Ok []
  | a :: rest => let? c := f a in let? cs := try_map f rest in Ok (c :: cs)
  end.

(** [source_unordered]: the messages of the named files; the order across files
    does not matter to the sums. *)
Definition source_unordered (names : list string) : result (list string) unit :=
  let? files := try_map (fun name => let? info := map_err (fun _ => tt) (file_info_from_str name) in
                                     let? msgs := read_file (fi_key info) in try_map id msgs) names in
  Ok (concat files).

(** [entry(key).or_default() += amount] *)
Definition hotspot_rewards (shares : list (RewardKey * Z)) : gmap RewardKey Z :=
  group_rows fst (fun o s => u64_add (default 0 o) s.2) shares.

Fixpoint insert_rewards (rewards : list (RewardKey * Z)) (time : Z) (t : reward_index) : result reward_index unit :=
  match rewards with
  | [] => Ok t
  | (key, amount) :: rest =>
      let? t := map_err (fun _ => tt) (index_insert t key.1 amount key.2 time) in insert_rewards rest time t
  end.

(** [handle_rewards], [order] being the order in which the map of sums is walked. *)
Definition handle_rewards (order : gmap RewardKey Z -> list (RewardKey * Z)) (t : reward_index) (manifest : RewardManifest)
  : result reward_index unit :=
  let? msgs := source_unordered (written_files manifest) in
  let? shares := try_map extract_reward_share msgs in
  insert_rewards (order (hotspot_rewards shares)) (end_timestamp manifest) t.

(** A manifest file of the poller, which may hold several manifests. *)
Fixpoint handle_manifests order (manifests : list RewardManifest) (t : reward_index) : result reward_index unit :=
  match manifests with
  | [] => Ok t
  | m :: rest => let? t := handle_rewards order t m in handle_manifests order rest t
  end.

Definition handle_manifest_file order (process : string) (file : FileInfo) (now : Z) (manifests : list RewardManifest)
    (rows : files_processed) (t : reward_index) : result (files_processed * reward_index) unit :=
  let? rows := record rows process file now in
  let? t := handle_manifests order manifests t in
  Ok (rows, t).
End Indexer.

(** ** What is added *)

Section IndexSpec.
Context {codec : ShareCodec} {chrono : Chrono}.
Variables (self : Indexer) (read_file : string -> result (list (result string unit)) unit).

(** The rewards of the addresses, weighted. *)
Definition weighed (w : string -> Z) (t : reward_index) : Z := sumZ (fun kv => w kv.1 * ix_rewards kv.2) (map_to_list t).

Definition share_weight (w : string -> Z) (s : RewardKey * Z) : Z := w s.1.1 * s.2.

Definition amounts_ok (shares : list (RewardKey * Z)) : Prop :=
  (forall s, s ∈ shares -> 0 <= s.2) /\ sumZ snd shares < 2 ^ 63.

Lemma hotspot_rewards_spec shares : amounts_ok shares ->
  (forall k v, hotspot_rewards shares !! k = Some v -> 0 <= v <= sumZ snd shares) /\
  forall w, sumZ (share_weight w) (map_to_list (hotspot_rewards shares)) = sumZ (share_weight w) shares.
Proof.
  unfold hotspot_rewards, group_rows. induction shares as [|s shares IH] using rev_ind; intros [H0 Hs].
  { cbn [fold_left]. split; [intros k v H; by rewrite lookup_empty in H|]. intros w. by rewrite map_to_list_empty. }
  rewrite sumZ_app in Hs. cbn in Hs. assert (0 <= s.2) as Hs2 by (apply H0; set_solver). assert (forall x, x ∈ shares -> 0 <= x.2) as H0' by (intros; apply H0; set_solver).
  pose proof (sumZ_nonneg snd shares H0') as Hnn. destruct IH as [Hb Hw]; [split; [done|lia]|]. rewrite fold_left_app. cbn [fold_left].
  set (m := fold_left _ shares ∅) in *. assert (0 <= default 0 (m !! s.1) <= sumZ snd shares) as Hd.
  { destruct (m !! s.1) as [v|] eqn:Em; cbn; [by apply (Hb s.1)|lia]. }
  rewrite u64_add_small by lia. split.
  - intros k v. rewrite sumZ_app. cbn. destruct (decide (k = s.1)) as [->|Hne].
    + rewrite lookup_insert_eq. intros [= <-]. lia.
    + rewrite lookup_insert_ne by done. intros Hv. specialize (Hb _ _ Hv). lia.
  - intros w. rewrite sumZ_insert, Hw, sumZ_app. cbn. unfold share_weight. cbn. destruct (m !! s.1); cbn; lia.
Qed.

Lemma index_insert_spec t address amount ty time t' : 0 <= amount < 2 ^ 63 -> index_insert t address amount ty time = Ok t' ->
  forall w, weighed w t' = weighed w t + w address * amount.
Proof.
  intros Ha E w. unfold index_insert in E. destruct (Z.eqb_spec amount 0) as [->|Hne]; [injection E as <-; lia|].
  rewrite as_i64_small in E by done. unfold weighed. destruct (t !! address) as [row|] eqn:Et.
  - unfold bigint in E. destruct (_ && _); [|done]. cbn in E. injection E as <-. rewrite sumZ_insert, Et. cbn. lia.
  - injection E as <-. rewrite sumZ_insert, Et. cbn. lia.
Qed.

Lemma insert_rewards_spec rewards time : forall t t', (forall s, s ∈ rewards -> 0 <= s.2 < 2 ^ 63) -> insert_rewards rewards time t = Ok t' ->
  forall w, weighed w t' = weighed w t + sumZ (share_weight w) rewards.
Proof.
  induction rewards as [|[[address ty] amount] rewards IH]; intros t t' Hr E w; cbn [insert_rewards] in E; [injection E as <-; cbn; lia|].
  destruct (index_insert t _ amount _ time) as [t1|] eqn:Ei; [|done]. cbn [map_err result_bind] in E.
  pose proof (index_insert_spec _ _ _ _ _ _ (Hr _ ltac:(left)) Ei w) as H1. rewrite (IH t1 t'), H1, sumZ_cons; [unfold share_weight; cbn; lia| |done].
  intros s Hs. apply Hr. by right.
Qed.

(** The shares of a manifest. *)
Definition manifest_shares (m : RewardManifest) : result (list (RewardKey * Z)) unit :=
  let? msgs := source_unordered read_file (written_files m) in try_map (extract_reward_share self) msgs.

Lemma handle_rewards_spec order t m t' shares : (forall x, order x ≡ₚ map_to_list x) -> manifest_shares m = Ok shares -> amounts_ok shares ->
  handle_rewards self read_file order t m = Ok t' -> forall w, weighed w t' = weighed w t + sumZ (share_weight w) shares.
Proof.
  intros Ho Hm Ha. unfold handle_rewards. unfold manifest_shares in Hm. destruct (source_unordered read_file (written_files m)) as [msgs|]; [|done].
  cbn [result_bind] in *. rewrite Hm. cbn [result_bind]. intros E w. destruct (hotspot_rewards_spec shares Ha) as [Hb Hw].
  assert (forall s, s ∈ order (hotspot_rewards shares) -> 0 <= s.2 < 2 ^ 63) as Hr.
  { intros [k v] Hs. rewrite (Ho _) in Hs. apply elem_of_map_to_list in Hs. specialize (Hb k v Hs). destruct Ha. cbn. lia. }
  by rewrite (insert_rewards_spec _ _ _ _ Hr E w), (sumZ_permutation _ _ _ (Ho _)), Hw.
Qed.

(** A table with room for more. *)
Definition room (t : reward_index) (n : Z) : Prop :=
  (forall a row, t !! a = Some row -> 0 <= ix_rewards row) /\ weighed (fun _ => 1) t + n < 2 ^ 63.

Lemma index_insert_ok t address amount ty time n : 0 <= amount -> 0 <= n -> room t (amount + n) ->
  exists t', index_insert t address amount ty time = Ok t' /\ room t' n.
Proof.
  intros Ha Hn [Hr Ht]. assert (forall t', index_insert t address amount ty time = Ok t' -> (forall a row, t' !! a = Some row -> 0 <= ix_rewards row) ->
    room t' n) as Hroom.
  { assert (0 <= weighed (fun _ => 1) t) by (apply sumZ_nonneg; intros [a row] H%elem_of_map_to_list; specialize (Hr a row H); cbn; lia).
    intros t' E H'. split; [done|]. rewrite (index_insert_spec t address amount ty time t' ltac:(lia) E). cbv beta. lia. }
  unfold index_insert in *. destruct (Z.eqb_spec amount 0) as [->|Hne]; [exists t; split; [done|by apply Hroom]|].
  assert (0 <= weighed (fun _ => 1) t) as Hw0 by (apply sumZ_nonneg; intros [a row] H%elem_of_map_to_list; specialize (Hr a row H); cbn; lia).
  rewrite as_i64_small in * by lia. destruct (t !! address) as [row|] eqn:Et.
  - assert (0 <= ix_rewards row <= weighed (fun _ => 1) t) as Hrow.
    { split; [by apply (Hr address)|]. unfold weighed. etrans; [|apply (sumZ_map_elem (fun kv => 1 * ix_rewards kv.2) t address row); [|done]].
      - cbn. lia.
      - intros k v Hv. specialize (Hr k v Hv). cbn. lia. }
    unfold bigint in *. rewrite (proj2 (Z.leb_le _ _)), (proj2 (Z.ltb_lt _ _)) in * by lia. cbn [andb result_bind] in *.
    eexists. split; [done|]. apply Hroom; [done|]. intros a r H. apply lookup_insert_Some in H as [[_ <-]|[_ H]]; [cbn; lia|by apply (Hr a)].
  - eexists. split; [done|]. apply Hroom; [done|]. intros a r H. apply lookup_insert_Some in H as [[_ <-]|[_ H]]; [cbn; lia|by apply (Hr a)].
Qed.

Lemma insert_rewards_ok rewards time : forall t, (forall s, s ∈ rewards -> 0 <= s.2) -> room t (sumZ snd rewards) ->
  exists t', insert_rewards rewards time t = Ok t'.
Proof.
  induction rewards as [|[[address ty] amount] rewards IH]; intros t Hr Ht; [by exists t|]. cbn [insert_rewards fst snd]. rewrite sumZ_cons in Ht. cbn [snd] in Ht.
  assert (forall s, s ∈ rewards -> 0 <= s.2) as Hr' by (intros; apply Hr; by right).
  destruct (index_insert_ok t address amount ty time (sumZ snd rewards)) as (t1 & -> & H1); [by apply (Hr _ ltac:(left))|by apply sumZ_nonneg|done|].
  cbn [map_err result_bind]. by apply IH.
Qed.

Lemma handle_rewards_ok order t m shares : (forall x, order x ≡ₚ map_to_list x) -> manifest_shares m = Ok shares -> amounts_ok shares ->
  room t (sumZ snd shares) -> exists t', handle_rewards self read_file order t m = Ok t'.
Proof.
  intros Ho Hm Ha Ht. unfold handle_rewards. unfold manifest_shares in Hm. destruct (source_unordered read_file (written_files m)) as [msgs|]; [|done].
  cbn [result_bind] in *. rewrite Hm. cbn [result_bind]. destruct (hotspot_rewards_spec shares Ha) as [Hb Hw]. apply insert_rewards_ok.
  - intros [k v] Hs. rewrite (Ho _) in Hs. apply elem_of_map_to_list in Hs. cbn. by apply (Hb k).
  - replace (sumZ snd (order (hotspot_rewards shares))) with (sumZ snd shares); [done|]. rewrite (sumZ_permutation _ _ _ (Ho _)).
    specialize (Hw (fun _ => 1)). unfold share_weight in Hw.
    assert (forall l : list (RewardKey * Z), sumZ (fun s => 1 * s.2) l = sumZ snd l) as E by (intros l; apply sumZ_ext; intros; lia). rewrite !E in Hw. done.
Qed.

(** The rewards of an address. *)
Definition rewards_of (t : reward_index) (a : string) : Z := from_option ix_rewards 0 (t !! a).

Definition indicator (a b : string) : Z := if String.eqb b a then 1 else 0.

Lemma weighed_indicator t a : weighed (indicator a) t = rewards_of t a.
Proof.
  unfold weighed, rewards_of, indicator. induction t as [|k r t Hk IH] using map_ind; [by rewrite map_to_list_empty, lookup_empty|].
  rewrite sumZ_insert, Hk, IH. cbn. destruct (String.eqb_spec k a) as [->|Hne].
  - rewrite lookup_insert_eq, Hk. cbn. lia.
  - rewrite lookup_insert_ne by done. lia.
Qed.

Definition amount_for (a : string) (s : RewardKey * Z) : Z := if String.eqb s.1.1 a then s.2 else 0.

Lemma weight_indicator a shares : sumZ (share_weight (indicator a)) shares = sumZ (amount_for a) shares.
Proof. apply sumZ_ext. intros s _. unfold share_weight, indicator, amount_for. destruct (String.eqb s.1.1 a); lia. Qed.

(** All rewards of the table. *)
Definition total_rewards (t : reward_index) : Z := sumZ (fun kv => ix_rewards kv.2) (map_to_list t).

Lemma weighed_total t : weighed (fun _ => 1) t = total_rewards t.
Proof. apply sumZ_ext. intros kv _. lia. Qed.

(** a manifest is indexed exactly.  When the files it names can be read and the
    sums fit, the indexer succeeds, and whatever the order of maps and files, every
    address gains the sum of its shares in the files, and the table gains the sum of
    all shares. *)
Theorem manifest_indexed order t m shares : (forall x, order x ≡ₚ map_to_list x) -> manifest_shares m = Ok shares -> amounts_ok shares ->
  room t (sumZ snd shares) -> exists t', handle_rewards self read_file order t m = Ok t' /\
  (forall a, rewards_of t' a = rewards_of t a + sumZ (amount_for a) shares) /\ total_rewards t' = total_rewards t + sumZ snd shares.
Proof.
  intros Ho Hm Ha Hr. destruct (handle_rewards_ok order t m shares Ho Hm Ha Hr) as [t' E]. exists t'. split; [done|].
  pose proof (handle_rewards_spec order t m t' shares Ho Hm Ha E) as Hw. split.
  - intros a. by rewrite <- !weighed_indicator, Hw, weight_indicator.
  - rewrite <- !weighed_total, Hw. f_equal. apply sumZ_ext. intros s _. unfold share_weight. lia.
Qed.
End IndexSpec.

(** ** From the rewarder to the index *)

Section Composition.
Context {codec : ShareCodec} {chrono : Chrono} {dec : Type} {D : Decimal dec} {DL : DecimalLaws dec}.
Variables (self : Indexer) (read_file : string -> result (list (result string unit)) unit).
Hypothesis iot_mode : ix_mode self = ModeIot.

(** The parts of a share are not negative. *)
Definition share_nonneg (s : IotRewardShare) : Prop :=
  match reward s with
  | RGateway g => 0 <= beacon_amount g /\ 0 <= witness_amount g /\ 0 <= dc_transfer_amount g
  | ROperational a | RUnallocated _ a => 0 <= a
  end.

Lemma to_u64_or_0_nonneg (a : dec) : 0 <= to_u64_or_0 a.
Proof.
  rewrite to_u64_val. destruct (Qle_bool 0 (dval a)) eqn:E; cbn; [|done]. destruct (_ <? _); [|done].
  apply Qle_bool_iff in E. change 0 with (Qfloor 0). by apply Qfloor_resp_le.
Qed.

Lemma write_unallocated_nonneg sink t amount p : Forall share_nonneg sink -> Forall share_nonneg (write_unallocated_reward sink t amount p).
Proof.
  intros Hs. unfold write_unallocated_reward. destruct (Z.ltb_spec 0 amount); [|done]. apply Forall_app. split; [done|]. apply Forall_singleton. cbn. lia.
Qed.

Lemma written_nonneg (db : share_tables dec) s price : Forall share_nonneg (rewarder_reward db s price).1.1.
Proof.
  unfold rewarder_reward, reward_oracles, reward_operational, reward_poc_and_dc. cbn [fst]. apply write_unallocated_nonneg, write_unallocated_nonneg.
  apply Forall_app. split; [|apply Forall_singleton; cbn; apply to_u64_or_0_nonneg].
  destruct (calculate_rewards_per_share _ _ _) as [[b w] d]. destruct (get_scheduled_poc_tokens _ _). apply write_unallocated_nonneg. cbn [app].
  apply Forall_forall. intros sh Hsh. unfold into_iot_reward_shares in Hsh. rewrite <- list_fmap_compose in Hsh.
  apply list_elem_of_fmap in Hsh as (g & -> & Hg). apply elem_of_filter_bool in Hg as [Hg _]. apply list_elem_of_fmap in Hg as (kv & -> & _). cbn.
  split; [|split]; apply to_u64_or_0_nonneg.
Qed.

(** The amounts of shares that are not negative and in range, as they are indexed. *)
Lemma iot_key_amount s : share_nonneg s -> share_amount s < 2 ^ 63 -> (iot_key self (reward s)).2 = share_amount s.
Proof.
  unfold share_nonneg, share_amount. destruct (reward s) as [g|a|ty a]; cbn; [|done..]. intros (H1 & H2 & H3) H.
  rewrite !u64_add_small by (rewrite ?u64_add_small; lia). lia.
Qed.

Lemma extract_iot msgs written : ((fun m => decode_iot_share m) <$> msgs) = ((fun s => Some (Some (reward s))) <$> written) ->
  try_map (extract_reward_share self) msgs = Ok ((fun s => iot_key self (reward s)) <$> written).
Proof.
  revert written. induction msgs as [|m msgs IH]; intros [|s written] E; try done. rewrite !fmap_cons in E. injection E as Em E.
  cbn [try_map]. unfold extract_reward_share at 1. rewrite iot_mode, Em. cbn [ok_or result_bind]. by rewrite (IH written E).
Qed.

(** C12: from the rewarder to the index.  When the files of the manifest hold the
    shares that the rewarder of the IoT network wrote for a period, the indexer
    succeeds and the table of rewards grows by 94 per cent of the period's emission:
    never more than a tenth of a bone above it, and less than six bones below. *)
Theorem iot_period_indexed (db : share_tables dec) (s : Scheduler) price order t m msgs :
  let p := reward_period s in
  let e := emission 94 (num_seconds (r_end p - r_start p)) in
  period_secs_ok (r_end p - r_start p) -> rows_ok db p -> price_ok price ->
  (forall x, order x ≡ₚ map_to_list x) -> source_unordered read_file (written_files m) = Ok msgs ->
  (fun m => decode_iot_share m) <$> msgs = (fun s => Some (Some (reward s))) <$> (rewarder_reward db s price).1.1 ->
  room t (2 ^ 60) ->
  exists t', handle_rewards self read_file order t m = Ok t' /\
    (e - 6 < inject_Z (total_rewards t' - total_rewards t) <= e + (1 # 10))%Q.
Proof.
  intros p e Hd Hrows Hp Ho Hsrc Hmsgs [Hr0 Hr1]. pose proof (rows_shares_ok db p (rows_units_ok db p Hrows)) as Hsh.
  pose proof (period_conserved db s price Hd Hsh Hp) as Hc. cbv zeta in Hc. fold p e in Hc. set (written := (rewarder_reward db s price).1.1) in *.
  pose proof (written_nonneg db s price) as Hnn. fold written in Hnn. rewrite Forall_forall in Hnn.
  destruct (emission_bounds 94 (num_seconds (r_end p - r_start p)) ltac:(lia) Hd) as [_ He]. fold e in He.
  assert (sumZ share_amount written < 2 ^ 60) as Hsum.
  { rewrite Zlt_Qlt. eapply Qle_lt_trans; [apply Hc|]. eapply Qle_lt_trans; [apply Qplus_le_compat; [exact He|apply Qle_refl]|]. reflexivity. }
  assert (forall x, x ∈ written -> 0 <= share_amount x) as Hx0.
  { intros x Hx. specialize (Hnn x Hx). unfold share_nonneg, share_amount in *. destruct (reward x); lia. }
  set (shares := (fun s => iot_key self (reward s)) <$> written). assert (sumZ snd shares = sumZ share_amount written) as Es.
  { unfold shares. rewrite sumZ_fmap. apply sumZ_ext. intros x Hx. apply iot_key_amount; [by apply Hnn|].
    pose proof (sumZ_elem share_amount written x Hx Hx0). lia. }
  assert (manifest_shares self read_file m = Ok shares) as Hms by (unfold manifest_shares; rewrite Hsrc; by apply extract_iot).
  assert (amounts_ok shares) as Ham.
  { split; [|lia]. intros x Hx. unfold shares in Hx. apply list_elem_of_fmap in Hx as (y & -> & Hy).
    rewrite iot_key_amount; [by apply Hx0|by apply Hnn|]. pose proof (sumZ_elem share_amount written y Hy Hx0). lia. }
  destruct (handle_rewards_ok self read_file order t m shares Ho Hms Ham) as [t' Et]; [split; [done|lia]|].
  exists t'. split; [done|]. replace (total_rewards t' - total_rewards t) with (sumZ share_amount written); [done|].
  rewrite <- !weighed_total, (handle_rewards_spec self read_file order t m t' shares Ho Hms Ham Et).
  rewrite <- Es, (sumZ_ext (share_weight (fun _ => 1)) snd) by (intros; unfold share_weight; lia). lia.
Qed.
End Composition.

(** ** A day indexed *)

Module ExampleIndex.
Import FileNames.

(** Messages are the positions of the shares in the list. *)
Definition shares : list IotRewardShare := (rewarder_reward Example.db Example.day (dec_of_Z 1000000)).1.1.

#[global] Instance numbered_shares : ShareCodec := {
  decode_iot_share s := (fun x => Some (reward x)) <$> shares !! String.length s;
  decode_mobile_share _ := None;
  key_string k := k;
  bs58_string s := s;
  service_provider_name _ := None
}.

Definition indexer : Indexer := mkIndexer ModeIot "ops" "unallocated".
Definition messages : list string := ExampleChain.unary <$> seq 0 (length shares).
Definition store (key : string) : result (list (result string unit)) unit :=
  if String.eqb key "iot_reward_share.1658832527866.gz" then Ok (Ok <$> messages) else Err tt.
Definition manifest : RewardManifest := mkManifest ["iot_reward_share.1658832527866.gz"] 0 86400000000000.
End ExampleIndex.

Section IndexWitnesses.
Import ExampleIndex.

Lemma messages_read : source_unordered store (written_files manifest) = Ok messages.
Proof. vm_compute. reflexivity. Qed.

Lemma messages_decode : (fun m => decode_iot_share m) <$> messages = (fun s => Some (Some (reward s))) <$> shares.
Proof. vm_compute. reflexivity. Qed.

Lemma iot_period_indexed_witness : exists t', handle_rewards indexer store map_to_list ∅ manifest = Ok t' /\
  (emission 94 86400 - 6 < inject_Z (total_rewards t' - total_rewards ∅))%Q.
Proof.
  destruct (iot_period_indexed indexer store eq_refl Example.db Example.day (dec_of_Z 1000000) map_to_list ∅ manifest messages
    Example.day_ok Example.db_rows_ok Example.price_1 (fun _ => reflexivity _) messages_read messages_decode) as (t' & E & H & _).
  - split; [intros a row H; by rewrite lookup_empty in H|]. unfold weighed. rewrite map_to_list_empty. cbn. lia.
  - exists t'. split; [exact E|exact H].
Defined.

Lemma manifest_indexed_witness : exists shares t', manifest_shares indexer store manifest = Ok shares /\
  handle_rewards indexer store map_to_list ∅ manifest = Ok t' /\ rewards_of t' "ops" = sumZ (amount_for "ops") shares.
Proof.
  destruct (manifest_shares indexer store manifest) as [l|] eqn:E; [|exfalso; revert E; vm_compute; discriminate].
  assert (amounts_ok l) as Ha.
  { assert (match manifest_shares indexer store manifest with Ok l => forallb (fun s => 0 <=? s.2) l && (sumZ snd l <? 2 ^ 60) | Err _ => false end = true) as Hb
      by (vm_compute; reflexivity). rewrite E in Hb. apply andb_true_iff in Hb as [H1 H2]. rewrite forallb_forall in H1. apply Z.ltb_lt in H2.
    split; [|lia]. intros s Hs. apply Z.leb_le, H1. by apply list_elem_of_In. }
  destruct (manifest_indexed indexer store map_to_list ∅ manifest l (fun _ => reflexivity _) E Ha) as (t' & Et & Hr & _).
  - split; [intros a row H; by rewrite lookup_empty in H|]. destruct Ha. unfold weighed. rewrite map_to_list_empty. cbn. lia.
  - exists l, t'. split; [done|]. split; [exact Et|]. by rewrite Hr.
Defined.
End IndexWitnesses.
