(* ===== verification/Price.v ===== *)
(** * Prices

    [price/src/price_generator.rs] and [price_tracker.rs]: the generator asks the
    oracle on the chain for the price of a token, falls back on the last price for a
    while, and writes price reports; the tracker, which runs in the rewarders, reads
    the reports from the store and hands out prices that are recent enough.  The
    oracle, JSON and the encoding of messages are parameters; a tick happens at one
    time. *)

From S2P Require Import Prelude Solana FileStoreTypes FileNames.
From Stdlib Require Import Ascii.

Open Scope Z_scope.
Open Scope oracle_scope.

Inductive BlockchainTokenTypeV1 := Hnt | Hst | Mobile | Iot.

#[global] Instance token_eq_dec : EqDecision BlockchainTokenTypeV1.
Proof. solve_decision. Defined.

#[global] Instance token_countable : Countable BlockchainTokenTypeV1.
Proof.
  refine (inj_countable' (fun t => match t with Hnt => 0 | Hst => 1 | Mobile => 2 | Iot => 3 end)
    (fun n => match n with 0 => Hnt | 1 => Hst | 2 => Mobile | _ => Iot end) _).
  by intros [].
Defined.

(** The message [PriceReportV1]. *)
Record PriceReportV1 : Type := mkPriceReport { pr_timestamp : Z; pr_price : Z; pr_token_type : Z }.

(** ** Generator *)

Record Price : Type := mkPrice { p_timestamp : Z; p_price : Z; p_token_type : BlockchainTokenTypeV1 }.

(** The latest price as JSON, which reads back. *)
Class PriceJson : Type := {
  json_of_price : Price -> string;
  price_of_json : string -> option Price;
  price_json_roundtrip p : price_of_json (json_of_price p) = Some p
}.

Section Generator.
Context {tokens : ProtoEnum BlockchainTokenTypeV1} {chrono : Chrono} {json : PriceJson} {Key : Type}.

Definition price_report (value : Price) : PriceReportV1 :=
  mkPriceReport (as_u64 (p_timestamp value / nanos_per_sec)) (p_price value) (to_i32 (p_token_type value)).

Definition price_try_from (value : PriceReportV1) : result Price unit :=
  let? tt_ := ok_or (from_i32 (pr_token_type value)) tt in
  let? timestamp := map_err (fun _ => tt) (single (as_i64 (pr_timestamp value) * nanos_per_sec) (pr_timestamp value)) in
  Ok (mkPrice timestamp (pr_price value) tt_).

(** The generator, the file of the latest price and the sink. *)
Record PriceGenerator : Type := mkGenerator {
  g_token_type : BlockchainTokenTypeV1;
  g_last_price_opt : option Price;
  g_key : option Key;
  g_default_price : option Z;
  g_stale_price_duration : Z;
  g_latest_price_file : option string;
  g_sink : list PriceReportV1
}.

Definition with_last (g : PriceGenerator) (last : option Price) (file : option string) : PriceGenerator :=
  mkGenerator (g_token_type g) last (g_key g) (g_default_price g) (g_stale_price_duration g) file (g_sink g).

Definition with_report (g : PriceGenerator) (r : PriceReportV1) : PriceGenerator :=
  mkGenerator (g_token_type g) (g_last_price_opt g) (g_key g) (g_default_price g) (g_stale_price_duration g) (g_latest_price_file g)
    (g_sink g ++ [r]).

(** [get_price]: the oracle has a price at a time, or the call fails. *)
Definition get_price (oracle : result Z unit) (now : Z) (token_type : BlockchainTokenTypeV1) : result Price unit :=
  let? price := oracle in Ok (mkPrice now price token_type).

Definition is_valid (g : PriceGenerator) (now : Z) (price : Price) : bool := now - g_stale_price_duration g <? p_timestamp price.

Definition read_price_file (g : PriceGenerator) : option Price := contents ← g_latest_price_file g; price_of_json contents.

(** [write_price_file]; [torn] is what a failed write leaves. *)
Definition write_price_file (g : PriceGenerator) (price : Price) (torn : option (option string)) : option string :=
  match torn with None => Some (json_of_price price) | Some contents => contents end.

Definition write_report (g : PriceGenerator) (sink_ok : bool) (price : Price) : PriceGenerator * result unit unit :=
  if sink_ok then (with_report g (price_report price), Ok tt) else (g, Err tt).

(** [handle] *)
Definition handle_price (g : PriceGenerator) (oracle : result Z unit) (now : Z) (torn : option (option string)) (sink_ok : bool)
  : PriceGenerator * result unit unit :=
  match get_price oracle now (g_token_type g) with
  | Ok new_price => write_report (with_last g (Some new_price) (write_price_file g new_price torn)) sink_ok new_price
  | Err _ =>
      match g_last_price_opt g with
      | Some old_price =>
          if is_valid g now old_price then write_report g sink_ok (mkPrice now (p_price old_price) (p_token_type old_price))
          else (with_last g None (g_latest_price_file g), Ok tt)
      | None => (g, Ok tt)
      end
  end.

(** The branch of [run]: what the generator does at a tick. *)
Definition price_tick (g : PriceGenerator) (oracle : result Z unit) (now : Z) (torn : option (option string)) (sink_ok : bool)
  : PriceGenerator * result unit unit :=
  match g_key g, g_default_price g with
  | Some _, _ => handle_price g oracle now torn sink_ok
  | None, Some default_price => write_report g sink_ok (mkPrice now default_price (g_token_type g))
  | None, None => (g, Ok tt)
  end.

(** The start of [run_with_key]. *)
Definition price_start (g : PriceGenerator) : PriceGenerator := with_last g (read_price_file g) (g_latest_price_file g).
End Generator.
Arguments PriceGenerator : clear implicits.

(** ** Tracker *)

Record TrackedPrice : Type := mkTracked { t_price : Z; t_timestamp : Z }.

Abbreviation Prices := (gmap BlockchainTokenTypeV1 TrackedPrice).

Inductive PriceTrackerError :=
| InvalidPriceTimestamp (v : Z) | PriceNotAvailable | PriceTooOld (t : Z) | PriceFileStoreError.

Section Tracker.
Context {tokens : ProtoEnum BlockchainTokenTypeV1} {token_default : BlockchainTokenTypeV1} {chrono : Chrono}
  {B : Type} {store : ObjectStore B}.
Variables (decode_price_report : string -> option PriceReportV1)
  (stream_file : FileInfo -> result (list (result string unit)) unit).

Definition tracked_try_from (value : PriceReportV1) : result TrackedPrice PriceTrackerError :=
  let? timestamp := map_err (fun _ => InvalidPriceTimestamp (pr_timestamp value))
    (single (as_i64 (pr_timestamp value) * nanos_per_sec) (pr_timestamp value)) in
  Ok (mkTracked (pr_price value) timestamp).

(** A message of a file: the token, an unknown one being the default, and the price.
    Anything else is skipped. *)
Definition read_report (msg : result string unit) : option (BlockchainTokenTypeV1 * TrackedPrice) :=
  match msg with
  | Err _ => None
  | Ok buf =>
      report ← decode_price_report buf;
      match tracked_try_from report with
      | Ok price => Some (default token_default (from_i32 (pr_token_type report)), price)
      | Err _ => None
      end
  end.

(** [process_file]: later reports replace earlier ones. *)
Definition process_price_file (prices : Prices) (file : FileInfo) : result (Prices * Z) PriceTrackerError :=
  let? msgs := map_err (fun _ => PriceFileStoreError) (stream_file file) in
  Ok (fold_left (fun prices kv => <[kv.1 := kv.2]> prices) (omap read_report msgs) prices, fi_timestamp file).

(** [process_files]: the files of the listing one after the other; an error ends it,
    and the prices read until then stay.  [None] is a panic of the listing. *)
Fixpoint process_price_infos (prices : Prices) (last : option Z) (files : list FileInfo) : Prices * result (option Z) PriceTrackerError :=
  match files with
  | [] => (prices, Ok last)
  | f :: rest =>
      match process_price_file prices f with
      | Ok (prices, ts) => process_price_infos prices (Some ts) rest
      | Err e => (prices, Err e)
      end
  end.

Fixpoint process_price_pages (after : Z) (prices : Prices) (last : option Z) (pages : list (result (list Object) unit))
  : option (Prices * result (option Z) PriceTrackerError) :=
  match pages with
  | [] => Some (prices, Ok last)
  | Err _ :: _ => Some (prices, Err PriceFileStoreError)
  | Ok os :: rest =>
      files ← page_files (Some after) None os;
      match process_price_infos prices last files with
      | (prices, Ok last) => process_price_pages after prices last rest
      | r => Some r
      end
  end.

Definition process_files (b : B) (prices : Prices) (after : Z) : option (Prices * result (option Z) PriceTrackerError) :=
  process_price_pages after prices None (list_pages b (file_type_str PriceReportFile) (Some (file_key (file_type_str PriceReportFile) after))).

(** [calculate_initial_prices] *)
Definition calculate_initial_prices (b : B) (price_duration now : Z) : option (Prices * result Z PriceTrackerError) :=
  r ← process_files b ∅ (now - price_duration);
  Some (r.1, let? ts := r.2 in ok_or ts PriceNotAvailable).

(** A tick of the daemon: an error ends it. *)
Definition tracker_tick (b : B) (prices : Prices) (after : Z) : option (Prices * result Z PriceTrackerError) :=
  r ← process_files b prices after;
  Some (r.1, let? ts := r.2 in Ok (default after ts)).

(** [price]; an error also stops the daemon. *)
Definition price_of (prices : Prices) (price_duration now : Z) (token_type : BlockchainTokenTypeV1) : result Z PriceTrackerError :=
  let? price := ok_or (prices !! token_type) PriceNotAvailable in
  if now - price_duration <? t_timestamp price then Ok (t_price price) else Err (PriceTooOld (t_timestamp price)).
End Tracker.

(** ** Prices of the generator are recent *)

Section GeneratorRuns.
Context {tokens : ProtoEnum BlockchainTokenTypeV1} {chrono : Chrono} {json : PriceJson} {Key : Type}.
Implicit Types g : PriceGenerator Key.

(** A generator that asks the oracle, with the prices it got so far and when. *)
Inductive generator_step : PriceGenerator Key * list (Z * Z) -> PriceGenerator Key * list (Z * Z) -> Prop :=
| gen_tick g got oracle now torn sink_ok :
    0 <= now < 2 ^ 63 ->
    (forall contents c, torn = Some contents -> contents = Some c -> contents = g_latest_price_file g \/ price_of_json c = None) ->
    generator_step (g, got)
      ((handle_price g oracle now torn sink_ok).1, match oracle with Ok p => got ++ [(now, p)] | Err _ => got end)
| gen_restart g got : generator_step (g, got) (price_start g, got).

(** A price that the oracle had. *)
Definition known_price (token : BlockchainTokenTypeV1) (got : list (Z * Z)) (p : Price) : Prop :=
  (p_timestamp p, p_price p) ∈ got /\ p_token_type p = token.

(** A report says what the oracle said less than the stale period before. *)
Definition report_fresh (token : BlockchainTokenTypeV1) (stale : Z) (got : list (Z * Z)) (r : PriceReportV1) : Prop :=
  pr_token_type r = to_i32 token /\ 0 <= pr_timestamp r < 2 ^ 63 /\
  exists ts, (ts, pr_price r) ∈ got /\ pr_timestamp r * nanos_per_sec - stale < ts.

Record generator_ok (token : BlockchainTokenTypeV1) (stale : Z) (x : PriceGenerator Key * list (Z * Z)) : Prop := mkGenOk {
  go_token : g_token_type x.1 = token;
  go_stale : g_stale_price_duration x.1 = stale;
  go_last p : g_last_price_opt x.1 = Some p -> known_price token x.2 p;
  go_file c p : g_latest_price_file x.1 = Some c -> price_of_json c = Some p -> known_price token x.2 p;
  go_sink : Forall (report_fresh token stale x.2) (g_sink x.1)
}.

Lemma known_price_app token got got' p : known_price token got p -> known_price token (got ++ got') p.
Proof. intros [H1 H2]. split; [|done]. apply elem_of_app. by left. Qed.

Lemma report_fresh_app token stale got got' r : report_fresh token stale got r -> report_fresh token stale (got ++ got') r.
Proof. intros (H1 & H2 & ts & H3 & H4). split; [done|]. split; [done|]. exists ts. split; [|done]. apply elem_of_app. by left. Qed.

(** The report of a price that the oracle had at a time. *)
Lemma price_report_fresh token stale got now ts p : 0 <= now < 2 ^ 63 -> (ts, p) ∈ got -> now - stale < ts ->
  report_fresh token stale got (price_report (mkPrice now p token)).
Proof.
  intros Hn Hg Hts. assert (0 <= now / nanos_per_sec < 2 ^ 63) as Hd.
  { unfold nanos_per_sec. split; [apply Z.div_pos; lia|]. apply Z.div_lt_upper_bound; lia. }
  unfold report_fresh, price_report. cbn. rewrite as_u64_small by (unfold is_u64; lia). split; [done|]. split; [done|]. exists ts. split; [done|].
  pose proof (Z.mul_div_le now nanos_per_sec ltac:(done)). lia.
Qed.

Lemma generator_ok_step token stale x y : 0 < stale -> generator_ok token stale x -> generator_step x y -> generator_ok token stale y.
Proof.
  intros Hpos Hok Hstep. revert Hok. destruct Hstep as [g got oracle now torn sink_ok Hnow Htorn|g got]; intros [Ht Hs Hl Hf Hk]; cbn [fst snd] in *.
  - unfold handle_price, get_price. destruct oracle as [p|[]]; cbn [result_bind].
    + set (got' := got ++ [(now, p)]). assert ((now, p) ∈ got') as Hin by (unfold got'; set_solver).
      assert (forall f, (forall c q, f = Some c -> price_of_json c = Some q -> known_price token got' q) ->
        generator_ok token stale (with_last g (Some (mkPrice now p (g_token_type g))) f, got')) as Hgen.
      { intros f Hfile. split; cbn [fst snd with_last g_token_type g_stale_price_duration g_last_price_opt g_latest_price_file g_sink]; try done.
        - intros q [= <-]. split; [done|]. by rewrite Ht.
        - eapply Forall_impl; [exact Hk|]. intros r. apply report_fresh_app. }
      unfold write_report. assert (forall c q, write_price_file g (mkPrice now p (g_token_type g)) torn = Some c -> price_of_json c = Some q ->
        known_price token got' q) as Hfile.
      { unfold write_price_file. intros c q Hc Hq. destruct torn as [contents|].
        - destruct (Htorn contents c eq_refl Hc) as [E|E]; [|congruence]. rewrite E in Hc. by apply known_price_app, (Hf c).
        - injection Hc as <-. rewrite price_json_roundtrip in Hq. injection Hq as <-. split; [done|]. by rewrite Ht. }
      destruct sink_ok; cbn [fst]; [|by apply Hgen]. destruct (Hgen _ Hfile) as [? ? ? ? Hk']. split; try done. cbn [fst snd with_report g_sink].
      apply Forall_app. split; [done|]. apply Forall_singleton. rewrite Ht. apply (price_report_fresh token stale got' now now); [done|done|lia].
    + destruct (g_last_price_opt g) as [old|] eqn:El; [|split; cbn [fst snd]; rewrite ?El; done].
      unfold is_valid. destruct (Z.ltb_spec (now - g_stale_price_duration g) (p_timestamp old)) as [Hv|Hv].
      * destruct (Hl old eq_refl) as [Hin Htok]. unfold write_report. destruct sink_ok; cbn [fst]; [|by split; cbn [fst snd]; rewrite ?El].
        split; cbn [fst snd with_report g_token_type g_stale_price_duration g_last_price_opt g_latest_price_file g_sink]; rewrite ?El; try done.
        apply Forall_app. split; [done|]. apply Forall_singleton. rewrite Htok. rewrite Hs in Hv. by apply (price_report_fresh token stale got now (p_timestamp old)).
      * by split.
  - split; cbn [price_start with_last g_token_type g_stale_price_duration g_last_price_opt g_latest_price_file g_sink fst snd]; try done.
    intros p. unfold read_price_file. destruct (g_latest_price_file g) as [c|] eqn:Ec; [|done]. cbn. intros Hp. by apply (Hf c).
Qed.
End GeneratorRuns.

(** ** Prices of the tracker *)

Section TrackerRuns.
Context {tokens : ProtoEnum BlockchainTokenTypeV1} {token_default : BlockchainTokenTypeV1} {chrono : Chrono}
  {B : Type} {store : ObjectStore B}.
Variables (decode_price_report : string -> option PriceReportV1)
  (stream_file : FileInfo -> result (list (result string unit)) unit).

Notation read_report := (read_report (token_default := token_default) decode_price_report).
Notation process_price_infos := (process_price_infos (token_default := token_default) decode_price_report stream_file).
Notation process_price_pages := (process_price_pages (token_default := token_default) decode_price_report stream_file).
Notation process_files := (process_files (token_default := token_default) decode_price_report stream_file).
Notation tracker_tick := (tracker_tick (token_default := token_default) decode_price_report stream_file).
Notation calculate_initial_prices := (calculate_initial_prices (token_default := token_default) decode_price_report stream_file).

(** The token of a report. *)
Definition report_token (r : PriceReportV1) : BlockchainTokenTypeV1 := default token_default (from_i32 (pr_token_type r)).

(** A report in a file of the store. *)
Definition in_files (r : PriceReportV1) : Prop :=
  exists f msgs buf, stream_file f = Ok msgs /\ Ok buf ∈ msgs /\ decode_price_report buf = Some r.

Definition from_reports (prices : Prices) : Prop :=
  forall token q, prices !! token = Some q -> exists r, in_files r /\ report_token r = token /\ tracked_try_from r = Ok q.

Lemma from_reports_file prices f prices' ts : from_reports prices ->
  process_price_file (token_default := token_default) decode_price_report stream_file prices f = Ok (prices', ts) -> from_reports prices'.
Proof.
  intros Hp. unfold process_price_file. destruct (stream_file f) as [msgs|] eqn:Ef; [|done]. cbn [map_err result_bind]. intros [= <- _].
  assert (forall kv, kv ∈ omap read_report msgs -> exists r, in_files r /\ report_token r = kv.1 /\ tracked_try_from r = Ok kv.2) as Hm.
  { intros kv Hkv. apply list_elem_of_omap in Hkv as (msg & Hmsg & Hr). destruct msg as [buf|]; [|done]. cbn in Hr.
    destruct (decode_price_report buf) as [r|] eqn:Er; [|done]. cbn in Hr. destruct (tracked_try_from r) as [q|] eqn:Eq; [|done]. injection Hr as <-.
    exists r. split; [by exists f, msgs, buf|done]. }
  clear Ef. revert prices Hp. induction (omap read_report msgs) as [|[token q] l IH]; intros prices Hp; [done|]. cbn [fold_left fst snd]. apply IH.
  - intros kv Hkv. apply Hm. by right.
  - intros token' q'. destruct (decide (token' = token)) as [->|Hne]; [rewrite lookup_insert_eq; intros [= <-]; apply (Hm (token, q)); by left|].
    rewrite lookup_insert_ne by done. apply Hp.
Qed.

Lemma from_reports_infos files : forall prices last prices' r, from_reports prices -> process_price_infos prices last files = (prices', r) -> from_reports prices'.
Proof.
  induction files as [|f files IH]; intros prices last prices' r Hp; cbn; [by intros [= <- _]|].
  destruct (process_price_file _ _ _ _) as [[prices1 ts]|] eqn:Ef; [|by intros [= <- _]]. intros E. eapply IH; [|exact E]. by eapply from_reports_file.
Qed.

Lemma from_reports_pages after pages : forall prices last prices' r, from_reports prices ->
  process_price_pages after prices last pages = Some (prices', r) -> from_reports prices'.
Proof.
  induction pages as [|[os|] pages IH]; intros prices last prices' r Hp; cbn; [by intros [= <- _]| |by intros [= <- _]].
  destruct (page_files (Some after) None os) as [files|]; [|done]. cbn. destruct (process_price_infos prices last files) as [prices1 [last1|]] eqn:Ei.
  - intros E. eapply IH; [|exact E]. by eapply from_reports_infos.
  - intros [= <- _]. by eapply from_reports_infos.
Qed.

(** The prices of a tracker: the initial ones and those after each tick. *)
Inductive tracked : Prices -> Prop :=
| tracked_initial b price_duration now prices r : calculate_initial_prices b price_duration now = Some (prices, r) -> tracked prices
| tracked_tick b prices after prices' r : tracked prices -> tracker_tick b prices after = Some (prices', r) -> tracked prices'.

Lemma tracked_from prices : tracked prices -> from_reports prices.
Proof.
  induction 1 as [b d now prices r E|b prices after prices' r Hp IH E].
  - unfold calculate_initial_prices in E. destruct (process_files b ∅ (now - d)) as [[p1 r1]|] eqn:Ep; [|done]. injection E as <- _.
    eapply from_reports_pages; [|exact Ep]. intros token q H. by rewrite lookup_empty in H.
  - unfold tracker_tick in E. destruct (process_files b prices after) as [[p1 r1]|] eqn:Ep; [|done]. injection E as <- _.
    by eapply from_reports_pages.
Qed.

(** ** The latest report counts *)

(** The reports of a file. *)
Definition file_reports (f : FileInfo) : list (BlockchainTokenTypeV1 * TrackedPrice) :=
  match stream_file f with Ok msgs => omap read_report msgs | Err _ => [] end.

Definition latest (token : BlockchainTokenTypeV1) (l : list (BlockchainTokenTypeV1 * TrackedPrice)) (old : option TrackedPrice) : option TrackedPrice :=
  fold_left (fun o kv => if bool_decide (kv.1 = token) then Some kv.2 else o) l old.

Lemma insert_all_latest l token : forall prices : Prices,
  fold_left (fun prices kv => <[kv.1 := kv.2]> prices) l prices !! token = latest token l (prices !! token).
Proof.
  induction l as [|[t q] l IH]; intros prices; [done|]. cbn [fold_left fst snd]. rewrite IH. unfold latest. cbn [fold_left fst snd]. f_equal.
  case_bool_decide as E; [subst; apply lookup_insert_eq|by apply lookup_insert_ne].
Qed.

Lemma infos_latest files : forall prices seen prices' seen', process_price_infos prices seen files = (prices', Ok seen') ->
  (forall token, prices' !! token = latest token (concat (file_reports <$> files)) (prices !! token)) /\
  seen' = match last files with Some f => Some (fi_timestamp f) | None => seen end.
Proof.
  induction files as [|f files IH]; intros prices seen prices' seen'; cbn; [by intros [= <- <-]|]. unfold process_price_file.
  destruct (stream_file f) as [msgs|] eqn:Ef; [|done]. cbn [map_err result_bind]. intros E. destruct (IH _ _ _ _ E) as [H1 H2]. split.
  - intros token. rewrite H1, insert_all_latest. unfold latest. rewrite fold_left_app.
    by assert (file_reports f = omap read_report msgs) as -> by (unfold file_reports; by rewrite Ef).
  - rewrite H2. rewrite last_cons. by destruct (last files).
Qed.

Lemma pages_files after pages : forall prices seen prices' seen', process_price_pages after prices seen pages = Some (prices', Ok seen') ->
  exists files, collect_pages (Some after) None pages = Some (Ok files) /\ process_price_infos prices seen files = (prices', Ok seen').
Proof.
  induction pages as [|[os|] pages IH]; intros prices seen prices' seen'; cbn; [intros [= <- <-]; by exists []| |done].
  destruct (page_files (Some after) None os) as [files|]; [|done]. cbn. destruct (process_price_infos prices seen files) as [prices1 [seen1|]] eqn:Ei; [|done].
  intros E. destruct (IH _ _ _ _ E) as (more & -> & Hm). exists (files ++ more). split; [done|].
  clear - Ei Hm. revert prices seen Ei. induction files as [|f files IHf]; intros prices seen; cbn [app Price.process_price_infos]; [by intros [= -> ->]|].
  destruct (process_price_file _ _ prices f) as [[p1 ts]|]; [apply IHf|done].
Qed.

(** the latest report counts.  After a tick that succeeds, the price of every
    token is its last report in the files that the listing returned, in their
    order, or the price before if there is none; and the next listing starts after
    the last of these files. *)
Theorem tracker_latest b prices after prices' after' : tracker_tick b prices after = Some (prices', Ok after') ->
  exists files, list_all b (file_type_str PriceReportFile) (Some after) None = Some (Ok files) /\
  (forall token, prices' !! token = latest token (concat (file_reports <$> files)) (prices !! token)) /\
  after' = match last files with Some f => fi_timestamp f | None => after end.
Proof.
  unfold tracker_tick, process_files. destruct (process_price_pages after prices None _) as [[p1 [seen1|]]|] eqn:Ep; [|done|done].
  intros [= <- <-]. destruct (pages_files _ _ _ _ _ _ Ep) as (files & Hl & Hi). exists files. split; [exact Hl|].
  destruct (infos_latest _ _ _ _ _ Hi) as [H1 ->]. split; [exact H1|]. cbn. by destruct (last files).
Qed.

Section EndToEnd.
Context {json : PriceJson} {Key : Type}.

(** A generator before it ran. *)
Definition generator_new (token : BlockchainTokenTypeV1) (key : Key) (stale : Z) : PriceGenerator Key :=
  mkGenerator token None (Some key) None stale None [].

Lemma generator_runs token key stale x : 0 < stale -> rtc generator_step (generator_new token key stale, []) x -> generator_ok token stale x.
Proof.
  intros Hs H. remember (generator_new token key stale, []) as x0 eqn:E0. assert (generator_ok token stale x0) as H0 by (subst x0; by split).
  clear E0. induction H as [x|x y z Hxy _ IH]; [done|]. by apply IH, (generator_ok_step _ _ x).
Qed.

(** C17: prices can be traced.  When the reports of a token in the store were written
    by a generator that asks the oracle, a price that a tracker hands out at a time
    is one that the oracle gave less than the stale period of the generator and the
    price duration of the tracker before, through any failures, restarts and
    outages. *)
Theorem price_traced token key stale g got prices price_duration now p :
  0 < stale -> rtc generator_step (generator_new token key stale, []) (g, got) ->
  (forall r, in_files r -> report_token r = token -> r ∈ g_sink g) ->
  tracked prices -> price_of prices price_duration now token = Ok p ->
  exists ts, (ts, p) ∈ got /\ now - price_duration - stale < ts.
Proof.
  intros Hs Hg Hfiles Ht. unfold price_of. destruct (prices !! token) as [q|] eqn:Eq; [|done]. cbn [ok_or result_bind].
  destruct (Z.ltb_spec (now - price_duration) (t_timestamp q)) as [Hnow|]; [|done]. intros [= <-].
  destruct (tracked_from prices Ht token q Eq) as (r & Hr & Hrt & Hq). destruct (generator_runs _ _ _ _ Hs Hg) as [_ _ _ _ Hk].
  rewrite Forall_forall in Hk. destruct (Hk r (Hfiles r Hr Hrt)) as (_ & Hts & ts & Hin & Hfresh). exists ts.
  unfold tracked_try_from in Hq. destruct (single _ _) as [t|] eqn:E1; [|done]. cbn in Hq. injection Hq as <-. cbn [t_timestamp t_price] in *.
  unfold single in E1. destruct (time_ok _); [|done]. injection E1 as <-. rewrite as_i64_small in Hnow by done. split; [done|]. lia.
Qed.
End EndToEnd.
End TrackerRuns.

(** ** A price, an outage and a tracker *)

Module ExamplePrice.
#[global] Instance token_enum : ProtoEnum BlockchainTokenTypeV1.
Proof.
  refine {| to_i32 := fun t => match t with Hnt => 0 | Hst => 1 | Mobile => 2 | Iot => 3 end; from_i32 := fun z => [Hnt; Hst; Mobile; Iot] !! Z.to_nat z |}.
  by intros [].
Defined.

(** Prices as the digits of a number. *)
#[global] Instance price_eq_dec : EqDecision Price.
Proof. solve_decision. Defined.

#[global] Instance price_countable : Countable Price.
Proof.
  refine (inj_countable' (fun p => (p_timestamp p, p_price p, p_token_type p)) (fun x => mkPrice x.1.1 x.1.2 x.2) _).
  by intros [].
Defined.

Fixpoint bits (p : positive) : string :=
  match p with xH => "" | xO p => String "0"%char (bits p) | xI p => String "1"%char (bits p) end.

Fixpoint of_bits (s : string) : positive :=
  match s with EmptyString => xH | String c s => if Ascii.eqb c "1"%char then xI (of_bits s) else xO (of_bits s) end.

Lemma of_bits_bits p : of_bits (bits p) = p.
Proof. induction p as [p IH|p IH|]; cbn; [by rewrite IH..|done]. Qed.

#[global] Program Instance binary_prices : PriceJson := {
  json_of_price p := bits (encode p);
  price_of_json s := decode (of_bits s)
}.
Next Obligation. intros p. cbn [json_of_price price_of_json]. rewrite of_bits_bits. apply countable.decode_encode. Qed.

Definition secs (n : Z) : Z := n * nanos_per_sec.
Definition start : PriceGenerator unit := generator_new Iot tt (secs 43200).

(** The oracle has a price, then it is out for a minute. *)
Definition first : PriceGenerator unit := (handle_price start (Ok 7) (secs 1658832500) None true).1.
Definition second : PriceGenerator unit := (handle_price (price_start first) (Err tt) (secs 1658832560) None true).1.
Definition got : list (Z * Z) := [(secs 1658832500, 7)].

Lemma generator_run : rtc generator_step (start, []) (second, got).
Proof.
  eapply rtc_l; [apply (gen_tick start [] (Ok 7) (secs 1658832500) None true); [by vm_compute|done]|].
  eapply rtc_l; [apply gen_restart|]. apply rtc_once, (gen_tick (price_start first) got (Err tt) (secs 1658832560) None true); [by vm_compute|done].
Qed.

Definition price_bucket : sorted_bucket := exist _ [("price_report.1658832570000.gz", 10)] eq_refl.
Definition decode_report (s : string) : option PriceReportV1 := if String.eqb s "r" then last (g_sink second) else None.
Definition report_file (f : FileInfo) : result (list (result string unit)) unit := Ok [Ok "r"].

Definition prices : Prices := {[Iot := mkTracked 7 (secs 1658832560)]}.

Lemma initial_prices : calculate_initial_prices (token_default := Hnt) decode_report report_file price_bucket (secs 600) (secs 1658832600) =
  Some (prices, Ok 1658832570000000000).
Proof. vm_compute. reflexivity. Qed.

Lemma one_tick : tracker_tick (token_default := Hnt) decode_report report_file price_bucket ∅ 1658832500000000000 = Some (prices, Ok 1658832570000000000).
Proof. vm_compute. reflexivity. Qed.
End ExamplePrice.

Section PriceWitnesses.
Import ExamplePrice.

Lemma price_traced_witness : price_of prices (secs 600) (secs 1658832600) Iot = Ok 7 /\
  exists ts, (ts, 7) ∈ got /\ secs 1658832600 - secs 600 - secs 43200 < ts.
Proof.
  assert (price_of prices (secs 600) (secs 1658832600) Iot = Ok 7) as Hp by (vm_compute; reflexivity). split; [exact Hp|].
  refine (price_traced (token_default := Hnt) (B := sorted_bucket) decode_report report_file Iot tt (secs 43200) second got prices (secs 600) (secs 1658832600) 7
    _ generator_run _ _ Hp).
  - vm_compute. reflexivity.
  - intros r (f & msgs & buf & Hf & Hb & Hd) _. unfold decode_report in Hd. destruct (String.eqb buf "r"); [|discriminate]. by apply last_Some_elem_of.
  - eapply tracked_initial. exact initial_prices.
Defined.

Lemma tracker_latest_witness : exists files,
  list_all price_bucket (file_type_str PriceReportFile) (Some 1658832500000000000) None = Some (Ok files) /\
  prices !! Iot = latest Iot (concat (file_reports (token_default := Hnt) decode_report report_file <$> files)) None.
Proof.
  destruct (tracker_latest decode_report report_file price_bucket ∅ 1658832500000000000 prices 1658832570000000000 one_tick) as (files & Hf & Hl & _).
  exists files. split; [exact Hf|]. exact (Hl Iot).
Defined.
End PriceWitnesses.
