(* ===== verification/Ingest.v ===== *)
(** * The ingest servers

    [ingest/src/server_iot.rs] and [server_mobile.rs]: the services that gateways
    and radios send their reports to.  A request is accepted by its key, network
    and signature and written to a file sink with the time of its arrival.  A
    gateway may also open a stream, answer the nonce it is offered with a signed
    session key, and sign its further reports with that key.

    [helium_crypto] and the messages of the protocol are parameters; so are the
    two clocks, the random nonces and the outcomes of the channels. *)

From S2P Require Import Prelude FileStoreTypes Text IotReports.

Open Scope Z_scope.
Open Scope oracle_scope.

(** ** Keys and signatures *)

(** [PublicKey] of [helium_crypto] with [try_from(&[u8])], its [network], and
    [Verify::verify] of a signature on bytes. *)
Class IngestKeys : Type := {
  PublicKey : Type;
  Network : Type;
  Network_eq_dec :: EqDecision Network;
  pk_try_from : string -> option PublicKey;
  pk_network : PublicKey -> Network;
  pk_verify : PublicKey -> string -> string -> bool
}.

(** A message with a [signature] field, the message with the field emptied, and
    [Message::encode]. *)
Class SignedMsg (M : Type) : Type := {
  msg_signature : M -> string;
  clear_signature : M -> M;
  encode_msg : M -> option string
}.

(** The text of the [tonic::Status] that a request is refused with. *)
Inductive IngestStatus : Type :=
| InvalidPublicKey | InvalidNetwork | SigningKeyMissing | InvalidSignature | IncorrectPubKey | InvalidNonce
| StreamClosed | NoValidAuthToken.

(** How [send_timeout] on the channel of a sink ends. *)
Inductive SendOutcome : Type := Sent | ChannelClosed | SendTimedOut.
Inductive SinkWriteError : Type := ErrChannel | ErrSendTimeout.

(** [FileSinkClient::write]: a sink is the list of the messages its channel took. *)
Definition client_write {T} (out : SendOutcome) (item : T) (sink : list T) : list T * result unit SinkWriteError :=
  match out with
  | Sent => (sink ++ [item], Ok tt)
  | ChannelClosed => (sink, Err ErrChannel)
  | SendTimedOut => (sink, Err ErrSendTimeout)
  end.

Section Verify.
Context {keys : IngestKeys}.

(** [impl_msg_verify] *)
Definition msg_verify {M} `{!SignedMsg M} (m : M) (verifier : PublicKey) : bool :=
  match encode_msg (clear_signature m) with
  | Some buf => pk_verify verifier buf (msg_signature m)
  | None => false
  end.

Definition verify_public_key (bytes : string) : result PublicKey IngestStatus :=
  ok_or (pk_try_from bytes) InvalidPublicKey.

Definition verify_network (required_network : Network) (public_key : PublicKey) : result PublicKey IngestStatus :=
  if decide (required_network = pk_network public_key) then Ok public_key else Err InvalidNetwork.

Definition verify_signature {M} `{!SignedMsg M} (public_key : option PublicKey) (event : M) : result M IngestStatus :=
  let? public_key := ok_or public_key SigningKeyMissing in
  if msg_verify event public_key then Ok event else Err InvalidSignature.

Lemma verify_public_key_ok bytes pk : verify_public_key bytes = Ok pk <-> pk_try_from bytes = Some pk.
Proof. unfold verify_public_key. destruct (pk_try_from bytes); cbn; split; congruence. Qed.

Lemma verify_network_ok net pk pk' : verify_network net pk = Ok pk' <-> pk' = pk /\ pk_network pk = net.
Proof. unfold verify_network. case_decide; split; [intros [= <-]; auto|intros [-> _]; auto|done|intros [_ ?]; congruence]. Qed.

Lemma verify_signature_ok {M} `{!SignedMsg M} key (event event' : M) :
  verify_signature key event = Ok event' <-> event' = event /\ exists pk, key = Some pk /\ msg_verify event pk = true.
Proof.
  unfold verify_signature. destruct key as [pk|]; cbn.
  - destruct (msg_verify event pk) eqn:E; split; [intros [= <-]; eauto|by intros [-> _]|done|].
    intros (_ & pk' & [= <-] & H). congruence.
  - split; [done|]. by intros (_ & pk & ? & _).
Qed.
End Verify.

(** ** The IoT server *)

Section Iot.
Context {keys : IngestKeys} {beacon_signed : SignedMsg LoraBeaconReportReq} {witness_signed : SignedMsg LoraWitnessReportReq}.

Abbreviation Nonce := string (only parsing).

Record LoraStreamSessionInit : Type := mkSessionInit {
  in_pub_key : string;
  in_session_key : string;
  in_nonce : string;
  in_signature : string
}.

Context {init_signed : SignedMsg LoraStreamSessionInit}.

Inductive StreamRequest : Type :=
| BeaconReport (report : LoraBeaconReportReq)
| WitnessReport (report : LoraWitnessReportReq)
| SessionInit (init : LoraStreamSessionInit).

(** The oneof of [LoraStreamRequestV1] may be absent. *)
Definition LoraStreamRequest : Type := option StreamRequest.

Record GrpcServer : Type := mkIotServer {
  gs_required_network : Network;
  gs_session_key_offer_timeout : Z;
  gs_session_key_timeout : Z
}.

(** The two sinks, which every handler and stream shares. *)
Record IotSinks : Type := mkIotSinks {
  beacon_report_sink : list LoraBeaconIngestReport;
  witness_report_sink : list LoraWitnessIngestReport
}.

Record StreamState : Type := mkStream {
  ss_required_network : Network;
  ss_pub_key_bytes : option string;
  ss_session_key : option PublicKey;
  ss_timeout : Z;
  ss_nonce : option Nonce;
  ss_offer_timeout : Z;
  ss_key_timeout : Z
}.

Definition stream_new (server : GrpcServer) (instant : Z) : StreamState :=
  mkStream (gs_required_network server) None None instant None (gs_session_key_offer_timeout server)
    (gs_session_key_timeout server).

(** The new state, and whether the offer went out; the offer holds the nonce. *)
Definition send_offer (s : StreamState) (nonce : Nonce) (instant : Z) (sent : bool) : StreamState * bool :=
  (mkStream (ss_required_network s) (ss_pub_key_bytes s) (ss_session_key s) (instant + ss_offer_timeout s)
     (Some nonce) (ss_offer_timeout s) (ss_key_timeout s), sent).

Definition initialize (s : StreamState) (instant : Z) (init : LoraStreamSessionInit) : result StreamState IngestStatus :=
  if from_option (fun n => String.eqb (in_nonce init) n) false (ss_nonce s) then
    let? session_key := ok_or (pk_try_from (in_session_key init)) InvalidPublicKey in
    Ok (mkStream (ss_required_network s) (Some (in_pub_key init)) (Some session_key) (instant + ss_key_timeout s)
          None (ss_offer_timeout s) (ss_key_timeout s))
  else Err InvalidNonce.

Definition expected_key {M} (key : M -> string) (expected : option string) (report : M) : result M IngestStatus :=
  if from_option (fun bytes => String.eqb bytes (key report)) true expected then Ok report else Err IncorrectPubKey.

Definition handle_beacon_report (sink : list LoraBeaconIngestReport) (out : SendOutcome) (timestamp : Z)
    (report : LoraBeaconReportReq) (signing_key : option PublicKey) (expected_pubkey_bytes : option string)
    : list LoraBeaconIngestReport * result unit IngestStatus :=
  match (let? report := verify_signature signing_key report in
         let? report := expected_key lb_pub_key expected_pubkey_bytes report in
         Ok (mkLoraBeaconIngest timestamp (Some report))) with
  | Ok ingest_report => let '(sink, _) := client_write out ingest_report sink in (sink, Ok tt)
  | Err e => (sink, Err e)
  end.

Definition handle_witness_report (sink : list LoraWitnessIngestReport) (out : SendOutcome) (timestamp : Z)
    (report : LoraWitnessReportReq) (session_key : option PublicKey) (expected_pubkey_bytes : option string)
    : list LoraWitnessIngestReport * result unit IngestStatus :=
  match (let? report := verify_signature session_key report in
         let? report := expected_key lw_pub_key expected_pubkey_bytes report in
         Ok (mkLoraWitnessIngest timestamp (Some report))) with
  | Ok ingest_report => let '(sink, _) := client_write out ingest_report sink in (sink, Ok tt)
  | Err e => (sink, Err e)
  end.

(** [utc] is the wall clock and [instant] the monotonic one. *)
Definition handle_message (s : StreamState) (sinks : IotSinks) (utc instant : Z) (out : SendOutcome)
    (message : LoraStreamRequest) : StreamState * IotSinks * result unit IngestStatus :=
  let timestamp := as_u64 (utc / nanos_per_milli) in
  match message with
  | Some (BeaconReport report) =>
      let '(sink, r) := handle_beacon_report (beacon_report_sink sinks) out timestamp report (ss_session_key s)
                          (ss_pub_key_bytes s) in
      (s, mkIotSinks sink (witness_report_sink sinks), r)
  | Some (WitnessReport report) =>
      let '(sink, r) := handle_witness_report (witness_report_sink sinks) out timestamp report (ss_session_key s)
                          (ss_pub_key_bytes s) in
      (s, mkIotSinks (beacon_report_sink sinks) sink, r)
  | Some (SessionInit init) =>
      match (let? pk := verify_public_key (in_pub_key init) in
             let? pk := verify_network (ss_required_network s) pk in
             let? init := verify_signature (Some pk) init in
             initialize s instant init) with
      | Ok s' => (s', sinks, Ok tt)
      | Err e => (s, sinks, Err e)
      end
  | None => (s, sinks, Err StreamClosed)
  end.

(** What wakes the loop of [run]: the clock, or the next item of the stream.  The
    [select!] takes either branch when both are ready. *)
Inductive Wake : Type :=
| Sleep (instant : Z)
| Next (utc instant : Z) (out : SendOutcome) (message : option (result LoraStreamRequest unit)).

(** One turn of the loop; [None] is a [break]. *)
Definition run_turn (s : StreamState) (sinks : IotSinks) (w : Wake) : option StreamState * IotSinks :=
  match w with
  | Sleep instant => (if ss_timeout s <=? instant then None else Some s, sinks)
  | Next utc instant out (Some (Ok message)) =>
      let '(s', sinks', r) := handle_message s sinks utc instant out message in
      (match r with Ok _ => Some s' | Err _ => None end, sinks')
  | Next _ _ _ (Some (Err _)) => (None, sinks)
  | Next _ _ _ None => (None, sinks)
  end.

Fixpoint run_loop (s : StreamState) (sinks : IotSinks) (ws : list Wake) : option StreamState * IotSinks :=
  match ws with
  | [] => (Some s, sinks)
  | w :: ws =>
      match run_turn s sinks w with
      | (Some s', sinks') => run_loop s' sinks' ws
      | (None, sinks') => (None, sinks')
      end
  end.

(** [stream_requests] spawns [run] on a new state. *)
Definition run (server : GrpcServer) (sinks : IotSinks) (nonce : Nonce) (instant : Z) (sent : bool) (ws : list Wake)
    : option StreamState * IotSinks :=
  let '(s, sent) := send_offer (stream_new server instant) nonce instant sent in
  if sent then run_loop s sinks ws else (None, sinks).

Definition submit_lora_beacon (server : GrpcServer) (sinks : IotSinks) (utc : Z) (out : SendOutcome)
    (event : LoraBeaconReportReq) : IotSinks * result string IngestStatus :=
  let timestamp := as_u64 (utc / nanos_per_milli) in
  match (let? pk := verify_public_key (lb_pub_key event) in verify_network (gs_required_network server) pk) with
  | Err e => (sinks, Err e)
  | Ok pub_key =>
      let '(sink, r) := handle_beacon_report (beacon_report_sink sinks) out timestamp event (Some pub_key) None in
      (mkIotSinks sink (witness_report_sink sinks), let? _ := r in Ok (u64_to_string timestamp))
  end.

Definition submit_lora_witness (server : GrpcServer) (sinks : IotSinks) (utc : Z) (out : SendOutcome)
    (event : LoraWitnessReportReq) : IotSinks * result string IngestStatus :=
  let timestamp := as_u64 (utc / nanos_per_milli) in
  match (let? pk := verify_public_key (lw_pub_key event) in verify_network (gs_required_network server) pk) with
  | Err e => (sinks, Err e)
  | Ok pub_key =>
      let '(sink, r) := handle_witness_report (witness_report_sink sinks) out timestamp event (Some pub_key) None in
      (mkIotSinks (beacon_report_sink sinks) sink, let? _ := r in Ok (u64_to_string timestamp))
  end.

(** *** The server with its requests and streams *)

(** [ig_offers] has the nonce of each stream and [ig_sessions] the init messages
    that streams took, with the index of the stream; the code keeps neither. *)
Record Ingest : Type := mkIngest {
  ig_sinks : IotSinks;
  ig_streams : list (option StreamState);
  ig_offers : list Nonce;
  ig_sessions : list (nat * LoraStreamSessionInit)
}.

Definition opened (i : nat) (w : Wake) (o : option StreamState) : list (nat * LoraStreamSessionInit) :=
  match w, o with
  | Next _ _ _ (Some (Ok (Some (SessionInit init)))), Some _ => [(i, init)]
  | _, _ => []
  end.

Inductive ingest_step (server : GrpcServer) (g : Ingest) : Ingest -> Prop :=
| step_beacon utc out event :
    ingest_step server g
      (mkIngest (submit_lora_beacon server (ig_sinks g) utc out event).1 (ig_streams g) (ig_offers g) (ig_sessions g))
| step_witness utc out event :
    ingest_step server g
      (mkIngest (submit_lora_witness server (ig_sinks g) utc out event).1 (ig_streams g) (ig_offers g) (ig_sessions g))
| step_open nonce instant sent :
    ingest_step server g
      (mkIngest (ig_sinks g) (ig_streams g ++ [(run server (ig_sinks g) nonce instant sent []).1])
         (ig_offers g ++ [nonce]) (ig_sessions g))
| step_wake i s w o sinks' :
    ig_streams g !! i = Some (Some s) ->
    run_turn s (ig_sinks g) w = (o, sinks') ->
    ingest_step server g
      (mkIngest sinks' (<[i := o]> (ig_streams g)) (ig_offers g) (ig_sessions g ++ opened i w o)).

Definition ingest_start : Ingest := mkIngest (mkIotSinks [] []) [] [] [].

(** A session that stream [i] took: the gateway signed it, on the network of the
    server, for the nonce of that stream. *)
Definition session_valid (server : GrpcServer) (g : Ingest) (i : nat) (init : LoraStreamSessionInit) : Prop :=
  (i, init) ∈ ig_sessions g /\ ig_offers g !! i = Some (in_nonce init) /\
  exists pk, pk_try_from (in_pub_key init) = Some pk /\ pk_network pk = gs_required_network server /\
    msg_verify init pk = true.

(** A report with key [key] that the gateway of that key answers for: it signed
    the report, or a session key that signed it. *)
Definition vouched {M} `{!SignedMsg M} (server : GrpcServer) (g : Ingest) (key : M -> string) (report : M) : Prop :=
  (exists pk, pk_try_from (key report) = Some pk /\ pk_network pk = gs_required_network server /\
     msg_verify report pk = true) \/
  (exists i init sk, session_valid server g i init /\ in_pub_key init = key report /\
     pk_try_from (in_session_key init) = Some sk /\ msg_verify report sk = true).

Definition beacon_vouched server g (r : LoraBeaconIngestReport) : Prop :=
  exists report, lbi_report r = Some report /\ vouched server g lb_pub_key report.
Definition witness_vouched server g (r : LoraWitnessIngestReport) : Prop :=
  exists report, lwi_report r = Some report /\ vouched server g lw_pub_key report.

Definition sinks_vouched (server : GrpcServer) (g : Ingest) (sinks : IotSinks) : Prop :=
  Forall (beacon_vouched server g) (beacon_report_sink sinks) /\
  Forall (witness_vouched server g) (witness_report_sink sinks).

(** A stream waits for the answer to its offer, or has the key of its session. *)
Definition stream_valid (server : GrpcServer) (g : Ingest) (i : nat) (s : StreamState) : Prop :=
  ss_required_network s = gs_required_network server /\
  ((ss_session_key s = None /\ ss_nonce s = ig_offers g !! i) \/
   (ss_nonce s = None /\ exists init sk, session_valid server g i init /\ ss_session_key s = Some sk /\
      pk_try_from (in_session_key init) = Some sk /\ ss_pub_key_bytes s = Some (in_pub_key init))).

Record ingest_inv (server : GrpcServer) (g : Ingest) : Prop := {
  inv_sinks : sinks_vouched server g (ig_sinks g);
  inv_streams i s : ig_streams g !! i = Some (Some s) -> stream_valid server g i s;
  inv_sessions i init : (i, init) ∈ ig_sessions g -> session_valid server g i init;
  inv_lengths : length (ig_streams g) = length (ig_offers g);
  inv_once : NoDup (ig_sessions g).*1;
  inv_answered i s : i ∈ (ig_sessions g).*1 -> ig_streams g !! i = Some (Some s) -> ss_nonce s = None
}.

(** *** What the handlers write *)

Lemma client_write_elem {T} out (item x : T) sink :
  x ∈ (client_write out item sink).1 -> x ∈ sink \/ x = item.
Proof. destruct out; cbn; rewrite ?elem_of_app, ?list_elem_of_singleton; auto. Qed.

Lemma expected_key_ok {M} (key : M -> string) expected (r r' : M) :
  expected_key key expected r = Ok r' <-> r' = r /\ (forall bytes, expected = Some bytes -> bytes = key r).
Proof.
  unfold expected_key. destruct expected as [b|]; cbn; [destruct (String.eqb_spec b (key r)) as [E|E]|].
  - split; [intros [= <-]; split; [done|]; by intros ? [= <-]|by intros [-> _]].
  - split; [done|]. intros [_ H]. by destruct E; apply H.
  - split; [intros [= <-]; split; done|by intros [-> _]].
Qed.

(** The shape of both report handlers. *)
Lemma accept_ok {M T} `{!SignedMsg M} (key : M -> string) k expected (r : M) (f : M -> T) x :
  (let? r := verify_signature k r in let? r := expected_key key expected r in Ok (f r)) = Ok x ->
  x = f r /\ (exists pk, k = Some pk /\ msg_verify r pk = true) /\ (forall bytes, expected = Some bytes -> bytes = key r).
Proof.
  destruct (verify_signature k r) as [r1|] eqn:E1; cbn; [|done].
  apply verify_signature_ok in E1 as [-> Hs].
  destruct (expected_key key expected r) as [r2|] eqn:E2; cbn; [|done].
  apply expected_key_ok in E2 as [-> He]. by intros [= <-].
Qed.

Lemma handle_beacon_elem sink out ts report k expected x :
  x ∈ (handle_beacon_report sink out ts report k expected).1 -> x ∈ sink \/
  (lbi_report x = Some report /\ (exists pk, k = Some pk /\ msg_verify report pk = true) /\
   (forall bytes, expected = Some bytes -> bytes = lb_pub_key report)).
Proof.
  unfold handle_beacon_report. destruct (let? _ := _ in _) as [ir|e] eqn:E; [|by left].
  apply accept_ok in E as (-> & Hs & He). intros H.
  assert (x ∈ (client_write out (mkLoraBeaconIngest ts (Some report)) sink).1) as Hx by (destruct (client_write _ _ _); exact H).
  apply client_write_elem in Hx as [?| ->]; [by left|]. by right.
Qed.

Lemma handle_witness_elem sink out ts report k expected x :
  x ∈ (handle_witness_report sink out ts report k expected).1 -> x ∈ sink \/
  (lwi_report x = Some report /\ (exists pk, k = Some pk /\ msg_verify report pk = true) /\
   (forall bytes, expected = Some bytes -> bytes = lw_pub_key report)).
Proof.
  unfold handle_witness_report. destruct (let? _ := _ in _) as [ir|e] eqn:E; [|by left].
  apply accept_ok in E as (-> & Hs & He). intros H.
  assert (x ∈ (client_write out (mkLoraWitnessIngest ts (Some report)) sink).1) as Hx by (destruct (client_write _ _ _); exact H).
  apply client_write_elem in Hx as [?| ->]; [by left|]. by right.
Qed.

Lemma signer_ok server bytes pk :
  (let? pk := verify_public_key bytes in verify_network (gs_required_network server) pk) = Ok pk ->
  pk_try_from bytes = Some pk /\ pk_network pk = gs_required_network server.
Proof.
  destruct (verify_public_key bytes) as [pk'|] eqn:E; cbn; [|done]. apply verify_public_key_ok in E.
  intros [-> Hn]%verify_network_ok. done.
Qed.

Lemma submit_beacon_vouched server g sinks utc out event :
  sinks_vouched server g sinks -> sinks_vouched server g (submit_lora_beacon server sinks utc out event).1.
Proof.
  intros [Hb Hw]. unfold submit_lora_beacon.
  destruct (let? pk := _ in _) as [pk|] eqn:E; [|done]. apply signer_ok in E as [Ek En].
  destruct (handle_beacon_report _ _ _ _ _ _) as [sink r] eqn:Eh. split; cbn; [|done].
  rewrite Forall_forall in *. intros x Hx.
  assert (x ∈ (handle_beacon_report (beacon_report_sink sinks) out (as_u64 (utc / nanos_per_milli)) event (Some pk) None).1)
    as Hx' by (rewrite Eh; done).
  apply handle_beacon_elem in Hx' as [?|(Er & (pk' & [= <-] & Hs) & _)]; [by apply Hb|].
  exists event. split; [done|]. left. eauto.
Qed.

Lemma submit_witness_vouched server g sinks utc out event :
  sinks_vouched server g sinks -> sinks_vouched server g (submit_lora_witness server sinks utc out event).1.
Proof.
  intros [Hb Hw]. unfold submit_lora_witness.
  destruct (let? pk := _ in _) as [pk|] eqn:E; [|done]. apply signer_ok in E as [Ek En].
  destruct (handle_witness_report _ _ _ _ _ _) as [sink r] eqn:Eh. split; cbn; [done|].
  rewrite Forall_forall in *. intros x Hx.
  assert (x ∈ (handle_witness_report (witness_report_sink sinks) out (as_u64 (utc / nanos_per_milli)) event (Some pk) None).1)
    as Hx' by (rewrite Eh; done).
  apply handle_witness_elem in Hx' as [?|(Er & (pk' & [= <-] & Hs) & _)]; [by apply Hw|].
  exists event. split; [done|]. left. eauto.
Qed.

(** *** What a turn of a stream does *)

Lemma initialize_ok s instant init s' :
  initialize s instant init = Ok s' ->
  ss_nonce s = Some (in_nonce init) /\
  exists sk, pk_try_from (in_session_key init) = Some sk /\
    s' = mkStream (ss_required_network s) (Some (in_pub_key init)) (Some sk) (instant + ss_key_timeout s) None
           (ss_offer_timeout s) (ss_key_timeout s).
Proof.
  unfold initialize. destruct (ss_nonce s) as [n|]; cbn; [|done].
  destruct (String.eqb_spec (in_nonce init) n) as [->|]; [|done].
  destruct (pk_try_from (in_session_key init)) as [sk|]; cbn; [|done]. intros [= <-]. eauto.
Qed.

(** A turn keeps the state of the stream, or takes a session. *)
Definition takes (s : StreamState) (init : LoraStreamSessionInit) (s' : StreamState) : Prop :=
  ss_nonce s = Some (in_nonce init) /\
  (exists pk, pk_try_from (in_pub_key init) = Some pk /\ pk_network pk = ss_required_network s /\ msg_verify init pk = true) /\
  exists sk instant, pk_try_from (in_session_key init) = Some sk /\
    s' = mkStream (ss_required_network s) (Some (in_pub_key init)) (Some sk) (instant + ss_key_timeout s) None
           (ss_offer_timeout s) (ss_key_timeout s).

Lemma run_turn_state s sinks w s' sinks' :
  run_turn s sinks w = (Some s', sinks') ->
  (forall i, s' = s /\ opened i w (Some s') = []) \/
  (sinks' = sinks /\ exists init, takes s init s' /\ forall i, opened i w (Some s') = [(i, init)]).
Proof.
  destruct w as [t|utc t out [[[[r|r|init]|]|]|]]; cbn; try done.
  - destruct (_ <=? _); [done|]. intros [= <- _]. by left.
  - destruct (handle_beacon_report _ _ _ _ _ _) as [sink [?|?]]; [|done]. intros [= <- _]. by left.
  - destruct (handle_witness_report _ _ _ _ _ _) as [sink [?|?]]; [|done]. intros [= <- _]. by left.
  - unfold verify_public_key. destruct (pk_try_from (in_pub_key init)) as [pk|] eqn:Ek; cbn; [|done].
    destruct (verify_network _ pk) as [pk'|] eqn:En; cbn; [|done]. apply verify_network_ok in En as [-> Hn].
    unfold verify_signature; cbn. destruct (msg_verify init pk) eqn:Es; cbn; [|done].
    destruct (initialize s t init) as [s1|] eqn:Ei; [|done]. intros [= <- <-].
    apply initialize_ok in Ei as (Hnonce & sk & Hsk & ->).
    right. split; [done|]. exists init. split; [|done]. split; [done|]. split; eauto.
Qed.

Lemma run_turn_vouched server g i s sinks w :
  stream_valid server g i s -> sinks_vouched server g sinks -> sinks_vouched server g (run_turn s sinks w).2.
Proof.
  intros [_ Hs] [Hb Hw].
  assert (forall M (SM : SignedMsg M) (key : M -> string) report,
      (exists pk, ss_session_key s = Some pk /\ msg_verify report pk = true) ->
      (forall bytes, ss_pub_key_bytes s = Some bytes -> bytes = key report) -> vouched server g key report) as Hv.
  { intros M SM key report (pk & Epk & Hpk) Hkey. right.
    destruct Hs as [[Enone _]|(_ & init & sk & Hi & Esk & Htry & Ebytes)]; [congruence|].
    exists i, init, sk. split; [done|]. split; [by apply Hkey|]. split; [done|]. congruence. }
  destruct w as [t|utc t out [[[[r|r|init]|]|]|]]; cbn; try done.
  - destruct (handle_beacon_report _ _ _ _ _ _) as [sink res] eqn:Eh. split; cbn; [|done].
    rewrite Forall_forall in *. intros x Hx.
    pose proof (handle_beacon_elem (beacon_report_sink sinks) out (as_u64 (utc / nanos_per_milli)) r (ss_session_key s)
      (ss_pub_key_bytes s) x) as He. rewrite Eh in He. destruct (He Hx) as [?|(Er & Hk & Hp)]; [by apply Hb|].
    exists r. split; [done|]. by apply Hv.
  - destruct (handle_witness_report _ _ _ _ _ _) as [sink res] eqn:Eh. split; cbn; [done|].
    rewrite Forall_forall in *. intros x Hx.
    pose proof (handle_witness_elem (witness_report_sink sinks) out (as_u64 (utc / nanos_per_milli)) r (ss_session_key s)
      (ss_pub_key_bytes s) x) as He. rewrite Eh in He. destruct (He Hx) as [?|(Er & Hk & Hp)]; [by apply Hw|].
    exists r. split; [done|]. by apply Hv.
  - by destruct (let? pk := _ in _).
Qed.

(** *** The invariant *)

(** Offers and sessions are only added. *)
Definition ingest_le (g g' : Ingest) : Prop :=
  ig_offers g `prefix_of` ig_offers g' /\ ig_sessions g ⊆ ig_sessions g'.

Lemma session_valid_mono server g g' i init :
  ingest_le g g' -> session_valid server g i init -> session_valid server g' i init.
Proof. intros [Hp Hs] (Hi & Ho & Hk). split; [by apply Hs|]. split; [|done]. by eapply prefix_lookup_Some. Qed.

Lemma vouched_mono {M} `{!SignedMsg M} server g g' (key : M -> string) report :
  ingest_le g g' -> vouched server g key report -> vouched server g' key report.
Proof.
  intros Hle [H|(i & init & sk & Hv & H)]; [by left|]. right. exists i, init, sk. split; [|done].
  by eapply session_valid_mono.
Qed.

Lemma sinks_vouched_mono server g g' sinks :
  ingest_le g g' -> sinks_vouched server g sinks -> sinks_vouched server g' sinks.
Proof.
  intros Hle [Hb Hw]. split; eapply Forall_impl; [exact Hb| |exact Hw|]; intros x (r & Er & Hr); exists r;
    eauto using vouched_mono.
Qed.

Lemma stream_valid_mono server g g' i s :
  ingest_le g g' -> (i < length (ig_offers g))%nat -> stream_valid server g i s -> stream_valid server g' i s.
Proof.
  intros Hle Hlt [Hn Hs]. split; [done|]. destruct Hs as [[E1 E2]|(E1 & init & sk & Hv & H)].
  - left. split; [done|]. destruct (lookup_lt_is_Some_2 _ _ Hlt) as [n Hi].
    rewrite E2, Hi. symmetry. by eapply prefix_lookup_Some; [|apply Hle].
  - right. split; [done|]. exists init, sk. split; [|done]. by eapply session_valid_mono.
Qed.

Lemma ingest_inv_submit server g sinks :
  ingest_inv server g -> sinks_vouched server g sinks ->
  ingest_inv server (mkIngest sinks (ig_streams g) (ig_offers g) (ig_sessions g)).
Proof. intros [] Hs. by split. Qed.

Lemma ingest_inv_open server g sinks nonce instant sent :
  ingest_inv server g ->
  ingest_inv server (mkIngest (ig_sinks g) (ig_streams g ++ [(run server sinks nonce instant sent []).1])
                       (ig_offers g ++ [nonce]) (ig_sessions g)).
Proof.
  intros [Hsinks Hstr Hses Hlen Honce Hans]. set (g' := mkIngest _ _ _ _).
  assert (ingest_le g g') as Hle by (split; cbn; [by eexists|done]).
  assert (forall i s, ig_streams g' !! i = Some (Some s) ->
    (ig_streams g !! i = Some (Some s) /\ (i < length (ig_offers g))%nat) \/
    (i = length (ig_offers g) /\ s = (send_offer (stream_new server instant) nonce instant sent).1)) as Hcase.
  { intros i s. cbn. rewrite lookup_app_Some. intros [H|[Hge H]].
    - left. split; [done|]. rewrite <- Hlen. by eapply lookup_lt_Some.
    - right. rewrite list_lookup_singleton_Some in H. destruct H as [Hi Hr]. split; [lia|].
      unfold run in Hr. destruct sent; cbn in Hr; congruence. }
  split.
  - by eapply sinks_vouched_mono.
  - intros i s [[H Hlt]|[-> ->]]%Hcase; [by eapply stream_valid_mono; eauto|].
    split; [done|]. left. split; [done|]. cbn. by rewrite lookup_app_r, Nat.sub_diag by lia.
  - intros i init H. by eapply session_valid_mono, Hses.
  - cbn. rewrite !length_app, Hlen. done.
  - done.
  - intros i s Hi [[H _]|[-> _]]%Hcase; [by eapply Hans|]. cbn in Hi.
    apply list_elem_of_fmap in Hi as ([j init] & Ej & Hin). cbn in Ej. subst j.
    destruct (Hses _ _ Hin) as (_ & Ho & _). apply lookup_lt_Some in Ho. destruct (Nat.lt_irrefl _ Ho).
Qed.

(** The ghost state after a turn that keeps its stream, or takes a session. *)
Lemma ingest_inv_keep server g i o sinks :
  ingest_inv server g -> sinks_vouched server g sinks ->
  (forall s, o = Some s -> ig_streams g !! i = Some (Some s)) ->
  ingest_inv server (mkIngest sinks (<[i := o]> (ig_streams g)) (ig_offers g) (ig_sessions g)).
Proof.
  intros [Hsinks Hstr Hses Hlen Honce Hans] Hs Ho.
  assert (forall j s, <[i := o]> (ig_streams g) !! j = Some (Some s) -> ig_streams g !! j = Some (Some s)) as Hcase.
  { intros j s. rewrite list_lookup_insert_Some. intros [(-> & -> & _)|[_ H]]; [by apply Ho|done]. }
  split; cbn; [done| | | |done|].
  - intros j s H%Hcase. by apply (Hstr j s).
  - intros j init H. by apply (Hses j init).
  - by rewrite length_insert.
  - intros j s Hj H%Hcase. by apply (Hans j s).
Qed.

Lemma ingest_inv_take server g i s init s' :
  ingest_inv server g -> ig_streams g !! i = Some (Some s) -> takes s init s' ->
  ingest_inv server (mkIngest (ig_sinks g) (<[i := Some s']> (ig_streams g)) (ig_offers g) (ig_sessions g ++ [(i, init)])).
Proof.
  intros [Hsinks Hstr Hses Hlen Honce Hans] Hi (Hnonce & (pk & Hpk & Hnet & Hsig) & sk & instant & Hsk & ->).
  set (g' := mkIngest _ _ _ _).
  assert (ingest_le g g') as Hle by (split; cbn; [done|set_solver]).
  destruct (Hstr i s Hi) as [Hreq Hcase].
  assert (ig_offers g !! i = Some (in_nonce init)) as Hoffer.
  { destruct Hcase as [[_ E]|[E _]]; congruence. }
  assert (session_valid server g' i init) as Hnew.
  { split; [cbn; set_solver|]. split; [done|]. exists pk. split; [done|]. split; [congruence|done]. }
  assert (i ∉ (ig_sessions g).*1) as Hfresh by (intros Hin; by rewrite (Hans i s Hin Hi) in Hnonce).
  split; cbn.
  - by eapply sinks_vouched_mono.
  - intros j t. rewrite list_lookup_insert_Some. intros [(<- & [= <-] & _)|[_ H]].
    + split; [done|]. right. split; [done|]. exists init, sk. done.
    + eapply stream_valid_mono; [done| |by apply Hstr]. rewrite <- Hlen. by eapply lookup_lt_Some.
  - intros j init'. rewrite elem_of_app, list_elem_of_singleton. intros [H|[= -> ->]]; [|done].
    by eapply session_valid_mono, Hses.
  - by rewrite length_insert.
  - rewrite fmap_app. apply NoDup_app. split; [done|]. split; [|by apply NoDup_singleton]. set_solver.
  - intros j t. rewrite fmap_app, elem_of_app. cbn. rewrite list_elem_of_singleton, list_lookup_insert_Some.
    intros Hj [(<- & [= <-] & _)|[Hne H]]; [done|]. destruct Hj as [Hj| ->]; [by apply (Hans j t)|done].
Qed.

Lemma ingest_inv_step server g g' : ingest_step server g g' -> ingest_inv server g -> ingest_inv server g'.
Proof.
  intros Hstep Hinv. pose proof (inv_sinks _ _ Hinv) as Hs. destruct Hstep as [| | |i s w o sinks' Hi Hw].
  - by apply ingest_inv_submit, submit_beacon_vouched.
  - by apply ingest_inv_submit, submit_witness_vouched.
  - by apply ingest_inv_open.
  - pose proof (run_turn_vouched server g i s (ig_sinks g) w (inv_streams _ _ Hinv i s Hi) Hs) as Hv.
    rewrite Hw in Hv. cbn in Hv. destruct o as [s'|].
    + destruct (run_turn_state _ _ _ _ _ Hw) as [H|(-> & init & Ht & H)]; [destruct (H i) as [-> ->]|rewrite H].
      * rewrite app_nil_r. apply ingest_inv_keep; [done..|]. by intros ? [= <-].
      * by eapply ingest_inv_take.
    + replace (opened i w None) with (@nil (nat * LoraStreamSessionInit)) by (by destruct w as [|? ? ? [[[[]|]|]|]]).
      rewrite app_nil_r. by apply ingest_inv_keep.
Qed.

Lemma ingest_inv_start server : ingest_inv server ingest_start.
Proof. split; cbn; [by split|by intros i s|by intros ? ? ?%not_elem_of_nil|done|constructor|by intros ? ? ?%not_elem_of_nil]. Qed.

(** C18: in any interleaving of requests and streams, every beacon and witness
    report in the sinks of the IoT ingest server was signed by the gateway it names,
    whose key is on the network of the server, or by a session key that this
    gateway delegated in a signed message which answered the nonce of a stream of
    this server; and no stream takes a second session. *)
Theorem ingest_authentic server g :
  rtc (ingest_step server) ingest_start g ->
  sinks_vouched server g (ig_sinks g) /\ NoDup (ig_sessions g).*1.
Proof.
  intros H. assert (ingest_inv server g) as Hinv.
  { pose proof (ingest_inv_start server) as H0. induction H as [|x y z Hxy _ IH]; [done|]. by eapply IH, ingest_inv_step. }
  split; apply Hinv.
Qed.

(** *** A whole session *)

(** The turns that a stream with session key [sk] for gateway [key] survives. *)
Definition good_wake (sk : PublicKey) (key : string) (deadline : Z) (w : Wake) : bool :=
  match w with
  | Sleep instant => instant <? deadline
  | Next _ _ _ (Some (Ok (Some (BeaconReport r)))) => msg_verify r sk && String.eqb key (lb_pub_key r)
  | Next _ _ _ (Some (Ok (Some (WitnessReport r)))) => msg_verify r sk && String.eqb key (lw_pub_key r)
  | _ => false
  end.

Fixpoint good_prefix (good : Wake -> bool) (ws : list Wake) : list Wake :=
  match ws with
  | [] => []
  | w :: ws => if good w then w :: good_prefix good ws else []
  end.

(** The report a turn brings, as the sinks get it. *)
Definition beacon_of (w : Wake) : option LoraBeaconIngestReport :=
  match w with
  | Next utc _ Sent (Some (Ok (Some (BeaconReport r)))) => Some (mkLoraBeaconIngest (as_u64 (utc / nanos_per_milli)) (Some r))
  | _ => None
  end.
Definition witness_of (w : Wake) : option LoraWitnessIngestReport :=
  match w with
  | Next utc _ Sent (Some (Ok (Some (WitnessReport r)))) => Some (mkLoraWitnessIngest (as_u64 (utc / nanos_per_milli)) (Some r))
  | _ => None
  end.

Definition sinks_after (sinks : IotSinks) (ws : list Wake) : IotSinks :=
  mkIotSinks (beacon_report_sink sinks ++ omap beacon_of ws) (witness_report_sink sinks ++ omap witness_of ws).

Lemma sinks_after_cons sinks w ws : sinks_after (sinks_after sinks [w]) ws = sinks_after sinks (w :: ws).
Proof. unfold sinks_after. cbn. rewrite <- !app_assoc. by destruct (beacon_of w), (witness_of w). Qed.

Lemma session_turn s sinks sk key w :
  ss_session_key s = Some sk -> ss_pub_key_bytes s = Some key -> ss_nonce s = None ->
  run_turn s sinks w =
  if good_wake sk key (ss_timeout s) w then (Some s, sinks_after sinks [w]) else (None, sinks).
Proof.
  intros Hsk Hkey Hn. destruct sinks as [bs wts]. unfold sinks_after.
  destruct w as [t|utc t out [[[[r|r|init]|]|]|]]; cbn; rewrite ?app_nil_r; try done.
  - rewrite Z.ltb_antisym. by destruct (_ <=? _).
  - unfold handle_beacon_report, verify_signature, expected_key. rewrite Hsk, Hkey. cbn.
    destruct (msg_verify r sk); cbn; [|done].
    by destruct (String.eqb key (lb_pub_key r)), out; cbn; rewrite ?app_nil_r.
  - unfold handle_witness_report, verify_signature, expected_key. rewrite Hsk, Hkey. cbn.
    destruct (msg_verify r sk); cbn; [|done].
    by destruct (String.eqb key (lw_pub_key r)), out; cbn; rewrite ?app_nil_r.
  - unfold initialize. rewrite Hn. cbn.
    destruct (verify_public_key _) as [pk|]; cbn; [|done]. destruct (verify_network _ _) as [pk'|]; cbn; [|done].
    by destruct (msg_verify init pk').
Qed.

Lemma session_loop s sk key ws : forall sinks,
  ss_session_key s = Some sk -> ss_pub_key_bytes s = Some key -> ss_nonce s = None ->
  run_loop s sinks ws =
  (if forallb (good_wake sk key (ss_timeout s)) ws then Some s else None,
   sinks_after sinks (good_prefix (good_wake sk key (ss_timeout s)) ws)).
Proof.
  induction ws as [|w ws IH]; intros sinks Hsk Hkey Hn; cbn.
  - unfold sinks_after. cbn. rewrite !app_nil_r. by destruct sinks.
  - rewrite (session_turn s sinks sk key w) by done. destruct (good_wake sk key (ss_timeout s) w); cbn.
    + rewrite IH by done. by rewrite sinks_after_cons.
    + unfold sinks_after. cbn. rewrite !app_nil_r. by destruct sinks.
Qed.

(** a stream whose first message is the gateway's signed answer to the offered
    nonce then writes the reports that the session key signed for that gateway, each
    once and in order of arrival with the time of arrival, up to the first message
    that is not such a report or the deadline of the session; the stream ends there
    and what follows is not written.  Reports whose sink refused them are lost
    without ending the stream. *)
Theorem stream_session_exact server sinks nonce t0 utc t1 out init pk sk ws :
  pk_try_from (in_pub_key init) = Some pk -> pk_network pk = gs_required_network server ->
  msg_verify init pk = true -> in_nonce init = nonce -> pk_try_from (in_session_key init) = Some sk ->
  let good := good_wake sk (in_pub_key init) (t1 + gs_session_key_timeout server) in
  let '(s, sinks') := run server sinks nonce t0 true (Next utc t1 out (Some (Ok (Some (SessionInit init)))) :: ws) in
  sinks' = sinks_after sinks (good_prefix good ws) /\ (is_Some s <-> forallb good ws = true).
Proof.
  intros Hpk Hnet Hsig <- Hsk good. unfold run. cbn.
  rewrite (proj2 (verify_public_key_ok _ _) Hpk). cbn.
  rewrite (proj2 (verify_network_ok _ _ _) (conj eq_refl Hnet)). cbn. rewrite Hsig. cbn.
  unfold initialize. cbn. rewrite String.eqb_refl, Hsk. cbn.
  rewrite (session_loop _ sk (in_pub_key init)) by done. cbn. fold good. split; [done|].
  destruct (forallb good ws); split; [done|by eauto|by intros [? ?]|done].
Qed.
End Iot.

(** ** The mobile server *)

(** A request of the mobile service, and the key it is checked against:
    [carrier_pub_key] for a subscriber location, [pub_key] for the others. *)
Class MobileMsg (M : Type) : Type := {
  mm_key : M -> string;
  mm_signed :: SignedMsg M
}.

(** [SpeedtestIngestReportV1] and the other ingest reports, which have the same
    two fields. *)
Record IngestReport (M : Type) : Type := mkIngestReport {
  ir_received_timestamp : Z;
  ir_report : option M
}.
Arguments mkIngestReport {M}. Arguments ir_received_timestamp {M}. Arguments ir_report {M}.

Section Mobile.
Context {keys : IngestKeys}.
Context {SpeedtestReqV1 CellHeartbeatReqV1 WifiHeartbeatReqV1 DataTransferSessionReqV1 SubscriberLocationReqV1
  CoverageObjectReqV1 : Type}.
Context `{!MobileMsg SpeedtestReqV1, !MobileMsg CellHeartbeatReqV1, !MobileMsg WifiHeartbeatReqV1,
  !MobileMsg DataTransferSessionReqV1, !MobileMsg SubscriberLocationReqV1, !MobileMsg CoverageObjectReqV1}.

Record MobileServer : Type := mkMobileServer {
  ms_required_network : Network;
  ms_api_token : string
}.

Record MobileSinks : Type := mkMobileSinks {
  speedtest_report_sink : list (IngestReport SpeedtestReqV1);
  heartbeat_report_sink : list (IngestReport CellHeartbeatReqV1);
  wifi_heartbeat_report_sink : list (IngestReport WifiHeartbeatReqV1);
  data_transfer_session_sink : list (IngestReport DataTransferSessionReqV1);
  subscriber_location_report_sink : list (IngestReport SubscriberLocationReqV1);
  coverage_object_report_sink : list (IngestReport CoverageObjectReqV1)
}.

Definition mobile_verify_signature {M} `{!SignedMsg M} (public_key : PublicKey) (event : M)
    : result (PublicKey * M) IngestStatus :=
  if msg_verify event public_key then Ok (public_key, event) else Err InvalidSignature.

(** What the six handlers do with a request and their sink. *)
Definition submit {M} `{!MobileMsg M} (server : MobileServer) (utc : Z) (out : SendOutcome) (event : M)
    (sink : list (IngestReport M)) : list (IngestReport M) * result string IngestStatus :=
  let timestamp := as_u64 (utc / nanos_per_milli) in
  match (let? public_key := verify_public_key (mm_key event) in
         let? public_key := verify_network (ms_required_network server) public_key in
         let? verified := mobile_verify_signature public_key event in
         Ok (mkIngestReport timestamp (Some verified.2))) with
  | Err e => (sink, Err e)
  | Ok report => let '(sink, _) := client_write out report sink in (sink, Ok (u64_to_string timestamp))
  end.

Definition submit_speedtest server sinks utc out (event : SpeedtestReqV1) : MobileSinks * result string IngestStatus :=
  let '(sink, r) := submit server utc out event (speedtest_report_sink sinks) in
  (mkMobileSinks sink (heartbeat_report_sink sinks) (wifi_heartbeat_report_sink sinks) (data_transfer_session_sink sinks)
     (subscriber_location_report_sink sinks) (coverage_object_report_sink sinks), r).

Definition submit_cell_heartbeat server sinks utc out (event : CellHeartbeatReqV1) : MobileSinks * result string IngestStatus :=
  let '(sink, r) := submit server utc out event (heartbeat_report_sink sinks) in
  (mkMobileSinks (speedtest_report_sink sinks) sink (wifi_heartbeat_report_sink sinks) (data_transfer_session_sink sinks)
     (subscriber_location_report_sink sinks) (coverage_object_report_sink sinks), r).

Definition submit_wifi_heartbeat server sinks utc out (event : WifiHeartbeatReqV1) : MobileSinks * result string IngestStatus :=
  let '(sink, r) := submit server utc out event (wifi_heartbeat_report_sink sinks) in
  (mkMobileSinks (speedtest_report_sink sinks) (heartbeat_report_sink sinks) sink (data_transfer_session_sink sinks)
     (subscriber_location_report_sink sinks) (coverage_object_report_sink sinks), r).

Definition submit_data_transfer_session server sinks utc out (event : DataTransferSessionReqV1)
    : MobileSinks * result string IngestStatus :=
  let '(sink, r) := submit server utc out event (data_transfer_session_sink sinks) in
  (mkMobileSinks (speedtest_report_sink sinks) (heartbeat_report_sink sinks) (wifi_heartbeat_report_sink sinks) sink
     (subscriber_location_report_sink sinks) (coverage_object_report_sink sinks), r).

Definition submit_subscriber_location server sinks utc out (event : SubscriberLocationReqV1)
    : MobileSinks * result string IngestStatus :=
  let '(sink, r) := submit server utc out event (subscriber_location_report_sink sinks) in
  (mkMobileSinks (speedtest_report_sink sinks) (heartbeat_report_sink sinks) (wifi_heartbeat_report_sink sinks)
     (data_transfer_session_sink sinks) sink (coverage_object_report_sink sinks), r).

Definition submit_coverage_object server sinks utc out (event : CoverageObjectReqV1) : MobileSinks * result string IngestStatus :=
  let '(sink, r) := submit server utc out event (coverage_object_report_sink sinks) in
  (mkMobileSinks (speedtest_report_sink sinks) (heartbeat_report_sink sinks) (wifi_heartbeat_report_sink sinks)
     (data_transfer_session_sink sinks) (subscriber_location_report_sink sinks) sink, r).

Inductive MobileRequest : Type :=
| ReqSpeedtest (event : SpeedtestReqV1)
| ReqCellHeartbeat (event : CellHeartbeatReqV1)
| ReqWifiHeartbeat (event : WifiHeartbeatReqV1)
| ReqDataTransferSession (event : DataTransferSessionReqV1)
| ReqSubscriberLocation (event : SubscriberLocationReqV1)
| ReqCoverageObject (event : CoverageObjectReqV1).

(** A call, with the [authorization] metadata of its request. *)
Record Call : Type := mkCall {
  ca_authorization : option string;
  ca_utc : Z;
  ca_out : SendOutcome;
  ca_request : MobileRequest
}.

(** The interceptor of [start_task], then the handler. *)
Definition interceptor (server : MobileServer) (authorization : option string) : result unit IngestStatus :=
  match authorization with
  | Some t => if String.eqb (ms_api_token server) t then Ok tt else Err NoValidAuthToken
  | None => Err NoValidAuthToken
  end.

Definition serve (server : MobileServer) (sinks : MobileSinks) (c : Call) : MobileSinks * result string IngestStatus :=
  match interceptor server (ca_authorization c) with
  | Err e => (sinks, Err e)
  | Ok _ =>
      match ca_request c with
      | ReqSpeedtest e => submit_speedtest server sinks (ca_utc c) (ca_out c) e
      | ReqCellHeartbeat e => submit_cell_heartbeat server sinks (ca_utc c) (ca_out c) e
      | ReqWifiHeartbeat e => submit_wifi_heartbeat server sinks (ca_utc c) (ca_out c) e
      | ReqDataTransferSession e => submit_data_transfer_session server sinks (ca_utc c) (ca_out c) e
      | ReqSubscriberLocation e => submit_subscriber_location server sinks (ca_utc c) (ca_out c) e
      | ReqCoverageObject e => submit_coverage_object server sinks (ca_utc c) (ca_out c) e
      end
  end.

Fixpoint serve_all (server : MobileServer) (sinks : MobileSinks) (calls : list Call)
    : MobileSinks * list (result string IngestStatus) :=
  match calls with
  | [] => (sinks, [])
  | c :: calls =>
      let '(sinks, r) := serve server sinks c in
      let '(sinks, rs) := serve_all server sinks calls in
      (sinks, r :: rs)
  end.

(** *** Which requests are kept *)

(** A caller with the token of the server, a key on its network, and the signature
    of that key. *)
Definition entitled {M} `{!MobileMsg M} (server : MobileServer) (c : Call) (event : M) : bool :=
  bool_decide (ca_authorization c = Some (ms_api_token server)) &&
  match pk_try_from (mm_key event) with
  | Some pk => bool_decide (pk_network pk = ms_required_network server) && msg_verify event pk
  | None => false
  end.

Definition entitled_call (server : MobileServer) (c : Call) : bool :=
  match ca_request c with
  | ReqSpeedtest e => entitled server c e
  | ReqCellHeartbeat e => entitled server c e
  | ReqWifiHeartbeat e => entitled server c e
  | ReqDataTransferSession e => entitled server c e
  | ReqSubscriberLocation e => entitled server c e
  | ReqCoverageObject e => entitled server c e
  end.

(** The reports of the requests of one kind, with the time of arrival. *)
Definition kept {M} `{!MobileMsg M} (server : MobileServer) (sel : MobileRequest -> option M) (c : Call)
    : option (IngestReport M) :=
  event ← sel (ca_request c);
  match ca_out c with
  | Sent => if entitled server c event then Some (mkIngestReport (as_u64 (ca_utc c / nanos_per_milli)) (Some event)) else None
  | _ => None
  end.

Definition sel_speedtest r := match r with ReqSpeedtest e => Some e | _ => None end.
Definition sel_cell r := match r with ReqCellHeartbeat e => Some e | _ => None end.
Definition sel_wifi r := match r with ReqWifiHeartbeat e => Some e | _ => None end.
Definition sel_session r := match r with ReqDataTransferSession e => Some e | _ => None end.
Definition sel_location r := match r with ReqSubscriberLocation e => Some e | _ => None end.
Definition sel_coverage r := match r with ReqCoverageObject e => Some e | _ => None end.

Definition mobile_sinks_after (server : MobileServer) (sinks : MobileSinks) (calls : list Call) : MobileSinks :=
  mkMobileSinks (speedtest_report_sink sinks ++ omap (kept server sel_speedtest) calls)
    (heartbeat_report_sink sinks ++ omap (kept server sel_cell) calls)
    (wifi_heartbeat_report_sink sinks ++ omap (kept server sel_wifi) calls)
    (data_transfer_session_sink sinks ++ omap (kept server sel_session) calls)
    (subscriber_location_report_sink sinks ++ omap (kept server sel_location) calls)
    (coverage_object_report_sink sinks ++ omap (kept server sel_coverage) calls).

(** The answer to a call: its time as the id where the caller is entitled, and a
    refusal otherwise. *)
Definition answered (b : bool) (utc : Z) (r : result string IngestStatus) : Prop :=
  match r with
  | Ok id => b = true /\ id = u64_to_string (as_u64 (utc / nanos_per_milli))
  | Err _ => b = false
  end.

Lemma interceptor_ok server a : interceptor server a = Ok tt <-> a = Some (ms_api_token server).
Proof.
  unfold interceptor. destruct a as [t|]; [|done]. destruct (String.eqb_spec (ms_api_token server) t) as [->|H]; [done|].
  split; [done|]. intros [= ->]. done.
Qed.

Lemma submit_spec {M} `{!MobileMsg M} server c (event : M) sink :
  ca_authorization c = Some (ms_api_token server) ->
  let res := submit server (ca_utc c) (ca_out c) event sink in
  answered (entitled server c event) (ca_utc c) res.2 /\
  forall sel, sel (ca_request c) = Some event -> res.1 = sink ++ omap (kept server sel) [c].
Proof.
  intros Ha. unfold submit, entitled, verify_public_key. rewrite bool_decide_eq_true_2 by done.
  assert (forall sel, sel (ca_request c) = Some event -> entitled server c event = false ->
    sink = sink ++ omap (kept server sel) [c]) as Hno.
  { intros sel Hsel He. cbn. unfold kept. rewrite Hsel. cbn. rewrite He. by destruct (ca_out c); rewrite app_nil_r. }
  unfold entitled in Hno. rewrite bool_decide_eq_true_2 in Hno by done.
  destruct (pk_try_from (mm_key event)) as [pk|] eqn:Ek; cbn [ok_or result_bind andb] in Hno |- *; [|split; [done|intros sel Hsel; by apply Hno]].
  unfold verify_network. destruct (decide (ms_required_network server = pk_network pk)) as [Hn|Hn]; cbn [result_bind].
  2: { rewrite (bool_decide_eq_false_2 (pk_network pk = _)) in Hno |- * by congruence.
    cbn [andb fst snd] in Hno |- *. split; [done|intros sel Hsel; by apply Hno]. }
  rewrite (bool_decide_eq_true_2 (pk_network pk = _)) in Hno |- * by congruence.
  unfold mobile_verify_signature. destruct (msg_verify event pk) eqn:Es; cbn [andb result_bind fst snd] in Hno |- *; [|split; [done|intros sel Hsel; by apply Hno]].
  destruct (client_write _ _ sink) as [sink' w] eqn:Ew. cbn [fst snd]. split; [done|].
  intros sel Hsel. cbn [omap list_omap]. unfold kept, entitled. rewrite Hsel. cbn [mbind option_bind]. rewrite Ek, !bool_decide_eq_true_2, Es by congruence.
  revert Ew. destruct (ca_out c); cbn; intros [= <- _]; by rewrite ?app_nil_r.
Qed.

Lemma kept_refused {M} `{!MobileMsg M} server sel c :
  ca_authorization c <> Some (ms_api_token server) -> kept (M := M) server sel c = None.
Proof.
  intros Ha. unfold kept, entitled. rewrite bool_decide_eq_false_2 by done.
  destruct (sel (ca_request c)); [|done]. cbn. by destruct (ca_out c).
Qed.

Lemma mobile_sinks_nil server sinks : mobile_sinks_after server sinks [] = sinks.
Proof. destruct sinks. unfold mobile_sinks_after. cbn. by rewrite !app_nil_r. Qed.

Lemma mobile_sinks_cons server sinks c calls :
  mobile_sinks_after server (mobile_sinks_after server sinks [c]) calls = mobile_sinks_after server sinks (c :: calls).
Proof.
  unfold mobile_sinks_after. cbn. rewrite <- !app_assoc.
  by destruct (kept server sel_speedtest c), (kept server sel_cell c), (kept server sel_wifi c),
    (kept server sel_session c), (kept server sel_location c), (kept server sel_coverage c).
Qed.

Lemma kept_other {M} `{!MobileMsg M} server sel c :
  sel (ca_request c) = None -> omap (kept (M := M) server sel) [c] = [].
Proof. intros H. cbn. unfold kept. by rewrite H. Qed.

(** The case of [serve_spec] for the request that [sel] selects. *)
Ltac serve_request c Ha Er sel :=
  match goal with
  | |- context [submit ?server ?utc ?out ?e ?sink] =>
      let Hr := fresh in let Hs := fresh in
      destruct (submit_spec server c e sink Ha) as [Hr Hs];
      specialize (Hs sel ltac:(by rewrite Er));
      destruct (submit server utc out e sink) as [sink' r]; cbn [fst snd] in Hr, Hs |- *; subst sink';
      split; [unfold mobile_sinks_after; f_equal; first [done|by rewrite kept_other, app_nil_r by (by rewrite Er)]
             |unfold entitled_call; by rewrite Er]
  end.

Lemma serve_spec server sinks c :
  let res := serve server sinks c in
  res.1 = mobile_sinks_after server sinks [c] /\ answered (entitled_call server c) (ca_utc c) res.2.
Proof.
  unfold serve. destruct (interceptor server (ca_authorization c)) as [[]|e] eqn:Ei; cbn [fst snd].
  - apply interceptor_ok in Ei.
    destruct (ca_request c) as [e|e|e|e|e|e] eqn:Er.
    + unfold submit_speedtest. serve_request c Ei Er sel_speedtest.
    + unfold submit_cell_heartbeat. serve_request c Ei Er sel_cell.
    + unfold submit_wifi_heartbeat. serve_request c Ei Er sel_wifi.
    + unfold submit_data_transfer_session. serve_request c Ei Er sel_session.
    + unfold submit_subscriber_location. serve_request c Ei Er sel_location.
    + unfold submit_coverage_object. serve_request c Ei Er sel_coverage.
  - assert (ca_authorization c <> Some (ms_api_token server)) as Ha.
    { intros H%interceptor_ok. congruence. }
    split.
    + unfold mobile_sinks_after. cbn. rewrite !kept_refused by done. rewrite !app_nil_r. by destruct sinks.
    + unfold entitled_call, entitled. rewrite bool_decide_eq_false_2 by done. by destruct (ca_request c).
Qed.

End Mobile.

(** ** A session *)

Module ExampleIngest.
(** Keys are their bytes, those that begin with t are on the other network, and a
    key signs with its own name before the bytes. *)
#[global] Program Instance named_keys : IngestKeys := {
  PublicKey := string;
  Network := bool;
  pk_try_from s := if String.eqb s "" then None else Some s;
  pk_network s := negb (String.prefix "t" s);
  pk_verify k buf sig := String.eqb sig (k +:+ buf)
}.

#[global] Instance beacon_signed : SignedMsg LoraBeaconReportReq := {
  msg_signature := lb_signature;
  clear_signature m := mkLoraBeacon (lb_pub_key m) (lb_local_entropy m) (lb_remote_entropy m) (lb_data m) (lb_frequency m)
    (lb_channel m) (lb_datarate m) (lb_tx_power m) (lb_timestamp m) "" (lb_tmst m);
  encode_msg m := Some (lb_data m)
}.
#[global] Instance witness_signed : SignedMsg LoraWitnessReportReq := {
  msg_signature := lw_signature;
  clear_signature m := mkLoraWitness (lw_pub_key m) (lw_data m) (lw_timestamp m) (lw_tmst m) (lw_signal m) (lw_snr m)
    (lw_frequency m) (lw_datarate m) "";
  encode_msg m := Some (lw_data m)
}.
#[global] Instance init_signed : SignedMsg LoraStreamSessionInit := {
  msg_signature := in_signature;
  clear_signature m := mkSessionInit (in_pub_key m) (in_session_key m) (in_nonce m) "";
  encode_msg m := Some (in_session_key m +:+ in_nonce m)
}.

Definition server : GrpcServer := mkIotServer true 5 1800.
Definition delegation : LoraStreamSessionInit := mkSessionInit "gw" "key" "n1" "gwkeyn1".
Definition beacon (sig : string) : LoraBeaconReportReq := mkLoraBeacon "gw" "" "" "data" 0 0 0 0 0 sig 0.
Definition wake_init : Wake := Next 3000000 2 Sent (Some (Ok (Some (SessionInit delegation)))).
Definition wake_beacon (sig : string) : Wake := Next 7000000 6 Sent (Some (Ok (Some (BeaconReport (beacon sig))))).

Definition waiting : StreamState := mkStream true None None 6 (Some "n1"%string) 5 1800.
Definition session : StreamState := mkStream true (Some "gw"%string) (Some "key"%string : option PublicKey) 1802 None 5 1800.
Definition stored : IotSinks := mkIotSinks [mkLoraBeaconIngest 7 (Some (beacon "keydata"))] [].

Definition g1 : Ingest := mkIngest (mkIotSinks [] []) [Some waiting] ["n1"%string] [].
Definition g2 : Ingest := mkIngest (mkIotSinks [] []) [Some session] ["n1"%string] [(0%nat, delegation)].
Definition g3 : Ingest := mkIngest stored [Some session] ["n1"%string] [(0%nat, delegation)].

Lemma g3_reachable : rtc (ingest_step server) ingest_start g3.
Proof.
  apply (rtc_l _ _ g1); [exact (step_open server ingest_start "n1" 1 true)|].
  apply (rtc_l _ _ g2); [exact (step_wake server g1 0 waiting wake_init (Some session) _ eq_refl eq_refl)|].
  apply rtc_once. exact (step_wake server g2 0 session (wake_beacon "keydata") (Some session) stored eq_refl eq_refl).
Qed.
End ExampleIngest.

(** A beacon that the key of a session signed. *)
Lemma ingest_authentic_witness :
  sinks_vouched ExampleIngest.server ExampleIngest.g3 (ig_sinks ExampleIngest.g3) /\ NoDup (ig_sessions ExampleIngest.g3).*1.
Proof. exact (ingest_authentic ExampleIngest.server ExampleIngest.g3 ExampleIngest.g3_reachable). Defined.

(** The third message has a wrong signature and ends the stream. *)
Lemma stream_session_exact_witness :
  let ws := [ExampleIngest.wake_beacon "keydata"; ExampleIngest.wake_beacon "gwdata"; ExampleIngest.wake_beacon "keydata"] in
  let '(s, sinks') := run ExampleIngest.server (mkIotSinks [] []) "n1" 1 true (ExampleIngest.wake_init :: ws) in
  sinks' = sinks_after (mkIotSinks [] []) (good_prefix (good_wake "key"%string "gw" 1802) ws) /\
  (is_Some s <-> forallb (good_wake "key"%string "gw" 1802) ws = true).
Proof.
  exact (stream_session_exact ExampleIngest.server (mkIotSinks [] []) "n1" 1 3000000 2 Sent ExampleIngest.delegation "gw"%string
    "key"%string [ExampleIngest.wake_beacon "keydata"; ExampleIngest.wake_beacon "gwdata"; ExampleIngest.wake_beacon "keydata"]
    eq_refl eq_refl eq_refl eq_refl eq_refl).
Defined.
