(* ===== verification/TaskManager.v ===== *)
(** * The task manager

    [task_manager/src/lib.rs] and [select_all.rs], which every service of the
    workspace runs its tasks with: the tasks are polled together until all have
    finished, one has failed, or a signal arrives; then the remaining ones are told
    to stop and waited for, last started first.

    A task is a parameter: a state, and what polling it gives.  What happens around
    the manager, including what makes a task progress, is the sequence of wakes. *)

From S2P Require Import Prelude.

Open Scope oracle_scope.

(** [Future::poll] of a task, given what the world is like at the poll and whether
    its listener was triggered. *)
Inductive Poll (F E : Type) : Type := Pending (f : F) | Ready (r : result unit E).
Arguments Pending {F E}. Arguments Ready {F E}.

Section TaskManager.
Context {F W err : Type} (poll : W -> bool -> F -> Poll F err).

(** [StopableLocalFuture]: the trigger is named by the position of its task. *)
Record StopableLocalFuture : Type := mkFuture {
  sf_trigger : nat;
  sf_future : F
}.

(** What the manager does, in order. *)
Inductive Event : Type := Finished (i : nat) (r : result unit err) | Triggered (i : nat).

(** [create_triggers] and [start_futures]: task [i] gets trigger [i]. *)
Definition create_triggers (n : nat) : list nat := seq 0 n.
Definition start_futures (triggers : list nat) (tasks : list F) : list StopableLocalFuture :=
  zip_with mkFuture triggers tasks.

(** [SelectAll::poll]: the futures are polled in order up to the first that is
    ready, which is removed; [None] is pending.  Those polled keep their progress. *)
Fixpoint select_poll (w : W) (inner : list StopableLocalFuture)
    : list StopableLocalFuture * option (nat * result unit err) :=
  match inner with
  | [] => ([], None)
  | f :: rest =>
      match poll w false (sf_future f) with
      | Ready r => (rest, Some (sf_trigger f, r))
      | Pending g => let '(rest', o) := select_poll w rest in (mkFuture (sf_trigger f) g :: rest', o)
      end
  end.

(** Awaiting a future whose trigger was pulled: polls until it is ready, with the
    wakes that are left; [None] when they run out. *)
Fixpoint await (ws : list W) (f : F) : option (result unit err * list W) :=
  match ws with
  | [] => None
  | w :: ws =>
      match poll w true f with
      | Ready r => Some (r, ws)
      | Pending g => await ws g
      end
  end.

(** The stream of [stop_all], which pulls a trigger when the task before has ended. *)
Fixpoint stop_each (ws : list W) (futures : list StopableLocalFuture) : list Event * option (list (result unit err)) :=
  match futures with
  | [] => ([], Some [])
  | f :: rest =>
      match await ws (sf_future f) with
      | None => ([Triggered (sf_trigger f)], None)
      | Some (r, ws) =>
          let '(evs, rs) := stop_each ws rest in
          (Triggered (sf_trigger f) :: Finished (sf_trigger f) r :: evs, (cons r) <$> rs)
      end
  end.

(** [collect] of results: the first error. *)
Fixpoint collect_results (rs : list (result unit err)) : result unit err :=
  match rs with
  | [] => Ok tt
  | r :: rs => let? _ := r in collect_results rs
  end.

Definition stop_all (ws : list W) (futures : list StopableLocalFuture) : list Event * option (result unit err) :=
  let '(evs, rs) := stop_each ws (rev futures) in (evs, collect_results <$> rs).

(** A wake of the loop of [start]: a signal or the select; [tokio::select!] takes
    either branch when both are ready. *)
Inductive Wake : Type := Signal | Select (w : W).

(** The loop; [None] when the wakes run out before it returns.  After the loop
    only the futures that are stopped are polled, with the wakes of [ws]. *)
Fixpoint run_tasks (ws : list W) (wakes : list Wake) (futures : list StopableLocalFuture)
    : list Event * option (result unit err) :=
  match futures with
  | [] => ([], Some (Ok tt))
  | _ =>
      match wakes with
      | [] => ([], None)
      | Signal :: _ => stop_all ws futures
      | Select w :: wakes =>
          match select_poll w futures with
          | (rest, None) => run_tasks ws wakes rest
          | (rest, Some (i, Ok u)) =>
              let '(evs, res) := run_tasks ws wakes rest in (Finished i (Ok u) :: evs, res)
          | (rest, Some (i, Err e)) =>
              let '(evs, res) := stop_all ws rest in
              (Finished i (Err e) :: evs, (fun _ => Err e) <$> res)
          end
      end
  end.

(** [TaskManager::start] *)
Definition start (ws : list W) (wakes : list Wake) (tasks : list F) : list Event * option (result unit err) :=
  run_tasks ws wakes (start_futures (create_triggers (length tasks)) tasks).

(** ** What a run looks like *)

Abbreviation ids := (fmap sf_trigger).

Definition stops (l : list (nat * result unit err)) : list Event :=
  concat ((fun p => [Triggered p.1; Finished p.1 p.2]) <$> l).

Lemma select_poll_ids w inner rest o : select_poll w inner = (rest, o) ->
  match o with
  | None => ids rest = ids inner
  | Some (i, _) => exists l1 l2, ids inner = l1 ++ i :: l2 /\ ids rest = l1 ++ l2
  end.
Proof.
  revert rest o. induction inner as [|f inner IH]; intros rest o; cbn; [by intros [= <- <-]|].
  destruct (poll w false (sf_future f)) as [g|r].
  - destruct (select_poll w inner) as [rest' o'] eqn:E. intros [= <- <-]. specialize (IH _ _ eq_refl).
    destruct o' as [[i r]|]; cbn; [|by rewrite IH]. destruct IH as (l1 & l2 & E1 & E2).
    exists (sf_trigger f :: l1), l2. by rewrite E1, E2.
  - intros [= <- <-]. by exists [], (ids inner).
Qed.

Lemma stop_each_ok futures : forall ws evs rs, stop_each ws futures = (evs, Some rs) ->
  length rs = length futures /\ evs = stops (zip (ids futures) rs).
Proof.
  induction futures as [|f futures IH]; intros ws evs rs; cbn; [by intros [= <- <-]|].
  destruct (await ws (sf_future f)) as [[r ws']|]; [|done].
  destruct (stop_each ws' futures) as [evs' [rs'|]] eqn:E; [|done]. intros [= <- <-].
  destruct (IH _ _ _ E) as [Hl ->]. cbn. by rewrite Hl.
Qed.

(** The first error of a list, or [Ok]. *)
Lemma collect_results_spec rs :
  collect_results rs = from_option Err (Ok tt) (head (omap (fun r => match r with Err e => Some e | Ok _ => None end) rs)).
Proof. induction rs as [|[[]|e] rs IH]; cbn; [done|by rewrite IH|done]. Qed.

Definition ended_ok (l : list nat) : list Event := (fun i => Finished i (Ok tt)) <$> l.

(** A run that returned: the tasks of [done] finished by themselves, the failing one
    if there is one, and the rest was stopped in the order [rest]. *)
Definition run_shape (started : list nat) (evs : list Event) (res : result unit err) : Prop :=
  exists done kept rs, done ++ kept ≡ₚ started /\ kept `sublist_of` started /\
    ((kept = [] /\ evs = ended_ok done /\ res = Ok tt) \/
     (length rs = length kept /\ evs = ended_ok done ++ stops (zip (rev kept) rs) /\ res = collect_results rs) \/
     (exists i e rest, kept ≡ₚ i :: rest /\ rest `sublist_of` kept /\ length rs = length rest /\
        evs = ended_ok done ++ Finished i (Err e) :: stops (zip (rev rest) rs) /\ res = Err e)).

Lemma stop_all_ok ws futures evs res : stop_all ws futures = (evs, Some res) ->
  exists rs, length rs = length futures /\ evs = stops (zip (rev (ids futures)) rs) /\ res = collect_results rs.
Proof.
  unfold stop_all. destruct (stop_each ws (rev futures)) as [evs' [rs|]] eqn:E; [|done]. cbn. intros [= <- <-].
  apply stop_each_ok in E as [Hl ->]. exists rs. rewrite Hl, length_rev. split; [done|]. split; [|done].
  by rewrite <- (map_rev sf_trigger).
Qed.

Lemma run_tasks_shape ws wakes : forall futures evs res,
  run_tasks ws wakes futures = (evs, Some res) -> run_shape (ids futures) evs res.
Proof.
  induction wakes as [|wk wakes IH]; intros [|f futures] evs res; cbn [run_tasks].
  1,3: intros [= <- <-]; exists [], [], []; split; [done|]; split; [done|by left].
  - done.
  - set (fs := f :: futures). clearbody fs. destruct wk as [|w].
    + intros (rs & Hl & -> & ->)%stop_all_ok. exists [], (ids fs), rs. split; [done|]. split; [done|].
      right. left. by rewrite length_fmap.
    + destruct (select_poll w fs) as [rest [[i [[]|e]]|]] eqn:E; apply select_poll_ids in E; cbn in E.
      * destruct E as (l1 & l2 & Efs & Erest).
        destruct (run_tasks ws wakes rest) as [evs' [res'|]] eqn:Er; [|done]. intros [= <- <-].
        apply IH in Er as (dn & kept & rs & Hp & Hs & Hc). exists (i :: dn), kept, rs.
        rewrite Erest in Hp, Hs. rewrite Efs. split; [cbn; by rewrite Hp, Permutation_middle|].
        split; [etransitivity; [exact Hs|]; by apply sublist_app, sublist_cons|].
        destruct Hc as [(-> & -> & ->)|[(Hl & -> & ->)|(j & e & rest' & H1 & H2 & H3 & -> & ->)]];
          [by left|by right; left|right; right; by exists j, e, rest'].
      * destruct E as (l1 & l2 & Efs & Erest).
        destruct (stop_all ws rest) as [evs' [res'|]] eqn:Er; [|done]. intros [= <- <-].
        apply stop_all_ok in Er as (rs & Hl & -> & _). exists [], (ids fs), rs. split; [done|]. split; [done|].
        right. right. exists i, e, (ids rest). rewrite Efs, Erest. split; [by rewrite Permutation_middle|].
        split; [by apply sublist_app, sublist_cons|]. split; [|done]. by rewrite <- Erest, length_fmap.
      * rewrite <- E. apply IH.
Qed.

(** ** What the events say *)

Definition finished (ev : Event) : option nat := match ev with Finished i _ => Some i | Triggered _ => None end.
Definition triggered (ev : Event) : option nat := match ev with Triggered i => Some i | Finished _ _ => None end.
Definition failed (ev : Event) : option err := match ev with Finished _ (Err e) => Some e | _ => None end.

(** The first error in the order of the events. *)
Definition first_failure (evs : list Event) : result unit err := from_option Err (Ok tt) (head (omap failed evs)).

Lemma ended_ok_events l :
  omap finished (ended_ok l) = l /\ omap triggered (ended_ok l) = [] /\ omap failed (ended_ok l) = [].
Proof. induction l as [|i l (IH1 & IH2 & IH3)]; [done|]. split_and!; cbn; [by f_equal|done|done]. Qed.

Lemma stops_events l : omap finished (stops l) = l.*1 /\ collect_results l.*2 = first_failure (stops l).
Proof.
  rewrite collect_results_spec. unfold first_failure.
  assert (omap finished (stops l) = l.*1 /\ omap (fun r => match r with Err e => Some e | Ok _ => None end) l.*2 = omap failed (stops l))
    as [-> ->]; [|done].
  unfold stops. induction l as [|[i [[]|e]] l [IH1 IH2]]; [done|..]; split; cbn; by f_equal.
Qed.

Lemma sublist_seq_gt l n k : l `sublist_of` seq n k -> StronglySorted gt (rev l).
Proof.
  intros H. assert (StronglySorted lt l) as Hl.
  { assert (StronglySorted lt (seq n k)) as Hs.
    { clear H. revert n. induction k as [|k IH]; intros n; cbn; [constructor|]. constructor; [apply IH|].
      apply Forall_forall. intros x Hx%elem_of_seq. lia. }
    revert Hs. induction H as [|x l1 l2 H IH|x l1 l2 H IH]; inversion 1 as [|? ? Hs2 Hf]; subst; [by constructor| |by apply IH].
    constructor; [by apply IH|]. rewrite Forall_forall in Hf |- *. intros y Hy. apply Hf. by eapply elem_of_sublist. }
  clear H. induction Hl as [|x l Hl IH Hf]; cbn; [constructor|].
  assert (forall l1 (y : nat), StronglySorted gt l1 -> Forall (fun z => z > y)%nat l1 -> StronglySorted gt (l1 ++ [y])) as Hsnoc.
  { clear. induction l1 as [|z l1 IH]; intros y H1 H2; cbn; [by repeat constructor|].
    inversion_clear H1. inversion_clear H2. constructor; [by apply IH|]. apply Forall_app. by split; [|constructor]. }
  apply Hsnoc; [done|]. apply Forall_rev. by eapply Forall_impl.
Qed.

(** *** The manager returns *)

Section Stopping.
(** A task that was told to stop ends within [n] polls. *)
Context (n : nat).
Hypothesis tasks_stop : forall f ws, (n <= length ws)%nat ->
  exists r ws', await ws f = Some (r, ws') /\ (length ws <= length ws' + n)%nat.

Lemma stop_each_returns futures : forall ws, (n * length futures <= length ws)%nat ->
  exists evs rs, stop_each ws futures = (evs, Some rs).
Proof.
  induction futures as [|f futures IH]; intros ws Hl; cbn in *; [by eauto|].
  destruct (tasks_stop (sf_future f) ws ltac:(lia)) as (r & ws' & -> & Hw).
  destruct (IH ws' ltac:(lia)) as (evs & rs & ->). by eauto.
Qed.

Lemma stop_all_returns futures ws : (n * length futures <= length ws)%nat -> exists evs res, stop_all ws futures = (evs, Some res).
Proof.
  intros Hl. unfold stop_all. destruct (stop_each_returns (rev futures) ws) as (evs & rs & ->); [by rewrite length_rev|].
  by eauto.
Qed.

Lemma select_poll_length w inner rest o : select_poll w inner = (rest, o) -> (length rest <= length inner)%nat.
Proof.
  intros E%select_poll_ids. destruct o as [[i r]|].
  - destruct E as (l1 & l2 & E1 & E2). apply (f_equal length) in E1, E2. rewrite length_fmap, length_app in E1, E2. cbn in E1. lia.
  - apply (f_equal length) in E. rewrite !length_fmap in E. lia.
Qed.

Lemma run_tasks_returns ws wakes : forall futures, Signal ∈ wakes -> (n * length futures <= length ws)%nat ->
  exists evs res, run_tasks ws wakes futures = (evs, Some res).
Proof.
  induction wakes as [|wk wakes IH]; intros futures Hs Hl; [by apply not_elem_of_nil in Hs|].
  destruct futures as [|f futures]; [by cbn; eauto|]. cbn [run_tasks]. revert Hl. generalize (f :: futures) as fs. intros fs Hl.
  destruct wk as [|w]; [by apply stop_all_returns|].
  assert (Signal ∈ wakes) as Hs' by (apply elem_of_cons in Hs as [?|?]; done).
  destruct (select_poll w fs) as [rest o] eqn:E. apply select_poll_length in E.
  assert (n * length rest <= length ws)%nat as Hr by nia.
  destruct o as [[i [u|e]]|]; [|destruct (stop_all_returns rest ws Hr) as (evs & res & ->); by cbn; eauto|by apply IH].
  destruct (IH rest Hs' Hr) as (evs & res & ->). by cbn; eauto.
Qed.
End Stopping.

Lemma start_ids tasks : ids (start_futures (create_triggers (length tasks)) tasks) = seq 0 (length tasks).
Proof.
  unfold start_futures, create_triggers. generalize 0%nat.
  induction tasks as [|t tasks IH]; intros k; cbn; [done|]. by rewrite IH.
Qed.

Definition run_result (started : list nat) (evs : list Event) (res : result unit err) : Prop :=
  omap finished evs ≡ₚ started /\ res = first_failure evs /\
  exists pre l, evs = pre ++ stops l /\ omap triggered pre = [] /\ StronglySorted gt l.*1.

Lemma shape_result k evs res : run_shape (seq 0 k) evs res -> run_result (seq 0 k) evs res.
Proof.
  intros (dn & kept & rs & Hp & Hs & Hc). destruct (ended_ok_events dn) as (F1 & F2 & F3). unfold run_result, first_failure.
  assert (forall l rs, l `sublist_of` seq 0 k -> length rs = length l ->
    omap finished (stops (zip (rev l) rs)) ≡ₚ l /\ collect_results rs = first_failure (stops (zip (rev l) rs)) /\
    StronglySorted gt (zip (rev l) rs).*1) as Hz.
  { intros l rs' Hl El. assert ((zip (rev l) rs').*1 = rev l) as E1 by (apply fst_zip; rewrite length_rev; lia).
    assert ((zip (rev l) rs').*2 = rs') as E2 by (apply snd_zip; rewrite length_rev; lia).
    destruct (stops_events (zip (rev l) rs')) as [H1 H2]. rewrite E1 in H1. rewrite E2 in H2. rewrite H1, E1.
    split; [by apply Permutation_sym, Permutation_rev|]. split; [done|]. by eapply sublist_seq_gt. }
  destruct Hc as [(-> & -> & ->)|[(Hl & -> & ->)|(i & e & rest & H1 & H2 & Hl & -> & ->)]].
  - rewrite F1, F3. rewrite app_nil_r in Hp. split; [done|]. split; [done|]. exists (ended_ok dn), []. cbn.
    rewrite app_nil_r. split; [done|]. split; [done|constructor].
  - destruct (Hz kept rs Hs Hl) as (G1 & G2 & G3). rewrite !omap_app, F1, F3, G1. split; [done|]. split; [done|].
    by exists (ended_ok dn), (zip (rev kept) rs).
  - destruct (Hz rest rs ltac:(by etransitivity) Hl) as (G1 & G2 & G3). rewrite !omap_app. cbn. rewrite F1, F3, G1.
    split; [by rewrite <- Hp, H1|]. split; [done|]. exists (ended_ok dn ++ [Finished i (Err e)]), (zip (rev rest) rs).
    rewrite <- app_assoc. split; [done|]. split; [|done]. rewrite omap_app, F2. done.
Qed.

(** C31: where each task ends within [n] polls of being told to stop, the manager
    returns after a signal at the latest; every task has then finished, exactly once;
    tasks are only told to stop after the others have ended by themselves, one at a
    time, the last started first, each waited for before the next is told; and the
    manager returns the first error in the order in which the tasks ended. *)
Theorem manager_stops n tasks ws wakes :
  (forall f ws, (n <= length ws)%nat -> exists r ws', await ws f = Some (r, ws') /\ (length ws <= length ws' + n)%nat) ->
  (n * length tasks <= length ws)%nat -> Signal ∈ wakes ->
  exists evs res, start ws wakes tasks = (evs, Some res) /\ run_result (seq 0 (length tasks)) evs res.
Proof.
  intros Hn Hl Hs. assert (length (start_futures (create_triggers (length tasks)) tasks) = length tasks) as El.
  { by rewrite <- (length_fmap sf_trigger), start_ids, length_seq. }
  destruct (run_tasks_returns n Hn ws wakes (start_futures (create_triggers (length tasks)) tasks)) as (evs & res & E);
    [done|by rewrite El|].
  exists evs, res. split; [done|]. apply shape_result. rewrite <- start_ids. by eapply run_tasks_shape.
Qed.
End TaskManager.

(** ** Three tasks *)

(** A task counts down to its own end with its result, and stops when it is told. *)
Module ExampleTasks.
Definition countdown (w : unit) (told : bool) (f : nat * result unit string) : Poll (nat * result unit string) string :=
  if told then Ready f.2 else match f.1 with O => Ready f.2 | S k => Pending (k, f.2) end.
Definition tasks : list (nat * result unit string) := [(9%nat, Ok tt); (1%nat, Err "error"%string); (9%nat, Err "second"%string)].
Definition wakes : list (@Wake unit) := [Select tt; Select tt; Select tt; Signal].

Lemma told_ends f ws : (1 <= length ws)%nat ->
  exists r ws', await countdown ws f = Some (r, ws') /\ (length ws <= length ws' + 1)%nat.
Proof. destruct ws as [|[] ws]; cbn; [lia|]. intros _. exists f.2, ws. split; [done|lia]. Qed.

(** The second task fails; the third and the first are stopped in that order. *)
Lemma run_order : start countdown [tt; tt; tt] wakes tasks =
  ([Finished 1 (Err "error"%string); Triggered 2; Finished 2 (Err "second"%string); Triggered 0; Finished 0 (Ok tt)],
   Some (Err "error"%string)).
Proof. reflexivity. Qed.
End ExampleTasks.

Lemma manager_stops_witness :
  exists evs res, start ExampleTasks.countdown [tt; tt; tt] ExampleTasks.wakes ExampleTasks.tasks = (evs, Some res) /\
    run_result (seq 0 3) evs res.
Proof.
  apply (manager_stops ExampleTasks.countdown 1 ExampleTasks.tasks [tt; tt; tt] ExampleTasks.wakes ExampleTasks.told_ends).
  - cbn. lia.
  - unfold ExampleTasks.wakes. set_solver.
Defined.
