(* ===== verification/Entropy.v ===== *)
(** * The entropy service

    [poc_entropy/src/entropy_generator.rs] and [server.rs]: the generator that mixes
    the latest block hash with the clock once a minute, writes each value to a file
    for the verifier, and the server that gateways ask for the current value.  The
    RPC client, [bs58], the hash and the clock are parameters. *)

From S2P Require Import Prelude FileStoreTypes IotReports Ingest.

Open Scope Z_scope.
Open Scope oracle_scope.

(** [bs58::decode] *)
Class Base58 : Type := { base58_decode : string -> option string }.

Inductive GetEntropyError : Type := NoBlockHashFound | DecodeError | JsonRpcError.

Definition ENTROPY_VERSION : Z := 0.

Section Entropy.
Context {B3 : Blake3} {B58 : Base58}.

Record Entropy : Type := mkEntropy { en_version : Z; en_timestamp : Z; en_data : string }.

(** [From<&Entropy> for EntropyReportV1] *)
Definition entropy_report (v : Entropy) : EntropyReportProto :=
  mkEntropyReportProto (en_data v) (as_u64 (en_timestamp v)) (en_version v).

(** The answer of the RPC call: an error, or what its value has as the string
    [blockhash], if it has one. *)
Definition Rpc : Type := result (option string) unit.

Definition get_entropy (rpc : Rpc) : result string GetEntropyError :=
  let? value := map_err (fun _ => JsonRpcError) rpc in
  let? hash := ok_or value NoBlockHashFound in
  ok_or (base58_decode hash) DecodeError.

(** The watch channel, which the server reads, and the sink. *)
Record EntropyService : Type := mkEntropyService {
  es_watch : Entropy;
  es_sink : list EntropyReportProto
}.

(** [EntropyGenerator::new]; [now] is in seconds. *)
Definition entropy_generator_new (rpc : Rpc) (now : Z) : result EntropyService GetEntropyError :=
  let? data := get_entropy rpc in
  Ok (mkEntropyService (mkEntropy ENTROPY_VERSION now data) []).

Definition handle_entropy_tick (s : EntropyService) (rpc : Rpc) (now : Z) (out : SendOutcome)
    : EntropyService * result unit SinkWriteError :=
  let source_data := match get_entropy rpc with Ok data => data | Err _ => en_data (es_watch s) end in
  let data := blake3 (le_bytes 8 now +:+ source_data) in
  let entropy := mkEntropy (en_version (es_watch s)) now data in
  let '(sink, r) := client_write out (entropy_report entropy) (es_sink s) in
  (mkEntropyService entropy sink, r).

(** [EntropyServer::entropy] *)
Definition serve_entropy (s : EntropyService) : EntropyReportProto := entropy_report (es_watch s).

(** What happens to the service: a tick, with the number of requests that come
    after its value is in the channel and before its write has ended, or a request
    between ticks.  The loop of [run] returns at the first tick that fails, and the
    process ends. *)
Inductive entropy_input : Type := Tick (rpc : Rpc) (now : Z) (out : SendOutcome) (during : nat) | Ask.

(** The answers to the requests, the final state, and whether the service runs. *)
Fixpoint run_entropy (s : EntropyService) (ins : list entropy_input) : list EntropyReportProto * EntropyService * bool :=
  match ins with
  | [] => ([], s, true)
  | Ask :: ins => let '(answers, s', b) := run_entropy s ins in (serve_entropy s :: answers, s', b)
  | Tick rpc now out during :: ins =>
      match handle_entropy_tick s rpc now out with
      | (s1, Ok _) =>
          let '(answers, s', b) := run_entropy s1 ins in (replicate during (serve_entropy s1) ++ answers, s', b)
      | (s1, Err _) => (replicate during (serve_entropy s1), s1, false)
      end
  end.

(** ** What gateways are told is in the file *)

(** A value made from a source at a time. *)
Definition made_from (source : string) (r : EntropyReportProto) : Prop :=
  exists now, r = mkEntropyReportProto (blake3 (le_bytes 8 now +:+ source)) (as_u64 now) ENTROPY_VERSION.

(** The reports of a file: each is made from a block hash or from the value before. *)
Fixpoint chained (prev : string) (l : list EntropyReportProto) : Prop :=
  match l with
  | [] => True
  | r :: l => (exists source, made_from source r /\ (source = prev \/ exists hash, base58_decode hash = Some source)) /\
      chained (erp_data r) l
  end.

Lemma tick_ok s rpc now out s' u : en_version (es_watch s) = ENTROPY_VERSION -> handle_entropy_tick s rpc now out = (s', Ok u) ->
  let r := serve_entropy s' in
  es_sink s' = es_sink s ++ [r] /\ en_version (es_watch s') = ENTROPY_VERSION /\ en_data (es_watch s') = erp_data r /\
  exists source, made_from source r /\ (source = en_data (es_watch s) \/ exists hash, base58_decode hash = Some source).
Proof.
  intros Hv. unfold handle_entropy_tick. rewrite Hv. destruct out; [|done..]. cbn. intros [= <- _]. cbn.
  split; [done|]. split; [done|]. split; [done|]. eexists. split; [by exists now|].
  unfold get_entropy. destruct rpc as [[hash|]|]; cbn; [|by left..].
  destruct (base58_decode hash) eqn:E; cbn; [|by left]. right. by eauto.
Qed.

(** Where an answer comes from, for a service that started as [s0]. *)
Definition answer_known (s0 s : EntropyService) (running : bool) (l : list EntropyReportProto) (a : EntropyReportProto) : Prop :=
  a = serve_entropy s0 \/ a ∈ l \/ (running = false /\ a = serve_entropy s).

Lemma run_entropy_spec ins : forall s, en_version (es_watch s) = ENTROPY_VERSION ->
  let '(answers, s', b) := run_entropy s ins in
  exists l, es_sink s' = es_sink s ++ l /\ chained (en_data (es_watch s)) l /\ Forall (answer_known s s' b l) answers.
Proof.
  induction ins as [|[rpc now out during|] ins IH]; intros s Hv; cbn.
  - exists []. by rewrite app_nil_r.
  - destruct (handle_entropy_tick s rpc now out) as [s1 [u|e]] eqn:E.
    + destruct (tick_ok _ _ _ _ _ _ Hv E) as (Hs & Hv1 & Hd & Hm). specialize (IH s1 Hv1).
      destruct (run_entropy s1 ins) as [[answers s'] b]. destruct IH as (l & El & Hc & Ha).
      exists (serve_entropy s1 :: l). rewrite El, Hs, <- app_assoc. split; [done|]. split; [split; [done|by rewrite <- Hd]|].
      apply Forall_app. split; [apply Forall_replicate; right; left; set_solver|].
      eapply Forall_impl; [exact Ha|]. cbn. intros a [->|[H|H]]; right; [left; set_solver..|by right].
    + exists []. split; [|split; [done|apply Forall_replicate; by right; right]].
      unfold handle_entropy_tick in E. destruct out; cbn in E; [done|..]; injection E as <- _; by rewrite app_nil_r.
  - specialize (IH s Hv). destruct (run_entropy s ins) as [[answers s'] b]. destruct IH as (l & El & Hc & Ha).
    exists l. split; [done|]. split; [done|]. constructor; [by left|done].
Qed.

(** C34: what the entropy service hands to its sink is a chain of hashed values, each
    made at its time from a block hash or, when none could be fetched, from the value
    before; and every value that a gateway is told was handed to the sink, with two
    exceptions: until the first tick gateways are told the block hash the service
    started with, and they may be told the last value when its write fails, which
    ends the service. *)
Theorem entropy_told_is_written rpc now ins s0 : entropy_generator_new rpc now = Ok s0 ->
  let '(answers, s, running) := run_entropy s0 ins in
  chained (en_data (es_watch s0)) (es_sink s) /\ Forall (answer_known s0 s running (es_sink s)) answers.
Proof.
  unfold entropy_generator_new. destruct (get_entropy rpc) as [data|]; cbn; [|done]. intros [= <-].
  pose proof (run_entropy_spec ins (mkEntropyService (mkEntropy ENTROPY_VERSION now data) []) eq_refl) as H.
  destruct (run_entropy _ ins) as [[answers s] b]. destruct H as (l & -> & Hc & Ha). done.
Qed.
End Entropy.

Module ExampleEntropy.
#[local] Instance same_hash : Blake3 := { blake3 s := s }.
#[local] Instance plain : Base58 := { base58_decode s := if String.eqb s "0" then None else Some s }.
Definition inputs : list entropy_input :=
  [Ask; Tick (Ok (Some "b"%string)) 60 Sent 1; Ask; Tick (Err tt) 120 Sent 0; Ask; Tick (Err tt) 180 ChannelClosed 1; Ask].
Definition first : EntropyService := mkEntropyService (mkEntropy 0 1 "a") [].

Lemma entropy_told_is_written_witness :
  let '(answers, s, running) := run_entropy first inputs in
  chained "a" (es_sink s) /\ Forall (answer_known first s running (es_sink s)) answers.
Proof. exact (entropy_told_is_written (Ok (Some "a"%string)) 1 inputs first eq_refl). Defined.
End ExampleEntropy.
